(* ===== verification/_CoqProject ===== *)
-Q . S2P
Prelude.v
Contracts.v
ThreadStatus.v
Threads.v
RegistryDocument.v
Registration.v
RegistrySteps.v
RegistryRuns.v
RegistryHistory.v
RegistryTurns.v
RegistryGuarantees.v
Lifecycle.v
WakePolicy.v
AssignmentStates.v
ResponseStates.v
AttemptStates.v
ExecutionStates.v
GoalStates.v
Rows.v
Sha256.v
GoalLedger.v
GoalStore.v
GoalActions.v
GoalMachine.v
GoalInvariants.v
GoalProcesses.v
GoalFacts.v
GoalActionFacts.v
EnvelopeClaims.v
ClaimBus.v
ClaimFacts.v
ClaimGuarantees.v
ClaimLiveness.v
Delivery.v
CohortRows.v
TableGuards.v
Database.v
CohortTables.v
Session.v
SchemaSteps.v
SchemaInvariants.v
RowTypes.v
Replay.v
Stepwise.v
ParticipantStore.v
AssignmentStore.v
HarnessStore.v
CohortSchema.v
Cohort.v
CohortFacts.v
CohortPages.v
Acceptance.v
Snapshot.v
Settlement.v
ExecutionStore.v
AttemptStore.v
Fences.v
Progress.v
AttemptOutcomes.v
Recovery.v
Publication.v
PublicationFacts.v
ExecutionFacts.v
Scheduler.v
NativeRows.v
NativeSession.v
NativeStore.v
NativeCursor.v
SourceCoverage.v
NativeSteps.v
NativeFacts.v
NativeGuarantees.v
CoverageFacts.v
Scenario.v
CohortScenario.v
GoalScenario.v
ClaimScenario.v
RegistryScenario.v
NativeScenario.v
