(* ===== verification/Prelude.v ===== *)
(** * agent-comms coordination core: a verification library

    agent-comms lets coding agents exchange messages over a shared bus.  A message that
    wakes its recipient becomes a durable claim; claims are bound to an execution; an
    execution runs attempts under owner fences; and the response of a wire execution is
    published on the bus once.  All of this lives in one SQLite database (the coordinator)
    beside the bus file, written by concurrent processes that may die at any moment.  A
    thread may also declare a goal, which launches turns by itself: a second database, the
    goal attempt ledger, decides who may launch it and how often.  Threads that edit files
    claim them by transitions that rows of the bus carry.  What a native model is asked goes
    through a ledger of inputs in the coordinator's file, which permits each prompt to be
    written once.  The threads themselves, with the processes that own them, are the rows of
    a registry document beside it.  This library models that core, with its schemas, and
    proves it correct.  Paths below are under [src/src/agent_comms/].

    ** The parts and the files that model them

    - State families.  [Lifecycle.v] ([lifecycle.py], [lifecycle_capability.py]) states what
      a declared family of lifecycle states gives its clients, as a class with laws;
      [WakePolicy.v] ([wake_policy.py]), [AssignmentStates.v] ([assignment_states.py]),
      [ResponseStates.v] ([obligation_states.py]), [AttemptStates.v] ([attempt_states.py])
      and [ExecutionStates.v] ([execution_states.py]) hold the families and discharge the
      laws.  [Contracts.v] holds the errors, bounds, reasons and results
      ([coordination/contracts.py], [errors.py], [results.py], [reason_codes.py]).
    - The schema.  [Rows.v] has the row classes of [coordination/tables/*.py] with their
      construction checks, SQL checks and generated columns, [CohortRows.v] those of
      [cohort_schema.py] with the harness attempts and their outcomes
      ([harness_delivery_states.py]); [TableGuards.v] has the trigger conditions that
      [storage/typed_table.py] derives from a row's capabilities; [Database.v] the database
      as a record of finite maps, each table's triggers, unique and foreign keys, and the
      class [Table] that the statements are written against, with the instances of the
      cohort, harness and recovery tables in [CohortTables.v].
    - Statements and transactions.  [Session.v] executes one INSERT or UPDATE in SQLite's
      order of checks, and gives the state and error monad of a store method with its clock
      and its write transactions ([coordination/session.py], [storage/locked_store.py]).
    - Acceptance.  [Delivery.v] has the frozen recipients and audience of a committed
      message and the digests that identify them ([frozen_recipient.py],
      [audience_manifest.py], [bus_publication.py]); [Cohort.v] turns a committed message
      into an acknowledged cohort of claims, visits the messages a recipient has not looked
      at, advances its frontier and reads its sealed claims in pages
      ([coordination/cohort.py], [cohort_foreground.py]); [HarnessStore.v]
      ([coordination/tables/harness_deliveries.py]) records what a bridge did with one
      message for one recipient.
    - The other stores, one file each, every operation written as the code composes it:
      [ParticipantStore.v], [AssignmentStore.v], [Replay.v] (the replay assessments of
      [coordination/tables/executions.py] and [turn_failure.py]), [Snapshot.v]
      ([coordination/snapshot.py], [recovery_reader.py]), [ExecutionStore.v],
      [AttemptStore.v] ([owner_fence.py], [attempt_start.py], [attempt_store.py]) over
      [Sha256.v], [Recovery.v] (the end of a dead owner's attempt, [attempt_recovery.py],
      [pi_vocabulary.py]) and [Publication.v] ([coordination/response.py] with the bus
      writes of [publisher.py], [bus_publication.py], [bus.py] and [messages.py]).
    - Goals.  [GoalStates.v] has the stored decision about a goal, the generations and the
      phases of its attempts ([goal_states.py], [goal_authority.py], [goal_generation.py],
      [goal_attempt_phase.py], [attempt_resolution.py]); [GoalLedger.v] the rows of the
      ledger and [GoalStore.v] the operations of [goal_attempts.py] and
      [goal_failure_observation.py], each a [Change]: a write, its readback, and what the
      process keeps of it; [GoalActions.v] the actions that change a thread's declared goal
      together with the ledger ([goals.py], [goal_actions.py]).
    - Resource claims.  [EnvelopeClaims.v] ([envelope_claim_transitions.py]) has the scopes,
      the transitions and the table of claims they map; [ClaimBus.v] the tables of
      [messages.py] that hold them, the append and the rebuild of the derived tables, and
      the publication and release of claims ([bus.py], [publisher.py],
      [coordination/snapshot.py]).
    - The registry of threads.  [ThreadStatus.v] ([thread_status.py], [child_process.py])
      has the statuses of a thread and what a process makes of them; [Threads.v] the
      declaration of a thread, its birth, role, turn and tools ([registry/threads.py],
      [thread_creation.py], [thread_identity.py], [turn_lease.py]); [RegistryDocument.v] the
      document, its names and its operations ([registry/registry_document.py],
      [registry_provenance.py]), in a state and error monad over an edit; [Registration.v]
      the registrations, endpoint bindings and turn leases, and the transactions of the
      store ([registration_change.py], [registry/registration.py],
      [registry/registry_store.py]).  [ClaimLiveness.v] joins it to the resource claims,
      whose owners it decides.
    - Native inputs.  [NativeRows.v] has the rows of the ledger and the rules that refuse a
      send ([native_runtime_input.py], [triage_native_sources.py], [native_input_record.py],
      [native_claim_epoch.py], [native_input_proof.py], [native_session_reopen.py],
      [private_send_rules.py], [reservation_rules.py]); [NativeSession.v] its statements and
      transactions beside the coordinator's, the tool slots ([selected_tool_broker.py]) and
      the checks of a captured owner ([native_input_owner.py]); [NativeStore.v] the
      reservation, the bound prompt, the grant, the acknowledged context and the settlement
      of a triage question or a full answer ([private_send_stage.py],
      [private_send_claim.py], [native_prompt_binding.py], [selected_triage.py],
      [durable_turn.py]); [NativeCursor.v] the cursor of a recipient ([cursor_owner.py]);
      [SourceCoverage.v] the read that proves how far its messages are settled: pages of the
      bus, the recorded inputs of a message and the settlement of its claim
      ([proven_source_coverage.py], [historical_native_inputs.py],
      [source_proof_requirement.py], [bus_source_page.py]).
    - Proof layers.  [SchemaSteps.v], [SchemaInvariants.v] and [CohortSchema.v] take any
      accepted statement as a step and prove what every reachable database satisfies;
      [Stepwise.v] proves that every store method is a sequence of such steps, so the
      invariants hold of the program; [RowTypes.v] derives that stored rows decode.
      [Settlement.v], [Fences.v], [Progress.v], [AttemptOutcomes.v], [ExecutionFacts.v],
      [PublicationFacts.v], [CohortFacts.v] and [CohortPages.v] state what the operations
      do, and [Acceptance.v] what any interleaving of acceptance passes with the rest of the
      system does.  For goals, [GoalMachine.v] states the steps of the ledger and proves
      that every write is one, [GoalInvariants.v] what they keep, [GoalProcesses.v] takes
      any interleaving of processes that crash or fail to read back, and [GoalFacts.v] and
      [GoalActionFacts.v] state the results.  [ClaimFacts.v] holds what one append and one
      release do to the table of claims, [ClaimGuarantees.v] the results for every sequence
      of publications.  For the registry, [RegistrySteps.v] states the steps of the document
      and what they keep, [RegistryRuns.v] proves that every operation is a sequence of
      them, [RegistryHistory.v] follows generations and names along them, [RegistryTurns.v]
      evaluates leases and claims of names, and [RegistryGuarantees.v] has the results for
      every sequence of calls.  For native inputs, [NativeSteps.v] states the steps of the
      ledger, proves that every operation is a sequence of them and what they keep,
      [NativeFacts.v] says what the operations do, and [NativeGuarantees.v] has the results
      for every run of the sending processes; [CoverageFacts.v] says what a coverage read
      finds and follows the cursor along runs that refresh it.
    - Refinement.  [Scheduler.v] states the coordinator's contract as an abstract machine of
      executions and of the one attempt each owner runs, and proves that every store
      operation is one of its steps or none.
    - [Scenario.v], [CohortScenario.v], [GoalScenario.v], [ClaimScenario.v],
      [RegistryScenario.v] and [NativeScenario.v] run the model on concrete exchanges and
      apply the theorems there.

    ** What the theorems show

    - Publication (C1, C11): over any interleaving of publishing processes, crashes
      included, the append of a response is called at most once per route, and a receipt
      implies the durable bus row it names.
    - The scheduler (C2): the stores refine the abstract machine, errors included.
    - Acceptance (C3, C15, C16, C37, C38): the frontier of a recipient never passes a
      message whose cohort is not sealed, but for messages frozen for another name of the
      recipient and for imported history, and consecutive passes catch up with the bus; a
      sealed cohort is complete and covers its audience; the paged read of a recipient's
      claims returns, and returns all of them, at most one page at a time.
    - Outcomes, recovery and retry (C7, C9, C10): settlement moves the attempt, the
      execution, its obligations, its claims and the owner's pointer together; an unknown
      outcome, an observed effect or a lost owner denies retry for ever.
    - Fences (C28 to C30): who may start an attempt, what fence a start hands out, what an
      advance records, and that superseded generations are refused for ever.
    - Goals (C4, C8, C26, C27, C36): over any interleaving of processes a generation of a
      goal is launched at most once, two launches are separated by what authorised each
      generation between them, a decision is spent once, and a closed, replaced or cleared
      goal is never launched again; of the actions, that a goal checkpoint fences, and that
      a protected pause ends only by its owner or by a retry. That a model's own retry ends
      such a pause is [retry_lifts_protected_pause].
    - Resource claims (C17, C18): a live claim is never taken from its owner, an acquisition
      is decided by the current holder, an operation is consumed once, the derived tables
      are what a rebuild from history gives, and a release spares every other live claim.
    - The registry (C20 to C22, C34, C35): whatever calls any processes made, the stored
      document reads back, a generation that was passed never returns and never names
      another thread, and a name leads to its thread until the thread is removed; a replaced
      owner and the claims of a withdrawn one are refused for ever; claiming succeeds under
      the first free name.  Two places where the code does less than its comments say are
      [stale_declaration_reopens_turn] and [retagging_fences_dead_owner].
    - Native inputs (C5, C6, C12 to C14, C19, C23 to C25, C31): no prompt is granted twice,
      whichever processes run and die; a grant needs every authority that was captured and
      an owner that was superseded has none left; a claim is asked about at most twice and
      an answer settles its whole batch; a cursor never regresses, names an input that
      reached a model, and an advance records no more than its coverage proves.  The pages
      of a coverage read are one scan that stops at the first message that is not settled,
      and so a cursor never covers a message of its recipient that is not settled.
    - Schema invariants (C32, C33, C39): contiguous attempts under growing generations, one
      live attempt per owner, and stored rows that decode.
    - Loading (C40): what loading a stored wake claim gives back.

    The files hold further theorems of this kind that are not numbered: stale revisions are
    refused, a repeated start hands out the same fence, a recovery that raises leaves the
    attempt its owner, success of a wire execution cannot be recorded without its response,
    creating an execution binds every source, an earlier harness attempt is honoured by
    acceptance, a current fence can always advance, terminal attempts are immutable, the
    generated triggers agree with the declared transitions, an obligation is published
    exactly when it has its receipt, a dispatched response is never resent, recording a
    cohort again changes nothing, a failed goal needs a decision and an explicit retry leads
    to a launch, consecutive acceptance passes catch up with the bus, a superseded
    generation is refused for ever, a work decision is spent once, only its owner or a retry
    ends a protected pause, an acquisition is decided by the current holder, a claim
    operation is consumed once, a release spares every other live claim, a name keeps
    leading to its thread, an owner that a cursor has passed never advances it, what was
    recorded of a native input stays, a turn is released by its exact lease and once,
    settling an attempt releases its files, the retry rule is the SQL view, the pointer
    names the owner's active execution, and when a harness attempt may begin and be
    delivered.

    ** How the code is represented

    A row is a record, a table a finite map from its primary key, NULL is [None], and an
    integer is an unbounded [Z], as in Python; columns that SQLite bounds have their CHECK
    conditions written out.  Text is a string of code points below 256.  An exception is
    [Err] of one inductive type with the message the code gives.  A store method has type
    [Session -> outcome A * Session]; a transaction that raises, or whose deferred foreign
    keys fail, restores the rows it found.  The clock is an arbitrary function of the number
    of readings.  The bus is a second store that no coordinator transaction rolls back.

    The registry is a document and the files of its turns.  An edit works on a copy of the
    document, which an error discards, while turn files are written at once; a commit
    deletes the files that a lease superseded.  What a call sees around it, the clock, the
    live processes, its own process and when each transcript was last written, is an
    [Observation], another one for every call.  A birth is the bits of a positive double, so
    that the next representable time is the next integer.

    Every loop of the source but three is over a list or a fixed range.  The paged read of
    sealed claims stops at the first page that is not full: [pending_pages] has fuel for the
    number of pages, and C37 proves that any fuel whose pages hold more rows than the claim
    table gives the complete result.  The search for a free name has fuel for one candidate
    more than there are names and aliases, and the search for a free birth for one more than
    there are births; C35 proves that they end at the first free one.  Minted identities and
    secrets are arguments of the operations that mint them.

    These arguments stand for what the modelled operations ask of the rest of the program:
    [Boundary], the release of native resources at settlement; [ResponseBoundary], the
    registry, cohort receipt, routing and enrichment checks of a publication;
    [VerifiedAttemptOwnerLoss] and its evidence, what the observation of a dead process
    reported; [ActionContext], what a goal action reads of the registry, the Todo store and
    the bus, whether the Todo store and the waits take what it writes there, and whether the
    publication of its result succeeds; [RegistryClaims], which threads and generations the
    registry still has for the owner of a claim; [ClaimRequest], the checks of the message
    that carries a claim; the namespace of a bus; and, for the registry, how the carried
    fields of a declaration combine and compare, whether the catalog has room for new tags,
    and how a recorded birth is read.  For native inputs they are [ThreadFields], what a
    check reads of the carried fields; [SendBoundary], the registry under its lock, the
    maintenance barrier, the selected session and the single-use token of a grant; the
    context that was read from a session file; [EvidenceReads], what the session files and
    journals answer about a recorded context and a bound prompt; and [PageView] and
    [BusSeen], what a page of a coverage read finds of the bus.  Each may refuse or vary;
    the theorems hold for every such argument.

    ** What is not modelled

    The goal and publication models take the registry's answers as arguments; what the
    registry guarantees of them is proved beside it.  Team projects, checkouts, native
    session attachment, children and slots of the registry, and the participant row a
    registration writes, are left out.  Of native inputs, the recovery of sent inputs,
    answered inputs and candidate queries, the retention of session files, transcript
    projections and the child process are left out, and the file that holds prompt bindings
    is a table of its own that is published after its transaction.  Next in the plan are
    work selection, the Todo store and the waits that order and standby actions write, and
    page traversal and display order.  File locks, schema installation and migration,
    reflection over annotations, observation of processes and session files, provider
    protocols, rendering, the command line and the installer are I/O around this core and
    are left out. *)

From stdpp Require Import base gmap strings list sorting option.
From Stdlib Require Import ZArith Lia.

Declare Scope comms_scope.
Delimit Scope comms_scope with comms.
#[global] Open Scope Z_scope.

(** ** Fallible computations: an exception is a value *)

Inductive result (E A : Type) : Type :=
| Ok (a : A)
| Err (e : E).
Arguments Ok {E A} a.
Arguments Err {E A} e.

#[export] Instance result_ret E : MRet (result E) := fun A a => Ok a.

#[export] Instance result_bind E : MBind (result E) :=
  fun A B f m => match m with Ok a => f a | Err e => Err e end.

#[export] Instance result_eq_dec {E A : Type} `{!EqDecision E, !EqDecision A} :
  EqDecision (result E A).
Proof. solve_decision. Defined.

(** [if not condition: raise error] *)
Definition require {E : Type} (condition : bool) (error : E) : result E unit :=
  if condition then Ok tt else Err error.

(** [if condition: raise error] *)
Definition refuse {E : Type} (condition : bool) (error : E) : result E unit :=
  if condition then Err error else Ok tt.

Definition of_option {E A : Type} (o : option A) (error : E) : result E A :=
  match o with Some a => Ok a | None => Err error end.

Definition is_ok {E A : Type} (r : result E A) : bool :=
  match r with Ok _ => true | Err _ => false end.

(** A [for] statement whose body may raise. *)
Fixpoint each {E A : Type} (f : A -> result E unit) (xs : list A) : result E unit :=
  match xs with
  | [] => Ok tt
  | x :: rest => _ ← f x; each f rest
  end.

Notation "'check!' c 'else' e ; k" := (mbind (fun _ => k) (require c e))
  (at level 100, c at next level, e at next level, k at level 200, right associativity)
  : comms_scope.
Notation "'refuse!' c 'with' e ; k" := (mbind (fun _ => k) (refuse c e))
  (at level 100, c at next level, e at next level, k at level 200, right associativity)
  : comms_scope.
#[global] Open Scope comms_scope.

Section results.
Context {E : Type}.

Lemma bind_ok_inv {A B : Type} (m : result E A) (f : A -> result E B) b :
  mbind f m = Ok b <-> exists a, m = Ok a /\ f a = Ok b.
Proof.
  destruct m as [a|e]; simpl; split.
  - eauto.
  - intros (? & ? & ?); congruence.
  - discriminate.
  - intros (? & ? & ?); congruence.
Qed.

Lemma bind_err_inv {A B : Type} (m : result E A) (f : A -> result E B) e :
  mbind f m = Err e <-> m = Err e \/ exists a, m = Ok a /\ f a = Err e.
Proof.
  destruct m as [a|e']; simpl; split.
  - eauto.
  - intros [H|(? & ? & ?)]; congruence.
  - intros H. left. congruence.
  - intros [H|(? & ? & ?)]; congruence.
Qed.

Lemma require_ok (c : bool) (e : E) : require c e = Ok tt <-> c = true.
Proof. destruct c; simpl; split; congruence. Qed.

Lemma require_ok_any (c : bool) (e : E) u : require c e = Ok u <-> c = true.
Proof. destruct c, u; simpl; split; congruence. Qed.

Lemma refuse_ok (c : bool) (e : E) u : refuse c e = Ok u <-> c = false.
Proof. destruct c, u; simpl; split; congruence. Qed.

Lemma of_option_ok {A : Type} (o : option A) (e : E) a :
  of_option o e = Ok a <-> o = Some a.
Proof. destruct o; simpl; split; congruence. Qed.

Lemma each_ok {A : Type} (f : A -> result E unit) xs :
  each f xs = Ok tt <-> Forall (fun x => f x = Ok tt) xs.
Proof.
  induction xs as [|x rest IH]; simpl.
  - split; [constructor | reflexivity].
  - split.
    + intros ([] & Hx & Hrest)%bind_ok_inv. constructor; [done | by apply IH].
    + intros [Hx Hrest]%Forall_cons_1. apply bind_ok_inv. exists tt.
      split; [done | by apply IH].
Qed.

Lemma is_ok_spec {A : Type} (r : result E A) : is_ok r = true <-> exists a, r = Ok a.
Proof. destruct r; simpl; split; [eauto | done | done | intros [? ?]; congruence]. Qed.
End results.

(** ** Inversion of successful computations *)

Ltac ok_step :=
  match goal with
  | H : mbind _ _ = Ok _ |- _ =>
      apply bind_ok_inv in H; destruct H as (? & ? & H)
  | H : require _ _ = Ok _ |- _ => apply require_ok_any in H
  | H : refuse _ _ = Ok _ |- _ => apply refuse_ok in H
  | H : of_option _ _ = Ok _ |- _ => apply of_option_ok in H
  | H : Ok _ = Ok _ |- _ => injection H as H
  | H : Err _ = Ok _ |- _ => discriminate H
  | H : each _ _ = Ok _ |- _ =>
      let u := fresh in
      match type of H with _ = Ok ?x => destruct x; apply each_ok in H end
  end.
Ltac ok_inv := repeat ok_step; simplify_eq.

(** Boolean guards read back as propositions. *)
Ltac bool_step :=
  match goal with
  | H : (_ && _) = true |- _ => apply andb_true_iff in H; destruct H
  | H : (_ || _) = false |- _ => apply orb_false_iff in H; destruct H
  | H : negb _ = true |- _ => apply negb_true_iff in H
  | H : negb _ = false |- _ => apply negb_false_iff in H
  | H : bool_decide _ = true |- _ => apply bool_decide_eq_true in H
  | H : bool_decide _ = false |- _ => apply bool_decide_eq_false in H
  | H : (_ <=? _) = true |- _ => apply Z.leb_le in H
  | H : (_ <=? _) = false |- _ => apply Z.leb_gt in H
  | H : (_ <? _) = true |- _ => apply Z.ltb_lt in H
  | H : (_ <? _) = false |- _ => apply Z.ltb_ge in H
  | H : (_ =? _) = true |- _ => apply Z.eqb_eq in H
  | H : (_ =? _) = false |- _ => apply Z.eqb_neq in H
  end.
Ltac bools := repeat bool_step.

(** Bit sets: a union contains each of its parts. *)
Lemma land_lor_part a b : Z.land (Z.lor a b) b = b.
Proof.
  apply Z.bits_inj'. intros n _. rewrite Z.land_spec, Z.lor_spec.
  by destruct (Z.testbit a n), (Z.testbit b n).
Qed.

Create HintDb comms discriminated.
#[export] Hint Resolve Z.le_refl Z.le_max_l Z.le_max_r : comms.
