(* ===== verification/Contracts.v ===== *)
(** * Coordinator errors, identity bounds, reasons and results

    Models [coordination/errors.py] (the error classes the coordinator raises),
    [coordination/contracts.py] (identity bounds), [reason_codes.py],
    [coordination/results.py] and the [MessageReference] pair of
    [message_reference.py].  Text is a list of code points below 256 and its
    length counts them, as Python's [len] and SQLite's [length] do. *)

From stdpp Require Import base gmap strings list pretty.
From Stdlib Require Import ZArith Lia Ascii.
From S2P Require Import Prelude.

(** ** Errors *)

(** The exception classes, with the message each raise statement gives.  The last
    four are what SQLite itself raises: a trigger's [RAISE(ABORT)], a violated
    CHECK/UNIQUE/NOT NULL constraint, a violated foreign key, and an operation the
    driver refuses because a row is missing. *)
Inductive Error : Type :=
| ValueError (message : string)
| MalformedRecord (message : string)
| IntegrityViolationError (message : string)
| IdentityConflict (message : string)
| ParticipantNotRegistered (lookup : string)
| StaleRevision (message : string)
| StaleFence (message : string)
| RecoveryBlocked (message : string)
| ResponseClaimBlocked
| PublicationUncertain (message : string)
| ProjectionUnavailableError (message : string)
| RelationViolationError (message : string)
| CommittedMessageError
| RowNotFoundError (name : string)
| TypeError
| GoalRefused (message : string)
| UnresolvedAttemptError (message : string)
| StaleAttemptError (message : string)
| ReservationConflictError (message : string)
| MissingGoalGenerationError (goal_id : string)
| StorageUncertainError (message : string)
| ClaimTransitionError (message : string)
| ClaimConflict (owner : string)
| KeyError (key : string)
| ClaimEnvelopeUnknownError (message : string)
| UnregisteredThreadError (message : string)
| RestartRefusal (message : string)
| NativeReopenError (message : string)
| UnrecordedNativeContext (message : string)
| SelectedToolDenied (message : string)
| SqlAbort (message : string)
| SqlConstraint (name : string)
| SqlForeignKey.

#[export] Instance Error_eq_dec : EqDecision Error.
Proof. solve_decision. Defined.

Abbreviation outcome := (result Error).

(** ** Bounds *)

Definition MAX_PUBLICATION_PAYLOAD_BYTES : Z := 120000.
Definition MAX_REASON_CODE_CHARS : Z := 64.
Definition MAX_SANITIZED_DETAIL_CHARS : Z := 512.
Definition MAX_IDENTIFIER_CHARS : Z := 256.
Definition RESOLVER_VERSION : string := "resolver-v1".
Definition POLICY_VERSION : string := "policy-v1".

(** Python's [len] of a text. *)
Definition len (s : string) : Z := Z.of_nat (String.length s).

(** [text.encode("utf-8")] *)
Fixpoint utf8 (text : string) : list Z :=
  match text with
  | EmptyString => []
  | String c rest =>
      let code := Z.of_N (Ascii.N_of_ascii c) in
      (if code <? 128 then [code] else [192 + Z.shiftr code 6; 128 + code mod 64]) ++ utf8 rest
  end.

(** Python's [":" in text]. *)
Fixpoint contains_colon (s : string) : bool :=
  match s with
  | EmptyString => false
  | String c rest => if Ascii.eqb c ":"%char then true else contains_colon rest
  end.

Definition require_nonempty (value field : string) : outcome unit :=
  refuse (bool_decide (value = "")) (ValueError (field +:+ " cannot be empty")).

Definition require_bounded (value : option string) (field : string) (maximum : Z) : outcome unit :=
  match value with
  | Some text => refuse (maximum <? len text) 
                   (ValueError (field +:+ " exceeds " +:+ pretty maximum +:+ " characters"))
  | None => Ok tt
  end.

Definition require_optional_nonempty (value : option string) (field : string) (maximum : Z)
    : outcome unit :=
  match value with
  | Some text => _ ← require_nonempty text field; require_bounded value field maximum
  | None => Ok tt
  end.

Definition validate_execution_id (execution_id : string) : outcome unit :=
  _ ← require_nonempty execution_id "execution_id";
  _ ← require_bounded (Some execution_id) "execution_id" MAX_IDENTIFIER_CHARS;
  refuse (contains_colon execution_id) (ValueError "execution_id cannot contain ':'").

(** ** Reasons and results *)

(** [GivenReasonCode(text)] or [NoReasonCode()]. *)
Inductive ReasonCode : Type :=
| GivenReasonCode (text : string)
| NoReasonCode.

#[export] Instance ReasonCode_eq_dec : EqDecision ReasonCode.
Proof. solve_decision. Defined.

Definition given_reason_code (text : string) : outcome ReasonCode :=
  _ ← require ((1 <=? len text) && (len text <=? MAX_REASON_CODE_CHARS))
      (ValueError "reason code is invalid");
  Ok (GivenReasonCode text).

Inductive RecoveryDetail : Type :=
| GivenDetail (text : string)
| NoDetail.

#[export] Instance RecoveryDetail_eq_dec : EqDecision RecoveryDetail.
Proof. solve_decision. Defined.

Definition given_detail (text : string) : outcome RecoveryDetail :=
  _ ← refuse (MAX_SANITIZED_DETAIL_CHARS <? len text)
      (ValueError "sanitized_detail exceeds its bound");
  Ok (GivenDetail text).

(** A store operation either changed the store or found its change already made. *)
Inductive applied (A : Type) : Type :=
| Applied (value : A)
| AlreadyApplied (value : A).
Arguments Applied {A} value.
Arguments AlreadyApplied {A} value.

Definition applied_value {A : Type} (r : applied A) : A :=
  match r with Applied v | AlreadyApplied v => v end.

(** ** References *)

Record MessageReference : Type := mkMessageReference {
  ref_seq : Z;
  ref_message_id : string;
}.

#[export] Instance MessageReference_eq_dec : EqDecision MessageReference.
Proof. solve_decision. Defined.

(** ** Facts *)

Lemma validate_execution_id_ok execution_id :
  validate_execution_id execution_id = Ok tt <->
  execution_id <> "" /\ len execution_id <= MAX_IDENTIFIER_CHARS /\
  contains_colon execution_id = false.
Proof.
  unfold validate_execution_id, require_nonempty, require_bounded, refuse.
  case_bool_decide as Hempty; simpl; [split; [done | tauto]|].
  destruct (Z.ltb_spec MAX_IDENTIFIER_CHARS (len execution_id)) as [Hlen|Hlen]; simpl.
  - split; [done | lia].
  - destruct (contains_colon execution_id); split; try done; intros (_ & _ & ?); done.
Qed.
