(* ===== verification/ThreadStatus.v ===== *)
(** * Thread statuses and processes

    Models [thread_status.py], the lifecycle of a thread in the registry, and the recorded
    process of a thread with what it answers ([ProcessState] of [child_process.py]).  A stored
    status is a declaration; what it means at a moment also depends on the process table and
    the clock, which are one observation per registry operation.  Clock readings are whole
    microseconds.  Rendering and messaging behaviour is left out. *)

From stdpp Require Import base gmap strings list.
From Stdlib Require Import ZArith Lia.
From S2P Require Import Prelude Contracts.

(** ** Processes *)

Inductive ProcessState : Type :=
| NoProcess
| ProcessIdentity (pid start_time : Z).

#[export] Instance ProcessState_eq_dec : EqDecision ProcessState.
Proof. solve_decision. Defined.

(** What one registry operation observes around it: the clock, the live processes, its own
    process, and when each thread's transcript was last written. *)
Record Observation : Type := mkObservation {
  ob_now : Z;
  ob_live : list (Z * Z);
  ob_self : ProcessState;
  ob_written : string -> Z;
}.

(** [ProcessState.alive] *)
Definition alive (ob : Observation) (p : ProcessState) : bool :=
  match p with
  | NoProcess => false
  | ProcessIdentity pid start => bool_decide ((pid, start) ∈ ob_live ob)
  end.

(** [ProcessState.conflicts_with] *)
Definition conflicts_with (p previous : ProcessState) : bool :=
  match p with NoProcess => false | _ => bool_decide (p <> previous) end.

(** [ProcessState.applied] *)
Definition process_applied (p previous : ProcessState) : ProcessState :=
  match p with NoProcess => previous | _ => p end.

(** ** Statuses *)

Inductive ThreadStatus : Type :=
| ProcessThreadStatus
| RunningThreadStatus
| HeartbeatThreadStatus
| IdleThreadStatus
| StoppedThreadStatus
| StoppingThreadStatus
| ConnectedThreadStatus
| PausedBridgeThreadStatus
| NoBridgeThreadStatus
| ServiceThreadStatus
| ArchivedThreadStatus
| DeletingThreadStatus.

#[export] Instance ThreadStatus_eq_dec : EqDecision ThreadStatus.
Proof. solve_decision. Defined.

(** Members of [ActiveThreadPresence] *)
Definition active_presence (s : ThreadStatus) : bool :=
  match s with
  | ProcessThreadStatus | RunningThreadStatus | HeartbeatThreadStatus | IdleThreadStatus
  | ConnectedThreadStatus => true
  | _ => false
  end.

(** Members of [StoppedPresence] *)
Definition stopped_presence (s : ThreadStatus) : bool :=
  match s with
  | StoppedThreadStatus | StoppingThreadStatus | PausedBridgeThreadStatus | NoBridgeThreadStatus => true
  | _ => false
  end.

(** Members of [CliInboxPresence] *)
Definition cli_inbox (s : ThreadStatus) : bool :=
  match s with
  | ConnectedThreadStatus | PausedBridgeThreadStatus | NoBridgeThreadStatus => true
  | _ => false
  end.

(** [ThreadStatus.declaration]: what is stored *)
Definition declaration (s : ThreadStatus) : ThreadStatus :=
  match s with
  | RunningThreadStatus | HeartbeatThreadStatus => ProcessThreadStatus
  | StoppingThreadStatus => StoppedThreadStatus
  | _ => s
  end.

(** [HeartbeatThreadStatus.when_seen]; the age limit is 120 seconds. *)
Definition max_age : Z := 120 * 1000000.

Definition when_seen (now last_seen : Z) : ThreadStatus :=
  if now - last_seen <=? max_age then HeartbeatThreadStatus else StoppedThreadStatus.

(** [ActiveThreadPresence.process_seen] *)
Definition process_seen (ob : Observation) (s : ThreadStatus) (p : ProcessState) : ThreadStatus :=
  if alive ob p
  then match s with ProcessThreadStatus => RunningThreadStatus | _ => s end
  else StoppedThreadStatus.

(** [ProcessState.thread_status] *)
Definition thread_status (ob : Observation) (p : ProcessState) (s : ThreadStatus) (last_seen : Z) : ThreadStatus :=
  match p with
  | NoProcess => when_seen (ob_now ob) last_seen
  | _ => process_seen ob s p
  end.

(** [StoppedPresence.fenced] and [ThreadStatus.fenced] *)
Definition fenced (s : ThreadStatus) : ThreadStatus :=
  if stopped_presence s then StoppingThreadStatus else s.

(** [ProcessState.stopped_seen] *)
Definition stopped_seen (p : ProcessState) (s : ThreadStatus) : ThreadStatus :=
  match p with NoProcess => s | _ => fenced s end.

(** [ThreadStatus.registered]: the status of a thread with this process *)
Definition registered (ob : Observation) (s : ThreadStatus) (p : ProcessState) (last_seen : Z) : ThreadStatus :=
  match s with
  | ConnectedThreadStatus | NoBridgeThreadStatus =>
      if alive ob p then ConnectedThreadStatus else NoBridgeThreadStatus
  | PausedBridgeThreadStatus => if alive ob p then s else NoBridgeThreadStatus
  | ProcessThreadStatus | RunningThreadStatus | HeartbeatThreadStatus | IdleThreadStatus =>
      thread_status ob p s last_seen
  | StoppedThreadStatus | StoppingThreadStatus => stopped_seen p s
  | ServiceThreadStatus | ArchivedThreadStatus | DeletingThreadStatus => s
  end.

(** [ThreadStatus.external_registered] *)
Definition external_registered (ob : Observation) (s : ThreadStatus) (p : ProcessState) : ThreadStatus :=
  match s with
  | ConnectedThreadStatus | PausedBridgeThreadStatus => registered ob s p (ob_now ob)
  | ServiceThreadStatus => s
  | _ => registered ob NoBridgeThreadStatus p (ob_now ob)
  end.

(** [ThreadStatus.require_mutable] *)
Definition require_mutable (s : ThreadStatus) (name : string) : outcome unit :=
  refuse (bool_decide (s = DeletingThreadStatus))
    (RelationViolationError ("Thread '" +:+ name +:+ "' is being permanently deleted.")).

(** [ThreadStatus.starts_owner] and [changes_owner] *)
Definition starts_owner (s next : ThreadStatus) : bool := negb (active_presence s) && active_presence next.

Definition status_changes_owner (s next : ThreadStatus) : bool := starts_owner s next || starts_owner next s.

(** [ThreadStatus.restored] *)
Definition restored (s : ThreadStatus) : ThreadStatus :=
  if cli_inbox s then NoBridgeThreadStatus
  else match s with ServiceThreadStatus | ArchivedThreadStatus => s | _ => StoppedThreadStatus end.

(** [ThreadStatus.after_heartbeat] *)
Definition after_heartbeat (s : ThreadStatus) (name : string) : outcome ThreadStatus :=
  match s with
  | ServiceThreadStatus => Ok s
  | _ => _ ← require_mutable s name; Ok (if cli_inbox s then s else ProcessThreadStatus)
  end.

(** [ThreadStatus.require_deleting] *)
Definition require_deleting (s : ThreadStatus) : outcome unit :=
  require (bool_decide (s = DeletingThreadStatus))
    (RelationViolationError "Thread has not entered permanent deletion.").

(** [ThreadStatus.for_deletion] *)
Definition for_deletion (s : ThreadStatus) : outcome ThreadStatus :=
  _ ← refuse (active_presence s)
      (RelationViolationError "Stop a running thread before permanently deleting it.");
  Ok DeletingThreadStatus.

(** [ThreadStatus.require_self_rename] *)
Definition require_self_rename (s : ThreadStatus) : outcome unit :=
  match s with
  | RunningThreadStatus | HeartbeatThreadStatus | ConnectedThreadStatus | PausedBridgeThreadStatus
  | NoBridgeThreadStatus => Ok tt
  | _ => Err (RelationViolationError "Only a running thread can rename itself.")
  end.

(** [ThreadStatus.require_stopped] *)
Definition require_stopped (s : ThreadStatus) : outcome unit :=
  require (stopped_presence s) (RelationViolationError "Retired owner is no longer stopped").

(** [ThreadStatus.require_visible] *)
Definition require_visible (s : ThreadStatus) (message : string) : outcome unit :=
  require (active_presence s || stopped_presence s) (RelationViolationError message).

(** [ThreadStatus.require_active] *)
Definition require_active_presence (s : ThreadStatus) : outcome unit :=
  require (active_presence s) (RelationViolationError "live owner is stopped or unavailable").

(** ** What the family promises *)

Lemma declaration_idempotent s : declaration (declaration s) = declaration s.
Proof. by destruct s. Qed.

Lemma status_changes_owner_spec s next :
  status_changes_owner s next = negb (eqb (active_presence s) (active_presence next)).
Proof. by destruct s, next. Qed.

Lemma restored_inactive s : active_presence (restored s) = false.
Proof. by destruct s. Qed.
