(* ===== verification/Threads.v ===== *)
(** * Threads and their turns

    Models the declaration of a thread ([Thread] of [registry/threads.py]) with the fields the
    registry reads, its birth ([thread_creation.py]), its role and offered tools
    ([thread_identity.py]), and the record and lease of its turn ([turn_lease.py]).  The
    remaining fields of a declaration are one value that is carried along and compared.

    A birth is a positive finite double, represented by its bit pattern, so that the order of
    births is the order of integers and [math.nextafter] towards infinity is the successor. *)

From stdpp Require Import base gmap strings list.
From Stdlib Require Import ZArith Lia Ascii.
From S2P Require Import Prelude Contracts ThreadStatus.

(** ** Births *)

Definition infinity : Z := 9218868437227405312. (* the bits of [math.inf] *)

Inductive CreationTime : Type :=
| RecordedCreationTime (bits : Z)
| GeneratedCreationTime (bits : Z).

(** [CreationTime.to_wire] *)
Definition birth_bits (c : CreationTime) : Z :=
  match c with RecordedCreationTime b | GeneratedCreationTime b => b end.

(** [math.isfinite(birth) and birth > 0], [RecordedThreadIncarnation.__post_init__] *)
Definition recorded_birth (b : Z) : bool := (0 <? b) && (b <? infinity).

(** [math.nextafter(candidate, math.inf)] *)
Definition nextafter (b : Z) : Z := if b <? infinity then b + 1 else b.

(** The loop of [GeneratedCreationTime.distinct_from] *)
Fixpoint next_birth (fuel : nat) (candidate : Z) (used : gset Z) : Z :=
  match fuel with
  | S fuel => if bool_decide (candidate ∈ used) then next_birth fuel (nextafter candidate) used else candidate
  | O => candidate
  end.

(** [CreationTime.distinct_from] *)
Definition distinct_from (c : CreationTime) (used : gset Z) : outcome CreationTime :=
  match c with
  | RecordedCreationTime b =>
      _ ← refuse (bool_decide (b ∈ used)) (RelationViolationError "Registry creation identities collide.");
      Ok c
  | GeneratedCreationTime b =>
      let candidate := next_birth (S (size used)) b used in
      _ ← refuse (infinity <=? candidate) (RelationViolationError "Registry creation identities collide.");
      Ok (RecordedCreationTime candidate)
  end.

(** ** Roles and executions *)

Inductive ThreadRole : Type := AgentThreadRole | ServiceThreadRole | AcpThreadRole | UserThreadRole.

(** The members of [Thread] *)
Inductive ThreadExecution : Type :=
| NativeThread | ExternalThread | ServiceThread | SubagentThread | ForkThread.

#[export] Instance ThreadRole_eq_dec : EqDecision ThreadRole.
Proof. solve_decision. Defined.
#[export] Instance ThreadExecution_eq_dec : EqDecision ThreadExecution.
Proof. solve_decision. Defined.

(** [ThreadRole.require_executable] *)
Definition require_executable (r : ThreadRole) (refusal : Error) : outcome unit :=
  match r with AgentThreadRole | AcpThreadRole => Ok tt | _ => Err refusal end.

(** [ThreadRole.registered_over]: the role a registration over another installs *)
Definition registered_over (r previous : ThreadRole) : outcome ThreadRole :=
  match r with
  | ServiceThreadRole =>
      _ ← refuse (bool_decide (previous = UserThreadRole))
          (RelationViolationError "A service publisher cannot replace a human participant.");
      Ok ServiceThreadRole
  | _ => Ok previous
  end.

(** ** Offered tools *)

Inductive OfferedTools : Type :=
| UnobservedTools
| ReportedTools (version : string) (tools : gset string)
| UnreportedTools (version : string).

#[export] Instance OfferedTools_eq_dec : EqDecision OfferedTools.
Proof. solve_decision. Defined.

(** [OfferedTools.restarted_over] *)
Definition restarted_over (offered before : OfferedTools) : OfferedTools :=
  match offered with UnobservedTools => before | _ => offered end.

(** [OfferedTools.fills_version] *)
Definition fills_version (offered : OfferedTools) (version : string) : bool :=
  match offered with
  | UnobservedTools => false
  | ReportedTools v _ | UnreportedTools v => bool_decide (v = version)
  end.

(** [OfferedTools.filled_by] *)
Definition filled_by (offered current : OfferedTools) : bool :=
  match offered with
  | UnobservedTools => true
  | ReportedTools _ _ => false
  | UnreportedTools version => fills_version current version
  end.

(** ** Turns *)

(** What a thread records of its turn; a stored reference names the file of one generation of
    one birth. *)
Inductive TurnRecord : Type :=
| NoTurnRecord
| FinishedTurn (turn_id : string)
| StoredTurn (birth generation : Z).

(** The content of a turn file.  A generation that was not recorded is [None]. *)
Record ActiveTurn : Type := mkActiveTurn {
  tn_id : string;
  tn_owner : ProcessState;
  tn_started : Z;
  tn_claimed : option Z;
  tn_generation : option Z;
  tn_keeps_resume : bool;    (* phase.keeps_project_resume *)
}.

(** [TurnLeaseFence]: an exact turn, the input generation it was leased under, its record *)
Record TurnLease : Type := mkTurnLease {
  tl_name : string;
  tl_birth : Z;
  tl_generation : Z;
  tl_turn : string;
  tl_claimed : Z;
  tl_record : Z * Z;
}.

#[export] Instance TurnRecord_eq_dec : EqDecision TurnRecord.
Proof. solve_decision. Defined.

(** [TurnRecord.released] *)
Definition released (r : TurnRecord) : TurnRecord :=
  match r with StoredTurn _ _ => NoTurnRecord | _ => r end.

(** [ActiveTurn.without_claim] *)
Definition without_claim (a : ActiveTurn) : ActiveTurn :=
  mkActiveTurn (tn_id a) (tn_owner a) (tn_started a) None (tn_generation a) (tn_keeps_resume a).

(** [ActiveTurn.current] *)
Definition turn_current (a : ActiveTurn) (claimed generation : Z) : bool :=
  bool_decide (tn_claimed a = Some claimed) && bool_decide (tn_generation a = Some generation)
  && (0 <? generation).

(** [ActiveTurn.held_by] *)
Definition held_by (a : ActiveTurn) (lease : TurnLease) : bool :=
  bool_decide (tn_id a = tl_turn lease) && turn_current a (tl_claimed lease) (tl_generation lease).

(** [ActiveTurn.may_release]: a turn whose claim was released may be adopted *)
Definition may_release (a : ActiveTurn) (lease : TurnLease) : bool :=
  let adopted := match tn_claimed a with Some c => Some c | None => Some (tl_claimed lease) end in
  held_by (mkActiveTurn (tn_id a) (tn_owner a) (tn_started a) adopted (tn_generation a) (tn_keeps_resume a)) lease.

(** [ActiveTurn.lease]: a turn that recorded both generations gives its exact lease *)
Definition active_lease (a : ActiveTurn) (name : string) (birth : Z) (record : Z * Z) : option TurnLease :=
  match tn_generation a, tn_claimed a with
  | Some generation, Some claimed => Some (mkTurnLease name birth generation (tn_id a) claimed record)
  | _, _ => None
  end.

(** [TurnFence.can_attest] *)
Definition can_attest (lease : TurnLease) (claim_scope : Z) : bool :=
  (0 <? tl_generation lease) && (0 <? tl_claimed lease) && (tl_claimed lease =? claim_scope).

(** ** Declarations *)

Inductive ThreadWorkState : Type := ReadyThreadWorkState | ParkedThreadWorkState.

#[export] Instance ThreadWorkState_eq_dec : EqDecision ThreadWorkState.
Proof. solve_decision. Defined.

Record Thread : Type := mkThread {
  th_name : string;
  th_created : CreationTime;
  th_execution : ThreadExecution;
  th_parent : option string;
  th_process : ProcessState;
  th_role : ThreadRole;
  th_turn : TurnRecord;
  th_turn_generation : Z;
  th_tags : gset string;
  th_scope_generation : Z;
  th_resume_due : bool;
  th_offered : OfferedTools;
  th_offered_before : OfferedTools;
  th_work_state : ThreadWorkState;
  th_rest : string;
}.

Definition th_birth (t : Thread) : Z := birth_bits (th_created t).

(** [replace(thread, field=value)], before its construction checks *)
Definition with_name (t : Thread) (name : string) : Thread :=
  mkThread name (th_created t) (th_execution t) (th_parent t) (th_process t) (th_role t) (th_turn t)
    (th_turn_generation t) (th_tags t) (th_scope_generation t) (th_resume_due t) (th_offered t)
    (th_offered_before t) (th_work_state t) (th_rest t).
Definition with_created (t : Thread) (created : CreationTime) : Thread :=
  mkThread (th_name t) created (th_execution t) (th_parent t) (th_process t) (th_role t) (th_turn t)
    (th_turn_generation t) (th_tags t) (th_scope_generation t) (th_resume_due t) (th_offered t)
    (th_offered_before t) (th_work_state t) (th_rest t).
Definition with_execution (t : Thread) (execution : ThreadExecution) : Thread :=
  mkThread (th_name t) (th_created t) execution (th_parent t) (th_process t) (th_role t) (th_turn t)
    (th_turn_generation t) (th_tags t) (th_scope_generation t) (th_resume_due t) (th_offered t)
    (th_offered_before t) (th_work_state t) (th_rest t).
Definition with_parent (t : Thread) (parent : option string) : Thread :=
  mkThread (th_name t) (th_created t) (th_execution t) parent (th_process t) (th_role t) (th_turn t)
    (th_turn_generation t) (th_tags t) (th_scope_generation t) (th_resume_due t) (th_offered t)
    (th_offered_before t) (th_work_state t) (th_rest t).
Definition with_process (t : Thread) (process : ProcessState) : Thread :=
  mkThread (th_name t) (th_created t) (th_execution t) (th_parent t) process (th_role t) (th_turn t)
    (th_turn_generation t) (th_tags t) (th_scope_generation t) (th_resume_due t) (th_offered t)
    (th_offered_before t) (th_work_state t) (th_rest t).
Definition with_turn (t : Thread) (turn : TurnRecord) (generation : Z) : Thread :=
  mkThread (th_name t) (th_created t) (th_execution t) (th_parent t) (th_process t) (th_role t) turn
    generation (th_tags t) (th_scope_generation t) (th_resume_due t) (th_offered t)
    (th_offered_before t) (th_work_state t) (th_rest t).
Definition with_resume (t : Thread) (due : bool) : Thread :=
  mkThread (th_name t) (th_created t) (th_execution t) (th_parent t) (th_process t) (th_role t) (th_turn t)
    (th_turn_generation t) (th_tags t) (th_scope_generation t) due (th_offered t)
    (th_offered_before t) (th_work_state t) (th_rest t).
Definition with_tags (t : Thread) (tags : gset string) : Thread :=
  mkThread (th_name t) (th_created t) (th_execution t) (th_parent t) (th_process t) (th_role t) (th_turn t)
    (th_turn_generation t) tags (th_scope_generation t) (th_resume_due t) (th_offered t)
    (th_offered_before t) (th_work_state t) (th_rest t).
Definition with_offered (t : Thread) (offered before : OfferedTools) : Thread :=
  mkThread (th_name t) (th_created t) (th_execution t) (th_parent t) (th_process t) (th_role t) (th_turn t)
    (th_turn_generation t) (th_tags t) (th_scope_generation t) (th_resume_due t) offered
    before (th_work_state t) (th_rest t).
Definition with_work_state (t : Thread) (state : ThreadWorkState) : Thread :=
  mkThread (th_name t) (th_created t) (th_execution t) (th_parent t) (th_process t) (th_role t) (th_turn t)
    (th_turn_generation t) (th_tags t) (th_scope_generation t) (th_resume_due t) (th_offered t)
    (th_offered_before t) state (th_rest t).

(** Two declarations are equal as records; a birth compares as a number. *)
Definition same_declaration (a b : Thread) : bool :=
  bool_decide (th_birth a = th_birth b)
  && bool_decide (th_name a = th_name b) && bool_decide (th_execution a = th_execution b)
  && bool_decide (th_parent a = th_parent b) && bool_decide (th_process a = th_process b)
  && bool_decide (th_role a = th_role b) && bool_decide (th_turn a = th_turn b)
  && (th_turn_generation a =? th_turn_generation b) && bool_decide (th_tags a = th_tags b)
  && (th_scope_generation a =? th_scope_generation b) && Bool.eqb (th_resume_due a) (th_resume_due b)
  && bool_decide (th_offered a = th_offered b) && bool_decide (th_offered_before a = th_offered_before b)
  && bool_decide (th_work_state a = th_work_state b) && bool_decide (th_rest a = th_rest b).

(** [ThreadProvenance.require_name] *)
Definition name_char (c : ascii) : bool :=
  let n := nat_of_ascii c in
  ((97 <=? n)%nat && (n <=? 122)%nat) || ((65 <=? n)%nat && (n <=? 90)%nat) || ((48 <=? n)%nat && (n <=? 57)%nat)
  || Ascii.eqb c "-" || Ascii.eqb c "_".

Definition valid_name (name : string) : bool :=
  negb (bool_decide (name = "")) && forallb name_char (String.list_ascii_of_string name).

Definition max_generation : Z := 9223372036854775808. (* 1 << 63 *)

(** [Thread.__post_init__], without the validation of tags *)
Definition thread_post_init (t : Thread) : outcome unit :=
  _ ← require (recorded_birth (th_birth t)) (ValueError "Thread incarnation requires a positive recorded birth");
  _ ← require (valid_name (th_name t))
      (ValueError ("Thread name '" +:+ th_name t +:+ "' must be alphanumeric with hyphens/underscores."));
  _ ← match th_process t with
      | NoProcess => Ok tt
      | _ => require_executable (th_role t) (RelationViolationError "A human thread cannot hold an owner process")
      end;
  _ ← require ((0 <=? th_scope_generation t) && (th_scope_generation t <? max_generation))
      (ValueError "Channel scope generation must be a nonnegative 63-bit integer.");
  _ ← require ((0 <=? th_turn_generation t) && (th_turn_generation t <? max_generation))
      (ValueError "Turn generation must be an exact nonnegative 63-bit integer.");
  _ ← match th_turn t with
      | FinishedTurn _ =>
          refuse (th_turn_generation t =? 0) (ValueError "Finished turn requires a prior turn generation.")
      | _ => Ok tt
      end;
  refuse (bool_decide (th_parent t = Some (th_name t)))
    (RelationViolationError ("Thread '" +:+ th_name t +:+ "' cannot be its own parent.")).

Definition checked (t : Thread) : outcome Thread := _ ← thread_post_init t; Ok t.

(** [Thread.executing] *)
Definition executing (t : Thread) : bool :=
  match th_turn t with StoredTurn _ _ => true | _ => false end.

(** [Thread.without_turn] *)
Definition without_turn (t : Thread) : Thread := with_turn t (released (th_turn t)) (th_turn_generation t).

(** [Thread.without_process] *)
Definition without_process (t : Thread) : Thread := with_process (without_turn t) NoProcess.

(** [Thread.withdrawn] *)
Definition withdrawn (t : Thread) : Thread :=
  match th_execution t with
  | NativeThread | ServiceThread => with_process t NoProcess
  | ExternalThread | SubagentThread | ForkThread => t
  end.

(** [Thread.registered_status] *)
Definition registered_status (ob : Observation) (t : Thread) (requested : ThreadStatus) : ThreadStatus :=
  match th_execution t with
  | ExternalThread => external_registered ob requested (th_process t)
  | ServiceThread => ServiceThreadStatus
  | _ => requested
  end.

(** [Thread.restarted_tools] *)
Definition restarted_tools (t : Thread) : Thread :=
  with_offered t UnobservedTools (restarted_over (th_offered t) (th_offered_before t)).

(** [Thread.observing_tools] *)
Definition observing_tools (t : Thread) (offered : OfferedTools) : Thread :=
  if bool_decide (th_offered t = offered) || negb (filled_by (th_offered t) offered) then t
  else with_offered t offered (th_offered_before t).

(** [Thread.preserve_registration_history] *)
Definition preserve_registration_history (t previous : Thread) : outcome Thread :=
  scope ← (if bool_decide (th_tags t = th_tags previous) then Ok (th_scope_generation previous)
           else _ ← refuse (max_generation - 1 <=? th_scope_generation previous)
                    (RelationViolationError "Channel scope generation exhausted");
                Ok (th_scope_generation previous + 1));
  let kept :=
    mkThread (th_name t) (th_created previous) (th_execution t) (th_parent t) (th_process t) (th_role t) (th_turn t)
      (th_turn_generation t) (th_tags t) scope (th_resume_due t) (th_offered previous)
      (th_offered_before previous) (th_work_state t) (th_rest t) in
  checked (if th_turn_generation t =? th_turn_generation previous then kept
           else with_turn kept (th_turn previous) (th_turn_generation previous)).

(** [Thread.for_registration], with the choice of the remaining fields given *)
Definition for_registration (choose_rest : string -> string -> string) (t : Thread) (canonical : string)
    (previous : option Thread) : outcome Thread :=
  match previous with
  | None => checked (with_name t canonical)
  | Some p =>
      role ← registered_over (th_role t) (th_role p);
      checked (mkThread canonical (th_created t) (th_execution t) (th_parent t)
                 (process_applied (th_process t) (th_process p)) role (th_turn t) (th_turn_generation t)
                 (if bool_decide (th_tags t = ∅) then th_tags p else th_tags t) (th_scope_generation t)
                 (th_resume_due p) (th_offered t) (th_offered_before t) (th_work_state p)
                 (choose_rest (th_rest t) (th_rest p)))
  end.

(** The turn reference of a row is the one of its own birth and generation
    ([RegistryStore._bind_thread]). *)
Definition bound (t : Thread) : Thread :=
  match th_turn t with
  | StoredTurn _ _ => with_turn t (StoredTurn (th_birth t) (th_turn_generation t)) (th_turn_generation t)
  | _ => t
  end.

(** [NoTurn] and [ActiveTurn.require_restartable]: a turn that wrote nothing for ten minutes
    may be ended by a restart *)
Definition wedged_after : Z := 600 * 1000000.

Definition turn_restartable (ob : Observation) (last_written : Z) (turn : option ActiveTurn) : bool :=
  match turn with
  | None => true
  | Some a => negb (ob_now ob - Z.max last_written (tn_started a) <? wedged_after)
  end.
