(* ===== verification/RegistryDocument.v ===== *)
(** * The registry document

    Models [RegistryDocument] of [registry/registry_document.py]: the declared threads with
    their statuses, presence and aliases and the two generation counters, the names they
    occupy ([RegistryNames] of [registry_provenance.py]), and every operation that changes
    them.  The operations run in an edit of the store: a copy of the committed document, which
    an error discards, and the turn files, which are written at once ([turn_lease.py],
    [RegistryStore.change_turn]).  A team project, the choice of checkouts and the raw rows of
    the codec are left out. *)

From stdpp Require Import base gmap strings list pretty sorting.
From Stdlib Require Import ZArith Lia Ascii.
From S2P Require Import Prelude Contracts ThreadStatus Threads.

(** ** State *)

(** [GenerationCounter] *)
Record GenerationCounter : Type := mkGenerationCounter {
  gc_counter : Z;
  gc_generations : gmap string Z;
}.

(** [GenerationCounter.advance] *)
Definition gc_advance (c : GenerationCounter) (name : string) : GenerationCounter :=
  mkGenerationCounter (gc_counter c + 1) (<[name := gc_counter c + 1]> (gc_generations c)).

(** [GenerationCounter.rename] *)
Definition gc_rename (c : GenerationCounter) (old new : string) : outcome GenerationCounter :=
  value ← of_option (gc_generations c !! old) (KeyError old);
  Ok (mkGenerationCounter (gc_counter c) (<[new := value]> (delete old (gc_generations c)))).

(** [GenerationCounter.__post_init__] *)
Definition gc_post_init (c : GenerationCounter) : outcome unit :=
  require ((0 <=? gc_counter c)
           && bool_decide (map_Forall (fun _ value => 0 < value <= gc_counter c) (gc_generations c)))
    (ValueError "invalid registry generation counter").

Inductive RootPurpose : Type := WorkingRootPurpose | HistoricalRootPurpose.

Record RegistryDocument : Type := mkRegistryDocument {
  rd_purpose : RootPurpose;
  rd_threads : gmap string Thread;
  rd_statuses : gmap string ThreadStatus;
  rd_last_seen : gmap string Z;
  rd_aliases : gmap string string;
  rd_owners : GenerationCounter;
  rd_claims : GenerationCounter;
}.

Definition empty_document : RegistryDocument :=
  mkRegistryDocument WorkingRootPurpose ∅ ∅ ∅ ∅ (mkGenerationCounter 0 ∅) (mkGenerationCounter 0 ∅).

Definition set_threads (d : RegistryDocument) (v : gmap string Thread) : RegistryDocument :=
  mkRegistryDocument (rd_purpose d) v (rd_statuses d) (rd_last_seen d) (rd_aliases d) (rd_owners d) (rd_claims d).
Definition set_statuses (d : RegistryDocument) (v : gmap string ThreadStatus) : RegistryDocument :=
  mkRegistryDocument (rd_purpose d) (rd_threads d) v (rd_last_seen d) (rd_aliases d) (rd_owners d) (rd_claims d).
Definition set_last_seen (d : RegistryDocument) (v : gmap string Z) : RegistryDocument :=
  mkRegistryDocument (rd_purpose d) (rd_threads d) (rd_statuses d) v (rd_aliases d) (rd_owners d) (rd_claims d).
Definition set_aliases (d : RegistryDocument) (v : gmap string string) : RegistryDocument :=
  mkRegistryDocument (rd_purpose d) (rd_threads d) (rd_statuses d) (rd_last_seen d) v (rd_owners d) (rd_claims d).
Definition set_owners (d : RegistryDocument) (v : GenerationCounter) : RegistryDocument :=
  mkRegistryDocument (rd_purpose d) (rd_threads d) (rd_statuses d) (rd_last_seen d) (rd_aliases d) v (rd_claims d).
Definition set_claims (d : RegistryDocument) (v : GenerationCounter) : RegistryDocument :=
  mkRegistryDocument (rd_purpose d) (rd_threads d) (rd_statuses d) (rd_last_seen d) (rd_aliases d) (rd_owners d) v.

(** ** Names *)

(** [RegistryNames.canonical_name] *)
Definition canonical_name (d : RegistryDocument) (name : string) : string := default name (rd_aliases d !! name).

(** [RegistryNames.taken] *)
Definition taken (d : RegistryDocument) (name : string) (owner : option string) : bool :=
  (bool_decide (is_Some (rd_threads d !! name)) || bool_decide (is_Some (rd_aliases d !! name)))
  && negb (bool_decide (Some (canonical_name d name) = owner)).

(** [RegistryNames.thread_slug]: every run of other characters becomes one hyphen, and the
    outer hyphens go *)
Fixpoint dashed (text : list ascii) (in_run : bool) : list ascii :=
  match text with
  | [] => []
  | c :: rest =>
      if name_char c then c :: dashed rest false
      else if in_run then dashed rest true else "-"%char :: dashed rest true
  end.

Fixpoint lstrip (text : list ascii) : list ascii :=
  match text with
  | c :: rest => if Ascii.eqb c "-" then lstrip rest else text
  | [] => []
  end.

Definition thread_slug (text : string) : string :=
  match String.string_of_list_ascii (rev (lstrip (rev (lstrip (dashed (String.list_ascii_of_string text) false))))) with
  | EmptyString => "session"
  | slug => slug
  end.

(** The candidates of [RegistryNames.claim_name]: the slug, then [slug-2], [slug-3] and on *)
Definition candidate (base : string) (k : nat) : string :=
  match k with O => base | _ => base +:+ "-" +:+ pretty (S k) end.

(** Its loop, from the [k]-th candidate *)
Fixpoint claim_from (fuel : nat) (d : RegistryDocument) (base : string) (owner : option string) (k : nat) : string :=
  match fuel with
  | S fuel => if taken d (candidate base k) owner then claim_from fuel d base owner (S k) else candidate base k
  | O => candidate base k
  end.

Definition claim_name (d : RegistryDocument) (wanted : string) (owner : option string) : string :=
  claim_from (S (size (rd_threads d) + size (rd_aliases d))) d (thread_slug wanted) owner 0.

(** [RegistryNames.require] *)
Definition require_thread (d : RegistryDocument) (name : string) : outcome Thread :=
  of_option (rd_threads d !! canonical_name d name)
    (UnregisteredThreadError ("Thread '" +:+ canonical_name d name +:+ "' is not registered.")).

(** [ThreadRows.births] *)
Definition births (d : RegistryDocument) : gset Z := list_to_set (map (fun kt => th_birth kt.2) (map_to_list (rd_threads d))).

(** [RegistryPresence.children] *)
Definition children (d : RegistryDocument) (name : string) : list Thread :=
  List.filter (fun t => bool_decide (th_parent t = Some (canonical_name d name)))
    (map snd (map_to_list (rd_threads d))).

(** [RegistryPresence.status] *)
Definition status (ob : Observation) (d : RegistryDocument) (name : string) : outcome ThreadStatus :=
  t ← require_thread d name;
  s ← of_option (rd_statuses d !! th_name t) (KeyError (th_name t));
  seen ← of_option (rd_last_seen d !! th_name t) (KeyError (th_name t));
  Ok (registered ob s (th_process t) seen).

(** [RegistryPresence.require_active] *)
Definition require_active (ob : Observation) (d : RegistryDocument) (name : string) : outcome Thread :=
  match require_thread d name with
  | Err _ => Err (RelationViolationError "live owner is stopped or unavailable")
  | Ok t => s ← status ob d (th_name t); _ ← require_active_presence s; Ok t
  end.

Definition claim_generation (d : RegistryDocument) (name : string) : outcome Z :=
  of_option (gc_generations (rd_claims d) !! canonical_name d name) (KeyError (canonical_name d name)).
Definition owner_generation (d : RegistryDocument) (name : string) : outcome Z :=
  of_option (gc_generations (rd_owners d) !! canonical_name d name) (KeyError (canonical_name d name)).

(** [ThreadIncarnation.current] of a recorded incarnation *)
Definition incarnation_current (d : RegistryDocument) (name : string) (birth : Z) : bool :=
  match rd_threads d !! canonical_name d name with
  | Some t => th_birth t =? birth
  | None => false
  end.

(** [RegistrySnapshot.threads_for] *)
Definition threads_for (d : RegistryDocument) (name : string) (birth : Z) : list Thread :=
  match rd_threads d !! canonical_name d name with
  | Some t => if th_birth t =? birth then [t] else []
  | None => []
  end.

(** ** Edits *)

(** [RegistryEdit]: the committed document, the copy being changed, and the turn files by
    birth and generation *)
Record Edit : Type := mkEdit {
  ed_committed : RegistryDocument;
  ed_document : RegistryDocument;
  ed_turns : gmap (Z * Z) ActiveTurn;
  ed_superseded : list (Z * Z);
}.

Definition Reg (A : Type) : Type := Edit -> outcome A * Edit.
#[export] Instance Reg_ret : MRet Reg := fun A a e => (Ok a, e).
#[export] Instance Reg_bind : MBind Reg := fun A B f m e =>
  match m e with
  | (Ok a, e') => f a e'
  | (Err x, e') => (Err x, e')
  end.

Definition reg_lift {A : Type} (o : outcome A) : Reg A := fun e => (o, e).
Definition reg_read {A : Type} (f : RegistryDocument -> A) : Reg A := fun e => (Ok (f (ed_document e)), e).
Definition reg_try {A : Type} (f : RegistryDocument -> outcome A) : Reg A := fun e => (f (ed_document e), e).
Definition reg_put (d : RegistryDocument) : Reg unit := fun e =>
  (Ok tt, mkEdit (ed_committed e) d (ed_turns e) (ed_superseded e)).
Definition reg_modify (f : RegistryDocument -> RegistryDocument) : Reg unit := fun e =>
  (Ok tt, mkEdit (ed_committed e) (f (ed_document e)) (ed_turns e) (ed_superseded e)).

Fixpoint reg_each {A : Type} (f : A -> Reg unit) (xs : list A) : Reg unit :=
  match xs with
  | [] => mret tt
  | x :: rest => _ ← f x; reg_each f rest
  end.

(** [self.threads[thread.name] = thread] *)
Definition put_thread (t : Thread) : Reg unit :=
  reg_modify (fun d => set_threads d (<[th_name t := bound t]> (rd_threads d))).

(** [RegistrySnapshot.holds_turn]: the committed registry still names this generation *)
Definition holds_turn (d : RegistryDocument) (record : Z * Z) : bool :=
  bool_decide (map_Exists (fun _ t => (th_birth t, th_turn_generation t) = record) (rd_threads d)).

(** [TurnRecord.without_claim]: through [RegistryStore.change_turn] the file of a named turn
    loses its claim; a superseded one is left *)
Definition record_without_claim (r : TurnRecord) : Reg unit := fun e =>
  match r with
  | StoredTurn birth generation =>
      if holds_turn (ed_committed e) (birth, generation) then
        match ed_turns e !! (birth, generation) with
        | Some a =>
            (Ok tt, mkEdit (ed_committed e) (ed_document e)
                      (<[(birth, generation) := without_claim a]> (ed_turns e)) (ed_superseded e))
        | None => (Err (RelationViolationError "Active turn record is missing"), e)
        end
      else (Ok tt, e)
  | _ => (Ok tt, e)
  end.

(** The turn the committed registry names for this birth *)
Definition current_turn (d : RegistryDocument) (held : Z * Z) : TurnRecord :=
  match List.filter (fun t => th_birth t =? held.1) (map snd (map_to_list (rd_threads d))) with
  | t :: _ => th_turn t
  | [] => StoredTurn held.1 held.2
  end.

(** [TurnRecord.read], through [RegistryStore.read_turn] *)
Definition read_turn (r : TurnRecord) : Reg (option ActiveTurn) := fun e =>
  match r with
  | StoredTurn birth generation =>
      match current_turn (ed_committed e) (birth, generation) with
      | StoredTurn b g =>
          (a ← of_option (ed_turns e !! (b, g)) (RelationViolationError "Active turn record is missing"); Ok (Some a), e)
      | _ => (Ok None, e)
      end
  | _ => (Ok None, e)
  end.

(** ** Operations *)

(** [RegistryDocument.install_thread] *)
Definition install_thread (t : Thread) : Reg unit :=
  previous ← reg_read (fun d => rd_threads d !! th_name t);
  _ ← match previous with
      | Some p => if bool_decide (th_turn p = th_turn t) then mret tt else record_without_claim (th_turn p)
      | None => mret tt
      end;
  put_thread t.

(** [RegistryDocument.advance_claim] *)
Definition advance_claim (name : string) : Reg unit :=
  thread ← reg_read (fun d => rd_threads d !! name);
  _ ← match thread with Some t => record_without_claim (th_turn t) | None => mret tt end;
  reg_modify (fun d => set_claims d (gc_advance (rd_claims d) name)).

Definition advance_owner (name : string) : Reg unit :=
  reg_modify (fun d => set_owners d (gc_advance (rd_owners d) name)).

(** [ThreadStatus.withdraw_owner] *)
Definition withdraw_owner (s : ThreadStatus) (name : string) : Reg unit :=
  if active_presence s then advance_owner name else mret tt.

(** [RegistryPresence.set_status] *)
Definition set_status (name : string) (s : ThreadStatus) : Reg unit :=
  reg_modify (fun d => set_statuses d (<[name := declaration s]> (rd_statuses d))).

Definition set_seen (name : string) (at_time : Z) : Reg unit :=
  reg_modify (fun d => set_last_seen d (<[name := at_time]> (rd_last_seen d))).

(** [RegistryDocument.observe_offered_tools] *)
Definition observe_offered_tools (name : string) (birth : Z) (offered : OfferedTools) : Reg unit :=
  current ← reg_try (fun d => require_thread d name);
  _ ← reg_lift (refuse (negb (th_birth current =? birth))
                  (RelationViolationError "Tool observation belongs to a replaced thread."));
  updated ← reg_lift (checked (observing_tools current offered));
  put_thread updated.

(** [RegistryDocument.set_work_state]: each work state may become the other *)
Definition set_work_state (name : string) (state : ThreadWorkState) : Reg unit :=
  current ← reg_try (fun d => require_thread d name);
  updated ← reg_lift (checked (with_work_state current state));
  put_thread updated.

(** The loop over the children of a thread that was renamed or removed *)
Definition reparent (old : string) (parent : option string) (threads : gmap string Thread) : gmap string Thread :=
  (fun t => if bool_decide (th_parent t = Some old) then bound (with_parent t parent) else t) <$> threads.

Definition reparent_children (old : string) (parent : option string) : Reg unit :=
  affected ← reg_read (fun d => children d old);
  _ ← reg_lift (each (fun t => thread_post_init (with_parent t parent)) affected);
  reg_modify (fun d => set_threads d (reparent (canonical_name d old) parent (rd_threads d))).

(** [RegistryDocument.rename] *)
Definition rename (ob : Observation) (name new_name : string) : Reg (string * string) :=
  canonical ← reg_read (fun d => canonical_name d name);
  current ← reg_try (fun d => of_option (rd_threads d !! canonical)
                       (UnregisteredThreadError ("Thread '" +:+ name +:+ "' is not registered.")));
  if bool_decide (new_name = canonical) then mret (canonical, canonical) else
  s ← reg_try (fun d => status ob d canonical);
  _ ← reg_lift (require_self_rename s);
  occupied ← reg_read (fun d => taken d new_name (Some canonical));
  _ ← reg_lift (refuse occupied (RelationViolationError ("Thread name '" +:+ new_name +:+ "' is already in use.")));
  replacement ← reg_lift (checked (with_name current new_name));
  _ ← reg_modify (fun d => set_aliases d (delete new_name (rd_aliases d)));
  stored ← reg_try (fun d => of_option (rd_statuses d !! canonical) (KeyError canonical));
  seen ← reg_try (fun d => of_option (rd_last_seen d !! canonical) (KeyError canonical));
  _ ← reg_modify (fun d => set_last_seen (set_statuses d (delete canonical (rd_statuses d)))
                             (delete canonical (rd_last_seen d)));
  _ ← reg_modify (fun d => set_threads d (delete canonical (rd_threads d)));
  _ ← put_thread replacement;
  _ ← set_status new_name stored;
  _ ← set_seen new_name seen;
  _ ← reparent_children canonical (Some new_name);
  _ ← reg_modify (fun d => set_aliases d
        (<[canonical := new_name]>
           ((fun target => if bool_decide (target = canonical) then new_name else target) <$> rd_aliases d)));
  claims ← reg_try (fun d => gc_rename (rd_claims d) canonical new_name);
  owners ← reg_try (fun d => gc_rename (rd_owners d) canonical new_name);
  _ ← reg_modify (fun d => set_owners (set_claims d claims) owners);
  mret (canonical, new_name).

(** [Thread.require_restartable]; a turn that cannot be read keeps its owner busy *)
Definition require_restartable (ob : Observation) (t : Thread) : Reg unit := fun e =>
  let busy := RestartRefusal "Wait until the owner is idle before restart." in
  match read_turn (th_turn t) e with
  | (Ok turn, e') => (require (turn_restartable ob (ob_written ob (th_name t)) turn) busy, e')
  | (Err _, e') => (Err busy, e')
  end.

(** [RegistryDocument.fence_restart_owner] *)
Definition fence_restart_owner (ob : Observation) (expected : Thread) (expected_claimed : Z) : Reg Z :=
  current ← reg_try (fun d => require_active ob d (th_name expected));
  _ ← require_restartable ob current;
  _ ← reg_lift (require (same_declaration current expected)
                  (RestartRefusal "Idle owner changed before restart fence."));
  claimed ← reg_try (fun d => of_option (gc_generations (rd_claims d) !! th_name current) (KeyError (th_name current)));
  _ ← reg_lift (refuse (negb (claimed =? expected_claimed))
                  (RestartRefusal "Owner claim_scope generation changed before restart."));
  _ ← set_status (th_name expected) (registered_status ob expected StoppingThreadStatus);
  _ ← advance_claim (th_name expected);
  _ ← advance_owner (th_name expected);
  idle ← reg_lift (checked (without_turn current));
  _ ← put_thread idle;
  reg_try (fun d => of_option (gc_generations (rd_claims d) !! th_name expected) (KeyError (th_name expected))).

(** [RegistryDocument._withdraw] *)
Definition withdraw (ob : Observation) (name : string) (new_status : ThreadStatus) : Reg Thread :=
  found ← reg_try (fun d => require_thread d name);
  let name := th_name found in
  s ← reg_try (fun d => status ob d name);
  _ ← reg_lift (require_mutable s name);
  _ ← withdraw_owner s name;
  thread ← reg_try (fun d => of_option (rd_threads d !! name) (KeyError name));
  _ ← set_status name (registered_status ob thread new_status);
  _ ← advance_claim name;
  idle ← reg_lift (checked (without_turn thread));
  _ ← put_thread idle;
  reg_try (fun d => of_option (rd_threads d !! name) (KeyError name)).

(** [RegistryDocument.unregister] *)
Definition unregister (ob : Observation) (name : string) : Reg unit :=
  thread ← withdraw ob name StoppedThreadStatus;
  gone ← reg_lift (checked (withdrawn thread));
  put_thread gone.

(** [RegistryDocument.fence_owner] *)
Definition fence_owner (ob : Observation) (name : string) : Reg unit :=
  _ ← withdraw ob name StoppingThreadStatus; mret tt.

(** [RegistryDocument.archive] *)
Definition archive (ob : Observation) (name : string) : Reg unit :=
  found ← reg_try (fun d => require_thread d name);
  let name := th_name found in
  s ← reg_try (fun d => status ob d name);
  _ ← reg_lift (require_mutable s name);
  _ ← withdraw_owner s name;
  _ ← set_status name ArchivedThreadStatus;
  advance_claim name.

(** [RegistryDocument.require_originals] *)
Definition require_originals (originals : list Thread) : Reg unit :=
  reg_each (fun original =>
    current ← reg_read (fun d => incarnation_current d (th_name original) (th_birth original));
    reg_lift (require current (RelationViolationError "Tagged thread incarnation changed before removal."))) originals.

(** [RegistryDocument.archive_originals] *)
Definition archive_originals (ob : Observation) (originals : list Thread) : Reg unit :=
  _ ← require_originals originals;
  reg_each (fun original =>
    s ← reg_try (fun d => status ob d (th_name original));
    _ ← reg_lift (require_stopped s);
    archive ob (th_name original)) originals.

(** [RegistryDocument.begin_delete] *)
Definition begin_delete (ob : Observation) (name : string) : Reg unit :=
  found ← reg_try (fun d => require_thread d name);
  let name := th_name found in
  s ← reg_try (fun d => status ob d name);
  deleting ← reg_lift (for_deletion s);
  _ ← set_status name deleting;
  advance_claim name.

(** [RegistryDocument.begin_delete_originals] *)
Definition begin_delete_originals (ob : Observation) (originals : list Thread) : Reg unit :=
  _ ← require_originals originals;
  reg_each (fun original => begin_delete ob (th_name original)) originals.

(** [RegistryDocument._remove] *)
Definition remove_thread (ob : Observation) (name : string) : Reg unit :=
  found ← reg_try (fun d => require_thread d name);
  let name := th_name found in
  _ ← reparent_children name None;
  s ← reg_try (fun d => status ob d name);
  _ ← withdraw_owner s name;
  _ ← advance_claim name;
  reg_modify (fun d =>
    mkRegistryDocument (rd_purpose d) (delete name (rd_threads d)) (delete name (rd_statuses d))
      (delete name (rd_last_seen d)) (filter (fun at_ => at_.2 <> name) (rd_aliases d)) (rd_owners d) (rd_claims d)).

(** [RegistryDocument.remove] *)
Definition remove (ob : Observation) (name : string) : Reg unit :=
  s ← reg_try (fun d => status ob d name);
  _ ← reg_lift (require_mutable s name);
  remove_thread ob name.

(** [RegistryDocument.remove_originals] *)
Definition remove_originals (ob : Observation) (originals : list Thread) : Reg unit :=
  _ ← require_originals originals;
  _ ← reg_each (fun original =>
        s ← reg_try (fun d => status ob d (th_name original)); reg_lift (require_deleting s)) originals;
  reg_each (fun original => remove_thread ob (th_name original)) originals.

(** [RegistryDocument.heartbeat] *)
Definition heartbeat (ob : Observation) (name : string) : Reg unit :=
  found ← reg_try (fun d => require_thread d name);
  let name := th_name found in
  previous ← reg_try (fun d => status ob d name);
  resumed ← reg_lift (after_heartbeat previous name);
  _ ← (if status_changes_owner previous resumed
       then _ ← advance_claim name; advance_owner name else mret tt);
  _ ← set_status name resumed;
  set_seen name (ob_now ob).

(** [RegistryDocument.release_turn]: whether it released, and whether the completion was
    attested *)
Definition release_turn (ob : Observation) (lease : TurnLease) : Reg (bool * bool) :=
  name ← reg_read (fun d => canonical_name d (tl_name lease));
  found ← reg_read (fun d => rd_threads d !! name);
  match found with
  | None => mret (false, false)
  | Some current =>
      if negb (bool_decide (th_turn current = StoredTurn (tl_record lease).1 (tl_record lease).2)) then mret (false, false)
      else if negb (bool_decide ((th_birth current, th_turn_generation current) = (tl_birth lease, tl_generation lease)))
      then mret (false, false)
      else
        read ← read_turn (th_turn current);
        turn ← reg_lift (of_option read (RelationViolationError "registry owner has no active turn"));
        if negb (may_release turn lease) then mret (false, false) else
        claimed ← reg_try (fun d => of_option (gc_generations (rd_claims d) !! name) (KeyError name));
        completed ← (if can_attest lease claimed && held_by turn lease
                     then s ← reg_try (fun d => status ob d name); mret (active_presence s)
                     else mret false);
        _ ← record_without_claim (th_turn current);
        finished ← reg_lift (checked (with_resume (with_turn current (FinishedTurn (tl_turn lease)) (th_turn_generation current))
                                        (th_resume_due current && tn_keeps_resume turn)));
        _ ← reg_modify (fun d => set_threads d (<[name := bound finished]> (rd_threads d)));
        _ ← set_seen name (ob_now ob);
        mret (true, completed)
  end.

(** ** Reading a committed document *)

(** [RegistryDocument.from_wire]: the checks of a decoded revision, its rows' included *)
Definition from_wire (d : RegistryDocument) : outcome unit :=
  _ ← require (bool_decide (map_Forall (fun name t => th_name t = name) (rd_threads d)))
      (MalformedRecord "thread name differs from its declaration");
  _ ← each (fun kt => thread_post_init kt.2) (map_to_list (rd_threads d));
  _ ← gc_post_init (rd_owners d);
  _ ← gc_post_init (rd_claims d);
  _ ← require (bool_decide (dom (rd_threads d) = dom (rd_statuses d)))
      (MalformedRecord "thread statuses do not match declarations");
  _ ← require (bool_decide (dom (rd_threads d) ⊆ dom (gc_generations (rd_owners d))))
      (MalformedRecord "missing owner generation");
  _ ← require (bool_decide (dom (rd_threads d) ⊆ dom (gc_generations (rd_claims d))))
      (MalformedRecord "missing claim_scope generation");
  require (bool_decide (map_Forall (fun alias target => target ∈ dom (rd_threads d) /\ alias ∉ dom (rd_threads d))
                          (rd_aliases d)))
    (MalformedRecord "alias has no exclusive retained owner").

(** [RegistryDocument.presented] *)
Definition presented (d : RegistryDocument) : outcome unit :=
  require (bool_decide (dom (rd_threads d) ⊆ dom (rd_last_seen d)))
    (RelationViolationError "a declared thread has no presence row").

(** [ThreadRows.require_distinct_births] *)
Definition require_distinct_births (d : RegistryDocument) : outcome unit :=
  require (bool_decide (NoDup (map (fun kt => th_birth kt.2) (map_to_list (rd_threads d)))))
    (RelationViolationError "Registry creation identities collide.").

(** [RegistryStore.snapshot] of the committed document *)
Definition read_document (d : RegistryDocument) : outcome RegistryDocument :=
  _ ← from_wire d; _ ← presented d; _ ← require_distinct_births d; Ok d.
