(* ===== verification/Registration.v ===== *)
(** * Registration and the registry store

    Models the registrations of [registration_change.py] and [registry/registration.py], with
    the transactions of [RegistryStore.editing] ([registry/registry_store.py]) over the
    operations of [RegistryDocument.v]: registering, declaring and claiming a name for a
    thread, reserving and releasing its process, leasing its turn, restoring threads of
    another root and fencing owners for a restart.  The participant row of the coordinator,
    storage roots and the history of goals, which a registration also writes, are left out. *)

From stdpp Require Import base gmap strings list.
From Stdlib Require Import ZArith Lia.
From S2P Require Import Prelude Contracts ThreadStatus Threads RegistryDocument.

(** ** Registration changes *)

(** A first registration or the update of a declaration; an explicit one always takes over *)
Record RegistrationChange : Type := mkRegistrationChange {
  rc_thread : Thread;
  rc_status : ThreadStatus;
  rc_previous : option (Thread * ThreadStatus);
  rc_explicit : bool;
}.

(** [RegistrationChange.restarted] *)
Definition change_restarted (c : RegistrationChange) : RegistrationChange :=
  mkRegistrationChange (rc_thread c) (rc_status c) (rc_previous c) true.

Definition change_with_thread (c : RegistrationChange) (t : Thread) : RegistrationChange :=
  mkRegistrationChange t (rc_status c) (rc_previous c) (rc_explicit c).

(** [RegistrationChange.changes_owner] *)
Definition changes_owner (c : RegistrationChange) : bool :=
  match rc_previous c with
  | None => true
  | Some (previous, previous_status) =>
      rc_explicit c
      || negb (bool_decide (th_process previous = th_process (rc_thread c)))
      || negb (bool_decide (th_execution previous = th_execution (rc_thread c)))
      || negb (bool_decide (th_role previous = th_role (rc_thread c)))
      || status_changes_owner previous_status (rc_status c)
  end.

(** [RegistrationChange.apply] *)
Definition apply_change (ob : Observation) (c : RegistrationChange) : Reg unit :=
  thread ← reg_lift (if changes_owner c then checked (restarted_tools (rc_thread c)) else Ok (rc_thread c));
  _ ← install_thread thread;
  _ ← set_status (th_name thread) (rc_status c);
  _ ← set_seen (th_name thread) (ob_now ob);
  if changes_owner c then _ ← advance_claim (th_name thread); advance_owner (th_name thread) else mret tt.

(** [RegistryDocument.prepare_registration] *)
Definition prepare_registration (ob : Observation) (d : RegistryDocument) (t : Thread) (requested : ThreadStatus)
    (new_owner : bool) : outcome RegistrationChange :=
  let s := registered_status ob t requested in
  _ ← refuse (bool_decide (is_Some (rd_aliases d !! th_name t)))
      (RelationViolationError ("Thread name '" +:+ th_name t +:+ "' is a permanent alias and cannot be reused."));
  _ ← (if bool_decide (is_Some (rd_statuses d !! th_name t))
       then stored ← status ob d (th_name t); require_mutable stored (th_name t) else Ok tt);
  match rd_threads d !! th_name t with
  | Some previous =>
      kept ← preserve_registration_history t previous;
      previous_status ← status ob d (th_name t);
      Ok (mkRegistrationChange kept s (Some (previous, previous_status)) new_owner)
  | None =>
      created ← distinct_from (th_created t) (births d);
      fresh ← checked (with_created t created);
      Ok (mkRegistrationChange fresh s None new_owner)
  end.

(** [UpdatedRegistration.declared] and [RegistrationChange.declared] *)
Definition declared (c : RegistrationChange) (requested : Thread) : outcome RegistrationChange :=
  match rc_previous c with
  | None => Ok c
  | Some (previous, _) =>
      if executing previous then
        _ ← refuse (negb (bool_decide (th_execution requested = th_execution previous)))
            (RelationViolationError "Cannot replace receiving capability during its active turn.");
        _ ← refuse (conflicts_with (th_process requested) (th_process previous))
            (RelationViolationError "Cannot replace an executor during its active turn.");
        kept ← checked (with_turn (with_process (rc_thread c) (th_process previous))
                          (th_turn previous) (th_turn_generation previous));
        Ok (change_with_thread c kept)
      else
        match th_process requested, th_process previous with
        | ProcessIdentity _ _, ProcessIdentity _ _ =>
            Ok (if th_birth requested =? th_birth previous then c else change_restarted c)
        | _, _ => Ok c
        end
  end.

(** [RegistryDocument.prepare_declaration] *)
Definition prepare_declaration (choose_rest : string -> string -> string) (ob : Observation) (d : RegistryDocument)
    (t : Thread) (s : ThreadStatus) : outcome RegistrationChange :=
  let canonical := canonical_name d (th_name t) in
  requested ← for_registration choose_rest t canonical (rd_threads d !! canonical);
  change ← prepare_registration ob d requested s false;
  declared change requested.

(** ** Transactions *)

Record Registry : Type := mkRegistry {
  rg_document : RegistryDocument;
  rg_turns : gmap (Z * Z) ActiveTurn;
}.

(** [RegistryStore.editing] and [RegistryEdit.commit]: an error discards the document but not
    what was written to turn files; a commit deletes the superseded ones. *)
Definition editing {A : Type} (operation : Reg A) (r : Registry) : outcome A * Registry :=
  match rd_purpose (rg_document r) with
  | HistoricalRootPurpose => (Err (RelationViolationError "Historical roots are read-only"), r)
  | WorkingRootPurpose =>
      match operation (mkEdit (rg_document r) (rg_document r) (rg_turns r) []) with
      | (Ok a, e) => (Ok a, mkRegistry (ed_document e) (foldr delete (ed_turns e) (ed_superseded e)))
      | (Err x, e) => (Err x, mkRegistry (rg_document r) (ed_turns e))
      end
  end.

(** [RegistryStore.mark_historical] *)
Definition mark_historical (r : Registry) : Registry :=
  let d := rg_document r in
  mkRegistry (mkRegistryDocument HistoricalRootPurpose (rd_threads d) (rd_statuses d) (rd_last_seen d)
                (rd_aliases d) (rd_owners d) (rd_claims d)) (rg_turns r).

(** ** Operations of [Registration] *)

(** [Registration.register] *)
Definition register_thread (ob : Observation) (t : Thread) (s : ThreadStatus) (new_owner : bool) : Reg Thread :=
  change ← reg_try (fun d => prepare_registration ob d t s new_owner);
  _ ← apply_change ob change;
  mret (rc_thread change).

(** [Registration.update_thread] *)
Definition update_thread (ob : Observation) (name : string) (change : Thread -> outcome Thread) : Reg Thread :=
  current ← reg_try (fun d => require_thread d name);
  changed ← reg_lift (change current);
  if same_declaration changed current then mret current else
  s ← reg_try (fun d => status ob d (th_name current));
  register_thread ob changed s false.

(** [Registration._declare_in]; whether the catalog has room for new tags is an argument *)
Definition declare_in (choose_rest : string -> string -> string) (available : gset string -> outcome unit)
    (ob : Observation) (t : Thread) (s : ThreadStatus) : Reg Thread :=
  change ← reg_try (fun d => prepare_declaration choose_rest ob d t s);
  _ ← reg_lift (available (th_tags (rc_thread change)));
  _ ← apply_change ob change;
  mret (rc_thread change).

(** [Registration._claim_unlocked] *)
Definition claim_thread (choose_rest : string -> string -> string) (available : gset string -> outcome unit)
    (ob : Observation) (t : Thread) : Reg Thread :=
  name ← reg_read (fun d => claim_name d (th_name t) None);
  requested ← reg_lift (checked (with_name t name));
  declare_in choose_rest available ob requested ProcessThreadStatus.

(** [RegistryDocument.change_tag] *)
Definition change_tag (ob : Observation) (originals : list Thread) (tag : string) (replacement : option string)
    : Reg unit :=
  _ ← require_originals originals;
  reg_each (fun original =>
    current ← reg_try (fun d => require_thread d (th_name original));
    let tags := (th_tags current ∖ {[tag]}) ∪ match replacement with Some r => {[r]} | None => ∅ end in
    retagged ← reg_lift (checked (with_tags current tags));
    s ← reg_try (fun d => status ob d (th_name current));
    _ ← register_thread ob retagged s false;
    mret tt) originals.

(** [Thread.stored], of a native or an external member *)
Definition require_native (t : Thread) : outcome Thread :=
  _ ← require (bool_decide (th_execution t = NativeThread))
      (RelationViolationError "This participant checks its CLI inbox; it has no native prompt transport.");
  Ok t.

Definition require_external (t : Thread) : outcome Thread :=
  match th_execution t with
  | ExternalThread | SubagentThread | ForkThread => Ok t
  | _ => Err (RelationViolationError "Only an external CLI can publish a bridge process.")
  end.

(** [Thread.same_launch]; what the remaining fields contribute is given *)
Definition same_launch (launch_rest : string -> string) (a b : Thread) : bool :=
  (th_birth a =? th_birth b) && bool_decide (th_process a = th_process b) && bool_decide (th_role a = th_role b)
  && bool_decide (th_execution a = th_execution b) && bool_decide (launch_rest (th_rest a) = launch_rest (th_rest b)).

(** [Registration.reserve_owner] *)
Definition reserve_owner (launch_rest : string -> string) (ob : Observation) (original : Thread) (process : ProcessState)
    : Reg (Thread * Z) :=
  found ← reg_try (fun d => require_thread d (th_name original));
  current ← reg_lift (require_native found);
  _ ← reg_lift (require (same_launch launch_rest current original)
                  (RelationViolationError "Owner launch changed before process reservation."));
  _ ← reg_lift (refuse (alive ob (th_process current))
                  (RelationViolationError "Thread already has a live owner process."));
  s ← reg_try (fun d => status ob d (th_name current));
  _ ← reg_lift (require_visible s "Only visible agent threads can be started.");
  owned ← reg_lift (checked (with_process (without_turn current) process));
  reserved ← register_thread ob owned ProcessThreadStatus true;
  stored ← reg_try (fun d => require_thread d (th_name reserved));
  claimed ← reg_try (fun d => claim_generation d (th_name reserved));
  mret (stored, claimed).

(** [ExternalThread.serving_its_own_session] *)
Definition serving_its_own_session (t : Thread) : Thread := with_execution t ExternalThread.

(** The owner of an endpoint: [OwnerIdentity], an incarnation and an owner generation *)
Record OwnerIdentity : Type := mkOwnerIdentity { oi_name : string; oi_birth : Z; oi_generation : Z }.

(** [OwnerIdentity.owns] *)
Definition owns (o : OwnerIdentity) (t : Thread) (generation : Z) (process : ProcessState) : bool :=
  (oi_birth o =? th_birth t) && (oi_generation o =? generation) && bool_decide (th_process t = process).

(** [RegistrySnapshot.require_owner_process], with [OwnerIdentity.require_current] *)
Definition require_owner_process (ob : Observation) (d : RegistryDocument) (o : OwnerIdentity) (process : ProcessState)
    : outcome unit :=
  thread ← require_active ob d (oi_name o);
  generation ← of_option (gc_generations (rd_owners d) !! th_name thread) (KeyError (th_name thread));
  _ ← refuse (negb (oi_birth o =? th_birth thread))
      (RelationViolationError "Thread incarnation changed during owner attachment");
  _ ← refuse (negb (oi_generation o =? generation)) (RelationViolationError "Owner lease changed during attachment");
  _ ← require_executable (th_role thread) (RelationViolationError "A human thread owns no local process");
  require (bool_decide (th_process thread = process))
    (RelationViolationError "live owner is not the current process incarnation").

(** The entry of [Registration.external_process] *)
Definition bind_external (ob : Observation) (name : string) (process : ProcessState) : Reg OwnerIdentity :=
  found ← reg_try (fun d => require_thread d name);
  thread ← reg_lift (require_external found);
  _ ← reg_lift (refuse (alive ob (th_process thread) && negb (bool_decide (th_process thread = process)))
                  (RelationViolationError "Another live process owns this CLI endpoint."));
  bound_thread ← reg_lift (checked (with_process (serving_its_own_session thread) process));
  _ ← register_thread ob bound_thread ConnectedThreadStatus true;
  current ← reg_try (fun d => require_thread d (th_name bound_thread));
  generation ← reg_try (fun d => owner_generation d (th_name current));
  mret (mkOwnerIdentity (th_name current) (th_birth current) generation).

(** [Registration._released] *)
Definition release_binding (ob : Observation) (t : Thread) : Reg unit :=
  unbound ← reg_lift (checked (with_process t NoProcess));
  _ ← register_thread ob unbound NoBridgeThreadStatus false;
  mret tt.

(** The exit of [Registration.external_process]: only the owner that bound the endpoint
    releases it *)
Definition leave_external (ob : Observation) (owner : OwnerIdentity) (process : ProcessState) : Reg unit :=
  found ← reg_read (fun d => rd_threads d !! canonical_name d (oi_name owner));
  match found with
  | None => mret tt
  | Some t =>
      s ← reg_try (fun d => status ob d (th_name t));
      generation ← reg_try (fun d => owner_generation d (th_name t));
      if active_presence s && owns owner t generation process then release_binding ob t else mret tt
  end.

(** [Registration.release_external] *)
Definition release_external (ob : Observation) (name : string) : Reg unit :=
  found ← reg_try (fun d => require_thread d name);
  thread ← reg_lift (require_external found);
  release_binding ob thread.

(** [RegistryOwner.capture_local] *)
Definition capture_local (ob : Observation) (name : string) : Reg (Thread * Z) :=
  found ← reg_try (fun d => require_active ob d name);
  thread ← reg_lift (require_native found);
  _ ← reg_lift (require_executable (th_role thread) (RelationViolationError "A human thread owns no local process"));
  _ ← reg_lift (require (bool_decide (th_process thread = ob_self ob))
                  (RelationViolationError "live owner is not the current process incarnation"));
  claimed ← reg_try (fun d => claim_generation d (th_name thread));
  turn ← read_turn (th_turn thread);
  _ ← reg_lift match turn with
               | Some a => require (turn_current a claimed (th_turn_generation thread))
                             (RelationViolationError "live owner turn claim_scope is no longer current")
               | None => Ok tt
               end;
  mret (thread, claimed).

(** [StoredTurnRecord.begin]: the file of a new turn *)
Definition begin_turn (record : Z * Z) (turn : ActiveTurn) : Reg unit := fun e =>
  (Ok tt, mkEdit (ed_committed e) (ed_document e) (<[record := turn]> (ed_turns e)) (ed_superseded e)).

(** [self.superseded.append(record)] *)
Definition supersede (record : Z * Z) : Reg unit := fun e =>
  (Ok tt, mkEdit (ed_committed e) (ed_document e) (ed_turns e) (ed_superseded e ++ [record])).

(** [RegistryEdit.lease_turn] *)
Definition lease_turn (ob : Observation) (current : Thread) (turn_id : string) (keeps_resume : bool)
    : Reg (Thread * Z) :=
  _ ← reg_lift (refuse (max_generation - 1 <=? th_turn_generation current)
                  (RelationViolationError "Turn generation exhausted"));
  let generation := th_turn_generation current + 1 in
  _ ← reg_lift (require_executable (th_role current)
                  (RelationViolationError ("Thread '" +:+ th_name current +:+ "' is human; it owns no process")));
  _ ← reg_lift (refuse (bool_decide (th_process current = NoProcess))
                  (RelationViolationError ("Thread '" +:+ th_name current +:+ "' has no owner process")));
  claimed ← reg_try (fun d => of_option (gc_generations (rd_claims d) !! th_name current) (KeyError (th_name current)));
  leased ← reg_lift (checked (with_resume (with_turn current (StoredTurn (th_birth current) generation) generation) false));
  _ ← begin_turn (th_birth current, generation)
        (mkActiveTurn turn_id (th_process current) (ob_now ob) (Some claimed) (Some generation) keeps_resume);
  _ ← (if th_turn_generation current =? 0 then mret tt
       else supersede (th_birth current, th_turn_generation current));
  _ ← put_thread leased;
  _ ← set_seen (th_name current) (ob_now ob);
  owner ← reg_try (fun d => of_option (gc_generations (rd_owners d) !! th_name current) (KeyError (th_name current)));
  mret (leased, owner).

(** [Registration.lease_local_turn] *)
Definition lease_local_turn (ob : Observation) (name turn_id : string) (keeps_resume : bool) : Reg (Thread * Z) :=
  owner ← capture_local ob name;
  turn ← read_turn (th_turn owner.1);
  _ ← reg_lift (refuse (bool_decide (is_Some turn)) (RelationViolationError "live owner already has an active turn"));
  lease_turn ob owner.1 turn_id keeps_resume.

(** [RegistryEdit.fence_restart_owners] *)
Definition fence_restart_owners (ob : Observation) (selected : list (Thread * Z)) : Reg unit :=
  reg_each (fun item => _ ← fence_restart_owner ob item.1 item.2; mret tt) selected.

(** ** Restoring threads of another root *)

(** [ThreadRows.__getitem__] of a recorded row *)
Definition source_thread (source : RegistryDocument) (name : string) : outcome Thread :=
  t ← of_option (rd_threads source !! name) (KeyError name);
  _ ← require (bool_decide (th_name t = name)) (MalformedRecord "thread name differs from its declaration");
  checked t.

(** [RegistrySnapshot.restorable_aliases] *)
Definition restorable_aliases (source : RegistryDocument) (available : gmap string Thread) (retained : gmap string string)
    : gmap string string :=
  filter (fun at_ => negb (bool_decide (is_Some (available !! at_.1))) && negb (bool_decide (is_Some (retained !! at_.1)))
            && match rd_threads source !! at_.2, available !! at_.2 with
               | Some s, Some a => th_birth s =? th_birth a
               | _, _ => false
               end = true) (rd_aliases source).

(** The selection loop of [RegistryDocument.restore_stopped]: the births already identified
    and the declarations to add *)
Fixpoint restorable (d source : RegistryDocument) (identities : gset Z) (names : list string)
    : outcome (list Thread) :=
  match names with
  | [] => Ok []
  | name :: rest =>
      thread ← source_thread source name;
      let conflict := RelationViolationError ("Restoration identity conflicts for '" +:+ name +:+ "'") in
      match rd_threads d !! name with
      | Some existing =>
          _ ← refuse (negb (th_birth existing =? th_birth thread)) conflict;
          restorable d source identities rest
      | None =>
          _ ← refuse (bool_decide (is_Some (rd_aliases d !! name)) || bool_decide (th_birth thread ∈ identities)) conflict;
          added ← checked (without_process thread);
          others ← restorable d source (identities ∪ {[th_birth thread]}) rest;
          Ok (added :: others)
      end
  end.

(** [dict.fromkeys(names)] *)
Fixpoint distinct_names (names seen : list string) : list string :=
  match names with
  | [] => []
  | n :: rest => if bool_decide (n ∈ seen) then distinct_names rest seen else n :: distinct_names rest (n :: seen)
  end.

(** [RegistryDocument.restore_stopped] *)
Definition restore_stopped (ob : Observation) (source : RegistryDocument) (names : list string) : Reg (list string) :=
  additions ← reg_try (fun d => restorable d source (births d) (distinct_names names []));
  aliases ← reg_read (fun d =>
    restorable_aliases source (list_to_map (map (fun t => (th_name t, t)) additions) ∪ rd_threads d) (rd_aliases d));
  _ ← reg_each (fun t =>
        _ ← put_thread t;
        s ← reg_lift (status ob source (th_name t));
        _ ← set_status (th_name t) (restored s);
        seen ← reg_lift (of_option (rd_last_seen source !! canonical_name source (th_name t)) (KeyError (th_name t)));
        _ ← set_seen (th_name t) seen;
        _ ← advance_claim (th_name t);
        advance_owner (th_name t)) additions;
  _ ← reg_modify (fun d => set_aliases d (aliases ∪ rd_aliases d));
  mret (map th_name additions).
