(* ===== verification/RegistrySteps.v ===== *)
(** * Steps of the registry document

    Every committed operation of the registry changes the document by a sequence of a few
    steps: it touches one declared thread, adds one under a free name and a fresh birth,
    renames one, removes one when the operation removes, or adopts aliases.  This file states the steps,
    what a document satisfies ([document_wf]), and that each step keeps it. *)

From stdpp Require Import base gmap strings list relations.
From Stdlib Require Import ZArith Lia.
From S2P Require Import Prelude Contracts ThreadStatus Threads RegistryDocument.

(** ** Invariant *)

(** A row of the thread table: under its own name, constructible, its turn reference its own *)
Record row_wf (name : string) (t : Thread) : Prop := {
  row_name : th_name t = name;
  row_ok : thread_post_init t = Ok tt;
  row_bound : bound t = t;
}.

Record counter_wf (c : GenerationCounter) : Prop := {
  cw_counter : 0 <= gc_counter c;
  cw_bounds : map_Forall (fun _ value => 0 < value <= gc_counter c) (gc_generations c);
}.

Record document_wf (d : RegistryDocument) : Prop := {
  dw_rows : map_Forall row_wf (rd_threads d);
  dw_statuses : dom (rd_statuses d) = dom (rd_threads d);
  dw_declared : map_Forall (fun _ s => declaration s = s) (rd_statuses d);
  dw_seen : dom (rd_last_seen d) = dom (rd_threads d);
  dw_aliases : map_Forall (fun alias target => is_Some (rd_threads d !! target) /\ rd_threads d !! alias = None)
                 (rd_aliases d);
  dw_births : forall n1 n2 t1 t2, rd_threads d !! n1 = Some t1 -> rd_threads d !! n2 = Some t2 ->
                th_birth t1 = th_birth t2 -> n1 = n2;
  dw_owned : dom (rd_threads d) ⊆ dom (gc_generations (rd_owners d));
  dw_claimed : dom (rd_threads d) ⊆ dom (gc_generations (rd_claims d));
  dw_owners : counter_wf (rd_owners d);
  dw_claims : counter_wf (rd_claims d);
}.

(** ** Steps *)

(** A counter is left, or allocates the next generation to a name *)
Definition counter_step (name : string) (c c' : GenerationCounter) : Prop := c' = c \/ c' = gc_advance c name.

Definition renamed_counter (old new : string) (c c' : GenerationCounter) : Prop :=
  exists value, gc_generations c !! old = Some value /\ gc_counter c' = gc_counter c /\
    gc_generations c' = <[new := value]> (delete old (gc_generations c)).

Inductive doc_step (removes : bool) (d d' : RegistryDocument) : Prop :=
| step_touch (name : string) (t t' : Thread) (s : ThreadStatus) (seen : Z) :
    rd_threads d !! name = Some t ->
    row_wf name t' -> th_birth t' = th_birth t -> declaration s = s ->
    rd_purpose d' = rd_purpose d ->
    rd_threads d' = <[name := t']> (rd_threads d) ->
    rd_statuses d' = <[name := s]> (rd_statuses d) ->
    rd_last_seen d' = <[name := seen]> (rd_last_seen d) ->
    rd_aliases d' = rd_aliases d ->
    counter_step name (rd_owners d) (rd_owners d') ->
    counter_step name (rd_claims d) (rd_claims d') ->
    doc_step removes d d'
| step_add (name : string) (t : Thread) (s : ThreadStatus) (seen : Z) :
    rd_threads d !! name = None -> rd_aliases d !! name = None ->
    row_wf name t -> th_birth t ∉ births d -> declaration s = s ->
    rd_purpose d' = rd_purpose d ->
    rd_threads d' = <[name := t]> (rd_threads d) ->
    rd_statuses d' = <[name := s]> (rd_statuses d) ->
    rd_last_seen d' = <[name := seen]> (rd_last_seen d) ->
    rd_aliases d' = rd_aliases d ->
    rd_owners d' = gc_advance (rd_owners d) name ->
    rd_claims d' = gc_advance (rd_claims d) name ->
    doc_step removes d d'
| step_rename (old new : string) (t t' : Thread) (s : ThreadStatus) (seen : Z) :
    rd_threads d !! old = Some t -> rd_threads d !! new = None -> old <> new ->
    (forall target, rd_aliases d !! new = Some target -> target = old) ->
    row_wf new t' -> th_birth t' = th_birth t ->
    map_Forall (fun n u => th_parent u = Some old -> thread_post_init (with_parent u (Some new)) = Ok tt)
      (delete old (rd_threads d)) ->
    rd_statuses d !! old = Some s -> rd_last_seen d !! old = Some seen ->
    rd_purpose d' = rd_purpose d ->
    rd_threads d' = <[new := t']> (reparent old (Some new) (delete old (rd_threads d))) ->
    rd_statuses d' = <[new := s]> (delete old (rd_statuses d)) ->
    rd_last_seen d' = <[new := seen]> (delete old (rd_last_seen d)) ->
    rd_aliases d' = <[old := new]> ((fun target => if bool_decide (target = old) then new else target) <$>
                                      delete new (rd_aliases d)) ->
    renamed_counter old new (rd_owners d) (rd_owners d') ->
    renamed_counter old new (rd_claims d) (rd_claims d') ->
    doc_step removes d d'
| step_remove (name : string) (t : Thread) :
    removes = true ->
    rd_threads d !! name = Some t ->
    rd_purpose d' = rd_purpose d ->
    rd_threads d' = delete name (reparent name None (rd_threads d)) ->
    rd_statuses d' = delete name (rd_statuses d) ->
    rd_last_seen d' = delete name (rd_last_seen d) ->
    rd_aliases d' = filter (fun at_ => at_.2 <> name) (rd_aliases d) ->
    counter_step name (rd_owners d) (rd_owners d') ->
    rd_claims d' = gc_advance (rd_claims d) name ->
    doc_step removes d d'
| step_adopt (extra : gmap string string) :
    map_Forall (fun alias target => is_Some (rd_threads d !! target) /\ rd_threads d !! alias = None /\
                                    rd_aliases d !! alias = None) extra ->
    d' = set_aliases d (extra ∪ rd_aliases d) ->
    doc_step removes d d'
| step_mark :
    d' = mkRegistryDocument HistoricalRootPurpose (rd_threads d) (rd_statuses d) (rd_last_seen d)
           (rd_aliases d) (rd_owners d) (rd_claims d) ->
    doc_step removes d d'.
Arguments step_touch {removes}.
Arguments step_add {removes}.
Arguments step_rename {removes}.
Arguments step_remove {removes}.
Arguments step_adopt {removes}.
Arguments step_mark {removes}.

(** ** Rows *)

Lemma bound_birth t : th_birth (bound t) = th_birth t.
Proof. unfold bound. by destruct (th_turn t). Qed.

Lemma bound_name t : th_name (bound t) = th_name t.
Proof. unfold bound. by destruct (th_turn t). Qed.

Lemma bound_parent t : th_parent (bound t) = th_parent t.
Proof. unfold bound. by destruct (th_turn t). Qed.

Lemma bound_bound t : bound (bound t) = bound t.
Proof. unfold bound. destruct (th_turn t) eqn:E; simpl; rewrite ?E; done. Qed.

Lemma bound_post_init t : thread_post_init (bound t) = thread_post_init t.
Proof. unfold bound. destruct (th_turn t) eqn:E; [done..|]. unfold thread_post_init. simpl. by rewrite E. Qed.

Lemma checked_ok t t' : checked t = Ok t' <-> thread_post_init t = Ok tt /\ t' = t.
Proof.
  unfold checked. split.
  - intros H. ok_inv. by destruct x.
  - intros [-> ->]. done.
Qed.

Lemma bound_row t t' : checked t = Ok t' -> row_wf (th_name t') (bound t').
Proof. intros [H ->]%checked_ok. split; [apply bound_name | by rewrite bound_post_init | apply bound_bound]. Qed.

(** Detaching a child leaves a constructible row *)
Lemma detach_post_init t : thread_post_init t = Ok tt -> thread_post_init (with_parent t None) = Ok tt.
Proof.
  unfold thread_post_init, th_birth. intros H. ok_inv. simpl. by rewrite H0, H1, H2, H3, H4, H5.
Qed.

(** ** Counters *)

Lemma counter_advance_wf c name : counter_wf c -> counter_wf (gc_advance c name).
Proof.
  intros [H1 H2]. split; simpl; [lia|]. apply map_Forall_insert_2; [lia|].
  intros n v Hv. specialize (H2 n v Hv). simpl in H2. lia.
Qed.

Lemma counter_step_wf name c c' : counter_step name c c' -> counter_wf c -> counter_wf c'.
Proof. intros [->| ->]; auto using counter_advance_wf. Qed.

Lemma counter_step_dom name c c' : counter_step name c c' -> dom (gc_generations c) ⊆ dom (gc_generations c').
Proof. intros [->| ->]; [done|]. simpl. rewrite dom_insert. set_solver. Qed.

Lemma renamed_counter_wf old new c c' : renamed_counter old new c c' -> counter_wf c -> counter_wf c'.
Proof.
  intros (v & Hv & Hc & Hg) [H1 H2]. split; rewrite ?Hg, ?Hc; [done|].
  apply map_Forall_insert_2; [by apply (H2 old)|]. by apply map_Forall_delete.
Qed.

Lemma renamed_counter_dom old new c c' (X : gset string) :
  renamed_counter old new c c' -> X ⊆ dom (gc_generations c) -> {[new]} ∪ X ∖ {[old]} ⊆ dom (gc_generations c').
Proof. intros (v & Hv & Hc & ->) HX. rewrite dom_insert, dom_delete. set_solver. Qed.

(** ** The maps of a step *)

Lemma insert_dom_same {A : Type} (m : gmap string A) name x : is_Some (m !! name) -> dom (<[name := x]> m) = dom m.
Proof. intros H. rewrite dom_insert_L. apply elem_of_dom in H. set_solver. Qed.

Lemma dom_same_lookup {A B : Type} (m1 : gmap string A) (m2 : gmap string B) name :
  dom m1 = dom m2 -> is_Some (m2 !! name) -> is_Some (m1 !! name).
Proof. intros Hd H. apply elem_of_dom. rewrite Hd. by apply elem_of_dom. Qed.

Lemma elem_of_births d b : b ∈ births d <-> exists n t, rd_threads d !! n = Some t /\ th_birth t = b.
Proof.
  unfold births. rewrite elem_of_list_to_set, list_elem_of_In, in_map_iff. split.
  - intros ([n t] & <- & H%list_elem_of_In%elem_of_map_to_list). eauto.
  - intros (n & t & H & <-). exists (n, t). split; [done|]. by apply list_elem_of_In, elem_of_map_to_list.
Qed.

Lemma reparent_dom old parent ts : dom (reparent old parent ts) = dom ts.
Proof. apply dom_fmap_L. Qed.

(** The row of a thread whose parent may have changed *)
Definition reparented (old : string) (parent : option string) (t : Thread) : Thread :=
  if bool_decide (th_parent t = Some old) then bound (with_parent t parent) else t.

Lemma reparent_lookup old parent ts n : reparent old parent ts !! n = reparented old parent <$> ts !! n.
Proof. apply lookup_fmap. Qed.

Lemma reparented_birth old parent t : th_birth (reparented old parent t) = th_birth t.
Proof. unfold reparented. case_bool_decide; [|done]. by rewrite bound_birth. Qed.

Lemma reparented_row old parent n t :
  row_wf n t -> (th_parent t = Some old -> thread_post_init (with_parent t parent) = Ok tt) ->
  row_wf n (reparented old parent t).
Proof.
  intros [H1 H2 H3] H. unfold reparented. case_bool_decide as Hp; [|done].
  split; [by rewrite bound_name | rewrite bound_post_init; auto | apply bound_bound].
Qed.

Lemma reparent_some old parent ts n t' :
  reparent old parent ts !! n = Some t' -> exists t, ts !! n = Some t /\ t' = reparented old parent t.
Proof. rewrite reparent_lookup. intros (t & -> & ->)%fmap_Some. eauto. Qed.

(** ** Each step keeps the invariant *)

Section steps.
Context (d d' : RegistryDocument) (Hwf : document_wf d).

Lemma touch_wf name t t' s seen :
  rd_threads d !! name = Some t -> row_wf name t' -> th_birth t' = th_birth t -> declaration s = s ->
  rd_threads d' = <[name := t']> (rd_threads d) -> rd_statuses d' = <[name := s]> (rd_statuses d) ->
  rd_last_seen d' = <[name := seen]> (rd_last_seen d) -> rd_aliases d' = rd_aliases d ->
  counter_step name (rd_owners d) (rd_owners d') -> counter_step name (rd_claims d) (rd_claims d') ->
  document_wf d'.
Proof.
  intros Ht Hrow Hbirth Hs Et Es El Ea Ho Hc. destruct Hwf as [H1 H2 H3 H4 H5 H6 H7 H8 H9 H10].
  assert (is_Some (rd_threads d !! name)) as Hin by eauto.
  split; rewrite ?Et, ?Es, ?El, ?Ea.
  - by apply map_Forall_insert_2.
  - rewrite !insert_dom_same; eauto using dom_same_lookup.
  - by apply map_Forall_insert_2.
  - rewrite !insert_dom_same; eauto using dom_same_lookup.
  - intros a b Hab. destruct (H5 a b Hab) as [Hb Ha]. rewrite !lookup_insert_is_Some, lookup_insert_None.
    split; [destruct (decide (name = b)); auto|]. split; [done|]. intros ->. congruence.
  - intros n1 n2 t1 t2 E1 E2. rewrite lookup_insert_Some in E1, E2. intros E.
    destruct E1 as [[<- <-]|[_ E1]], E2 as [[<- <-]|[_ E2]]; [done|..].
    + apply (H6 name n2 t t2); congruence.
    + apply (H6 n1 name t1 t); congruence.
    + by apply (H6 n1 n2 t1 t2).
  - rewrite insert_dom_same by done. pose proof (counter_step_dom _ _ _ Ho). set_solver.
  - rewrite insert_dom_same by done. pose proof (counter_step_dom _ _ _ Hc). set_solver.
  - by eapply counter_step_wf.
  - by eapply counter_step_wf.
Qed.

Lemma add_wf name t s seen :
  rd_threads d !! name = None -> rd_aliases d !! name = None -> row_wf name t -> th_birth t ∉ births d ->
  declaration s = s ->
  rd_threads d' = <[name := t]> (rd_threads d) -> rd_statuses d' = <[name := s]> (rd_statuses d) ->
  rd_last_seen d' = <[name := seen]> (rd_last_seen d) -> rd_aliases d' = rd_aliases d ->
  rd_owners d' = gc_advance (rd_owners d) name -> rd_claims d' = gc_advance (rd_claims d) name ->
  document_wf d'.
Proof.
  intros Hn Ha Hrow Hfresh Hs Et Es El Ea Ho Hc. destruct Hwf as [H1 H2 H3 H4 H5 H6 H7 H8 H9 H10].
  assert (forall n u, rd_threads d !! n = Some u -> th_birth u <> th_birth t) as Hother.
  { intros n u Hu E. apply Hfresh, elem_of_births. eauto. }
  split; rewrite ?Et, ?Es, ?El, ?Ea, ?Ho, ?Hc.
  - by apply map_Forall_insert_2.
  - by rewrite !dom_insert_L, H2.
  - by apply map_Forall_insert_2.
  - by rewrite !dom_insert_L, H4.
  - intros a b Hab. destruct (H5 a b Hab) as [Hb Hna]. rewrite lookup_insert_is_Some, lookup_insert_None.
    split; [destruct (decide (name = b)); auto|]. split; [done|]. intros ->. congruence.
  - intros n1 n2 t1 t2 E1 E2. rewrite lookup_insert_Some in E1, E2. intros E.
    destruct E1 as [[<- <-]|[_ E1]], E2 as [[<- <-]|[_ E2]]; [done|..].
    + by destruct (Hother n2 t2).
    + by destruct (Hother n1 t1).
    + by apply (H6 n1 n2 t1 t2).
  - simpl. rewrite !dom_insert_L. set_solver.
  - simpl. rewrite !dom_insert_L. set_solver.
  - by apply counter_advance_wf.
  - by apply counter_advance_wf.
Qed.

Lemma rename_wf old new t t' s seen :
  rd_threads d !! old = Some t -> rd_threads d !! new = None -> old <> new ->
  (forall target, rd_aliases d !! new = Some target -> target = old) ->
  row_wf new t' -> th_birth t' = th_birth t ->
  map_Forall (fun n u => th_parent u = Some old -> thread_post_init (with_parent u (Some new)) = Ok tt)
    (delete old (rd_threads d)) ->
  rd_statuses d !! old = Some s ->
  rd_threads d' = <[new := t']> (reparent old (Some new) (delete old (rd_threads d))) ->
  rd_statuses d' = <[new := s]> (delete old (rd_statuses d)) ->
  rd_last_seen d' = <[new := seen]> (delete old (rd_last_seen d)) ->
  rd_aliases d' = <[old := new]> ((fun target => if bool_decide (target = old) then new else target) <$>
                                    delete new (rd_aliases d)) ->
  renamed_counter old new (rd_owners d) (rd_owners d') ->
  renamed_counter old new (rd_claims d) (rd_claims d') ->
  document_wf d'.
Proof.
  intros Ht Hnew Hne Hown Hrow Hbirth Hchild Hs Et Es El Ea Ho Hc. destruct Hwf as [H1 H2 H3 H4 H5 H6 H7 H8 H9 H10].
  assert (forall n u, reparent old (Some new) (delete old (rd_threads d)) !! n = Some u ->
            exists u0, rd_threads d !! n = Some u0 /\ n <> old /\ th_birth u = th_birth u0) as Hold.
  { intros n u (u0 & Hu%lookup_delete_Some & ->)%reparent_some. exists u0. rewrite reparented_birth. naive_solver. }
  split; rewrite ?Et, ?Es, ?El, ?Ea.
  - apply map_Forall_insert_2; [done|]. intros n u (u0 & Hu & ->)%reparent_some.
    apply reparented_row; [|by apply Hchild in Hu]. apply lookup_delete_Some in Hu as [_ Hu]. by apply H1.
  - by rewrite !dom_insert_L, reparent_dom, !dom_delete_L, H2.
  - apply map_Forall_insert_2; [by apply (H3 old)|]. by apply map_Forall_delete.
  - by rewrite !dom_insert_L, reparent_dom, !dom_delete_L, H4.
  - assert (forall n, n <> old -> is_Some (rd_threads d !! n) ->
      is_Some (<[new := t']> (reparent old (Some new) (delete old (rd_threads d))) !! n)) as Hkept.
    { intros n Hn [u Hu]. rewrite lookup_insert_is_Some. destruct (decide (new = n)) as [|Hnn]; [by left|]. right.
      split; [done|]. rewrite reparent_lookup, lookup_delete_ne, Hu by done. by eexists. }
    apply map_Forall_insert_2.
    + split; [by rewrite lookup_insert_eq; eexists|]. rewrite lookup_insert_None. split; [|done].
      by rewrite reparent_lookup, lookup_delete_eq.
    + intros a b (b0 & Hb & Hab)%lookup_fmap_Some. apply lookup_delete_Some in Hab as [Hna Hab].
      destruct (H5 a b0 Hab) as [Hb0 Ha]. split.
      * case_bool_decide as Hb1; subst b; [by rewrite lookup_insert_eq; eexists|]. by apply Hkept.
      * rewrite lookup_insert_None. split; [|done]. rewrite reparent_lookup.
        destruct (decide (a = old)) as [->|]; [by rewrite lookup_delete_eq | by rewrite lookup_delete_ne, Ha].
  - intros n1 n2 t1 t2 E1 E2. rewrite lookup_insert_Some in E1, E2. intros E.
    destruct E1 as [[<- <-]|[? (u1 & Hu1 & ? & ?)%Hold]], E2 as [[<- <-]|[? (u2 & Hu2 & ? & ?)%Hold]]; [done|..].
    + destruct (H6 old n2 t u2); congruence.
    + destruct (H6 old n1 t u1); congruence.
    + apply (H6 n1 n2 u1 u2); congruence.
  - rewrite dom_insert_L, reparent_dom, dom_delete_L. by eapply renamed_counter_dom.
  - rewrite dom_insert_L, reparent_dom, dom_delete_L. by eapply renamed_counter_dom.
  - by eapply renamed_counter_wf.
  - by eapply renamed_counter_wf.
Qed.

Lemma remove_wf name :
  rd_threads d' = delete name (reparent name None (rd_threads d)) ->
  rd_statuses d' = delete name (rd_statuses d) ->
  rd_last_seen d' = delete name (rd_last_seen d) ->
  rd_aliases d' = filter (fun at_ => at_.2 <> name) (rd_aliases d) ->
  counter_step name (rd_owners d) (rd_owners d') ->
  rd_claims d' = gc_advance (rd_claims d) name ->
  document_wf d'.
Proof.
  intros Et Es El Ea Ho Hc. destruct Hwf as [H1 H2 H3 H4 H5 H6 H7 H8 H9 H10].
  assert (forall n u, delete name (reparent name None (rd_threads d)) !! n = Some u ->
            exists u0, rd_threads d !! n = Some u0 /\ u = reparented name None u0) as Hold.
  { intros n u (_ & (u0 & Hu & ->)%reparent_some)%lookup_delete_Some. eauto. }
  split; rewrite ?Et, ?Es, ?El, ?Ea, ?Hc.
  - intros n u (u0 & Hu & ->)%Hold. apply reparented_row; [by apply H1|]. intros _. by apply detach_post_init, (H1 n u0).
  - by rewrite !dom_delete_L, reparent_dom, H2.
  - by apply map_Forall_delete.
  - by rewrite !dom_delete_L, reparent_dom, H4.
  - intros a b [Hab Hb]%map_lookup_filter_Some. simpl in Hb. destruct (H5 a b Hab) as [[u Hu] Ha].
    rewrite lookup_delete_ne, reparent_lookup, Hu by done. split; [by eexists|].
    rewrite lookup_delete_None, reparent_lookup, Ha. by right.
  - intros n1 n2 t1 t2 (u1 & Hu1 & ->)%Hold (u2 & Hu2 & ->)%Hold. rewrite !reparented_birth. eauto.
  - rewrite dom_delete_L, reparent_dom. pose proof (counter_step_dom _ _ _ Ho). set_solver.
  - rewrite dom_delete_L, reparent_dom. simpl. rewrite dom_insert_L. set_solver.
  - by eapply counter_step_wf.
  - by apply counter_advance_wf.
Qed.

Lemma doc_step_wf {removes : bool} : doc_step removes d d' -> document_wf d'.
Proof.
  destruct 1 as [| | | |extra Hextra -> | ->].
  - by eapply touch_wf.
  - by eapply add_wf.
  - by eapply rename_wf.
  - by eapply remove_wf.
  - destruct Hwf as [H1 H2 H3 H4 H5 H6 H7 H8 H9 H10]. split; try done. simpl.
    intros a b [Hab|[_ Hab]]%lookup_union_Some_raw; [destruct (Hextra a b Hab); naive_solver | by apply H5].
  - by destruct Hwf.
Qed.
End steps.

Lemma doc_steps_wf {removes : bool} d d' : rtc (doc_step removes) d d' -> document_wf d -> document_wf d'.
Proof. induction 1; eauto using doc_step_wf. Qed.

(** A step of an operation that removes nothing is a step of any *)
Lemma doc_step_weaken {removes : bool} d d' : doc_step removes d d' -> doc_step true d d'.
Proof.
  destruct 1; [eapply step_touch | eapply step_add | eapply step_rename | eapply step_remove | eapply step_adopt |
    eapply step_mark]; done.
Qed.
