(* ===== verification/RegistryRuns.v ===== *)
(** * Runs of the registry operations

    What each operation of [RegistryDocument.v] and [Registration.v] does to the document when
    it returns, read back from its definition, and that this is a sequence of the steps of
    [RegistrySteps.v]. *)

From stdpp Require Import base gmap strings list relations.
From Stdlib Require Import ZArith Lia.
From S2P Require Import Prelude Contracts ThreadStatus Threads RegistryDocument Registration RegistrySteps.

(** ** Inversion of runs *)

(** The operation returns from some edit of this document with that one *)
Definition runs {A : Type} (m : Reg A) (d : RegistryDocument) (a : A) (d' : RegistryDocument) : Prop :=
  exists e e', ed_document e = d /\ m e = (Ok a, e') /\ ed_document e' = d'.

Section inversion.
Context {A B : Type}.

Lemma runs_bind (m : Reg A) (f : A -> Reg B) d b d' :
  runs (m ≫= f) d b d' -> exists a d1, runs m d a d1 /\ runs (f a) d1 b d'.
Proof.
  intros (e & e' & Hd & H & Hd'). unfold mbind, Reg_bind in H.
  destruct (m e) as [[a|] e1] eqn:E; [|done]. exists a, (ed_document e1). split; [exists e, e1 | exists e1, e']; done.
Qed.

Lemma runs_ret (a b : A) d d' : runs (mret a) d b d' -> b = a /\ d' = d.
Proof. intros (e & e' & <- & H & <-). by injection H as -> ->. Qed.

Lemma runs_lift (o : outcome A) d a d' : runs (reg_lift o) d a d' -> o = Ok a /\ d' = d.
Proof. intros (e & e' & <- & H & <-). by injection H as -> ->. Qed.

Lemma runs_read (f : RegistryDocument -> A) d a d' : runs (reg_read f) d a d' -> a = f d /\ d' = d.
Proof. intros (e & e' & <- & H & <-). by injection H as -> ->. Qed.

Lemma runs_try (f : RegistryDocument -> outcome A) d a d' : runs (reg_try f) d a d' -> f d = Ok a /\ d' = d.
Proof. intros (e & e' & <- & H & <-). injection H as H ->. done. Qed.
End inversion.

Lemma runs_modify f d u d' : runs (reg_modify f) d u d' -> d' = f d.
Proof. intros (e & e' & <- & H & <-). by injection H as _ <-. Qed.

Lemma runs_put_thread t d u d' : runs (put_thread t) d u d' -> d' = set_threads d (<[th_name t := bound t]> (rd_threads d)).
Proof. apply runs_modify. Qed.

Lemma runs_set_status n s d u d' :
  runs (set_status n s) d u d' -> d' = set_statuses d (<[n := declaration s]> (rd_statuses d)).
Proof. apply runs_modify. Qed.

Lemma runs_set_seen n x d u d' : runs (set_seen n x) d u d' -> d' = set_last_seen d (<[n := x]> (rd_last_seen d)).
Proof. apply runs_modify. Qed.

Lemma runs_advance_owner n d u d' : runs (advance_owner n) d u d' -> d' = set_owners d (gc_advance (rd_owners d) n).
Proof. apply runs_modify. Qed.

Lemma runs_record r d u d' : runs (record_without_claim r) d u d' -> d' = d.
Proof.
  intros (e & e' & <- & H & <-). unfold record_without_claim in H. repeat case_match; by simplify_eq.
Qed.

Lemma runs_read_turn r d a d' : runs (read_turn r) d a d' -> d' = d.
Proof.
  intros (e & e' & <- & H & <-). unfold read_turn in H. repeat case_match; by simplify_eq.
Qed.

Lemma runs_restartable ob t d u d' : runs (require_restartable ob t) d u d' -> d' = d.
Proof.
  intros (e & e' & <- & H & <-). unfold require_restartable in H.
  destruct (read_turn (th_turn t) e) as [[turn|] e1] eqn:E; [|done]. injection H as _ <-.
  by apply (runs_read_turn (th_turn t) _ turn); exists e, e1.
Qed.

(** Step through a run whose result is known *)
Ltac run_step :=
  match goal with
  | H : runs (_ ≫= _) _ _ _ |- _ => apply runs_bind in H as (? & ? & ? & H)
  | H : runs (mret _) _ _ _ |- _ => apply runs_ret in H as [? ?]
  | H : runs (reg_lift _) _ _ _ |- _ => apply runs_lift in H as [? ?]
  | H : runs (reg_read _) _ _ _ |- _ => apply runs_read in H as [? ?]
  | H : runs (reg_try _) _ _ _ |- _ => apply runs_try in H as [? ?]
  | H : runs (put_thread _) _ _ _ |- _ => apply runs_put_thread in H
  | H : runs (set_status _ _) _ _ _ |- _ => apply runs_set_status in H
  | H : runs (set_seen _ _) _ _ _ |- _ => apply runs_set_seen in H
  | H : runs (advance_owner _) _ _ _ |- _ => apply runs_advance_owner in H
  | H : runs (reg_modify _) _ _ _ |- _ => apply runs_modify in H
  | H : runs (record_without_claim _) _ _ _ |- _ => apply runs_record in H
  | H : runs (read_turn _) _ _ _ |- _ => apply runs_read_turn in H
  | H : runs (require_restartable _ _) _ _ _ |- _ => apply runs_restartable in H
  | H : checked _ = Ok _ |- _ => apply checked_ok in H as [? ?]
  end.
Ltac run_inv := repeat (run_step; subst); ok_inv.

Lemma runs_advance_claim n d u d' : runs (advance_claim n) d u d' -> d' = set_claims d (gc_advance (rd_claims d) n).
Proof.
  unfold advance_claim. intros H. run_inv. destruct (rd_threads _ !! n); run_inv; done.
Qed.

Lemma runs_withdraw_owner s n d u d' :
  runs (withdraw_owner s n) d u d' ->
  d' = if active_presence s then set_owners d (gc_advance (rd_owners d) n) else d.
Proof. unfold withdraw_owner. destruct (active_presence s); intros H; by run_inv. Qed.

Lemma runs_install t d u d' : runs (install_thread t) d u d' -> d' = set_threads d (<[th_name t := bound t]> (rd_threads d)).
Proof.
  unfold install_thread. intros H. run_inv. destruct (rd_threads _ !! th_name t) as [p|]; run_inv; [|done].
  destruct (bool_decide _) in *; run_inv; done.
Qed.

Ltac run_all :=
  repeat (run_step || match goal with
  | H : runs (advance_claim _) _ _ _ |- _ => apply runs_advance_claim in H
  | H : runs (withdraw_owner _ _) _ _ _ |- _ => apply runs_withdraw_owner in H
  | H : runs (install_thread _) _ _ _ |- _ => apply runs_install in H
  end; subst); ok_inv.

(** ** Touching one thread *)

(** The document after one row, and with it a status, a presence and the generations of its
    name, were written *)
Definition touched (d : RegistryDocument) (name : string) (t : Thread) (s : option ThreadStatus) (seen : option Z)
    (owned claimed : bool) : RegistryDocument :=
  mkRegistryDocument (rd_purpose d) (<[name := t]> (rd_threads d))
    (match s with Some s => <[name := declaration s]> (rd_statuses d) | None => rd_statuses d end)
    (match seen with Some x => <[name := x]> (rd_last_seen d) | None => rd_last_seen d end)
    (rd_aliases d)
    (if owned then gc_advance (rd_owners d) name else rd_owners d)
    (if claimed then gc_advance (rd_claims d) name else rd_claims d).

Lemma touched_step {removes : bool} d name t t' s seen owned claimed :
  document_wf d -> rd_threads d !! name = Some t -> row_wf name t' -> th_birth t' = th_birth t ->
  doc_step removes d (touched d name t' s seen owned claimed).
Proof.
  intros Hwf Ht Hrow Hbirth.
  destruct (dom_same_lookup _ _ name (dw_statuses d Hwf)) as [s0 Hs0]; [eauto|].
  destruct (dom_same_lookup _ _ name (dw_seen d Hwf)) as [l0 Hl0]; [eauto|].
  apply (step_touch _ _ name t t' (default s0 (declaration <$> s)) (default l0 seen)); simpl; try done.
  - destruct s; simpl; [apply declaration_idempotent | by apply (dw_declared d Hwf name)].
  - destruct s; simpl; [done | by rewrite insert_id].
  - destruct seen; simpl; [done | by rewrite insert_id].
  - destruct owned; [by right | by left].
  - destruct claimed; [by right | by left].
Qed.

Lemma document_eta d :
  d = mkRegistryDocument (rd_purpose d) (rd_threads d) (rd_statuses d) (rd_last_seen d) (rd_aliases d) (rd_owners d) (rd_claims d).
Proof. by destruct d. Qed.

Lemma touched_same d name t : rd_threads d !! name = Some t -> touched d name t None None false false = d.
Proof. intros H. unfold touched. rewrite (insert_id (rd_threads d)) by done. symmetry. apply document_eta. Qed.

(** The canonical row of a resolved name *)
Lemma require_thread_ok d name t :
  document_wf d -> require_thread d name = Ok t ->
  th_name t = canonical_name d name /\ rd_threads d !! th_name t = Some t.
Proof.
  unfold require_thread. intros Hwf H%of_option_ok. pose proof (row_name _ _ (dw_rows d Hwf _ _ H)) as E.
  split; [done | by rewrite E].
Qed.

Lemma canonical_row d name t : document_wf d -> rd_threads d !! name = Some t -> canonical_name d name = name.
Proof.
  unfold canonical_name. intros Hwf H. destruct (rd_aliases d !! name) eqn:E; [|done].
  destruct (dw_aliases d Hwf _ _ E). congruence.
Qed.

Lemma row_bound_of d name t : document_wf d -> rd_threads d !! name = Some t -> bound t = t.
Proof. intros Hwf H. apply (dw_rows d Hwf _ _ H). Qed.

(** ** Operations that touch one thread *)

Section touching.
Context (ob : Observation) (d : RegistryDocument) (Hwf : document_wf d).

Lemma withdraw_runs name requested t1 d' :
  runs (withdraw ob name requested) d t1 d' ->
  exists t s, require_thread d name = Ok t /\ status ob d (th_name t) = Ok s /\
    t1 = bound (without_turn t) /\ row_wf (th_name t) t1 /\
    d' = touched d (th_name t) t1 (Some (registered_status ob t requested)) None (active_presence s) true.
Proof.
  unfold withdraw. intros H. run_all.
  destruct (require_thread_ok d name x Hwf) as [_ Hx]; [done|].
  assert (x7 = x) as -> by (destruct (active_presence x1); simpl in *; congruence).
  exists x, x1. assert (t1 = bound (without_turn x)) as ->.
  { destruct (active_presence x1); simpl in *; rewrite lookup_insert_eq in H; congruence. }
  split; [done|]. split; [done|]. split; [done|]. split.
  - split; [by rewrite bound_name | by rewrite bound_post_init | apply bound_bound].
  - by destruct (active_presence x1).
Qed.

Lemma unregister_runs name u d' :
  runs (unregister ob name) d u d' ->
  exists t s, require_thread d name = Ok t /\ status ob d (th_name t) = Ok s /\
    row_wf (th_name t) (bound (withdrawn (bound (without_turn t)))) /\
    d' = touched d (th_name t) (bound (withdrawn (bound (without_turn t))))
           (Some (registered_status ob t StoppedThreadStatus)) None (active_presence s) true.
Proof.
  unfold unregister. intros H. run_all. apply withdraw_runs in H0 as (t & s & Ht & Hs & -> & Hrow & ->).
  assert (th_name (withdrawn (bound (without_turn t))) = th_name t) as Hn.
  { transitivity (th_name (bound (without_turn t))); [unfold withdrawn; by destruct (th_execution _) | by rewrite bound_name]. }
  exists t, s. split; [done|]. split; [done|]. split.
  - split; [by rewrite bound_name | by rewrite bound_post_init | apply bound_bound].
  - rewrite Hn. unfold touched, set_threads. simpl. by rewrite insert_insert_eq.
Qed.

Lemma fence_owner_runs name u d' :
  runs (fence_owner ob name) d u d' ->
  exists t s, require_thread d name = Ok t /\ status ob d (th_name t) = Ok s /\
    row_wf (th_name t) (bound (without_turn t)) /\
    d' = touched d (th_name t) (bound (without_turn t))
           (Some (registered_status ob t StoppingThreadStatus)) None (active_presence s) true.
Proof.
  unfold fence_owner. intros H. run_all. apply withdraw_runs in H0 as (t & s & Ht & Hs & -> & Hrow & ->). eauto 10.
Qed.

Lemma archive_runs name u d' :
  runs (archive ob name) d u d' ->
  exists t s, require_thread d name = Ok t /\ status ob d (th_name t) = Ok s /\
    d' = touched d (th_name t) t (Some ArchivedThreadStatus) None (active_presence s) true.
Proof.
  unfold archive. intros H. run_all. destruct (require_thread_ok d name x Hwf) as [_ Hx]; [done|].
  exists x, x1. split; [done|]. split; [done|]. unfold touched. rewrite (insert_id (rd_threads d)) by done.
  by destruct (active_presence x1).
Qed.

Lemma begin_delete_runs name u d' :
  runs (begin_delete ob name) d u d' ->
  exists t s, require_thread d name = Ok t /\ status ob d (th_name t) = Ok s /\ active_presence s = false /\
    d' = touched d (th_name t) t (Some DeletingThreadStatus) None false true.
Proof.
  unfold begin_delete, for_deletion. intros H. run_all. destruct (require_thread_ok d name x Hwf) as [_ Hx]; [done|].
  exists x, x1. split; [done|]. split; [done|]. split; [done|]. unfold touched. by rewrite (insert_id (rd_threads d)).
Qed.

Lemma heartbeat_runs name u d' :
  runs (heartbeat ob name) d u d' ->
  exists t s resumed, require_thread d name = Ok t /\ status ob d (th_name t) = Ok s /\
    after_heartbeat s (th_name t) = Ok resumed /\
    d' = touched d (th_name t) t (Some resumed) (Some (ob_now ob))
           (status_changes_owner s resumed) (status_changes_owner s resumed).
Proof.
  unfold heartbeat. intros H. run_all. destruct (require_thread_ok d name x Hwf) as [_ Hx]; [done|].
  exists x, x1, x3. split; [done|]. split; [done|]. split; [done|]. unfold touched. rewrite (insert_id (rd_threads d)) by done.
  destruct (status_changes_owner x1 x3); run_all; done.
Qed.

Lemma observe_tools_runs name birth offered u d' :
  runs (observe_offered_tools name birth offered) d u d' ->
  exists t t', require_thread d name = Ok t /\ row_wf (th_name t) t' /\ th_birth t' = th_birth t /\
    d' = touched d (th_name t) t' None None false false.
Proof.
  unfold observe_offered_tools. intros H. run_all. destruct (require_thread_ok d name x Hwf) as [_ Hx]; [done|].
  assert (th_name (observing_tools x offered) = th_name x /\ th_birth (observing_tools x offered) = th_birth x) as [Hn Hb].
  { unfold observing_tools. by destruct (_ || _). }
  exists x, (bound (observing_tools x offered)). split; [done|]. split.
  - split; [by rewrite bound_name | by rewrite bound_post_init | apply bound_bound].
  - split; [by rewrite bound_birth|]. by rewrite Hn.
Qed.

Lemma work_state_runs name state u d' :
  runs (set_work_state name state) d u d' ->
  exists t t', require_thread d name = Ok t /\ row_wf (th_name t) t' /\ th_birth t' = th_birth t /\
    d' = touched d (th_name t) t' None None false false.
Proof.
  unfold set_work_state. intros H. run_all. exists x, (bound (with_work_state x state)). split; [done|]. split.
  - split; [by rewrite bound_name | by rewrite bound_post_init | apply bound_bound].
  - split; [by rewrite bound_birth | done].
Qed.

Lemma fence_restart_runs expected claimed g d' :
  runs (fence_restart_owner ob expected claimed) d g d' ->
  exists t, rd_threads d !! th_name expected = Some t /\ th_birth t = th_birth expected /\
    gc_generations (rd_claims d) !! th_name expected = Some claimed /\ g = gc_counter (rd_claims d) + 1 /\
    row_wf (th_name expected) (bound (without_turn t)) /\
    d' = touched d (th_name expected) (bound (without_turn t))
           (Some (registered_status ob expected StoppingThreadStatus)) None true true.
Proof.
  unfold fence_restart_owner. intros H. run_all. unfold require_active in H0.
  destruct (require_thread d (th_name expected)) as [t|] eqn:Et; [|done]. ok_inv.
  destruct (require_thread_ok d _ _ Hwf Et) as [Hc Ht].
  unfold same_declaration in *. bools. simpl in *.
  match goal with E : th_name _ = th_name expected |- _ => rewrite <- E in * end.
  rewrite lookup_insert_eq in *. simplify_eq. exists x. split; [done|]. split; [done|].
  split; [by subst|]. split; [done|]. split; [|done].
  split; [by rewrite bound_name | by rewrite bound_post_init | apply bound_bound].
Qed.
End touching.

(** ** Fresh births *)

Lemma births_recorded d b : document_wf d -> b ∈ births d -> 0 < b < infinity.
Proof.
  intros Hwf (n & t & Ht & <-)%elem_of_births. pose proof (row_ok _ _ (dw_rows d Hwf _ _ Ht)) as H.
  unfold thread_post_init in H. ok_inv. unfold recorded_birth in *. bools. lia.
Qed.

(** The search passes over used births only *)
Lemma next_birth_fresh (used : gset Z) (fuel : nat) (candidate : Z) :
  (forall b, b ∈ used -> b < infinity) ->
  (size (filter (fun b => (candidate <= b)%Z) used) < fuel)%nat ->
  (next_birth fuel candidate used ∉ used) /\
  (forall b, candidate <= b < next_birth fuel candidate used -> b ∈ used) /\
  candidate <= next_birth fuel candidate used.
Proof.
  intros Hfin. revert candidate. induction fuel as [|fuel IH]; intros candidate Hfuel; [lia|]. simpl.
  case_bool_decide as Hin; [|split; [done | split; [lia | lia]]].
  pose proof (Hfin _ Hin) as Hlt. unfold nextafter. destruct (Z.ltb_spec candidate infinity) as [_|]; [|lia].
  destruct (IH (candidate + 1)) as (H1 & H2 & H3).
  - apply Nat.lt_le_trans with (size (filter (fun b => candidate <= b) used)); [|lia].
    apply subset_size. split.
    + intros b [Hb Hused]%elem_of_filter. apply elem_of_filter. split; [lia|done].
    + intros H. assert (candidate ∈ filter (fun b => candidate + 1 <= b) used) as [? _]%elem_of_filter.
      { apply H, elem_of_filter. split; [lia|done]. }
      lia.
  - split; [done|]. split; [|lia]. intros b Hb. destruct (decide (b = candidate)) as [->|]; [done|]. apply H2. lia.
Qed.

Lemma distinct_from_fresh c used c' :
  (forall b, b ∈ used -> b < infinity) -> distinct_from c used = Ok c' -> birth_bits c' ∉ used.
Proof.
  intros Hfin. unfold distinct_from. destruct c as [b|b]; intros H; ok_inv; bools; [done|]. simpl.
  apply (next_birth_fresh used (S (size used)) b Hfin). apply Nat.lt_succ_r, subseteq_size.
  intros y Hy. by apply elem_of_filter in Hy as [_ ?].
Qed.

(** ** Registrations *)

(** A prepared change updates the declared row of its birth or adds a fresh one *)
Definition change_wf (d : RegistryDocument) (c : RegistrationChange) : Prop :=
  thread_post_init (rc_thread c) = Ok tt /\
  match rc_previous c with
  | Some (previous, _) =>
      rd_threads d !! th_name (rc_thread c) = Some previous /\ th_birth (rc_thread c) = th_birth previous
  | None =>
      rd_threads d !! th_name (rc_thread c) = None /\ rd_aliases d !! th_name (rc_thread c) = None /\
      th_birth (rc_thread c) ∉ births d
  end.

Lemma preserve_history_ok t previous kept :
  preserve_registration_history t previous = Ok kept ->
  thread_post_init kept = Ok tt /\ th_name kept = th_name t /\ th_birth kept = th_birth previous /\
  th_process kept = th_process t /\ th_execution kept = th_execution t /\ th_role kept = th_role t.
Proof.
  unfold preserve_registration_history. intros H. ok_inv. apply checked_ok in H as [H ->].
  split; [done|]. by destruct (_ =? _).
Qed.

Lemma prepare_registration_ok ob d t s new_owner c :
  document_wf d -> prepare_registration ob d t s new_owner = Ok c ->
  change_wf d c /\ th_name (rc_thread c) = th_name t /\ rc_status c = registered_status ob t s /\
  th_process (rc_thread c) = th_process t /\ th_execution (rc_thread c) = th_execution t /\
  th_role (rc_thread c) = th_role t.
Proof.
  intros Hwf H. unfold prepare_registration in H. ok_inv. bools.
  destruct (rd_threads d !! th_name t) as [previous|] eqn:Et; ok_inv; simpl.
  - apply preserve_history_ok in H2 as (H2 & Hn & Hb & ?). split; [|done].
    unfold change_wf. simpl. by rewrite Hn.
  - apply checked_ok in H3 as [H3 ->]. split; [|done]. unfold change_wf. simpl. split; [done|].
    split; [done|]. split; [by apply eq_None_not_Some|].
    eapply distinct_from_fresh; [|done]. intros b Hb. by apply (births_recorded d b Hwf).
Qed.

Lemma declared_ok d c requested c' :
  change_wf d c -> declared c requested = Ok c' ->
  change_wf d c' /\ th_name (rc_thread c') = th_name (rc_thread c) /\ rc_previous c' = rc_previous c.
Proof.
  unfold declared. intros Hc H. destruct (rc_previous c) as [[previous ps]|] eqn:Ep; [|by ok_inv; rewrite Ep].
  destruct (executing previous); ok_inv.
  - apply checked_ok in H2 as [H2 ->]. destruct Hc as [_ Hc]. rewrite Ep in Hc.
    split; [|done]. split; [exact H2|]. cbn [rc_previous change_with_thread]. rewrite Ep. exact Hc.
  - assert (forall c0, c0 = c \/ c0 = change_restarted c ->
      change_wf d c0 /\ th_name (rc_thread c0) = th_name (rc_thread c) /\ rc_previous c0 = Some (previous, ps)) as Hsame.
    { intros c0 [->| ->]; [done|]. unfold change_wf in *. simpl. by rewrite Ep in *. }
    destruct (th_process requested), (th_process previous); ok_inv; apply Hsame; auto.
    destruct (_ =? _); auto.
Qed.

Lemma prepare_declaration_ok choose_rest ob d t s c :
  document_wf d -> prepare_declaration choose_rest ob d t s = Ok c -> change_wf d c.
Proof.
  unfold prepare_declaration. intros Hwf H. ok_inv. apply prepare_registration_ok in H1 as (Hc & _); [|done].
  by eapply declared_ok.
Qed.

(** The row a change installs *)
Definition installed (c : RegistrationChange) : Thread :=
  bound (if changes_owner c then restarted_tools (rc_thread c) else rc_thread c).

Lemma installed_facts c :
  th_name (installed c) = th_name (rc_thread c) /\ th_birth (installed c) = th_birth (rc_thread c) /\
  th_process (installed c) = th_process (rc_thread c).
Proof.
  unfold installed, bound, restarted_tools.
  destruct (changes_owner c); [simpl|]; destruct (th_turn (rc_thread c)); done.
Qed.

Lemma apply_change_runs ob d c u d' :
  runs (apply_change ob c) d u d' -> thread_post_init (rc_thread c) = Ok tt ->
  row_wf (th_name (rc_thread c)) (installed c) /\
  d' = touched d (th_name (rc_thread c)) (installed c) (Some (rc_status c)) (Some (ob_now ob))
         (changes_owner c) (changes_owner c).
Proof.
  unfold apply_change, installed. intros H Hok. destruct (changes_owner c); run_all; simpl.
  - split; [|done]. split; [by rewrite bound_name | by rewrite bound_post_init | apply bound_bound].
  - split; [|done]. split; [by rewrite bound_name | by rewrite bound_post_init | apply bound_bound].
Qed.

Lemma apply_change_step {removes : bool} ob d c u d' :
  document_wf d -> change_wf d c -> runs (apply_change ob c) d u d' -> doc_step removes d d'.
Proof.
  intros Hwf [Hok Hc] Hrun. destruct (apply_change_runs _ _ _ _ _ Hrun Hok) as [Hrow ->].
  destruct (installed_facts c) as (Hn & Hb & _).
  destruct (rc_previous c) as [[previous ps]|] eqn:Ep.
  - destruct Hc as [Hprev Hbirth]. apply (touched_step d _ previous); [done..|congruence].
  - destruct Hc as (Hnew & Halias & Hfresh). assert (changes_owner c = true) as ->.
    { unfold changes_owner. by rewrite Ep. }
    eapply step_add; [done | done | done | by rewrite Hb | apply declaration_idempotent | done..].
Qed.

Lemma register_thread_runs ob d t s new_owner a d' :
  document_wf d -> runs (register_thread ob t s new_owner) d a d' ->
  exists c, prepare_registration ob d t s new_owner = Ok c /\ a = rc_thread c /\ runs (apply_change ob c) d tt d'.
Proof. unfold register_thread. intros Hwf H. run_all. destruct x1. eauto. Qed.

Lemma register_thread_step {removes : bool} ob d t s new_owner a d' :
  document_wf d -> runs (register_thread ob t s new_owner) d a d' -> doc_step removes d d'.
Proof.
  intros Hwf H. apply register_thread_runs in H as (c & Hc & _ & Hrun); [|done].
  apply prepare_registration_ok in Hc as (Hc & _); [|done]. by eapply apply_change_step.
Qed.

(** ** Sequences of steps *)

(** From a well-formed document the operation returns after steps only *)
Definition stepping {A : Type} (removes : bool) (m : Reg A) : Prop :=
  forall d a d', document_wf d -> runs m d a d' -> rtc (doc_step removes) d d'.

Section stepping.
Context {A B : Type}.

Lemma stepping_bind {removes : bool} (m : Reg A) (f : A -> Reg B) : stepping removes m -> (forall a, stepping removes (f a)) -> stepping removes (m ≫= f).
Proof.
  intros Hm Hf d b d' Hwf (a & d1 & H1 & H2)%runs_bind. apply Hm in H1; [|done].
  etrans; [done|]. eapply Hf; [|done]. by eapply doc_steps_wf.
Qed.

Lemma stepping_lift {removes : bool} (o : outcome A) : stepping removes (reg_lift o).
Proof. intros d a d' _ [_ ->]%runs_lift. done. Qed.

Lemma stepping_read {removes : bool} (f : RegistryDocument -> A) : stepping removes (reg_read f).
Proof. intros d a d' _ [_ ->]%runs_read. done. Qed.

Lemma stepping_try {removes : bool} (f : RegistryDocument -> outcome A) : stepping removes (reg_try f).
Proof. intros d a d' _ [_ ->]%runs_try. done. Qed.

Lemma stepping_ret {removes : bool} (a : A) : stepping removes (mret a).
Proof. intros d b d' _ [_ ->]%runs_ret. done. Qed.

Lemma stepping_once {removes : bool} (m : Reg A) :
  (forall d a d', document_wf d -> runs m d a d' -> doc_step removes d d') -> stepping removes m.
Proof. intros H d a d' Hwf Hr. apply rtc_once. eauto. Qed.

Lemma stepping_each {removes : bool} (f : A -> Reg unit) xs : (forall x, stepping removes (f x)) -> stepping removes (reg_each f xs).
Proof.
  intros Hf. induction xs as [|x rest IH]; simpl; [intros d a d' _ [_ ->]%runs_ret; done|].
  intros d b d' Hwf (a & d1 & H1 & H2)%runs_bind. apply Hf in H1; [|done].
  etrans; [done|]. eapply IH; [|done]. by eapply doc_steps_wf.
Qed.
End stepping.

Create HintDb registry discriminated.
#[export] Hint Resolve stepping_lift stepping_read stepping_try stepping_ret stepping_each : registry.
Ltac stepping :=
  repeat first [ progress intros | solve [auto with registry] | apply stepping_bind | apply stepping_each
               | case_match ].

(** A touched row, as a single step *)
Ltac touched_once :=
  match goal with
  | Hwf : document_wf ?d, Ht : require_thread ?d _ = Ok ?t |- doc_step _ ?d (touched ?d (th_name ?t) _ _ _ _ _) =>
      destruct (require_thread_ok _ _ _ Hwf Ht) as [_ ?];
      eapply touched_step; [exact Hwf | eassumption | |]
  end.

Lemma own_row d name t : document_wf d -> rd_threads d !! name = Some t -> row_wf name t.
Proof. intros Hwf H. by apply (dw_rows d Hwf). Qed.

Section operations.
Context (ob : Observation).

Lemma unregister_stepping {removes : bool} name : stepping removes (unregister ob name).
Proof.
  apply stepping_once. intros d u d' Hwf (t & s & Ht & _ & Hrow & ->)%unregister_runs; [|done].
  touched_once; [done|]. rewrite bound_birth. transitivity (th_birth (bound (without_turn t))).
  - unfold withdrawn. by destruct (th_execution _).
  - exact (bound_birth (without_turn t)).
Qed.

Lemma fence_owner_stepping {removes : bool} name : stepping removes (fence_owner ob name).
Proof.
  apply stepping_once. intros d u d' Hwf (t & s & Ht & _ & Hrow & ->)%fence_owner_runs; [|done].
  touched_once; [done|]. exact (bound_birth (without_turn t)).
Qed.

Lemma archive_stepping {removes : bool} name : stepping removes (archive ob name).
Proof.
  apply stepping_once. intros d u d' Hwf (t & s & Ht & _ & ->)%archive_runs; [|done].
  touched_once; [|done]. by apply (own_row d).
Qed.

Lemma begin_delete_stepping {removes : bool} name : stepping removes (begin_delete ob name).
Proof.
  apply stepping_once. intros d u d' Hwf (t & s & Ht & _ & _ & ->)%begin_delete_runs; [|done].
  touched_once; [|done]. by apply (own_row d).
Qed.

Lemma heartbeat_stepping {removes : bool} name : stepping removes (heartbeat ob name).
Proof.
  apply stepping_once. intros d u d' Hwf (t & s & r & Ht & _ & _ & ->)%heartbeat_runs; [|done].
  touched_once; [|done]. by apply (own_row d).
Qed.

Lemma observe_tools_stepping {removes : bool} name birth offered : stepping removes (observe_offered_tools name birth offered).
Proof.
  apply stepping_once. intros d u d' Hwf (t & t' & Ht & Hrow & Hb & ->)%observe_tools_runs; [|done].
  by touched_once.
Qed.

Lemma work_state_stepping {removes : bool} name state : stepping removes (set_work_state name state).
Proof.
  apply stepping_once. intros d u d' Hwf (t & t' & Ht & Hrow & Hb & ->)%work_state_runs. by touched_once.
Qed.

Lemma fence_restart_stepping {removes : bool} expected claimed : stepping removes (fence_restart_owner ob expected claimed).
Proof.
  apply stepping_once. intros d g d' Hwf (t & Ht & _ & _ & _ & Hrow & ->)%fence_restart_runs; [|done].
  eapply touched_step; [done | done | done | exact (bound_birth (without_turn t))].
Qed.

Lemma register_stepping {removes : bool} t s new_owner : stepping removes (register_thread ob t s new_owner).
Proof. apply stepping_once. intros. by eapply register_thread_step. Qed.
End operations.

#[export] Hint Resolve unregister_stepping fence_owner_stepping archive_stepping begin_delete_stepping
  heartbeat_stepping observe_tools_stepping work_state_stepping fence_restart_stepping register_stepping : registry.

(** ** Registrations through declarations, reservations and bindings *)

Section registrations.
Context (ob : Observation).

Lemma declare_stepping {removes : bool} choose_rest available t s : stepping removes (declare_in choose_rest available ob t s).
Proof.
  apply stepping_once. unfold declare_in. intros d a d' Hwf H. run_all.
  eapply apply_change_step; [done | by eapply prepare_declaration_ok | done].
Qed.

Lemma update_stepping {removes : bool} name change : stepping removes (update_thread ob name change).
Proof. unfold update_thread. stepping. Qed.

Lemma change_tag_stepping {removes : bool} originals tag replacement : stepping removes (change_tag ob originals tag replacement).
Proof. unfold change_tag, require_originals. stepping. Qed.

Lemma release_binding_stepping {removes : bool} t : stepping removes (release_binding ob t).
Proof. unfold release_binding. stepping. Qed.

Lemma bind_external_stepping {removes : bool} name process : stepping removes (bind_external ob name process).
Proof. unfold bind_external. stepping. Qed.

Lemma reserve_stepping {removes : bool} launch_rest original process : stepping removes (reserve_owner launch_rest ob original process).
Proof. unfold reserve_owner. stepping. Qed.

Lemma archive_originals_stepping {removes : bool} originals : stepping removes (archive_originals ob originals).
Proof. unfold archive_originals, require_originals. stepping. Qed.

Lemma delete_originals_stepping {removes : bool} originals : stepping removes (begin_delete_originals ob originals).
Proof. unfold begin_delete_originals, require_originals. stepping. Qed.

Lemma fence_restart_all_stepping {removes : bool} selected : stepping removes (fence_restart_owners ob selected).
Proof. unfold fence_restart_owners. stepping. Qed.
End registrations.

#[export] Hint Resolve declare_stepping update_stepping change_tag_stepping release_binding_stepping
  bind_external_stepping reserve_stepping archive_originals_stepping delete_originals_stepping
  fence_restart_all_stepping : registry.

Lemma leave_external_stepping {removes : bool} ob owner process : stepping removes (leave_external ob owner process).
Proof. unfold leave_external. stepping. Qed.

Lemma release_external_stepping {removes : bool} ob name : stepping removes (release_external ob name).
Proof. unfold release_external. stepping. Qed.

Lemma claim_stepping {removes : bool} choose_rest available ob t : stepping removes (claim_thread choose_rest available ob t).
Proof. unfold claim_thread. stepping. Qed.

(** ** Turns *)

Lemma release_turn_runs ob lease d r d' :
  document_wf d -> runs (release_turn ob lease) d r d' ->
  (d' = d /\ r = (false, false)) \/
  exists t due, rd_threads d !! canonical_name d (tl_name lease) = Some t /\
    th_turn t = StoredTurn (tl_record lease).1 (tl_record lease).2 /\
    (th_birth t, th_turn_generation t) = (tl_birth lease, tl_generation lease) /\ r.1 = true /\
    row_wf (th_name t) (with_resume (with_turn t (FinishedTurn (tl_turn lease)) (th_turn_generation t)) due) /\
    d' = touched d (th_name t) (with_resume (with_turn t (FinishedTurn (tl_turn lease)) (th_turn_generation t)) due)
           None (Some (ob_now ob)) false false.
Proof.
  intros Hwf. unfold release_turn. intros H. run_all.
  destruct (rd_threads _ !! canonical_name _ (tl_name lease)) as [t|] eqn:Et; [|by run_all; left].
  pose proof (row_name _ _ (dw_rows _ Hwf _ _ Et)) as Hn.
  destruct (negb (bool_decide (th_turn t = _))) eqn:E1; [by run_all; left|].
  destruct (negb (bool_decide ((th_birth t, _) = _))) eqn:E2; [by run_all; left|]. bools.
  run_all. destruct (negb (may_release _ lease)) eqn:E3; [by run_all; left|]. run_all.
  right. eexists t, _. split; [congruence|]. split; [congruence|]. split; [congruence|]. split; [done|].
  assert (forall A (m : Reg A) (b : bool) (x : Reg A) dd aa dd', runs (if b then m else x) dd aa dd' ->
            runs m dd aa dd' \/ runs x dd aa dd') as Hif by (intros ? ? [] ? ? ? ? ?; auto).
  match goal with Hc : runs (if _ then _ else _) _ _ _ |- _ => apply Hif in Hc as [Hc|Hc] end; run_all;
    (split; [split; [done | done | done]|]; rewrite <- Hn; done).
Qed.

Lemma release_turn_stepping {removes : bool} ob lease : stepping removes (release_turn ob lease).
Proof.
  intros d r d' Hwf [[-> _]|(t & due & Ht & _ & _ & _ & Hrow & ->)]%release_turn_runs; [done| |done].
  apply rtc_once. pose proof (row_name _ _ (dw_rows _ Hwf _ _ Ht)) as Hn. rewrite <- Hn in Ht.
  by eapply touched_step.
Qed.

Lemma runs_begin_turn record turn d u d' : runs (begin_turn record turn) d u d' -> d' = d.
Proof. intros (e & e' & <- & H & <-). by injection H as _ <-. Qed.

Lemma runs_supersede record d u d' : runs (supersede record) d u d' -> d' = d.
Proof. intros (e & e' & <- & H & <-). by injection H as _ <-. Qed.

Lemma capture_local_runs ob name d r d' :
  document_wf d -> runs (capture_local ob name) d r d' ->
  d' = d /\ require_thread d name = Ok r.1 /\ claim_generation d (th_name r.1) = Ok r.2 /\
  th_process r.1 = ob_self ob /\ th_execution r.1 = NativeThread.
Proof.
  intros Hwf H. unfold capture_local, require_active, require_native in H. run_all.
  destruct (require_thread d name) as [t|] eqn:Et; [|done]. ok_inv. bools. done.
Qed.

Lemma lease_turn_runs ob t turn keeps d r d' :
  rd_threads d !! th_name t = Some t -> runs (lease_turn ob t turn keeps) d r d' ->
  let leased := with_resume (with_turn t (StoredTurn (th_birth t) (th_turn_generation t + 1))
                               (th_turn_generation t + 1)) false in
  r.1 = leased /\ row_wf (th_name t) (bound leased) /\
  d' = touched d (th_name t) (bound leased) None (Some (ob_now ob)) false false.
Proof.
  intros Ht H leased. unfold lease_turn in H. run_all.
  match goal with Hb : runs (begin_turn _ _) _ _ _ |- _ => apply runs_begin_turn in Hb end. subst.
  destruct (th_turn_generation t =? 0); run_all;
    try match goal with Hb : runs (supersede _) _ _ _ |- _ => apply runs_supersede in Hb end; subst;
    (split; [done|]; split; [|done]; split; [by rewrite bound_name | by rewrite bound_post_init | apply bound_bound]).
Qed.

(** The row of a leased turn *)
Definition leased_row (t : Thread) : Thread :=
  with_resume (with_turn t (StoredTurn (th_birth t) (th_turn_generation t + 1)) (th_turn_generation t + 1)) false.

Lemma lease_local_runs ob name turn keeps d r d' :
  document_wf d -> runs (lease_local_turn ob name turn keeps) d r d' ->
  exists t, require_thread d name = Ok t /\ r.1 = leased_row t /\ row_wf (th_name t) (bound (leased_row t)) /\
    d' = touched d (th_name t) (bound (leased_row t)) None (Some (ob_now ob)) false false.
Proof.
  intros Hwf H. unfold lease_local_turn in H. run_all.
  match goal with Hc : runs (capture_local _ _) _ _ _ |- _ => apply capture_local_runs in Hc as (-> & Ht & _); [|done] end.
  run_all. destruct (require_thread_ok _ _ _ Hwf Ht) as [_ Hrow].
  match goal with Hl : runs (lease_turn _ _ _ _) _ _ _ |- _ => apply lease_turn_runs in Hl as (? & ? & ->); [|done] end.
  eauto 10.
Qed.

Lemma lease_local_stepping {removes : bool} ob name turn keeps : stepping removes (lease_local_turn ob name turn keeps).
Proof.
  apply stepping_once. intros d r d' Hwf (t & Ht & _ & Hleased & ->)%lease_local_runs; [|done].
  destruct (require_thread_ok _ _ _ Hwf Ht) as [_ Hrow].
  eapply touched_step; [done | done | done | by rewrite bound_birth].
Qed.

(** ** Binding an endpoint *)

(** An explicit registration of a declared thread takes over *)
Lemma register_explicit_runs ob t s d a d' previous :
  document_wf d -> rd_threads d !! th_name t = Some previous -> runs (register_thread ob t s true) d a d' ->
  exists t', row_wf (th_name t) t' /\ th_birth t' = th_birth previous /\ th_process t' = th_process t /\
    d' = touched d (th_name t) t' (Some (registered_status ob t s)) (Some (ob_now ob)) true true.
Proof.
  intros Hwf Hprev H. apply register_thread_runs in H as (c & Hc & _ & Hrun); [|done].
  assert (changes_owner c = true) as Hch.
  { unfold prepare_registration in Hc. rewrite Hprev in Hc. ok_inv. done. }
  apply prepare_registration_ok in Hc as ((Hok & Hw) & Hn & Hs & Hp & _); [|done].
  apply apply_change_runs in Hrun as [Hrow ->]; [|done]. destruct (installed_facts c) as (_ & Hb & Hproc).
  rewrite Hch, Hn, Hs in *. exists (installed c). split; [done|]. split; [|split; [congruence | done]].
  rewrite Hb. destruct (rc_previous c) as [[p ps]|]; destruct Hw as [Hw1 Hw2]; congruence.
Qed.

Lemma bind_external_runs ob name process d o d' :
  document_wf d -> runs (bind_external ob name process) d o d' ->
  exists t t' s, require_thread d name = Ok t /\ row_wf (th_name t) t' /\ th_birth t' = th_birth t /\
    th_process t' = process /\
    d' = touched d (th_name t) t' (Some s) (Some (ob_now ob)) true true /\
    o = mkOwnerIdentity (th_name t) (th_birth t) (gc_counter (rd_owners d) + 1).
Proof.
  intros Hwf H. unfold bind_external in H. run_all.
  match goal with Hf : require_thread d name = Ok ?x |- _ => rename x into t; rename Hf into Hfound end.
  match goal with He : require_external t = Ok ?x |- _ =>
    assert (x = t) as -> by (unfold require_external in He; destruct (th_execution t); congruence) end.
  destruct (require_thread_ok d name t Hwf Hfound) as [_ Ht].
  match goal with Hr : runs (register_thread _ _ _ _) _ _ _ |- _ =>
    apply (register_explicit_runs _ _ _ _ _ _ t) in Hr as (t' & Hrow & Hb & Hp & ->); [|done | done] end.
  simpl in *. eexists t, t', _. split; [done|]. split; [done|]. split; [done|]. split; [done|]. split; [done|].
  assert (canonical_name (touched d (th_name t) t' (Some (registered_status ob
    (with_process (serving_its_own_session t) process) ConnectedThreadStatus)) (Some (ob_now ob)) true true) (th_name t)
    = th_name t) as Hc by (by apply (canonical_row d (th_name t) t)).
  unfold require_thread, owner_generation in *. rewrite Hc in *. simpl in *. rewrite lookup_insert_eq in *.
  ok_inv. pose proof (row_name _ _ Hrow) as Hn. rewrite Hn in *. rewrite Hc in *. rewrite lookup_insert_eq in *.
  simplify_eq. congruence.
Qed.

(** ** Renaming and removing *)

Lemma runs_reparent old parent d u d' :
  runs (reparent_children old parent) d u d' ->
  d' = set_threads d (reparent (canonical_name d old) parent (rd_threads d)) /\
  map_Forall (fun _ t => th_parent t = Some (canonical_name d old) -> thread_post_init (with_parent t parent) = Ok tt)
    (rd_threads d).
Proof.
  unfold reparent_children. intros H. run_all. split; [done|]. intros n t Ht Hp.
  rewrite Forall_forall in H1. apply H1. unfold children. apply list_elem_of_In, filter_In. split.
  - apply in_map_iff. exists (n, t). split; [done|]. by apply list_elem_of_In, elem_of_map_to_list.
  - by apply bool_decide_eq_true.
Qed.

Lemma gc_rename_ok c old new c' : gc_rename c old new = Ok c' -> renamed_counter old new c c'.
Proof. unfold gc_rename. intros H. ok_inv. by exists x. Qed.

Lemma row_no_alias d name t : document_wf d -> rd_threads d !! name = Some t -> rd_aliases d !! name = None.
Proof. intros Hwf H. destruct (rd_aliases d !! name) eqn:E; [|done]. destruct (dw_aliases d Hwf _ _ E). congruence. Qed.

(** A name that is free for its owner is unused or one of its aliases *)
Lemma not_taken d new old :
  document_wf d -> taken d new (Some old) = false -> new <> old ->
  rd_threads d !! new = None /\ forall target, rd_aliases d !! new = Some target -> target = old.
Proof.
  intros Hwf Htaken Hne. unfold taken in Htaken. apply andb_false_iff in Htaken as [H|H]; bools.
  - split; [by apply eq_None_not_Some|]. intros target Ht. rewrite Ht in *. naive_solver.
  - simplify_eq. split.
    + destruct (rd_threads d !! new) as [u|] eqn:E; [|done]. by rewrite (canonical_row d new u Hwf E) in Hne.
    + unfold canonical_name. intros target ->. done.
Qed.

Lemma rename_stepping {removes : bool} ob name new : stepping removes (rename ob name new).
Proof.
  intros d r d' Hwf H. unfold rename in H. run_all. case_bool_decide as Hnew; [by run_all|]. run_all.
  match goal with Hr : runs (reparent_children _ _) _ _ _ |- _ => apply runs_reparent in Hr as [-> Hchild] end.
  set (old := canonical_name d name) in *. simpl in *.
  match goal with Ht : rd_threads d !! old = Some ?u |- _ => rename u into t; rename Ht into Hold end.
  destruct (not_taken d new old Hwf) as [Hfree Halias]; [done..|].
  match type of Hchild with context [canonical_name ?D old] => assert (canonical_name D old = old) as Hc end.
  { unfold canonical_name. simpl. by rewrite lookup_delete_ne, (row_no_alias d old t). }
  rewrite Hc in *. apply rtc_once.
  repeat match goal with Hg : gc_rename _ _ _ = Ok _ |- _ => apply gc_rename_ok in Hg end.
  match goal with Hs : rd_statuses d !! old = Some ?u |- _ => rename u into s; rename Hs into Hstored end.
  eapply (step_rename _ _ old new t (reparented old (Some new) (bound (with_name t new))) s);
    [done | done | done | done | | | | done | done | done | | | done | done | done | done].
  - apply reparented_row; [split; [by rewrite bound_name | by rewrite bound_post_init | apply bound_bound]|].
    apply (Hchild new). by rewrite lookup_insert_eq.
  - by rewrite reparented_birth, bound_birth.
  - intros n u Hu Hp. apply (Hchild n); [|done]. rewrite lookup_insert_ne; [done|]. intros <-.
    apply lookup_delete_Some in Hu as [_ Hu]. congruence.
  - simpl. unfold reparent. by rewrite fmap_insert.
  - simpl. by rewrite (dw_declared d Hwf old s).
Qed.

Lemma remove_runs ob name d u d' :
  document_wf d -> runs (remove_thread ob name) d u d' ->
  exists t owned, require_thread d name = Ok t /\
    d' = mkRegistryDocument (rd_purpose d) (delete (th_name t) (reparent (th_name t) None (rd_threads d)))
           (delete (th_name t) (rd_statuses d)) (delete (th_name t) (rd_last_seen d))
           (filter (fun at_ => at_.2 <> th_name t) (rd_aliases d))
           (if owned : bool then gc_advance (rd_owners d) (th_name t) else rd_owners d)
           (gc_advance (rd_claims d) (th_name t)).
Proof.
  intros Hwf H. unfold remove_thread in H. run_all.
  match goal with Hr : runs (reparent_children _ _) _ _ _ |- _ => apply runs_reparent in Hr as [-> _] end.
  destruct (require_thread_ok d name x Hwf) as [_ Hx]; [done|].
  run_all. rewrite (canonical_row d (th_name x) x Hwf Hx) in *.
  match goal with Hs : status _ _ _ = Ok ?s |- _ => exists x, (active_presence s); destruct (active_presence s) end; done.
Qed.

Lemma remove_stepping ob name : stepping true (remove_thread ob name).
Proof.
  apply stepping_once. intros d u d' Hwf (t & owned & Ht & ->)%remove_runs; [|done].
  destruct (require_thread_ok d name t Hwf Ht) as [_ Hrow].
  apply (step_remove _ _ (th_name t) t); try done. simpl. destruct owned; [by right | by left].
Qed.
#[export] Hint Resolve rename_stepping remove_stepping release_turn_stepping lease_local_stepping
  leave_external_stepping release_external_stepping claim_stepping : registry.

Lemma remove_mutable_stepping ob name : stepping true (remove ob name).
Proof. unfold remove. stepping. Qed.

Lemma remove_originals_stepping ob originals : stepping true (remove_originals ob originals).
Proof. unfold remove_originals, require_originals. stepping. Qed.

(** ** Restoring *)

(** What the selection guarantees of the declarations it adds *)
Record restorable_ok (d : RegistryDocument) (identities : gset Z) (names : list string) (ts : list Thread) : Prop := {
  ro_names : forall t, t ∈ ts -> th_name t ∈ names;
  ro_free : Forall (fun t => rd_threads d !! th_name t = None /\ rd_aliases d !! th_name t = None /\
                             th_birth t ∉ identities /\ thread_post_init t = Ok tt) ts;
  ro_distinct : NoDup (map th_name ts);
  ro_births : NoDup (map th_birth ts);
}.

Lemma distinct_names_spec names seen : NoDup (distinct_names names seen) /\ forall n, n ∈ distinct_names names seen -> n ∉ seen.
Proof.
  revert seen. induction names as [|n rest IH]; intros seen; simpl; [split; [constructor | by intros ? ?%elem_of_nil]|].
  case_bool_decide as Hn; [apply IH|]. destruct (IH (n :: seen)) as [H1 H2]. split.
  - constructor; [|done]. intros H. apply H2 in H. set_solver.
  - intros m [->|Hm]%elem_of_cons; [done|]. apply H2 in Hm. set_solver.
Qed.

Lemma restorable_spec d source identities names ts :
  NoDup names -> restorable d source identities names = Ok ts -> restorable_ok d identities names ts.
Proof.
  revert identities ts. induction names as [|name rest IH]; intros identities ts Hdup H; simpl in H.
  - ok_inv. split; simpl; [by intros ? ?%elem_of_nil | constructor | constructor | constructor].
  - apply NoDup_cons in Hdup as [Hname Hdup]. ok_inv. unfold source_thread in H0. ok_inv. bools.
    apply checked_ok in H0 as [Hok ->].
    match type of H with match ?o with _ => _ end = _ => destruct o as [existing|] eqn:Ee end.
    + ok_inv. destruct (IH _ _ Hdup H) as [R1 R2 R3 R4]. split; try done.
      intros t Ht. apply elem_of_cons. auto.
    + ok_inv. bools. apply checked_ok in H3 as [Hok' ->]. destruct (IH _ _ Hdup H4) as [R1 R2 R3 R4]. split.
      * intros t [->|Ht]%elem_of_cons; apply elem_of_cons; [by left | right; auto].
      * constructor; [split_and!; [done | by apply eq_None_not_Some | done | done]|].
        eapply Forall_impl; [exact R2|]. simpl. intros t (? & ? & Hb & ?). split_and!; [done | done | set_solver | done].
      * simpl. constructor; [|done]. intros (t & Ht & Hin)%list_elem_of_fmap. apply R1 in Hin. simpl in *. congruence.
      * simpl. constructor; [|done]. intros (t & Ht & Hin)%list_elem_of_fmap. rewrite Forall_forall in R2.
        destruct (R2 t Hin) as (_ & _ & Hb & _). apply Hb. rewrite <- Ht. set_solver.
Qed.

(** One restored declaration is an added row *)
Lemma restore_one_runs ob source t d u d' :
  runs (_ ← put_thread t;
        s ← reg_lift (status ob source (th_name t));
        _ ← set_status (th_name t) (restored s);
        seen ← reg_lift (of_option (rd_last_seen source !! canonical_name source (th_name t)) (KeyError (th_name t)));
        _ ← set_seen (th_name t) seen;
        _ ← advance_claim (th_name t);
        advance_owner (th_name t)) d u d' ->
  exists s seen, d' = touched d (th_name t) (bound t) (Some (restored s)) (Some seen) true true.
Proof. intros H. run_all. by eexists _, _. Qed.

Lemma added_step {removes : bool} d t s seen :
  document_wf d -> rd_threads d !! th_name t = None -> rd_aliases d !! th_name t = None ->
  thread_post_init t = Ok tt -> th_birth t ∉ births d ->
  doc_step removes d (touched d (th_name t) (bound t) (Some s) (Some seen) true true).
Proof.
  intros Hwf Hn Ha Hok Hb.
  apply (step_add _ _ (th_name t) (bound t) (declaration s) seen); try done.
  - split; [by rewrite bound_name | by rewrite bound_post_init | apply bound_bound].
  - by rewrite bound_birth.
  - apply declaration_idempotent.
Qed.

Lemma restore_each_runs {removes : bool} ob source ts d u d' :
  document_wf d ->
  Forall (fun t => rd_threads d !! th_name t = None /\ rd_aliases d !! th_name t = None /\
                   th_birth t ∉ births d /\ thread_post_init t = Ok tt) ts ->
  NoDup (map th_name ts) -> NoDup (map th_birth ts) ->
  runs (reg_each (fun t =>
        _ ← put_thread t;
        s ← reg_lift (status ob source (th_name t));
        _ ← set_status (th_name t) (restored s);
        seen ← reg_lift (of_option (rd_last_seen source !! canonical_name source (th_name t)) (KeyError (th_name t)));
        _ ← set_seen (th_name t) seen;
        _ ← advance_claim (th_name t);
        advance_owner (th_name t)) ts) d u d' ->
  rtc (doc_step removes) d d' /\ rd_aliases d' = rd_aliases d /\
  forall n, is_Some (rd_threads d' !! n) <-> is_Some (rd_threads d !! n) \/ n ∈ map th_name ts.
Proof.
  revert d. induction ts as [|t rest IH]; intros d Hwf Hall Hn Hb H; simpl in H.
  { run_all. split; [done|]. split; [done|]. intros n. simpl. rewrite elem_of_nil. tauto. }
  apply runs_bind in H as (v & d1 & Hone & Hrest). apply restore_one_runs in Hone as (s & seen & ->).
  apply Forall_cons in Hall as [(H1 & H2 & H3 & H4) Hall]. simpl in Hn, Hb.
  apply NoDup_cons in Hn as [Hn1 Hn2]. apply NoDup_cons in Hb as [Hb1 Hb2].
  pose proof (added_step (removes := removes) d t (restored s) seen Hwf H1 H2 H4 H3) as Hstep.
  apply IH in Hrest as (Hsteps & Ha & Hdom); [| by eapply doc_step_wf | | done | done].
  - split; [by eapply rtc_l|]. split; [done|]. intros n. rewrite Hdom. simpl.
    rewrite lookup_insert_is_Some, elem_of_cons. destruct (decide (th_name t = n)) as [->|]; naive_solver.
  - apply Forall_forall. intros r Hr. rewrite Forall_forall in Hall. destruct (Hall r Hr) as (R1 & R2 & R3 & R4). simpl.
    split_and!; [rewrite lookup_insert_ne; [done|] | done | | done].
    + intros E. apply Hn1. rewrite E. by apply list_elem_of_fmap_2.
    + intros (n & u0 & Hu & Hbu)%elem_of_births. simpl in Hu. apply lookup_insert_Some in Hu as [[<- <-]|[_ Hu]].
      * rewrite bound_birth in Hbu. apply Hb1. rewrite Hbu. by apply list_elem_of_fmap_2.
      * apply R3, elem_of_births. eauto.
Qed.

Lemma available_lookup (ts : list Thread) (m : gmap string Thread) n :
  is_Some ((list_to_map (map (fun t => (th_name t, t)) ts) ∪ m) !! n) <-> is_Some (m !! n) \/ n ∈ map th_name ts.
Proof.
  assert (map th_name ts = (map (fun t => (th_name t, t)) ts).*1) as ->.
  { rewrite <- list_fmap_compose. done. }
  rewrite lookup_union_is_Some, <- elem_of_dom, dom_list_to_map, elem_of_list_to_set. tauto.
Qed.

Lemma restore_stepping {removes : bool} ob source names : stepping removes (restore_stopped ob source names).
Proof.
  intros d a d' Hwf H. unfold restore_stopped in H. run_all.
  match goal with Hr : restorable _ _ _ _ = Ok ?ts |- _ =>
    rename ts into additions; apply restorable_spec in Hr as [_ Hfree Hn Hb]; [|apply distinct_names_spec] end.
  match goal with Hr : runs (reg_each _ _) _ _ ?d1 |- _ =>
    rename d1 into dm; apply (restore_each_runs (removes := removes)) in Hr as (Hsteps & Ha & Hdom); [|done..] end.
  eapply rtc_r; [exact Hsteps|]. eapply step_adopt; [|done].
  intros alias target [_ Hcond]%map_lookup_filter_Some. simpl in Hcond. rewrite Ha. bools.
  match goal with Hb : (match rd_threads source !! _ with _ => _ end) = true |- _ => rename Hb into Hcond end.
  destruct (rd_threads source !! target) as [st|]; [|done].
  match type of Hcond with context [?m !! target] => destruct (m !! target) as [at_|] eqn:Et; [|done] end.
  split_and!.
  - apply Hdom. apply (available_lookup additions). eauto.
  - apply eq_None_not_Some. rewrite Hdom. rewrite <- (available_lookup additions). done.
  - by apply eq_None_not_Some.
Qed.
#[export] Hint Resolve restore_stepping remove_mutable_stepping remove_originals_stepping : registry.
