(* ===== verification/RegistryHistory.v ===== *)
(** * History of the registry

    What a sequence of steps of the registry document keeps: which thread holds which
    generation, and which thread a name leads to. *)

From stdpp Require Import base gmap strings list relations.
From Stdlib Require Import ZArith Lia.
From S2P Require Import Prelude Contracts ThreadStatus Threads RegistryDocument RegistrySteps RegistryRuns.

(** ** Holding a generation *)

(** One of the two counters of the document *)
Inductive Counter : Type := OwnerCounter | ClaimCounter.

Definition counter_of (k : Counter) (d : RegistryDocument) : GenerationCounter :=
  match k with OwnerCounter => rd_owners d | ClaimCounter => rd_claims d end.

(** The declared thread of this birth has this generation *)
Definition holds (k : Counter) (d : RegistryDocument) (birth generation : Z) : Prop :=
  exists name t, rd_threads d !! name = Some t /\ th_birth t = birth /\
    gc_generations (counter_of k d) !! name = Some generation.

(** The births with their generations, in the order of the table *)
Definition held_generations (k : Counter) (d : RegistryDocument) : list (Z * Z) :=
  omap (fun nt => pair (th_birth nt.2) <$> gc_generations (counter_of k d) !! nt.1) (map_to_list (rd_threads d)).

Lemma holds_listed k d birth generation :
  holds k d birth generation <-> (birth, generation) ∈ held_generations k d.
Proof.
  unfold held_generations. rewrite list_elem_of_omap. split.
  - intros (name & t & Ht & <- & Hg). exists (name, t). simpl. rewrite Hg. split; [by apply elem_of_map_to_list | done].
  - intros ([name t] & Ht%elem_of_map_to_list & (g & Hg & [= -> ->])%fmap_Some). by exists name, t.
Qed.

#[export] Instance holds_decision k d birth generation : Decision (holds k d birth generation).
Proof.
  refine (cast_if (decide ((birth, generation) ∈ held_generations k d))); by rewrite holds_listed.
Defined.

(** No two names were given the same generation *)
Definition distinct_generations (c : GenerationCounter) : Prop :=
  forall n1 n2 g, gc_generations c !! n1 = Some g -> gc_generations c !! n2 = Some g -> n1 = n2.

Section counters.
Context (c : GenerationCounter) (Hwf : counter_wf c).

Lemma advance_lookup name n g :
  gc_generations (gc_advance c name) !! n = Some g ->
  (n = name /\ g = gc_counter c + 1) \/ (n <> name /\ gc_generations c !! n = Some g /\ g <= gc_counter c).
Proof.
  simpl. intros [[<- <-]|[Hne Hg]]%lookup_insert_Some; [by left|]. right. split; [done|].
  pose proof (cw_bounds _ Hwf n g Hg) as H. simpl in H. split; [done | lia].
Qed.

Lemma counter_step_lookup name c' n g :
  counter_step name c c' -> gc_generations c' !! n = Some g ->
  gc_generations c !! n = Some g \/ gc_counter c < g.
Proof. intros [->| ->] H; [by left|]. apply advance_lookup in H as [[-> ->]|(_ & H & _)]; [right; lia | by left]. Qed.

Lemma advance_distinct name : distinct_generations c -> distinct_generations (gc_advance c name).
Proof.
  intros H n1 n2 g [[-> ->]|(_ & H1 & L1)]%advance_lookup [[-> E]|(_ & H2 & L2)]%advance_lookup; try lia; [done|].
  by apply (H n1 n2 g).
Qed.

Lemma step_distinct name c' : counter_step name c c' -> distinct_generations c -> distinct_generations c'.
Proof. intros [->| ->]; auto using advance_distinct. Qed.

Lemma renamed_distinct old new c' :
  renamed_counter old new c c' -> distinct_generations c -> distinct_generations c'.
Proof.
  intros (v & Hv & _ & E) H n1 n2 g. rewrite !E, !lookup_insert_Some, !lookup_delete_Some.
  intros [[<- <-]|(Hn1 & Ho1 & H1)] [[<- E2]|(Hn2 & Ho2 & H2)]; [done | | |by apply (H n1 n2 g)].
  - by destruct Ho2; apply (H old n2 v).
  - subst. by destruct Ho1; apply (H old n1 g).
Qed.

Lemma step_counter name c' : counter_step name c c' -> gc_counter c <= gc_counter c'.
Proof. intros [->| ->]; simpl; lia. Qed.
End counters.

(** How one counter moves in a step of the document *)
Inductive counter_moves (d d' : RegistryDocument) (c c' : GenerationCounter) : Prop :=
| moves_at name :
    counter_step name c c' ->
    (forall n u', rd_threads d' !! n = Some u' ->
       (exists u, rd_threads d !! n = Some u /\ th_birth u = th_birth u') \/ (n = name /\ c' = gc_advance c name)) ->
    counter_moves d d' c c'
| moves_over old new :
    renamed_counter old new c c' ->
    (forall n u', rd_threads d' !! n = Some u' ->
       exists u, rd_threads d !! (if decide (n = new) then old else n) = Some u /\ th_birth u = th_birth u') ->
    counter_moves d d' c c'.

Lemma doc_step_moves {removes : bool} k d d' :
  document_wf d -> doc_step removes d d' -> counter_moves d d' (counter_of k d) (counter_of k d').
Proof.
  intros Hwf [name t t' s seen Ht Hrow Hb Hs _ Et _ _ _ Ho Hc
    |name t s seen Hn Ha Hrow Hb Hs _ Et _ _ _ Ho Hc
    |old new t t' s seen Ht Hn Hne Hown Hrow Hb Hch Hs Hseen _ Et _ _ _ Ho Hc
    |name t _ Ht _ Et _ _ _ Ho Hc|extra _ ->| ->].
  - apply (moves_at _ _ _ _ name); [by destruct k|]. rewrite Et.
    intros n u [[<- <-]|[_ H]]%lookup_insert_Some; left; eauto.
  - apply (moves_at _ _ _ _ name); [destruct k; by right|]. rewrite Et.
    intros n u [[<- <-]|[_ H]]%lookup_insert_Some; [right; by destruct k | left; eauto].
  - apply (moves_over _ _ _ _ old new); [by destruct k|]. rewrite Et.
    intros n u [[<- <-]|[Hnn H]]%lookup_insert_Some; [rewrite decide_True by done; eauto|].
    rewrite decide_False by done. apply reparent_some in H as (u0 & [_ H]%lookup_delete_Some & ->).
    exists u0. by rewrite reparented_birth.
  - apply (moves_at _ _ _ _ name); [destruct k; [done | by right]|]. rewrite Et.
    intros n u [_ (u0 & H & ->)%reparent_some]%lookup_delete_Some. left. exists u0. by rewrite reparented_birth.
  - apply (moves_at _ _ _ _ ""); [destruct k; by left|]. simpl. eauto.
  - apply (moves_at _ _ _ _ ""); [destruct k; by left|]. simpl. eauto.
Qed.

Section moves.
Context (k : Counter) (d d' : RegistryDocument) (Hwf : document_wf d).

Lemma counter_of_wf : counter_wf (counter_of k d).
Proof. destruct k; apply Hwf. Qed.

Lemma doc_step_counter {removes : bool} : doc_step removes d d' -> gc_counter (counter_of k d) <= gc_counter (counter_of k d').
Proof.
  intros [name H _|old new (v & _ & -> & _) _]%(doc_step_moves k); [|done..]. by eapply step_counter.
Qed.

(** A generation held after a step was held by the same thread before, or is newly allocated *)
Lemma doc_step_holds {removes : bool} birth g :
  doc_step removes d d' -> holds k d' birth g -> holds k d birth g \/ gc_counter (counter_of k d) < g.
Proof.
  intros [name H Hrows|old new (v & Hv & _ & E) Hrows]%(doc_step_moves k) (n & u & Hu & Hb & Hg); [..|done].
  - destruct (counter_step_lookup _ counter_of_wf name _ n g H Hg) as [Hold|Hnew]; [|by right].
    destruct (Hrows n u Hu) as [(u0 & Hu0 & Eb)|[-> Ec]]; [left; exists n, u0; split_and!; congruence|].
    right. rewrite Ec in Hg. apply advance_lookup in Hg as [[_ ->]|[? _]]; [lia | done | apply counter_of_wf].
  - left. destruct (Hrows n u Hu) as (u0 & Hu0 & Eb). rewrite E in Hg.
    apply lookup_insert_Some in Hg as [[<- <-]|[Hne [_ Hg]%lookup_delete_Some]].
    + rewrite decide_True in Hu0 by done. exists old, u0. split_and!; congruence.
    + rewrite decide_False in Hu0 by done. exists n, u0. split_and!; congruence.
Qed.

Lemma doc_step_distinct {removes : bool} :
  doc_step removes d d' -> distinct_generations (counter_of k d) -> distinct_generations (counter_of k d').
Proof.
  intros [name H _|old new H _]%(doc_step_moves k); [..|done].
  - by eapply step_distinct; [apply counter_of_wf|].
  - by eapply renamed_distinct.
Qed.

Lemma holds_bound birth g : holds k d birth g -> g <= gc_counter (counter_of k d).
Proof. intros (n & t & _ & _ & H). by destruct (cw_bounds _ counter_of_wf n g H). Qed.
End moves.

(** Along a run: what is held now was held then, or was allocated since *)
Lemma doc_steps_holds {removes : bool} k d d' birth g :
  document_wf d -> rtc (doc_step removes) d d' -> holds k d' birth g -> holds k d birth g \/ gc_counter (counter_of k d) < g.
Proof.
  intros Hwf H. revert Hwf. induction H as [d|d d1 d2 Hstep _ IH]; [by left|]. intros Hwf Hh.
  apply IH in Hh; [|by eapply doc_step_wf]. destruct Hh as [Hh|Hh].
  - by eapply (doc_step_holds k d d1).
  - right. pose proof (doc_step_counter k d d1 Hwf Hstep). lia.
Qed.

Lemma doc_steps_distinct {removes : bool} k d d' :
  document_wf d -> rtc (doc_step removes) d d' -> distinct_generations (counter_of k d) -> distinct_generations (counter_of k d').
Proof.
  intros Hwf H. revert Hwf. induction H as [d|d d1 d2 Hstep _ IH]; [done|]. intros Hwf Hd.
  apply IH; [by eapply doc_step_wf | by eapply doc_step_distinct].
Qed.

Lemma doc_steps_counter {removes : bool} k d d' :
  document_wf d -> rtc (doc_step removes) d d' -> gc_counter (counter_of k d) <= gc_counter (counter_of k d').
Proof.
  intros Hwf H. revert Hwf. induction H as [d|d d1 d2 Hstep _ IH]; [done|]. intros Hwf.
  pose proof (doc_step_counter k d d1 Hwf Hstep). specialize (IH (doc_step_wf _ _ Hwf Hstep)). lia.
Qed.

(** What is passed stays passed *)
Lemma passed_forever {removes : bool} k d d' birth g :
  document_wf d -> rtc (doc_step removes) d d' -> g <= gc_counter (counter_of k d) ->
  ~ holds k d birth g -> ~ holds k d' birth g.
Proof. intros Hwf Hs Hg Hn Hh. destruct (doc_steps_holds k d d' birth g Hwf Hs Hh); [done | lia]. Qed.

(** Touching a thread with a new generation passes every generation it held *)
Lemma touched_passes k d name t t' s seen owned claimed g :
  document_wf d -> rd_threads d !! name = Some t -> th_birth t' = th_birth t ->
  (match k with OwnerCounter => owned | ClaimCounter => claimed end) = true ->
  g <= gc_counter (counter_of k d) -> ~ holds k (touched d name t' s seen owned claimed) (th_birth t) g.
Proof.
  intros Hwf Ht Eb Hk Hg (n & u & Hu & Hb & Hn). simpl in Hu.
  assert (counter_of k (touched d name t' s seen owned claimed) = gc_advance (counter_of k d) name) as E
    by (destruct k; simpl in *; by rewrite Hk).
  rewrite E in Hn. apply advance_lookup in Hn as [[-> ->]|(Hne & _ & _)]; [lia | | by apply counter_of_wf].
  rewrite lookup_insert_ne in Hu by done. by apply Hne, (dw_births d Hwf n name u t).
Qed.

(** ** Names *)

(** The thread a name or an alias leads to *)
Definition leads_to (d : RegistryDocument) (name : string) (birth : Z) : Prop :=
  exists t, rd_threads d !! canonical_name d name = Some t /\ th_birth t = birth.

Definition declared_birth (d : RegistryDocument) (birth : Z) : Prop := birth ∈ births d.
#[export] Instance declared_birth_decision d birth : Decision (declared_birth d birth) := decide (birth ∈ births d).

(** Where the aliases lead after a rename, a removal and an adoption *)
Definition renamed_aliases (old new : string) (aliases : gmap string string) : gmap string string :=
  <[old := new]> ((fun target => if bool_decide (target = old) then new else target) <$> delete new aliases).

Lemma renamed_default old new aliases name :
  (aliases !! new = None -> name <> new) ->
  (forall target, aliases !! new = Some target -> target = old) -> aliases !! old = None ->
  default name (renamed_aliases old new aliases !! name) =
  if decide (default name (aliases !! name) = old) then new else default name (aliases !! name).
Proof.
  intros Hnew Hown Hold. unfold renamed_aliases.
  destruct (decide (name = old)) as [->|Hno]; [by rewrite lookup_insert_eq, Hold, decide_True|].
  rewrite lookup_insert_ne, lookup_fmap by done.
  destruct (decide (name = new)) as [->|Hnn].
  - rewrite lookup_delete_eq. destruct (aliases !! new) as [x|]; simpl; [|by destruct Hnew].
    by rewrite (Hown x eq_refl), decide_True.
  - rewrite lookup_delete_ne by done. destruct (aliases !! name) as [x|]; simpl; [|by rewrite decide_False].
    case_bool_decide; [by rewrite decide_True | by rewrite decide_False].
Qed.

Lemma kept_default (removed : string) (aliases : gmap string string) name :
  default name (aliases !! name) <> removed ->
  default name (filter (fun at_ => at_.2 <> removed) aliases !! name) = default name (aliases !! name).
Proof.
  intros H. destruct (aliases !! name) as [x|] eqn:Ex; simpl in *.
  - assert (filter (fun at_ : string * string => at_.2 <> removed) aliases !! name = Some x) as ->; [|done].
    by apply map_lookup_filter_Some.
  - assert (filter (fun at_ : string * string => at_.2 <> removed) aliases !! name = None) as ->; [|done].
    apply map_lookup_filter_None. by left.
Qed.

Lemma rename_leads d d' old new u u' name birth :
  document_wf d -> rd_threads d !! old = Some u -> rd_threads d !! new = None ->
  (forall target, rd_aliases d !! new = Some target -> target = old) -> th_birth u' = th_birth u ->
  rd_threads d' = <[new := u']> (reparent old (Some new) (delete old (rd_threads d))) ->
  rd_aliases d' = renamed_aliases old new (rd_aliases d) ->
  leads_to d name birth -> leads_to d' name birth.
Proof.
  intros Hwf Hu Hn Hown Eb Et Ea (t & Ht & Hb). unfold leads_to, canonical_name in *.
  rewrite Ea, Et, renamed_default; [|intros Ha ->; rewrite Ha in Ht; simpl in Ht; congruence | done | by eapply row_no_alias].
  case_decide as E.
  - rewrite E in Ht. exists u'. rewrite lookup_insert_eq. split; congruence.
  - exists (reparented old (Some new) t). rewrite lookup_insert_ne by (intros E'; rewrite <- E' in Ht; congruence).
    rewrite reparent_lookup, lookup_delete_ne, Ht by done. split; [done|]. by rewrite reparented_birth.
Qed.

Lemma remove_leads d d' n u name birth :
  document_wf d -> rd_threads d !! n = Some u ->
  rd_threads d' = delete n (reparent n None (rd_threads d)) ->
  rd_aliases d' = filter (fun at_ => at_.2 <> n) (rd_aliases d) ->
  leads_to d name birth -> leads_to d' name birth \/ ~ declared_birth d' birth.
Proof.
  intros Hwf Hu Et Ea (t & Ht & Hb). unfold leads_to, canonical_name in *.
  destruct (decide (default name (rd_aliases d !! name) = n)) as [E|E].
  - right. intros (m & v & Hv & Hbv)%elem_of_births. rewrite Et in Hv.
    apply lookup_delete_Some in Hv as [Hm (v0 & Hv0 & ->)%reparent_some]. rewrite reparented_birth in Hbv.
    apply Hm, (dw_births d Hwf n m u v0); congruence.
  - left. rewrite Et, Ea, kept_default by done. exists (reparented n None t).
    rewrite lookup_delete_ne, reparent_lookup, Ht by done. split; [done|]. by rewrite reparented_birth.
Qed.

Lemma adopt_leads d extra name birth :
  map_Forall (fun alias target => is_Some (rd_threads d !! target) /\ rd_threads d !! alias = None /\
                                  rd_aliases d !! alias = None) extra ->
  leads_to d name birth -> leads_to (set_aliases d (extra ∪ rd_aliases d)) name birth.
Proof.
  intros Hex (t & Ht & Hb). exists t. split; [|done]. unfold canonical_name in *. simpl. revert Ht.
  destruct (rd_aliases d !! name) as [x|] eqn:Ex, (extra !! name) as [y|] eqn:Ey; simpl.
  1,3: destruct (Hex _ _ Ey) as (_ & H1 & H2); congruence.
  - by rewrite (lookup_union_r extra), Ex.
  - by rewrite (lookup_union_r extra), Ex.
Qed.

(** A step keeps the thread of a name, or removes it *)
Lemma doc_step_leads {removes : bool} d d' name birth :
  document_wf d -> doc_step removes d d' -> leads_to d name birth -> leads_to d' name birth \/ ~ declared_birth d' birth.
Proof.
  intros Hwf Hstep Hl. pose proof Hl as (t & Ht & Hb).
  destruct Hstep as [n u u' s seen Hu Hrow Eb Hs _ Et _ _ Ea _ _
    |n u s seen Hn Ha Hrow Hf Hs _ Et _ _ Ea _ _
    |old new u u' s seen Hu Hn Hne Hown Hrow Eb Hch Hs Hseen _ Et _ _ Ea _ _
    |n u _ Hu _ Et _ _ Ea _ _|extra Hex ->| ->].
  - left. unfold leads_to, canonical_name in *. rewrite Et, Ea.
    destruct (decide (n = default name (rd_aliases d !! name))) as [E|Hne].
    + rewrite <- E in *. exists u'. rewrite lookup_insert_eq. split; congruence.
    + exists t. by rewrite lookup_insert_ne.
  - left. unfold leads_to, canonical_name in *. rewrite Et, Ea. exists t.
    rewrite lookup_insert_ne; [done|]. intros E. rewrite <- E in Ht. congruence.
  - left. by apply (rename_leads d d' old new u u').
  - by apply (remove_leads d d' n u).
  - left. by apply adopt_leads.
  - by left.
Qed.

Lemma leads_unique d name b1 b2 : leads_to d name b1 -> leads_to d name b2 -> b1 = b2.
Proof. intros (t1 & H1 & <-) (t2 & H2 & <-). congruence. Qed.

Lemma leads_declared d name birth : leads_to d name birth -> declared_birth d birth.
Proof. intros (t & Ht & Hb). apply elem_of_births. eauto. Qed.

(** ** Declared births *)

Lemma doc_step_births d d' : doc_step false d d' -> births d ⊆ births d'.
Proof.
  intros Hstep b (n & u & Hu & <-)%elem_of_births. apply elem_of_births.
  destruct Hstep as [m t t' s seen Ht _ Eb _ _ Et _ _ _ _ _|m t s seen Hm _ _ _ _ _ Et _ _ _ _ _
    |old new t t' s seen Ht Hm _ _ _ Eb _ _ _ _ Et _ _ _ _ _|m t Hr|extra _ ->| ->]; [..|done|by eauto|by eauto].
  - rewrite Et. destruct (decide (m = n)) as [->|].
    + exists n, t'. rewrite lookup_insert_eq. split; congruence.
    + exists n, u. by rewrite lookup_insert_ne.
  - rewrite Et. exists n, u. rewrite lookup_insert_ne; [done|]. congruence.
  - rewrite Et. destruct (decide (n = old)) as [->|].
    + exists new, t'. rewrite lookup_insert_eq. split; congruence.
    + exists n, (reparented old (Some new) u). rewrite lookup_insert_ne by congruence.
      rewrite reparent_lookup, lookup_delete_ne, Hu by done. by rewrite reparented_birth.
Qed.

(** A thread declared throughout keeps its names *)
Lemma doc_steps_lead (R : relation RegistryDocument) d d' name birth :
  (forall d1 d2, R d1 d2 -> doc_step true d1 d2 /\ (births d1 ⊆ births d2 \/ births d2 ⊆ births d1)) ->
  (forall d1, rtc R d d1 -> rtc R d1 d' -> declared_birth d1 birth) ->
  document_wf d -> rtc R d d' -> leads_to d name birth -> leads_to d' name birth.
Proof.
  intros HR Hin Hwf H. revert Hwf Hin. induction H as [d|d d1 d2 Hstep Hrest IH]; [done|]. intros Hwf Hin Hl.
  destruct (HR _ _ Hstep) as [Hd _]. apply IH.
  - by eapply doc_step_wf.
  - intros d3 H1 H2. apply Hin; [by eapply rtc_l | done].
  - destruct (doc_step_leads d d1 name birth Hwf Hd Hl) as [?|Hnot]; [done|]. destruct Hnot. apply Hin; [by apply rtc_once | done].
Qed.

Lemma growing_lead d d' name birth :
  document_wf d -> rtc (doc_step false) d d' -> leads_to d name birth -> leads_to d' name birth.
Proof.
  intros Hwf Hs Hl. apply (doc_steps_lead (doc_step false) d d' name birth); [| |done..].
  - intros d1 d2 H. split; [by eapply doc_step_weaken | left; by apply doc_step_births].
  - intros d1 H1 _. apply leads_declared in Hl. unfold declared_birth in *. revert Hl.
    clear -H1. induction H1; [done|]. intros Hl. apply IHrtc. by eapply doc_step_births.
Qed.

(** A removal *)
Definition shrinks (d d' : RegistryDocument) : Prop := doc_step true d d' /\ births d' ⊆ births d.

Lemma shrinking_lead d d' name birth :
  document_wf d -> rtc shrinks d d' -> leads_to d name birth -> declared_birth d' birth -> leads_to d' name birth.
Proof.
  intros Hwf Hs Hl Hb. apply (doc_steps_lead shrinks d d' name birth); [| |done..].
  - intros d1 d2 [H1 H2]. by split; [|right].
  - intros d1 _ H2. clear -H2 Hb. induction H2 as [|d1 d2 d3 [_ Hs] _ IH]; [done|]. apply Hs. by apply IH.
Qed.

Lemma remove_shrinks ob name d u d' : document_wf d -> runs (remove_thread ob name) d u d' -> shrinks d d'.
Proof.
  intros Hwf (t & owned & Ht & ->)%remove_runs; [|done]. destruct (require_thread_ok d name t Hwf Ht) as [_ Hrow]. split.
  - apply (step_remove _ _ (th_name t) t); try done. simpl. destruct owned; [by right | by left].
  - intros b (n & v & Hv & <-)%elem_of_births. apply elem_of_births. simpl in Hv.
    apply lookup_delete_Some in Hv as [_ (v0 & Hv0 & ->)%reparent_some]. rewrite reparented_birth. eauto.
Qed.

Lemma remove_each_shrinks ob originals d u d' :
  document_wf d -> runs (reg_each (fun original => remove_thread ob (th_name original)) originals) d u d' -> rtc shrinks d d'.
Proof.
  revert d. induction originals as [|o rest IH]; intros d Hwf H; simpl in H; run_all; [done|].
  match goal with Hr : runs (remove_thread _ _) _ _ _ |- _ => apply remove_shrinks in Hr as Hs; [|done] end.
  eapply rtc_l; [exact Hs|]. apply IH; [|done]. destruct Hs. by eapply doc_step_wf.
Qed.

(** What only reads leaves the document *)
Lemma reading_each {A : Type} (f : A -> Reg unit) xs d u d' :
  (forall x d u d', runs (f x) d u d' -> d' = d) -> runs (reg_each f xs) d u d' -> d' = d.
Proof.
  intros Hf. revert d. induction xs as [|x rest IH]; intros d H; simpl in H; run_all; [done|].
  match goal with Hx : runs (f _) _ _ _ |- _ => apply Hf in Hx as -> end. by apply IH.
Qed.

Lemma remove_originals_shrinks ob originals d u d' :
  document_wf d -> runs (remove_originals ob originals) d u d' -> rtc shrinks d d'.
Proof.
  intros Hwf H. unfold remove_originals, require_originals in H. run_all.
  repeat match goal with Hr : runs (reg_each _ _) _ _ ?x |- _ =>
    lazymatch x with d' => fail | _ => apply reading_each in Hr; [subst | by intros; run_all] end end.
  by eapply remove_each_shrinks.
Qed.

Lemma remove_mutable_shrinks ob name d u d' : document_wf d -> runs (remove ob name) d u d' -> rtc shrinks d d'.
Proof. intros Hwf H. unfold remove in H. run_all. apply rtc_once. by eapply remove_shrinks. Qed.
