(* ===== verification/RegistryTurns.v ===== *)
(** * Leasing and releasing turns

    What an edit of the registry answers about the turn of a thread: the file of its record is
    the turn the registry names, a lease writes it under the next generation, and a release
    ends it for the exact lease alone. *)

From stdpp Require Import base gmap strings list relations pretty.
From Stdlib Require Import ZArith Lia Ascii.
From S2P Require Import Prelude Contracts ThreadStatus Threads RegistryDocument Registration RegistrySteps.
From S2P Require Import RegistryRuns.

(** ** Evaluating an edit *)

Lemma bind_ok {A B : Type} (m : Reg A) (f : A -> Reg B) e a e' : m e = (Ok a, e') -> (m ≫= f) e = f a e'.
Proof. unfold mbind, Reg_bind. by intros ->. Qed.

Lemma bind_read {A B : Type} (g : RegistryDocument -> A) (f : A -> Reg B) e :
  (reg_read g ≫= f) e = f (g (ed_document e)) e.
Proof. done. Qed.

Lemma bind_try {A B : Type} (g : RegistryDocument -> outcome A) (f : A -> Reg B) e a :
  g (ed_document e) = Ok a -> (reg_try g ≫= f) e = f a e.
Proof. intros H. apply bind_ok. unfold reg_try. by rewrite H. Qed.

Lemma bind_lift {A B : Type} (o : outcome A) (f : A -> Reg B) e a : o = Ok a -> (reg_lift o ≫= f) e = f a e.
Proof. by intros ->. Qed.

(** ** The turn of a declared thread *)

Lemma bound_turn t birth generation :
  bound t = t -> th_turn t = StoredTurn birth generation -> birth = th_birth t /\ generation = th_turn_generation t.
Proof.
  unfold bound. intros H E. rewrite E in H. assert (th_turn t = StoredTurn (th_birth t) (th_turn_generation t)) as H'
    by (rewrite <- H at 1; done). rewrite E in H'. by injection H'.
Qed.

(** The registry names one turn for a birth *)
Lemma current_turn_row d name t generation :
  document_wf d -> rd_threads d !! name = Some t -> current_turn d (th_birth t, generation) = th_turn t.
Proof.
  intros Hwf Ht. unfold current_turn. simpl.
  destruct (List.filter _ _) as [|u rest] eqn:E.
  - exfalso. assert (In t []) as H; [|done]. rewrite <- E. apply filter_In. split; [|apply Z.eqb_refl].
    apply in_map_iff. exists (name, t). split; [done|]. by apply list_elem_of_In, elem_of_map_to_list.
  - assert (In u (u :: rest)) as H by (by left). rewrite <- E in H. apply filter_In in H as [H Hb].
    apply in_map_iff in H as ([n v] & <- & H%list_elem_of_In%elem_of_map_to_list). simpl in *. apply Z.eqb_eq in Hb.
    pose proof (dw_births d Hwf _ _ _ _ Ht H (eq_sym Hb)) as ->. congruence.
Qed.

Lemma holds_turn_row d name t :
  rd_threads d !! name = Some t -> holds_turn d (th_birth t, th_turn_generation t) = true.
Proof. intros Ht. apply bool_decide_eq_true. by exists name, t. Qed.

Section turn.
Context (d : RegistryDocument) (turns : gmap (Z * Z) ActiveTurn) (Hwf : document_wf d).
Context (name : string) (t : Thread) (Ht : rd_threads d !! name = Some t).
Context (birth generation : Z) (Hturn : th_turn t = StoredTurn birth generation).
Context (a : ActiveTurn) (Hfile : turns !! (birth, generation) = Some a).

Definition fresh_edit : Edit := mkEdit d d turns [].

Lemma turn_own : birth = th_birth t /\ generation = th_turn_generation t.
Proof. apply bound_turn; [|done]. by apply (dw_rows d Hwf name t). Qed.

Lemma read_turn_row : read_turn (th_turn t) fresh_edit = (Ok (Some a), fresh_edit).
Proof.
  unfold read_turn. rewrite Hturn. cbn [ed_committed ed_turns fresh_edit]. destruct turn_own as [Eb _].
  rewrite Eb, (current_turn_row d name t) by done. rewrite Hturn. by rewrite Hfile.
Qed.

Lemma record_row :
  record_without_claim (th_turn t) fresh_edit =
  (Ok tt, mkEdit d d (<[(birth, generation) := without_claim a]> turns) []).
Proof.
  unfold record_without_claim. rewrite Hturn. cbn [ed_committed ed_document ed_turns ed_superseded fresh_edit].
  destruct turn_own as [Eb Eg]. rewrite Hfile. rewrite Eb, Eg. by rewrite (holds_turn_row d name t).
Qed.

Lemma claim_row : exists g, gc_generations (rd_claims d) !! name = Some g.
Proof.
  destruct (gc_generations (rd_claims d) !! name) as [g|] eqn:E; [eauto|].
  apply not_elem_of_dom in E. destruct E. apply (dw_claimed d Hwf). apply elem_of_dom. eauto.
Qed.

Lemma status_row ob : exists s, status ob d name = Ok s.
Proof.
  unfold status, require_thread. rewrite (canonical_row d name t), Ht by done. simpl.
  assert (th_name t = name) as -> by apply (dw_rows d Hwf name t Ht).
  destruct (rd_statuses d !! name) as [s|] eqn:Es, (rd_last_seen d !! name) as [seen|] eqn:El; simpl; [by eauto|..].
  1,3: apply not_elem_of_dom in El; destruct El; rewrite (dw_seen d Hwf); apply elem_of_dom; by eauto.
  apply not_elem_of_dom in Es. destruct Es. rewrite (dw_statuses d Hwf). apply elem_of_dom. by eauto.
Qed.

(** The row of a turn that the lease finished *)
Definition finished (turn : string) (due : bool) : Thread :=
  with_resume (with_turn t (FinishedTurn turn) (th_turn_generation t)) due.

Lemma finished_ok turn due : 0 < th_turn_generation t -> checked (finished turn due) = Ok (finished turn due).
Proof.
  intros Hpos. pose proof (row_ok _ _ (dw_rows d Hwf name t Ht)) as H. apply checked_ok. split; [|done].
  unfold thread_post_init, th_birth in *. ok_inv. simpl.
  repeat match goal with E : _ = _ |- _ => rewrite E; clear E; simpl end.
  by rewrite (proj2 (Z.eqb_neq _ _)) by lia.
Qed.

(** The lease of this turn, up to the name that leads to its thread *)
Definition exact_lease (lease : TurnLease) : bool :=
  bool_decide (tl_record lease = (birth, generation)) &&
  bool_decide ((tl_birth lease, tl_generation lease) = (birth, generation)) && may_release a lease.

(** What a release answers, and what it leaves *)
Lemma release_turn_eval ob lease :
  canonical_name d (tl_name lease) = name ->
  if exact_lease lease
  then exists completed, release_turn ob lease fresh_edit =
    (Ok (true, completed),
     mkEdit d (touched d name (finished (tl_turn lease) (th_resume_due t && tn_keeps_resume a)) None (Some (ob_now ob)) false false)
       (<[(birth, generation) := without_claim a]> turns) [])
  else release_turn ob lease fresh_edit = (Ok (false, false), fresh_edit).
Proof.
  intros Hc. destruct turn_own as [Eb Eg]. unfold exact_lease, release_turn.
  rewrite !bind_read. cbn [fresh_edit ed_document]. rewrite Hc, Ht.
  assert (bool_decide (th_turn t = StoredTurn (tl_record lease).1 (tl_record lease).2) =
          bool_decide (tl_record lease = (birth, generation))) as ->.
  { apply bool_decide_ext. rewrite Hturn. destruct (tl_record lease). naive_solver. }
  case_bool_decide as Er; cbn [negb andb]; [|done].
  assert (bool_decide ((th_birth t, th_turn_generation t) = (tl_birth lease, tl_generation lease)) =
          bool_decide ((tl_birth lease, tl_generation lease) = (birth, generation))) as ->
    by (apply bool_decide_ext; naive_solver).
  case_bool_decide as El; cbn [negb andb]; [|done].
  rewrite (bind_ok _ _ _ _ _ read_turn_row), (bind_lift _ _ _ a) by done.
  destruct (may_release a lease) eqn:Em; cbn [negb]; [|done].
  assert (0 < th_turn_generation t) as Hpos.
  { unfold may_release, held_by, turn_current in Em. bools. simplify_eq. lia. }
  destruct claim_row as [g Hg]. rewrite (bind_try _ _ _ g) by (simpl; by rewrite Hg).
  destruct (status_row ob) as [s Hs]. eexists (if can_attest lease g && held_by a lease then active_presence s else false).
  assert ((if can_attest lease g && held_by a lease
           then s0 ← reg_try (fun d0 => status ob d0 name); mret (active_presence s0) else mret false) fresh_edit
     = (Ok (if can_attest lease g && held_by a lease then active_presence s else false), fresh_edit)) as Hcomp.
  { destruct (_ && _); [|done]. by rewrite (bind_try _ _ _ s). }
  rewrite (bind_ok _ _ _ _ _ Hcomp), (bind_ok _ _ _ _ _ record_row).
  pose proof (finished_ok (tl_turn lease) (th_resume_due t && tn_keeps_resume a) Hpos) as Hf.
  erewrite bind_lift by exact Hf. done.
Qed.
End turn.

(** ** Leasing *)

Lemma bind_inv {A B : Type} (m : Reg A) (f : A -> Reg B) e b e' :
  (m ≫= f) e = (Ok b, e') -> exists a e1, m e = (Ok a, e1) /\ f a e1 = (Ok b, e').
Proof. unfold mbind, Reg_bind. destruct (m e) as [[a|] e1]; [eauto | done]. Qed.

Lemma lift_inv {A : Type} (o : outcome A) e a e' : reg_lift o e = (Ok a, e') -> o = Ok a /\ e' = e.
Proof. unfold reg_lift. by intros [= -> ->]. Qed.

Lemma try_inv {A : Type} (f : RegistryDocument -> outcome A) e a e' :
  reg_try f e = (Ok a, e') -> f (ed_document e) = Ok a /\ e' = e.
Proof. unfold reg_try. by intros [= -> ->]. Qed.

Lemma read_turn_inv r e a e' : read_turn r e = (Ok a, e') -> e' = e.
Proof. unfold read_turn. intros H. repeat case_match; by simplify_eq. Qed.

Lemma ret_inv {A : Type} (a b : A) (e e' : Edit) : (mret a : Reg A) e = (Ok b, e') -> b = a /\ e' = e.
Proof. by intros [= -> ->]. Qed.

Ltac edit_inv := repeat match goal with
  | H : (_ ≫= _) _ = (Ok _, _) |- _ => apply bind_inv in H as (? & ? & ? & H)
  | H : reg_lift _ _ = (Ok _, _) |- _ => apply lift_inv in H as [? ->]
  | H : reg_try _ _ = (Ok _, _) |- _ => apply try_inv in H as [? ->]
  | H : read_turn _ _ = (Ok _, _) |- _ => apply read_turn_inv in H as ->
  | H : mret _ _ = (Ok _, _) |- _ => apply ret_inv in H as [? ->]
  end.

(** The file a lease writes and the generation it supersedes *)
Lemma lease_local_edit ob name turn keeps e leased owner e' :
  lease_local_turn ob name turn keeps e = (Ok (leased, owner), e') ->
  exists t claimed, require_thread (ed_document e) name = Ok t /\
    gc_generations (rd_claims (ed_document e)) !! th_name t = Some claimed /\
    leased = leased_row t /\
    ed_turns e' = <[(th_birth t, th_turn_generation t + 1) :=
      mkActiveTurn turn (th_process t) (ob_now ob) (Some claimed) (Some (th_turn_generation t + 1)) keeps]> (ed_turns e) /\
    ed_superseded e' = ed_superseded e ++ (if th_turn_generation t =? 0 then [] else [(th_birth t, th_turn_generation t)]).
Proof.
  unfold lease_local_turn, capture_local, lease_turn, require_active, require_native. intros H. edit_inv. simpl in *.
  destruct (require_thread (ed_document e) name) as [t|] eqn:Et; [|done]. ok_inv.
  match goal with Hb : begin_turn _ _ _ = _ |- _ => injection Hb as _ <- end.
  match goal with Hb : checked _ = Ok _ |- _ => apply checked_ok in Hb as [_ ->] end.
  match goal with Hp : put_thread _ _ = _, Hs : set_seen _ _ _ = _ |- _ => injection Hp as _ <-; injection Hs as _ <- end.
  match goal with Hg : _ = Some ?g, Et : require_thread _ _ = Ok ?u |- _ => exists u, g; split; [done|]; split; [exact Hg|] end.
  split; [done|]. simpl in *. destruct (th_turn_generation _ =? 0);
    match goal with Hi : _ = (Ok _, ?x) |- context [ed_turns ?x] => injection Hi as _ <- end; [by rewrite app_nil_r | done].
Qed.

(** ** The lease of a turn that was just begun *)

Section leased.
Context (d : RegistryDocument) (turns : gmap (Z * Z) ActiveTurn) (Hwf : document_wf d).
Context (t : Thread) (Ht : rd_threads d !! th_name t = Some t) (Hpos : 0 < th_turn_generation t).
Context (turn : string) (process : ProcessState) (now claimed : Z) (keeps : bool).
Context (Hturn : th_turn t = StoredTurn (th_birth t) (th_turn_generation t)).

Definition begun : ActiveTurn := mkActiveTurn turn process now (Some claimed) (Some (th_turn_generation t)) keeps.
Definition begun_lease : TurnLease :=
  mkTurnLease (th_name t) (th_birth t) (th_turn_generation t) turn claimed (th_birth t, th_turn_generation t).

Lemma begun_exact lease :
  exact_lease (th_birth t) (th_turn_generation t) begun lease = true <->
  (tl_birth lease, tl_generation lease, tl_turn lease, tl_claimed lease, tl_record lease) =
  (tl_birth begun_lease, tl_generation begun_lease, tl_turn begun_lease, tl_claimed begun_lease, tl_record begun_lease).
Proof.
  unfold exact_lease, may_release, held_by, turn_current. simpl. rewrite !andb_true_iff, !bool_decide_eq_true, Z.ltb_lt. split.
  - intros [[H1 H2] [H3 [[H4 H5] _]]]. injection H2 as H2 H2'. injection H4 as H4. congruence.
  - intros [= H1 H2 H3 H4 H5]. rewrite H1, H2, H3, H4, H5. done.
Qed.

Lemma begun_released ob : 
  turns !! (th_birth t, th_turn_generation t) = Some begun ->
  exists completed, release_turn ob begun_lease (fresh_edit d turns) =
    (Ok (true, completed),
     mkEdit d (touched d (th_name t) (finished t turn (th_resume_due t && keeps)) None (Some (ob_now ob)) false false)
       (<[(th_birth t, th_turn_generation t) := without_claim begun]> turns) []).
Proof.
  intros Hfile. pose proof (release_turn_eval d turns Hwf (th_name t) t Ht _ _ Hturn begun Hfile ob begun_lease) as H.
  rewrite (proj2 (begun_exact begun_lease) eq_refl) in H. apply H. by apply (canonical_row d (th_name t) t).
Qed.

Lemma begun_refused ob lease :
  turns !! (th_birth t, th_turn_generation t) = Some begun -> canonical_name d (tl_name lease) = th_name t ->
  (tl_birth lease, tl_generation lease, tl_turn lease, tl_claimed lease, tl_record lease) <>
  (tl_birth begun_lease, tl_generation begun_lease, tl_turn begun_lease, tl_claimed begun_lease, tl_record begun_lease) ->
  release_turn ob lease (fresh_edit d turns) = (Ok (false, false), fresh_edit d turns).
Proof.
  intros Hfile Hc Hne. pose proof (release_turn_eval d turns Hwf (th_name t) t Ht _ _ Hturn begun Hfile ob lease Hc) as H.
  destruct (exact_lease _ _ _ lease) eqn:E; [|done]. by apply begun_exact in E.
Qed.
End leased.

(** A turn that is not stored is not released *)
Lemma unstored_refused d turns t ob lease :
  rd_threads d !! canonical_name d (tl_name lease) = Some t -> executing t = false ->
  release_turn ob lease (fresh_edit d turns) = (Ok (false, false), fresh_edit d turns).
Proof.
  intros Ht He. unfold release_turn. rewrite !bind_read. cbn [fresh_edit ed_document]. rewrite Ht.
  rewrite bool_decide_false; [done|]. intros E. unfold executing in He. by rewrite E in He.
Qed.

(** * Claiming a name *)

(** What [RegistryNames.claim_name] selects, and that claiming a thread under it succeeds: the
    slug of the wanted name is a valid name, the first of its numbered candidates that is free
    is found before the search gives up, and the declaration goes in under it. *)

(** ** The slug *)

Definition name_text (text : list ascii) : Prop := forallb name_char text = true.

Lemma dashed_text text in_run : name_text (dashed text in_run).
Proof.
  revert in_run. unfold name_text. induction text as [|c rest IH]; intros in_run; [done|]. simpl.
  destruct (name_char c) eqn:E; [simpl; by rewrite E, IH|]. destruct in_run; [apply IH|]. simpl. by rewrite IH.
Qed.

Lemma lstrip_text text : name_text text -> name_text (lstrip text).
Proof.
  unfold name_text. induction text as [|c rest IH]; [done|]. simpl. intros H. destruct (Ascii.eqb c "-"); [|done].
  apply andb_true_iff in H as [_ H]. auto.
Qed.

Lemma rev_text text : name_text text -> name_text (rev text).
Proof. unfold name_text. rewrite !forallb_forall. intros H c Hc. apply H. by apply in_rev. Qed.

Lemma valid_text text : text <> [] -> name_text text -> valid_name (String.string_of_list_ascii text) = true.
Proof.
  intros Hne H. unfold valid_name. rewrite String.list_ascii_of_string_of_list_ascii, H.
  rewrite bool_decide_false; [done|]. intros E. destruct text; [done|]. by simpl in E.
Qed.

Lemma slug_valid wanted : valid_name (thread_slug wanted) = true.
Proof.
  unfold thread_slug. set (text := rev _). assert (name_text text) as H
    by (apply rev_text, lstrip_text, rev_text, lstrip_text, dashed_text).
  destruct text as [|c rest] eqn:E; [done|]. simpl. change (String c (String.string_of_list_ascii rest))
    with (String.string_of_list_ascii (c :: rest)). by apply valid_text.
Qed.

(** ** The candidates *)

Definition name_string (s : string) : Prop := forallb name_char (String.list_ascii_of_string s) = true.

Lemma name_string_app s1 s2 : name_string s1 -> name_string s2 -> name_string (s1 +:+ s2).
Proof.
  unfold name_string. intros H1 H2. induction s1 as [|c rest IH]; [done|]. simpl in *.
  apply andb_true_iff in H1 as [-> H1]. by rewrite IH.
Qed.

Lemma valid_app s1 s2 : valid_name s1 = true -> name_string s2 -> valid_name (s1 +:+ s2) = true.
Proof.
  intros [H1 H2]%andb_true_iff H3. apply andb_true_iff. split; [|by apply name_string_app].
  bools. apply negb_true_iff, bool_decide_eq_false. by destruct s1.
Qed.

Lemma digit_char x : name_char (pretty_N_char x) = true.
Proof. unfold pretty_N_char. by repeat case_match. Qed.

Lemma pretty_go_text x s : name_string s -> name_string (pretty_N_go x s).
Proof.
  revert s. induction (N.lt_wf_0 x) as [x _ IH]; intros s Hs.
  assert (x = 0 \/ 0 < x)%N as [->|Hx] by lia; [by rewrite pretty_N_go_0|].
  rewrite pretty_N_go_step by done. apply IH; [by apply N.div_lt|]. unfold name_string in *. simpl.
  by rewrite digit_char, Hs.
Qed.

Lemma pretty_text (n : nat) : name_string (pretty n).
Proof. unfold pretty, pretty_nat, pretty, pretty_N. case_decide; [done|]. by apply pretty_go_text. Qed.

Lemma candidate_valid base k : valid_name base = true -> valid_name (candidate base k) = true.
Proof.
  intros H. destruct k; [done|]. cbn [candidate]. apply valid_app; [done|]. apply name_string_app; [done|].
  apply pretty_text.
Qed.

Lemma string_app_cancel s1 s2 s3 : s1 +:+ s2 = s1 +:+ s3 -> s2 = s3.
Proof. induction s1 as [|c rest IH]; [done|]. simpl. intros H. injection H. auto. Qed.

Lemma string_app_longer s1 c s2 : s1 +:+ String c s2 <> s1.
Proof. induction s1 as [|a rest IH]; [done|]. simpl. intros H. injection H. done. Qed.

Lemma candidate_inj base j k : candidate base j = candidate base k -> j = k.
Proof.
  assert (forall n, candidate base (S n) <> base) as Hne.
  { intros n H. by apply string_app_longer in H. }
  destruct j as [|j], k as [|k]; [done|..].
  - intros H. symmetry in H. by apply Hne in H.
  - intros H. by apply Hne in H.
  - cbn [candidate]. intros H. apply string_app_cancel in H. apply (string_app_cancel "-") in H.
    apply (inj (pretty (A := nat))) in H. congruence.
Qed.

(** ** The search *)

Lemma taken_name d name owner :
  taken d name owner = true -> name ∈ dom (rd_threads d) ∪ dom (rd_aliases d).
Proof.
  unfold taken. intros [H _]%andb_true_iff. apply orb_true_iff in H as [H|H]; bools; apply elem_of_union;
    [left | right]; by apply elem_of_dom.
Qed.

(** The search stops at the first candidate that is free *)
Lemma claim_from_first fuel d base owner k :
  (exists j, (j < k + fuel)%nat /\ (k <= j)%nat /\ taken d (candidate base j) owner = false) ->
  exists j, (k <= j)%nat /\ claim_from fuel d base owner k = candidate base j /\
    taken d (candidate base j) owner = false /\
    forall i, (k <= i < j)%nat -> taken d (candidate base i) owner = true.
Proof.
  revert k. induction fuel as [|fuel IH]; intros k (j & H1 & H2 & H3); [lia|]. simpl.
  destruct (taken d (candidate base k) owner) eqn:E; [|exists k; split; [lia|]; split_and!; [done | done | lia]].
  destruct (IH (S k)) as (i & Hi & Hc & Hf & Hall).
  - exists j. split; [lia|]. split; [|done]. destruct (decide (k = j)) as [->|]; [congruence | lia].
  - exists i. split; [lia|]. split_and!; [done | done |]. intros x Hx. destruct (decide (x = k)) as [->|]; [done|].
    apply Hall. lia.
Qed.

(** Some candidate of the search is free: there are more of them than names *)
Lemma candidate_free d base owner :
  exists j, (j < S (size (rd_threads d) + size (rd_aliases d)))%nat /\ taken d (candidate base j) owner = false.
Proof.
  set (n := (size (rd_threads d) + size (rd_aliases d))%nat).
  destruct (decide (Forall (fun j => taken d (candidate base j) owner = true) (seq 0 (S n)))) as [H|H].
  - exfalso. assert (list_to_set (map (candidate base) (seq 0 (S n))) ⊆ dom (rd_threads d) ∪ dom (rd_aliases d)) as Hsub.
    { intros name. rewrite elem_of_list_to_set. intros (j & -> & Hj)%list_elem_of_fmap. rewrite Forall_forall in H.
      by apply (taken_name d _ owner), H. }
    apply subseteq_size in Hsub. rewrite size_list_to_set in Hsub.
    + rewrite length_map, length_seq in Hsub. pose proof (size_union_alt (dom (rd_threads d)) (dom (rd_aliases d))) as Hu.
      pose proof (subseteq_size (dom (rd_aliases d) ∖ dom (rd_threads d)) (dom (rd_aliases d))) as Hd.
      rewrite !size_dom in *. specialize (Hd ltac:(set_solver)). lia.
    + apply NoDup_fmap_2; [|apply NoDup_seq]. intros i j. apply candidate_inj.
  - apply not_Forall_Exists, Exists_exists in H as (j & Hj & Hf); [|solve_decision].
    exists j. apply elem_of_seq in Hj. split; [lia|]. by apply not_true_is_false.
Qed.

(** [claim_name] selects the first free candidate of the slug, a valid name *)
Lemma claim_name_first d wanted owner :
  exists j, claim_name d wanted owner = candidate (thread_slug wanted) j /\
    taken d (claim_name d wanted owner) owner = false /\ valid_name (claim_name d wanted owner) = true /\
    forall i, (i < j)%nat -> taken d (candidate (thread_slug wanted) i) owner = true.
Proof.
  unfold claim_name.
  destruct (claim_from_first (S (size (rd_threads d) + size (rd_aliases d))) d (thread_slug wanted) owner 0)
    as (j & _ & -> & Hf & Hall).
  { destruct (candidate_free d (thread_slug wanted) owner) as (j & Hj & Hf). exists j. split; [lia|]. split; [lia | done]. }
  exists j. split; [done|]. split; [done|]. split; [apply candidate_valid, slug_valid|]. intros i Hi. apply Hall. lia.
Qed.

(** ** Declaring a thread under a free name *)

Lemma free_name d name : document_wf d -> taken d name None = false -> rd_threads d !! name = None /\ rd_aliases d !! name = None.
Proof.
  intros Hwf H. unfold taken in H. apply andb_false_iff in H as [H|H]; [|by bools].
  apply orb_false_iff in H as [H1 H2]. split; apply eq_None_not_Some; by bools.
Qed.

(** The checks of a declaration, apart from its name and birth *)
Lemma post_init_spec t :
  thread_post_init t = Ok tt <->
  recorded_birth (th_birth t) = true /\ valid_name (th_name t) = true /\
  match th_process t with
  | NoProcess => Ok tt
  | _ => require_executable (th_role t) (RelationViolationError "A human thread cannot hold an owner process")
  end = Ok tt /\
  0 <= th_scope_generation t < max_generation /\ 0 <= th_turn_generation t < max_generation /\
  match th_turn t with FinishedTurn _ => th_turn_generation t <> 0 | _ => True end /\ th_parent t <> Some (th_name t).
Proof.
  unfold thread_post_init. split.
  - intros H. ok_inv. destruct x1. bools. split_and!; try done; try lia.
    destruct (th_turn t) in *; try done. ok_inv. bools. done.
  - intros (-> & -> & -> & Hs & Ht & Hf & Hp). simpl.
    rewrite !(proj2 (Z.leb_le _ _)), !(proj2 (Z.ltb_lt _ _)) by lia. simpl.
    rewrite bool_decide_false by done. destruct (th_turn t); try done. by rewrite (proj2 (Z.eqb_neq _ _)).
Qed.

(** Room for a birth after the generated one *)
Lemma generated_distinct d b :
  document_wf d -> 0 < b -> b + Z.of_nat (size (births d)) < infinity ->
  exists b', distinct_from (GeneratedCreationTime b) (births d) = Ok (RecordedCreationTime b') /\ b <= b' < infinity /\
    (b' ∉ births d) /\ forall x, b <= x < b' -> x ∈ births d.
Proof.
  intros Hwf Hb Hroom. unfold distinct_from. set (b' := next_birth _ _ _).
  destruct (next_birth_fresh (births d) (S (size (births d))) b) as (H1 & H2 & H3).
  { intros x Hx. by apply (births_recorded d x Hwf). }
  { apply Nat.lt_succ_r, subseteq_size. intros y Hy. by apply elem_of_filter in Hy as [_ ?]. }
  fold b' in H1, H2, H3. assert (b' < infinity) as Hlt.
  { destruct (Z.lt_ge_cases b' infinity) as [|Hge]; [done|]. exfalso.
    assert (list_to_set (map (fun i => b + Z.of_nat i) (seq 0 (S (size (births d))))) ⊆ births d) as Hsub.
    { intros x. rewrite elem_of_list_to_set. intros (i & -> & Hi%elem_of_seq)%list_elem_of_fmap. apply H2. lia. }
    apply subseteq_size in Hsub. rewrite size_list_to_set in Hsub.
    - rewrite length_map, length_seq in Hsub. lia.
    - apply NoDup_fmap_2; [|apply NoDup_seq]. intros i j ?. lia. }
  exists b'. rewrite (proj2 (Z.leb_gt infinity b')) by done. done.
Qed.

Lemma holds_turn_fresh d birth generation : birth ∉ births d -> holds_turn d (birth, generation) = false.
Proof.
  intros H. apply bool_decide_eq_false. intros (n & t & Ht & E). injection E as E _. apply H, elem_of_births. eauto.
Qed.

(** A thread the committed registry does not know has no turn file to change *)
Lemma advance_claim_new name u e :
  rd_threads (ed_document e) !! name = Some u -> bound u = u -> th_birth u ∉ births (ed_committed e) ->
  advance_claim name e =
  (Ok tt, mkEdit (ed_committed e) (set_claims (ed_document e) (gc_advance (rd_claims (ed_document e)) name))
            (ed_turns e) (ed_superseded e)).
Proof.
  intros Hu Hbound Hb. unfold advance_claim. rewrite bind_read, Hu.
  assert (record_without_claim (th_turn u) e = (Ok tt, e)) as Hr.
  { unfold record_without_claim. destruct (th_turn u) as [| |birth generation] eqn:Et; [done..|].
    apply bound_turn in Et as [-> ->]; [|done]. by rewrite holds_turn_fresh. }
  by rewrite (bind_ok _ _ _ _ _ Hr).
Qed.

Section claiming.
Context (choose_rest : string -> string -> string) (available : gset string -> outcome unit) (ob : Observation).
Context (d : RegistryDocument) (turns : gmap (Z * Z) ActiveTurn) (Hwf : document_wf d).

(** Installing the first declaration of a thread *)
Lemma apply_first t s :
  rd_threads d !! th_name t = None -> th_birth t ∉ births d -> thread_post_init t = Ok tt ->
  apply_change ob (mkRegistrationChange t s None false) (fresh_edit d turns) =
  (Ok tt, mkEdit d (touched d (th_name t) (bound (restarted_tools t)) (Some s) (Some (ob_now ob)) true true) turns []).
Proof.
  intros Hn Hb Hok. unfold apply_change. cbn [changes_owner rc_previous rc_thread rc_status].
  assert (checked (restarted_tools t) = Ok (restarted_tools t)) as Hc by (by apply checked_ok).
  rewrite (bind_lift _ _ _ _ Hc).
  assert (install_thread (restarted_tools t) (fresh_edit d turns) = put_thread (restarted_tools t) (fresh_edit d turns)) as Hi.
  { unfold install_thread. rewrite bind_read. cbn [fresh_edit ed_document]. simpl (th_name (restarted_tools t)). by rewrite Hn. }
  erewrite bind_ok by (rewrite Hi; reflexivity). erewrite bind_ok by reflexivity. erewrite bind_ok by reflexivity.
  erewrite bind_ok; [|apply (advance_claim_new _ (bound (restarted_tools t))); simpl;
    [by rewrite lookup_insert_eq | apply bound_bound | by rewrite bound_birth]]. done.
Qed.

(** Preparing the first declaration of a thread *)
Lemma prepare_first t s b' :
  rd_threads d !! th_name t = None -> rd_aliases d !! th_name t = None -> thread_post_init t = Ok tt ->
  distinct_from (th_created t) (births d) = Ok (RecordedCreationTime b') ->
  thread_post_init (with_created t (RecordedCreationTime b')) = Ok tt ->
  prepare_declaration choose_rest ob d t s =
  Ok (mkRegistrationChange (with_created t (RecordedCreationTime b')) (registered_status ob t s) None false).
Proof.
  intros Hn Ha Hok Hd Hok'. unfold prepare_declaration, canonical_name. rewrite Ha. cbn [default id]. rewrite Hn.
  unfold for_registration. assert (checked (with_name t (th_name t)) = Ok t) as -> by (apply checked_ok; by destruct t).
  cbn [mbind result_bind]. unfold prepare_registration. rewrite Ha, Hn.
  assert (rd_statuses d !! th_name t = None) as ->.
  { apply not_elem_of_dom. rewrite (dw_statuses d Hwf). by apply not_elem_of_dom. }
  rewrite !bool_decide_false by (by intros [? ?]). simpl. rewrite Hd. simpl.
  assert (checked (with_created t (RecordedCreationTime b')) = Ok (with_created t (RecordedCreationTime b'))) as ->
    by (by apply checked_ok). done.
Qed.

(** Claiming a thread whose declaration is constructible, under the first free name and birth *)
Lemma claim_thread_eval t b any_name :
  let name := claim_name d (th_name t) None in
  th_created t = GeneratedCreationTime b -> 0 < b -> b + Z.of_nat (size (births d)) < infinity ->
  thread_post_init (with_name t any_name) = Ok tt -> (forall p, th_parent t = Some p -> is_Some (rd_threads d !! p)) ->
  available (th_tags t) = Ok tt ->
  exists b' t', birth_bits (th_created t') = b' /\ (b' ∉ births d) /\ b <= b' /\
    t' = with_created (with_name t name) (RecordedCreationTime b') /\
    claim_thread choose_rest available ob t (fresh_edit d turns) =
    (Ok t', mkEdit d (touched d name (bound (restarted_tools t')) (Some (registered_status ob t' ProcessThreadStatus))
              (Some (ob_now ob)) true true) turns []).
Proof.
  intros name Hcreated Hb Hroom Hok Hparent Htags.
  destruct (claim_name_first d (th_name t) None) as (j & _ & Hfree & Hvalid & _). fold name in Hfree, Hvalid.
  destruct (free_name d name Hwf Hfree) as [Hn Ha].
  destruct (generated_distinct d b Hwf Hb Hroom) as (b' & Hd & Hb' & Hfresh & _).
  set (t' := with_created (with_name t name) (RecordedCreationTime b')).
  assert (thread_post_init (with_name t name) = Ok tt /\ thread_post_init t' = Ok tt) as [Hok1 Hok2].
  { apply post_init_spec in Hok as (H1 & _ & H3 & H4 & H5 & H6 & _).
    assert (th_parent t <> Some name) as H7 by (intros E; destruct (Hparent _ E); congruence).
    split; apply post_init_spec; simpl in *; split_and!; try done; try lia.
    unfold th_birth, recorded_birth. simpl. apply andb_true_iff. rewrite !Z.ltb_lt. lia. }
  exists b', t'. split; [done|]. split; [done|]. split; [lia|]. split; [done|].
  unfold claim_thread. rewrite bind_read. cbn [fresh_edit ed_document]. fold name.
  rewrite (bind_lift _ _ _ (with_name t name)) by (by apply checked_ok). unfold declare_in.
  rewrite (bind_try _ _ _ (mkRegistrationChange t' (registered_status ob t' ProcessThreadStatus) None false)).
  - rewrite (bind_lift _ _ _ tt) by done. by erewrite bind_ok by (by apply apply_first).
  - apply (prepare_first (with_name t name)); [done | done | done | | done]. simpl. by rewrite Hcreated.
Qed.
End claiming.
