(* ===== verification/RegistryGuarantees.v ===== *)
(** * Guarantees of the registry

    The theorems on the registry of threads, for every sequence of calls by any processes,
    each under its own observation of the clock and the process table, with calls that raise
    included: the stored document always reads back, a generation that was passed never
    returns, a name keeps its thread until the thread is removed, a replaced owner and the
    resource claims of a withdrawn one are refused for ever, a claimed name is free and its
    thread is registered, and a turn is leased and released exactly. *)

From stdpp Require Import base gmap strings list relations.
From Stdlib Require Import ZArith Lia Ascii.
From S2P Require Import Prelude Contracts ThreadStatus Threads RegistryDocument Registration.
From S2P Require Import RegistrySteps RegistryRuns RegistryHistory RegistryTurns.

(** ** Runs of the registry *)

(** The calls that change the registry; what they answer is dropped *)
Inductive RegistryCall : Type :=
| RegisterCall (t : Thread) (s : ThreadStatus) (new_owner : bool)
| UpdateCall (name : string) (change : Thread -> outcome Thread)
| DeclareCall (choose_rest : string -> string -> string) (available : gset string -> outcome unit) (t : Thread) (s : ThreadStatus)
| ClaimNameCall (choose_rest : string -> string -> string) (available : gset string -> outcome unit) (t : Thread)
| RenameCall (name new_name : string)
| UnregisterCall (name : string)
| FenceOwnerCall (name : string)
| FenceRestartCall (selected : list (Thread * Z))
| ArchiveCall (name : string)
| ArchiveOriginalsCall (originals : list Thread)
| ChangeTagCall (originals : list Thread) (tag : string) (replacement : option string)
| BeginDeleteCall (name : string)
| BeginDeleteOriginalsCall (originals : list Thread)
| RemoveCall (name : string)
| RemoveOriginalsCall (originals : list Thread)
| HeartbeatCall (name : string)
| ReserveOwnerCall (launch_rest : string -> string) (original : Thread) (process : ProcessState)
| BindExternalCall (name : string) (process : ProcessState)
| LeaveExternalCall (owner : OwnerIdentity) (process : ProcessState)
| ReleaseExternalCall (name : string)
| LeaseTurnCall (name turn_id : string) (keeps_resume : bool)
| ReleaseTurnCall (lease : TurnLease)
| RestoreCall (source : RegistryDocument) (names : list string)
| WorkStateCall (name : string) (state : ThreadWorkState)
| ObserveToolsCall (name : string) (birth : Z) (offered : OfferedTools)
| MarkHistoricalCall.

Definition dropped {A : Type} (m : Reg A) : Reg unit := _ ← m; mret tt.

Definition call_operation (ob : Observation) (c : RegistryCall) : Reg unit :=
  match c with
  | RegisterCall t s new_owner => dropped (register_thread ob t s new_owner)
  | UpdateCall name change => dropped (update_thread ob name change)
  | DeclareCall choose_rest available t s => dropped (declare_in choose_rest available ob t s)
  | ClaimNameCall choose_rest available t => dropped (claim_thread choose_rest available ob t)
  | RenameCall name new_name => dropped (rename ob name new_name)
  | UnregisterCall name => unregister ob name
  | FenceOwnerCall name => fence_owner ob name
  | FenceRestartCall selected => fence_restart_owners ob selected
  | ArchiveCall name => archive ob name
  | ArchiveOriginalsCall originals => archive_originals ob originals
  | ChangeTagCall originals tag replacement => change_tag ob originals tag replacement
  | BeginDeleteCall name => begin_delete ob name
  | BeginDeleteOriginalsCall originals => begin_delete_originals ob originals
  | RemoveCall name => remove ob name
  | RemoveOriginalsCall originals => remove_originals ob originals
  | HeartbeatCall name => heartbeat ob name
  | ReserveOwnerCall launch_rest original process => dropped (reserve_owner launch_rest ob original process)
  | BindExternalCall name process => dropped (bind_external ob name process)
  | LeaveExternalCall owner process => leave_external ob owner process
  | ReleaseExternalCall name => release_external ob name
  | LeaseTurnCall name turn_id keeps_resume => dropped (lease_local_turn ob name turn_id keeps_resume)
  | ReleaseTurnCall lease => dropped (release_turn ob lease)
  | RestoreCall source names => dropped (restore_stopped ob source names)
  | WorkStateCall name state => set_work_state name state
  | ObserveToolsCall name birth offered => observe_offered_tools name birth offered
  | MarkHistoricalCall => mret tt
  end.

Definition registry_call (ob : Observation) (c : RegistryCall) (r : Registry) : outcome unit * Registry :=
  match c with
  | MarkHistoricalCall => (Ok tt, mark_historical r)
  | _ => editing (call_operation ob c) r
  end.

Definition empty_registry : Registry := mkRegistry empty_document ∅.

Definition registry_step (r r' : Registry) : Prop := exists ob c, r' = (registry_call ob c r).2.

Definition registry_reachable (r : Registry) : Prop := rtc registry_step empty_registry r.

(** ** Every call is a sequence of steps *)

Lemma dropped_stepping {removes : bool} {A : Type} (m : Reg A) : stepping removes m -> stepping removes (dropped m).
Proof. intros H. unfold dropped. apply stepping_bind; auto with registry. Qed.
#[export] Hint Resolve dropped_stepping : registry.

(** The calls that remove threads *)
Definition call_removes (c : RegistryCall) : bool :=
  match c with RemoveCall _ | RemoveOriginalsCall _ => true | _ => false end.

Lemma call_stepping ob c : stepping (call_removes c) (call_operation ob c).
Proof. destruct c; simpl; auto with registry. Qed.

Lemma editing_ok {A : Type} (m : Reg A) r a r' :
  editing m r = (Ok a, r') -> runs m (rg_document r) a (rg_document r') /\ rd_purpose (rg_document r) = WorkingRootPurpose.
Proof.
  unfold editing. destruct (rd_purpose (rg_document r)) eqn:Ep; [|done].
  destruct (m _) as [[a0|] e] eqn:E; intros H; [|done]. injection H as -> <-. split; [|done].
  by exists (mkEdit (rg_document r) (rg_document r) (rg_turns r) []), e.
Qed.

Lemma editing_steps {removes : bool} {A : Type} (m : Reg A) r :
  stepping removes m -> document_wf (rg_document r) ->
  rtc (doc_step removes) (rg_document r) (rg_document (editing m r).2).
Proof.
  intros Hm Hwf. destruct (editing m r) as [[a|x] r'] eqn:E.
  - apply editing_ok in E as [E _]. by eapply Hm.
  - unfold editing in E. destruct (rd_purpose _); [|by injection E as _ <-].
    destruct (m _) as [[a|] e]; [done|]. by injection E as _ <-.
Qed.

Lemma call_steps ob c r :
  document_wf (rg_document r) ->
  rtc (doc_step (call_removes c)) (rg_document r) (rg_document (registry_call ob c r).2).
Proof.
  intros Hwf. destruct c; try (apply (editing_steps (call_operation ob _)); [apply call_stepping | done]).
  apply rtc_once. by apply step_mark.
Qed.

Lemma registry_steps_wf r r' :
  rtc registry_step r r' -> document_wf (rg_document r) ->
  rtc (doc_step true) (rg_document r) (rg_document r') /\ document_wf (rg_document r').
Proof.
  induction 1 as [r|r r1 r2 (ob & c & ->) _ IH]; [done|]. intros Hwf.
  pose proof (call_steps ob c r Hwf) as H1. destruct IH as [H2 H3]; [by eapply doc_steps_wf|].
  split; [|done]. etrans; [|exact H2]. eapply rtc_subrel; [|exact H1]. intros d d'. apply doc_step_weaken.
Qed.

Lemma empty_wf : document_wf empty_document.
Proof.
  split; simpl; try done; try (by split; [done|]); try (by intros ? ? ?%lookup_empty_Some).
Qed.

Lemma reachable_document_wf r : registry_reachable r -> document_wf (rg_document r).
Proof. intros H. by apply (registry_steps_wf _ _ H), empty_wf. Qed.

(** ** The stored document reads back *)

Lemma each_Forall {A : Type} (f : A -> outcome unit) xs : Forall (fun x => f x = Ok tt) xs -> each f xs = Ok tt.
Proof. intros H. by apply each_ok. Qed.

Lemma counter_post_init c : counter_wf c -> gc_post_init c = Ok tt.
Proof.
  intros [H1 H2]. unfold gc_post_init. by rewrite bool_decide_true, (proj2 (Z.leb_le _ _)).
Qed.

Lemma wf_from_wire d : document_wf d -> from_wire d = Ok tt.
Proof.
  intros Hwf. destruct Hwf as [H1 H2 H3 H4 H5 H6 H7 H8 H9 H10]. unfold from_wire.
  rewrite (bool_decide_true (map_Forall _ (rd_threads d))) by (intros n t Ht; by apply (H1 n t)). simpl.
  rewrite each_Forall; [simpl|].
  2:{ apply Forall_forall. intros [n t] Ht%elem_of_map_to_list. by apply (H1 n t). }
  rewrite !counter_post_init by done. simpl.
  rewrite !bool_decide_true; [done | by rewrite H2 | done | done |].
  intros a b Hab. destruct (H5 a b Hab) as [Hb Ha]. rewrite elem_of_dom, not_elem_of_dom. done.
Qed.

Lemma wf_distinct_births d : document_wf d -> require_distinct_births d = Ok tt.
Proof.
  intros Hwf. unfold require_distinct_births. rewrite bool_decide_true; [done|].
  apply NoDup_fmap_2_strong; [|apply NoDup_map_to_list].
  intros [n1 t1] [n2 t2] E1%elem_of_map_to_list E2%elem_of_map_to_list E. simpl in E.
  pose proof (dw_births d Hwf n1 n2 t1 t2 E1 E2 E) as ->. congruence.
Qed.

(** C34: The registry of threads that any calls leave, calls that raised included, reads
    back: every row decodes under its own name, each declared thread has a status, a
    presence and both generations, the counters bound what they allocated, every alias names
    a declared thread and no thread, and no two threads share a birth. *)
Theorem registry_reads_back (r : Registry) : registry_reachable r -> read_document (rg_document r) = Ok (rg_document r).
Proof.
  intros Hwf%reachable_document_wf. unfold read_document, presented.
  rewrite wf_from_wire, wf_distinct_births by done. simpl.
  by rewrite bool_decide_true by (rewrite (dw_seen _ Hwf); done).
Qed.

(** ** Generations *)

Lemma empty_distinct k : distinct_generations (counter_of k empty_document).
Proof. intros n1 n2 g H. by destruct k. Qed.

Lemma reachable_distinct k r : registry_reachable r -> distinct_generations (counter_of k (rg_document r)).
Proof.
  intros H. apply registry_steps_wf in H as [H _]; [|apply empty_wf].
  by eapply doc_steps_distinct; [apply empty_wf | exact H | apply empty_distinct].
Qed.

(** A held generation names its holder *)
Lemma holds_unique k d b1 b2 g :
  distinct_generations (counter_of k d) -> holds k d b1 g -> holds k d b2 g -> b1 = b2.
Proof. intros Hd (n1 & t1 & H1 & <- & G1) (n2 & t2 & H2 & <- & G2). pose proof (Hd _ _ _ G1 G2) as ->. congruence. Qed.

Lemma steps_reachable r r' : registry_reachable r -> rtc registry_step r r' -> registry_reachable r'.
Proof. intros H1 H2. unfold registry_reachable in *. by etrans. Qed.

(** C20: An owner or claim generation belongs to one thread for ever: whoever holds it in a
    later registry is the thread that held it, and once that thread has passed it, by
    whatever call, no thread holds it again. *)
Theorem generation_never_returns (k : Counter) (r1 r2 r3 : Registry) (birth g : Z) :
  registry_reachable r1 -> rtc registry_step r1 r2 -> rtc registry_step r2 r3 ->
  holds k (rg_document r1) birth g ->
  (forall birth', holds k (rg_document r2) birth' g -> birth' = birth) /\
  (~ holds k (rg_document r2) birth g -> forall birth', ~ holds k (rg_document r3) birth' g).
Proof.
  intros H1 H12 H23 Hh. pose proof (reachable_document_wf _ H1) as Hwf.
  assert (forall r, rtc registry_step r1 r -> forall b, holds k (rg_document r) b g -> b = birth) as Hsame.
  { intros r Hr b Hb. apply registry_steps_wf in Hr as [Hs _]; [|done].
    destruct (doc_steps_holds k _ _ b g Hwf Hs Hb) as [Hold|Hnew].
    - by eapply holds_unique; [apply reachable_distinct | exact Hold |].
    - pose proof (holds_bound k _ Hwf birth g Hh). lia. }
  split; [by apply Hsame|]. intros Hpassed b Hb.
  assert (b = birth) as -> by (apply (Hsame r3); [by etrans | done]).
  apply registry_steps_wf in H12 as [Hs12 Hwf2]; [|done]. apply registry_steps_wf in H23 as [Hs23 _]; [|done].
  destruct (doc_steps_holds k _ _ birth g Hwf2 Hs23 Hb) as [?|Hnew]; [done|].
  pose proof (holds_bound k _ Hwf birth g Hh). pose proof (doc_steps_counter k _ _ Hwf Hs12). lia.
Qed.

(** ** Names *)

(** A call after which the thread is still declared *)
Definition keeping_step (birth : Z) (r r' : Registry) : Prop :=
  registry_step r r' /\ declared_birth (rg_document r') birth.

Lemma call_lead ob c r name birth :
  document_wf (rg_document r) -> leads_to (rg_document r) name birth ->
  declared_birth (rg_document (registry_call ob c r).2) birth ->
  leads_to (rg_document (registry_call ob c r).2) name birth.
Proof.
  intros Hwf Hl Hd. pose proof (call_steps ob c r Hwf) as Hs.
  destruct (call_removes c) eqn:Ec; [|by apply (growing_lead (rg_document r))].
  assert (registry_call ob c r = editing (call_operation ob c) r) as E by (by destruct c).
  rewrite E in *. destruct (editing (call_operation ob c) r) as [[a|x] r'] eqn:Ed.
  - apply editing_ok in Ed as [Hrun _]. apply (shrinking_lead (rg_document r)); [done | | done | done].
    destruct c; try done; simpl in Hrun; [by eapply remove_mutable_shrinks | by eapply remove_originals_shrinks].
  - unfold editing in Ed. destruct (rd_purpose _); [|by injection Ed as _ <-].
    destruct (call_operation ob c _) as [[a|] e]; [done|]. by injection Ed as _ <-.
Qed.

(** A name or an alias keeps leading to its thread through every call, renames of the
    thread and registrations under other names included, for as long as the thread is
    declared. *)
Theorem name_keeps_birth (r r' : Registry) (name : string) (birth : Z) :
  registry_reachable r -> rtc (keeping_step birth) r r' ->
  leads_to (rg_document r) name birth -> leads_to (rg_document r') name birth.
Proof.
  intros Hr H. revert Hr. induction H as [r|r r1 r2 [Hstep Hd] _ IH]; [done|]. intros Hr Hl.
  assert (registry_reachable r1) as Hr1 by (by eapply steps_reachable; [|apply rtc_once]).
  apply IH; [done|]. destruct Hstep as (ob & c & ->). apply call_lead; [by apply reachable_document_wf | done | done].
Qed.

(** ** Owners *)

(** An endpoint owner that was admitted holds its owner generation *)
Lemma admitted_holds ob d o process :
  document_wf d -> require_owner_process ob d o process = Ok tt -> holds OwnerCounter d (oi_birth o) (oi_generation o).
Proof.
  intros Hwf H. unfold require_owner_process, require_active in H.
  destruct (require_thread d (oi_name o)) as [t|] eqn:Et; [|done]. ok_inv. bools.
  destruct (require_thread_ok d _ _ Hwf Et) as [_ Hrow]. eexists (th_name _), _. split_and!; [exact Hrow | done |].
  simpl. congruence.
Qed.

Lemma editing_same {A : Type} (m : Reg A) r a :
  rd_purpose (rg_document r) = WorkingRootPurpose ->
  m (fresh_edit (rg_document r) (rg_turns r)) = (Ok a, fresh_edit (rg_document r) (rg_turns r)) ->
  editing m r = (Ok a, r).
Proof. unfold editing, fresh_edit. intros -> ->. by destruct r. Qed.

Lemma editing_unchanged {A : Type} (m : Reg A) r a :
  m (fresh_edit (rg_document r) (rg_turns r)) = (Ok a, fresh_edit (rg_document r) (rg_turns r)) -> (editing m r).2 = r.
Proof.
  intros H. destruct (rd_purpose (rg_document r)) eqn:E; [by rewrite (editing_same m r a)|].
  unfold editing. by rewrite E.
Qed.

(** Only the owner that holds the endpoint changes anything when it leaves *)
Lemma leave_passed ob o process r :
  document_wf (rg_document r) -> ~ holds OwnerCounter (rg_document r) (oi_birth o) (oi_generation o) ->
  (editing (leave_external ob o process) r).2 = r.
Proof.
  intros Hwf Hn. eapply (editing_unchanged _ _ tt). unfold leave_external. rewrite bind_read.
  cbn [fresh_edit ed_document]. destruct (rd_threads (rg_document r) !! _) as [t|] eqn:Et; [|done].
  pose proof (dw_rows _ Hwf _ _ Et) as Hrow. rewrite (row_name _ _ Hrow).
  destruct (status_row _ Hwf _ t Et ob) as [s Hs]. rewrite (bind_try _ _ _ s) by done.
  assert (exists g, gc_generations (rd_owners (rg_document r)) !! canonical_name (rg_document r) (oi_name o) = Some g)
    as [g Hg]. { apply elem_of_dom, (dw_owned _ Hwf), elem_of_dom. eauto. }
  rewrite (bind_try _ _ _ g) by (unfold owner_generation; cbn [fresh_edit ed_document];
    by rewrite (canonical_row _ _ t Hwf Et), Hg).
  destruct (active_presence s && owns o t g process) eqn:E; [|done]. destruct Hn. unfold owns in E. bools.
  eexists _, t. split_and!; [exact Et | congruence | simpl; congruence].
Qed.

(** C22: Binding an endpoint to a process replaces its owner for good: every owner of the
    endpoint that was admitted before the bind is refused in every later registry, from
    whatever process and under whatever observation, and leaving the endpoint as a replaced
    owner leaves the registry as it is, the successor's binding included. *)
Theorem replaced_owner_fenced (r r1 r2 : Registry) (ob0 ob : Observation) (name : string)
    (old_process process : ProcessState) (old o : OwnerIdentity) :
  registry_reachable r -> require_owner_process ob0 (rg_document r) old old_process = Ok tt ->
  editing (bind_external ob name process) r = (Ok o, r1) -> oi_birth old = oi_birth o ->
  rtc registry_step r1 r2 ->
  (forall ob2 process2, require_owner_process ob2 (rg_document r2) old process2 <> Ok tt) /\
  (forall ob2 process2, (editing (leave_external ob2 old process2) r2).2 = r2).
Proof.
  intros Hr Hadm Hbind Eb Hsteps. pose proof (reachable_document_wf _ Hr) as Hwf.
  apply admitted_holds in Hadm; [|done]. pose proof (holds_bound OwnerCounter _ Hwf _ _ Hadm) as Hg.
  assert (registry_step r r1) as Hstep.
  { exists ob, (BindExternalCall name process). simpl. unfold editing in *. destruct (rd_purpose _); [|done].
    unfold dropped. destruct (bind_external _ _ _ _) as [[o'|] e] eqn:E; [|done]. rewrite (bind_ok _ _ _ _ _ E). simpl.
    by injection Hbind as _ <-. }
  assert (~ holds OwnerCounter (rg_document r1) (oi_birth old) (oi_generation old)) as Hn1.
  { apply editing_ok in Hbind as [Hrun _].
    apply bind_external_runs in Hrun as (t & t' & s & Ht & Hrow & Hb & Hp & -> & ->); [|done].
    destruct (require_thread_ok _ _ _ Hwf Ht) as [_ Hrow0]. simpl in Eb. rewrite Eb. by apply touched_passes. }
  apply rtc_once in Hstep as Hstep'. apply registry_steps_wf in Hstep' as [Hd1 Hwf1]; [|done].
  apply registry_steps_wf in Hsteps as [Hd2 Hwf2]; [|done].
  assert (~ holds OwnerCounter (rg_document r2) (oi_birth old) (oi_generation old)) as Hn2.
  { apply (passed_forever OwnerCounter _ _ _ _ Hwf1 Hd2); [|done].
    pose proof (doc_steps_counter OwnerCounter _ _ Hwf Hd1). lia. }
  split; [|by intros; apply leave_passed].
  intros ob2 p2 H. apply Hn2. by eapply admitted_holds.
Qed.

(** ** Turns *)

Lemma editing_edit {A : Type} (m : Reg A) r a r' :
  editing m r = (Ok a, r') ->
  rd_purpose (rg_document r) = WorkingRootPurpose /\
  exists e, m (fresh_edit (rg_document r) (rg_turns r)) = (Ok a, e) /\
    r' = mkRegistry (ed_document e) (foldr delete (ed_turns e) (ed_superseded e)).
Proof.
  unfold editing, fresh_edit. destruct (rd_purpose (rg_document r)) eqn:Ep; [|done].
  destruct (m _) as [[a0|] e] eqn:E; intros H; [|done]. injection H as -> <-. eauto.
Qed.

(** Editing a registry that is not historical *)
Lemma editing_eval {A : Type} (m : Reg A) r a e :
  rd_purpose (rg_document r) = WorkingRootPurpose -> m (fresh_edit (rg_document r) (rg_turns r)) = (Ok a, e) ->
  editing m r = (Ok a, mkRegistry (ed_document e) (foldr delete (ed_turns e) (ed_superseded e))).
Proof. unfold editing, fresh_edit. intros -> ->. done. Qed.

Lemma generation_nonneg t : thread_post_init t = Ok tt -> 0 <= th_turn_generation t.
Proof. unfold thread_post_init. intros H. ok_inv. bools. lia. Qed.

(** What a successful lease leaves *)
Lemma leased_registry ob name turn keeps r leased owner r1 :
  registry_reachable r -> editing (lease_local_turn ob name turn keeps) r = (Ok (leased, owner), r1) ->
  registry_step r r1 /\ rd_purpose (rg_document r1) = WorkingRootPurpose /\
  rd_threads (rg_document r1) !! th_name leased = Some leased /\
  canonical_name (rg_document r1) name = th_name leased /\ 0 < th_turn_generation leased /\
  th_turn leased = StoredTurn (th_birth leased) (th_turn_generation leased) /\
  exists claimed process now,
    rg_turns r1 !! (th_birth leased, th_turn_generation leased) = Some (begun leased turn process now claimed keeps).
Proof.
  intros Hr H. pose proof (reachable_document_wf _ Hr) as Hwf.
  assert (registry_step r r1) as Hstep.
  { exists ob, (LeaseTurnCall name turn keeps). simpl. unfold editing in *. destruct (rd_purpose _); [|done].
    unfold dropped. destruct (lease_local_turn _ _ _ _ _) as [[o'|] e] eqn:E; [|done]. rewrite (bind_ok _ _ _ _ _ E). simpl.
    by injection H as _ <-. }
  split; [done|]. pose proof H as Hrun. apply editing_ok in Hrun as [Hrun Hpurpose].
  apply lease_local_runs in Hrun as (t & Ht & Hl & Hrow & Hd); [|done]. simpl in Hl. subst leased.
  destruct (require_thread_ok _ _ _ Hwf Ht) as [Hc Hrow0].
  assert (0 <= th_turn_generation t) as Hgen by apply generation_nonneg, (dw_rows _ Hwf _ _ Hrow0).
  apply editing_edit in H as (_ & e & He & ->). simpl in Hd. rewrite Hd. simpl.
  split; [done|]. split; [by rewrite lookup_insert_eq|]. split; [by symmetry; exact Hc|]. split; [lia|]. split; [done|].
  apply lease_local_edit in He as (t0 & claimed & Ht0 & _ & _ & Eturns & Esup). cbn [fresh_edit ed_document] in Ht0.
  assert (t0 = t) as -> by congruence. exists claimed, (th_process t), (ob_now ob).
  rewrite Eturns, Esup. simpl. destruct (th_turn_generation t =? 0); simpl;
    [|rewrite lookup_delete_ne by (intros [= ?]; lia)]; by rewrite lookup_insert_eq.
Qed.

(** A leased turn is released by its exact lease, once: the lease of the turn file
    releases it under any observation, after which the thread records the turn as finished
    and the same lease releases nothing; a lease of any other turn, generation, claim, birth
    or record of the thread is refused.  A refused release leaves the registry as it is. *)
Theorem turn_lease_exact (ob : Observation) (name turn : string) (keeps : bool) (r r1 : Registry)
    (leased : Thread) (owner : Z) :
  registry_reachable r -> editing (lease_local_turn ob name turn keeps) r = (Ok (leased, owner), r1) ->
  let record := (th_birth leased, th_turn_generation leased) in
  exists a lease, rg_turns r1 !! record = Some a /\
    active_lease a (th_name leased) (th_birth leased) record = Some lease /\ tl_turn lease = turn /\
    (forall ob' other, canonical_name (rg_document r1) (tl_name other) = th_name leased ->
      (tl_birth other, tl_generation other, tl_turn other, tl_claimed other, tl_record other) <>
      (tl_birth lease, tl_generation lease, tl_turn lease, tl_claimed lease, tl_record lease) ->
      editing (release_turn ob' other) r1 = (Ok (false, false), r1)) /\
    (forall ob', exists completed r2 t, editing (release_turn ob' lease) r1 = (Ok (true, completed), r2) /\
      require_thread (rg_document r2) name = Ok t /\ th_turn t = FinishedTurn turn /\
      forall ob'', editing (release_turn ob'' lease) r2 = (Ok (false, false), r2)).
Proof.
  intros Hr H record. destruct (leased_registry _ _ _ _ _ _ _ _ Hr H) as
    (Hstep & Hp & Ht & Hc & Hpos & Hturn & claimed & process & now & Hfile).
  assert (document_wf (rg_document r1)) as Hwf
    by (apply reachable_document_wf, (steps_reachable r); [done | by apply rtc_once]).
  exists (begun leased turn process now claimed keeps), (begun_lease leased turn claimed).
  split; [done|]. split; [done|]. split; [done|]. split.
  - intros ob' other Hname Hne. apply editing_same; [done|]. by eapply begun_refused.
  - intros ob'. destruct (begun_released _ (rg_turns r1) Hwf leased Ht Hpos turn process now claimed keeps Hturn ob' Hfile)
      as [completed Hrel].
    eexists completed, _, _. split; [by apply editing_eval|]. simpl.
    assert (canonical_name (touched (rg_document r1) (th_name leased) (finished leased turn (th_resume_due leased && keeps))
      None (Some (ob_now ob')) false false) name = th_name leased) as Hc2 by exact Hc.
    unfold require_thread. rewrite Hc2. simpl. rewrite lookup_insert_eq. split; [done|]. split; [done|].
    intros ob''. apply editing_same; [done|]. simpl.
    apply (unstored_refused _ _ (finished leased turn (th_resume_due leased && keeps))); [|done].
    simpl. unfold canonical_name. simpl. rewrite (row_no_alias _ _ _ Hwf Ht). simpl. by rewrite lookup_insert_eq.
Qed.

(** ** Claiming *)

(** C35: A working registry registers every claimed thread whose declaration checks out,
    whatever name it wants: under the first candidate of the wanted name's slug that no
    thread and no alias occupies, a valid name, with a birth no thread has, and a claim
    generation no thread held.  The name leads to it afterwards, and the other declarations
    stay as they were. *)
Theorem claimed_thread_registered (r : Registry) (choose_rest : string -> string -> string)
    (available : gset string -> outcome unit) (ob : Observation) (t : Thread) (b : Z) :
  let d := rg_document r in
  registry_reachable r -> rd_purpose d = WorkingRootPurpose ->
  th_created t = GeneratedCreationTime b -> 0 < b -> b + Z.of_nat (size (births d)) < infinity ->
  thread_post_init (with_name t "session") = Ok tt -> (forall p, th_parent t = Some p -> is_Some (rd_threads d !! p)) ->
  available (th_tags t) = Ok tt ->
  exists j t' r1, editing (claim_thread choose_rest available ob t) r = (Ok t', r1) /\
    th_name t' = candidate (thread_slug (th_name t)) j /\
    (forall i, (i < j)%nat -> taken d (candidate (thread_slug (th_name t)) i) None = true) /\
    valid_name (th_name t') = true /\ rd_threads d !! th_name t' = None /\ rd_aliases d !! th_name t' = None /\
    (th_birth t' ∉ births d) /\ leads_to (rg_document r1) (th_name t') (th_birth t') /\
    holds ClaimCounter (rg_document r1) (th_birth t') (gc_counter (rd_claims d) + 1) /\
    (forall n, n <> th_name t' -> rd_threads (rg_document r1) !! n = rd_threads d !! n).
Proof.
  intros d Hr Hp Hc Hb Hroom Hok Hparent Htags. pose proof (reachable_document_wf _ Hr) as Hwf. fold d in Hwf.
  destruct (claim_name_first d (th_name t) None) as (j & Hj & Hfree & Hvalid & Hall).
  destruct (free_name d _ Hwf Hfree) as [Hn Ha].
  destruct (claim_thread_eval choose_rest available ob d (rg_turns r) Hwf t b "session" Hc Hb Hroom Hok Hparent Htags)
    as (b' & t' & Hb' & Hfresh & _ & -> & Heval).
  eexists j, _, _. split; [by apply editing_eval|]. simpl.
  split; [done|]. split; [done|]. split; [done|]. split; [done|]. split; [done|]. split; [exact Hfresh|].
  split; [|split].
  - eexists. unfold canonical_name. simpl. rewrite Ha. simpl. rewrite lookup_insert_eq. split; [done|]. by rewrite bound_birth.
  - eexists _, _. simpl. rewrite lookup_insert_eq. split; [done|]. split; [by rewrite bound_birth|].
    by rewrite lookup_insert_eq.
  - intros n Hne. by rewrite lookup_insert_ne.
Qed.
