(* ===== verification/Lifecycle.v ===== *)
(** * Lifecycle families

    Models [lifecycle_capability.py] (the capability classes a state may inherit)
    and [lifecycle.py] (the transition algorithm shared by every family of states).
    A family is a [LifecycleFamily] instance: its concrete member classes in
    declaration order, their declared names, the capabilities in their bases, and
    the classes [successors()] returns.  [may_become] is the Python check on a pair
    of states; [transition_table] is what the SQL triggers are generated from; the
    lemmas at the end prove, against the interface alone, that they agree. *)

From stdpp Require Import base gmap strings list.
From Stdlib Require Import ZArith Lia.
From S2P Require Import Prelude Contracts.

(** ** Capabilities *)

Inductive Capability : Type :=
| Settled | Terminal | Failed | Pending | Active
| Executing | Unresolved | Deferred | Complete | Successful.

#[export] Instance Capability_eq_dec : EqDecision Capability.
Proof. solve_decision. Defined.

(** The capability classes among a capability's own bases, itself first. *)
Definition capability_mro (c : Capability) : list Capability :=
  match c with
  | Terminal => [Terminal; Settled]
  | Complete => [Complete; Settled]
  | Successful => [Successful; Terminal; Settled]
  | c => [c]
  end.

(** ** The interface of a family *)

Class LifecycleFamily (K : Type) : Type := {
  #[global] family_eq_dec :: EqDecision K;
  family_members : list K;
  declared_name : K -> string;
  capabilities : K -> list Capability;
  successor_class : Type;
  issubclass : K -> successor_class -> bool;
  successors : K -> list successor_class;
}.

Section family.
Context {K : Type} `{!LifecycleFamily K}.

(** [issubclass(member, capability)] *)
Definition has_capability (member : K) (capability : Capability) : bool :=
  existsb (fun c => bool_decide (capability ∈ capability_mro c)) (capabilities member).

(** [LifecycleCapability.require] *)
Definition require_capability (member : K) (capability : Capability) (refusal : Error)
    : outcome unit :=
  require (has_capability member capability) refusal.

(** [LifecycleCapability.items_with] *)
Definition items_with {T : Type} (member : K) (capability : Capability) (items : list T) : list T :=
  if has_capability member capability then items else [].

(** [DeclaredFamily.members_with], for a capability and for a class of the family *)
Definition members_with (capability : Capability) : list K :=
  List.filter (fun member => has_capability member capability) family_members.

Definition members_of (cls : successor_class) : list K :=
  List.filter (fun member => issubclass member cls) family_members.

(** [LifecycleState.may_become] *)
Definition may_become (state nxt : K) : bool :=
  existsb (issubclass nxt) (successors state).

(** [LifecycleState.transition_table] *)
Definition transition_table : list (string * list string) :=
  map (fun member =>
         (declared_name member,
          flat_map (fun successor => map declared_name (members_of successor))
                   (successors member)))
      family_members.

(** The edge test the [LifecycleTransitions] trigger renders from the table: one
    disjunct for each row that has targets. *)
Definition sql_edges (previous following : K) : bool :=
  existsb (fun row => bool_decide (declared_name previous = row.1)
                      && bool_decide (declared_name following ∈ row.2))
          (List.filter (fun row => match row.2 with [] => false | _ => true end) transition_table).

(** The names the [FinalizedLifecycle] and [CounterAdvance] triggers call closed. *)
Definition closed_names : list string :=
  map fst (List.filter (fun row => match row.2 with [] => true | _ => false end)
                       transition_table).

Definition is_closed (member : K) : bool := bool_decide (declared_name member ∈ closed_names).
End family.

(** What a family promises to the stores and to the triggers. *)
Class LifecycleLaws (K : Type) `{!LifecycleFamily K} : Prop := {
  family_members_complete : forall k : K, k ∈ family_members;
  declared_name_inj : Inj (=) (=) (declared_name (K := K));
  terminal_closed : forall k : K, has_capability k Terminal = true -> successors k = [];
}.

(** ** Facts proved against the interface *)

Section family_facts.
Context {K : Type} `{!LifecycleFamily K, !LifecycleLaws K}.

Lemma elem_of_members_of (cls : successor_class) (k : K) :
  k ∈ members_of cls <-> issubclass k cls = true.
Proof.
  unfold members_of. rewrite list_elem_of_In, filter_In, <- list_elem_of_In.
  split; [tauto | auto using family_members_complete].
Qed.

Lemma elem_of_targets (state nxt : K) :
  declared_name nxt ∈
    flat_map (fun successor => map declared_name (members_of successor)) (successors state)
  <-> may_become state nxt = true.
Proof.
  unfold may_become. rewrite list_elem_of_In, in_flat_map, existsb_exists.
  split.
  - intros (cls & Hcls & Hin). exists cls. split; [done|].
    apply in_map_iff in Hin as (k & Hname & Hk).
    apply declared_name_inj in Hname as <-. by apply elem_of_members_of, list_elem_of_In.
  - intros (cls & Hcls & Hsub). exists cls. split; [done|].
    apply in_map, list_elem_of_In. by apply elem_of_members_of.
Qed.

(** The SQL edge test decides exactly what [may_become] decides. *)
Lemma sql_edges_may_become (previous following : K) :
  sql_edges previous following = may_become previous following.
Proof.
  apply eq_true_iff_eq. rewrite <- elem_of_targets. unfold sql_edges, transition_table.
  rewrite existsb_exists. split.
  - intros (row & Hrow & Htest). apply filter_In in Hrow as [Hrow _].
    apply in_map_iff in Hrow as (k & <- & _). simpl in Htest. bools.
    match goal with H : declared_name _ = declared_name _ |- _ =>
      apply declared_name_inj in H as -> end.
    done.
  - intros Htarget. eexists. split.
    + apply filter_In. split.
      * apply in_map, list_elem_of_In, (family_members_complete previous).
      * simpl. by destruct (flat_map _ _); [apply elem_of_nil in Htarget|].
    + simpl. by rewrite !bool_decide_eq_true_2.
Qed.

(** A closed name belongs to a state with no way out. *)
Lemma is_closed_spec (k : K) :
  is_closed k = true <-> forall nxt, may_become k nxt = false.
Proof.
  unfold is_closed, closed_names, transition_table. rewrite bool_decide_eq_true.
  rewrite list_elem_of_In, in_map_iff. split.
  - intros (row & Hname & Hrow) nxt. apply filter_In in Hrow as [Hrow Hnil].
    apply in_map_iff in Hrow as (k' & <- & _). simpl in *.
    apply declared_name_inj in Hname as ->.
    destruct (may_become k nxt) eqn:E; [|done]. apply elem_of_targets in E.
    by destruct (flat_map _ _); [apply elem_of_nil in E|].
  - intros Hnone. eexists. split; [|apply filter_In; split;
      [apply in_map, list_elem_of_In, (family_members_complete k)|]]; [done|].
    simpl. destruct (flat_map _ (successors k)) as [|name names] eqn:E; [done|].
    assert (Hin : name ∈ name :: names) by apply list_elem_of_here.
    rewrite <- E in Hin.
    apply list_elem_of_In, in_flat_map in Hin as (cls & Hcls & Hin).
    apply in_map_iff in Hin as (nxt & <- & Hnxt).
    specialize (Hnone nxt). unfold may_become in Hnone.
    assert (existsb (issubclass nxt) (successors k) = true) as Htrue; [|congruence].
    apply existsb_exists. exists cls. split; [done|].
    by apply elem_of_members_of, list_elem_of_In.
Qed.

Lemma terminal_may_not_leave (k nxt : K) :
  has_capability k Terminal = true -> may_become k nxt = false.
Proof. intros Hterm. unfold may_become. by rewrite terminal_closed. Qed.
End family_facts.

(** Decides the laws of a concrete finite family. *)
Ltac family_laws :=
  constructor;
  [ intros []; repeat first [apply list_elem_of_here | apply list_elem_of_further]
  | intros [] []; simpl; intros ?; first [reflexivity | discriminate]
  | intros []; vm_compute; intros; first [reflexivity | discriminate] ].
