(* ===== verification/WakePolicy.v ===== *)
(** * Wake policies, engagements and recipient decisions

    Models [wake_policy.py]: how a delivered message may wake one recipient
    ([WakePolicy]), the engagement a policy mints for an execution, and the frozen
    per-recipient decision with its wire row.  A wire row is a string-keyed dict. *)

From stdpp Require Import base gmap strings list.
From Stdlib Require Import ZArith Lia Ascii.
From S2P Require Import Prelude Contracts Lifecycle.

(** ** Vocabulary *)

Inductive MessageAudience : Type := DIRECT | MENTIONED | COLLECTIVE.

#[export] Instance MessageAudience_eq_dec : EqDecision MessageAudience.
Proof. solve_decision. Defined.

Definition audience_value (a : MessageAudience) : string :=
  match a with DIRECT => "direct" | MENTIONED => "mentioned" | COLLECTIVE => "collective" end.

(** [MessageAudience(value)]: an unknown value is refused by the enum. *)
Definition audience_named (value : string) : outcome MessageAudience :=
  if bool_decide (value = "direct") then Ok DIRECT
  else if bool_decide (value = "mentioned") then Ok MENTIONED
  else if bool_decide (value = "collective") then Ok COLLECTIVE
  else Err (ValueError "not a valid MessageAudience").

Inductive NoWakeReason : Type := UNMENTIONED_OBSERVER.

#[export] Instance NoWakeReason_eq_dec : EqDecision NoWakeReason.
Proof. solve_decision. Defined.

Definition no_wake_reason_value (r : NoWakeReason) : string := "unmentioned_observer".

Definition no_wake_reason_named (value : string) : outcome NoWakeReason :=
  if bool_decide (value = "unmentioned_observer") then Ok UNMENTIONED_OBSERVER
  else Err (ValueError "not a valid NoWakeReason").

Inductive WakePolicy : Type := PassiveWake | BoundedTriageWake | FullWake.

#[export] Instance WakePolicy_eq_dec : EqDecision WakePolicy.
Proof. solve_decision. Defined.

(** Declared names: the class name without its [Wake] affix. *)
Definition wake_name (p : WakePolicy) : string :=
  match p with
  | PassiveWake => "passive" | BoundedTriageWake => "bounded_triage" | FullWake => "full"
  end.

(** [WakePolicy.member_named(name)()] *)
Definition wake_named (name : string) : outcome WakePolicy :=
  if bool_decide (name = "passive") then Ok PassiveWake
  else if bool_decide (name = "bounded_triage") then Ok BoundedTriageWake
  else if bool_decide (name = "full") then Ok FullWake
  else Err (ValueError "Unknown WakePolicy name").

(** [policy.items_with(Active, ...)] is nonempty *)
Definition wake_active (p : WakePolicy) : bool :=
  match p with PassiveWake => false | BoundedTriageWake | FullWake => true end.

(** The [triage] class variable. *)
Definition wake_triage (p : WakePolicy) : bool :=
  match p with BoundedTriageWake => true | _ => false end.

(** ** Engagements *)

Inductive EngagementKind : Type := FullEngagement | BoundedTriageEngagement.

#[export] Instance EngagementKind_eq_dec : EqDecision EngagementKind.
Proof. solve_decision. Defined.

Definition engagement_name (k : EngagementKind) : string :=
  match k with FullEngagement => "full" | BoundedTriageEngagement => "bounded_triage" end.

Definition engagement_verdict (k : EngagementKind) : option string :=
  match k with FullEngagement => None | BoundedTriageEngagement => Some "engage" end.

Record Engagement : Type := mkEngagement {
  engagement_kind : EngagementKind;
  engagement_execution_id : string;
  engagement_target : string;
}.

#[export] Instance Engagement_eq_dec : EqDecision Engagement.
Proof. solve_decision. Defined.

(** [Engagement.__post_init__]; Python calls it with whatever the caller had, so a
    missing execution or target ([None]) is refused like an empty one. *)
Definition engagement (k : EngagementKind) (execution_id target : option string)
    : outcome Engagement :=
  match execution_id, target with
  | Some e, Some t =>
      _ ← refuse (bool_decide (e = "") || bool_decide (t = ""))
          (IntegrityViolationError "engaged claim requires execution and exact target");
      Ok (mkEngagement k e t)
  | _, _ => Err (IntegrityViolationError "engaged claim requires execution and exact target")
  end.

Definition engagement_type (p : WakePolicy) : outcome EngagementKind :=
  match p with
  | PassiveWake => Err (IntegrityViolationError "passive claim cannot engage")
  | BoundedTriageWake => Ok BoundedTriageEngagement
  | FullWake => Ok FullEngagement
  end.

Definition engage (p : WakePolicy) (execution_id target : option string) : outcome Engagement :=
  kind ← engagement_type p;
  engagement kind execution_id target.

(** [Engagement.mode]: the active policy whose engagement type is this class. *)
Definition engagement_mode (k : EngagementKind) : WakePolicy :=
  match List.find (fun p => match engagement_type p with
                            | Ok k' => bool_decide (k' = k) | Err _ => false end)
                  (List.filter wake_active [PassiveWake; BoundedTriageWake; FullWake]) with
  | Some p => p
  | None => PassiveWake
  end.

(** ** Recipient decisions *)

Inductive RecipientDecision : Type :=
| NoWakeDecision (recipient : string) (reason : NoWakeReason)
| WakeDecision (recipient : string) (audience : MessageAudience) (wake_mode : WakePolicy).

#[export] Instance RecipientDecision_eq_dec : EqDecision RecipientDecision.
Proof. solve_decision. Defined.

Definition decision_recipient (d : RecipientDecision) : string :=
  match d with NoWakeDecision r _ | WakeDecision r _ _ => r end.

Definition decision_wake_policy (d : RecipientDecision) : WakePolicy :=
  match d with NoWakeDecision _ _ => PassiveWake | WakeDecision _ _ mode => mode end.

Definition claim_decisions (d : RecipientDecision) : list RecipientDecision :=
  match d with NoWakeDecision _ _ => [] | WakeDecision _ _ _ => [d] end.

Definition candidate_wake_mode (d : RecipientDecision) : option WakePolicy :=
  match d with NoWakeDecision _ _ => None | WakeDecision _ _ mode => Some mode end.

Definition decision_to_wire (d : RecipientDecision) : gmap string string :=
  match d with
  | NoWakeDecision recipient reason =>
      {[ "recipient_lookup" := recipient; "no_wake" := no_wake_reason_value reason ]}
  | WakeDecision recipient audience mode =>
      {[ "recipient_lookup" := recipient; "audience" := audience_value audience;
         "wake_mode" := wake_name mode ]}
  end.

(** [HexDigits.spells]: exactly [digits] lowercase hexadecimal characters. *)
Definition is_hex_digit (c : ascii) : bool :=
  let n := nat_of_ascii c in
  ((48 <=? n)%nat && (n <=? 57)%nat) || ((97 <=? n)%nat && (n <=? 102)%nat).

Fixpoint all_hex (s : string) : bool :=
  match s with EmptyString => true | String c rest => is_hex_digit c && all_hex rest end.

Definition hex_spells (digits : nat) (s : string) : bool :=
  bool_decide (String.length s = digits) && all_hex s.

(** [FieldCodec.decode(ThreadLookup, value)]: a 128-bit identity in hex. *)
Definition decode_thread_lookup (value : string) : outcome string :=
  _ ← require (hex_spells 32 value) (MalformedRecord "Id128Text is spelled [0-9a-f]{32}");
  Ok value.

Definition no_wake_from_wire (row : gmap string string) : outcome RecipientDecision :=
  match row !! "recipient_lookup", row !! "no_wake" with
  | Some lookup, Some reason =>
      recipient ← decode_thread_lookup lookup;
      reason ← no_wake_reason_named reason;
      Ok (NoWakeDecision recipient reason)
  | _, _ => Err (IntegrityViolationError "A no-wake decision row is incomplete.")
  end.

Definition wake_from_wire (row : gmap string string) : outcome RecipientDecision :=
  match row !! "recipient_lookup", row !! "audience", row !! "wake_mode" with
  | Some lookup, Some audience, Some mode =>
      recipient ← decode_thread_lookup lookup;
      audience ← audience_named audience;
      mode ← wake_named mode;
      Ok (WakeDecision recipient audience mode)
  | _, _, _ => Err (IntegrityViolationError "A wake decision row is incomplete.")
  end.

(** [RecipientDecision.from_wire]: exactly one member's marker key is in the row. *)
Definition decision_from_wire (row : gmap string string) : outcome RecipientDecision :=
  match row !! "no_wake", row !! "wake_mode" with
  | Some _, None => no_wake_from_wire row
  | None, Some _ => wake_from_wire row
  | _, _ => Err (ValueError "expected exactly one recipient decision marker")
  end.

(** ** Facts *)

Lemma engagement_ok k execution_id target e :
  engagement k execution_id target = Ok e <->
  exists i t, execution_id = Some i /\ target = Some t /\ i <> "" /\ t <> "" /\
              e = mkEngagement k i t.
Proof.
  unfold engagement. split.
  - destruct execution_id as [i|]; [|done]. destruct target as [t|]; [|done].
    intros H. ok_inv. bools. exists i, t. repeat split; auto.
  - intros (i & t & -> & -> & Hi & Ht & ->).
    by rewrite !bool_decide_eq_false_2 by done.
Qed.

Lemma engagement_mode_type p k : engagement_type p = Ok k -> engagement_mode k = p.
Proof. destruct p; intros; simplify_eq/=; reflexivity. Qed.

Lemma engage_ok p execution_id target e :
  engage p execution_id target = Ok e <->
  wake_active p = true /\ engagement_mode (engagement_kind e) = p /\
  execution_id = Some (engagement_execution_id e) /\ target = Some (engagement_target e) /\
  engagement_execution_id e <> "" /\ engagement_target e <> "".
Proof.
  unfold engage. split.
  - intros H. ok_inv.
    match goal with Ht : engagement_type p = Ok _, He : engagement _ _ _ = Ok _ |- _ =>
      pose proof (engagement_mode_type _ _ Ht); apply engagement_ok in He;
      destruct He as (i & t & -> & -> & ? & ? & ->); destruct p; simplify_eq/=; repeat split; auto end.
  - destruct e as [k i t]; simpl. intros (Hactive & Hmode & -> & -> & Hi & Ht).
    apply bind_ok_inv. exists k. split.
    + subst p. by destruct k.
    + apply engagement_ok. eauto 10.
Qed.

(** Parsing the wire form of a recipient decision yields that decision. *)
Lemma decision_wire_roundtrip (d : RecipientDecision) :
  hex_spells 32 (decision_recipient d) = true ->
  decision_from_wire (decision_to_wire d) = Ok d.
Proof.
  intros Hspell. unfold decision_from_wire.
  destruct d as [recipient []|recipient audience mode]; simpl in Hspell; simpl.
  - unfold no_wake_from_wire. simplify_map_eq.
    unfold decode_thread_lookup. rewrite Hspell. reflexivity.
  - unfold wake_from_wire. simplify_map_eq.
    unfold decode_thread_lookup. rewrite Hspell. by destruct audience, mode.
Qed.
