(* ===== verification/AssignmentStates.v ===== *)
(** * Assignment (wake claim) states

    Models [assignment_states.py]: the nine states of one recipient's claim on one
    message, what each carries, the preengagement transitions a store may record,
    and the steps a harness outside Core may prove. *)

From stdpp Require Import base gmap strings list.
From Stdlib Require Import ZArith Lia.
From S2P Require Import Prelude Contracts Lifecycle WakePolicy.

(** ** The family *)

Inductive AssignmentKind : Type :=
| PassiveKind | TriagePendingKind | FullPendingKind | IgnoredKind | EngagedKind
| CompletedKind | DeferredKind | DeliveredKind | FailedKind.

#[export] Instance AssignmentKind_eq_dec : EqDecision AssignmentKind.
Proof. solve_decision. Defined.

Definition assignment_name (k : AssignmentKind) : string :=
  match k with
  | PassiveKind => "passive" | TriagePendingKind => "triage_pending"
  | FullPendingKind => "full_pending" | IgnoredKind => "ignored" | EngagedKind => "engaged"
  | CompletedKind => "completed" | DeferredKind => "deferred" | DeliveredKind => "delivered"
  | FailedKind => "failed"
  end.

Definition assignment_capabilities (k : AssignmentKind) : list Capability :=
  match k with
  | PassiveKind | IgnoredKind | DeliveredKind => [Terminal]
  | TriagePendingKind | FullPendingKind => [Pending]
  | EngagedKind => []
  | CompletedKind => [Complete; Terminal]
  | DeferredKind => [Deferred]
  | FailedKind => [Failed; Terminal]
  end.

Definition assignment_successors (k : AssignmentKind) : list AssignmentKind :=
  match k with
  | TriagePendingKind => [IgnoredKind; EngagedKind; DeferredKind; FailedKind]
  | FullPendingKind => [EngagedKind; DeferredKind; FailedKind]
  | EngagedKind => [CompletedKind; DeferredKind; FailedKind]
  | DeferredKind => [TriagePendingKind; FullPendingKind; EngagedKind; DeliveredKind; FailedKind]
  | PassiveKind | IgnoredKind | CompletedKind | DeliveredKind | FailedKind => []
  end.

#[export] Instance assignment_family : LifecycleFamily AssignmentKind := {|
  family_members := [PassiveKind; TriagePendingKind; FullPendingKind; IgnoredKind; EngagedKind;
                     CompletedKind; DeferredKind; DeliveredKind; FailedKind];
  declared_name := assignment_name;
  capabilities := assignment_capabilities;
  successor_class := AssignmentKind;
  issubclass k cls := bool_decide (k = cls);
  successors := assignment_successors;
|}.

#[export] Instance assignment_family_laws : LifecycleLaws AssignmentKind.
Proof. family_laws. Qed.

(** ** States and their data *)

(** [PendingDecision | Engagement] *)
Inductive AssignmentDecision : Type :=
| PendingDecision (mode : WakePolicy)
| EngagementDecision (e : Engagement).

#[export] Instance AssignmentDecision_eq_dec : EqDecision AssignmentDecision.
Proof. solve_decision. Defined.

(** [PendingDecision.__post_init__] *)
Definition pending_decision (mode : WakePolicy) : outcome AssignmentDecision :=
  _ ← require (wake_active mode)
      (IntegrityViolationError "passive decision cannot be deferred or failed");
  Ok (PendingDecision mode).

Inductive AssignmentState : Type :=
| PassiveAssignment
| TriagePendingAssignment
| FullPendingAssignment
| IgnoredAssignment
| EngagedAssignment (decision : Engagement)
| CompletedAssignment (decision : Engagement)
| DeferredAssignment (decision : AssignmentDecision)
| DeliveredAssignment (decision : AssignmentDecision)
| FailedAssignment (decision : AssignmentDecision).

#[export] Instance AssignmentState_eq_dec : EqDecision AssignmentState.
Proof. solve_decision. Defined.

(** [type(state)] *)
Definition assignment_kind (s : AssignmentState) : AssignmentKind :=
  match s with
  | PassiveAssignment => PassiveKind | TriagePendingAssignment => TriagePendingKind
  | FullPendingAssignment => FullPendingKind | IgnoredAssignment => IgnoredKind
  | EngagedAssignment _ => EngagedKind | CompletedAssignment _ => CompletedKind
  | DeferredAssignment _ => DeferredKind | DeliveredAssignment _ => DeliveredKind
  | FailedAssignment _ => FailedKind
  end.

Definition decision_mode (d : AssignmentDecision) : WakePolicy :=
  match d with PendingDecision mode => mode
             | EngagementDecision e => engagement_mode (engagement_kind e) end.

Definition assignment_mode (s : AssignmentState) : WakePolicy :=
  match s with
  | PassiveAssignment => PassiveWake
  | TriagePendingAssignment | IgnoredAssignment => BoundedTriageWake
  | FullPendingAssignment => FullWake
  | EngagedAssignment e | CompletedAssignment e => engagement_mode (engagement_kind e)
  | DeferredAssignment d | DeliveredAssignment d | FailedAssignment d => decision_mode d
  end.

Definition decision_verdict (d : AssignmentDecision) : option string :=
  match d with PendingDecision _ => None
             | EngagementDecision e => engagement_verdict (engagement_kind e) end.

Definition assignment_verdict (s : AssignmentState) : option string :=
  match s with
  | PassiveAssignment | TriagePendingAssignment | FullPendingAssignment => None
  | IgnoredAssignment => Some "ignore"
  | EngagedAssignment e | CompletedAssignment e => engagement_verdict (engagement_kind e)
  | DeferredAssignment d | DeliveredAssignment d | FailedAssignment d => decision_verdict d
  end.

Definition decision_engagement (d : AssignmentDecision) : option Engagement :=
  match d with PendingDecision _ => None | EngagementDecision e => Some e end.

Definition assignment_engagement (s : AssignmentState) : option Engagement :=
  match s with
  | PassiveAssignment | TriagePendingAssignment | FullPendingAssignment | IgnoredAssignment => None
  | EngagedAssignment e | CompletedAssignment e => Some e
  | DeferredAssignment d | DeliveredAssignment d | FailedAssignment d => decision_engagement d
  end.

Definition assignment_execution_id (s : AssignmentState) : option string :=
  engagement_execution_id <$> assignment_engagement s.

Definition assignment_exact_target (s : AssignmentState) : option string :=
  engagement_target <$> assignment_engagement s.

(** What the constructors of the state classes accept. *)
Definition engagement_wf (e : Engagement) : bool :=
  negb (bool_decide (engagement_execution_id e = "")) && negb (bool_decide (engagement_target e = "")).

Definition decision_wf (d : AssignmentDecision) : bool :=
  match d with PendingDecision mode => wake_active mode | EngagementDecision e => engagement_wf e end.

Definition assignment_wf (s : AssignmentState) : bool :=
  match s with
  | PassiveAssignment | TriagePendingAssignment | FullPendingAssignment | IgnoredAssignment => true
  | EngagedAssignment e | CompletedAssignment e => engagement_wf e
  | DeferredAssignment d | FailedAssignment d => decision_wf d
  | DeliveredAssignment d =>
      match d with PendingDecision mode => wake_active mode | EngagementDecision _ => false end
  end.

(** ** Building a state from its stored columns *)

(** [InterruptedAssignment.build]'s decision *)
Definition interrupted_decision (mode : WakePolicy) (execution_id target : option string)
    : outcome AssignmentDecision :=
  match execution_id with
  | None => pending_decision mode
  | Some _ => e ← engage mode execution_id target; Ok (EngagementDecision e)
  end.

(** [cls.build(mode, execution_id, target)] *)
Definition assignment_build (cls : AssignmentKind) (mode : WakePolicy)
    (execution_id target : option string) : outcome AssignmentState :=
  match cls with
  | PassiveKind => Ok PassiveAssignment
  | TriagePendingKind => Ok TriagePendingAssignment
  | FullPendingKind => Ok FullPendingAssignment
  | IgnoredKind => Ok IgnoredAssignment
  | EngagedKind => e ← engage mode execution_id target; Ok (EngagedAssignment e)
  | CompletedKind => e ← engage mode execution_id target; Ok (CompletedAssignment e)
  | DeferredKind => d ← interrupted_decision mode execution_id target; Ok (DeferredAssignment d)
  | DeliveredKind => d ← pending_decision mode; Ok (DeliveredAssignment d)
  | FailedKind => d ← interrupted_decision mode execution_id target; Ok (FailedAssignment d)
  end.

(** [cls.load(mode, verdict, execution_id, target)] *)
Definition assignment_load (cls : AssignmentKind) (mode : WakePolicy) (verdict : option string)
    (execution_id target : option string) : outcome AssignmentState :=
  state ← assignment_build cls mode execution_id target;
  _ ← require (bool_decide ((assignment_mode state, assignment_verdict state,
                             assignment_execution_id state) = (mode, verdict, execution_id)))
      (IntegrityViolationError "claim decision relation is inconsistent");
  _ ← require (bool_decide (assignment_exact_target state = target))
      (IntegrityViolationError "claim decision target is inconsistent");
  Ok state.

(** [WakePolicy.initial_state()()] *)
Definition initial_state (p : WakePolicy) : AssignmentKind :=
  match p with
  | PassiveWake => PassiveKind
  | BoundedTriageWake => TriagePendingKind
  | FullWake => FullPendingKind
  end.

(** The states whose constructor takes no data: [initial_state()()]. *)
Definition initial_assignment (p : WakePolicy) : AssignmentState :=
  match p with
  | PassiveWake => PassiveAssignment
  | BoundedTriageWake => TriagePendingAssignment
  | FullWake => FullPendingAssignment
  end.

(** ** Preengagement *)

(** [disposition.build_preengagement(mode)]; only a [PreengagementTarget] builds one. *)
Definition build_preengagement (disposition : AssignmentKind) (mode : WakePolicy)
    : outcome AssignmentState :=
  match disposition with
  | TriagePendingKind | FullPendingKind | IgnoredKind | DeferredKind | DeliveredKind | FailedKind =>
      assignment_build disposition mode None None
  | PassiveKind | EngagedKind | CompletedKind =>
      Err (IdentityConflict "preengagement transition is not declared")
  end.

Definition preengagement (s : AssignmentState) (disposition : AssignmentKind)
    : outcome AssignmentState :=
  _ ← refuse (match assignment_execution_id s with Some _ => true | None => false end
              || negb (bool_decide (disposition ∈ assignment_successors (assignment_kind s))))
      (IdentityConflict "preengagement transition is not declared");
  after ← build_preengagement disposition (assignment_mode s);
  _ ← refuse (negb (bool_decide (assignment_mode after = assignment_mode s)))
      (IdentityConflict "preengagement cannot change frozen wake policy");
  Ok after.

(** ** What a harness outside Core may prove *)

Definition harness_handoff (s : AssignmentState) : list AssignmentKind :=
  match s with
  | TriagePendingAssignment | FullPendingAssignment => [DeferredKind]
  | _ => []
  end.

Definition harness_delivery (s : AssignmentState) : list AssignmentKind :=
  match s with
  | TriagePendingAssignment | FullPendingAssignment => [DeferredKind; DeliveredKind]
  | DeferredAssignment _ => [DeliveredKind]
  | _ => []
  end.

(** ** Requirements a caller states *)

Definition require_engagement (s : AssignmentState) : outcome Engagement :=
  match s with
  | EngagedAssignment e => Ok e
  | _ => Err (IdentityConflict "wake assignment is not engaged")
  end.

Definition require_completion (s : AssignmentState) : outcome Engagement :=
  match s with
  | CompletedAssignment e => Ok e
  | _ => Err (IdentityConflict "wake assignment is not completed")
  end.

Definition require_engageable (s : AssignmentState) : outcome unit :=
  match s with
  | TriagePendingAssignment | FullPendingAssignment | DeferredAssignment _ => Ok tt
  | _ => Err (IdentityConflict "claim cannot engage this execution")
  end.

(** [AssignmentState.requires_selected_triage], the base method *)
Definition base_requires_selected_triage (s : AssignmentState) : outcome bool :=
  _ ← refuse (wake_triage (assignment_mode s))
      (IdentityConflict "pending claim wake decision is not executable");
  Ok false.

Definition requires_selected_triage (s : AssignmentState) : outcome bool :=
  match s with
  | TriagePendingAssignment => Ok true
  | DeferredAssignment d =>
      match assignment_execution_id s with
      | Some _ => Ok false
      | None => base_requires_selected_triage s
      end
  | _ => base_requires_selected_triage s
  end.

(** ** The SQL columns generated from a stored state *)

(** [mode_expression]: a literal, or the tag found in the stored decision. *)
Definition sql_assignment_mode (s : AssignmentState) : string :=
  match s with
  | PassiveAssignment => wake_name PassiveWake
  | TriagePendingAssignment | IgnoredAssignment => wake_name BoundedTriageWake
  | FullPendingAssignment => wake_name FullWake
  | EngagedAssignment e | CompletedAssignment e => engagement_name (engagement_kind e)
  | DeferredAssignment d | DeliveredAssignment d | FailedAssignment d =>
      match d with
      | PendingDecision mode => wake_name mode
      | EngagementDecision e => engagement_name (engagement_kind e)
      end
  end.

(** [binding_expression], the CHECK on the stored binding columns. *)
Definition assignment_binding (s : AssignmentState) : bool :=
  let execution_id := assignment_execution_id s in
  let exact_target := assignment_exact_target s in
  let unbound := bool_decide (execution_id = None) && bool_decide (exact_target = None) in
  let bound := negb (bool_decide (execution_id = None)) && negb (bool_decide (exact_target = None)) in
  match assignment_kind s with
  | EngagedKind | CompletedKind => bound
  | DeferredKind | FailedKind =>
      bool_decide (sql_assignment_mode s ∈
                   map wake_name (List.filter wake_active [PassiveWake; BoundedTriageWake; FullWake]))
      && (unbound || bound)
  | PassiveKind | TriagePendingKind | FullPendingKind | IgnoredKind | DeliveredKind => unbound
  end.

(** [selection_predicate(PendingNotification, ...)] with its extension: what a wake
    pass may select for execution. *)
Definition pending_selection (s : AssignmentState) : bool :=
  match s with
  | TriagePendingAssignment | FullPendingAssignment => true
  | DeferredAssignment _ => negb (bool_decide (assignment_execution_id s = None))
  | _ => false
  end.

(** ** Facts *)

Lemma pending_decision_ok mode d :
  pending_decision mode = Ok d <-> wake_active mode = true /\ d = PendingDecision mode.
Proof.
  unfold pending_decision. destruct (wake_active mode); simpl; split; try done.
  - by intros [= <-].
  - by intros [_ ->].
  - by intros [? _].
Qed.

Lemma wake_name_inj : Inj (=) (=) wake_name.
Proof. intros [] []; done. Qed.

(** The tag SQLite extracts names the policy Python computes. *)
Lemma sql_assignment_mode_name s : sql_assignment_mode s = wake_name (assignment_mode s).
Proof. destruct s as [| | | |[[] ? ?]|[[] ? ?]|[|[[] ? ?]]|[|[[] ? ?]]|[|[[] ? ?]]]; done. Qed.

Lemma engagement_wf_engage e :
  engagement_wf e = true ->
  engage (engagement_mode (engagement_kind e)) (Some (engagement_execution_id e))
         (Some (engagement_target e)) = Ok e.
Proof.
  intros Hwf. unfold engagement_wf in Hwf. bools.
  apply engage_ok. destruct e as [[] i t]; simpl in *; repeat split; auto.
Qed.

Lemma engage_wf p i t e : engage p i t = Ok e -> engagement_wf e = true.
Proof.
  intros (_ & _ & _ & _ & Hi & Ht)%engage_ok. unfold engagement_wf.
  by rewrite !bool_decide_eq_false_2.
Qed.

Lemma interrupted_decision_roundtrip d :
  decision_wf d = true ->
  interrupted_decision (decision_mode d) (engagement_execution_id <$> decision_engagement d)
    (engagement_target <$> decision_engagement d) = Ok d.
Proof.
  destruct d as [mode|e]; simpl; intros Hwf.
  - by apply pending_decision_ok.
  - by rewrite engagement_wf_engage.
Qed.

Lemma interrupted_decision_wf mode i t d :
  interrupted_decision mode i t = Ok d -> decision_wf d = true.
Proof.
  unfold interrupted_decision. destruct i; intros H; ok_inv; simpl.
  - eauto using engage_wf.
  - by apply pending_decision_ok in H as [? ->].
Qed.

(** Every state a constructor accepts is rebuilt from its own columns. *)
Lemma assignment_build_roundtrip s :
  assignment_wf s = true ->
  assignment_build (assignment_kind s) (assignment_mode s) (assignment_execution_id s)
    (assignment_exact_target s) = Ok s.
Proof.
  unfold assignment_execution_id, assignment_exact_target.
  destruct s as [| | | |e|e|d|d|d]; simpl; intros Hwf; try reflexivity.
  - by rewrite engagement_wf_engage.
  - by rewrite engagement_wf_engage.
  - by rewrite interrupted_decision_roundtrip.
  - destruct d; [|done]. simpl. unfold pending_decision. by rewrite Hwf.
  - by rewrite interrupted_decision_roundtrip.
Qed.

Lemma assignment_build_wf cls mode i t s :
  assignment_build cls mode i t = Ok s -> assignment_wf s = true /\ assignment_kind s = cls.
Proof.
  destruct cls; simpl; intros H; ok_inv; simpl; split; try done;
    eauto using engage_wf, interrupted_decision_wf.
  match goal with Hp : pending_decision _ = Ok _ |- _ =>
    apply pending_decision_ok in Hp as [? ->] end. done.
Qed.

(** Building at a mode keeps it, for every class that may carry that mode. *)
Lemma interrupted_decision_mode mode i t d :
  interrupted_decision mode i t = Ok d -> decision_mode d = mode.
Proof.
  unfold interrupted_decision. destruct i; intros H; ok_inv; simpl.
  - match goal with He : engage _ _ _ = Ok _ |- _ => by apply engage_ok in He as (_ & ? & _) end.
  - by apply pending_decision_ok in H as [? ->].
Qed.

Lemma assignment_build_bound cls mode i t s :
  cls = EngagedKind \/ cls = CompletedKind \/ cls = DeferredKind \/ cls = FailedKind ->
  assignment_build cls mode (Some i) t = Ok s ->
  assignment_mode s = mode /\ assignment_execution_id s = Some i /\ assignment_exact_target s = t.
Proof.
  unfold assignment_execution_id, assignment_exact_target.
  intros Hcls H. destruct Hcls as [->|[->|[->| ->]]]; simpl in H; ok_inv; simpl;
    match goal with He : engage _ _ _ = Ok _ |- _ =>
      apply engage_ok in He as (_ & ? & ? & ? & _) end; simplify_eq; auto.
Qed.

Lemma build_preengagement_unbound k mode s :
  build_preengagement k mode = Ok s ->
  assignment_wf s = true /\ assignment_kind s = k /\ assignment_engagement s = None.
Proof.
  destruct k; simpl; intros H; ok_inv; simpl; repeat split; try done;
    match goal with Hp : pending_decision _ = Ok _ |- _ =>
      apply pending_decision_ok in Hp as [? ->] end; done.
Qed.

(** What a recorded preengagement step guarantees, and when it is refused. *)
Lemma preengagement_ok s k s' :
  preengagement s k = Ok s' <->
  assignment_execution_id s = None /\ k ∈ assignment_successors (assignment_kind s) /\
  build_preengagement k (assignment_mode s) = Ok s' /\ assignment_mode s' = assignment_mode s.
Proof.
  unfold preengagement. split.
  - intros H. ok_inv. bools. destruct (assignment_execution_id s) eqn:E; [done|]. auto.
  - intros (-> & Hin & -> & Hmode). simpl.
    rewrite (bool_decide_eq_true_2 _ Hin). simpl.
    by rewrite (bool_decide_eq_true_2 _ Hmode).
Qed.

(** C40: Loading the columns of a well-formed assignment state yields that state. *)
Theorem assignment_load_roundtrip (s : AssignmentState) :
  assignment_wf s = true ->
  assignment_load (assignment_kind s) (assignment_mode s) (assignment_verdict s)
    (assignment_execution_id s) (assignment_exact_target s) = Ok s.
Proof.
  intros Hwf. unfold assignment_load. rewrite assignment_build_roundtrip by done. simpl.
  by rewrite !bool_decide_eq_true_2.
Qed.

(** A pre-engagement step applies to unbound claims only, follows a declared edge,
    yields the requested well-formed state, and keeps the frozen wake policy and the absence
    of an execution. *)
Theorem preengagement_frozen_policy (s s' : AssignmentState) (k : AssignmentKind) :
  preengagement s k = Ok s' ->
  assignment_kind s' = k /\ assignment_wf s' = true /\
  assignment_mode s' = assignment_mode s /\
  assignment_execution_id s = None /\ assignment_execution_id s' = None /\
  may_become (assignment_kind s) k = true /\
  assignment_binding s' = true.
Proof.
  intros (Hfree & Hin & Hbuild & Hmode)%preengagement_ok.
  pose proof (build_preengagement_unbound _ _ _ Hbuild) as (Hwf & Hkind & Hnone).
  assert (Hfree' : assignment_execution_id s' = None)
    by (unfold assignment_execution_id; by rewrite Hnone).
  repeat split; auto.
  - unfold may_become. apply existsb_exists. exists k. split.
    + by apply list_elem_of_In.
    + simpl. by apply bool_decide_eq_true.
  - destruct s' as [| | | |?|?|[[]|]|[[]|]|[[]|]]; simpl in *; done.
Qed.

(** ** Harness deliveries *)

(** The steps a claim walks, each from the state the previous one left *)
Fixpoint walk_states (steps : list AssignmentKind) (s : AssignmentState) : outcome AssignmentState :=
  match steps with
  | [] => Ok s
  | k :: rest => after ← preengagement s k; walk_states rest after
  end.

(** The steps a claim declares for harness delivery reach the delivered state with the
    same policy where the claim is not bound to an execution; where it is bound, the walk is
    always refused. *)
Theorem harness_delivery_needs_unbound (s : AssignmentState) :
  assignment_wf s = true -> harness_delivery s <> [] ->
  (assignment_execution_id s = None ->
     exists after, walk_states (harness_delivery s) s = Ok after /\
       assignment_kind after = DeliveredKind /\ assignment_mode after = assignment_mode s) /\
  (forall e, assignment_execution_id s = Some e ->
     walk_states (harness_delivery s) s
     = Err (IdentityConflict "preengagement transition is not declared")).
Proof.
  intros Hwf Hsteps.
  destruct s as [| | | |e|e|[mode|e]|d|d]; try done; split; simpl; intros; try done.
  - by eexists.
  - by eexists.
  - simpl in Hwf. destruct mode; try done; by eexists.
Qed.
