(* ===== verification/ResponseStates.v ===== *)
(** * Response obligation states

    Models [obligation_states.py]: the six states of one reply-route obligation,
    which of them may carry a frozen publication intent, and the rules tying an
    obligation to its intent and its acknowledgement. *)

From stdpp Require Import base gmap strings list.
From Stdlib Require Import ZArith Lia.
From S2P Require Import Prelude Contracts Lifecycle.

Inductive ResponseKind : Type :=
| PendingResponseKind | PublishingResponseKind | DeferredResponseKind
| PublishedResponseKind | SilentResponseKind | FailedResponseKind.

#[export] Instance ResponseKind_eq_dec : EqDecision ResponseKind.
Proof. solve_decision. Defined.

Definition response_name (k : ResponseKind) : string :=
  match k with
  | PendingResponseKind => "pending" | PublishingResponseKind => "publishing"
  | DeferredResponseKind => "deferred" | PublishedResponseKind => "published"
  | SilentResponseKind => "silent" | FailedResponseKind => "failed"
  end.

Definition response_capabilities (k : ResponseKind) : list Capability :=
  match k with
  | PendingResponseKind => [Pending]
  | PublishingResponseKind => []
  | DeferredResponseKind => [Deferred]
  | PublishedResponseKind | SilentResponseKind => [Successful]
  | FailedResponseKind => [Failed; Terminal]
  end.

Definition response_successors (k : ResponseKind) : list ResponseKind :=
  match k with
  | PendingResponseKind =>
      [PublishingResponseKind; DeferredResponseKind; SilentResponseKind; FailedResponseKind]
  | PublishingResponseKind => [PublishedResponseKind; FailedResponseKind]
  | DeferredResponseKind => [PendingResponseKind; SilentResponseKind; FailedResponseKind]
  | PublishedResponseKind | SilentResponseKind | FailedResponseKind => []
  end.

#[export] Instance response_family : LifecycleFamily ResponseKind := {|
  family_members := [PendingResponseKind; PublishingResponseKind; DeferredResponseKind;
                     PublishedResponseKind; SilentResponseKind; FailedResponseKind];
  declared_name := response_name;
  capabilities := response_capabilities;
  successor_class := ResponseKind;
  issubclass k cls := bool_decide (k = cls);
  successors := response_successors;
|}.

#[export] Instance response_family_laws : LifecycleLaws ResponseKind.
Proof. family_laws. Qed.

(** ** States *)

Inductive ResponseState : Type :=
| PendingResponse
| PublishingResponse
| DeferredResponse
| PublishedResponse (message_id : string) (seq : Z)
| SilentResponse
| FailedResponse.

#[export] Instance ResponseState_eq_dec : EqDecision ResponseState.
Proof. solve_decision. Defined.

Definition response_kind (s : ResponseState) : ResponseKind :=
  match s with
  | PendingResponse => PendingResponseKind | PublishingResponse => PublishingResponseKind
  | DeferredResponse => DeferredResponseKind | PublishedResponse _ _ => PublishedResponseKind
  | SilentResponse => SilentResponseKind | FailedResponse => FailedResponseKind
  end.

(** [PublishedResponse.__post_init__] *)
Definition published_response (message_id : string) (seq : Z) : outcome ResponseState :=
  _ ← refuse (seq <=? 0) (ValueError "receipt_seq must be positive");
  Ok (PublishedResponse message_id seq).

Definition response_wf (s : ResponseState) : bool :=
  match s with PublishedResponse _ seq => 0 <? seq | _ => true end.

(** Class variables of the family *)
Definition response_retryable (k : ResponseKind) : bool :=
  match k with PendingResponseKind | DeferredResponseKind => true | _ => false end.

Definition response_allows_intent (k : ResponseKind) : bool :=
  match k with
  | PublishingResponseKind | PublishedResponseKind | FailedResponseKind => true
  | _ => false
  end.

Definition response_requires_intent (k : ResponseKind) : bool :=
  match k with PublishingResponseKind | PublishedResponseKind => true | _ => false end.

Definition response_published (k : ResponseKind) : bool :=
  match k with PublishedResponseKind => true | _ => false end.

Definition response_publishing (k : ResponseKind) : bool :=
  match k with PublishingResponseKind => true | _ => false end.

Definition response_successful (k : ResponseKind) : bool := has_capability k Successful.

(** Projections; [Unpublished()] is [None]. *)
Definition published_message_id (s : ResponseState) : option string :=
  match s with PublishedResponse message_id _ => Some message_id | _ => None end.

Definition publication_seq (s : ResponseState) : option Z :=
  match s with PublishedResponse _ seq => Some seq | _ => None end.

Definition published_reference (s : ResponseState) : outcome MessageReference :=
  match s with
  | PublishedResponse message_id seq => Ok (mkMessageReference seq message_id)
  | _ => Err (IntegrityViolationError "only published obligations have an acknowledgement")
  end.

(** Requirements a caller states *)
Definition require_preparation (s : ResponseState) : outcome unit :=
  match s with
  | PendingResponse => Ok tt
  | _ => Err (IdentityConflict "response obligation cannot prepare a new intent")
  end.

Definition require_existing_preparation (s : ResponseState) : outcome unit :=
  match s with
  | PublishingResponse => Ok tt
  | _ => Err (IdentityConflict "prepared response envelope conflicts")
  end.

Definition require_publishing (s : ResponseState) : outcome unit :=
  match s with
  | PublishingResponse => Ok tt
  | _ => Err (IdentityConflict "no frozen publishing intent for current owner")
  end.

Definition require_nonpublication (s : ResponseState) : outcome unit :=
  require (response_retryable (response_kind s))
    (IdentityConflict "wire completion requires nonpublication obligation").

(** ** The obligation against its intent and acknowledgement

    An intent is read through the one field it is compared by, its expected message
    id; an acknowledgement through its message id and sequence. *)

Definition validate_acknowledgement (s : ResponseState) (acknowledgement : option (string * Z))
    : outcome unit :=
  match s with
  | PublishedResponse message_id seq =>
      match acknowledgement with
      | None => Err (IntegrityViolationError "publication acknowledgement exists iff published")
      | Some ack =>
          refuse (negb (bool_decide (ack = (message_id, seq))))
            (IntegrityViolationError "obligation acknowledgement does not match publication")
      end
  | _ =>
      match acknowledgement with
      | None => Ok tt
      | Some _ => Err (IntegrityViolationError "publication acknowledgement exists iff published")
      end
  end.

(** [PublicationIntents.validate_acknowledgement] *)
Definition intent_validate_acknowledgement (expected_message_id : string) (ack : string * Z)
    : outcome unit :=
  refuse (negb (bool_decide (ack.1 = expected_message_id)))
    (IntegrityViolationError "acknowledgement envelope does not match frozen intent").

Definition validate_publication (s : ResponseState) (intent : option string)
    (acknowledgement : option (string * Z)) : outcome unit :=
  _ ← refuse (negb (bool_decide (intent = None)) && negb (response_allows_intent (response_kind s)))
      (IntegrityViolationError "publication intent is invalid for obligation state");
  _ ← refuse (bool_decide (intent = None) && response_requires_intent (response_kind s))
      (IntegrityViolationError "publishing and published obligations require intent");
  _ ← validate_acknowledgement s acknowledgement;
  match acknowledgement, intent with
  | Some ack, Some expected => intent_validate_acknowledgement expected ack
  | _, _ => Ok tt
  end.

(** ** Facts *)

Lemma response_successful_states k :
  response_successful k = true <-> k = PublishedResponseKind \/ k = SilentResponseKind.
Proof. destruct k; vm_compute; split; intros HH; try done; auto; destruct HH; done. Qed.

(** A consistent obligation is published exactly when it has an acknowledgement,
    and that acknowledgement names the intent's message. *)
Lemma validate_publication_ok s intent ack :
  validate_publication s intent ack = Ok tt <->
  (match intent with Some _ => response_allows_intent (response_kind s) = true
                   | None => response_requires_intent (response_kind s) = false end) /\
  match ack with
  | Some (message_id, seq) => s = PublishedResponse message_id seq /\ intent = Some message_id
  | None => response_published (response_kind s) = false
  end.
Proof.
  unfold validate_publication, validate_acknowledgement, intent_validate_acknowledgement.
  destruct s as [| | |i n| |], intent as [expected|], ack as [[m k]|]; simpl;
    try (split; [done | intros [? ?]; congruence]);
    try (split; [done | intros [? [? ?]]; congruence]);
    try (split; [auto | done]).
  repeat case_bool_decide; simplify_eq/=; split; try done; intros [? [? ?]]; simplify_eq.
Qed.
