(* ===== verification/AttemptStates.v ===== *)
(** * Attempt phases

    Models [attempt_states.py] and the [ReplayFact] flags of
    [coordination/tables/attempts.py]: the live phases of one attempt with its lease
    and finality facts, its three terminal outcomes, and the observation rule
    ([AttemptState.observed]) every recorded phase passes through. *)

From stdpp Require Import base gmap strings list.
From Stdlib Require Import ZArith Lia.
From S2P Require Import Prelude Contracts Lifecycle.

(** ** Replay facts: a set of observed effects as a bit mask *)

Definition ReplayFact_NONE : Z := 0.
Definition ASSISTANT_OUTPUT : Z := Z.shiftl 1 0.
Definition THINKING_OUTPUT : Z := Z.shiftl 1 1.
Definition TOOL_CALL_STARTED : Z := Z.shiftl 1 2.
Definition TOOL_EXECUTED : Z := Z.shiftl 1 3.
Definition INPUT_FORWARDED : Z := Z.shiftl 1 4.
Definition COMPACTION : Z := Z.shiftl 1 5.
Definition PROJECT_EFFECTS : Z := Z.shiftl 1 6.
Definition WIRE_EFFECTS : Z := Z.shiftl 1 7.
Definition EXTENSION_EFFECTS : Z := Z.shiftl 1 8.
Definition UNKNOWN_EFFECTS : Z := Z.shiftl 1 9.

(** [sum(fact.value for fact in ReplayFact)] *)
Definition APPROVED_REPLAY_FACT_MASK : Z :=
  foldr Z.add 0 [ASSISTANT_OUTPUT; THINKING_OUTPUT; TOOL_CALL_STARTED; TOOL_EXECUTED;
                 INPUT_FORWARDED; COMPACTION; PROJECT_EFFECTS; WIRE_EFFECTS;
                 EXTENSION_EFFECTS; UNKNOWN_EFFECTS].

(** ** The family *)

Inductive LivePhase : Type :=
| PromptStarting | PromptAccepted | ModelRunning | ToolRunning | Compaction
| Settling | ModelStalled | Aborting | Retrying | ProviderUnavailable.

Inductive TerminalPhase : Type := Succeeded | AttemptFailed | UnknownOutcome.

Inductive AttemptKind : Type :=
| LiveKind (p : LivePhase)
| TerminalKind (t : TerminalPhase).

#[export] Instance LivePhase_eq_dec : EqDecision LivePhase.
Proof. solve_decision. Defined.
#[export] Instance TerminalPhase_eq_dec : EqDecision TerminalPhase.
Proof. solve_decision. Defined.
#[export] Instance AttemptKind_eq_dec : EqDecision AttemptKind.
Proof. solve_decision. Defined.

Definition attempt_name (k : AttemptKind) : string :=
  match k with
  | LiveKind PromptStarting => "prompt_starting"
  | LiveKind PromptAccepted => "prompt_accepted"
  | LiveKind ModelRunning => "model_running"
  | LiveKind ToolRunning => "tool_running"
  | LiveKind Compaction => "compaction"
  | LiveKind Settling => "settling"
  | LiveKind ModelStalled => "model_stalled"
  | LiveKind Aborting => "aborting"
  | LiveKind Retrying => "retrying"
  | LiveKind ProviderUnavailable => "provider_unavailable"
  | TerminalKind Succeeded => "succeeded"
  | TerminalKind AttemptFailed => "attempt_failed"
  | TerminalKind UnknownOutcome => "unknown_outcome"
  end.

Definition attempt_capabilities (k : AttemptKind) : list Capability :=
  match k with
  | LiveKind _ => []
  | TerminalKind Succeeded => [Terminal]
  | TerminalKind AttemptFailed | TerminalKind UnknownOutcome => [Failed; Terminal]
  end.

(** The classes [successors()] names: a concrete phase, or the abstract
    [UnsuccessfulTerminal] with its two members. *)
Inductive AttemptClass : Type :=
| PhaseClass (p : LivePhase)
| SucceededClass
| UnsuccessfulTerminal.

Definition attempt_issubclass (k : AttemptKind) (cls : AttemptClass) : bool :=
  match cls with
  | PhaseClass p => bool_decide (k = LiveKind p)
  | SucceededClass => bool_decide (k = TerminalKind Succeeded)
  | UnsuccessfulTerminal =>
      bool_decide (k = TerminalKind AttemptFailed) || bool_decide (k = TerminalKind UnknownOutcome)
  end.

Definition attempt_successors (k : AttemptKind) : list AttemptClass :=
  match k with
  | LiveKind PromptStarting =>
      [UnsuccessfulTerminal; PhaseClass PromptAccepted; PhaseClass ProviderUnavailable]
  | LiveKind PromptAccepted =>
      [PhaseClass Aborting; UnsuccessfulTerminal; PhaseClass ModelRunning; PhaseClass ModelStalled]
  | LiveKind ModelRunning =>
      [PhaseClass Aborting; UnsuccessfulTerminal; PhaseClass Compaction; PhaseClass ModelStalled;
       PhaseClass ProviderUnavailable; PhaseClass Settling; PhaseClass ToolRunning]
  | LiveKind ToolRunning =>
      [PhaseClass Aborting; UnsuccessfulTerminal; PhaseClass ModelRunning; PhaseClass Settling]
  | LiveKind Compaction =>
      [PhaseClass Aborting; UnsuccessfulTerminal; PhaseClass ModelRunning; PhaseClass ModelStalled]
  | LiveKind Settling => [UnsuccessfulTerminal; SucceededClass]
  | LiveKind ModelStalled => [PhaseClass Aborting; UnsuccessfulTerminal]
  | LiveKind Aborting => [UnsuccessfulTerminal; PhaseClass Retrying]
  | LiveKind Retrying =>
      [UnsuccessfulTerminal; PhaseClass ModelRunning; PhaseClass ModelStalled;
       PhaseClass PromptStarting; PhaseClass ProviderUnavailable]
  | LiveKind ProviderUnavailable => [UnsuccessfulTerminal; PhaseClass Retrying]
  | TerminalKind _ => []
  end.

#[export] Instance attempt_family : LifecycleFamily AttemptKind := {|
  family_members := map LiveKind [PromptStarting; PromptAccepted; ModelRunning; ToolRunning;
                                  Compaction; Settling; ModelStalled; Aborting; Retrying;
                                  ProviderUnavailable]
                    ++ map TerminalKind [Succeeded; AttemptFailed; UnknownOutcome];
  declared_name := attempt_name;
  capabilities := attempt_capabilities;
  successor_class := AttemptClass;
  issubclass := attempt_issubclass;
  successors := attempt_successors;
|}.

#[export] Instance attempt_family_laws : LifecycleLaws AttemptKind.
Proof.
  constructor.
  - intros [[]|[]]; simpl; repeat first [apply list_elem_of_here | apply list_elem_of_further].
  - intros [[]|[]] [[]|[]]; simpl; intros ?; first [reflexivity | discriminate].
  - intros [[]|[]]; vm_compute; intros; first [reflexivity | discriminate].
Qed.

(** ** States *)

Inductive AttemptState : Type :=
| LiveAttempt (phase : LivePhase) (lease_expires_at_ms : Z) (backend_done process_dead : bool)
| TerminalAttempt (outcome : TerminalPhase).

#[export] Instance AttemptState_eq_dec : EqDecision AttemptState.
Proof. solve_decision. Defined.

Definition attempt_kind (s : AttemptState) : AttemptKind :=
  match s with LiveAttempt p _ _ _ => LiveKind p | TerminalAttempt t => TerminalKind t end.

(** [LiveAttempt.__post_init__] *)
Definition live_attempt (p : LivePhase) (lease : option Z) (done dead : bool)
    : outcome AttemptState :=
  match lease with
  | Some expires =>
      _ ← refuse (expires <? 0) (IntegrityViolationError "active attempt requires a lease");
      Ok (LiveAttempt p expires done dead)
  | None => Err (IntegrityViolationError "active attempt requires a lease")
  end.

Definition attempt_lease (s : AttemptState) : option Z :=
  match s with LiveAttempt _ lease _ _ => Some lease | TerminalAttempt _ => None end.

Definition attempt_backend_done (s : AttemptState) : bool :=
  match s with LiveAttempt _ _ done _ => done | TerminalAttempt _ => true end.

Definition attempt_process_dead (s : AttemptState) : bool :=
  match s with LiveAttempt _ _ _ dead => dead | TerminalAttempt _ => true end.

Definition attempt_wf (s : AttemptState) : bool :=
  match s with LiveAttempt _ lease _ _ => 0 <=? lease | TerminalAttempt _ => true end.

(** [cls.load(lease, done, dead)] *)
Definition attempt_load (cls : AttemptKind) (lease : option Z) (done dead : bool)
    : outcome AttemptState :=
  match cls with
  | LiveKind p => live_attempt p lease done dead
  | TerminalKind t =>
      _ ← require (bool_decide (lease = None))
          (IntegrityViolationError "terminal attempt must release lease");
      _ ← require (done && dead)
          (IntegrityViolationError "terminal attempt requires final completion/death");
      Ok (TerminalAttempt t)
  end.

(** Class variables and properties *)
Definition permits_retry (s : AttemptState) : bool :=
  match s with TerminalAttempt AttemptFailed => true | _ => false end.

Definition accepts_active_execution (s : AttemptState) : bool :=
  match s with LiveAttempt _ _ _ _ => true | TerminalAttempt _ => false end.

Definition attempt_succeeded (s : AttemptState) : bool :=
  match s with TerminalAttempt Succeeded => true | _ => false end.

Definition preserve_check (s : AttemptState) : bool :=
  match s with
  | LiveAttempt _ _ _ _ | TerminalAttempt UnknownOutcome => true
  | TerminalAttempt _ => false
  end.

Definition allows_tool_claim (p : LivePhase) : bool :=
  match p with
  | PromptStarting | PromptAccepted | ModelRunning | ToolRunning => true
  | _ => false
  end.

Definition tool_claim_open (s : AttemptState) : bool :=
  match s with
  | LiveAttempt p _ done dead => allows_tool_claim p && negb (done || dead)
  | TerminalAttempt _ => false
  end.

(** A [ContextualAttempt]: the tracked model context was observed. *)
Definition has_model_context (p : LivePhase) : bool :=
  match p with
  | ModelRunning | ToolRunning | Compaction | Settling => true
  | _ => false
  end.

Definition publication_ready (s : AttemptState) : bool :=
  match s with
  | LiveAttempt Settling _ done dead => done && dead
  | _ => false
  end.

Definition attempt_require_final_response (s : AttemptState) : outcome unit :=
  match s with
  | LiveAttempt Settling _ _ _ => require (publication_ready s) ResponseClaimBlocked
  | _ => Err ResponseClaimBlocked
  end.

Definition require_silent_completion (s : AttemptState) : outcome unit :=
  match s with
  | LiveAttempt Settling _ _ _ => Ok tt
  | _ => Err (IdentityConflict "silent completion requires settling phase")
  end.

Definition replay_contribution (t : TerminalPhase) : Z :=
  match t with UnknownOutcome => UNKNOWN_EFFECTS | _ => ReplayFact_NONE end.

Definition release_wording (t : TerminalPhase) : string :=
  match t with
  | Succeeded => "Released files after a completed turn"
  | AttemptFailed => "Released files after a failed turn"
  | UnknownOutcome => "Released files after a turn with unknown outcome; read them before editing"
  end.

(** ** Recording an observation *)

Definition observed (s : AttemptState) (phase : AttemptKind) (backend_done process_dead progress : bool)
    : outcome AttemptState :=
  _ ← refuse (negb (bool_decide (phase = attempt_kind s))
              && negb (existsb (attempt_issubclass phase) (attempt_successors (attempt_kind s))))
      (IdentityConflict "attempt phase edge is not declared");
  let done' := attempt_backend_done s || backend_done in
  let dead' := attempt_process_dead s || process_dead in
  let new_final_fact :=
    negb (bool_decide ((attempt_backend_done s, attempt_process_dead s) = (done', dead'))) in
  _ ← refuse ((attempt_process_dead s || attempt_backend_done s)
              && (negb (bool_decide (phase = attempt_kind s)) || progress || negb new_final_fact))
      (RecoveryBlocked "final backend evidence forbids further phase or progress");
  attempt_load phase (attempt_lease s) done' dead'.

(** ** Facts *)

Lemma live_attempt_ok p lease done dead s :
  live_attempt p lease done dead = Ok s <->
  exists expires, lease = Some expires /\ 0 <= expires /\ s = LiveAttempt p expires done dead.
Proof.
  unfold live_attempt. split.
  - destruct lease as [expires|]; [|done]. intros H. ok_inv. bools. eauto.
  - intros (expires & -> & Hle & ->). unfold refuse.
    by rewrite (proj2 (Z.ltb_ge expires 0)).
Qed.

(** An observation of a live attempt succeeds exactly when it follows a declared edge
    to a live phase and does not contradict recorded finality. *)
Lemma observed_live_ok p lease done dead phase d x progress s' :
  observed (LiveAttempt p lease done dead) phase d x progress = Ok s' <->
  0 <= lease /\
  exists p', phase = LiveKind p' /\
    (p' = p \/ may_become (LiveKind p) (LiveKind p') = true) /\
    (done || dead = true -> p' = p /\ progress = false /\ (done || d, dead || x) <> (done, dead)) /\
    s' = LiveAttempt p' lease (done || d) (dead || x).
Proof.
  unfold observed. split.
  - intros H. apply bind_ok_inv in H as (u1 & H1 & H). apply bind_ok_inv in H as (u2 & H2 & H).
    apply refuse_ok in H1, H2. destruct phase as [p'|t]; [|simpl in H; ok_inv].
    unfold attempt_load in H.
    apply live_attempt_ok in H as (expires & [= <-] & Hle & ->). simpl in *.
    split; [done|]. exists p'. split_and!; auto.
    + destruct (decide (p' = p)) as [->|Hne]; [by left|]. right.
      rewrite bool_decide_eq_false_2 in H1 by congruence. simpl in H1.
      by apply negb_false_iff in H1.
    + intros Hfinal. rewrite (orb_comm dead done), Hfinal in H2. simpl in H2.
      apply orb_false_iff in H2 as [[H2 H3]%orb_false_iff H4].
      apply negb_false_iff, bool_decide_eq_true in H2. injection H2 as ->.
      split_and!; [done|done|]. intros Heq. rewrite Heq in H4.
      by rewrite bool_decide_eq_true_2 in H4.
  - intros (Hle & p' & -> & Hedge & Hfinal & ->).
    apply bind_ok_inv. exists tt. split; [|apply bind_ok_inv; exists tt; split].
    + apply refuse_ok. destruct Hedge as [->|Hedge].
      * by rewrite bool_decide_eq_true_2.
      * apply andb_false_iff. right. apply negb_false_iff. exact Hedge.
    + apply refuse_ok. cbn [attempt_process_dead attempt_backend_done attempt_kind].
      rewrite (orb_comm dead done). destruct (done || dead) eqn:E; [|done].
      destruct (Hfinal eq_refl) as (-> & -> & Hne).
      rewrite (bool_decide_eq_true_2 (LiveKind p = LiveKind p)) by done.
      by rewrite bool_decide_eq_false_2 by congruence.
    + apply live_attempt_ok. eauto.
Qed.

(** ** The life of one attempt *)

(** A recorded observation, or a settlement of an attempt whose backend is done and dead *)
Inductive attempt_step : AttemptState -> AttemptState -> Prop :=
| step_observed s phase d x progress s' :
    observed s phase d x progress = Ok s' -> attempt_step s s'
| step_settled p lease t :
    may_become (LiveKind p) (TerminalKind t) = true ->
    attempt_step (LiveAttempt p lease true true) (TerminalAttempt t).

(** What the past of an attempt fixes about its future *)
Definition attempt_after (s s' : AttemptState) : Prop :=
  (attempt_backend_done s = true -> attempt_backend_done s' = true) /\
  (attempt_process_dead s = true -> attempt_process_dead s' = true) /\
  (forall lease, attempt_lease s' = Some lease -> attempt_lease s = Some lease) /\
  (forall t, s = TerminalAttempt t -> s' = s) /\
  (attempt_backend_done s || attempt_process_dead s = true ->
   attempt_kind s' = attempt_kind s \/ exists t, s' = TerminalAttempt t).

Lemma observed_terminal t phase d x progress s' : observed (TerminalAttempt t) phase d x progress <> Ok s'.
Proof.
  unfold observed. intros H. apply bind_ok_inv in H as (u1 & _ & H). apply bind_ok_inv in H as ([] & H & _).
  apply refuse_ok in H. simpl in H. rewrite orb_false_iff in H. destruct H as [_ H]. done.
Qed.

Lemma attempt_step_after s s' : attempt_step s s' -> attempt_after s s'.
Proof.
  intros [s0 phase d x progress s1 H|p lease t _].
  - destruct s0 as [p lease done dead|t]; [|by apply observed_terminal in H].
    apply observed_live_ok in H as (_ & p' & _ & _ & Hfinal & ->). unfold attempt_after. simpl.
    split_and!; try done; try (by intros ->; simpl; rewrite ?orb_true_l).
    intros Hdone. destruct (Hfinal Hdone) as (-> & _). by left.
  - unfold attempt_after. simpl. split_and!; try done. intros _. right. by exists t.
Qed.

Lemma attempt_after_trans s1 s2 s3 : attempt_after s1 s2 -> attempt_after s2 s3 -> attempt_after s1 s3.
Proof.
  intros (A1 & A2 & A3 & A4 & A5) (B1 & B2 & B3 & B4 & B5). split_and!; auto.
  - intros t ->. rewrite (A4 t eq_refl) in *. by apply (B4 t).
  - intros Hdone. assert (Hdone2 : attempt_backend_done s2 || attempt_process_dead s2 = true).
    { apply orb_true_iff in Hdone as [?|?]; apply orb_true_iff; auto. }
    destruct (A5 Hdone) as [Hk|[t Ht]], (B5 Hdone2) as [Hk'|[t' Ht']]; eauto.
    + left. congruence.
    + right. exists t. by rewrite (B4 t Ht).
Qed.

Lemma attempt_steps_after s s' : rtc attempt_step s s' -> attempt_after s s'.
Proof.
  intros Hs. induction Hs as [s|s1 s2 s3 H12 _ IH].
  - unfold attempt_after. split_and!; auto.
  - by eapply attempt_after_trans; [apply attempt_step_after|].
Qed.

(** Settlement may fail an attempt out of any live phase, and succeed out of one. *)
Lemma live_may_fail p : may_become (LiveKind p) (TerminalKind AttemptFailed) = true.
Proof. by destruct p. Qed.
Lemma success_follows_settling p :
  may_become (LiveKind p) (TerminalKind Succeeded) = true -> p = Settling.
Proof. by destruct p. Qed.

(** Along any sequence of observations and settlements of an attempt, backend
    completion and process death are never forgotten, the lease is never extended, a
    terminal attempt never changes, and after either sign of the end the phase is frozen
    until settlement. *)
Theorem attempt_finality_is_monotone (s s' : AttemptState) : rtc attempt_step s s' -> attempt_after s s'.
Proof. apply attempt_steps_after. Qed.

(** From every live phase an attempt can be failed, and it can only succeed through the
    settling phase with backend completion and process death both observed. *)
Theorem live_attempt_can_end (p : LivePhase) (lease : Z) (done dead : bool) :
  0 <= lease ->
  rtc attempt_step (LiveAttempt p lease done dead) (TerminalAttempt AttemptFailed) /\
  (rtc attempt_step (LiveAttempt p lease done dead) (TerminalAttempt Succeeded) ->
   rtc attempt_step (LiveAttempt p lease done dead) (LiveAttempt Settling lease true true)).
Proof.
  intros Hlease. split.
  - trans (LiveAttempt p lease true true); [|apply rtc_once, step_settled, live_may_fail].
    destruct (decide (done = true /\ dead = true)) as [[-> ->]|Hopen]; [apply rtc_refl|].
    apply rtc_once, (step_observed _ (LiveKind p) true true false), observed_live_ok.
    split; [done|]. exists p. rewrite !orb_true_r. split_and!; auto.
    intros _. split_and!; auto. intros [= <- <-]. by apply Hopen.
  - intros [[=]|(s & Hs & Hlast)]%rtc_inv_r. remember (TerminalAttempt Succeeded) as last eqn:El.
    destruct Hlast as [s phase d x progress s' H|q l t Hedge]; subst.
    + destruct s as [q l b y|t]; [|by apply observed_terminal in H].
      by apply observed_live_ok in H as (_ & ? & _ & _ & _ & [=]).
    + injection El as ->. apply success_follows_settling in Hedge as ->.
      destruct (attempt_steps_after _ _ Hs) as (_ & _ & Hl & _). simpl in Hl.
      specialize (Hl l eq_refl). by injection Hl as ->.
Qed.
