(* ===== verification/ExecutionStates.v ===== *)
(** * Execution states

    Models [execution_states.py]: the six states of one execution, which attempt each
    refers to, the ordinal rule a transition obeys, the retry budget, and the claim
    disposition each state implies.  [ordinal_violation] is the condition the
    [OrdinalTransitions] trigger of [storage/typed_table.py] renders from the same
    rules. *)

From stdpp Require Import base gmap strings list.
From Stdlib Require Import ZArith Lia.
From S2P Require Import Prelude Contracts Lifecycle AssignmentStates AttemptStates.

(** ** The family *)

Inductive ExecutionKind : Type :=
| QueuedExec | PendingExec | ActiveExec | CompletedExec | DeferredExec | FailedExec.

#[export] Instance ExecutionKind_eq_dec : EqDecision ExecutionKind.
Proof. solve_decision. Defined.

Definition execution_name (k : ExecutionKind) : string :=
  match k with
  | QueuedExec => "queued" | PendingExec => "pending" | ActiveExec => "active"
  | CompletedExec => "completed" | DeferredExec => "deferred" | FailedExec => "failed"
  end.

Definition execution_capabilities (k : ExecutionKind) : list Capability :=
  match k with
  | QueuedExec | PendingExec | DeferredExec => []
  | ActiveExec => [Active]
  | CompletedExec => [Complete; Terminal]
  | FailedExec => [Failed; Terminal]
  end.

Definition execution_successors (k : ExecutionKind) : list ExecutionKind :=
  match k with
  | QueuedExec => [PendingExec; FailedExec]
  | PendingExec => [ActiveExec; DeferredExec; FailedExec]
  | ActiveExec => [DeferredExec; CompletedExec; FailedExec]
  | DeferredExec => [ActiveExec; FailedExec]
  | CompletedExec | FailedExec => []
  end.

#[export] Instance execution_family : LifecycleFamily ExecutionKind := {|
  family_members := [QueuedExec; PendingExec; ActiveExec; CompletedExec; DeferredExec; FailedExec];
  declared_name := execution_name;
  capabilities := execution_capabilities;
  successor_class := ExecutionKind;
  issubclass k cls := bool_decide (k = cls);
  successors := execution_successors;
|}.

#[export] Instance execution_family_laws : LifecycleLaws ExecutionKind.
Proof. family_laws. Qed.

(** ** States *)

Inductive ExecutionState : Type :=
| QueuedExecution
| PendingExecution
| ActiveExecution (ordinal : Z)
| CompletedExecution (ordinal : Z)
| DeferredExecution (ordinal : option Z)
| FailedExecution (ordinal : option Z).

#[export] Instance ExecutionState_eq_dec : EqDecision ExecutionState.
Proof. solve_decision. Defined.

Definition execution_kind (s : ExecutionState) : ExecutionKind :=
  match s with
  | QueuedExecution => QueuedExec | PendingExecution => PendingExec
  | ActiveExecution _ => ActiveExec | CompletedExecution _ => CompletedExec
  | DeferredExecution _ => DeferredExec | FailedExecution _ => FailedExec
  end.

(** [AttemptExecution.__post_init__] *)
Definition attempt_execution (make : Z -> ExecutionState) (ordinal : Z) : outcome ExecutionState :=
  _ ← refuse (ordinal <? 1) (IntegrityViolationError "active/completed execution requires an attempt");
  Ok (make ordinal).

Definition current_attempt_ordinal (s : ExecutionState) : option Z :=
  match s with
  | QueuedExecution | PendingExecution => None
  | ActiveExecution ordinal | CompletedExecution ordinal => Some ordinal
  | DeferredExecution ordinal | FailedExecution ordinal => ordinal
  end.

(** [cls.load(ordinal)] *)
Definition execution_load (cls : ExecutionKind) (ordinal : option Z) : outcome ExecutionState :=
  let attempted (make : Z -> ExecutionState) :=
    match ordinal with
    | Some o => attempt_execution make o
    | None => Err (IntegrityViolationError "active/completed execution requires an attempt")
    end in
  let unstarted (s : ExecutionState) :=
    match ordinal with
    | None => Ok s
    | Some _ => Err (IntegrityViolationError "unstarted execution cannot reference an attempt")
    end in
  match cls with
  | QueuedExec => unstarted QueuedExecution
  | PendingExec => unstarted PendingExecution
  | ActiveExec => attempted ActiveExecution
  | CompletedExec => attempted CompletedExecution
  | DeferredExec => Ok (DeferredExecution ordinal)
  | FailedExec => Ok (FailedExecution ordinal)
  end.

(** Class variables *)
Definition exec_retry (k : ExecutionKind) : bool := bool_decide (k = DeferredExec).
Definition exec_queued (k : ExecutionKind) : bool := bool_decide (k = QueuedExec).
Definition exec_unstarted (k : ExecutionKind) : bool :=
  match k with QueuedExec | PendingExec => true | _ => false end.

(** Mixin membership: [EngagedExecution], [StartsAttempt], [AttemptExecution] and
    [InterruptedExecution]. *)
Definition engaged_execution (k : ExecutionKind) : bool :=
  match k with QueuedExec | PendingExec | ActiveExec => true | _ => false end.
Definition starts_attempt (k : ExecutionKind) : bool :=
  match k with PendingExec | DeferredExec => true | _ => false end.
Definition requires_attempt (k : ExecutionKind) : bool :=
  match k with ActiveExec | CompletedExec => true | _ => false end.
Definition interrupted_execution (k : ExecutionKind) : bool :=
  match k with DeferredExec | FailedExec => true | _ => false end.

(** The assignment state coupled to an execution state. *)
Definition assignment_state (k : ExecutionKind) : AssignmentKind :=
  match k with
  | QueuedExec | PendingExec | ActiveExec => EngagedKind
  | CompletedExec => CompletedKind
  | DeferredExec => DeferredKind
  | FailedExec => FailedKind
  end.

(** ** Ordinal rules *)

Record OrdinalRule : Type := mkOrdinalRule {
  increment : Z;
  predecessors : ExecutionKind -> bool;
}.

(** [PreservedOrdinal()] and [AdvancedOrdinal(StartsAttempt)] *)
Definition PreservedOrdinal : OrdinalRule := mkOrdinalRule 0 (fun _ => true).
Definition AdvancedOrdinal (predecessors : ExecutionKind -> bool) : OrdinalRule :=
  mkOrdinalRule 1 predecessors.

Definition ordinal_rule (k : ExecutionKind) : OrdinalRule :=
  match k with ActiveExec => AdvancedOrdinal starts_attempt | _ => PreservedOrdinal end.

Definition next_ordinal (rule : OrdinalRule) (previous : ExecutionState) : Z :=
  default 0 (current_attempt_ordinal previous) + increment rule.

(** Python's [n or None], SQLite's [NULLIF(n, 0)] *)
Definition nonzero (n : Z) : option Z := if n =? 0 then None else Some n.

Definition rule_accepts (rule : OrdinalRule) (following previous : ExecutionState) : bool :=
  predecessors rule (execution_kind previous)
  && bool_decide (current_attempt_ordinal following = nonzero (next_ordinal rule previous)).

Definition accepts_previous (following previous : ExecutionState) : bool :=
  rule_accepts (ordinal_rule (execution_kind following)) following previous.

Definition next_attempt_ordinal (s : ExecutionState) : Z :=
  next_ordinal (ordinal_rule ActiveExec) s.

(** The [OrdinalTransitions] trigger: one disjunct for each member of the family. *)
Definition ordinal_violation (old new : ExecutionState) : bool :=
  existsb (fun member =>
    let rule := ordinal_rule member in
    let allowed := map execution_name (List.filter (predecessors rule) family_members) in
    let expected := nonzero (default 0 (current_attempt_ordinal old) + increment rule) in
    bool_decide (execution_name (execution_kind new) = execution_name member)
    && (negb (bool_decide (execution_name (execution_kind old) ∈ allowed))
        || negb (bool_decide (current_attempt_ordinal new = expected))))
    (family_members (K := ExecutionKind)).

(** ** Requirements, budget and retry *)

Definition require_attempt_start (s : ExecutionState) : outcome unit :=
  require (starts_attempt (execution_kind s)) (IdentityConflict "execution cannot start an attempt").

Definition exec_require_final_response (s : ExecutionState) : outcome unit :=
  match s with ActiveExecution _ => Ok tt | _ => Err ResponseClaimBlocked end.

Definition validate_budget (s : ExecutionState) (maximum : Z) : outcome unit :=
  _ ← refuse (match current_attempt_ordinal s with
              | Some ordinal => negb ((1 <=? ordinal) && (ordinal <=? maximum))
              | None => false end)
      (ValueError "current ordinal exceeds budget");
  match s with
  | DeferredExecution (Some ordinal) =>
      refuse (maximum <=? ordinal)
        (IntegrityViolationError "post-attempt deferral requires retry budget")
  | _ => Ok tt
  end.

Definition has_retry_budget (s : ExecutionState) (maximum : Z) : bool :=
  match current_attempt_ordinal s with Some ordinal => ordinal <? maximum | None => false end.

Definition exec_can_retry (s : ExecutionState) (authorized : bool) (attempt : option AttemptState)
    (is_current : bool) : bool :=
  match s with
  | DeferredExecution ordinal =>
      match ordinal, attempt with
      | Some _, Some a => authorized && permits_retry a && negb is_current
      | _, _ => false
      end
  | _ => false
  end.

Definition accepts_attempt (s : ExecutionState) (phase : AttemptState) : bool :=
  match s with
  | QueuedExecution | PendingExecution => false
  | ActiveExecution _ => accepts_active_execution phase
  | CompletedExecution _ => attempt_succeeded phase
  | DeferredExecution _ | FailedExecution _ => has_capability (attempt_kind phase) Failed
  end.

(** ** Facts *)

Lemma execution_name_inj k k' : execution_name k = execution_name k' <-> k = k'.
Proof. split; [|congruence]. destruct k, k'; simpl; congruence. Qed.

Lemma allowed_names rule k :
  execution_name k ∈ map execution_name
    (List.filter (predecessors rule) (family_members (K := ExecutionKind)))
  <-> predecessors rule k = true.
Proof.
  rewrite list_elem_of_In, in_map_iff. split.
  - intros (k' & ->%execution_name_inj & [_ ?]%filter_In). done.
  - intros Hk. exists k. split; [done|]. apply filter_In. split; [|done].
    apply list_elem_of_In, (family_members_complete k).
Qed.

(** The trigger and the Python rule agree on every pair of states. *)
Lemma ordinal_violation_spec old new :
  ordinal_violation old new = negb (accepts_previous new old).
Proof.
  apply eq_true_iff_eq. unfold ordinal_violation, accepts_previous, rule_accepts.
  rewrite existsb_exists, negb_true_iff, andb_false_iff. split.
  - intros (member & _ & H). bools.
    match goal with Hn : execution_name _ = execution_name _ |- _ =>
      apply execution_name_inj in Hn as <- end.
    match goal with Ho : _ || _ = true |- _ => apply orb_true_iff in Ho as [Ho|Ho] end; bools.
    + left. apply not_true_iff_false. intros Hp%allowed_names. contradiction.
    + right. by apply bool_decide_eq_false.
  - intros H. exists (execution_kind new). split.
    { apply list_elem_of_In, (family_members_complete (execution_kind new)). }
    rewrite bool_decide_eq_true_2 by done. simpl. apply orb_true_iff.
    destruct H as [H|H]; [left|right].
    + apply negb_true_iff, bool_decide_eq_false. intros Hp%allowed_names. congruence.
    + unfold next_ordinal in H. by rewrite H.
Qed.

Lemma has_retry_budget_ok s maximum :
  has_retry_budget s maximum = true <->
  exists ordinal, current_attempt_ordinal s = Some ordinal /\ ordinal < maximum.
Proof.
  unfold has_retry_budget. destruct (current_attempt_ordinal s) as [o|].
  - rewrite Z.ltb_lt. split; [eauto | intros (? & [= ->] & ?); done].
  - split; [done | intros (? & ? & ?); done].
Qed.

Lemma validate_budget_ok s maximum :
  validate_budget s maximum = Ok tt <->
  (forall ordinal, current_attempt_ordinal s = Some ordinal ->
     1 <= ordinal <= maximum /\ (execution_kind s = DeferredExec -> ordinal < maximum)).
Proof.
  unfold validate_budget. split.
  - intros H ordinal Hcur. rewrite Hcur in H. ok_inv. bools.
    split; [lia|]. intros Hk. destruct s as [| | | |[?|]|]; simplify_eq/=. ok_inv. bools. lia.
  - intros H. destruct (current_attempt_ordinal s) as [o|] eqn:E; simpl.
    + specialize (H o eq_refl) as [[H1 H2] H3].
      rewrite (proj2 (Z.leb_le 1 o)), (proj2 (Z.leb_le o maximum)) by done. simpl.
      destruct s as [| | | |[?|]|]; simplify_eq/=; try done.
      apply refuse_ok, Z.leb_gt. by apply H3.
    + destruct s as [| | | |[?|]|]; simplify_eq/=; done.
Qed.

(** Only a start out of [pending] or [deferred] may carry a new ordinal, by exactly one. *)
Lemma accepts_previous_active ordinal previous :
  accepts_previous (ActiveExecution ordinal) previous = true <->
  starts_attempt (execution_kind previous) = true /\
  Some ordinal = nonzero (next_attempt_ordinal previous).
Proof.
  unfold accepts_previous, rule_accepts, next_attempt_ordinal. simpl.
  by rewrite andb_true_iff, bool_decide_eq_true.
Qed.

(** The trigger on attempt ordinals accepts an update of an execution exactly when the
    new state accepts the previous one and a new active state starts the next attempt of a
    state that may start one. *)
Theorem ordinal_trigger_agrees (old new : ExecutionState) :
  ordinal_violation old new = false <->
  accepts_previous new old = true /\
  (forall ordinal, new = ActiveExecution ordinal ->
     starts_attempt (execution_kind old) = true /\
     ordinal = default 0 (current_attempt_ordinal old) + 1).
Proof.
  rewrite ordinal_violation_spec, negb_false_iff. split; [|by intros [? _]].
  intros Hacc. split; [done|]. intros ordinal ->. apply accepts_previous_active in Hacc as [Hst Ho].
  split; [done|]. unfold next_attempt_ordinal, next_ordinal, nonzero in Ho. simpl in Ho.
  destruct (_ =? 0); [done|]. by injection Ho.
Qed.
