(* ===== verification/GoalStates.v ===== *)
(** * Goal decisions, generations and attempt phases

    Models the state families of autonomous goals: the stored decision about a goal
    ([goal_states.py]) with the authority a running turn captured from it
    ([goal_authority.py]), the generation of launch authority ([goal_generation.py]), the
    phase of one attempt ([goal_attempt_phase.py]) and why an attempt ended
    ([attempt_resolution.py], [turn_failure.FailedTurnResolution]). *)

From stdpp Require Import base gmap strings list.
From Stdlib Require Import ZArith Lia Ascii.
From S2P Require Import Prelude Contracts Lifecycle.

(** ** Text *)

(** [str.isspace] below code point 256 *)
Definition is_space (c : ascii) : bool :=
  let n := N_of_ascii c in
  ((9 <=? n) && (n <=? 13) || (28 <=? n) && (n <=? 32) || (n =? 133) || (n =? 160))%N.

Fixpoint lstrip (s : string) : string :=
  match s with
  | String c rest => if is_space c then lstrip rest else s
  | EmptyString => EmptyString
  end.

Fixpoint rstrip (s : string) : string :=
  match s with
  | EmptyString => EmptyString
  | String c rest =>
      let tail := rstrip rest in
      if bool_decide (tail = EmptyString) && is_space c then EmptyString else String c tail
  end.

(** [str.strip] *)
Definition strip (s : string) : string := rstrip (lstrip s).

(** [not text.strip()] *)
Definition blank (s : string) : bool := bool_decide (strip s = EmptyString).

(** ** Pauses *)

Inductive PauseSource : Type := OwnerPause | ModelPause | RuntimePause | ChokeholdPause.

#[export] Instance PauseSource_eq_dec : EqDecision PauseSource.
Proof. solve_decision. Defined.

(** [instructions/owner-pause.md] *)
Definition owner_pause_text : string :=
  "This goal was paused by the owner. Do not resume or continue it; wait for the owner to explicitly resume it using the goal controls.".

(** [PauseSource.instruction] *)
Definition pause_instruction (p : PauseSource) : option string :=
  match p with
  | OwnerPause => Some owner_pause_text
  | ChokeholdPause =>
      Some ("You ignored Tristan's vibe check, so Tristan paused this goal until you comply."
            +:+ " Do not resume or continue it; Core resumes it when your answer quotes the"
            +:+ " pattern catalog.")
  | ModelPause | RuntimePause => None
  end.

Definition lifts_on_compliance (p : PauseSource) : bool := bool_decide (p = ChokeholdPause).

(** [PauseSource.protects_pause] *)
Definition protects_pause (p : PauseSource) : bool :=
  match pause_instruction p with Some _ => true | None => false end.

(** [PauseSource.require_peer_change] *)
Definition pause_require_peer_change (p : PauseSource) : outcome unit :=
  match pause_instruction p with
  | Some instruction =>
      Err (ValueError ("A teammate cannot change this goal while it is paused: " +:+ instruction))
  | None => Ok tt
  end.

(** ** Goal decisions *)

Inductive GoalKind : Type :=
| ActiveGoalKind | PausedGoalKind | BlockedGoalKind | UnrecordedBlockGoalKind | CompletedGoalKind.

#[export] Instance GoalKind_eq_dec : EqDecision GoalKind.
Proof. solve_decision. Defined.

Definition goal_kind_name (k : GoalKind) : string :=
  match k with
  | ActiveGoalKind => "active"
  | PausedGoalKind => "paused"
  | BlockedGoalKind => "blocked"
  | UnrecordedBlockGoalKind => "unrecorded_block"
  | CompletedGoalKind => "completed"
  end.

(** [GoalState.members_with(FromOpenGoal)] *)
Definition from_open_goal : list GoalKind :=
  [ActiveGoalKind; PausedGoalKind; BlockedGoalKind; UnrecordedBlockGoalKind; CompletedGoalKind].

Definition goal_successors (k : GoalKind) : list GoalKind :=
  match k with
  | ActiveGoalKind | PausedGoalKind => from_open_goal
  | BlockedGoalKind | UnrecordedBlockGoalKind => [BlockedGoalKind]
  | CompletedGoalKind => [CompletedGoalKind]
  end.

Definition goal_capabilities (k : GoalKind) : list Capability :=
  match k with
  | ActiveGoalKind => [Active]
  | CompletedGoalKind => [Complete; Terminal]
  | _ => []
  end.

#[export] Instance goal_family : LifecycleFamily GoalKind := {|
  family_members := from_open_goal;
  declared_name := goal_kind_name;
  capabilities := goal_capabilities;
  successor_class := GoalKind;
  issubclass := fun k cls => bool_decide (k = cls);
  successors := goal_successors;
|}.

Inductive GoalState : Type :=
| ActiveGoal
| PausedGoal (source : PauseSource)
| BlockedGoal (block_reason : string)
| UnrecordedBlockGoal
| CompletedGoal.

#[export] Instance GoalState_eq_dec : EqDecision GoalState.
Proof. solve_decision. Defined.

Definition goal_kind (s : GoalState) : GoalKind :=
  match s with
  | ActiveGoal => ActiveGoalKind
  | PausedGoal _ => PausedGoalKind
  | BlockedGoal _ => BlockedGoalKind
  | UnrecordedBlockGoal => UnrecordedBlockGoalKind
  | CompletedGoal => CompletedGoalKind
  end.

(** [BlockedGoal.__post_init__] *)
Definition blocked_goal (reason : string) : outcome GoalState :=
  _ ← refuse (blank reason || negb (bool_decide (reason = strip reason)) || (1024 <? len reason))
      (ValueError "A blocked goal requires a bounded explicit reason.");
  Ok (BlockedGoal reason).

(** [GoalState.pause_source] *)
Definition pause_source (s : GoalState) : option PauseSource :=
  match s with PausedGoal p => Some p | _ => None end.

(** [GoalState.protected] *)
Definition goal_protected (s : GoalState) : bool :=
  match s with PausedGoal p => protects_pause p | _ => false end.

(** [GoalState.transition_refusal] *)
Definition transition_refusal (s : GoalState) : string :=
  match s with
  | BlockedGoal _ | UnrecordedBlockGoal => "Blocked goal requires an explicit retry."
  | CompletedGoal => "A completed goal cannot be resumed; set a new goal."
  | ActiveGoal | PausedGoal _ => "This goal cannot make that transition."
  end.

(** [GoalState.activity_refusal] *)
Definition activity_refusal (s : GoalState) : string :=
  match s with
  | BlockedGoal _ | UnrecordedBlockGoal => transition_refusal s
  | _ => default "This goal is no longer active; refresh its state."
           (p ← pause_source s; pause_instruction p)
  end.

(** [GoalState.require_model_resume] *)
Definition require_model_resume (s : GoalState) : outcome unit :=
  match s with
  | PausedGoal p =>
      match pause_instruction p with
      | Some instruction => Err (ValueError instruction)
      | None => Ok tt
      end
  | _ => Err (ValueError "This goal cannot be resumed; refresh its state.")
  end.

(** [GoalState.require_peer_change] *)
Definition require_peer_change (s : GoalState) : outcome unit :=
  match s with PausedGoal p => pause_require_peer_change p | _ => Ok tt end.

(** [GoalState.check_transition], with the override of [PausedGoal] *)
Definition check_transition (s nxt : GoalState) (owner : bool) : outcome unit :=
  _ ← require (may_become (goal_kind s) (goal_kind nxt)) (ValueError (transition_refusal s));
  match s with
  | PausedGoal p =>
      refuse (protects_pause p && negb owner) (ValueError (default "" (pause_instruction p)))
  | _ => Ok tt
  end.

(** [GoalState.continues_turn_from] *)
Definition continues_turn_from (s captured : GoalState) : bool :=
  match s with ActiveGoal => true | _ => bool_decide (s = captured) end.

(** ** The authority a running turn captured *)

Inductive GoalTurnAuthority : Type :=
| NoGoalAuthority
| GoalAuthority (goal_id : string) (state : GoalState).

#[export] Instance GoalTurnAuthority_eq_dec : EqDecision GoalTurnAuthority.
Proof. solve_decision. Defined.

(** [current.continues(captured)] *)
Definition continues (current : GoalTurnAuthority) (goal_id : string) (state : GoalState) : bool :=
  match current with
  | NoGoalAuthority => false
  | GoalAuthority id s => bool_decide (id = goal_id) && continues_turn_from s state
  end.

(** [GoalTurnAuthority.keeps_turn_under] *)
Definition keeps_turn_under (captured current : GoalTurnAuthority) : bool :=
  match captured with
  | NoGoalAuthority => bool_decide (current = captured)
  | GoalAuthority id s => continues current id s
  end.

(** ** Generations of launch authority *)

Inductive GenerationState : Type :=
| ReadyGeneration | ReservedGeneration | BlockedGeneration | CompletedGeneration | CancelledGeneration.

#[export] Instance GenerationState_eq_dec : EqDecision GenerationState.
Proof. solve_decision. Defined.

#[export] Instance generation_family : LifecycleFamily GenerationState := {|
  family_members := [ReadyGeneration; ReservedGeneration; BlockedGeneration; CompletedGeneration;
                     CancelledGeneration];
  declared_name := fun k => match k with
    | ReadyGeneration => "ready" | ReservedGeneration => "reserved" | BlockedGeneration => "blocked"
    | CompletedGeneration => "completed" | CancelledGeneration => "cancelled" end;
  capabilities := fun k => match k with
    | BlockedGeneration => [Failed] | CompletedGeneration => [Complete; Terminal]
    | CancelledGeneration => [Terminal] | _ => [] end;
  successor_class := GenerationState;
  issubclass := fun k cls => bool_decide (k = cls);
  successors := fun k => match k with
    | ReadyGeneration => [ReadyGeneration; ReservedGeneration; CancelledGeneration]
    | ReservedGeneration => [ReadyGeneration; BlockedGeneration; CompletedGeneration; CancelledGeneration]
    | BlockedGeneration => [ReadyGeneration; CancelledGeneration]
    | CompletedGeneration | CancelledGeneration => [] end;
|}.

#[export] Instance generation_family_laws : LifecycleLaws GenerationState.
Proof.
  constructor.
  - intros []; simpl; repeat first [apply list_elem_of_here | apply list_elem_of_further].
  - intros [] []; simpl; intros ?; first [reflexivity | discriminate].
  - intros []; vm_compute; intros; first [reflexivity | discriminate].
Qed.

Definition generation_ready (s : GenerationState) : bool := bool_decide (s = ReadyGeneration).

(** [GenerationState.allows_resume] *)
Definition allows_resume (s : GenerationState) (active_turn : bool) : bool :=
  match s with ReadyGeneration => true | ReservedGeneration => active_turn | _ => false end.

(** [GenerationState.validate_attempt] *)
Definition validate_attempt (s : GenerationState) (attempt_id : option string) : outcome unit :=
  match s with
  | ReadyGeneration =>
      match attempt_id with
      | None => Ok tt
      | Some _ => Err (ValueError "A value was supplied where absence is required.")
      end
  | CancelledGeneration => Ok tt
  | _ => match attempt_id with
         | Some _ => Ok tt
         | None => Err (ValueError "A required value is absent.")
         end
  end.

Definition permits_retirement_without_attempt (s : GenerationState) : bool := generation_ready s.

(** ** Attempt phases *)

Inductive GoalAttemptPhase : Type :=
| ReservedAttempt | ClaimedAttempt | FailedAttempt | SucceededAttempt | ResolvedAttempt.

#[export] Instance GoalAttemptPhase_eq_dec : EqDecision GoalAttemptPhase.
Proof. solve_decision. Defined.

#[export] Instance goal_attempt_family : LifecycleFamily GoalAttemptPhase := {|
  family_members := [ReservedAttempt; ClaimedAttempt; FailedAttempt; SucceededAttempt; ResolvedAttempt];
  declared_name := fun k => match k with
    | ReservedAttempt => "reserved" | ClaimedAttempt => "claimed" | FailedAttempt => "failed"
    | SucceededAttempt => "succeeded" | ResolvedAttempt => "resolved" end;
  capabilities := fun k => match k with
    | FailedAttempt => [Failed] | SucceededAttempt | ResolvedAttempt => [Terminal] | _ => [] end;
  successor_class := GoalAttemptPhase;
  issubclass := fun k cls => bool_decide (k = cls);
  successors := fun k => match k with
    | ReservedAttempt => [ClaimedAttempt; FailedAttempt; ResolvedAttempt]
    | ClaimedAttempt => [FailedAttempt; SucceededAttempt; ResolvedAttempt]
    | FailedAttempt => [ResolvedAttempt]
    | SucceededAttempt | ResolvedAttempt => [] end;
|}.

#[export] Instance goal_attempt_family_laws : LifecycleLaws GoalAttemptPhase.
Proof.
  constructor.
  - intros []; simpl; repeat first [apply list_elem_of_here | apply list_elem_of_further].
  - intros [] []; simpl; intros ?; first [reflexivity | discriminate].
  - intros []; vm_compute; intros; first [reflexivity | discriminate].
Qed.

Definition launched (p : GoalAttemptPhase) : bool := bool_decide (p = ClaimedAttempt).
Definition verified_progress (p : GoalAttemptPhase) : bool := bool_decide (p = SucceededAttempt).

(** [GoalAttemptPhase.require_retryable] *)
Definition require_retryable (p : GoalAttemptPhase) : outcome unit :=
  refuse (negb (bool_decide (p = FailedAttempt)))
    (UnresolvedAttemptError "Only a blocked, recorded failure may be retried explicitly.").

(** [GenerationState.permits_retirement] *)
Definition permits_retirement (s : GenerationState) (p : GoalAttemptPhase) : bool :=
  match s with
  | ReservedGeneration => may_become p FailedAttempt
  | BlockedGeneration => bool_decide (p = FailedAttempt)
  | _ => false
  end.

(** ** Decisions and resolutions *)

Inductive WorkDecision : Type :=
| RetryDecision (decision : string)
| ComplianceDecision (answer : string)
| VerifiedTurnDecision (turn : string)
| OrderDecision (order : string).

#[export] Instance WorkDecision_eq_dec : EqDecision WorkDecision.
Proof. solve_decision. Defined.

#[export] Instance WorkDecision_countable : Countable WorkDecision.
Proof.
  refine (inj_countable'
    (fun d => match d with
              | RetryDecision s => (0%nat, s) | ComplianceDecision s => (1%nat, s)
              | VerifiedTurnDecision s => (2%nat, s) | OrderDecision s => (3%nat, s) end)
    (fun p => match p.1 with
              | O => RetryDecision p.2 | 1%nat => ComplianceDecision p.2
              | 2%nat => VerifiedTurnDecision p.2 | _ => OrderDecision p.2 end) _).
  by intros [].
Defined.

Inductive AttemptResolution : Type :=
| NoResolution
| DecidedResolution (decision : WorkDecision)
| GoalCleared
| OperatorStopped
| OriginFailed
| UnverifiedLaunchRetired
| FailedTurnResolution (failure : string).

#[export] Instance AttemptResolution_eq_dec : EqDecision AttemptResolution.
Proof. solve_decision. Defined.

(** ** Facts *)

(** What a turn may still rely on: it keeps working exactly while its goal is the one it
    captured, and that goal is active or still in the state it captured. *)
Lemma keeps_turn_under_spec (id : string) (captured : GoalState) (current : GoalTurnAuthority) :
  keeps_turn_under (GoalAuthority id captured) current = true <->
  exists s, current = GoalAuthority id s /\ (s = ActiveGoal \/ s = captured).
Proof.
  destruct current as [|id' s]; simpl; [split; [done | intros (? & ? & _); done]|].
  rewrite andb_true_iff, bool_decide_eq_true. split.
  - intros [-> H]. exists s. split; [done|].
    destruct s; simpl in H; [by left|..]; right; by apply bool_decide_eq_true in H.
  - intros (s' & [= -> ->] & [->| ->]); (split; [done|]); [done|].
    destruct captured; [done|..]; by apply bool_decide_eq_true.
Qed.

Lemma check_transition_protected (p : PauseSource) (nxt : GoalState) :
  protects_pause p = true -> exists e, check_transition (PausedGoal p) nxt false = Err e.
Proof. intros Hp. unfold check_transition. destruct (may_become _ _); simpl; rewrite ?Hp; eauto. Qed.
