(* ===== verification/Rows.v ===== *)
(** * Coordinator rows

    Models the row classes of [coordination/tables/]: for each, its columns as a
    record, the checks its constructor makes ([__post_init__]), the CHECK constraints
    of its table ([*_checks]) and its generated columns.  A [lifecycle] column holds
    the state itself; SQLite's [json_extract(lifecycle, '$.kind')] is the declared name
    of its class.  [NULL] is [None].  Identity texts ([ThreadLookup], [AssignmentId],
    [MessageId]) are strings. *)

From stdpp Require Import base gmap strings list.
From Stdlib Require Import ZArith Lia.
From S2P Require Import Prelude Contracts Lifecycle WakePolicy AssignmentStates ResponseStates.
From S2P Require Import AttemptStates ExecutionStates.

(** SQLite's [length(text) BETWEEN low AND high] *)
Definition length_between (text : string) (low high : Z) : bool :=
  (low <=? len text) && (len text <=? high).

(** [reason_code IS NULL OR length(reason_code) BETWEEN 1 AND 64] *)
Definition reason_check (reason : ReasonCode) : bool :=
  match reason with NoReasonCode => true | GivenReasonCode text => length_between text 1 64 end.

(** ** participants.py *)

Record Participants : Type := mkParticipants {
  participant_lookup : string;
  committed : bool;
}.

Record OwnerGenerations : Type := mkOwnerGenerations {
  og_lookup : string;
  og_generation : Z;
}.

#[export] Instance Participants_eq_dec : EqDecision Participants.
Proof. solve_decision. Defined.
#[export] Instance OwnerGenerations_eq_dec : EqDecision OwnerGenerations.
Proof. solve_decision. Defined.

(** [OwnerGenerations.within] *)
Definition og_within (self current : OwnerGenerations) : bool :=
  bool_decide (og_lookup self = og_lookup current) && (og_generation self <=? og_generation current).

Definition owner_generation_checks (r : OwnerGenerations) : bool := 0 <? og_generation r.

(** ** executions.py: the owner's pointer *)

(** [PointerExecution] and [PointerAttempt]: the named value, or NULL while idle. *)
Record CurrentExecutions : Type := mkCurrentExecutions {
  ptr_owner : string;
  ptr_execution : option string;
  ptr_attempt : option Z;
  ptr_revision : Z;
}.

#[export] Instance CurrentExecutions_eq_dec : EqDecision CurrentExecutions.
Proof. solve_decision. Defined.

(** [PointedExecution.__post_init__] and [PointedAttempt.__post_init__] *)
Definition pointed_execution (text : string) : outcome (option string) :=
  _ ← validate_execution_id text; Ok (Some text).

Definition pointed_attempt (ordinal : Z) : outcome (option Z) :=
  _ ← refuse (ordinal <=? 0) (ValueError "pointer ordinal must be positive"); Ok (Some ordinal).

Definition pointed {A : Type} (o : option A) : bool :=
  match o with Some _ => true | None => false end.

Definition pointer_post_init (r : CurrentExecutions) : outcome unit :=
  _ ← match ptr_execution r with Some text => validate_execution_id text | None => Ok tt end;
  _ ← match ptr_attempt r with
      | Some ordinal => refuse (ordinal <=? 0) (ValueError "pointer ordinal must be positive")
      | None => Ok tt end;
  _ ← refuse (negb (eqb (pointed (ptr_execution r)) (pointed (ptr_attempt r))))
      (IntegrityViolationError "pointer execution and ordinal must pair");
  refuse (ptr_revision r <? 0) (ValueError "pointer_revision cannot be negative").

Definition pointer_checks (r : CurrentExecutions) : bool :=
  (0 <=? ptr_revision r) && eqb (negb (pointed (ptr_execution r))) (negb (pointed (ptr_attempt r))).

Definition unresolved (r : CurrentExecutions) : bool := pointed (ptr_execution r).

Definition require_idle (r : CurrentExecutions) : outcome unit :=
  refuse (unresolved r)
    (StaleFence "selected owner has an unresolved execution; new claims remain pending").

(** The generated [required_active] column *)
Definition required_active (r : CurrentExecutions) : option string :=
  match ptr_execution r with Some _ => Some "active" | None => None end.

(** ** executions.py: provenance *)

Inductive ExecutionProvenance : Type := WireOrigin | AcpOrigin | GoalOrigin | SystemOrigin.

#[export] Instance ExecutionProvenance_eq_dec : EqDecision ExecutionProvenance.
Proof. solve_decision. Defined.

(** [WireOrigin.matches_sql(column)]; the other origins are claimless. *)
Definition wire_origin (o : ExecutionProvenance) : bool :=
  match o with WireOrigin => true | AcpOrigin | GoalOrigin | SystemOrigin => false end.

Definition require_sources {S : Type} (o : ExecutionProvenance) (sources : list S) : outcome unit :=
  if wire_origin o
  then refuse (match sources with [] => true | _ => false end)
         (IdentityConflict "wire execution requires ordered original sources")
  else refuse (match sources with [] => false | _ => true end)
         (IdentityConflict "claimless execution cannot bind claims").

Definition validate_routes {A B : Type} (o : ExecutionProvenance)
    (assignments : list A) (obligations : list B) : outcome unit :=
  let some {X : Type} (l : list X) := match l with [] => false | _ => true end in
  if wire_origin o
  then refuse (negb (some assignments) || negb (some obligations))
         (IntegrityViolationError "wire snapshots require original obligations")
  else refuse (some assignments || some obligations)
         (IntegrityViolationError "claimless snapshots cannot have claims or obligations").

Definition require_obligation (o : ExecutionProvenance) : outcome unit :=
  require (wire_origin o) (ProjectionUnavailableError "open obligation has no wire origin").

(** ** executions.py: the execution row *)

Record ExecutionRecord : Type := mkExecutionRecord {
  ex_id : string;
  ex_origin : ExecutionProvenance;
  ex_lifecycle : ExecutionState;
  ex_owner : string;
  ex_revision : Z;
  ex_max_attempts : Z;
  ex_reason : ReasonCode;
  ex_created : Z;
  ex_updated : Z;
}.

#[export] Instance ExecutionRecord_eq_dec : EqDecision ExecutionRecord.
Proof. solve_decision. Defined.

Definition execution_post_init (r : ExecutionRecord) : outcome unit :=
  _ ← validate_execution_id (ex_id r);
  _ ← refuse ((ex_revision r <=? 0) || (ex_max_attempts r <=? 0))
      (ValueError "revision and max_attempts must be positive");
  _ ← validate_budget (ex_lifecycle r) (ex_max_attempts r);
  refuse ((ex_created r <? 0) || (ex_updated r <? ex_created r))
    (ValueError "execution timestamps are inconsistent").

Definition ex_status (r : ExecutionRecord) : ExecutionKind := execution_kind (ex_lifecycle r).
Definition ex_ordinal (r : ExecutionRecord) : option Z := current_attempt_ordinal (ex_lifecycle r).

Definition execution_checks (r : ExecutionRecord) : bool :=
  length_between (ex_id r) 1 256 && negb (contains_colon (ex_id r))
  && (0 <? ex_revision r) && (0 <? ex_max_attempts r) && reason_check (ex_reason r)
  && (0 <=? ex_created r) && (ex_created r <=? ex_updated r)
  && (match ex_ordinal r with
      | None => true | Some o => (1 <=? o) && (o <=? ex_max_attempts r) end)
  && ((exec_unstarted (ex_status r) && negb (pointed (ex_ordinal r)))
      || (requires_attempt (ex_status r) && pointed (ex_ordinal r))
      || interrupted_execution (ex_status r))
  && (negb (bool_decide (ex_status r = DeferredExec))
      || match ex_ordinal r with None => true | Some o => o <? ex_max_attempts r end).

(** Generated columns *)
Definition required_attempt_kind (r : ExecutionRecord) : option string :=
  match ex_status r with
  | ActiveExec => Some "active" | CompletedExec => Some "succeeded" | _ => None
  end.

Definition active_execution_id (r : ExecutionRecord) : option string :=
  if bool_decide (ex_status r = ActiveExec) then Some (ex_id r) else None.

Definition active_attempt_ordinal (r : ExecutionRecord) : option Z :=
  if bool_decide (ex_status r = ActiveExec) then ex_ordinal r else None.

Definition wire_execution_id (r : ExecutionRecord) : option string :=
  if wire_origin (ex_origin r) then Some (ex_id r) else None.

Definition wire_claim_ordinal (r : ExecutionRecord) : option Z :=
  if wire_origin (ex_origin r) then Some 0 else None.

Definition ex_claim_status_kind (r : ExecutionRecord) : string :=
  if engaged_execution (ex_status r) then "engaged" else execution_name (ex_status r).

Definition deferred_replay_id (r : ExecutionRecord) : option string :=
  if bool_decide (ex_status r = DeferredExec) && pointed (ex_ordinal r) then Some (ex_id r) else None.

(** ** executions.py: replay assessments *)

Record ReplayAssessments : Type := mkReplayAssessments {
  ra_execution : string;
  ra_facts : Z;
  ra_safe : bool;
  ra_side_effects : bool;
  ra_revision : Z;
}.

#[export] Instance ReplayAssessments_eq_dec : EqDecision ReplayAssessments.
Proof. solve_decision. Defined.

Definition replay_post_init (r : ReplayAssessments) : outcome unit :=
  _ ← validate_execution_id (ra_execution r);
  _ ← refuse (ra_revision r <=? 0) (ValueError "replay revision must be positive");
  _ ← refuse ((ra_facts r <? 0)
              || negb (Z.land (ra_facts r) (Z.lnot APPROVED_REPLAY_FACT_MASK) =? 0))
      (ValueError "unrecognized replay fact bits");
  refuse (negb (ra_facts r =? ReplayFact_NONE) && ra_safe r)
    (IntegrityViolationError "an execution with ambiguity facts cannot be replay-safe").

Definition replay_checks (r : ReplayAssessments) : bool :=
  (0 <=? ra_facts r) && (ra_facts r <=? 1023) && (0 <? ra_revision r)
  && ((ra_facts r =? 0) || negb (ra_safe r)).

(** [ReplayAssessments.allows_retry]; the generated [retry_authorized] column decides
    the same three facts. *)
Definition ra_allows_retry (r : ReplayAssessments) : bool :=
  ra_safe r && (ra_facts r =? ReplayFact_NONE) && negb (ra_side_effects r).

Definition ra_retry_authorized (r : ReplayAssessments) : Z :=
  if (ra_facts r =? 0) && ra_safe r && negb (ra_side_effects r) then 1 else 0.

(** A [ReplayState]: a recorded assessment, or [NoReplayAssessment]. *)
Definition replay_allows_retry (replay : option ReplayAssessments) : bool :=
  match replay with Some r => ra_allows_retry r | None => false end.

Definition replay_next_revision (replay : option ReplayAssessments) : Z :=
  match replay with Some r => ra_revision r + 1 | None => 1 end.

(** [expected] is the caller's captured revision; [None] is JSON null. *)
Definition replay_require_revision (replay : option ReplayAssessments) (expected : option Z)
    : outcome unit :=
  require (bool_decide (expected = ra_revision <$> replay))
    (StaleRevision "replay assessment revision changed").

Definition replay_require_execution (replay : option ReplayAssessments) (execution_id : string)
    : outcome unit :=
  match replay with
  | Some r => refuse (negb (bool_decide (ra_execution r = execution_id)))
                (IntegrityViolationError "snapshot records belong to another execution")
  | None => Ok tt
  end.

Definition require_assessment (replay : option ReplayAssessments) : outcome ReplayAssessments :=
  of_option replay (IntegrityViolationError "replay assessment is absent").

(** [ReplayAssessments.require_successor] *)
Definition replay_require_successor (self after : ReplayAssessments) : outcome unit :=
  let accumulated :=
    mkReplayAssessments (ra_execution after) (Z.lor (ra_facts self) (ra_facts after))
      (ra_safe self && ra_safe after) (ra_side_effects self || ra_side_effects after)
      (ra_revision after) in
  refuse (negb (bool_decide (accumulated = after))) (IdentityConflict "replay facts cannot be erased").

(** ** attempts.py *)

Record AttemptRecord : Type := mkAttemptRecord {
  at_execution : string;
  at_ordinal : Z;
  at_owner : string;
  at_generation : Z;
  at_digest : string;
  at_lifecycle : AttemptState;
  at_revision : Z;
  at_progress : option Z;
  at_reason : ReasonCode;
  at_created : Z;
  at_updated : Z;
}.

#[export] Instance AttemptRecord_eq_dec : EqDecision AttemptRecord.
Proof. solve_decision. Defined.

Definition attempt_post_init (r : AttemptRecord) : outcome unit :=
  _ ← validate_execution_id (at_execution r);
  _ ← require_nonempty (at_digest r) "owner_token_digest";
  _ ← require_bounded (Some (at_digest r)) "owner_token_digest" MAX_IDENTIFIER_CHARS;
  _ ← refuse (Z.min (Z.min (at_ordinal r) (at_generation r)) (at_revision r) <=? 0)
      (ValueError "attempt identity/generation/revision must be positive");
  _ ← refuse ((at_created r <? 0) || (at_updated r <? at_created r))
      (ValueError "attempt timestamps are inconsistent");
  match at_progress r with
  | Some p => refuse (negb ((at_created r <=? p) && (p <=? at_updated r)))
                (ValueError "attempt progress time is inconsistent")
  | None => Ok tt
  end.

Definition at_phase (r : AttemptRecord) : AttemptKind := attempt_kind (at_lifecycle r).

(** Generated columns *)
Definition phase_kind (r : AttemptRecord) : string :=
  match at_phase r with
  | TerminalKind t => attempt_name (TerminalKind t)
  | LiveKind _ => "active"
  end.

Definition active_required_status (r : AttemptRecord) : option string :=
  if bool_decide (phase_kind r = "active") then Some "active" else None.

Definition attempt_checks (r : AttemptRecord) : bool :=
  let lease := attempt_lease (at_lifecycle r) in
  (0 <? at_ordinal r) && (0 <? at_generation r) && length_between (at_digest r) 1 256
  && (0 <? at_revision r) && reason_check (at_reason r)
  && (0 <=? at_created r) && (at_created r <=? at_updated r)
  && (match lease with None => true | Some l => 0 <=? l end)
  && (match at_progress r with
      | None => true | Some p => (at_created r <=? p) && (p <=? at_updated r) end)
  && ((bool_decide (phase_kind r = "active") && pointed lease)
      || (negb (bool_decide (phase_kind r = "active")) && negb (pointed lease)
          && attempt_backend_done (at_lifecycle r) && attempt_process_dead (at_lifecycle r))).

(** ** assignments.py *)

Record WakeAssignment : Type := mkWakeAssignment {
  wa_id : string;
  wa_recipient : string;
  wa_lookup : string;
  wa_wire_seq : Z;
  wa_message_id : string;
  wa_audience : MessageAudience;
  wa_lifecycle : AssignmentState;
  wa_accepted : Z;
  wa_updated : Z;
  wa_revision : Z;
  wa_resolver : string;
  wa_policy : string;
}.

Record ExecutionAssignmentLink : Type := mkExecutionAssignmentLink {
  ln_execution : string;
  ln_assignment : string;
  ln_ordinal : Z;
}.

#[export] Instance WakeAssignment_eq_dec : EqDecision WakeAssignment.
Proof. solve_decision. Defined.
#[export] Instance ExecutionAssignmentLink_eq_dec : EqDecision ExecutionAssignmentLink.
Proof. solve_decision. Defined.

Definition require_identifier (value field : string) : outcome unit :=
  _ ← require_nonempty value field;
  require_bounded (Some value) field MAX_IDENTIFIER_CHARS.

Definition assignment_post_init (r : WakeAssignment) : outcome unit :=
  _ ← each (fun fv : string * string => require_identifier fv.2 fv.1)
      [("claim_id", wa_id r); ("recipient", wa_recipient r); ("recipient_lookup", wa_lookup r);
       ("message_id", wa_message_id r); ("resolver_version", wa_resolver r);
       ("policy_version", wa_policy r)];
  _ ← require_optional_nonempty (assignment_exact_target (wa_lifecycle r)) "exact_target"
      MAX_IDENTIFIER_CHARS;
  _ ← match assignment_execution_id (wa_lifecycle r) with
      | Some execution_id => validate_execution_id execution_id
      | None => Ok tt end;
  _ ← refuse ((wa_wire_seq r <=? 0) || (wa_revision r <=? 0))
      (ValueError "wire_seq and revision must be positive");
  refuse ((wa_accepted r <? 0) || (wa_updated r <? wa_accepted r))
    (ValueError "claim timestamps are inconsistent").

Definition wa_source (r : WakeAssignment) : MessageReference :=
  mkMessageReference (wa_wire_seq r) (wa_message_id r).

(** Generated columns *)
Definition wa_disposition (r : WakeAssignment) : AssignmentKind := assignment_kind (wa_lifecycle r).
Definition wa_execution_id (r : WakeAssignment) : option string :=
  assignment_execution_id (wa_lifecycle r).
Definition wa_exact_target (r : WakeAssignment) : option string :=
  assignment_exact_target (wa_lifecycle r).
Definition wa_claim_status_kind (r : WakeAssignment) : option string :=
  match wa_execution_id r with
  | Some _ => Some (assignment_name (wa_disposition r)) | None => None end.

Definition assignment_checks (r : WakeAssignment) : bool :=
  length_between (wa_recipient r) 1 256 && (0 <? wa_wire_seq r)
  && (0 <=? wa_accepted r) && (wa_accepted r <=? wa_updated r) && (0 <? wa_revision r)
  && length_between (wa_resolver r) 1 256 && length_between (wa_policy r) 1 256
  && (match wa_exact_target r with None => true | Some t => length_between t 1 256 end)
  && bool_decide (sql_assignment_mode (wa_lifecycle r) ∈
                  map wake_name [PassiveWake; BoundedTriageWake; FullWake])
  && assignment_binding (wa_lifecycle r).

(** [replace(self, lifecycle=..., updated_at_ms=..., revision=...)] *)
Definition wa_progress (r : WakeAssignment) (lifecycle : AssignmentState) (updated revision : Z)
    : WakeAssignment :=
  mkWakeAssignment (wa_id r) (wa_recipient r) (wa_lookup r) (wa_wire_seq r) (wa_message_id r)
    (wa_audience r) lifecycle (wa_accepted r) updated revision (wa_resolver r) (wa_policy r).

Definition require_initial_decision (r : WakeAssignment) : outcome unit :=
  let initial := wa_progress r (initial_assignment (assignment_mode (wa_lifecycle r)))
                   (wa_accepted r) 1 in
  refuse (negb (bool_decide (r = initial))
          || negb (bool_decide (wa_resolver r = RESOLVER_VERSION))
          || negb (bool_decide (wa_policy r = POLICY_VERSION)))
    (IdentityConflict "claim acceptance requires initial frozen decision").

Definition require_same_acceptance (self candidate : WakeAssignment) : outcome unit :=
  let progress := wa_progress candidate (wa_lifecycle self) (wa_updated self) (wa_revision self) in
  refuse (negb (bool_decide (self = progress))
          || negb (bool_decide (assignment_mode (wa_lifecycle self)
                                = assignment_mode (wa_lifecycle candidate))))
    (IdentityConflict "accepted claim identity conflicts").

Definition link_post_init (r : ExecutionAssignmentLink) : outcome unit :=
  _ ← validate_execution_id (ln_execution r);
  _ ← require_identifier (ln_assignment r) "claim_id";
  refuse (ln_ordinal r <? 0) (ValueError "execution claim ordinal cannot be negative").

(** ** responses.py *)

Record ResponseObligation : Type := mkResponseObligation {
  ob_execution : string;
  ob_target : string;
  ob_lifecycle : ResponseState;
  ob_reason : ReasonCode;
  ob_created : Z;
  ob_updated : Z;
  ob_revision : Z;
}.

#[export] Instance ResponseObligation_eq_dec : EqDecision ResponseObligation.
Proof. solve_decision. Defined.

Definition obligation_post_init (r : ResponseObligation) : outcome unit :=
  _ ← validate_execution_id (ob_execution r);
  _ ← require_identifier (ob_target r) "exact_target";
  _ ← refuse (ob_revision r <=? 0) (ValueError "revision must be positive");
  refuse ((ob_created r <? 0) || (ob_updated r <? ob_created r))
    (ValueError "obligation timestamps are inconsistent").

(** Generated columns *)
Definition ob_state (r : ResponseObligation) : ResponseKind := response_kind (ob_lifecycle r).
Definition ob_success_terminal (r : ResponseObligation) : bool := response_successful (ob_state r).
Definition ob_retryable (r : ResponseObligation) : bool := response_retryable (ob_state r).
Definition ob_intent_settled (r : ResponseObligation) : bool := response_allows_intent (ob_state r).
Definition ob_publication_settled (r : ResponseObligation) : bool := response_published (ob_state r).

Definition obligation_checks (r : ResponseObligation) : bool :=
  length_between (ob_target r) 1 256 && reason_check (ob_reason r)
  && (0 <=? ob_created r) && (ob_created r <=? ob_updated r) && (0 <? ob_revision r)
  && (match publication_seq (ob_lifecycle r) with None => true | Some s => 0 <? s end)
  && eqb (negb (pointed (published_message_id (ob_lifecycle r))))
         (negb (pointed (publication_seq (ob_lifecycle r))))
  && ((response_published (ob_state r) && pointed (published_message_id (ob_lifecycle r)))
      || (negb (response_published (ob_state r))
          && negb (pointed (published_message_id (ob_lifecycle r))))).

(** [ExecutionProvenance.retry_authorized] and [ExecutionRecord.retry_authorized] *)
Definition origin_retry_authorized (o : ExecutionProvenance) (obligations : list ResponseObligation)
    : bool :=
  if wire_origin o
  then negb (match obligations with [] => true | _ => false end) && forallb ob_retryable obligations
  else true.

Definition execution_retry_authorized (r : ExecutionRecord) (replay : option ReplayAssessments)
    (obligations : list ResponseObligation) : bool :=
  has_retry_budget (ex_lifecycle r) (ex_max_attempts r)
  && replay_allows_retry replay
  && origin_retry_authorized (ex_origin r) obligations.

(** ** publications.py *)

(** What the coordinator reads of a [Message]: its route and body, its content identity,
    the bus position and enrichment that [publication_snapshot] resets, and the other
    published content (kind, timestamp, role, answers). *)
Record Message : Type := mkMessage {
  msg_sender : string;
  msg_target : string;
  msg_body : string;
  msg_id : string;
  msg_content : string;
  msg_seq : Z;
  msg_enrichment : string;
}.

#[export] Instance Message_eq_dec : EqDecision Message.
Proof. solve_decision. Defined.

Definition publication_snapshot (m : Message) : Message :=
  mkMessage (msg_sender m) (msg_target m) (msg_body m) (msg_id m) (msg_content m) 0 "".

Definition msg_reference (m : Message) : MessageReference :=
  mkMessageReference (msg_seq m) (msg_id m).

Record PublicationIntents : Type := mkPublicationIntents {
  pi_execution : string;
  pi_target : string;
  pi_message : Message;
  pi_key : string;
  pi_message_id : string;
}.

Record PublicationEvidence : Type := mkPublicationEvidence {
  pe_execution : string;
  pe_target : string;
  pe_seq : Z;
  pe_message_id : string;
  pe_received : Z;
}.

#[export] Instance PublicationIntents_eq_dec : EqDecision PublicationIntents.
Proof. solve_decision. Defined.
#[export] Instance PublicationEvidence_eq_dec : EqDecision PublicationEvidence.
Proof. solve_decision. Defined.

(** [response_acknowledgement.canonical_publication_key] *)
Definition canonical_publication_key (execution_id exact_target : string) : outcome string :=
  _ ← validate_execution_id execution_id;
  _ ← require_identifier exact_target "exact_target";
  let key := "publication:v1:" +:+ execution_id +:+ ":" +:+ exact_target in
  _ ← require_bounded (Some key) "publication_key" MAX_IDENTIFIER_CHARS;
  Ok key.

Definition intent_post_init (r : PublicationIntents) : outcome unit :=
  _ ← validate_execution_id (pi_execution r);
  _ ← require_nonempty (msg_body (pi_message r)) "payload";
  _ ← require_bounded (Some (msg_sender (pi_message r))) "sender" MAX_IDENTIFIER_CHARS;
  _ ← refuse (negb (bool_decide (msg_target (pi_message r) = pi_target r)))
      (IntegrityViolationError "publication route is not its message target");
  _ ← refuse (MAX_PUBLICATION_PAYLOAD_BYTES <? Z.of_nat (length (utf8 (msg_body (pi_message r)))))
      (ValueError "publication payload exceeds byte limit");
  key ← canonical_publication_key (pi_execution r) (pi_target r);
  _ ← refuse (negb (bool_decide (pi_key r = key)))
      (IntegrityViolationError "publication key is not canonical");
  refuse (negb (bool_decide (msg_id (pi_message r) = pi_message_id r)))
    (IntegrityViolationError "expected message id does not match Message authority").

Definition intent_checks (r : PublicationIntents) : bool :=
  length_between (pi_execution r) 1 256 && negb (contains_colon (pi_execution r))
  && length_between (pi_target r) 1 256 && length_between (pi_key r) 1 256.

Definition matches_request (r : PublicationIntents) (execution_id : string) (message : Message)
    : bool :=
  bool_decide (pi_execution r = execution_id) && bool_decide (pi_message r = message).

Definition matches_publication (r : PublicationIntents) (message : Message) : bool :=
  bool_decide (pi_message r = publication_snapshot message).

Definition evidence_checks (r : PublicationEvidence) : bool :=
  length_between (pe_execution r) 1 256 && negb (contains_colon (pe_execution r))
  && length_between (pe_target r) 1 256 && (0 <? pe_seq r) && (0 <=? pe_received r).

Definition pe_reference (r : PublicationEvidence) : MessageReference :=
  mkMessageReference (pe_seq r) (pe_message_id r).

(** ** response.py: the dispatch barrier *)

Record PublicationAppendDispatches : Type := mkPublicationAppendDispatches {
  di_execution : string;
  di_target : string;
  di_root : string;
  di_generation : Z;
  di_ordinal : Z;
  di_dispatched : Z;
}.

#[export] Instance PublicationAppendDispatches_eq_dec : EqDecision PublicationAppendDispatches.
Proof. solve_decision. Defined.

Definition dispatch_checks (r : PublicationAppendDispatches) : bool :=
  length_between (di_target r) 1 256 && (0 <? di_generation r) && (0 <? di_ordinal r)
  && (0 <=? di_dispatched r).

Definition matches_attempt (r : PublicationAppendDispatches) (wire_root_id execution_id : string)
    (owner_generation attempt_ordinal : Z) (exact_target : string) : bool :=
  bool_decide (r = mkPublicationAppendDispatches execution_id exact_target wire_root_id
                     owner_generation attempt_ordinal (di_dispatched r)).

(** ** recovery.py *)

Inductive RecoveryCondition : Type :=
| ModelStalledRecovery | AbortingRecovery | RetryingRecovery | ProviderUnavailableRecovery
| DeferredRecovery | FailedRecovery | RecoveredRecovery.

#[export] Instance RecoveryCondition_eq_dec : EqDecision RecoveryCondition.
Proof. solve_decision. Defined.

Record RecoveryAudit : Type := mkRecoveryAudit {
  au_execution : string;
  au_kind : RecoveryCondition;
  au_reason : string;
  au_detail : RecoveryDetail;
  au_attempt : Z;
  au_elapsed : Z;
  au_observed : Z;
  au_id : Z;
}.

#[export] Instance RecoveryAudit_eq_dec : EqDecision RecoveryAudit.
Proof. solve_decision. Defined.

Definition audit_post_init (r : RecoveryAudit) : outcome unit :=
  _ ← validate_execution_id (au_execution r);
  refuse ((au_attempt r <=? 0) || (au_elapsed r <? 0) || (au_observed r <? 0))
    (ValueError "recovery attempt/timestamps are invalid").

Definition audit_checks (r : RecoveryAudit) : bool :=
  length_between (au_reason r) 1 64
  && (match au_detail r with
      | NoDetail => true | GivenDetail t => len t <=? MAX_SANITIZED_DETAIL_CHARS end)
  && (0 <? au_attempt r) && (0 <=? au_elapsed r) && (0 <=? au_observed r).

(** ** The CHECK constraints and the constructors agree *)

Lemma length_between_ok text low high :
  length_between text low high = true <-> low <= len text <= high.
Proof. unfold length_between. rewrite andb_true_iff, !Z.leb_le. done. Qed.

Lemma len_nonneg text : 0 <= len text.
Proof. unfold len. lia. Qed.

Lemma len_zero text : len text = 0 <-> text = "".
Proof. unfold len. destruct text; simpl; split; try done; lia. Qed.

Lemma identifier_length text : text <> "" /\ len text <= 256 <-> 1 <= len text <= 256.
Proof. rewrite <- len_zero. pose proof (len_nonneg text). lia. Qed.

Lemma validate_execution_id_check text :
  validate_execution_id text = Ok tt <->
  length_between text 1 256 = true /\ contains_colon text = false.
Proof.
  rewrite validate_execution_id_ok, length_between_ok, <- identifier_length.
  unfold MAX_IDENTIFIER_CHARS. tauto.
Qed.

Lemma require_identifier_ok text field :
  require_identifier text field = Ok tt <-> length_between text 1 256 = true.
Proof.
  rewrite length_between_ok, <- identifier_length. unfold require_identifier, require_nonempty.
  split.
  - intros H. ok_inv. bools. simpl in H. ok_inv. bools. by split.
  - intros [Hne Hle]. rewrite bool_decide_eq_false_2 by done. simpl.
    apply refuse_ok, Z.ltb_ge. done.
Qed.

Lemma bind_ok_unit {B : Type} (m : outcome unit) (k : outcome B) b :
  (_ ← m; k) = Ok b <-> m = Ok tt /\ k = Ok b.
Proof.
  rewrite bind_ok_inv. split.
  - intros ([] & ? & ?). done.
  - intros [? ?]. by exists tt.
Qed.

Lemma refuse_spec (c : bool) (e : Error) : refuse c e = Ok tt <-> c = false.
Proof. apply refuse_ok. Qed.

Lemma validate_budget_check s maximum :
  validate_budget s maximum = Ok tt <->
  (match current_attempt_ordinal s with
   | None => true | Some o => (1 <=? o) && (o <=? maximum) end) = true /\
  (negb (bool_decide (execution_kind s = DeferredExec))
   || match current_attempt_ordinal s with None => true | Some o => o <? maximum end) = true.
Proof.
  rewrite validate_budget_ok. destruct (current_attempt_ordinal s) as [o|]; simpl.
  - rewrite andb_true_iff, orb_true_iff, negb_true_iff, bool_decide_eq_false, Z.ltb_lt, !Z.leb_le.
    split.
    + intros H. specialize (H o eq_refl) as [? ?]. split; [done|].
      destruct (decide (execution_kind s = DeferredExec)); tauto.
    + intros [? ?] ? [= <-]. tauto.
  - rewrite orb_true_r. split; [done|]. intros _ ? [=].
Qed.

Lemma execution_shape r :
  ((exec_unstarted (ex_status r) && negb (pointed (ex_ordinal r)))
   || (requires_attempt (ex_status r) && pointed (ex_ordinal r))
   || interrupted_execution (ex_status r)) = true.
Proof. unfold ex_status, ex_ordinal. by destruct (ex_lifecycle r). Qed.

Lemma execution_checks_post_init r :
  execution_checks r = true <-> execution_post_init r = Ok tt /\ reason_check (ex_reason r) = true.
Proof.
  unfold execution_checks, execution_post_init. rewrite execution_shape.
  rewrite !bind_ok_unit, !refuse_spec, validate_execution_id_check, validate_budget_check.
  unfold ex_status, ex_ordinal.
  rewrite !andb_true_iff, !orb_false_iff, negb_true_iff, !Z.leb_gt, !Z.ltb_ge, !Z.ltb_lt, !Z.leb_le.
  tauto.
Qed.

Lemma attempt_checks_post_init r :
  attempt_checks r = true /\ validate_execution_id (at_execution r) = Ok tt <->
  attempt_post_init r = Ok tt /\ reason_check (at_reason r) = true /\
  attempt_wf (at_lifecycle r) = true.
Proof.
  unfold attempt_checks, attempt_post_init, attempt_wf, phase_kind, at_phase.
  rewrite !bind_ok_unit, !refuse_spec. unfold require_nonempty, require_bounded.
  rewrite !refuse_spec, bool_decide_eq_false, orb_false_iff.
  rewrite Z.ltb_ge, Z.leb_gt, !Z.ltb_ge. rewrite !andb_true_iff, length_between_ok.
  rewrite <- identifier_length. unfold MAX_IDENTIFIER_CHARS. rewrite !Z.ltb_lt, !Z.leb_le.
  assert (Hmin : 0 < Z.min (Z.min (at_ordinal r) (at_generation r)) (at_revision r) <->
          0 < at_ordinal r /\ 0 < at_generation r /\ 0 < at_revision r) by lia.
  rewrite Hmin.
  assert (Hprogress : match at_progress r with
     | Some p => refuse (negb ((at_created r <=? p) && (p <=? at_updated r)))
                   (ValueError "attempt progress time is inconsistent") | None => Ok tt end = Ok tt
    <-> match at_progress r with
        | None => true | Some p => (at_created r <=? p) && (p <=? at_updated r) end = true).
  { destruct (at_progress r); [|done]. by rewrite refuse_spec, negb_false_iff. }
  rewrite Hprogress.
  destruct (at_lifecycle r) as [p l d x|t]; simpl; [tauto|]. destruct t; simpl; tauto.
Qed.

Lemma approved_mask : APPROVED_REPLAY_FACT_MASK = Z.ones 10.
Proof. reflexivity. Qed.

Lemma approved_bits facts :
  0 <= facts -> Z.land facts (Z.lnot APPROVED_REPLAY_FACT_MASK) = 0 <-> facts <= 1023.
Proof.
  intros Hnonneg. rewrite approved_mask, <- Z.ldiff_land, Z.ldiff_ones_r by lia.
  rewrite Z.shiftl_mul_pow2, Z.shiftr_div_pow2 by lia. split.
  - intros Hz. assert (facts / 2 ^ 10 = 0) by nia.
    apply Z.div_small_iff in H; [|done]. change (2 ^ 10) with 1024 in H. lia.
  - intros Hle. rewrite Z.div_small; [lia|]. change (2 ^ 10) with 1024. lia.
Qed.

Lemma replay_checks_post_init r :
  replay_checks r = true /\ validate_execution_id (ra_execution r) = Ok tt <->
  replay_post_init r = Ok tt.
Proof.
  unfold replay_checks, replay_post_init.
  rewrite !bind_ok_unit, !refuse_spec, !andb_true_iff, orb_false_iff, orb_true_iff, andb_false_iff.
  rewrite Z.leb_gt, Z.ltb_ge, !Z.leb_le, Z.ltb_lt, negb_true_iff, !negb_false_iff, Z.eqb_eq.
  unfold ReplayFact_NONE.
  destruct (Z.le_gt_cases 0 (ra_facts r)) as [Hle|Hgt]; [|split; intros; lia].
  rewrite <- (approved_bits _ Hle), !Z.eqb_eq. tauto.
Qed.

(** The generated column and the property agree. *)
Lemma retry_authorized_column r :
  ra_retry_authorized r = 1 <-> ra_allows_retry r = true.
Proof.
  unfold ra_retry_authorized, ra_allows_retry, ReplayFact_NONE.
  destruct (ra_facts r =? 0), (ra_safe r), (ra_side_effects r); simpl; split; congruence.
Qed.
