(* ===== verification/Sha256.v ===== *)
(** * Fence token digests

    [_digest] of [owner_fence.py] stores [hashlib.sha256(token.encode("utf-8")).hexdigest()].
    This file gives SHA-256 (FIPS 180-4) on byte lists, with 32-bit words kept in [Z]. *)

From stdpp Require Import base strings list.
From Stdlib Require Import ZArith Lia.
From S2P Require Import Prelude Contracts.

Module Sha256.
Local Open Scope Z_scope.

Definition mask : Z := Eval vm_compute in Z.ones 32.
Definition word (z : Z) : Z := Z.land z mask.
Definition add (a b : Z) : Z := word (a + b).
Definition rotr (x n : Z) : Z := Z.lor (Z.shiftr x n) (word (Z.shiftl x (32 - n))).
Definition complement (x : Z) : Z := Z.lxor x mask.

Definition ch (x y z : Z) : Z := Z.lxor (Z.land x y) (Z.land (complement x) z).
Definition maj (x y z : Z) : Z := Z.lxor (Z.lxor (Z.land x y) (Z.land x z)) (Z.land y z).
Definition big0 (x : Z) : Z := Z.lxor (Z.lxor (rotr x 2) (rotr x 13)) (rotr x 22).
Definition big1 (x : Z) : Z := Z.lxor (Z.lxor (rotr x 6) (rotr x 11)) (rotr x 25).
Definition small0 (x : Z) : Z := Z.lxor (Z.lxor (rotr x 7) (rotr x 18)) (Z.shiftr x 3).
Definition small1 (x : Z) : Z := Z.lxor (Z.lxor (rotr x 17) (rotr x 19)) (Z.shiftr x 10).

(** The round constants are the first 32 fractional bits of the cube roots of the first 64
    primes, the initial chain those of the square roots of the first eight. *)
Definition is_prime (n : Z) : bool :=
  forallb (fun d => negb (n mod d =? 0)) (map Z.of_nat (seq 2 (Z.to_nat n - 2))).

Definition primes : list Z :=
  Eval vm_compute in List.filter is_prime (map Z.of_nat (seq 2 310)).

(** The greatest [r] below [2 ^ bits] with [r ^ 3 <= n], one bit at a time *)
Fixpoint cube_root (bits : nat) (r n : Z) : Z :=
  match bits with
  | O => r
  | S low =>
      let r' := r + 2 ^ Z.of_nat low in
      cube_root low (if r' ^ 3 <=? n then r' else r) n
  end.

Definition K : list Z :=
  Eval vm_compute in map (fun p => word (cube_root 40 0 (p * 2 ^ 96))) primes.

Record Chain : Type := mkChain { ha : Z; hb : Z; hc : Z; hd : Z; he : Z; hf : Z; hg : Z; hh : Z }.

Definition roots : list Z :=
  Eval vm_compute in map (fun p => word (Z.sqrt (p * 2 ^ 64))) (take 8 primes).
Definition root_word (n : nat) : Z := nth n roots 0.

Definition initial : Chain :=
  mkChain (root_word 0) (root_word 1) (root_word 2) (root_word 3)
          (root_word 4) (root_word 5) (root_word 6) (root_word 7).

(** The schedule, latest word first: W(t-2), W(t-7), W(t-15), W(t-16) are at 1, 6, 14, 15. *)
Definition schedule_step (w : list Z) : list Z :=
  add (add (small1 (nth 1 w 0)) (nth 6 w 0)) (add (small0 (nth 14 w 0)) (nth 15 w 0)) :: w.

Definition schedule (block : list Z) : list Z := rev (Nat.iter 48 schedule_step (rev block)).

Definition round (c : Chain) (kw : Z * Z) : Chain :=
  let t1 := add (add (hh c) (big1 (he c))) (add (ch (he c) (hf c) (hg c)) (add kw.1 kw.2)) in
  let t2 := add (big0 (ha c)) (maj (ha c) (hb c) (hc c)) in
  mkChain (add t1 t2) (ha c) (hb c) (hc c) (add (hd c) t1) (he c) (hf c) (hg c).

Definition compress (c : Chain) (block : list Z) : Chain :=
  let r := fold_left round (zip K (schedule block)) c in
  mkChain (add (ha c) (ha r)) (add (hb c) (hb r)) (add (hc c) (hc r)) (add (hd c) (hd r))
          (add (he c) (he r)) (add (hf c) (hf r)) (add (hg c) (hg r)) (add (hh c) (hh r)).

(** Big-endian bytes of an [n]-byte value *)
Fixpoint bytes_of (n : nat) (z : Z) : list Z :=
  match n with O => [] | S m => bytes_of m (Z.shiftr z 8) ++ [z mod 256] end.

Definition pad (m : list Z) : list Z :=
  m ++ 128 :: replicate (Z.to_nat ((55 - Z.of_nat (length m)) mod 64)) 0
    ++ bytes_of 8 (8 * Z.of_nat (length m)).

Fixpoint words (bytes : list Z) : list Z :=
  match bytes with
  | a :: b :: c :: d :: rest => (((a * 256 + b) * 256 + c) * 256 + d) :: words rest
  | _ => []
  end.

(** [n] blocks of sixteen words *)
Fixpoint chain (n : nat) (ws : list Z) (c : Chain) : Chain :=
  match n with
  | O => c
  | S m => chain m (drop 16 ws) (compress c (take 16 ws))
  end.

Definition digest_words (m : list Z) : list Z :=
  let ws := words (pad m) in
  let c := chain (length ws / 16)%nat ws initial in
  [ha c; hb c; hc c; hd c; he c; hf c; hg c; hh c].

Definition hex_digit (z : Z) : Ascii.ascii :=
  Ascii.ascii_of_N (Z.to_N (if z <? 10 then 48 + z else 87 + z)).

Fixpoint hex_of (n : nat) (z : Z) (tail : string) : string :=
  match n with
  | O => tail
  | S m => hex_of m (Z.shiftr z 4) (String (hex_digit (z mod 16)) tail)
  end.

(** [hashlib.sha256(raw).hexdigest()] *)
Definition sha256_bytes (raw : list Z) : string :=
  fold_right (hex_of 8) EmptyString (digest_words raw).

(** [hashlib.sha256(text.encode("utf-8")).hexdigest()] *)
Definition sha256_hex (text : string) : string := sha256_bytes (utf8 text).

Example sixty_four_primes : length primes = 64%nat.
Proof. reflexivity. Qed.

(** The published test vectors *)
Example sha256_abc :
  sha256_hex "abc" = "ba7816bf8f01cfea414140de5dae2223b00361a396177a9cb410ff61f20015ad".
Proof. vm_compute. reflexivity. Qed.
Example sha256_two_blocks :
  sha256_hex "abcdbcdecdefdefgefghfghighijhijkijkljklmklmnlmnomnopnopq"
  = "248d6a61d20638b8e5c026930c3e6039a33ce45964ff2167f6ecedd419db06c1".
Proof. vm_compute. reflexivity. Qed.

(** ** Every digest is 64 characters, so it always fits its column. *)

Lemma length_hex_of n z tail : String.length (hex_of n z tail) = (n + String.length tail)%nat.
Proof. revert z tail. induction n as [|n IH]; intros z tail; simpl; [done|]. rewrite IH. simpl. lia. Qed.

Lemma length_sha256_bytes raw : String.length (sha256_bytes raw) = 64%nat.
Proof. unfold sha256_bytes, digest_words. cbn [fold_right]. rewrite !length_hex_of. done. Qed.

Lemma length_sha256_hex text : String.length (sha256_hex text) = 64%nat.
Proof. apply length_sha256_bytes. Qed.

Global Opaque sha256_bytes sha256_hex.
End Sha256.
