(* ===== verification/GoalLedger.v ===== *)
(** * The goal attempt ledger: rows and transactions

    Models the tables of [goal_attempts.py] and [goal_failure_observation.py]: the current
    generation of a goal, its attempts, the decisions that authorised new work, provider
    usage and passive failure evidence.  A transaction is a function from the rows it finds
    to a value with the rows it leaves, or to an error, which leaves the rows as they were. *)

From stdpp Require Import base gmap strings list.
From Stdlib Require Import ZArith Lia Ascii.
From S2P Require Import Prelude Contracts Lifecycle GoalStates Sha256.

(** ** Rows *)

Record Generation : Type := mkGeneration {
  gn_goal : string;
  gn_number : Z;
  gn_lifecycle : GenerationState;
  gn_attempt : option string;
  gn_digest : string;
}.

(** Two generations compare without their [ready_digest]. *)
Definition same_generation (a b : Generation) : bool :=
  bool_decide ((gn_goal a, gn_number a, gn_lifecycle a, gn_attempt a)
               = (gn_goal b, gn_number b, gn_lifecycle b, gn_attempt b)).

(** [Generation.__post_init__] *)
Definition generation_post_init (g : Generation) : outcome unit :=
  _ ← validate_attempt (gn_lifecycle g) (gn_attempt g);
  refuse (gn_number g <? 1) (ValueError "Generation must be positive.").

Definition generation (goal : string) (number : Z) (lifecycle : GenerationState) (attempt : option string)
    : outcome Generation :=
  let g := mkGeneration goal number lifecycle attempt "" in
  _ ← generation_post_init g; Ok g.

(** The CHECK conditions of the table *)
Definition generation_checks (g : Generation) : bool :=
  (0 <? gn_number g)
  && (generation_ready (gn_lifecycle g) && bool_decide (gn_attempt g = None) && (len (gn_digest g) =? 64)
      || negb (generation_ready (gn_lifecycle g)) && bool_decide (gn_digest g = "")).

(** [Generation.has_ready_grant] *)
Definition has_ready_grant (g : Generation) (number : Z) (digest : string) : bool :=
  generation_ready (gn_lifecycle g) && (gn_number g =? number) && bool_decide (gn_digest g = digest).

Record Reservation : Type := mkReservation {
  rs_goal : string;
  rs_generation : Z;
  rs_attempt : string;
  rs_token : string;
}.

#[export] Instance Reservation_eq_dec : EqDecision Reservation.
Proof. solve_decision. Defined.

(** [Reservation.identity] *)
Definition rs_identity (r : Reservation) : string * Z * string :=
  (rs_goal r, rs_generation r, rs_attempt r).

(** [AttemptRecord] of the ledger *)
Record GoalAttempt : Type := mkGoalAttempt {
  ga_reservation : Reservation;
  ga_phase : GoalAttemptPhase;
  ga_witness : option string;
  ga_resolution : AttemptResolution;
}.

(** A float is its 64-bit pattern. *)
Definition is_finite (bits : Z) : bool := negb (Z.land (Z.shiftr bits 52) 2047 =? 2047).

Record FailedTurnEvidence : Type := mkFailedTurnEvidence {
  ev_attempt : string;
  ev_goal : string;
  ev_generation : Z;
  ev_owner : string;
  ev_owner_created_at : Z;
  ev_worktree : string;
  ev_claim_generation : Z;
  ev_turn_generation : Z;
  ev_goal_revision : Z;
  ev_turn : string;
  ev_failure : string;
  ev_failure_text : string;
}.

(** [FailedTurnEvidence.__post_init__] *)
Definition evidence_checked (e : FailedTurnEvidence) : outcome unit :=
  _ ← refuse (ev_claim_generation e <=? 0) (ValueError "Observation claim_scope must be positive");
  _ ← refuse (ev_turn_generation e <=? 0) (ValueError "Observation turn generation must be positive");
  refuse (negb (is_finite (ev_owner_created_at e))) (ValueError "Observation incarnation must be finite").

Definition evidence_identity (e : FailedTurnEvidence) : string * Z * string :=
  (ev_goal e, ev_generation e, ev_attempt e).

Record Ledger : Type := mkLedger {
  lg_generations : gmap string Generation;
  lg_attempts : gmap string GoalAttempt;
  lg_decisions : gmap (string * WorkDecision) Z;
  lg_usage : gmap (string * string) string;
  lg_failures : gmap string FailedTurnEvidence;
}.

Definition empty_ledger : Ledger := mkLedger ∅ ∅ ∅ ∅ ∅.

Definition set_generation (g : Generation) (l : Ledger) : Ledger :=
  mkLedger (<[gn_goal g := g]> (lg_generations l)) (lg_attempts l) (lg_decisions l) (lg_usage l)
    (lg_failures l).
Definition set_attempt (a : GoalAttempt) (l : Ledger) : Ledger :=
  mkLedger (lg_generations l) (<[rs_attempt (ga_reservation a) := a]> (lg_attempts l)) (lg_decisions l)
    (lg_usage l) (lg_failures l).

(** ** Transactions *)

Definition Tx (A : Type) : Type := Ledger -> outcome (A * Ledger).
#[export] Instance Tx_ret : MRet Tx := fun A a l => Ok (a, l).
#[export] Instance Tx_bind : MBind Tx := fun A B f m l =>
  match m l with Ok (a, l') => f a l' | Err e => Err e end.

Definition tx_read {A : Type} (f : Ledger -> outcome A) : Tx A := fun l => a ← f l; Ok (a, l).
Definition tx_lift {A : Type} (o : outcome A) : Tx A := fun l => a ← o; Ok (a, l).

(** [Generation.one] *)
Definition generation_one (goal : string) (l : Ledger) : outcome (option Generation) :=
  match lg_generations l !! goal with
  | None => Ok None
  | Some g => match generation_post_init g with
              | Ok _ => Ok (Some g)
              | Err _ => Err (StorageUncertainError "Invalid persisted goal generation.")
              end
  end.

(** [Generation.require_in] *)
Definition require_generation (goal : string) (l : Ledger) : outcome Generation :=
  row ← generation_one goal l; of_option row (MissingGoalGenerationError goal).

(** [current == Generation(...)], where [current] may be absent *)
Definition is_exactly (current : option Generation) (expected : Generation) : bool :=
  match current with Some g => same_generation g expected | None => false end.

(** [Generation.advance] *)
Definition generation_advance (self successor : Generation) (digest : string) : Tx Generation := fun l =>
  _ ← refuse (negb (may_become (gn_lifecycle self) (gn_lifecycle successor)))
      (StaleAttemptError "Generation transition is no longer permitted.");
  let row := mkGeneration (gn_goal self) (gn_number successor) (gn_lifecycle successor)
               (gn_attempt successor) digest in
  match lg_generations l !! gn_goal self with
  | None => Ok (successor, l)
  | Some _ =>
      _ ← refuse (negb (generation_checks row)) (SqlConstraint "generation");
      Ok (successor, set_generation row l)
  end.

Definition generation_insert (row : Generation) : Tx unit := fun l =>
  _ ← refuse (bool_decide (is_Some (lg_generations l !! gn_goal row)) || negb (generation_checks row))
      (SqlConstraint "generation");
  Ok (tt, set_generation row l).

(** [AttemptRecord.advance] *)
Definition attempt_advance (self : GoalAttempt) (phase : GoalAttemptPhase) (witness : option string)
    (resolution : AttemptResolution) : Tx unit := fun l =>
  _ ← refuse (negb (may_become (ga_phase self) phase))
      (StaleAttemptError "Attempt transition is no longer permitted.");
  match lg_attempts l !! rs_attempt (ga_reservation self) with
  | None => Ok (tt, l)
  | Some row => Ok (tt, set_attempt (mkGoalAttempt (ga_reservation row) phase witness resolution) l)
  end.

(** The table has one row for an attempt, and one for a goal and generation. *)
Definition attempt_insert (row : GoalAttempt) : Tx unit := fun l =>
  let r := ga_reservation row in
  _ ← refuse (bool_decide (is_Some (lg_attempts l !! rs_attempt r))) (SqlConstraint "attempt_id");
  _ ← refuse (existsb (fun a => bool_decide (rs_goal (ga_reservation a.2) = rs_goal r)
                                && (rs_generation (ga_reservation a.2) =? rs_generation r))
                (map_to_list (lg_attempts l))) (SqlConstraint "goal_id, generation");
  _ ← refuse (bool_decide (lg_generations l !! rs_goal r = None)) SqlForeignKey;
  Ok (tt, set_attempt row l).

(** [LedgerAttempt.reserved_by] of what the ledger holds for the attempt *)
Definition reserved_by (r : Reservation) (refusal : Error) (l : Ledger) : outcome GoalAttempt :=
  a ← of_option (lg_attempts l !! rs_attempt r) refusal;
  _ ← refuse (negb (bool_decide (ga_reservation a = r))) refusal;
  Ok a.

(** [LedgerAttempt.identified] *)
Definition identified (identity : string * Z * string) (refusal : Error) (l : Ledger) : outcome GoalAttempt :=
  a ← of_option (lg_attempts l !! identity.2) refusal;
  _ ← refuse (negb (bool_decide (rs_identity (ga_reservation a) = identity))) refusal;
  Ok a.

(** [GoalWorkDecision.claim] *)
Definition decision_claim (goal : string) (decision : WorkDecision) (number : Z) : Tx unit := fun l =>
  _ ← refuse (bool_decide (is_Some (lg_decisions l !! (goal, decision)))
              || bool_decide (lg_generations l !! goal = None))
      (UnresolvedAttemptError "That work decision was already used.");
  Ok (tt, mkLedger (lg_generations l) (lg_attempts l) (<[(goal, decision) := number]> (lg_decisions l))
            (lg_usage l) (lg_failures l)).

(** The constraints of the evidence table *)
Definition evidence_insertable (e : FailedTurnEvidence) (l : Ledger) : bool :=
  (0 <? ev_generation e) && (0 <? ev_claim_generation e) && (0 <? ev_turn_generation e)
  && (0 <=? ev_goal_revision e)
  && bool_decide (lg_failures l !! ev_attempt e = None)
  && negb (existsb (fun f => bool_decide (ev_turn f.2 = ev_turn e)) (map_to_list (lg_failures l)))
  && bool_decide (is_Some (lg_attempts l !! ev_attempt e)).

(** [record_observation]: an insertion that fails is rolled back to its savepoint. *)
Definition record_observation (r : Reservation) (observed : Reservation) (e : FailedTurnEvidence) : Tx unit :=
  fun l =>
  if negb (bool_decide (observed = r)) || negb (bool_decide (evidence_identity e = rs_identity r)) then Ok (tt, l)
  else if evidence_insertable e l then
    Ok (tt, mkLedger (lg_generations l) (lg_attempts l) (lg_decisions l) (lg_usage l)
              (<[ev_attempt e := e]> (lg_failures l)))
  else Ok (tt, l).
