(* ===== verification/GoalStore.v ===== *)
(** * The goal attempt store

    Models [GoalAttemptStore], [Reservation] and [LaunchPermit] of [goal_attempts.py] and
    the methods of [goal_generation.py] that dispatch to them.  A change of the ledger is
    a write transaction, and then, once it committed, a synchronisation and a fresh
    readback; only a change that reads back as written returns, and only then does the
    instance keep what it grants.  Between the commit and the two reads of a readback other
    processes may write, so a [Change] keeps the three phases apart.  Minted identities and
    secrets are arguments. *)

From stdpp Require Import base gmap strings list.
From Stdlib Require Import ZArith Lia Ascii.
From S2P Require Import Prelude Contracts Lifecycle GoalStates Sha256 GoalLedger.

(** ** An open store *)

(** [_owned] and [_ready_grants]: what this process was granted, lost with it *)
Record Instance : Type := mkInstance {
  in_owned : gset string;
  in_grants : gmap (string * Z) string;
}.

Definition opened : Instance := mkInstance ∅ ∅.

Record Change (A : Type) : Type := mkChange {
  ch_write : Tx A;
  ch_verify : A -> Ledger -> Ledger -> outcome bool;
  ch_returned : A -> Instance -> Instance;
  ch_finally : Instance -> Instance;
}.
Arguments mkChange {A} _ _ _ _.
Arguments ch_write {A} _ _.
Arguments ch_verify {A} _ _ _ _.
Arguments ch_returned {A} _ _ _.
Arguments ch_finally {A} _ _.

Record GoalStore : Type := mkGoalStore {
  gs_ledger : Ledger;
  gs_instance : Instance;
}.

(** What [_change] raises for an error of SQLite *)
Definition uncertain (message : string) (e : Error) : Error :=
  match e with
  | SqlAbort _ | SqlConstraint _ | SqlForeignKey => StorageUncertainError message
  | e => e
  end.

Definition attested (read : outcome bool) : outcome unit :=
  match read with
  | Ok true => Ok tt
  | Ok false => Err (StorageUncertainError "Goal attempt readback does not attest the write.")
  | Err e => Err (uncertain "Goal attempt readback failed." e)
  end.

(** [_change], when no other process writes before the readback *)
Definition change {A : Type} (c : Change A) (s : GoalStore) : outcome A * GoalStore :=
  match ch_write c (gs_ledger s) with
  | Err e => (Err (uncertain "Goal attempt write durability is uncertain." e),
              mkGoalStore (gs_ledger s) (ch_finally c (gs_instance s)))
  | Ok (a, l) =>
      match attested (ch_verify c a l l) with
      | Ok _ => (Ok a, mkGoalStore l (ch_finally c (ch_returned c a (gs_instance s))))
      | Err e => (Err e, mkGoalStore l (ch_finally c (gs_instance s)))
      end
  end.

Definition keep {A : Type} (_ : A) (i : Instance) : Instance := i.

(** ** Grants *)

Definition hex_value (c : ascii) : option Z :=
  let n := Z.of_N (N_of_ascii c) in
  if (48 <=? n) && (n <=? 57) then Some (n - 48)
  else if (97 <=? n) && (n <=? 102) then Some (n - 87)
  else None.

(** The bytes a lower-case hexadecimal text spells *)
Fixpoint hex_bytes (text : string) : option (list Z) :=
  match text with
  | EmptyString => Some []
  | String hi (String lo rest) =>
      h ← hex_value hi; l ← hex_value lo; tail ← hex_bytes rest; Some (16 * h + l :: tail)
  | _ => None
  end.

(** [Generation.grant_digest] *)
Definition grant_digest (grant : string) : outcome string :=
  let refusal := UnresolvedAttemptError "A valid acknowledged ready grant is required." in
  _ ← refuse (negb (len grant =? 64)) refusal;
  raw ← of_option (hex_bytes grant) refusal;
  Ok (Sha256.sha256_bytes raw).

(** [GoalAttemptStore._is_generation] *)
Definition is_generation (g : Generation) (l : Ledger) : outcome bool :=
  row ← generation_one (gn_goal g) l; Ok (is_exactly row g).

(** [Reservation.readback] *)
Definition readback (r : Reservation) (phase : GoalAttemptPhase) (g : Generation) (first second : Ledger)
    : outcome bool :=
  current ← is_generation g first;
  Ok (current && match lg_attempts second !! rs_attempt r with
                 | Some a => bool_decide (ga_reservation a = r) && bool_decide (ga_phase a = phase)
                 | None => false
                 end).

(** [GoalAttemptStore._ready_change] *)
Definition ready_change (goal : string) (number : Z) (grant : string) (write : string -> Tx Generation)
    : outcome (Change Generation) :=
  digest ← grant_digest grant;
  Ok (mkChange (write digest)
        (fun value first second =>
           current ← is_generation value first;
           if current : bool then
             g ← require_generation (gn_goal value) second;
             Ok (has_ready_grant g (gn_number value) digest)
           else Ok false)
        (fun _ i => mkInstance (in_owned i) (<[(goal, number) := grant]> (in_grants i)))
        id).

(** [GoalAttemptStore.ready_grant] *)
Definition ready_grant (goal : string) (number : Z) (s : GoalStore) : outcome string :=
  let refusal := UnresolvedAttemptError "No acknowledged ready grant is available; decide explicitly." in
  grant ← of_option (in_grants (gs_instance s) !! (goal, number)) refusal;
  g ← require_generation goal (gs_ledger s);
  digest ← grant_digest grant;
  _ ← refuse (negb (has_ready_grant g number digest)) refusal;
  Ok grant.

(** ** Creating, reserving and claiming *)

(** [create_goal] *)
Definition create_goal (goal grant : string) : outcome (Change Generation) :=
  _ ← refuse (blank goal) (ValueError "Goal ID is required.");
  ready_change goal 1 grant (fun digest =>
    row ← tx_read (generation_one goal);
    _ ← tx_lift (refuse (bool_decide (is_Some row)) (ReservationConflictError "Goal ID already has a ledger."));
    let created := mkGeneration goal 1 ReadyGeneration None digest in
    _ ← generation_insert created;
    mret created).

(** The read that every write on a ready generation starts with *)
Definition require_exact (goal : string) (number : Z) (lifecycle : GenerationState) (attempt : option string)
    (refusal : Error) : Tx Generation :=
  row ← tx_read (generation_one goal);
  expected ← tx_lift (generation goal number lifecycle attempt);
  _ ← tx_lift (refuse (negb (is_exactly row expected)) refusal);
  tx_lift (of_option row refusal).

(** [recover_unreserved_ready] *)
Definition recover_unreserved_ready (goal : string) (number : Z) (grant : string)
    : outcome (Change Generation) :=
  ready_change goal number grant (fun digest =>
    current ← require_exact goal number ReadyGeneration None
      (ReservationConflictError "Only an unreserved READY generation can be recovered.");
    generation_advance current current digest).

(** [reserve] *)
Definition reserve (goal : string) (number : Z) (grant : option string) (attempt token : string)
    (s : GoalStore) : outcome (Change Reservation) :=
  let conflict := ReservationConflictError "Goal generation is not ready or already reserved." in
  match (match grant with Some g => Some g | None => in_grants (gs_instance s) !! (goal, number) end) with
  | None =>
      current ← generation_one goal (gs_ledger s);
      _ ← refuse (match current with
                  | Some g => negb (gn_number g =? number) || negb (generation_ready (gn_lifecycle g))
                  | None => true end) conflict;
      Err (UnresolvedAttemptError "No acknowledged ready grant; explicit recovery is required.")
  | Some ready =>
      digest ← grant_digest ready;
      let r := mkReservation goal number attempt token in
      let reserved := mkGeneration goal number ReservedGeneration (Some attempt) "" in
      Ok (mkChange
        (current ← require_exact goal number ReadyGeneration None conflict;
         _ ← tx_lift (refuse (negb (bool_decide (gn_digest current = digest)))
                        (UnresolvedAttemptError "Ready grant is stale or was never acknowledged."));
         _ ← attempt_insert (mkGoalAttempt r ReservedAttempt None NoResolution);
         _ ← generation_advance current reserved "";
         mret r)
        (fun value => readback value ReservedAttempt
                        (mkGeneration goal number ReservedGeneration (Some (rs_attempt value)) ""))
        (fun value i => mkInstance ({[rs_attempt value]} ∪ in_owned i) (delete (goal, number) (in_grants i)))
        id)
  end.

Definition reserved_generation (r : Reservation) : Generation :=
  mkGeneration (rs_goal r) (rs_generation r) ReservedGeneration (Some (rs_attempt r)) "".

(** [Reservation.require_current] *)
Definition require_current (r : Reservation) (phase : GoalAttemptPhase) : Tx GoalAttempt :=
  let stale := StaleAttemptError "Attempt is no longer current or is already claimed." in
  row ← tx_read (generation_one (rs_goal r));
  a ← tx_read (reserved_by r stale);
  expected ← tx_lift (generation (rs_goal r) (rs_generation r) ReservedGeneration (Some (rs_attempt r)));
  _ ← tx_lift (refuse (negb (is_exactly row expected) || negb (bool_decide (ga_phase a = phase))) stale);
  mret a.

(** [claim_launch], which returns a [LaunchPermit] for the reservation *)
Definition claim_launch (r : Reservation) (i : Instance) : outcome (Change Reservation) :=
  _ ← refuse (negb (bool_decide (rs_attempt r ∈ in_owned i)))
      (UnresolvedAttemptError "A reservation cannot be replayed after owner loss.");
  Ok (mkChange
    (current ← require_current r ReservedAttempt;
     _ ← attempt_advance current ClaimedAttempt None NoResolution;
     mret r)
    (fun value => readback value ClaimedAttempt (reserved_generation r))
    keep
    (fun i => mkInstance (in_owned i ∖ {[rs_attempt r]}) (in_grants i))).

(** ** Settling an attempt *)

(** [Reservation.fail] *)
Definition fail (r : Reservation) (diagnostic : AttemptResolution)
    (observation : option (Reservation * FailedTurnEvidence)) : Change Generation :=
  let late := StaleAttemptError "Late failure cannot modify this goal generation." in
  let blocked := mkGeneration (rs_goal r) (rs_generation r) BlockedGeneration (Some (rs_attempt r)) "" in
  mkChange
    (row ← tx_read (generation_one (rs_goal r));
     a ← tx_read (reserved_by r late);
     expected ← tx_lift (generation (rs_goal r) (rs_generation r) ReservedGeneration (Some (rs_attempt r)));
     _ ← tx_lift (refuse (negb (is_exactly row expected) || negb (may_become (ga_phase a) FailedAttempt)) late);
     _ ← attempt_advance a FailedAttempt None diagnostic;
     _ ← (match observation with
          | Some (observed, e) => if launched (ga_phase a) then record_observation r observed e else mret tt
          | None => mret tt
          end);
     current ← tx_lift (of_option row late);
     generation_advance current blocked "")
    (fun value => readback r FailedAttempt value)
    keep id.

(** The outcomes that open the next generation, with the evidence [record_ready] writes *)
Inductive ReadyEvidence : Type :=
| SucceededWith (progress_witness : string)
| FailedWith (resolution : AttemptResolution).

(** [ReadyAttempt.record_ready] *)
Definition record_ready (evidence : ReadyEvidence) (a : GoalAttempt) : Tx unit :=
  match evidence with
  | SucceededWith witness => attempt_advance a SucceededAttempt (Some witness) NoResolution
  | FailedWith resolution => attempt_advance a FailedAttempt None resolution
  end.

(** [LaunchPermit.advance_ready] *)
Definition advance_ready (r : Reservation) (evidence : ReadyEvidence) (grant : string)
    : outcome (Change Generation) :=
  ready_change (rs_goal r) (rs_generation r + 1) grant (fun digest =>
    a ← require_current r ClaimedAttempt;
    _ ← record_ready evidence a;
    generation_advance (reserved_generation r)
      (mkGeneration (rs_goal r) (rs_generation r + 1) ReadyGeneration None "") digest).

(** [LaunchPermit.record_verified_progress] *)
Definition record_verified_progress (r : Reservation) (witness grant : string) : outcome (Change Generation) :=
  _ ← refuse (blank witness) (ValueError "A nonempty verified progress witness is required.");
  advance_ready r (SucceededWith witness) grant.

(** [LaunchPermit.has_verified_progress] *)
Definition has_verified_progress (r : Reservation) (l : Ledger) : outcome bool :=
  a ← reserved_by r (StaleAttemptError "Original launch attempt changed or is unavailable.") l;
  Ok (verified_progress (ga_phase a)).

(** [LaunchPermit.stop]: nothing to change once progress was verified *)
Definition stop (r : Reservation) (grant : string) (l : Ledger) : outcome (option (Change Generation)) :=
  done ← has_verified_progress r l;
  if done : bool then Ok None
  else c ← advance_ready r (FailedWith OperatorStopped) grant; Ok (Some c).

(** [LaunchPermit.record_verified_completion] *)
Definition record_verified_completion (r : Reservation) (witness : string) : outcome (Change Generation) :=
  _ ← refuse (blank witness) (ValueError "A nonempty verified completion witness is required.");
  Ok (mkChange
    (a ← require_current r ClaimedAttempt;
     _ ← attempt_advance a SucceededAttempt (Some witness) NoResolution;
     generation_advance (reserved_generation r)
       (mkGeneration (rs_goal r) (rs_generation r) CompletedGeneration (Some (rs_attempt r)) "") "")
    (fun value => readback r SucceededAttempt value)
    keep id).

(** [LaunchPermit.record_provider_usage], of the canonical text of a usage *)
Definition record_provider_usage (r : Reservation) (response raw : string) : Change string :=
  mkChange
    (_ ← require_current r ClaimedAttempt;
     row ← tx_read (fun l => Ok (lg_usage l !! (rs_attempt r, response)));
     match row with
     | Some old =>
         _ ← tx_lift (refuse (negb (bool_decide (old = raw)))
                        (ValueError "Provider response ID has different usage."));
         mret raw
     | None => fun l =>
         Ok (raw, mkLedger (lg_generations l) (lg_attempts l) (lg_decisions l)
                    (<[(rs_attempt r, response) := raw]> (lg_usage l)) (lg_failures l))
     end)
    (fun expected first _ => Ok (bool_decide (lg_usage first !! (rs_attempt r, response) = Some expected)))
    keep id.

(** ** Authorising new work *)

(** [authorize_ready_recovery] *)
Definition authorize_ready_recovery (goal : string) (number : Z) (decision : WorkDecision) (grant : string)
    : outcome (Change Generation) :=
  ready_change goal (number + 1) grant (fun digest =>
    current ← require_exact goal number ReadyGeneration None
      (UnresolvedAttemptError "Goal is not ready; an attempt may already be unresolved.");
    _ ← decision_claim goal decision number;
    generation_advance current (mkGeneration goal (number + 1) ReadyGeneration None "") digest).

(** [authorize_retry] *)
Definition authorize_retry (goal : string) (number : Z) (attempt : string) (decision : WorkDecision)
    (grant : string) : outcome (Change Generation) :=
  ready_change goal (number + 1) grant (fun digest =>
    current ← require_exact goal number BlockedGeneration (Some attempt)
      (UnresolvedAttemptError "Blocked attempt changed or is not resolved.");
    a ← tx_read (identified (goal, number, attempt)
          (UnresolvedAttemptError "Only a blocked, recorded failure may be retried explicitly."));
    _ ← tx_lift (require_retryable (ga_phase a));
    _ ← decision_claim goal decision number;
    _ ← attempt_advance a ResolvedAttempt None (DecidedResolution decision);
    generation_advance current (mkGeneration goal (number + 1) ReadyGeneration None "") digest).

(** [GenerationState.authorize_retry], of the generation [authorize_current_retry] read *)
Definition authorize_current_retry (goal : string) (decision : WorkDecision) (grant : string) (l : Ledger)
    : outcome (Change Generation) :=
  g ← require_generation goal l;
  match gn_lifecycle g with
  | ReadyGeneration => authorize_ready_recovery goal (gn_number g) decision grant
  | ReservedGeneration =>
      attempt ← of_option (gn_attempt g) (ValueError "A required value is absent.");
      Err (GoalRefused ("The goal generation is reserved for attempt " +:+ attempt
             +:+ "; Retry cannot replace it. Inspect that attempt before deciding on new work."))
  | BlockedGeneration =>
      attempt ← of_option (gn_attempt g) (ValueError "A required value is absent.");
      authorize_retry goal (gn_number g) attempt decision grant
  | CompletedGeneration =>
      Err (GoalRefused "The goal generation is completed; Retry cannot restart completed work.")
  | CancelledGeneration =>
      Err (GoalRefused "The goal generation is cancelled; Retry cannot restart cancelled work.")
  end.

(** [GenerationState.continue_work]: only a blocked generation needs the decision. *)
Definition continue_work (g : Generation) (decision : WorkDecision) (grant : string) (l : Ledger)
    : outcome (option (Change Generation)) :=
  match gn_lifecycle g with
  | BlockedGeneration => c ← authorize_current_retry (gn_goal g) decision grant l; Ok (Some c)
  | _ => Ok None
  end.

(** [LedgerAttempt.retire] *)
Definition attempt_retire (attempt : option string) (lifecycle : GenerationState) (goal : string) (number : Z)
    : Tx unit :=
  let ineligible := StaleAttemptError "Goal or attempt is no longer eligible for retirement." in
  match attempt with
  | None => tx_lift (refuse (negb (permits_retirement_without_attempt lifecycle)) ineligible)
  | Some id =>
      a ← tx_read (identified (goal, number, id)
            (StaleAttemptError "Unresolved goal has no matching attempt to retire."));
      _ ← tx_lift (refuse (negb (permits_retirement lifecycle (ga_phase a))) ineligible);
      attempt_advance a ResolvedAttempt None GoalCleared
  end.

(** [retire_goal] *)
Definition retire_goal (goal : string) (number : Z) (attempt : option string) : Change Generation :=
  let changed := StaleAttemptError "Goal generation or attempt changed before retirement." in
  mkChange
    (row ← tx_read (generation_one goal);
     current ← tx_lift (of_option row changed);
     _ ← tx_lift (refuse (negb (gn_number current =? number) || negb (bool_decide (gn_attempt current = attempt)))
                    changed);
     _ ← attempt_retire attempt (gn_lifecycle current) goal number;
     generation_advance current (mkGeneration goal number CancelledGeneration attempt "") "")
    (fun value first second =>
       current ← is_generation value first;
       Ok (current && match attempt with
                      | None => true
                      | Some id => match lg_attempts second !! id with
                                   | Some a => bool_decide (ga_phase a = ResolvedAttempt)
                                               && bool_decide (ga_resolution a = GoalCleared)
                                   | None => false end
                      end))
    (fun _ i => mkInstance (match attempt with Some id => in_owned i ∖ {[id]} | None => in_owned i end)
                  (delete (goal, number) (in_grants i)))
    id.

(** ** Reads *)

(** [resume] *)
Definition resume (goal : string) (number : Z) (s : GoalStore) : outcome Generation :=
  row ← generation_one goal (gs_ledger s);
  let changed := StaleAttemptError "Goal generation changed before resume." in
  current ← of_option row changed;
  _ ← refuse (negb (gn_number current =? number)) changed;
  _ ← refuse (negb (generation_ready (gn_lifecycle current)))
      (UnresolvedAttemptError "Explicit attempt resolution is required before resume.");
  _ ← ready_grant goal number s;
  Ok current.

(** [GenerationState.resume_status] *)
Definition resume_status (g : Generation) (executing : bool) : outcome unit :=
  match gn_lifecycle g with
  | BlockedGeneration =>
      Err (GoalRefused ("The interrupted goal attempt is unresolved. Inspect it, then use "
             +:+ "Retry to authorize a new attempt. Your messages can still be sent."))
  | lifecycle => refuse (negb (allows_resume lifecycle executing))
                   (GoalRefused "The goal attempt is unresolved; inspect it before Retry.")
  end.

(** [LaunchPermit.is_claimed] *)
Definition is_claimed (r : Reservation) (first second : Ledger) : outcome bool :=
  readback r ClaimedAttempt (reserved_generation r) first second.

(** [stopped_permit] *)
Definition stopped_permit (goal : string) (l : Ledger) : outcome (option Reservation) :=
  g ← require_generation goal l;
  match gn_lifecycle g, gn_attempt g with
  | ReservedGeneration, Some attempt =>
      a ← of_option (lg_attempts l !! attempt)
            (StorageUncertainError ("Goal attempt " +:+ attempt +:+ " has no ledger row."));
      Ok (Some (ga_reservation a))
  | ReservedGeneration, None => Err (ValueError "A required value is absent.")
  | _, _ => Ok None
  end.

(** ** Launching a turn *)

(** Run an operation that may already be refused before its change. *)
Definition perform_change {A : Type} (request : GoalStore -> outcome (Change A)) (s : GoalStore)
    : outcome A * GoalStore :=
  match request s with Ok c => change c s | Err e => (Err e, s) end.

(** [Goals.ready_goal_grant_locked]; [owner_ready] is the check of the executing owner, which
    the code reads from the registry *)
Definition ready_goal_grant (owner_ready : outcome unit) (goal : string) (number : Z) (fresh : string)
    (s : GoalStore) : outcome string * GoalStore :=
  match owner_ready with
  | Err _ => (Err (StaleAttemptError "The executing goal owner changed before READY recovery."), s)
  | Ok _ =>
      match ready_grant goal number s with
      | Err (UnresolvedAttemptError _) =>
          match perform_change (fun _ => recover_unreserved_ready goal number fresh) s with
          | (Ok _, s1) => (ready_grant goal number s1, s1)
          | (Err e, s1) => (Err e, s1)
          end
      | other => (other, s)
      end
  end.

(** [store.claim_launch(store.reserve(...))] *)
Definition launch (goal : string) (number : Z) (grant attempt token : string) (s : GoalStore)
    : outcome Reservation * GoalStore :=
  match perform_change (reserve goal number (Some grant) attempt token) s with
  | (Ok r, s1) => perform_change (fun s => claim_launch r (gs_instance s)) s1
  | (Err e, s1) => (Err e, s1)
  end.

(** [GenerationState.turn_permit]: the claimed reservation, or no launch permit *)
Definition turn_permit (owner_ready : outcome unit) (g : Generation) (fresh attempt token : string)
    (s : GoalStore) : outcome (option Reservation) * GoalStore :=
  match gn_lifecycle g with
  | ReadyGeneration =>
      match ready_goal_grant owner_ready (gn_goal g) (gn_number g) fresh s with
      | (Ok grant, s1) =>
          match launch (gn_goal g) (gn_number g) grant attempt token s1 with
          | (Ok r, s2) => (Ok (Some r), s2)
          | (Err e, s2) => (Err e, s2)
          end
      | (Err e, s1) => (Err e, s1)
      end
  | _ => (Ok None, s)
  end.
