(* ===== verification/GoalActions.v ===== *)
(** * Goal actions

    Models the goal declaration of a thread ([goals.py]) and the actions that change it
    ([goal_actions.py]): who may take an action, what it expects, and how it moves the
    declared goal together with the attempt ledger.  The two are separate stores, so an
    action that is refused late keeps what it already did to the ledger.  What an action
    asks of the registry, of the Todo store, of the waits and of the bus is its context;
    minted identities and secrets are arguments. *)

From stdpp Require Import base gmap strings list.
From Stdlib Require Import ZArith Lia Ascii.
From S2P Require Import Prelude Contracts Lifecycle GoalStates Sha256 GoalLedger GoalStore.

(** ** Goals *)

Inductive GoalOrder : Type := UnorderedGoalOrder | ProblemGoalOrder.

#[export] Instance GoalOrder_eq_dec : EqDecision GoalOrder.
Proof. solve_decision. Defined.

(** The mentions bound to one revision of a goal's text *)
Record GoalMentionSource : Type := mkGoalMentionSource {
  ms_goal : string;
  ms_revision : Z;
  ms_digest : string;
  ms_bindings : list string;
}.

#[export] Instance GoalMentionSource_eq_dec : EqDecision GoalMentionSource.
Proof. solve_decision. Defined.

Record Goal : Type := mkGoal {
  go_text : string;
  go_id : string;
  go_published_seq : Z;
  go_progress : string;
  go_revision : Z;
  go_reported_turn : option string;
  go_mentions : option GoalMentionSource;
  go_state : GoalState;
  go_order : GoalOrder;
}.

#[export] Instance Goal_eq_dec : EqDecision Goal.
Proof. solve_decision. Defined.

(** [GoalRevision.__post_init__] *)
Definition revision_checked (revision : Z) : outcome unit :=
  refuse (negb ((0 <=? revision) && (revision <? 2 ^ 63)))
    (ValueError "Goal revision must be an exact nonnegative 63-bit integer.").

(** [Goal.__post_init__] *)
Definition goal_post_init (g : Goal) : outcome Goal :=
  _ ← refuse (blank (go_text g) || bool_decide (go_id g = "")) (ValueError "A goal requires text and an identity.");
  _ ← revision_checked (go_revision g);
  _ ← refuse (go_published_seq g <? 0) (ValueError "Goal publication requires a nonnegative bus sequence.");
  Ok g.

(** ** Checkpoints *)

Inductive GoalCheckpoint : Type :=
| UnobservedGoalCheckpoint
| AbsentGoalCheckpoint
| PresentGoalCheckpoint (id : string) (revision : Z).

#[export] Instance GoalCheckpoint_eq_dec : EqDecision GoalCheckpoint.
Proof. solve_decision. Defined.

(** [GoalDeclaration.captured] *)
Definition captured (goal : option Goal) : GoalCheckpoint :=
  match goal with Some g => PresentGoalCheckpoint (go_id g) (go_revision g) | None => AbsentGoalCheckpoint end.

(** [GoalCheckpoint.matches] *)
Definition checkpoint_matches (c : GoalCheckpoint) (goal : option Goal) : bool :=
  match c with UnobservedGoalCheckpoint => true | c => bool_decide (c = captured goal) end.

(** ** Orders *)

(** What an action asks outside the goal and the ledger: [cx_assigned] and [cx_pending] are
    what the Todo store answers for the goal's order, [cx_sendable], [cx_request] and
    [cx_review] whether the order of a problem may be sent, its request is open and its review
    time recorded, [cx_reserve] whether the Todo transaction takes the order for a goal,
    [cx_todo] whether it takes the operation of a held order, [cx_standby] whether the wait
    of a standby is recorded, [cx_bindings] what the registry resolves of a text, and
    [cx_publish] whether the registry takes the publication. *)
Inductive GoalActor : Type :=
| ModelInvocable | OwnerInvocable | RuntimeInvocable | OwnerControlInvocable | PeerInvocable.

#[export] Instance GoalActor_eq_dec : EqDecision GoalActor.
Proof. solve_decision. Defined.

Record ActionContext : Type := mkActionContext {
  cx_actor : GoalActor;
  cx_executing : bool;
  cx_reported_turn : option string;
  cx_owner_running : bool;
  cx_assigned : string -> bool;
  cx_pending : bool;
  cx_sendable : outcome unit;
  cx_request : outcome unit;
  cx_review : outcome unit;
  cx_reserve : string -> outcome unit;
  cx_todo : outcome unit;
  cx_standby : outcome unit;
  cx_bus_revision : Z;
  cx_bindings : string -> list string;
  cx_publish : outcome unit;
}.

Definition actor_is_owner (a : GoalActor) : bool := bool_decide (a = OwnerInvocable).
Definition actor_reports_turn (a : GoalActor) : bool := bool_decide (a = ModelInvocable).

(** [GoalActor.actor_pause_source] *)
Definition actor_pause_source (a : GoalActor) : PauseSource :=
  match a with OwnerInvocable => OwnerPause | PeerInvocable => ModelPause | _ => RuntimePause end.

(** [GoalActor.require_actor_consent] *)
Definition require_actor_consent (a : GoalActor) (goal : option Goal) : outcome unit :=
  match a, goal with PeerInvocable, Some g => require_peer_change (go_state g) | _, _ => Ok tt end.

(** [GoalOrder.require_order] *)
Definition order_require_order (cx : ActionContext) (g : Goal) : outcome unit :=
  match go_order g with
  | UnorderedGoalOrder => Ok tt
  | ProblemGoalOrder =>
      refuse (negb (cx_assigned cx (go_id g))) (ValueError "The problem Goal has no assigned Todos.")
  end.

(** [GoalOrder.require_completion] *)
Definition order_require_completion (g : Goal) : outcome unit :=
  match go_order g with
  | UnorderedGoalOrder => Ok tt
  | ProblemGoalOrder => Err (GoalRefused "Complete each problem with its checked delivered commit.")
  end.

(** [GoalOrder.require_replacement] *)
Definition order_require_replacement (cx : ActionContext) (g : Goal) : outcome unit :=
  match go_order g with
  | UnorderedGoalOrder => Ok tt
  | ProblemGoalOrder =>
      refuse (cx_pending cx) (GoalRefused "Finish or release the assigned problems before replacing this Goal.")
  end.

(** [GoalOrder.require_edit] *)
Definition order_require_edit (g : Goal) : outcome unit :=
  match go_order g with
  | UnorderedGoalOrder => Ok tt
  | ProblemGoalOrder => Err (GoalRefused "A problem Goal's text is derived from its assigned problems.")
  end.

(** [GoalOrder.require_model_block] *)
Definition order_require_model_block (g : Goal) : outcome unit :=
  match go_order g with
  | UnorderedGoalOrder => Ok tt
  | ProblemGoalOrder =>
      Err (GoalRefused ("A problem goal is not blocked by text: ask the teammate to block the "
             +:+ "problem's Todo, or standby with wait_for naming the decider."))
  end.

(** ** Preconditions *)

Record GoalPrecondition : Type := mkGoalPrecondition {
  pc_goal : option string;
  pc_state : option GoalState;
  pc_owner : bool;
  pc_checkpoint : GoalCheckpoint;
}.

Definition any_goal : GoalPrecondition := mkGoalPrecondition None None false UnobservedGoalCheckpoint.

(** [GoalDeclaration.require] *)
Definition require_goal (goal : option Goal) : outcome Goal :=
  of_option goal (RelationViolationError "No goal is set for this thread.").

(** [GoalPrecondition.check]; [pc_owner] asks for the process the registry records, and the
    text of a [GoalChangedError] also names the thread and both checkpoints *)
Definition precondition_check (p : GoalPrecondition) (cx : ActionContext) (goal : option Goal) : outcome unit :=
  _ ← refuse (negb (checkpoint_matches (pc_checkpoint p) goal)) (GoalRefused "the action was not applied");
  _ ← refuse (pc_owner p && negb (cx_owner_running cx)) (ValueError "The goal owner changed; refresh its state.");
  _ ← (match pc_goal p with
       | Some id =>
           g ← require_goal goal;
           refuse (negb (bool_decide (go_id g = id)))
             (RelationViolationError "This goal was replaced or cleared; refresh its state.")
       | None => Ok tt
       end);
  match pc_state p with
  | Some expected =>
      g ← require_goal goal;
      refuse (negb (bool_decide (go_state g = expected))) (GoalRefused (activity_refusal (go_state g)))
  | None => Ok tt
  end.

(** ** Actions *)

Inductive GoalAction : Type :=
| ActiveGoalAction (progress : option string)
| CompliedGoalAction (progress : option string) (witness grant : string)
| CompletedGoalAction (progress : option string)
| BlockedGoalAction (progress block_reason : option string)
| PausedGoalAction (progress : option string)
| ChokeholdPausedGoalAction (progress : option string)
| RetryGoalAction (progress : option string) (decision grant : string)
| SetGoalAction (text : string) (order : GoalOrder) (goal_id grant : string)
| ClearGoalAction
| EditGoalAction (text : string)
| PreparedStandbyGoalAction (progress : option string)
| HeldOrderGoalAction
| SentBackOrderGoalAction
| HeadReviewedOrderGoalAction
| OrderGoalAction (order goal_id grant : string)
| ReissuedOrderGoalAction (order goal_id grant : string)
| CreateProblemGoalAction (order goal_id grant : string).

Definition action_name (action : GoalAction) : string :=
  match action with
  | ActiveGoalAction _ => "active"
  | CompliedGoalAction _ _ _ => "complied"
  | CompletedGoalAction _ => "completed"
  | BlockedGoalAction _ _ => "blocked"
  | PausedGoalAction _ => "paused"
  | ChokeholdPausedGoalAction _ => "chokehold_paused"
  | RetryGoalAction _ _ _ => "retry"
  | SetGoalAction _ _ _ _ => "set"
  | ClearGoalAction => "clear"
  | EditGoalAction _ => "edit"
  | PreparedStandbyGoalAction _ => ""
  | HeldOrderGoalAction => "held_order"
  | SentBackOrderGoalAction => "sent_back_order"
  | HeadReviewedOrderGoalAction => "head_reviewed_order"
  | OrderGoalAction _ _ _ => "order"
  | ReissuedOrderGoalAction _ _ _ => "reissued_order"
  | CreateProblemGoalAction _ _ _ => "create_problem"
  end.

(** [repr] of the declared name *)
Definition action_repr (action : GoalAction) : string :=
  match action with PreparedStandbyGoalAction _ => "None" | _ => "'" +:+ action_name action +:+ "'" end.

(** The actors among an action's bases *)
Definition admits (action : GoalAction) (a : GoalActor) : bool :=
  bool_decide (a ∈ match action with
    | ActiveGoalAction _ =>
        [ModelInvocable; OwnerInvocable; RuntimeInvocable; OwnerControlInvocable; PeerInvocable]
    | CompliedGoalAction _ _ _ => [OwnerInvocable]
    | CompletedGoalAction _ | BlockedGoalAction _ _ | RetryGoalAction _ _ _ =>
        [ModelInvocable; OwnerInvocable; RuntimeInvocable]
    | PausedGoalAction _ | ChokeholdPausedGoalAction _ | ClearGoalAction =>
        [OwnerInvocable; RuntimeInvocable; OwnerControlInvocable; PeerInvocable]
    | SetGoalAction _ _ _ _ | EditGoalAction _ => [OwnerInvocable; RuntimeInvocable; PeerInvocable]
    | PreparedStandbyGoalAction _ => [ModelInvocable; RuntimeInvocable]
    | HeldOrderGoalAction | SentBackOrderGoalAction | HeadReviewedOrderGoalAction
    | OrderGoalAction _ _ _ | ReissuedOrderGoalAction _ _ _ | CreateProblemGoalAction _ _ _ => [RuntimeInvocable]
    end).

(** ** Changing the goal *)

(** The declared goal of a thread and the store its actions open *)
Record GoalDesk : Type := mkGoalDesk {
  gd_goal : option Goal;
  gd_store : GoalStore;
}.

Definition D (A : Type) : Type := GoalStore -> outcome A * GoalStore.
#[export] Instance D_ret : MRet D := fun A a s => (Ok a, s).
#[export] Instance D_bind : MBind D := fun A B f m s =>
  match m s with (Ok a, s') => f a s' | (Err e, s') => (Err e, s') end.

Definition d_lift {A : Type} (o : outcome A) : D A := fun s => (o, s).
Definition d_read {A : Type} (f : Ledger -> outcome A) : D A := fun s => (f (gs_ledger s), s).

(** The change an operation asks for, if it asks for one *)
Definition d_change {A : Type} (request : Ledger -> outcome (option (Change A))) : D unit := fun s =>
  match request (gs_ledger s) with
  | Ok (Some c) => match change c s with (Ok _, s') => (Ok tt, s') | (Err e, s') => (Err e, s') end
  | Ok None => (Ok tt, s)
  | Err e => (Err e, s)
  end.

Definition always_change {A : Type} (o : outcome (Change A)) : outcome (option (Change A)) :=
  c ← o; Ok (Some c).

(** [required_block_reason] *)
Definition required_block_reason (reason : option string) : outcome string :=
  let missing := ValueError "Blocking a goal requires a nonempty reason for the needed input." in
  text ← of_option reason missing;
  _ ← refuse (blank text) missing;
  _ ← refuse (1024 <? len (strip text)) (ValueError "A blocked-goal reason must be at most 1024 characters.");
  Ok (strip text).

(** [replace(goal, reported_turn=...)] *)
Definition with_reported_turn (turn : option string) (g : Goal) : Goal :=
  mkGoal (go_text g) (go_id g) (go_published_seq g) (go_progress g) (go_revision g) turn (go_mentions g)
    (go_state g) (go_order g).

(** [GoalReportAction.change] keeps the reporting turn first. *)
Definition reported (cx : ActionContext) (g : Goal) : Goal :=
  if actor_reports_turn (cx_actor cx) then with_reported_turn (cx_reported_turn cx) g else g.

(** [TransitionGoalAction.next_state] of each action *)
Definition next_state (action : GoalAction) (cx : ActionContext) (g : Goal) : outcome GoalState :=
  match action with
  | CompletedGoalAction _ => Ok CompletedGoal
  | BlockedGoalAction progress block_reason =>
      _ ← (if actor_reports_turn (cx_actor cx) then order_require_model_block g else Ok tt);
      reason ← required_block_reason (match block_reason with Some r => Some r | None => progress end);
      blocked_goal reason
  | PausedGoalAction _ => Ok (PausedGoal (default (actor_pause_source (cx_actor cx)) (pause_source (go_state g))))
  | ChokeholdPausedGoalAction _ => Ok (PausedGoal ChokeholdPause)
  | _ => Ok ActiveGoal
  end.

(** [TransitionGoalAction.require_transition], which a retry asks the ledger instead *)
Definition require_transition (action : GoalAction) (cx : ActionContext) (g : Goal) (state : GoalState) : D unit :=
  match action with
  | RetryGoalAction _ decision grant =>
      d_change (fun l => always_change (authorize_current_retry (go_id g) (RetryDecision decision) grant l))
  | _ => d_lift (check_transition (go_state g) state (actor_is_owner (cx_actor cx)))
  end.

(** [TransitionGoalAction.before_transition] *)
Definition before_transition (action : GoalAction) (cx : ActionContext) (g : Goal) : D unit :=
  match action with
  | ActiveGoalAction _ =>
      generation ← d_read (require_generation (go_id g));
      d_lift (resume_status generation (cx_executing cx))
  | CompliedGoalAction _ witness grant =>
      generation ← d_read (require_generation (go_id g));
      _ ← d_change (continue_work generation (ComplianceDecision witness) grant);
      resumed ← d_read (require_generation (go_id g));
      d_lift (resume_status resumed (cx_executing cx))
  | CompletedGoalAction _ => d_lift (order_require_completion g)
  | _ => mret tt
  end.

(** [TransitionGoalAction.before_goal_publish], which records the wait of a standby *)
Definition before_goal_publish (action : GoalAction) (cx : ActionContext) : outcome unit :=
  match action with PreparedStandbyGoalAction _ => cx_standby cx | _ => Ok tt end.

(** [TransitionGoalAction.change] *)
Definition transition (action : GoalAction) (progress : option string) (cx : ActionContext) (g : Goal) : D Goal :=
  _ ← d_lift (match action with CompliedGoalAction _ _ _ => Ok tt | _ => order_require_order cx g end);
  state ← d_lift (next_state action cx g);
  _ ← require_transition action cx g state;
  _ ← before_transition action cx g;
  changed ← d_lift (goal_post_init
    (mkGoal (go_text g) (go_id g) (go_published_seq g) (default (go_progress g) progress) (go_revision g + 1)
       (go_reported_turn g) (go_mentions g) state (go_order g)));
  _ ← d_lift (before_goal_publish action cx);
  mret changed.

(** [bind_goal_mentions] *)
Definition bind_goal_mentions (cx : ActionContext) (text goal_id : string) (revision : Z) : GoalMentionSource :=
  mkGoalMentionSource goal_id revision (Sha256.sha256_hex text) (cx_bindings cx text).

(** [SetGoalAction.create] *)
Definition set_create (cx : ActionContext) (text : string) (order : GoalOrder) (goal_id grant : string) : D Goal :=
  g ← d_lift (goal_post_init (mkGoal (strip text) goal_id (cx_bus_revision cx) "" 1 None
                (Some (bind_goal_mentions cx (strip text) goal_id 1)) ActiveGoal order));
  _ ← d_change (fun _ => always_change (create_goal goal_id grant));
  mret g.

(** [HeldOrderGoalAction.change] *)
Definition held_change (cx : ActionContext) (g : Goal) : D Goal :=
  _ ← d_lift (cx_todo cx);
  d_lift (goal_post_init
    (mkGoal (go_text g) (go_id g) (go_published_seq g) (go_progress g) (go_revision g + 1) (go_reported_turn g)
       (go_mentions g) (go_state g) (go_order g))).

(** [ProblemGoalOrder.text] *)
Definition problem_text : string := "Complete the assigned problems.".

(** [ProblemOrderGoalAction.require_ready]; an order that is reissued was sendable before. *)
Definition order_require_ready (reissued : bool) (cx : ActionContext) : outcome unit :=
  _ ← (if reissued then Ok tt else cx_sendable cx);
  _ ← cx_request cx;
  cx_review cx.

(** [ProblemOrderGoalAction.continue_goal] *)
Definition continue_goal (reissued : bool) (order grant : string) (cx : ActionContext) (g : Goal) : D Goal :=
  _ ← d_lift (order_require_ready reissued cx);
  _ ← d_lift (cx_reserve cx (go_id g));
  generation ← d_read (require_generation (go_id g));
  _ ← d_change (continue_work generation (OrderDecision order) grant);
  d_lift (goal_post_init
    (mkGoal problem_text (go_id g) (go_published_seq g) "" (go_revision g + 1) (go_reported_turn g)
       (Some (bind_goal_mentions cx problem_text (go_id g) (go_revision g + 1))) (go_state g) ProblemGoalOrder)).

(** [ProblemOrderGoalAction.create], which sets a fresh goal *)
Definition order_create (reissued : bool) (goal_id grant : string) (cx : ActionContext) : D Goal :=
  _ ← d_lift (order_require_ready reissued cx);
  _ ← d_lift (cx_reserve cx goal_id);
  set_create cx problem_text ProblemGoalOrder goal_id grant.

(** [replace(goal, state=...)] *)
Definition with_goal_state (state : GoalState) (g : Goal) : Goal :=
  mkGoal (go_text g) (go_id g) (go_published_seq g) (go_progress g) (go_revision g) (go_reported_turn g)
    (go_mentions g) state (go_order g).

(** [GoalState.accept_order] of each state *)
Definition accept_order (reissued : bool) (order goal_id grant : string) (cx : ActionContext) (g : Goal) : D Goal :=
  match go_state g with
  | ActiveGoal => continue_goal reissued order grant cx g
  | PausedGoal _ =>
      _ ← d_lift (require_model_resume (go_state g));
      continue_goal reissued order grant cx g
  | BlockedGoal _ | UnrecordedBlockGoal =>
      continued ← continue_goal reissued order grant cx g;
      d_lift (goal_post_init (with_goal_state ActiveGoal continued))
  | CompletedGoal =>
      _ ← d_lift (order_require_replacement cx g);
      order_create reissued goal_id grant cx
  end.

(** [GoalAction.change], of an existing goal *)
Definition action_change (action : GoalAction) (cx : ActionContext) (g : Goal) : D (option Goal) :=
  match action with
  | ActiveGoalAction progress | CompletedGoalAction progress | BlockedGoalAction progress _
  | PreparedStandbyGoalAction progress =>
      changed ← transition action progress cx (reported cx g); mret (Some changed)
  | CompliedGoalAction progress _ _ | PausedGoalAction progress | ChokeholdPausedGoalAction progress
  | RetryGoalAction progress _ _ =>
      changed ← transition action progress cx g; mret (Some changed)
  | SetGoalAction text order goal_id grant =>
      if bool_decide (go_id g = goal_id) then
        _ ← d_lift (refuse (negb (bool_decide ((go_text g, go_order g) = (strip text, order))))
                      (ValueError "Goal identity already has different instructions."));
        mret (Some g)
      else
        _ ← d_lift (order_require_replacement cx g);
        created ← set_create cx text order goal_id grant; mret (Some created)
  | ClearGoalAction => _ ← d_lift (order_require_replacement cx g); mret None
  | EditGoalAction text =>
      _ ← d_lift (order_require_edit g);
      _ ← d_lift (refuse (blank text) (ValueError "A goal requires text."));
      edited ← d_lift (goal_post_init
        (mkGoal (strip text) (go_id g) (go_published_seq g) (go_progress g) (go_revision g + 1)
           (go_reported_turn g) (Some (bind_goal_mentions cx (strip text) (go_id g) (go_revision g + 1)))
           (go_state g) (go_order g)));
      mret (Some edited)
  | HeldOrderGoalAction | SentBackOrderGoalAction | HeadReviewedOrderGoalAction =>
      revised ← held_change cx g; mret (Some revised)
  | OrderGoalAction order goal_id grant | CreateProblemGoalAction order goal_id grant =>
      accepted ← accept_order false order goal_id grant cx g; mret (Some accepted)
  | ReissuedOrderGoalAction order goal_id grant =>
      accepted ← accept_order true order goal_id grant cx g; mret (Some accepted)
  end.

(** [GoalAction.create], when the thread has no goal *)
Definition action_create (action : GoalAction) (cx : ActionContext) : D (option Goal) :=
  match action with
  | SetGoalAction text order goal_id grant =>
      created ← set_create cx text order goal_id grant; mret (Some created)
  | ClearGoalAction => mret None
  | OrderGoalAction _ goal_id grant | CreateProblemGoalAction _ goal_id grant =>
      created ← order_create false goal_id grant cx; mret (Some created)
  | ReissuedOrderGoalAction _ goal_id grant =>
      created ← order_create true goal_id grant cx; mret (Some created)
  | _ => d_lift (Err (RelationViolationError "No goal is set for this action."))
  end.

(** [ReplacementGoalAction.retire] *)
Definition retire (g : Goal) : D unit :=
  d_change (fun l =>
    row ← generation_one (go_id g) l;
    Ok (match row with
        | Some generation =>
            if has_capability (gn_lifecycle generation) Settled then None
            else Some (retire_goal (go_id g) (gn_number generation) (gn_attempt generation))
        | None => None
        end)).

(** [GoalAction.before_publish] *)
Definition before_publish (action : GoalAction) (previous : option Goal) : D unit :=
  match action, previous with
  | SetGoalAction _ _ _ _, Some g | ClearGoalAction, Some g => retire g
  | _, _ => mret tt
  end.

(** [GoalAction.apply], under the registry edit that publishes it *)
Definition apply_action (expect : GoalPrecondition) (action : GoalAction) (cx : ActionContext) (desk : GoalDesk)
    : outcome (option Goal) * GoalDesk :=
  let previous := gd_goal desk in
  let body : D (option Goal) :=
    _ ← d_lift (precondition_check expect cx previous);
    _ ← d_lift (require (admits action (cx_actor cx))
                  (ValueError ("This actor cannot take goal action " +:+ action_repr action +:+ ".")));
    _ ← d_lift (require_actor_consent (cx_actor cx) previous);
    goal ← (match previous with Some g => action_change action cx g | None => action_create action cx end);
    if bool_decide (goal = previous) then mret goal
    else
      _ ← before_publish action previous;
      _ ← d_lift (cx_publish cx);
      mret goal in
  match body (gd_store desk) with
  | (Ok goal, s) => (Ok goal, mkGoalDesk goal s)
  | (Err e, s) => (Err e, mkGoalDesk previous s)
  end.
