(* ===== verification/GoalMachine.v ===== *)
(** * What a change of the goal ledger may do

    The steps of the ledger, free of transactions, digests of grants, refusals and readback:
    which generation and attempt each kind of change moves, and what authorises a new
    generation.  Every committed write of the store is one of these steps. *)

From stdpp Require Import base gmap strings list.
From Stdlib Require Import ZArith Lia Ascii.
From S2P Require Import Prelude Contracts Lifecycle GoalStates Sha256 GoalLedger GoalStore.

(** ** The machine *)

Record Core : Type := mkCore {
  generations : gmap string Generation;
  attempted : gmap string GoalAttempt;
  decided : gmap (string * WorkDecision) Z;
}.

Definition core (l : Ledger) : Core := mkCore (lg_generations l) (lg_attempts l) (lg_decisions l).

(** The current generation of goal [g], whatever its grant *)
Definition generation_at (c : Core) (g : string) (n : Z) (s : GenerationState) (a : option string) : Prop :=
  exists digest, generations c !! g = Some (mkGeneration g n s a digest).

Definition moved (c : Core) (g : string) (n : Z) (s : GenerationState) (a : option string) (digest : string)
    : gmap string Generation :=
  <[g := mkGeneration g n s a digest]> (generations c).

Definition attempt_moved (c : Core) (r : Reservation) (p : GoalAttemptPhase) (w : option string)
    (resolution : AttemptResolution) : gmap string GoalAttempt :=
  <[rs_attempt r := mkGoalAttempt r p w resolution]> (attempted c).

(** The attempt of reservation [r] is in phase [p]. *)
Definition attempt_in (c : Core) (r : Reservation) (p : GoalAttemptPhase) : Prop :=
  exists w resolution, attempted c !! rs_attempt r = Some (mkGoalAttempt r p w resolution).

Inductive goal_step (c : Core) : Core -> Prop :=
| goal_created g digest :
    generations c !! g = None ->
    goal_step c (mkCore (moved c g 1 ReadyGeneration None digest) (attempted c) (decided c))
| grant_rotated g n digest :
    generation_at c g n ReadyGeneration None ->
    goal_step c (mkCore (moved c g n ReadyGeneration None digest) (attempted c) (decided c))
| attempt_reserved r :
    generation_at c (rs_goal r) (rs_generation r) ReadyGeneration None ->
    attempted c !! rs_attempt r = None ->
    goal_step c (mkCore (moved c (rs_goal r) (rs_generation r) ReservedGeneration (Some (rs_attempt r)) "")
                   (attempt_moved c r ReservedAttempt None NoResolution) (decided c))
| attempt_claimed r :
    generation_at c (rs_goal r) (rs_generation r) ReservedGeneration (Some (rs_attempt r)) ->
    attempt_in c r ReservedAttempt ->
    goal_step c (mkCore (generations c) (attempt_moved c r ClaimedAttempt None NoResolution) (decided c))
| attempt_failed r p diagnostic :
    generation_at c (rs_goal r) (rs_generation r) ReservedGeneration (Some (rs_attempt r)) ->
    attempt_in c r p -> may_become p FailedAttempt = true ->
    goal_step c (mkCore (moved c (rs_goal r) (rs_generation r) BlockedGeneration (Some (rs_attempt r)) "")
                   (attempt_moved c r FailedAttempt None diagnostic) (decided c))
| progress_verified r witness digest :
    generation_at c (rs_goal r) (rs_generation r) ReservedGeneration (Some (rs_attempt r)) ->
    attempt_in c r ClaimedAttempt ->
    goal_step c (mkCore (moved c (rs_goal r) (rs_generation r + 1) ReadyGeneration None digest)
                   (attempt_moved c r SucceededAttempt (Some witness) NoResolution) (decided c))
| attempt_stopped r digest :
    generation_at c (rs_goal r) (rs_generation r) ReservedGeneration (Some (rs_attempt r)) ->
    attempt_in c r ClaimedAttempt ->
    goal_step c (mkCore (moved c (rs_goal r) (rs_generation r + 1) ReadyGeneration None digest)
                   (attempt_moved c r FailedAttempt None OperatorStopped) (decided c))
| completion_verified r witness :
    generation_at c (rs_goal r) (rs_generation r) ReservedGeneration (Some (rs_attempt r)) ->
    attempt_in c r ClaimedAttempt ->
    goal_step c (mkCore (moved c (rs_goal r) (rs_generation r) CompletedGeneration (Some (rs_attempt r)) "")
                   (attempt_moved c r SucceededAttempt (Some witness) NoResolution) (decided c))
| ready_recovered g n d digest :
    generation_at c g n ReadyGeneration None -> decided c !! (g, d) = None ->
    goal_step c (mkCore (moved c g (n + 1) ReadyGeneration None digest) (attempted c)
                   (<[(g, d) := n]> (decided c)))
| retry_authorized r d digest :
    generation_at c (rs_goal r) (rs_generation r) BlockedGeneration (Some (rs_attempt r)) ->
    attempt_in c r FailedAttempt -> decided c !! (rs_goal r, d) = None ->
    goal_step c (mkCore (moved c (rs_goal r) (rs_generation r + 1) ReadyGeneration None digest)
                   (attempt_moved c r ResolvedAttempt None (DecidedResolution d))
                   (<[(rs_goal r, d) := rs_generation r]> (decided c)))
| ready_retired g n :
    generation_at c g n ReadyGeneration None ->
    goal_step c (mkCore (moved c g n CancelledGeneration None "") (attempted c) (decided c))
| attempt_retired r s p :
    generation_at c (rs_goal r) (rs_generation r) s (Some (rs_attempt r)) ->
    attempt_in c r p -> permits_retirement s p = true ->
    goal_step c (mkCore (moved c (rs_goal r) (rs_generation r) CancelledGeneration (Some (rs_attempt r)) "")
                   (attempt_moved c r ResolvedAttempt None GoalCleared) (decided c)).

(** ** Well-formed ledgers *)

(** How the current attempt stands for each lifecycle of its generation *)
Definition phase_fits (s : GenerationState) (p : GoalAttemptPhase) : bool :=
  match s with
  | ReadyGeneration => false
  | ReservedGeneration => bool_decide (p = ReservedAttempt) || bool_decide (p = ClaimedAttempt)
  | BlockedGeneration => bool_decide (p = FailedAttempt)
  | CompletedGeneration => bool_decide (p = SucceededAttempt)
  | CancelledGeneration => bool_decide (p = ResolvedAttempt)
  end.

Definition attempt_over (p : GoalAttemptPhase) : bool :=
  negb (bool_decide (p = ReservedAttempt)) && negb (bool_decide (p = ClaimedAttempt)).

(** Why generation [n] of goal [g] was followed by another *)
Definition authorised (c : Core) (g : string) (n : Z) : Prop :=
  (exists d, decided c !! (g, d) = Some n) \/
  (exists id a, attempted c !! id = Some a /\ rs_goal (ga_reservation a) = g /\
     rs_generation (ga_reservation a) = n /\
     (ga_phase a = SucceededAttempt \/ ga_phase a = FailedAttempt /\ ga_resolution a = OperatorStopped)).

Record core_wf (c : Core) : Prop := {
  wf_generation : forall g G, generations c !! g = Some G ->
    gn_goal G = g /\ 1 <= gn_number G /\ validate_attempt (gn_lifecycle G) (gn_attempt G) = Ok tt;
  wf_attempt_key : forall id a, attempted c !! id = Some a -> rs_attempt (ga_reservation a) = id;
  wf_current : forall g G id, generations c !! g = Some G -> gn_attempt G = Some id ->
    exists a, attempted c !! id = Some a /\ rs_goal (ga_reservation a) = g /\
      rs_generation (ga_reservation a) = gn_number G /\ phase_fits (gn_lifecycle G) (ga_phase a) = true;
  wf_attempt : forall id a, attempted c !! id = Some a ->
    exists G, generations c !! rs_goal (ga_reservation a) = Some G /\
      (rs_generation (ga_reservation a) = gn_number G /\ gn_attempt G = Some id \/
       1 <= rs_generation (ga_reservation a) < gn_number G /\ attempt_over (ga_phase a) = true);
  wf_unique : forall id id' a a', attempted c !! id = Some a -> attempted c !! id' = Some a' ->
    rs_goal (ga_reservation a) = rs_goal (ga_reservation a') ->
    rs_generation (ga_reservation a) = rs_generation (ga_reservation a') -> id = id';
  wf_authorised : forall g G n, generations c !! g = Some G -> 1 <= n < gn_number G -> authorised c g n;
}.

(** ** Every committed write is a step *)

Lemma tx_bind_ok {A B : Type} (m : Tx A) (f : A -> Tx B) l b l' :
  (m ≫= f) l = Ok (b, l') <-> exists a l1, m l = Ok (a, l1) /\ f a l1 = Ok (b, l').
Proof.
  unfold mbind, Tx_bind. destruct (m l) as [[a l1]|e]; split.
  - eauto.
  - intros (? & ? & [= <- <-] & H). exact H.
  - discriminate.
  - intros (? & ? & H & _). discriminate H.
Qed.

Lemma tx_read_ok {A : Type} (f : Ledger -> outcome A) l a l' :
  tx_read f l = Ok (a, l') <-> f l = Ok a /\ l' = l.
Proof. unfold tx_read. destruct (f l); simpl; split; [intros [= -> ->]; done | intros [[= ->] ->]; done | done | intros [? _]; done]. Qed.

Lemma tx_lift_ok {A : Type} (o : outcome A) l a l' :
  tx_lift o l = Ok (a, l') <-> o = Ok a /\ l' = l.
Proof. unfold tx_lift. destruct o; simpl; split; [intros [= -> ->]; done | intros [[= ->] ->]; done | done | intros [? _]; done]. Qed.

Lemma tx_ret_ok {A : Type} (a b : A) l l' : (mret a : Tx A) l = Ok (b, l') <-> a = b /\ l = l'.
Proof. unfold mret, Tx_ret. split; [intros [= -> ->]; done | intros [-> ->]; done]. Qed.

Ltac tx_step :=
  match goal with
  | H : mbind _ _ _ = Ok (_, _) |- _ => apply tx_bind_ok in H; destruct H as (? & ? & ? & H)
  | H : tx_read _ _ = Ok (_, _) |- _ => apply tx_read_ok in H; destruct H as [H ->]
  | H : tx_lift _ _ = Ok (_, _) |- _ => apply tx_lift_ok in H; destruct H as [H ->]
  | H : mret _ _ = Ok (_, _) |- _ => apply tx_ret_ok in H; destruct H as [<- <-]
  end.
Ltac tx_inv := repeat first [progress tx_step | progress ok_step]; bools; simplify_eq.

Lemma generation_one_ok g l row : generation_one g l = Ok row -> lg_generations l !! g = row.
Proof.
  unfold generation_one. destruct (lg_generations l !! g) as [G|]; [|by intros [= <-]].
  destruct (generation_post_init G); [by intros [= <-] | done].
Qed.

Lemma is_exactly_ok row g n s a :
  is_exactly row (mkGeneration g n s a "") = true <-> exists digest, row = Some (mkGeneration g n s a digest).
Proof.
  unfold is_exactly, same_generation. destruct row as [[g' n' s' a' digest]|]; simpl.
  - rewrite bool_decide_eq_true. split.
    + intros [= -> -> -> ->]. by exists digest.
    + by intros (? & [= -> -> -> -> ->]).
  - split; [done | intros (? & ?); done].
Qed.

Lemma generation_ok g n s a G : generation g n s a = Ok G -> G = mkGeneration g n s a "".
Proof. unfold generation. intros H. ok_inv. done. Qed.

Lemma require_exact_ok g n s a e l G l' :
  require_exact g n s a e l = Ok (G, l') ->
  l' = l /\ lg_generations l !! g = Some G /\ exists digest, G = mkGeneration g n s a digest.
Proof.
  unfold require_exact. intros H. tx_inv.
  match goal with H : generation_one _ _ = _ |- _ => apply generation_one_ok in H as Hrow end.
  match goal with H : generation _ _ _ _ = _ |- _ => apply generation_ok in H as -> end.
  match goal with H : is_exactly _ _ = true |- _ => apply is_exactly_ok in H as [digest [= ->]] end.
  eauto.
Qed.

Lemma generation_advance_ok self successor digest l v l' G :
  lg_generations l !! gn_goal self = Some G ->
  generation_advance self successor digest l = Ok (v, l') ->
  l' = set_generation (mkGeneration (gn_goal self) (gn_number successor) (gn_lifecycle successor)
                         (gn_attempt successor) digest) l /\
  may_become (gn_lifecycle self) (gn_lifecycle successor) = true.
Proof. intros HG. unfold generation_advance. rewrite HG. intros H. tx_inv. done. Qed.

Lemma attempt_advance_ok r p0 w0 res0 p w res l u l' :
  lg_attempts l !! rs_attempt r = Some (mkGoalAttempt r p0 w0 res0) ->
  attempt_advance (mkGoalAttempt r p0 w0 res0) p w res l = Ok (u, l') ->
  l' = set_attempt (mkGoalAttempt r p w res) l /\ may_become p0 p = true.
Proof. intros Ha. unfold attempt_advance. simpl. rewrite Ha. intros H. tx_inv. done. Qed.

Lemma reserved_by_ok r e l a :
  reserved_by r e l = Ok a ->
  exists p w res, a = mkGoalAttempt r p w res /\ lg_attempts l !! rs_attempt r = Some a.
Proof. unfold reserved_by. intros H. ok_inv. bools. destruct a as [r' p w res]. simpl in *. subst. eauto. Qed.

Lemma identified_ok g n id e l a :
  identified (g, n, id) e l = Ok a ->
  exists token p w res, a = mkGoalAttempt (mkReservation g n id token) p w res /\ lg_attempts l !! id = Some a.
Proof.
  unfold identified. intros H. ok_inv. bools. destruct a as [[g' n' id' token] p w res].
  unfold rs_identity in *. simpl in *. simplify_eq. eauto 10.
Qed.

Lemma require_current_ok r p l a l' :
  require_current r p l = Ok (a, l') ->
  l' = l /\ (exists w res, a = mkGoalAttempt r p w res) /\ lg_attempts l !! rs_attempt r = Some a /\
  generation_at (core l) (rs_goal r) (rs_generation r) ReservedGeneration (Some (rs_attempt r)).
Proof.
  unfold require_current. intros H. tx_inv.
  match goal with H : generation_one _ _ = _ |- _ => apply generation_one_ok in H as Hrow end.
  match goal with H : generation _ _ _ _ = _ |- _ => apply generation_ok in H as -> end.
  match goal with H : is_exactly _ _ = true |- _ => apply is_exactly_ok in H as [digest ->] end.
  match goal with H : reserved_by _ _ _ = _ |- _ => apply reserved_by_ok in H as (p' & w & res & -> & Ha) end.
  simpl in *. split; [done|]. split; [by exists w, res|]. split; [done|]. by exists digest.
Qed.

(** A change leaves everything but its three tables to its own rows. *)
Definition steps {A : Type} (c : Change A) : Prop := forall l a l',
  core_wf (core l) -> ch_write c l = Ok (a, l') -> core l' = core l \/ goal_step (core l) (core l').

Lemma ready_change_steps g n grant write c :
  ready_change g n grant write = Ok c ->
  (forall digest l a l', write digest l = Ok (a, l') -> core l' = core l \/ goal_step (core l) (core l')) ->
  steps c.
Proof. unfold ready_change. intros H Hw. ok_inv. intros l a l' _ Hl. exact (Hw _ _ _ _ Hl). Qed.

Lemma create_goal_steps g grant c : create_goal g grant = Ok c -> steps c.
Proof.
  unfold create_goal. intros H. ok_inv. eapply ready_change_steps; [eassumption|].
  intros digest l a l' Hl. right. cbv beta in Hl. unfold generation_insert in Hl. tx_inv.
  match goal with H : generation_one _ _ = _ |- _ => apply generation_one_ok in H as Hrow end.
  apply (goal_created (core l)). simpl.
  destruct (lg_generations l !! g); [|done]. exfalso. eauto.
Qed.

Lemma recover_steps g n grant c : recover_unreserved_ready g n grant = Ok c -> steps c.
Proof.
  intros H. eapply ready_change_steps; [exact H|]. intros digest l a l' Hl. right. cbv beta in Hl. tx_inv.
  match goal with H : require_exact _ _ _ _ _ _ = _ |- _ => apply require_exact_ok in H as (-> & HG & d0 & ->) end.
  eapply generation_advance_ok in Hl as [-> _]; [|exact HG].
  apply (grant_rotated (core l)). by exists d0.
Qed.

Lemma reserve_steps g n grant id token s c : reserve g n grant id token s = Ok c -> steps c.
Proof.
  unfold reserve. destruct (match grant with Some _ => _ | None => _ end); intros H; ok_inv.
  intros l a l' _ Hl. right. simpl in Hl. unfold attempt_insert in Hl. tx_inv.
  match goal with H : require_exact _ _ _ _ _ _ = _ |- _ => apply require_exact_ok in H as (-> & HG & d0 & ->) end.
  match goal with H : generation_advance _ _ _ _ = _ |- _ => eapply generation_advance_ok in H as [-> _]; [|exact HG] end.
  apply (attempt_reserved (core l) (mkReservation g n id token)); [by exists d0|]. simpl in *.
  match goal with H : ~ is_Some _ |- _ => by apply eq_None_not_Some in H end.
Qed.

Lemma claim_launch_steps r i c : claim_launch r i = Ok c -> steps c.
Proof.
  unfold claim_launch. intros H. ok_inv. intros l a l' _ Hl. right. simpl in Hl. tx_inv.
  match goal with H : require_current _ _ _ = _ |- _ =>
    apply require_current_ok in H as (-> & (w & res & ->) & Ha & HG) end.
  match goal with H : attempt_advance _ _ _ _ _ = _ |- _ => eapply attempt_advance_ok in H as [-> _]; [|exact Ha] end.
  apply (attempt_claimed (core l)); [exact HG|]. by exists w, res.
Qed.

Lemma record_observation_core r observed e l u l' :
  record_observation r observed e l = Ok (u, l') -> core l' = core l.
Proof. unfold record_observation. destruct (_ || _); [|destruct (evidence_insertable e l)]; by intros [= _ <-]. Qed.

Lemma fail_steps r diagnostic observation : steps (fail r diagnostic observation).
Proof.
  intros l a l' _ Hl. right. simpl in Hl. tx_inv.
  match goal with H : generation_one _ _ = _ |- _ => apply generation_one_ok in H as HG end.
  match goal with H : generation _ _ _ _ = _ |- _ => apply generation_ok in H as -> end.
  match goal with H : is_exactly _ _ = true |- _ => apply is_exactly_ok in H as [digest [= ->]] end.
  match goal with H : reserved_by _ _ _ = _ |- _ => apply reserved_by_ok in H as (p & w & res & -> & Ha) end.
  match goal with H : attempt_advance _ _ _ _ _ = _ |- _ => eapply attempt_advance_ok in H as [-> Hp]; [|exact Ha] end.
  match type of Hl with generation_advance _ _ _ ?mid = _ =>
    assert (Hmid : core mid = core (set_attempt (mkGoalAttempt r FailedAttempt None diagnostic) l)) end.
  { destruct observation as [[observed e]|]; [destruct (launched _)|];
      (repeat tx_step); [by eapply record_observation_core | done | done]. }
  unfold core in Hmid. injection Hmid as Hg Hat Hd.
  eapply generation_advance_ok in Hl as [-> _]; [|simpl; rewrite Hg; exact HG].
  unfold core. simpl. rewrite Hg, Hat, Hd. simpl.
  apply (attempt_failed (core l) r p diagnostic); [by exists digest | by exists w, res | exact Hp].
Qed.

(** The writes that leave a claimed attempt *)
Lemma settle_claimed r p w res G digest l l1 a v l' :
  require_current r ClaimedAttempt l = Ok (a, l) -> attempt_advance a p w res l = Ok (tt, l1) ->
  generation_advance (reserved_generation r) G digest l1 = Ok (v, l') -> gn_goal G = rs_goal r ->
  core l' = mkCore (moved (core l) (rs_goal r) (gn_number G) (gn_lifecycle G) (gn_attempt G) digest)
              (attempt_moved (core l) r p w res) (lg_decisions l) /\
  generation_at (core l) (rs_goal r) (rs_generation r) ReservedGeneration (Some (rs_attempt r)) /\
  attempt_in (core l) r ClaimedAttempt.
Proof.
  intros (_ & (w0 & res0 & ->) & Ha & [d HG])%require_current_ok Hadv Hgen _.
  eapply attempt_advance_ok in Hadv as [-> _]; [|exact Ha].
  eapply generation_advance_ok in Hgen as [-> _]; [|exact HG].
  split; [done|]. split; [by exists d | by exists w0, res0].
Qed.

Lemma require_current_same r p l a l' : require_current r p l = Ok (a, l') -> l' = l.
Proof. intros H. by apply require_current_ok in H as (-> & _). Qed.

Ltac claimed_write :=
  match goal with H : require_current ?r ?p ?l = Ok (?a, ?l1) |- _ =>
    assert (l1 = l) as -> by (exact (require_current_same _ _ _ _ _ H)) end.

Ltac settle_claimed :=
  match goal with
  | Hr : require_current _ _ _ = _, Ha : attempt_advance _ _ _ _ _ = _, Hl : generation_advance _ _ _ _ = _ |- _ =>
      destruct (settle_claimed _ _ _ _ _ _ _ _ _ _ _ Hr Ha Hl eq_refl) as (-> & ? & ?)
  end.

Lemma progress_steps r witness grant c : record_verified_progress r witness grant = Ok c -> steps c.
Proof.
  unfold record_verified_progress, advance_ready. intros H. ok_inv.
  eapply ready_change_steps; [eassumption|]. intros digest l a l' Hl. right. cbv beta in Hl. unfold record_ready in Hl. tx_inv. claimed_write.
  match goal with u : unit |- _ => destruct u end.
  settle_claimed.
  by apply (progress_verified (core l) r witness digest).
Qed.

Lemma stop_steps r grant l0 c : stop r grant l0 = Ok (Some c) -> steps c.
Proof.
  unfold stop, advance_ready. intros H. apply bind_ok_inv in H as ([] & _ & H); ok_inv.
  eapply ready_change_steps; [eassumption|]. intros digest l a l' Hl. right. cbv beta in Hl. unfold record_ready in Hl. tx_inv. claimed_write.
  match goal with u : unit |- _ => destruct u end.
  settle_claimed.
  by apply (attempt_stopped (core l) r digest).
Qed.

Lemma completion_steps r witness c : record_verified_completion r witness = Ok c -> steps c.
Proof.
  unfold record_verified_completion. intros H. ok_inv. intros l a l' _ Hl. right. simpl in Hl. tx_inv. claimed_write.
  match goal with u : unit |- _ => destruct u end.
  settle_claimed.
  by apply (completion_verified (core l) r witness).
Qed.

Lemma usage_steps r response raw : steps (record_provider_usage r response raw).
Proof.
  intros l a l' _ Hl. left. simpl in Hl. apply tx_bind_ok in Hl as (a0 & l1 & Hcur & Hl).
  apply require_current_same in Hcur as ->. apply tx_bind_ok in Hl as (row & l1 & Hrow & Hl).
  apply tx_read_ok in Hrow as [_ ->]. destruct row as [old|]; [by tx_inv | by injection Hl as _ <-].
Qed.

Lemma decision_claim_ok g d n l u l' :
  decision_claim g d n l = Ok (u, l') ->
  lg_decisions l !! (g, d) = None /\ lg_generations l' = lg_generations l /\ lg_attempts l' = lg_attempts l /\
  lg_decisions l' = <[(g, d) := n]> (lg_decisions l).
Proof.
  unfold decision_claim. intros H. tx_inv.
  match goal with H : ~ is_Some _ |- _ => apply eq_None_not_Some in H end. done.
Qed.

Lemma ready_recovery_steps g n d grant c : authorize_ready_recovery g n d grant = Ok c -> steps c.
Proof.
  intros H. eapply ready_change_steps; [exact H|]. intros digest l a l' Hl. right. cbv beta in Hl. tx_inv.
  match goal with H : require_exact _ _ _ _ _ _ = _ |- _ => apply require_exact_ok in H as (-> & HG & d0 & ->) end.
  match goal with H : decision_claim _ _ _ _ = _ |- _ => apply decision_claim_ok in H as (Hd & Hg & Ha & Hds) end.
  eapply generation_advance_ok in Hl as [-> _]; [|simpl; rewrite Hg; exact HG].
  unfold core. simpl. rewrite Hg, Ha, Hds. apply (ready_recovered (core l)); [by exists d0 | exact Hd].
Qed.

Lemma retry_steps g n id d grant c : authorize_retry g n id d grant = Ok c -> steps c.
Proof.
  intros H. eapply ready_change_steps; [exact H|]. intros digest l a l' Hl. right. cbv beta in Hl.
  unfold require_retryable in Hl. tx_inv.
  match goal with H : require_exact _ _ _ _ _ _ = _ |- _ => apply require_exact_ok in H as (-> & HG & d0 & ->) end.
  match goal with H : identified _ _ _ = _ |- _ => apply identified_ok in H as (token & p & w & res & -> & Ha) end.
  match goal with H : decision_claim _ _ _ _ = _ |- _ => apply decision_claim_ok in H as (Hd & Hg & Hat & Hds) end.
  simpl in *. subst.
  match goal with H : attempt_advance _ _ _ _ _ = _ |- _ =>
    eapply (attempt_advance_ok (mkReservation g n id token)) in H as [-> _]; [|rewrite Hat; exact Ha] end.
  eapply generation_advance_ok in Hl as [-> _]; [|simpl; rewrite Hg; exact HG].
  unfold core. simpl. rewrite Hg, Hat, Hds.
  apply (retry_authorized (core l) (mkReservation g n id token)); [by exists d0 | by exists w, res | exact Hd].
Qed.

Lemma retire_steps g n id : steps (retire_goal g n id).
Proof.
  intros l a l' Hwf Hl. right. simpl in Hl. tx_inv.
  match goal with H : generation_one _ _ = _ |- _ => apply generation_one_ok in H as HG end.
  match type of HG with _ = Some ?G => destruct G as [g' n' s id' d0] end.
  destruct (wf_generation _ Hwf g _ HG) as [Hg _]. simpl in *. subst g'.
  destruct id' as [id|]; unfold attempt_retire in *; tx_inv.
  - match goal with H : identified _ _ _ = _ |- _ => apply identified_ok in H as (token & p & w & res & -> & Ha) end.
    match goal with H : attempt_advance _ _ _ _ _ = _ |- _ =>
      eapply (attempt_advance_ok (mkReservation g n' id token)) in H as [-> _]; [|exact Ha] end.
    eapply generation_advance_ok in Hl as [-> _]; [|exact HG].
    by apply (attempt_retired (core l) (mkReservation g n' id token) s p); [exists d0 | exists w, res | ].
  - eapply generation_advance_ok in Hl as [-> _]; [|exact HG].
    unfold permits_retirement_without_attempt, generation_ready in *. bools. subst s.
    apply (ready_retired (core l) g n'). by exists d0.
Qed.
