(* ===== verification/GoalInvariants.v ===== *)
(** * Invariants of the goal ledger

    Every step of the ledger keeps it well formed: one attempt for a generation, at most the
    current attempt open, and every generation but the last closed by a decision, verified
    progress or an operator's stop.  What a step never undoes is stated beside it. *)

From stdpp Require Import base gmap strings list.
From Stdlib Require Import ZArith Lia Ascii.
From S2P Require Import Prelude Contracts Lifecycle GoalStates Sha256 GoalLedger GoalStore GoalMachine.

(** ** Authorisation is kept *)

Lemma authorised_kept c gens at' dec' g n :
  decided c ⊆ dec' ->
  (forall id a, attempted c !! id = Some a -> attempt_over (ga_phase a) = true ->
     rs_goal (ga_reservation a) = g -> rs_generation (ga_reservation a) = n -> at' !! id = Some a) ->
  authorised c g n -> authorised (mkCore gens at' dec') g n.
Proof.
  intros Hdec Hat [[d Hd]|(id & a & Ha & Hg & Hn & Hp)].
  - left. exists d. by eapply lookup_weaken.
  - right. exists id, a. split; [|done]. apply Hat; try done.
    by destruct Hp as [-> | [-> _]].
Qed.

(** ** A generation without a current attempt moves *)

Section bare.
Context (c : Core) (Hwf : core_wf c) (g : string) (n' : Z) (s' : GenerationState) (digest : string).
Context (dec' : gmap (string * WorkDecision) Z) (Hdec : decided c ⊆ dec').
Context (Hs : validate_attempt s' None = Ok tt).
Context (Hold : generations c !! g = None /\ n' = 1 \/
  exists n, generation_at c g n ReadyGeneration None /\
    (n' = n \/ n' = n + 1 /\ exists d, dec' !! (g, d) = Some n)).

Lemma bare_number G : generations c !! g = Some G -> gn_attempt G = None /\ gn_number G <= n' /\ 1 <= n'.
Proof.
  intros HG. destruct Hold as [[Hnone _]|(n & [d0 Hn] & Hcase)]; [congruence|].
  rewrite HG in Hn. injection Hn as ->. apply Hwf in HG as (_ & H1 & _). simpl in *. split; [done | lia].
Qed.

Lemma bare_moved : core_wf (mkCore (moved c g n' s' None digest) (attempted c) dec').
Proof.
  constructor; simpl; unfold moved.
  - intros g0 G [[<- <-]|[Hne HG]]%lookup_insert_Some; [|by apply Hwf]. simpl. split; [done|]. split; [|done].
    destruct Hold as [[_ ->]|(n & [d0 Hn] & Hcase)]; [lia|]. apply Hwf in Hn as (_ & H1 & _). simpl in H1. lia.
  - apply Hwf.
  - intros g0 G id [[<- <-]|[Hne HG]]%lookup_insert_Some; [done|]. by apply Hwf.
  - intros id a Ha. destruct (wf_attempt _ Hwf id a Ha) as (G & HG & Hcase).
    destruct (decide (rs_goal (ga_reservation a) = g)) as [Hg|Hne].
    + rewrite Hg in HG. eexists. rewrite Hg, lookup_insert_eq.
      split; [done|]. right. simpl. destruct (bare_number G HG) as (Hnone & Hle & _).
      destruct Hcase as [[_ ?]|[? ?]]; [congruence|]. split; [lia | done].
    + exists G. by rewrite lookup_insert_ne.
  - apply Hwf.
  - intros g0 G n [[<- <-]|[Hne HG]]%lookup_insert_Some Hn.
    + simpl in Hn. destruct Hold as [[_ ->]|(n0 & [d0 H0] & Hcase)]; [lia|].
      destruct (decide (n = n0)) as [->|Hne].
      * destruct Hcase as [-> | [-> [d Hd]]]; [lia|]. left. by exists d.
      * eapply authorised_kept; [exact Hdec | by intros | apply (wf_authorised _ Hwf g _ n H0); simpl; lia].
    + eapply authorised_kept; [exact Hdec | by intros | by apply (wf_authorised _ Hwf g0 G)].
Qed.
End bare.

(** ** The current attempt moves *)

Section current.
Context (c : Core) (Hwf : core_wf c) (r : Reservation) (p : GoalAttemptPhase) (w : option string).
Context (res : AttemptResolution) (n' : Z) (s' : GenerationState) (id' : option string) (digest : string).
Context (dec' : gmap (string * WorkDecision) Z) (Hdec : decided c ⊆ dec').
Context (Hold : (exists s p0, generation_at c (rs_goal r) (rs_generation r) s (Some (rs_attempt r)) /\
                   attempt_in c r p0) \/
                generation_at c (rs_goal r) (rs_generation r) ReadyGeneration None /\
                attempted c !! rs_attempt r = None).
Context (Hnew : n' = rs_generation r /\ id' = Some (rs_attempt r) /\ phase_fits s' p = true \/
                n' = rs_generation r + 1 /\ s' = ReadyGeneration /\ id' = None /\ attempt_over p = true /\
                ((exists d, dec' !! (rs_goal r, d) = Some (rs_generation r)) \/
                 p = SucceededAttempt \/ p = FailedAttempt /\ res = OperatorStopped)).

#[local] Abbreviation c' := (mkCore (moved c (rs_goal r) n' s' id' digest) (attempt_moved c r p w res) dec').

Lemma current_row a : attempted c !! rs_attempt r = Some a -> ga_reservation a = r.
Proof.
  intros Ha. destruct Hold as [(s & p0 & _ & w0 & res0 & H0)|[_ H0]]; rewrite Ha in H0; [|done].
  by injection H0 as ->.
Qed.

Lemma current_generation : exists s id d0,
  generations c !! rs_goal r = Some (mkGeneration (rs_goal r) (rs_generation r) s id d0) /\
  (id = Some (rs_attempt r) \/ id = None) /\ 1 <= rs_generation r.
Proof.
  destruct Hold as [(s & p0 & [d0 HG] & _)|[[d0 HG] _]]; pose proof (wf_generation _ Hwf _ _ HG) as (_ & H1 & _);
    simpl in H1; eauto 10.
Qed.

(** Another row of this goal belongs to an earlier generation. *)
Lemma earlier_row id a :
  attempted c !! id = Some a -> id <> rs_attempt r -> rs_goal (ga_reservation a) = rs_goal r ->
  1 <= rs_generation (ga_reservation a) < rs_generation r /\ attempt_over (ga_phase a) = true.
Proof.
  intros Ha Hne Hg. destruct (wf_attempt _ Hwf id a Ha) as (G & HG & Hcase). rewrite Hg in HG.
  destruct current_generation as (s & id0 & d0 & HG' & Hid & _). rewrite HG in HG'. injection HG' as ->. simpl in *.
  destruct Hcase as [[_ Hid0]|Hlt]; [|done]. destruct Hid as [->| ->]; congruence.
Qed.

Lemma kept_row id a g n :
  attempted c !! id = Some a -> rs_goal (ga_reservation a) = g -> rs_generation (ga_reservation a) = n ->
  (g, n) <> (rs_goal r, rs_generation r) -> attempt_moved c r p w res !! id = Some a.
Proof.
  intros Ha Hg Hn Hne. unfold attempt_moved. rewrite lookup_insert_ne; [done|]. intros <-.
  apply current_row in Ha as Hr. congruence.
Qed.

Lemma moved_authorised g G n :
  generations c' !! g = Some G -> 1 <= n < gn_number G -> authorised c' g n.
Proof.
  simpl. unfold moved. intros [[<- <-]|[Hne HG]]%lookup_insert_Some Hn; simpl in *.
  - destruct current_generation as (s & id0 & d0 & HG & _ & _).
    destruct (decide (n = rs_generation r)) as [->|Hn0].
    + destruct Hnew as [(-> & _)|(_ & _ & _ & _ & [[d Hd]|Hp])]; [lia|left; by exists d|].
      right. exists (rs_attempt r), (mkGoalAttempt r p w res). simpl. unfold attempt_moved.
      by rewrite lookup_insert_eq.
    + eapply authorised_kept; [exact Hdec| |apply (wf_authorised _ Hwf _ _ n HG); simpl; lia].
      intros id a Ha _ Hg Hgen. eapply kept_row; try done. congruence.
  - eapply authorised_kept; [exact Hdec| |by apply (wf_authorised _ Hwf g G)].
    intros id a Ha _ Hg Hgen. eapply kept_row; try done. congruence.
Qed.

Lemma moved_attempt id a :
  attempted c' !! id = Some a ->
  exists G, generations c' !! rs_goal (ga_reservation a) = Some G /\
    (rs_generation (ga_reservation a) = gn_number G /\ gn_attempt G = Some id \/
     1 <= rs_generation (ga_reservation a) < gn_number G /\ attempt_over (ga_phase a) = true).
Proof.
  destruct current_generation as (s & id0 & d0 & HG & _ & Hpos).
  simpl. unfold moved, attempt_moved. intros [[<- <-]|[Hne Ha]]%lookup_insert_Some; simpl.
  - eexists. rewrite lookup_insert_eq. split; [done|]. simpl.
    destruct Hnew as [(-> & -> & _)|(-> & _ & _ & Hover & _)]; [by left|]. right. split; [lia | done].
  - destruct (decide (rs_goal (ga_reservation a) = rs_goal r)) as [Hg|Hg].
    + destruct (earlier_row id a Ha (not_eq_sym Hne) Hg) as [Hlt Hover].
      eexists. rewrite Hg, lookup_insert_eq. split; [done|]. right. simpl. split; [|done].
      destruct Hnew as [(-> & _)|(-> & _)]; lia.
    + rewrite lookup_insert_ne by done. by apply Hwf.
Qed.

Lemma moved_current g G id :
  generations c' !! g = Some G -> gn_attempt G = Some id ->
  exists a, attempted c' !! id = Some a /\ rs_goal (ga_reservation a) = g /\
    rs_generation (ga_reservation a) = gn_number G /\ phase_fits (gn_lifecycle G) (ga_phase a) = true.
Proof.
  simpl. unfold moved. intros [[<- <-]|[Hne HG]]%lookup_insert_Some Hid; simpl in *.
  - destruct Hnew as [(-> & -> & Hfit)|(_ & _ & -> & _)]; [|done]. injection Hid as <-.
    exists (mkGoalAttempt r p w res). unfold attempt_moved. by rewrite lookup_insert_eq.
  - destruct (wf_current _ Hwf g G id HG Hid) as (a & Ha & Hg & Hn & Hfit). exists a. split; [|done].
    eapply kept_row; try done. congruence.
Qed.

Lemma moved_unique id1 id2 a1 a2 :
  attempted c' !! id1 = Some a1 -> attempted c' !! id2 = Some a2 ->
  rs_goal (ga_reservation a1) = rs_goal (ga_reservation a2) ->
  rs_generation (ga_reservation a1) = rs_generation (ga_reservation a2) -> id1 = id2.
Proof.
  simpl. unfold attempt_moved.
  intros [[<- <-]|[Hne1 Ha1]]%lookup_insert_Some [[<- <-]|[Hne2 Ha2]]%lookup_insert_Some Hg Hn; simpl in *; [done|..].
  - destruct (earlier_row _ _ Ha2 (not_eq_sym Hne2) (eq_sym Hg)) as [? _]. lia.
  - destruct (earlier_row _ _ Ha1 (not_eq_sym Hne1) Hg) as [? _]. lia.
  - by eapply (wf_unique _ Hwf).
Qed.

Lemma current_moved : core_wf c'.
Proof.
  constructor; simpl; [| |apply moved_current|apply moved_attempt|apply moved_unique|apply moved_authorised].
  - unfold moved. intros g G [[<- <-]|[Hne HG]]%lookup_insert_Some; [|by apply Hwf]. simpl. split; [done|].
    destruct current_generation as (_ & _ & _ & _ & _ & Hpos).
    destruct Hnew as [(-> & -> & Hfit)|(-> & -> & -> & _)]; (split; [lia|]); [by destruct s' | done].
  - unfold attempt_moved. intros id a [[<- <-]|[Hne Ha]]%lookup_insert_Some; [done | by apply Hwf].
Qed.
End current.

(** ** Steps keep the invariant *)

Lemma insert_decision_subseteq (c : Core) g d n : decided c !! (g, d) = None -> decided c ⊆ <[(g, d) := n]> (decided c).
Proof. apply insert_subseteq. Qed.

Lemma generations_same c g n s a :
  generation_at c g n s a -> exists digest, moved c g n s a digest = generations c.
Proof. intros [digest HG]. exists digest. by apply insert_id. Qed.

Lemma retirement_states s p :
  permits_retirement s p = true -> (s = ReservedGeneration \/ s = BlockedGeneration) /\ attempt_over p = false \/
                                   s = BlockedGeneration /\ p = FailedAttempt.
Proof. destruct s, p; simpl; intros H; try discriminate H; auto. Qed.

Lemma goal_step_wf c c1 : core_wf c -> goal_step c c1 -> core_wf c1.
Proof.
  intros Hwf Hstep. destruct Hstep as [g digest Hnone|g n digest HG|r HG Hnone|r HG Ha|r p diag HG Ha Hp
    |r wit digest HG Ha|r digest HG Ha|r wit HG Ha|g n d digest HG Hd|r d digest HG Ha Hd|g n HG|r s p HG Ha Hp].
  - apply bare_moved; try done. by left.
  - apply bare_moved; try done. right. exists n. auto.
  - apply current_moved; try done; [by right | by left].
  - destruct (generations_same _ _ _ _ _ HG) as [digest <-].
    apply current_moved; try done; [left; eauto | by left].
  - apply current_moved; try done; [left; eauto | by left].
  - apply current_moved; try done; [left; eauto | right; naive_solver].
  - apply current_moved; try done; [left; eauto | right; naive_solver].
  - apply current_moved; try done; [left; eauto | by left].
  - apply bare_moved; try done; [by apply insert_subseteq|]. right. exists n. split; [done|]. right. split; [done|].
    exists d. apply lookup_insert_eq.
  - apply current_moved; try done; [by apply insert_subseteq | left; eauto|]. right. repeat (split; [done|]). left.
    exists d. apply lookup_insert_eq.
  - apply bare_moved; try done. right. exists n. auto.
  - apply current_moved; try done; [left; eauto | by left].
Qed.

(** An attempt stays in the ledger under its reservation, and is never again merely
    reserved. *)
Definition attempts_kept (c c1 : Core) : Prop := forall id a, attempted c !! id = Some a ->
  exists a', attempted c1 !! id = Some a' /\ ga_reservation a' = ga_reservation a /\
    (ga_phase a' = ReservedAttempt -> ga_phase a = ReservedAttempt).

Lemma attempts_kept_refl c gens dec : attempts_kept c (mkCore gens (attempted c) dec).
Proof. intros id a Ha. by exists a. Qed.

Lemma attempts_kept_moved c r p0 p w res gens dec :
  attempt_in c r p0 -> p <> ReservedAttempt -> attempts_kept c (mkCore gens (attempt_moved c r p w res) dec).
Proof.
  intros (w0 & res0 & H0) Hp id a Ha. simpl. unfold attempt_moved.
  destruct (decide (id = rs_attempt r)) as [->|Hne].
  - eexists. rewrite lookup_insert_eq. split; [done|]. simpl. rewrite Ha in H0. by injection H0 as ->.
  - exists a. by rewrite lookup_insert_ne.
Qed.

Lemma goal_step_attempts c c1 : goal_step c c1 -> attempts_kept c c1.
Proof.
  intros []; try apply attempts_kept_refl; try (eapply attempts_kept_moved; [eassumption | discriminate]).
  intros id a Ha. simpl. unfold attempt_moved. exists a. rewrite lookup_insert_ne; [done|]. intros <-. congruence.
Qed.

(** A completed or cancelled goal stays as it is. *)
Definition goal_closed (c : Core) (g : string) : Prop :=
  exists G, generations c !! g = Some G /\ is_closed (gn_lifecycle G) = true.

Lemma moved_other c g n s a digest g0 G :
  generations c !! g0 = Some G -> g0 <> g -> moved c g n s a digest !! g0 = Some G.
Proof. intros HG Hne. unfold moved. by rewrite lookup_insert_ne. Qed.

Lemma open_other c g n s a g0 G :
  generation_at c g n s a -> is_closed s = false -> generations c !! g0 = Some G ->
  is_closed (gn_lifecycle G) = true -> g0 <> g.
Proof. intros [digest HG] Hs HG0 Hc ->. rewrite HG in HG0. injection HG0 as <-. simpl in *. congruence. Qed.

Lemma goal_step_closed c c1 g G :
  goal_step c c1 -> generations c !! g = Some G -> is_closed (gn_lifecycle G) = true ->
  generations c1 !! g = Some G.
Proof.
  intros Hstep HG Hc. destruct Hstep; simpl; try done;
    try (apply moved_other; [done | by eapply open_other]).
  - apply moved_other; [done|]. intros ->. congruence.
  - apply moved_other; [done|]. eapply open_other; [eassumption| |done|done].
    by destruct s, p.
Qed.

Lemma goal_step_decisions c c1 : goal_step c c1 -> decided c ⊆ decided c1.
Proof. intros []; simpl; try done; by apply insert_subseteq. Qed.

(** Numbers of generations only grow. *)
Lemma goal_step_numbers c c1 g G :
  goal_step c c1 -> core_wf c -> generations c !! g = Some G ->
  exists G', generations c1 !! g = Some G' /\ gn_number G <= gn_number G'.
Proof.
  intros Hstep Hwf HG. destruct Hstep; simpl; try (by exists G);
    match goal with |- context [moved _ ?g1 _ _ _ _] =>
      destruct (decide (g = g1)) as [->|Hne]; [|exists G; split; [by apply moved_other | lia]] end;
    unfold moved; rewrite lookup_insert_eq; eexists; (split; [done|]); simpl;
    try match goal with H : generation_at _ _ _ _ _ |- _ =>
      let d := fresh in destruct H as [d H]; rewrite H in HG; injection HG as <-; simpl; lia end.
  congruence.
Qed.
