(* ===== verification/GoalProcesses.v ===== *)
(** * Processes sharing the goal ledger

    Any number of processes open the store, request changes, commit them, read them back and
    may die at any point; a synchronisation or readback may fail after its commit.  A launch
    permit exists only once [claim_launch] returned.  Over every interleaving a generation of
    a goal is launched at most once, two launches of a goal are separated by what authorised
    each generation between them, and a closed goal is never launched again. *)

From stdpp Require Import base gmap strings list.
From Stdlib Require Import ZArith Lia Ascii.
From S2P Require Import Prelude Contracts Lifecycle GoalStates Sha256 GoalLedger GoalStore GoalMachine GoalInvariants.

(** ** Requests *)

Definition no_permit {A : Type} (_ : A) : list Reservation := [].

(** A change a process may ask of its instance, with the permits its value carries; the
    ledger it read beforehand may be an old one. *)
Inductive requested (i : Instance) : forall A : Type, Change A -> (A -> list Reservation) -> Prop :=
| asks_create g grant c : create_goal g grant = Ok c -> requested i Generation c no_permit
| asks_recover g n grant c : recover_unreserved_ready g n grant = Ok c -> requested i Generation c no_permit
| asks_reserve g n grant id token l c :
    reserve g n grant id token (mkGoalStore l i) = Ok c -> requested i Reservation c no_permit
| asks_claim r c : claim_launch r i = Ok c -> requested i Reservation c (fun permit => [permit])
| asks_fail r diagnostic observation : requested i Generation (fail r diagnostic observation) no_permit
| asks_progress r witness grant c :
    record_verified_progress r witness grant = Ok c -> requested i Generation c no_permit
| asks_stop r grant l c : stop r grant l = Ok (Some c) -> requested i Generation c no_permit
| asks_completion r witness c : record_verified_completion r witness = Ok c -> requested i Generation c no_permit
| asks_usage r response raw : requested i string (record_provider_usage r response raw) no_permit
| asks_retry g d grant l c : authorize_current_retry g d grant l = Ok c -> requested i Generation c no_permit
| asks_continue G d grant l c : continue_work G d grant l = Ok (Some c) -> requested i Generation c no_permit
| asks_retire g n id : requested i Generation (retire_goal g n id) no_permit.

Lemma current_retry_steps g d grant l c : authorize_current_retry g d grant l = Ok c -> steps c.
Proof.
  unfold authorize_current_retry. intros H. apply bind_ok_inv in H as (G & _ & H).
  destruct (gn_lifecycle G); ok_inv; eauto using ready_recovery_steps, retry_steps.
Qed.

Create HintDb goals discriminated.
#[export] Hint Resolve create_goal_steps recover_steps reserve_steps claim_launch_steps fail_steps progress_steps
  stop_steps completion_steps usage_steps current_retry_steps retire_steps : goals.

Lemma requested_steps i A c permits : requested i A c permits -> steps c.
Proof.
  intros []; eauto with goals.
  match goal with H : continue_work _ _ _ _ = _ |- _ => unfold continue_work in H end.
  destruct (gn_lifecycle G); ok_inv; eauto with goals.
Qed.

(** ** The system *)

(** A committed change that has not returned, with the first read of its readback *)
Record Flight : Type := mkFlight {
  fl_process : nat;
  fl_type : Type;
  fl_change : Change fl_type;
  fl_value : fl_type;
  fl_permits : list Reservation;
  fl_first : option Ledger;
}.

Record GoalWorld : Type := mkGoalWorld {
  gw_ledger : Ledger;
  gw_instances : gmap nat Instance;
  gw_flights : list Flight;
  gw_permits : list Reservation;
}.

Definition finish (f : Flight) (i : Instance) : Instance := ch_finally (fl_change f) i.
Definition returned (f : Flight) (i : Instance) : Instance :=
  ch_finally (fl_change f) (ch_returned (fl_change f) (fl_value f) i).

Inductive world_step : GoalWorld -> GoalWorld -> Prop :=
| store_opened l ins fs ps n :
    ins !! n = None -> world_step (mkGoalWorld l ins fs ps) (mkGoalWorld l (<[n := opened]> ins) fs ps)
| process_dies l ins fs ps n :
    world_step (mkGoalWorld l ins fs ps)
      (mkGoalWorld l (delete n ins) (List.filter (fun f => negb (Nat.eqb (fl_process f) n)) fs) ps)
| change_refused l ins fs ps n i A (c : Change A) permits e :
    ins !! n = Some i -> requested i A c permits -> ch_write c l = Err e ->
    world_step (mkGoalWorld l ins fs ps) (mkGoalWorld l (<[n := ch_finally c i]> ins) fs ps)
| change_commits l ins fs ps n i A (c : Change A) permits a l' :
    ins !! n = Some i -> requested i A c permits -> ch_write c l = Ok (a, l') ->
    world_step (mkGoalWorld l ins fs ps) (mkGoalWorld l' ins (mkFlight n A c a (permits a) None :: fs) ps)
| generation_read l ins fs1 fs2 ps f :
    world_step (mkGoalWorld l ins (fs1 ++ f :: fs2) ps)
      (mkGoalWorld l ins (fs1 ++ mkFlight (fl_process f) (fl_type f) (fl_change f) (fl_value f)
                                  (fl_permits f) (Some l) :: fs2) ps)
| change_returns l ins fs1 fs2 ps f first :
    fl_first f = Some first ->
    attested (ch_verify (fl_change f) (fl_value f) first l) = Ok tt ->
    world_step (mkGoalWorld l ins (fs1 ++ f :: fs2) ps)
      (mkGoalWorld l (alter (returned f) (fl_process f) ins) (fs1 ++ fs2) (fl_permits f ++ ps))
| change_uncertain l ins fs1 fs2 ps f :
    world_step (mkGoalWorld l ins (fs1 ++ f :: fs2) ps)
      (mkGoalWorld l (alter (finish f) (fl_process f) ins) (fs1 ++ fs2) ps).

Definition goal_world_initial : GoalWorld := mkGoalWorld empty_ledger ∅ [] [].
Definition goal_reachable (w : GoalWorld) : Prop := rtc world_step goal_world_initial w.

(** ** The invariant *)

Definition outstanding (w : GoalWorld) : list Reservation := flat_map fl_permits (gw_flights w) ++ gw_permits w.

Definition launched_row (c : Core) (r : Reservation) : Prop :=
  exists a, attempted c !! rs_attempt r = Some a /\ ga_reservation a = r /\ ga_phase a <> ReservedAttempt.

(** A flight with permits is a claim of its own reservation. *)
Definition flight_claims (f : Flight) : Prop := forall r, r ∈ fl_permits f ->
  forall first second, attested (ch_verify (fl_change f) (fl_value f) first second) = Ok tt ->
  attempt_in (core second) r ClaimedAttempt.

Record world_inv (w : GoalWorld) : Prop := {
  wi_core : core_wf (core (gw_ledger w));
  wi_launched : Forall (launched_row (core (gw_ledger w))) (outstanding w);
  wi_once : NoDup (map rs_attempt (outstanding w));
  wi_claims : Forall flight_claims (gw_flights w);
}.

Lemma launched_row_kept c c1 r : attempts_kept c c1 -> launched_row c r -> launched_row c1 r.
Proof.
  intros Hkept (a & Ha & Hr & Hp). destruct (Hkept _ _ Ha) as (a' & Ha' & Hr' & Hp').
  exists a'. split; [done|]. split; [congruence|]. intros H. by apply Hp, Hp'.
Qed.

Lemma commit_kept {A : Type} (c : Change A) l a l' :
  steps c -> core_wf (core l) -> ch_write c l = Ok (a, l') ->
  core_wf (core l') /\ attempts_kept (core l) (core l').
Proof.
  intros Hs Hwf Hw. destruct (Hs l a l' Hwf Hw) as [->|Hstep].
  - split; [done|]. intros id x Hx. by exists x.
  - split; [by eapply goal_step_wf | by apply goal_step_attempts].
Qed.

(** What the commit of a change that carries permits did *)
Lemma requested_permits i A c permits l a l' r :
  requested i A c permits -> ch_write c l = Ok (a, l') -> r ∈ permits a ->
  permits a = [r] /\ attempt_in (core l) r ReservedAttempt /\ attempt_in (core l') r ClaimedAttempt /\
  flight_claims (mkFlight 0 A c a (permits a) None).
Proof.
  intros Hreq. revert a. destruct Hreq; intros a Hw Hr; try (by apply not_elem_of_nil in Hr).
  apply list_elem_of_singleton in Hr as <-. split; [done|].
  match goal with H : claim_launch _ _ = _ |- _ => unfold claim_launch in H; ok_inv end.
  simpl in Hw. tx_inv.
  match goal with H : require_current _ _ _ = _ |- _ =>
    apply require_current_ok in H as (-> & (w & res & ->) & Ha & HG) end.
  match goal with H : attempt_advance _ _ _ _ _ = _ |- _ => eapply attempt_advance_ok in H as [-> _]; [|exact Ha] end.
  split; [by exists w, res|]. split.
  - eexists _, _. simpl. apply lookup_insert_eq.
  - intros r' Hr' first second. simpl in *. apply list_elem_of_singleton in Hr' as ->.
    unfold attested, readback. destruct (is_generation _ first) as [[]|]; simpl; [|done|done].
    destruct (lg_attempts second !! _) as [row|] eqn:Hrow; simpl; [|done].
    destruct (bool_decide _ && bool_decide _) eqn:E; simpl; [|done]. bools. intros _.
    destruct row as [r2 p2 w2 res2]. simpl in *. subst. by exists w2, res2.
Qed.

Lemma flat_map_sublist {A B : Type} (f : A -> list B) (xs ys : list A) :
  sublist xs ys -> sublist (flat_map f xs) (flat_map f ys).
Proof.
  induction 1 as [|x xs ys _ IH|x xs ys _ IH]; simpl; [done | by apply sublist_app|].
  by apply sublist_inserts_l.
Qed.

Lemma filter_sublist {A : Type} (p : A -> bool) (xs : list A) : sublist (List.filter p xs) xs.
Proof. induction xs as [|x xs IH]; simpl; [done|]. destruct (p x); by constructor. Qed.

Lemma sublist_forall {A : Type} (P : A -> Prop) (xs ys : list A) : sublist xs ys -> Forall P ys -> Forall P xs.
Proof. intros Hsub. rewrite !Forall_forall. intros H x Hx. apply H. by eapply sublist_subseteq. Qed.

Lemma sublist_map {A B : Type} (f : A -> B) (xs ys : list A) : sublist xs ys -> sublist (map f xs) (map f ys).
Proof. induction 1; simpl; by constructor. Qed.

Lemma inv_sublist w fs :
  world_inv w -> sublist fs (gw_flights w) -> forall ins,
  world_inv (mkGoalWorld (gw_ledger w) ins fs (gw_permits w)).
Proof.
  intros [Hwf Hl Ho Hc] Hsub ins.
  assert (Hout : sublist (flat_map fl_permits fs ++ gw_permits w) (outstanding w))
    by (apply sublist_app; [by apply flat_map_sublist | done]).
  constructor; simpl; [done| | |by eapply sublist_forall]; unfold outstanding; simpl.
  - by eapply sublist_forall.
  - eapply sublist_NoDup; [exact Ho | by apply sublist_map].
Qed.

Lemma inv_commit w n A c permits a l' i :
  world_inv w -> requested i A c permits -> ch_write c (gw_ledger w) = Ok (a, l') ->
  world_inv (mkGoalWorld l' (gw_instances w) (mkFlight n A c a (permits a) None :: gw_flights w) (gw_permits w)).
Proof.
  intros [Hwf Hl Ho Hc] Hreq Hw.
  destruct (commit_kept c _ _ _ (requested_steps _ _ _ _ Hreq) Hwf Hw) as [Hwf' Hkept].
  assert (Hold : Forall (launched_row (core l')) (outstanding w)).
  { eapply Forall_impl; [exact Hl|]. intros r. by apply launched_row_kept. }
  destruct (permits a) as [|r rest] eqn:Hp.
  - constructor; simpl; [done | done | done|]. constructor; [|done]. intros r Hr. by apply not_elem_of_nil in Hr.
  - destruct (requested_permits i A c permits _ a l' r Hreq Hw) as (Hone & Hres & (w0 & res0 & Hclaim) & Hflight);
      [rewrite Hp; apply list_elem_of_here|].
    rewrite Hp in Hone. injection Hone as ->. rewrite Hp in Hflight. constructor; simpl; [done| | |].
    + constructor; [|exact Hold]. eexists. split; [exact Hclaim|]. split; [done | discriminate].
    + constructor; [|exact Ho]. intros (r' & Heq & Hin)%list_elem_of_fmap.
      rewrite Forall_forall in Hl. destruct (Hl r' Hin) as (x & Hx & _ & Hphase).
      destruct Hres as (w1 & res1 & Hr). rewrite <- Heq in Hx. rewrite Hr in Hx. injection Hx as <-. by apply Hphase.
    + constructor; [exact Hflight | exact Hc].
Qed.

Lemma world_step_inv w w1 : world_inv w -> world_step w w1 -> world_inv w1.
Proof.
  intros Hinv Hstep. destruct Hstep as [l ins fs ps n _|l ins fs ps n|l ins fs ps n i A c permits e _ _ _
    |l ins fs ps n i A c permits a l' _ Hreq Hw|l ins fs1 fs2 ps f|l ins fs1 fs2 ps f first Hf Hatt|l ins fs1 fs2 ps f].
  - by destruct Hinv.
  - apply (inv_sublist _ _ Hinv). apply filter_sublist.
  - by destruct Hinv.
  - by apply (inv_commit (mkGoalWorld l ins fs ps) n A c permits a l' i).
  - destruct Hinv as [Hwf Hl Ho Hc]. simpl in *.
    assert (Hsame : outstanding (mkGoalWorld l ins (fs1 ++ mkFlight (fl_process f) (fl_type f) (fl_change f)
      (fl_value f) (fl_permits f) (Some l) :: fs2) ps) = outstanding (mkGoalWorld l ins (fs1 ++ f :: fs2) ps))
      by (unfold outstanding; simpl; by rewrite !flat_map_app).
    constructor; rewrite ?Hsame; [done..|]. simpl. apply Forall_app in Hc as [Hc1 [Hcf Hc2]%Forall_cons].
    apply Forall_app. split; [done|]. constructor; [exact Hcf | done].
  - destruct Hinv as [Hwf Hl Ho Hc].
    assert (Hperm : outstanding (mkGoalWorld l ins (fs1 ++ f :: fs2) ps)
      ≡ₚ outstanding (mkGoalWorld l (alter (returned f) (fl_process f) ins) (fs1 ++ fs2) (fl_permits f ++ ps)))
      by (unfold outstanding; simpl; rewrite !flat_map_app; simpl; solve_Permutation).
    constructor; [done | by rewrite <- Hperm | by rewrite <- Hperm|]. simpl in *.
    apply Forall_app in Hc as [Hc1 [_ Hc2]%Forall_cons]. by apply Forall_app.
  - apply (inv_sublist _ (fs1 ++ fs2) Hinv). simpl. apply sublist_app; [done|]. by apply sublist_cons.
Qed.

Lemma initial_inv : world_inv goal_world_initial.
Proof.
  constructor; [|by constructor..].
  constructor; simpl; intros *; try (by rewrite lookup_empty); intros H0; by rewrite lookup_empty in H0.
Qed.

Lemma run_inv w w1 : rtc world_step w w1 -> world_inv w -> world_inv w1.
Proof. induction 1 as [|x y z Hstep _ IH]; [done|]. intros Hx. apply IH. by eapply world_step_inv. Qed.

Lemma goal_reachable_inv w : goal_reachable w -> world_inv w.
Proof. intros H. exact (run_inv _ _ H initial_inv). Qed.

(** ** What the ledger of a run keeps *)

Lemma world_step_core w w1 :
  world_inv w -> world_step w w1 ->
  core (gw_ledger w1) = core (gw_ledger w) \/ goal_step (core (gw_ledger w)) (core (gw_ledger w1)).
Proof.
  intros [Hwf _ _ _] Hstep. destruct Hstep; simpl in *; try (by left).
  eapply (requested_steps _ _ _ _ H0); eassumption.
Qed.

(** A property of the ledger that every step keeps holds to the end of a run. *)
Lemma run_keeps (P : Core -> Prop) w w1 :
  (forall c c1, core_wf c -> P c -> goal_step c c1 -> P c1) ->
  rtc world_step w w1 -> world_inv w -> P (core (gw_ledger w)) -> P (core (gw_ledger w1)).
Proof.
  intros Hkeep Hrun. induction Hrun as [|x y z Hstep _ IH]; [done|]. intros Hx HP.
  apply IH; [by eapply world_step_inv|].
  destruct (world_step_core _ _ Hx Hstep) as [->|Hg]; [done|]. eapply Hkeep; [apply Hx | done | done].
Qed.

(** A claimed attempt is the open attempt of a goal that is not closed. *)
Lemma claimed_open c r : core_wf c -> attempt_in c r ClaimedAttempt -> ~ goal_closed c (rs_goal r).
Proof.
  intros Hwf (w & res & Ha) (G & HG & Hc). destruct (wf_attempt _ Hwf _ _ Ha) as (G' & HG' & Hcase).
  simpl in *. rewrite HG in HG'. injection HG' as <-. destruct Hcase as [[_ Hid]|[_ Hover]]; [|done].
  destruct (wf_current _ Hwf _ _ _ HG Hid) as (a & Ha' & _ & _ & Hfit). rewrite Ha in Ha'. injection Ha' as <-.
  simpl in Hfit. by destruct (gn_lifecycle G).
Qed.

Lemma launched_number c r :
  core_wf c -> launched_row c r ->
  exists G, generations c !! rs_goal r = Some G /\ 1 <= rs_generation r <= gn_number G.
Proof.
  intros Hwf (a & Ha & <- & _). destruct (wf_attempt _ Hwf _ _ Ha) as (G & HG & Hcase). exists G. split; [done|].
  destruct (wf_generation _ Hwf _ _ HG) as (_ & Hpos & _). destruct Hcase as [[? _]|[? _]]; lia.
Qed.

Lemma permit_launched w r : world_inv w -> r ∈ gw_permits w -> launched_row (core (gw_ledger w)) r.
Proof.
  intros [_ Hl _ _] Hr. rewrite Forall_forall in Hl. apply Hl. unfold outstanding. apply elem_of_app. by right.
Qed.
