(* ===== verification/GoalFacts.v ===== *)
(** * What the goal ledger guarantees its owners

    The theorems on launches, retries and closed goals, for every interleaving of processes,
    and what an explicit retry always achieves. *)

From stdpp Require Import base gmap strings list.
From Stdlib Require Import ZArith Lia Ascii.
From S2P Require Import Prelude Contracts Lifecycle GoalStates Sha256 GoalLedger GoalStore GoalMachine GoalInvariants.
From S2P Require Import GoalProcesses.

(** ** Launches *)

Lemma NoDup_by {A B C : Type} (f : A -> B) (g : A -> C) (xs : list A) :
  (forall x y, x ∈ xs -> y ∈ xs -> g x = g y -> f x = f y) -> NoDup (map f xs) -> NoDup (map g xs).
Proof.
  induction xs as [|x xs IH]; simpl; intros Hinj; [constructor|]. intros [Hx Hnd]%NoDup_cons. constructor.
  - intros (y & Hy & Hin)%list_elem_of_fmap. apply Hx. apply list_elem_of_fmap. exists y. split; [|done].
    apply Hinj; [left | by right | done].
  - apply IH; [|done]. intros y z Hy Hz. apply Hinj; by right.
Qed.

(** C4: In any run of processes that open the goal store, change it, read back and die at
    any point, claim_launch returned at most one launch permit for each generation of each
    goal, and the reservation a permit carries is the one the ledger records for its
    attempt, no longer merely reserved. *)
Theorem goal_launched_once (w : GoalWorld) :
  goal_reachable w ->
  NoDup (map (fun r => (rs_goal r, rs_generation r)) (gw_permits w)) /\
  Forall (launched_row (core (gw_ledger w))) (gw_permits w).
Proof.
  intros Hinv%goal_reachable_inv. split.
  - apply (NoDup_by rs_attempt).
    + intros r1 r2 H1%(permit_launched w _ Hinv) H2%(permit_launched w _ Hinv) [= Hg Hn].
      destruct H1 as (a1 & Ha1 & <- & _), H2 as (a2 & Ha2 & <- & _).
      exact (wf_unique _ (wi_core _ Hinv) _ _ _ _ Ha1 Ha2 Hg Hn).
    + eapply sublist_NoDup; [apply (wi_once _ Hinv)|]. apply sublist_map. unfold outstanding. by apply sublist_inserts_l.
  - apply Forall_forall. intros r. by apply permit_launched.
Qed.

(** C8: Between two launches of one goal, every generation from the earlier launch to the
    later one was closed by a decision spent on exactly that generation, by verified
    progress, or by an operator's stop: no crash, failure or plain resume leads to another
    launch. *)
Theorem goal_relaunch_authorised (w : GoalWorld) (r1 r2 : Reservation) (n : Z) :
  goal_reachable w -> r1 ∈ gw_permits w -> r2 ∈ gw_permits w -> rs_goal r1 = rs_goal r2 ->
  rs_generation r1 <= n < rs_generation r2 ->
  authorised (core (gw_ledger w)) (rs_goal r1) n.
Proof.
  intros Hinv%goal_reachable_inv H1 H2 Hg Hn. pose proof (wi_core _ Hinv) as Hwf.
  destruct (launched_number _ _ Hwf (permit_launched _ _ Hinv H1)) as (G1 & _ & Hpos).
  destruct (launched_number _ _ Hwf (permit_launched _ _ Hinv H2)) as (G2 & HG & Hle).
  rewrite Hg. apply (wf_authorised _ Hwf _ _ _ HG). lia.
Qed.

Lemma world_step_permits w w1 g :
  world_inv w -> world_step w w1 -> goal_closed (core (gw_ledger w)) g ->
  forall r, r ∈ gw_permits w1 -> rs_goal r = g -> r ∈ gw_permits w.
Proof.
  intros Hinv Hstep Hclosed r Hr Hg. destruct Hstep as [| | | | |l ins fs1 fs2 ps f first Hf Hatt|]; simpl in *; try done.
  apply elem_of_app in Hr as [Hr|Hr]; [|done]. exfalso.
  pose proof (wi_claims _ Hinv) as Hc. simpl in Hc. apply Forall_app in Hc as [_ [Hc _]%Forall_cons].
  apply (claimed_open _ r (wi_core _ Hinv) (Hc r Hr _ _ Hatt)). by rewrite Hg.
Qed.

Lemma closed_kept c c1 g : goal_closed c g -> goal_step c c1 -> goal_closed c1 g.
Proof. intros (G & HG & Hc) Hstep. exists G. split; [by eapply goal_step_closed | done]. Qed.

(** C26: Once a goal is completed or cancelled, its generation never changes again and no
    launch permit for it is ever issued again, not even to a claim that had committed
    before. *)
Theorem closed_goal_never_launched (w w1 : GoalWorld) (g : string) (G : Generation) :
  goal_reachable w -> lg_generations (gw_ledger w) !! g = Some G -> is_closed (gn_lifecycle G) = true ->
  rtc world_step w w1 ->
  lg_generations (gw_ledger w1) !! g = Some G /\
  forall r, r ∈ gw_permits w1 -> rs_goal r = g -> r ∈ gw_permits w.
Proof.
  intros Hinv%goal_reachable_inv HG Hc Hrun. split.
  - apply (run_keeps (fun c => generations c !! g = Some G) w w1); [|done..].
    intros c c1 _ H Hs. by eapply goal_step_closed.
  - assert (Hcl : goal_closed (core (gw_ledger w)) g) by (by exists G). clear HG Hc.
    induction Hrun as [|x y z Hstep Hrun IH]; [done|]. intros r Hr Hg.
    eapply world_step_permits; [exact Hinv | exact Hstep | exact Hcl | | exact Hg].
    apply IH; [by eapply world_step_inv| |done|done].
    destruct (world_step_core _ _ Hinv Hstep) as [->|Hs]; [done | by eapply closed_kept].
Qed.

(** ** Decisions *)

(** A failed generation stays as it is, is cancelled, or is followed by the decision that
    retried it. *)
Definition failed_or_decided (g : string) (n : Z) (id : string) (c : Core) : Prop :=
  generation_at c g n BlockedGeneration (Some id) \/ generation_at c g n CancelledGeneration (Some id) \/
  exists d, decided c !! (g, d) = Some n.

Lemma moved_at c g n s a digest at' dec' : generation_at (mkCore (moved c g n s a digest) at' dec') g n s a.
Proof. exists digest. apply lookup_insert_eq. Qed.

Lemma generation_at_agree c g n s a n' s' a' :
  generation_at c g n s a -> generation_at c g n' s' a' -> n = n' /\ s = s' /\ a = a'.
Proof. intros [d H] [d' H']. rewrite H in H'. by injection H'. Qed.

Lemma generation_at_other c g n s a g1 n1 s1 a1 digest at' dec' :
  generation_at c g n s a -> g1 <> g ->
  generation_at (mkCore (moved c g1 n1 s1 a1 digest) at' dec') g n s a.
Proof. intros [d H] Hne. exists d. simpl. unfold moved. by rewrite lookup_insert_ne. Qed.

Lemma failed_step g n id c c1 :
  failed_or_decided g n id c -> goal_step c c1 -> failed_or_decided g n id c1.
Proof.
  intros [Hb|[Hcan|[d Hd]]] Hstep.
  - destruct Hstep; simpl; try (by left);
      try (left; apply generation_at_other; [done|]; intros <-;
           match goal with H : generation_at _ _ _ _ _ |- _ =>
             by destruct (generation_at_agree _ _ _ _ _ _ _ _ Hb H) as (_ & ? & _) end).
    + left. apply generation_at_other; [done|]. intros ->. destruct Hb as [? Hb]. congruence.
    + destruct (decide (rs_goal r = g)) as [<-|Hne]; [|left; by apply generation_at_other].
      match goal with H : generation_at _ _ _ _ _ |- _ =>
        destruct (generation_at_agree _ _ _ _ _ _ _ _ Hb H) as (-> & _ & _) end.
      right. right. eexists. apply lookup_insert_eq.
    + destruct (decide (rs_goal r = g)) as [<-|Hne]; [|left; by apply generation_at_other].
      match goal with H : generation_at _ _ _ _ _ |- _ =>
        destruct (generation_at_agree _ _ _ _ _ _ _ _ Hb H) as (-> & _ & [= ->]) end.
      right. left. apply moved_at.
  - right. left. destruct Hcan as [digest HG]. exists digest. by eapply goal_step_closed.
  - right. right. exists d. eapply lookup_weaken; [exact Hd | by apply goal_step_decisions].
Qed.

(** After an attempt failed, the goal is launched again under a later generation only
    if an explicit decision was spent on the failed generation: nothing replays it by
    itself. *)
Theorem failed_goal_needs_decision (w w1 : GoalWorld) (g : string) (n : Z) (id : string) (r : Reservation) :
  goal_reachable w -> generation_at (core (gw_ledger w)) g n BlockedGeneration (Some id) ->
  rtc world_step w w1 -> r ∈ gw_permits w1 -> rs_goal r = g -> n < rs_generation r ->
  exists d, lg_decisions (gw_ledger w1) !! (g, d) = Some n.
Proof.
  intros Hinv%goal_reachable_inv Hb Hrun Hr <- Hn.
  pose proof (run_inv _ _ Hrun Hinv) as Hinv1.
  destruct (launched_number _ _ (wi_core _ Hinv1) (permit_launched _ _ Hinv1 Hr)) as (G & HG & Hle).
  destruct (run_keeps (failed_or_decided (rs_goal r) n id) w w1) as [[d H]|[[d H]|H]];
    [intros c c1 _; apply failed_step | done | done | by left | | | exact H];
    rewrite HG in H; injection H as ->; simpl in Hle; lia.
Qed.

(** A work decision authorises new work at most once: the generation it was spent on
    never changes, and in every later ledger both ways of authorising work with it are
    refused without a change. *)
Theorem work_decision_spent_once (w w1 : GoalWorld) (g : string) (d : WorkDecision) (n : Z) :
  goal_reachable w -> lg_decisions (gw_ledger w) !! (g, d) = Some n -> rtc world_step w w1 ->
  lg_decisions (gw_ledger w1) !! (g, d) = Some n /\
  (forall m grant c, authorize_ready_recovery g m d grant = Ok c -> is_ok (ch_write c (gw_ledger w1)) = false) /\
  (forall m id grant c, authorize_retry g m id d grant = Ok c -> is_ok (ch_write c (gw_ledger w1)) = false).
Proof.
  intros Hinv%goal_reachable_inv Hd Hrun.
  assert (Hd1 : lg_decisions (gw_ledger w1) !! (g, d) = Some n).
  { apply (run_keeps (fun c => decided c !! (g, d) = Some n) w w1); [|done..].
    intros c c1 _ H Hs. eapply lookup_weaken; [exact H | by apply goal_step_decisions]. }
  split; [exact Hd1|]. split.
  - intros m grant c Hc. destruct (ch_write c (gw_ledger w1)) as [[v l']|e] eqn:Hw; [|done]. exfalso.
    unfold authorize_ready_recovery, ready_change in Hc. ok_inv. simpl in Hw. tx_inv.
    match goal with H : require_exact _ _ _ _ _ _ = _ |- _ => apply require_exact_ok in H as (-> & _) end.
    match goal with H : decision_claim _ _ _ _ = _ |- _ => apply decision_claim_ok in H as (Hnone & _) end.
    congruence.
  - intros m id grant c Hc. destruct (ch_write c (gw_ledger w1)) as [[v l']|e] eqn:Hw; [|done]. exfalso.
    unfold authorize_retry, ready_change in Hc. ok_inv. simpl in Hw. tx_inv.
    match goal with H : require_exact _ _ _ _ _ _ = _ |- _ => apply require_exact_ok in H as (-> & _) end.
    match goal with H : decision_claim _ _ _ _ = _ |- _ => apply decision_claim_ok in H as (Hnone & _) end.
    congruence.
Qed.

(** ** What an explicit retry achieves *)

Lemma change_ok {A : Type} (c : Change A) (s : GoalStore) a l' :
  ch_write c (gs_ledger s) = Ok (a, l') -> ch_verify c a l' l' = Ok true ->
  change c s = (Ok a, mkGoalStore l' (ch_finally c (ch_returned c a (gs_instance s)))).
Proof. intros Hw Hv. unfold change, attested. by rewrite Hw, Hv. Qed.

Lemma grant_digest_length grant digest : grant_digest grant = Ok digest -> len digest = 64.
Proof. unfold grant_digest. intros H. ok_inv. unfold len. by rewrite Sha256.length_sha256_bytes. Qed.

Lemma generation_one_present c g G l :
  core_wf c -> core l = c -> lg_generations l !! g = Some G -> generation_one g l = Ok (Some G).
Proof.
  intros Hwf <- HG. unfold generation_one. rewrite HG. destruct (wf_generation _ Hwf _ _ HG) as (_ & Hn & Hv).
  unfold generation_post_init. rewrite Hv. simpl. rewrite (proj2 (Z.ltb_ge _ _)) by lia. done.
Qed.

Lemma generation_present n s a : 1 <= n -> validate_attempt s a = Ok tt ->
  forall g, generation g n s a = Ok (mkGeneration g n s a "").
Proof.
  intros Hn Hv g. unfold generation, generation_post_init. simpl. rewrite Hv. simpl.
  rewrite (proj2 (Z.ltb_ge _ _)) by lia. done.
Qed.

Lemma require_exact_present l g n s a digest e :
  core_wf (core l) -> lg_generations l !! g = Some (mkGeneration g n s a digest) ->
  require_exact g n s a e l = Ok (mkGeneration g n s a digest, l).
Proof.
  intros Hwf HG. destruct (wf_generation _ Hwf _ _ HG) as (_ & Hn & Hv). simpl in *.
  unfold require_exact, mbind, Tx_bind, tx_read, tx_lift.
  rewrite (generation_one_present _ _ _ _ Hwf eq_refl HG). simpl.
  rewrite (generation_present n s a Hn Hv). simpl. unfold same_generation. simpl.
  by rewrite bool_decide_eq_true_2.
Qed.

(** A ready write commits and reads back. *)
Lemma ready_write_attests g n digest v l :
  core_wf (core (set_generation (mkGeneration g n ReadyGeneration None digest) l)) ->
  same_generation (mkGeneration g n ReadyGeneration None digest) v = true -> gn_number v = n ->
  gn_goal v = g ->
  let l' := set_generation (mkGeneration g n ReadyGeneration None digest) l in
  (current ← is_generation v l';
   if current : bool then
     g ← require_generation (gn_goal v) l'; Ok (has_ready_grant g (gn_number v) digest)
   else Ok false) = Ok true.
Proof.
  intros Hwf Hsame Hn Hg l'.
  assert (HG : lg_generations l' !! g = Some (mkGeneration g n ReadyGeneration None digest)) by (simpl; apply lookup_insert_eq).
  assert (H1 : generation_one g l' = Ok (Some (mkGeneration g n ReadyGeneration None digest)))
    by exact (generation_one_present _ _ _ _ Hwf eq_refl HG).
  unfold is_generation, require_generation. rewrite Hg, H1. simpl. rewrite Hsame. simpl.
  unfold has_ready_grant. simpl. by rewrite Hn, Z.eqb_refl, bool_decide_eq_true_2.
Qed.

Lemma generation_advance_present g n s a d0 n1 s1 a1 d1 digest l G :
  lg_generations l !! g = Some G -> may_become s s1 = true ->
  generation_checks (mkGeneration g n1 s1 a1 digest) = true ->
  generation_advance (mkGeneration g n s a d0) (mkGeneration g n1 s1 a1 d1) digest l =
    Ok (mkGeneration g n1 s1 a1 d1, set_generation (mkGeneration g n1 s1 a1 digest) l).
Proof. intros HG Hm Hc. unfold generation_advance. simpl. rewrite Hm, HG. simpl. rewrite Hc. done. Qed.

Lemma ready_checks g n digest : 1 <= n -> len digest = 64 -> generation_checks (mkGeneration g n ReadyGeneration None digest) = true.
Proof.
  intros Hn Hl. unfold generation_checks. simpl. rewrite Hl. simpl. rewrite (proj2 (Z.ltb_lt _ _)) by lia. done.
Qed.

Lemma has_grant_here g n digest : has_ready_grant (mkGeneration g n ReadyGeneration None digest) n digest = true.
Proof. unfold has_ready_grant. simpl. by rewrite Z.eqb_refl, bool_decide_eq_true_2. Qed.

(** Rotating the grant of a ready goal *)
Lemma recover_commits s g n fresh digest :
  core_wf (core (gs_ledger s)) -> generation_at (core (gs_ledger s)) g n ReadyGeneration None ->
  grant_digest fresh = Ok digest ->
  exists v, perform_change (fun _ => recover_unreserved_ready g n fresh) s =
    (Ok v, mkGoalStore (set_generation (mkGeneration g n ReadyGeneration None digest) (gs_ledger s))
             (mkInstance (in_owned (gs_instance s)) (<[(g, n) := fresh]> (in_grants (gs_instance s))))).
Proof.
  intros Hwf [d0 HG] Hd. pose proof (wf_generation _ Hwf _ _ HG) as (_ & Hn & _). simpl in Hn, HG.
  exists (mkGeneration g n ReadyGeneration None d0).
  unfold perform_change, recover_unreserved_ready, ready_change. rewrite Hd. simpl.
  erewrite (change_ok _ s (mkGeneration g n ReadyGeneration None d0)
             (set_generation (mkGeneration g n ReadyGeneration None digest) (gs_ledger s))); [done|..].
  - simpl. unfold mbind, Tx_bind. rewrite (require_exact_present _ _ _ _ _ _ _ Hwf HG).
    erewrite generation_advance_present; [done | exact HG | done|]. by apply ready_checks; [|eapply grant_digest_length].
  - apply (ready_write_attests g n digest); [|by apply bool_decide_eq_true|done|done].
    eapply goal_step_wf; [exact Hwf|]. apply (grant_rotated (core (gs_ledger s))). by exists d0.
Qed.

(** A ready generation has no attempt yet, so its reservation is accepted. *)
Lemma attempt_insert_fresh l g n digest id token :
  core_wf (core l) -> lg_generations l !! g = Some (mkGeneration g n ReadyGeneration None digest) ->
  lg_attempts l !! id = None ->
  attempt_insert (mkGoalAttempt (mkReservation g n id token) ReservedAttempt None NoResolution) l =
    Ok (tt, set_attempt (mkGoalAttempt (mkReservation g n id token) ReservedAttempt None NoResolution) l).
Proof.
  intros Hwf HG Hid. unfold attempt_insert. simpl. rewrite Hid, HG. simpl.
  destruct (existsb _ _) eqn:E; simpl; [|done]. exfalso.
  apply existsb_exists in E as ([id' a] & Hin & Hb). simpl in Hb. bools.
  apply list_elem_of_In, elem_of_map_to_list in Hin.
  destruct (wf_attempt _ Hwf _ _ Hin) as (G & HG' & Hcase).
  match goal with H : rs_goal _ = g |- _ => rewrite H in HG' end. simpl in HG'. rewrite HG in HG'.
  injection HG' as <-. simpl in Hcase. destruct Hcase as [[_ Hnone]|[Hlt _]]; [done | lia].
Qed.

Section launching.
Context (s : GoalStore) (g : string) (n : Z) (grant digest id token : string).
Context (Hwf : core_wf (core (gs_ledger s))).
Context (HG : lg_generations (gs_ledger s) !! g = Some (mkGeneration g n ReadyGeneration None digest)).
Context (Hgrant : grant_digest grant = Ok digest) (Hid : lg_attempts (gs_ledger s) !! id = None).

#[local] Abbreviation r := (mkReservation g n id token).
#[local] Abbreviation reserved_ledger :=
  (set_generation (mkGeneration g n ReservedGeneration (Some id) "")
     (set_attempt (mkGoalAttempt r ReservedAttempt None NoResolution) (gs_ledger s))).
#[local] Abbreviation claimed_ledger :=
  (set_attempt (mkGoalAttempt r ClaimedAttempt None NoResolution) reserved_ledger).

Lemma reserved_wf : core_wf (core reserved_ledger).
Proof.
  eapply goal_step_wf; [exact Hwf|]. apply (attempt_reserved (core (gs_ledger s)) r); [by exists digest | exact Hid].
Qed.

Lemma reserved_row : lg_generations reserved_ledger !! g = Some (mkGeneration g n ReservedGeneration (Some id) "").
Proof. apply lookup_insert_eq. Qed.

Lemma claimed_wf : core_wf (core claimed_ledger).
Proof.
  eapply goal_step_wf; [exact reserved_wf|]. apply (attempt_claimed (core reserved_ledger) r).
  - eexists. apply reserved_row.
  - eexists _, _. simpl. apply lookup_insert_eq.
Qed.

Lemma readback_here p l :
  core_wf (core l) -> lg_generations l !! g = Some (mkGeneration g n ReservedGeneration (Some id) "") ->
  lg_attempts l !! id = Some (mkGoalAttempt r p None NoResolution) ->
  readback r p (mkGeneration g n ReservedGeneration (Some id) "") l l = Ok true.
Proof.
  intros Hl HGl Ha. unfold readback, is_generation. simpl.
  rewrite (generation_one_present _ _ _ _ Hl eq_refl HGl). simpl. unfold same_generation. simpl.
  rewrite bool_decide_eq_true_2 by done. simpl. rewrite Ha. simpl.
  by rewrite !bool_decide_eq_true_2.
Qed.

Lemma reserve_commits :
  perform_change (reserve g n (Some grant) id token) s =
    (Ok r, mkGoalStore reserved_ledger
             (mkInstance ({[id]} ∪ in_owned (gs_instance s)) (delete (g, n) (in_grants (gs_instance s))))).
Proof.
  pose proof (wf_generation _ Hwf _ _ HG) as (_ & Hn & _). simpl in Hn.
  unfold perform_change, reserve. rewrite Hgrant. simpl.
  erewrite (change_ok _ s r reserved_ledger); [done| |].
  - simpl. unfold mbind, Tx_bind. rewrite (require_exact_present _ _ _ _ _ _ _ Hwf HG).
    unfold tx_lift. simpl. rewrite bool_decide_eq_true_2 by done. simpl.
    rewrite (attempt_insert_fresh _ _ _ _ _ token Hwf HG Hid).
    erewrite generation_advance_present; [done | exact HG | done|].
    unfold generation_checks. simpl. rewrite (proj2 (Z.ltb_lt _ _)) by lia. done.
  - simpl. apply readback_here; [exact reserved_wf | exact reserved_row|]. simpl. apply lookup_insert_eq.
Qed.

Lemma claim_commits i :
  id ∈ in_owned i ->
  perform_change (fun s1 => claim_launch r (gs_instance s1)) (mkGoalStore reserved_ledger i) =
    (Ok r, mkGoalStore claimed_ledger (mkInstance (in_owned i ∖ {[id]}) (in_grants i))).
Proof.
  intros Howned. pose proof (wf_generation _ Hwf _ _ HG) as (_ & Hn & _). simpl in Hn.
  unfold perform_change, claim_launch. simpl. rewrite bool_decide_eq_true_2 by done. simpl.
  erewrite (change_ok _ _ r claimed_ledger); [done| |].
  - simpl. unfold require_current, mbind, Tx_bind, tx_read, tx_lift. simpl.
    rewrite (generation_one_present _ _ _ _ reserved_wf eq_refl reserved_row). simpl.
    unfold reserved_by. simpl. rewrite lookup_insert_eq. simpl. rewrite bool_decide_eq_true_2 by done. simpl.
    rewrite (generation_present n ReservedGeneration (Some id) Hn eq_refl g). simpl.
    unfold same_generation. simpl. rewrite bool_decide_eq_true_2 by done. simpl.
    unfold attempt_advance. simpl. rewrite lookup_insert_eq. done.
  - simpl. apply readback_here; [exact claimed_wf | exact reserved_row|]. simpl. apply lookup_insert_eq.
Qed.

Lemma launch_commits :
  exists s1, launch g n grant id token s = (Ok r, s1) /\ gs_ledger s1 = claimed_ledger.
Proof.
  unfold launch. rewrite reserve_commits, claim_commits by set_solver. eauto.
Qed.
End launching.

Lemma ready_grant_cases s g n digest :
  core_wf (core (gs_ledger s)) ->
  lg_generations (gs_ledger s) !! g = Some (mkGeneration g n ReadyGeneration None digest) ->
  (exists grant, ready_grant g n s = Ok grant /\ grant_digest grant = Ok digest) \/
  exists m, ready_grant g n s = Err (UnresolvedAttemptError m).
Proof.
  intros Hwf HG. unfold ready_grant, require_generation.
  destruct (in_grants (gs_instance s) !! (g, n)) as [grant|]; simpl; [|by right; eexists].
  rewrite (generation_one_present _ _ _ _ Hwf eq_refl HG). simpl.
  destruct (grant_digest grant) as [digest'|e] eqn:Hd; simpl.
  - unfold has_ready_grant. simpl. rewrite Z.eqb_refl. simpl.
    destruct (bool_decide (digest = digest')) eqn:Hb; simpl; [|by right; eexists]. bools. subst. left. by exists grant.
  - right. unfold grant_digest in Hd. destruct (negb _); simpl in Hd; [injection Hd as <-; by eexists|].
    destruct (hex_bytes grant); simpl in Hd; [done|]. injection Hd as <-. by eexists.
Qed.

Lemma ready_goal_launches s g n digest fresh fresh_digest id token G :
  core_wf (core (gs_ledger s)) ->
  lg_generations (gs_ledger s) !! g = Some (mkGeneration g n ReadyGeneration None digest) ->
  gn_goal G = g -> gn_number G = n -> gn_lifecycle G = ReadyGeneration ->
  grant_digest fresh = Ok fresh_digest -> lg_attempts (gs_ledger s) !! id = None ->
  exists s1, turn_permit (Ok tt) G fresh id token s = (Ok (Some (mkReservation g n id token)), s1) /\
    is_claimed (mkReservation g n id token) (gs_ledger s1) (gs_ledger s1) = Ok true.
Proof.
  intros Hwf HG Hg Hn Hs Hfresh Hid. unfold turn_permit, ready_goal_grant. rewrite Hs, Hg, Hn.
  assert (Hlaunch : forall s0 grant0 digest0, core_wf (core (gs_ledger s0)) ->
    lg_generations (gs_ledger s0) !! g = Some (mkGeneration g n ReadyGeneration None digest0) ->
    grant_digest grant0 = Ok digest0 -> lg_attempts (gs_ledger s0) !! id = None ->
    exists s1, launch g n grant0 id token s0 = (Ok (mkReservation g n id token), s1) /\
      is_claimed (mkReservation g n id token) (gs_ledger s1) (gs_ledger s1) = Ok true).
  { intros s0 grant0 digest0 Hwf0 HG0 Hd0 Hid0.
    destruct (launch_commits s0 g n grant0 digest0 id token Hwf0 HG0 Hd0 Hid0) as (s1 & Hl & Hs1).
    exists s1. split; [exact Hl|]. rewrite Hs1. unfold is_claimed, reserved_generation. simpl.
    apply readback_here; [by apply (claimed_wf s0 g n digest0) | apply lookup_insert_eq | apply lookup_insert_eq]. }
  destruct (ready_grant_cases s g n digest Hwf HG) as [(grant & Hready & Hd)|[m Hready]]; rewrite Hready.
  - destruct (Hlaunch s grant digest Hwf HG Hd Hid) as (s1 & -> & Hc). eauto.
  - destruct (recover_commits s g n fresh fresh_digest Hwf (ex_intro _ digest HG) Hfresh) as [v ->].
    match goal with |- context [ready_grant g n ?x] => set (s1 := x) end.
    assert (Hwf1 : core_wf (core (gs_ledger s1))).
    { eapply goal_step_wf; [exact Hwf|]. apply (grant_rotated (core (gs_ledger s))). by exists digest. }
    assert (HG1 : lg_generations (gs_ledger s1) !! g = Some (mkGeneration g n ReadyGeneration None fresh_digest))
      by apply lookup_insert_eq.
    assert (Hr1 : ready_grant g n s1 = Ok fresh).
    { unfold ready_grant, require_generation. rewrite (generation_one_present _ _ _ _ Hwf1 eq_refl HG1).
      simpl. rewrite lookup_insert_eq. simpl. rewrite Hfresh. simpl.
      by rewrite has_grant_here. }
    rewrite Hr1. destruct (Hlaunch s1 fresh fresh_digest Hwf1 HG1 Hfresh Hid) as (s2 & -> & Hc). eauto.
Qed.

Lemma retry_commits s g n failed d grant digest :
  core_wf (core (gs_ledger s)) -> generation_at (core (gs_ledger s)) g n BlockedGeneration (Some failed) ->
  lg_decisions (gs_ledger s) !! (g, d) = None -> grant_digest grant = Ok digest ->
  exists s1, perform_change (fun s => authorize_current_retry g d grant (gs_ledger s)) s
      = (Ok (mkGeneration g (n + 1) ReadyGeneration None ""), s1) /\
    core_wf (core (gs_ledger s1)) /\
    lg_generations (gs_ledger s1) !! g = Some (mkGeneration g (n + 1) ReadyGeneration None digest) /\
    forall id, lg_attempts (gs_ledger s) !! id = None -> lg_attempts (gs_ledger s1) !! id = None.
Proof.
  destruct s as [l i]. simpl. intros Hwf [d0 HG] Hd Hgrant. simpl in HG.
  pose proof (wf_generation _ Hwf _ _ HG) as (_ & Hn & _). simpl in Hn.
  destruct (wf_current _ Hwf _ _ failed HG eq_refl) as ([[g0 n0 id0 tok0] p w0 res0] & Ha & Hg0 & Hn0 & Hfit).
  pose proof (wf_attempt_key _ Hwf _ _ Ha) as Hkey. simpl in *. subst g0 n0 id0. bools. subst p.
  set (r := mkReservation g n failed tok0) in *.
  set (l1 := mkLedger (lg_generations l) (lg_attempts l) (<[(g, d) := n]> (lg_decisions l)) (lg_usage l) (lg_failures l)).
  set (l2 := set_generation (mkGeneration g (n + 1) ReadyGeneration None digest)
               (set_attempt (mkGoalAttempt r ResolvedAttempt None (DecidedResolution d)) l1)).
  assert (Hwf2 : core_wf (core l2)).
  { eapply goal_step_wf; [exact Hwf|]. apply (retry_authorized (core l) r d digest);
      [by exists d0 | by exists w0, res0 | exact Hd]. }
  unfold perform_change, authorize_current_retry, require_generation. simpl.
  rewrite (generation_one_present _ _ _ _ Hwf eq_refl HG). simpl.
  unfold authorize_retry, ready_change. rewrite Hgrant. simpl.
  erewrite (change_ok _ _ (mkGeneration g (n + 1) ReadyGeneration None "") l2);
    [eexists; split; [reflexivity|]; split; [exact Hwf2|]; split; [apply lookup_insert_eq|]| |].
  - intros id Hid. simpl. rewrite lookup_insert_ne; [done|]. intros <-. simpl in Ha. congruence.
  - simpl. unfold mbind, Tx_bind. rewrite (require_exact_present _ _ _ _ _ _ _ Hwf HG).
    unfold tx_read, tx_lift, identified. simpl. rewrite Ha. simpl.
    unfold rs_identity. simpl. rewrite bool_decide_eq_true_2 by done. simpl.
    unfold decision_claim. rewrite Hd, HG. simpl. unfold attempt_advance. simpl. rewrite Ha. simpl.
    erewrite generation_advance_present; [done | exact HG | done|].
    apply ready_checks; [lia | by eapply grant_digest_length].
  - apply (ready_write_attests g (n + 1) digest _ _ Hwf2); [by apply bool_decide_eq_true | done | done].
Qed.

(** An explicit retry of a failed goal always works when nothing else writes: with an
    unused decision the blocked generation is followed by a ready one, and asking for a turn
    then returns a claimed launch permit for it, whatever the process had been granted
    before. *)
Theorem retried_goal_launches (w : GoalWorld) (i : Instance) (g : string) (n : Z) (failed : string)
    (d : WorkDecision) (grant fresh id token : string) :
  goal_reachable w -> generation_at (core (gw_ledger w)) g n BlockedGeneration (Some failed) ->
  lg_decisions (gw_ledger w) !! (g, d) = None -> lg_attempts (gw_ledger w) !! id = None ->
  is_ok (grant_digest grant) = true -> is_ok (grant_digest fresh) = true ->
  exists G s1 s2,
    perform_change (fun s => authorize_current_retry g d grant (gs_ledger s)) (mkGoalStore (gw_ledger w) i)
      = (Ok G, s1) /\
    turn_permit (Ok tt) G fresh id token s1 = (Ok (Some (mkReservation g (n + 1) id token)), s2) /\
    is_claimed (mkReservation g (n + 1) id token) (gs_ledger s2) (gs_ledger s2) = Ok true.
Proof.
  intros Hinv%goal_reachable_inv Hb Hd Hid [digest Hgrant]%is_ok_spec [fresh_digest Hfresh]%is_ok_spec.
  destruct (retry_commits (mkGoalStore (gw_ledger w) i) g n failed d grant digest) as (s1 & Hch & Hwf1 & HG1 & Hids);
    [apply Hinv | exact Hb | exact Hd | exact Hgrant|].
  destruct (ready_goal_launches s1 g (n + 1) digest fresh fresh_digest id token
              (mkGeneration g (n + 1) ReadyGeneration None "")) as (s2 & Ht & Hc); try done; [by apply Hids|].
  exists (mkGeneration g (n + 1) ReadyGeneration None ""), s1, s2. split; [exact Hch|]. by split.
Qed.
