(* ===== verification/GoalActionFacts.v ===== *)
(** * What goal actions guarantee

    Compare-and-set of the declared goal, protection of an owner's pause, and the fate of a
    goal that was replaced or cleared. *)

From stdpp Require Import base gmap strings list.
From Stdlib Require Import ZArith Lia Ascii.
From S2P Require Import Prelude Contracts Lifecycle GoalStates Sha256 GoalLedger GoalStore GoalActions GoalMachine.
From S2P Require Import GoalInvariants GoalProcesses.

(** ** Successful actions *)

Lemma d_bind_ok {A B : Type} (m : D A) (f : A -> D B) s b s' :
  (m ≫= f) s = (Ok b, s') -> exists a s1, m s = (Ok a, s1) /\ f a s1 = (Ok b, s').
Proof. unfold mbind, D_bind. destruct (m s) as [[a|e] s1]; [eauto | discriminate]. Qed.

Lemma d_lift_ok {A : Type} (o : outcome A) s a s' : d_lift o s = (Ok a, s') -> o = Ok a /\ s' = s.
Proof. unfold d_lift. by intros [= -> ->]. Qed.

Lemma d_read_ok {A : Type} (f : Ledger -> outcome A) s a s' :
  d_read f s = (Ok a, s') -> f (gs_ledger s) = Ok a /\ s' = s.
Proof. unfold d_read. by intros [= -> ->]. Qed.

Lemma d_ret_ok {A : Type} (a b : A) s s' : (mret a : D A) s = (Ok b, s') -> a = b /\ s' = s.
Proof. unfold mret, D_ret. by intros [= -> ->]. Qed.

Ltac d_step :=
  match goal with
  | H : mbind _ _ _ = (Ok _, _) |- _ => apply d_bind_ok in H; destruct H as (? & ? & ? & H)
  | H : d_lift _ _ = (Ok _, _) |- _ => apply d_lift_ok in H; destruct H as [H ->]
  | H : d_read _ _ = (Ok _, _) |- _ => apply d_read_ok in H; destruct H as [H ->]
  | H : mret _ _ = (Ok _, _) |- _ => apply d_ret_ok in H; destruct H as [<- ->]
  end.
Ltac d_inv := repeat first [progress d_step | progress ok_step]; bools; simplify_eq.

(** What [apply] did when it returned *)
Lemma apply_action_ok expect action cx desk goal desk' :
  apply_action expect action cx desk = (Ok goal, desk') ->
  gd_goal desk' = goal /\ precondition_check expect cx (gd_goal desk) = Ok tt /\
  admits action (cx_actor cx) = true /\ require_actor_consent (cx_actor cx) (gd_goal desk) = Ok tt /\
  exists s1, match gd_goal desk with Some g => action_change action cx g | None => action_create action cx end
               (gd_store desk) = (Ok goal, s1) /\
    (goal = gd_goal desk /\ gd_store desk' = s1 \/
     goal <> gd_goal desk /\ before_publish action (gd_goal desk) s1 = (Ok tt, gd_store desk')).
Proof.
  unfold apply_action. cbv zeta.
  match goal with |- (match ?body with _ => _ end) = _ -> _ => destruct body as [[g|e] s] eqn:E end;
    [|discriminate]. intros [= <- <-]. simpl.
  repeat match type of E with mbind _ _ _ = _ => apply d_bind_ok in E as (? & ? & ? & E) end.
  repeat match goal with H : d_lift _ _ = _ |- _ => apply d_lift_ok in H as [H ->] end.
  repeat match goal with u : unit |- _ => destruct u end.
  match goal with H : require _ _ = _ |- _ => apply require_ok in H end.
  destruct (bool_decide _) eqn:Hb; bools.
  - apply d_ret_ok in E as [<- ->]. eauto 10.
  - repeat match type of E with mbind _ _ _ = _ => apply d_bind_ok in E as (? & ? & ? & E) end.
    apply d_ret_ok in E as [<- ->].
    match goal with H : d_lift (cx_publish cx) _ = _ |- _ => apply d_lift_ok in H as [_ ->] end.
    repeat match goal with u : unit |- _ => destruct u end. eauto 12.
Qed.

Lemma goal_post_init_ok g g' : goal_post_init g = Ok g' -> g' = g /\ 0 <= go_revision g < 2 ^ 63.
Proof. unfold goal_post_init, revision_checked. intros H. ok_inv. bools. split; [done | lia]. Qed.

Lemma transition_ok action progress cx g s g' s' :
  transition action progress cx g s = (Ok g', s') ->
  go_id g' = go_id g /\ go_revision g' = go_revision g + 1 /\ go_revision g' < 2 ^ 63 /\
  exists state s1 s2, next_state action cx g = Ok state /\ go_state g' = state /\
    require_transition action cx g state s1 = (Ok tt, s2).
Proof.
  unfold transition. intros H.
  repeat match type of H with mbind _ _ _ = _ => apply d_bind_ok in H as (? & ? & ? & H) end.
  apply d_ret_ok in H as [<- ->].
  repeat match goal with H : d_lift _ _ = _ |- _ => apply d_lift_ok in H as [H ->] end.
  match goal with H : goal_post_init _ = _ |- _ => apply goal_post_init_ok in H as [-> Hrev] end.
  simpl in *. repeat (split; [done || lia|]).
  repeat match goal with u : unit |- _ => destruct u end. eauto 10.
Qed.

Lemma set_create_ok cx text order id grant s g s' :
  set_create cx text order id grant s = (Ok g, s') ->
  go_id g = id /\ exists digest, gs_ledger s' = set_generation (mkGeneration id 1 ReadyGeneration None digest) (gs_ledger s).
Proof.
  unfold set_create. intros H. apply d_bind_ok in H as (g1 & s1 & H1 & H). apply d_lift_ok in H1 as [H1 ->].
  apply goal_post_init_ok in H1 as [-> _]. apply d_bind_ok in H as (u & s1 & Hc & H). apply d_ret_ok in H as [<- ->].
  split; [done|]. unfold d_change, always_change in Hc. destruct (create_goal id grant) as [c|e] eqn:Hg; [|done].
  simpl in Hc. destruct (change c s) as [[v|e] s2] eqn:E; [|done]. injection Hc as <- <-.
  unfold change in E. destruct (ch_write c (gs_ledger s)) as [[v' l]|e] eqn:Hw; [|done].
  destruct (attested _); [|done]. injection E as _ <-. unfold create_goal, ready_change in Hg. ok_inv. simpl in *.
  apply tx_bind_ok in Hw as (? & ? & [_ ->]%tx_read_ok & Hw). apply tx_bind_ok in Hw as (? & ? & [_ ->]%tx_lift_ok & Hw).
  apply tx_bind_ok in Hw as (? & l1 & Hi & Hw). unfold generation_insert in Hi. ok_inv.
  eexists. by injection Hw as _ <-.
Qed.

Lemma continue_goal_ok reissued order grant cx g s g' s' :
  continue_goal reissued order grant cx g s = (Ok g', s') ->
  go_id g' = go_id g /\ go_revision g' = go_revision g + 1 /\ go_state g' = go_state g.
Proof.
  unfold continue_goal. intros H.
  repeat match type of H with mbind _ _ _ = _ => apply d_bind_ok in H as (? & ? & ? & H) end.
  by apply d_lift_ok in H as [[-> _]%goal_post_init_ok _].
Qed.

Lemma held_change_ok cx g s g' s' :
  held_change cx g s = (Ok g', s') ->
  go_id g' = go_id g /\ go_revision g' = go_revision g + 1 /\ go_state g' = go_state g.
Proof.
  unfold held_change. intros H. apply d_bind_ok in H as (? & ? & ? & H).
  by apply d_lift_ok in H as [[-> _]%goal_post_init_ok _].
Qed.

(** An order either continues the goal, which no protected pause holds, or replaces a completed
    one by the goal it minted; the ledger then has that goal's first generation, and all it had. *)
Lemma accept_order_ok reissued order id grant cx g s g' s' :
  accept_order reissued order id grant cx g s = (Ok g', s') ->
  go_id g' = go_id g /\ go_revision g' = go_revision g + 1 /\ goal_protected (go_state g) = false \/
  go_state g = CompletedGoal /\ go_id g' = id /\
  exists digest, gs_ledger s' = set_generation (mkGeneration id 1 ReadyGeneration None digest) (gs_ledger s).
Proof.
  unfold accept_order. intros H. destruct (go_state g) as [|p| | |] eqn:Hs.
  - left. by apply continue_goal_ok in H as (? & ? & _).
  - left. apply d_bind_ok in H as (u & s1 & Hp & H). apply d_lift_ok in Hp as [Hp _].
    apply continue_goal_ok in H as (? & ? & _). split_and!; [done..|].
    unfold goal_protected, protects_pause. simpl in Hp. by destruct (pause_instruction p).
  - left. apply d_bind_ok in H as (g1 & s1 & Hc & H). apply continue_goal_ok in Hc as (? & ? & _).
    by apply d_lift_ok in H as [[-> _]%goal_post_init_ok _].
  - left. apply d_bind_ok in H as (g1 & s1 & Hc & H). apply continue_goal_ok in Hc as (? & ? & _).
    by apply d_lift_ok in H as [[-> _]%goal_post_init_ok _].
  - right. apply d_bind_ok in H as (u & s1 & Hr & H). apply d_lift_ok in Hr as [_ ->].
    unfold order_create in H. apply d_bind_ok in H as (? & ? & Hr & H). apply d_lift_ok in Hr as [_ ->].
    apply d_bind_ok in H as (? & ? & Hr & H). apply d_lift_ok in Hr as [_ ->].
    by apply set_create_ok in H as [? ?].
Qed.

(** The identity an order mints for the goal it may set *)
Definition minted (action : GoalAction) : option string :=
  match action with
  | OrderGoalAction _ id _ | ReissuedOrderGoalAction _ id _ | CreateProblemGoalAction _ id _ => Some id
  | _ => None
  end.

(** The goal a changing action returns, by its identity *)
Lemma action_change_ok action cx g s goal s' :
  action_change action cx g s = (Ok goal, s') ->
  goal = Some g \/
  (exists g', goal = Some g' /\ go_id g' = go_id g /\ go_revision g' = go_revision g + 1) \/
  (goal = None \/ exists g', goal = Some g' /\ go_id g' <> go_id g) /\
  match action with SetGoalAction _ _ _ _ | ClearGoalAction => True | _ => False end \/
  go_state g = CompletedGoal /\ exists g' digest, goal = Some g' /\ minted action = Some (go_id g') /\
    gs_ledger s' = set_generation (mkGeneration (go_id g') 1 ReadyGeneration None digest) (gs_ledger s).
Proof.
  unfold action_change, reported. intros H. destruct action; try (
    apply d_bind_ok in H as (g1 & s1 & Ht & H); apply d_ret_ok in H as [<- ->]; apply transition_ok in Ht;
    right; left; exists g1; destruct Ht as (Hid & Hrev & _);
    try destruct (actor_reports_turn _); done);
  try (apply d_bind_ok in H as (g1 & s1 & Ht & H); apply d_ret_ok in H as [<- ->];
       apply held_change_ok in Ht as (Hid & Hrev & _); right; left; by exists g1);
  try (apply d_bind_ok in H as (g1 & s1 & Ht & H); apply d_ret_ok in H as [<- ->];
       apply accept_order_ok in Ht as [(Hid & Hrev & _)|(Hs & <- & digest & Hl)];
       [right; left; by exists g1 | right; right; right; split; [done | by exists g1, digest]]).
  - destruct (bool_decide (go_id g = goal_id)) eqn:Hb; bools.
    + apply d_bind_ok in H as (? & ? & _ & H). apply d_ret_ok in H as [<- ->]. by left.
    + apply d_bind_ok in H as (? & ? & _ & H). apply d_bind_ok in H as (g1 & ? & Hc & H).
      apply d_ret_ok in H as [<- ->]. right. right. left. split; [|done]. right. exists g1. split; [done|].
      apply set_create_ok in Hc as [-> _]. congruence.
  - apply d_bind_ok in H as (? & ? & _ & H). apply d_ret_ok in H as [<- ->]. right. right. auto.
  - repeat match type of H with mbind _ _ _ = _ => apply d_bind_ok in H as (? & ? & ? & H) end.
    apply d_ret_ok in H as [<- ->]. right. left. eexists. split; [done|].
    match goal with H : d_lift (goal_post_init _) _ = _ |- _ =>
      apply d_lift_ok in H as [[-> _]%goal_post_init_ok ->] end. done.
Qed.

(** ** Every action moves the ledger by its steps *)

Definition d_steps {A : Type} (m : D A) : Prop := forall s r s',
  core_wf (core (gs_ledger s)) -> m s = (r, s') -> rtc goal_step (core (gs_ledger s)) (core (gs_ledger s')).

Lemma rtc_goal_step_wf c c1 : rtc goal_step c c1 -> core_wf c -> core_wf c1.
Proof. induction 1; [done|]. intros. eauto using goal_step_wf. Qed.

Lemma d_steps_bind {A B : Type} (m : D A) (f : A -> D B) :
  d_steps m -> (forall a, d_steps (f a)) -> d_steps (m ≫= f).
Proof.
  intros Hm Hf s r s' Hwf. unfold mbind, D_bind. destruct (m s) as [[a|e] s1] eqn:E.
  - intros Hs. pose proof (Hm s _ s1 Hwf E) as H1. etrans; [exact H1|].
    eapply Hf; [by eapply rtc_goal_step_wf | exact Hs].
  - intros [= _ <-]. by eapply Hm.
Qed.

Lemma d_steps_lift {A : Type} (o : outcome A) : d_steps (d_lift o).
Proof. intros s r s' _ [= _ <-]. done. Qed.

Lemma d_steps_read {A : Type} (f : Ledger -> outcome A) : d_steps (d_read f).
Proof. intros s r s' _ [= _ <-]. done. Qed.

Lemma d_steps_ret {A : Type} (a : A) : d_steps (mret a).
Proof. intros s r s' _ [= _ <-]. done. Qed.

Lemma change_ledger {A : Type} (c : Change A) s r s' :
  change c s = (r, s') ->
  gs_ledger s' = gs_ledger s \/ exists a, ch_write c (gs_ledger s) = Ok (a, gs_ledger s').
Proof.
  unfold change. destruct (ch_write c (gs_ledger s)) as [[a l]|e]; [|by intros [= _ <-]; left].
  destruct (attested _); intros [= _ <-]; right; by exists a.
Qed.

Lemma d_steps_change {A : Type} (request : Ledger -> outcome (option (Change A))) :
  (forall l c, request l = Ok (Some c) -> steps c) -> d_steps (d_change request).
Proof.
  intros Hreq s r s' Hwf. unfold d_change. destruct (request (gs_ledger s)) as [[c|]|e] eqn:E;
    [|by intros [= _ <-]..].
  destruct (change c s) as [v s1] eqn:Hc. intros Hs.
  assert (s' = s1) as -> by (by destruct v; injection Hs).
  destruct (change_ledger _ _ _ _ Hc) as [->|[a Hw]]; [done|].
  destruct (Hreq _ _ E _ _ _ Hwf Hw) as [->|Hstep]; [done | by apply rtc_once].
Qed.

Lemma always_change_ok {A : Type} (o : outcome (Change A)) c : always_change o = Ok (Some c) -> o = Ok c.
Proof. unfold always_change. intros H. ok_inv. done. Qed.

Create HintDb goal_actions discriminated.
#[export] Hint Resolve d_steps_lift d_steps_read d_steps_ret : goal_actions.

Ltac d_steps :=
  repeat first
    [ progress intros
    | solve [auto with goal_actions]
    | apply d_steps_bind
    | match goal with |- d_steps (match ?x with _ => _ end) => destruct x end ].

Lemma require_transition_steps action cx g state : d_steps (require_transition action cx g state).
Proof.
  unfold require_transition. destruct action; auto with goal_actions.
  apply d_steps_change. intros l c H%always_change_ok. eauto with goals.
Qed.

Lemma continue_steps G d grant l c : continue_work G d grant l = Ok (Some c) -> steps c.
Proof. unfold continue_work. intros H. destruct (gn_lifecycle G); ok_inv; eauto with goals. Qed.

Lemma before_transition_steps action cx g : d_steps (before_transition action cx g).
Proof.
  unfold before_transition. destruct action; d_steps. apply d_steps_change. apply continue_steps.
Qed.
#[export] Hint Resolve require_transition_steps before_transition_steps : goal_actions.

Lemma transition_steps action progress cx g : d_steps (transition action progress cx g).
Proof. unfold transition. d_steps. Qed.

Lemma set_create_steps cx text order id grant : d_steps (set_create cx text order id grant).
Proof.
  unfold set_create. d_steps. apply d_steps_change. intros l c H%always_change_ok. eauto with goals.
Qed.
#[export] Hint Resolve transition_steps set_create_steps : goal_actions.

Lemma held_change_steps cx g : d_steps (held_change cx g).
Proof. unfold held_change. d_steps. Qed.

Lemma continue_goal_steps reissued order grant cx g : d_steps (continue_goal reissued order grant cx g).
Proof. unfold continue_goal. d_steps. apply d_steps_change. apply continue_steps. Qed.
#[export] Hint Resolve held_change_steps continue_goal_steps : goal_actions.

Lemma order_create_steps reissued id grant cx : d_steps (order_create reissued id grant cx).
Proof. unfold order_create. d_steps. Qed.
#[export] Hint Resolve order_create_steps : goal_actions.

Lemma accept_order_steps reissued order id grant cx g : d_steps (accept_order reissued order id grant cx g).
Proof. unfold accept_order. d_steps. Qed.
#[export] Hint Resolve accept_order_steps : goal_actions.

Lemma action_change_steps action cx g : d_steps (action_change action cx g).
Proof. unfold action_change. d_steps. Qed.

Lemma action_create_steps action cx : d_steps (action_create action cx).
Proof. unfold action_create. d_steps. Qed.

Lemma retire_request_ok g l c :
  (row ← generation_one (go_id g) l;
   Ok (match row with
       | Some generation =>
           if has_capability (gn_lifecycle generation) Settled then None
           else Some (retire_goal (go_id g) (gn_number generation) (gn_attempt generation))
       | None => None
       end)) = Ok (Some c) -> steps c.
Proof.
  intros H. apply bind_ok_inv in H as ([G|] & _ & H); [|discriminate].
  destruct (has_capability _ _); [discriminate|]. injection H as <-. apply retire_steps.
Qed.

Lemma before_publish_steps action previous : d_steps (before_publish action previous).
Proof.
  unfold before_publish, retire. d_steps; apply d_steps_change; apply retire_request_ok.
Qed.
#[export] Hint Resolve action_change_steps action_create_steps before_publish_steps : goal_actions.

Lemma apply_action_steps expect action cx desk r desk' :
  core_wf (core (gs_ledger (gd_store desk))) -> apply_action expect action cx desk = (r, desk') ->
  rtc goal_step (core (gs_ledger (gd_store desk))) (core (gs_ledger (gd_store desk'))).
Proof.
  intros Hwf. unfold apply_action. cbv zeta.
  match goal with |- (match ?body (gd_store desk) with _ => _ end) = _ -> _ =>
    assert (Hb : d_steps body) by d_steps; destruct (body (gd_store desk)) as [v s] eqn:E end.
  intros H. assert (gd_store desk' = s) as -> by (by destruct v; injection H as _ <-).
  by eapply Hb.
Qed.

(** ** Compare and set *)

(** An identity that an order mints is not the one it may replace. *)
Definition minted_fresh (action : GoalAction) (goal : option Goal) : Prop :=
  match minted action, goal with Some id, Some g => id <> go_id g | _, _ => True end.

Lemma captured_moves action cx g s goal s' :
  minted_fresh action (Some g) -> action_change action cx g s = (Ok goal, s') -> goal <> Some g ->
  captured goal <> captured (Some g).
Proof.
  intros Hf [->|[(g' & -> & Hid & Hrev)|[[[->|(g' & -> & Hid)] _]|(_ & g' & digest & -> & Hm & _)]]]%action_change_ok Hne;
    simpl; [done| |done| |].
  - intros [= _ H]. lia.
  - intros [= H _]. done.
  - unfold minted_fresh in Hf. rewrite Hm in Hf. by intros [= H _].
Qed.

Lemma checkpoint_stale c goal :
  c <> UnobservedGoalCheckpoint -> captured goal <> c -> checkpoint_matches c goal = false.
Proof. intros Hc Hne. destruct c; [done|..]; apply bool_decide_eq_false; intros H; by apply Hne. Qed.

(** C36: Two actions prepared from the same goal checkpoint cannot both take effect: after
    an action that changed the declared goal, every action that expects the earlier
    checkpoint is refused and changes nothing, in the registry or in the ledger.  An order
    that replaces a completed goal is taken to mint an identity other than that goal's. *)
Theorem goal_checkpoint_fences (expect expect2 : GoalPrecondition) (action action2 : GoalAction)
    (cx cx2 : ActionContext) (desk desk' : GoalDesk) (goal : option Goal) :
  minted_fresh action (gd_goal desk) ->
  apply_action expect action cx desk = (Ok goal, desk') -> goal <> gd_goal desk ->
  pc_checkpoint expect2 = captured (gd_goal desk) ->
  exists e, apply_action expect2 action2 cx2 desk' = (Err e, desk').
Proof.
  intros Hfresh (Hgoal & _ & _ & _ & s1 & Hch & _)%apply_action_ok Hne Hexp.
  assert (Hcap : captured goal <> captured (gd_goal desk)).
  { destruct (gd_goal desk) as [g|]; [by eapply captured_moves|].
    destruct goal; [done | by exfalso]. }
  destruct desk' as [goal' s']. simpl in Hgoal. subst goal'.
  assert (Hpre : precondition_check expect2 cx2 goal = Err (GoalRefused "the action was not applied")).
  { unfold precondition_check. rewrite Hexp, checkpoint_stale; [done | by destruct (gd_goal desk) | done]. }
  unfold apply_action. cbv zeta. unfold mbind at 1, D_bind at 1, d_lift at 1. simpl. rewrite Hpre. by eexists.
Qed.

(** ** Pauses *)

(** A teammate cannot act on a goal under a protected pause, whatever the action: it is
    refused and nothing changes. *)
Theorem teammate_respects_protected_pause (expect : GoalPrecondition) (action : GoalAction)
    (cx : ActionContext) (desk : GoalDesk) (g : Goal) :
  cx_actor cx = PeerInvocable -> gd_goal desk = Some g -> goal_protected (go_state g) = true ->
  exists e, apply_action expect action cx desk = (Err e, desk).
Proof.
  intros Hactor Hg Hp. destruct desk as [goal s]. simpl in Hg. subst goal. unfold apply_action. simpl.
  rewrite Hactor. unfold mbind at 1, D_bind at 1, d_lift at 1.
  destruct (precondition_check _ _ _); [|by eexists]. unfold mbind at 1, D_bind at 1, d_lift at 1.
  destruct (require _ _); [|by eexists]. unfold mbind at 1, D_bind at 1, d_lift at 1. simpl.
  destruct (go_state g) as [|p| | |]; try discriminate Hp. simpl in *.
  unfold pause_require_peer_change. unfold protects_pause in Hp.
  destruct (pause_instruction p); [by eexists | discriminate Hp].
Qed.

(** A transition by anyone but the owner never leaves a protected pause. *)
Lemma transition_protected action progress cx g s g' s' :
  transition action progress cx g s = (Ok g', s') -> goal_protected (go_state g) = true ->
  actor_is_owner (cx_actor cx) = false -> match action with RetryGoalAction _ _ _ => False | _ => True end -> False.
Proof.
  intros (_ & _ & _ & state & s1 & s2 & _ & _ & Hreq)%transition_ok Hp Hown Hact.
  destruct (go_state g) as [|p| | |] eqn:Hs; try discriminate Hp. simpl in Hp.
  destruct (check_transition_protected p state Hp) as [e He].
  unfold require_transition in Hreq. rewrite Hown, Hs, He in Hreq. by destruct action.
Qed.

(** Only the owner, or a retry the ledger authorises, ends a protected pause: after any
    other action by any other actor the same goal is still in the state it was paused in. *)
Theorem protected_pause_kept (expect : GoalPrecondition) (action : GoalAction) (cx : ActionContext)
    (desk desk' : GoalDesk) (g g' : Goal) :
  gd_goal desk = Some g -> goal_protected (go_state g) = true -> cx_actor cx <> OwnerInvocable ->
  match action with RetryGoalAction _ _ _ => False | _ => True end ->
  apply_action expect action cx desk = (Ok (Some g'), desk') -> go_id g' = go_id g ->
  go_state g' = go_state g.
Proof.
  intros Hg Hp Hactor Hact (_ & _ & _ & _ & s1 & Hch & _)%apply_action_ok Hid. rewrite Hg in Hch.
  assert (Hown : actor_is_owner (cx_actor cx) = false) by (by apply bool_decide_eq_false).
  unfold action_change in Hch. destruct action; try done;
    try (apply d_bind_ok in Hch as (g1 & ? & Ht & _); exfalso;
         refine (transition_protected _ _ _ _ _ _ _ Ht _ Hown _); [|done];
         unfold reported; by try destruct (actor_reports_turn _));
    try (apply d_bind_ok in Hch as (g1 & ? & Ht & H); apply d_ret_ok in H as [[= <-] _];
         by apply held_change_ok in Ht as (_ & _ & ?));
    try (apply d_bind_ok in Hch as (g1 & ? & Ht & H); apply d_ret_ok in H as [[= <-] _];
         apply accept_order_ok in Ht as [(_ & _ & Hopen)|(Hdone & _)];
           [congruence | rewrite Hdone in Hp; discriminate Hp]).
  - destruct (bool_decide (go_id g = goal_id)) eqn:Hb; bools.
    + apply d_bind_ok in Hch as (? & ? & _ & H). apply d_ret_ok in H as [[= <-] _]. done.
    + apply d_bind_ok in Hch as (? & ? & _ & H). apply d_bind_ok in H as (g1 & ? & Hc & H).
      apply d_ret_ok in H as [[= <-] _]. unfold set_create in Hc. d_inv.
      match goal with H : goal_post_init _ = _ |- _ => apply goal_post_init_ok in H as [-> _] end. by simpl in Hid.
  - repeat match type of Hch with mbind _ _ _ = _ => apply d_bind_ok in Hch as (? & ? & ? & Hch) end.
    apply d_ret_ok in Hch as [[= <-] _].
    match goal with H : d_lift (goal_post_init _) _ = _ |- _ =>
      apply d_lift_ok in H as [[-> _]%goal_post_init_ok _] end. done.
Qed.

(** ** Replacement *)

Lemma settled_is_closed (s : GenerationState) : has_capability s Settled = true -> is_closed s = true.
Proof. by destruct s. Qed.

Lemma retire_goal_closes g n id l a l' G :
  core_wf (core l) -> ch_write (retire_goal g n id) l = Ok (a, l') ->
  lg_generations l' !! g = Some G -> is_closed (gn_lifecycle G) = true.
Proof.
  intros Hwf Hw HG. simpl in Hw.
  apply tx_bind_ok in Hw as (row & l0 & [Hrow ->]%tx_read_ok & Hw). apply generation_one_ok in Hrow.
  apply tx_bind_ok in Hw as (current & l0 & [Hcur ->]%tx_lift_ok & Hw). apply of_option_ok in Hcur as ->.
  apply tx_bind_ok in Hw as (u & l0 & [_ ->]%tx_lift_ok & Hw).
  apply tx_bind_ok in Hw as (u' & l1 & _ & Hw).
  destruct (wf_generation _ Hwf _ _ Hrow) as [Hg _]. unfold generation_advance in Hw. rewrite Hg in Hw.
  destruct (lg_generations l1 !! g) eqn:E; ok_inv.
  simpl in HG. rewrite lookup_insert_eq in HG. by injection HG as <-.
Qed.

Lemma retire_closes g s s' G :
  core_wf (core (gs_ledger s)) -> retire g s = (Ok tt, s') ->
  lg_generations (gs_ledger s') !! go_id g = Some G -> is_closed (gn_lifecycle G) = true.
Proof.
  intros Hwf Hr HG. unfold retire, d_change in Hr.
  destruct (generation_one (go_id g) (gs_ledger s)) as [[current|]|e] eqn:E; simpl in Hr; [| |discriminate].
  - apply generation_one_ok in E. destruct (has_capability _ _) eqn:Hset.
    + injection Hr as <-. rewrite E in HG. injection HG as <-. by apply settled_is_closed.
    + destruct (change _ s) as [[v|e] s1] eqn:Hc; [|discriminate]. injection Hr as <-.
      unfold change in Hc. destruct (ch_write _ _) as [[a l]|e] eqn:Hw; [|discriminate].
      destruct (attested _); [|discriminate]. injection Hc as _ <-. by eapply retire_goal_closes.
  - apply generation_one_ok in E. injection Hr as <-. congruence.
Qed.

Lemma claim_needs_reserved r i c l a l' :
  claim_launch r i = Ok c -> ch_write c l = Ok (a, l') ->
  generation_at (core l) (rs_goal r) (rs_generation r) ReservedGeneration (Some (rs_attempt r)).
Proof.
  unfold claim_launch. intros H Hw. ok_inv. simpl in Hw.
  apply tx_bind_ok in Hw as (current & l0 & Hcur & _). by apply require_current_ok in Hcur as (_ & _ & _ & HG).
Qed.

