(* ===== verification/EnvelopeClaims.v ===== *)
(** * Resource claims carried by bus envelopes

    Models [envelope_claim_transitions.py]: a thread claims files for the input it works on
    and releases them, each time by a transition that a bus row carries.  A transition maps
    the table of current claims to the next one or is refused.  What the registry says about
    the owner of a claim is an argument.  The resolution of paths on the file system and the
    textual checks of the codec are left out. *)

From stdpp Require Import base gmap strings list.
From Stdlib Require Import ZArith Lia Ascii.
From S2P Require Import Prelude Contracts WakePolicy AttemptStates Rows.

(** ** Scopes: what an acquisition belongs to *)

(** The fields of [RecordedScope] *)
Record RecordedScope : Type := mkRecordedScope {
  sc_claimed_generation : Z;
  sc_operation : string;
  sc_turn : string;
}.

(** The fields of [WakeClaim] *)
Record WakeScope : Type := mkWakeScope {
  wk_root : string;
  wk_source_seq : Z;
  wk_source_message : string;
  wk_assignment : string;
  wk_revision : Z;
  wk_recipient : string;
  wk_execution : string;
  wk_participant_generation : Z;
  wk_ordinal : Z;
}.

Inductive ClaimScope : Type :=
| UnrecordedScope
| NativeClaim (recorded : RecordedScope) (input_id : string)
| WakeClaim (recorded : RecordedScope) (wake : WakeScope).

#[export] Instance RecordedScope_eq_dec : EqDecision RecordedScope.
Proof. solve_decision. Defined.
#[export] Instance WakeScope_eq_dec : EqDecision WakeScope.
Proof. solve_decision. Defined.
#[export] Instance ClaimScope_eq_dec : EqDecision ClaimScope.
Proof. solve_decision. Defined.

Definition recorded (s : ClaimScope) : option RecordedScope :=
  match s with UnrecordedScope => None | NativeClaim r _ | WakeClaim r _ => Some r end.

(** [ClaimScope.held_at] *)
Definition held_at (s : ClaimScope) (claimed_generation : Z) : bool :=
  match recorded s with
  | Some r => claimed_generation =? sc_claimed_generation r
  | None => false
  end.

(** [ClaimScope.operation_ids] *)
Definition scope_operations (s : ClaimScope) : list string :=
  match recorded s with Some r => [sc_operation r] | None => [] end.

(** [replace(scope, operation_id=operation)] *)
Definition with_operation (s : ClaimScope) (operation : string) : ClaimScope :=
  let set r := mkRecordedScope (sc_claimed_generation r) operation (sc_turn r) in
  match s with
  | UnrecordedScope => UnrecordedScope
  | NativeClaim r input => NativeClaim (set r) input
  | WakeClaim r wake => WakeClaim (set r) wake
  end.

(** [ClaimScope.reuses], of a recorded [other] *)
Definition reuses (s other : ClaimScope) : bool :=
  match recorded s, recorded other with
  | Some _, Some r => bool_decide (with_operation s (sc_operation r) = other)
  | _, _ => bool_decide (s = other)
  end.

(** [ClaimScope.belongs_to] *)
Definition belongs_to (s : ClaimScope) (a : AttemptRecord) : bool :=
  match s with
  | WakeClaim _ w => bool_decide (wk_execution w = at_execution a) && (wk_ordinal w =? at_ordinal a)
  | _ => false
  end.

(** [GenerationCounter.require_positive] *)
Definition require_positive (value : Z) : outcome unit :=
  refuse (value <? 1) (ValueError "live owner requires a positive generation").

(** [AssignmentBinding.__post_init__] of [WakeClaim.binding] *)
Definition binding_post_init (w : WakeScope) : outcome unit :=
  _ ← refuse (contains_colon (wk_execution w)) (ClaimTransitionError "Execution ID cannot contain a colon.");
  _ ← refuse (wk_source_seq w <=? 0) (ClaimTransitionError "Assignment source sequence must be positive.");
  refuse (wk_revision w <=? 0) (ClaimTransitionError "Assignment revision must be positive.").

Definition cohort_codec : string := "cohort-v1:".

Fixpoint remove_prefix (p s : string) : option string :=
  match p, s with
  | EmptyString, _ => Some s
  | String a p', String b s' => if Ascii.eqb a b then remove_prefix p' s' else None
  | String _ _, EmptyString => None
  end.

(** [AssignmentId.require_cohort] *)
Definition require_cohort (assignment : string) : bool :=
  match remove_prefix cohort_codec assignment with
  | Some digest => hex_spells 64 digest
  | None => false
  end.

(** [ClaimScope.__post_init__] *)
Definition scope_post_init (s : ClaimScope) : outcome unit :=
  match s with
  | UnrecordedScope => Ok tt
  | NativeClaim r _ => require_positive (sc_claimed_generation r)
  | WakeClaim r w =>
      _ ← require_positive (sc_claimed_generation r);
      _ ← require (is_ok (binding_post_init w)
                   && is_ok (require_positive (wk_participant_generation w))
                   && (0 <? wk_ordinal w))
          (ClaimTransitionError "Wake claim_scope version or revision is invalid.");
      require (require_cohort (wk_assignment w)) (ClaimTransitionError "Wake claim ID is invalid.")
  end.

(** ** Transitions *)

Record ClaimRelease : Type := mkClaimRelease { rl_resource : string; rl_generation : string }.

(** [WakeClaims], [UnscopedClaims] and [ReleasedClaims]; the side a row leaves empty is not
    repeated. *)
Inductive ClaimChange : Type :=
| WakeClaims (claims : list string) (generation : string) (resource_scope : ClaimScope)
| UnscopedClaims (claims : list string) (generation : string)
| ReleasedClaims (releases : list ClaimRelease).

Record ClaimTransition : Type := mkClaimTransition {
  ct_owner : string;
  ct_incarnation : string;
  ct_seq : Z;
  ct_message : string;
  ct_expired : list string;
  ct_change : ClaimChange;
}.

(** [ClaimOwner]: one resource of an acquisition *)
Record ClaimOwner : Type := mkClaimOwner {
  co_owner : string;
  co_incarnation : string;
  co_seq : Z;
  co_message : string;
  co_generation : string;
  co_scope : ClaimScope;
  co_resource : string;
}.

#[export] Instance ClaimRelease_eq_dec : EqDecision ClaimRelease.
Proof. solve_decision. Defined.
#[export] Instance ClaimChange_eq_dec : EqDecision ClaimChange.
Proof. solve_decision. Defined.
#[export] Instance ClaimTransition_eq_dec : EqDecision ClaimTransition.
Proof. solve_decision. Defined.
#[export] Instance ClaimOwner_eq_dec : EqDecision ClaimOwner.
Proof. solve_decision. Defined.

Definition max_resources : nat := 32.

(** [ClaimTransition.resources] *)
Definition resources (t : ClaimTransition) : list string :=
  match ct_change t with
  | WakeClaims claims _ _ | UnscopedClaims claims _ => claims
  | ReleasedClaims releases => map rl_resource releases
  end.

Definition claims (t : ClaimTransition) : list string :=
  match ct_change t with
  | WakeClaims claims _ _ | UnscopedClaims claims _ => claims
  | ReleasedClaims _ => []
  end.

Definition releases (t : ClaimTransition) : list ClaimRelease :=
  match ct_change t with ReleasedClaims releases => releases | _ => [] end.

(** [Acquisition.resource_scope] *)
Definition resource_scope (t : ClaimTransition) : ClaimScope :=
  match ct_change t with WakeClaims _ _ scope => scope | _ => UnrecordedScope end.

(** [ClaimTransition.operation_ids] *)
Definition operation_ids (t : ClaimTransition) : list string := scope_operations (resource_scope t).

(** [ClaimTransition.__post_init__], after that of the scope it was given *)
Definition transition_post_init (t : ClaimTransition) : outcome unit :=
  _ ← scope_post_init (resource_scope t);
  _ ← refuse (bool_decide (resources t = []) || (max_resources <? length (resources t))%nat)
      (ClaimTransitionError "Claim transitions need a bounded resource set.");
  require (bool_decide (NoDup (resources t)))
    (ClaimTransitionError "Duplicate or overlapping resources are not supported.").

Definition with_expired (t : ClaimTransition) (expired : list string) : ClaimTransition :=
  mkClaimTransition (ct_owner t) (ct_incarnation t) (ct_seq t) (ct_message t) expired (ct_change t).

(** [ClaimTransition.require_new_operation] *)
Definition require_new_operation (t : ClaimTransition) (is_used : string -> bool) : outcome unit :=
  each (fun o => refuse (is_used o) (IdentityConflict "Claim operation was already consumed")) (operation_ids t).

(** [claimed] *)
Definition claimed (t : ClaimTransition) (resource : string) : outcome ClaimOwner :=
  match ct_change t with
  | ReleasedClaims _ => Err (ClaimTransitionError "Release originals do not acquire resources.")
  | WakeClaims claims generation _ | UnscopedClaims claims generation =>
      _ ← require (bool_decide (resource ∈ claims))
          (ClaimTransitionError "Resource is not part of this acquisition.");
      Ok (mkClaimOwner (ct_owner t) (ct_incarnation t) (ct_seq t) (ct_message t) generation
            (resource_scope t) resource)
  end.

(** ** The table of claims *)

Record ClaimProjection : Type := mkClaimProjection {
  cp_last : Z;
  cp_claims : gmap string ClaimOwner;
}.

(** [ClaimProjection.__post_init__] *)
Definition projection (last_seq : Z) (owners : gmap string ClaimOwner) : outcome ClaimProjection :=
  _ ← refuse (last_seq <? 0) (MalformedRecord "ProjectionSequence is at least 0");
  _ ← require (bool_decide (map_Forall (fun key value => co_resource value = key /\ co_seq value <= last_seq) owners))
      (ClaimTransitionError "Previous projection is malformed.");
  Ok (mkClaimProjection last_seq owners).

(** What a registry cut answers about the owner of a claim: the claim generations of the
    active threads with a live process that this name and incarnation still select *)
Definition RegistryClaims : Type := string -> string -> list Z.

(** [ClaimOwner.live] *)
Definition owner_live (registry : RegistryClaims) (o : ClaimOwner) : bool :=
  existsb (held_at (co_scope o)) (registry (co_owner o) (co_incarnation o)).

(** [ClaimProjection.live_in] *)
Definition live_in (registry : RegistryClaims) (p : ClaimProjection) : outcome ClaimProjection :=
  projection (cp_last p) (filter (fun ko => owner_live registry ko.2 = true) (cp_claims p)).

(** [ClaimOwner.require_holder] *)
Definition require_holder (o : ClaimOwner) (owner incarnation : string) : outcome unit :=
  require (bool_decide ((co_owner o, co_incarnation o) = (owner, incarnation))) (ClaimConflict (co_owner o)).

(** [ClaimTransition.require_holders] *)
Definition require_holders (t : ClaimTransition) (previous : ClaimProjection) : outcome unit :=
  each (fun resource => match cp_claims previous !! resource with
                        | Some o => require_holder o (ct_owner t) (ct_incarnation t)
                        | None => Ok tt
                        end) (claims t).

(** The loop of [ClaimTransition.remaining] *)
Fixpoint release_all (t : ClaimTransition) (rs : list ClaimRelease) (remaining : gmap string ClaimOwner)
    : outcome (gmap string ClaimOwner) :=
  match rs with
  | [] => Ok remaining
  | r :: rest =>
      current ← of_option (remaining !! rl_resource r)
        (ClaimTransitionError "Cannot release a resource without a live claim.");
      _ ← require (bool_decide ((co_incarnation current, co_generation current)
                                = (ct_incarnation t, rl_generation r)))
          (ClaimTransitionError "Only the exact owner incarnation/generation may release.");
      release_all t rest (delete (rl_resource r) remaining)
  end.

(** [ClaimTransition.remaining] *)
Definition remaining (t : ClaimTransition) (previous : ClaimProjection) (rs : list ClaimRelease)
    : outcome (gmap string ClaimOwner) :=
  _ ← refuse (ct_seq t <=? cp_last previous) (ClaimTransitionError "Claim sequence must increase.");
  release_all t rs (filter (fun ko => ko.1 ∉ ct_expired t) (cp_claims previous)).

(** The loop of [Acquisition.project] *)
Fixpoint acquire_all (t : ClaimTransition) (rs : list string) (owners : gmap string ClaimOwner)
    : outcome (gmap string ClaimOwner) :=
  match rs with
  | [] => Ok owners
  | r :: rest => o ← claimed t r; acquire_all t rest (<[r := o]> owners)
  end.

(** [ClaimTransition.project] *)
Definition project (t : ClaimTransition) (previous : ClaimProjection) : outcome ClaimProjection :=
  kept ← remaining t previous (releases t);
  owners ← acquire_all t (claims t) kept;
  projection (ct_seq t) owners.

(** [ClaimTransition.apply] *)
Definition apply_transition (t : ClaimTransition) (previous : ClaimProjection) (registry : RegistryClaims)
    : outcome ClaimProjection :=
  live ← live_in registry previous;
  _ ← require_holders t live;
  project (with_expired t []) live.
