(* ===== verification/ClaimBus.v ===== *)
(** * Resource claims on the bus

    Models how the bus stores and publishes claim transitions: the tables of [messages.py]
    that hold the original transitions, the resources they currently hold and the operations
    they consumed, with the append of one transition ([StoredHolders]) and the rebuild of the
    derived tables from history ([ReplayedHolders]); [Bus.prepare_claim] and
    [Bus.acquire_resource_claim] of [bus.py]; [ClaimWrites] of [publisher.py]; and the release
    of an attempt's resources ([coordination/snapshot.py]).  Validation of the message that
    carries a transition is an argument. *)

From stdpp Require Import base gmap strings list sorting.
From Stdlib Require Import ZArith Lia Ascii.
From S2P Require Import Prelude Contracts WakePolicy AttemptStates Rows EnvelopeClaims.

(** ** Tables *)

Record ClaimTables : Type := mkClaimTables {
  cb_last : Z;                              (* the last bus sequence *)
  cb_claimed : gmap Z ClaimTransition;      (* Claimed.table *)
  cb_held : gmap string Z;                  (* HeldResources *)
  cb_operations : gmap string Z;            (* ClaimOperations *)
}.

Definition empty_bus : ClaimTables := mkClaimTables 0 ∅ ∅ ∅.

(** INSERT of rows with a text primary key *)
Fixpoint insert_rows (table : string) (rows : list (string * Z)) (m : gmap string Z) : outcome (gmap string Z) :=
  match rows with
  | [] => Ok m
  | (k, v) :: rest =>
      _ ← refuse (bool_decide (is_Some (m !! k))) (SqlConstraint table);
      insert_rows table rest (<[k := v]> m)
  end.

(** A mapping in the order of its keys *)
Definition key_le {A : Type} (a b : string * A) : Prop := String.leb a.1 b.1 = true.
#[export] Instance key_le_dec {A : Type} : RelDecision (@key_le A).
Proof. intros a b. unfold key_le. apply _. Defined.

Definition items {A : Type} (m : gmap string A) : list (string * A) := merge_sort key_le (map_to_list m).

(** [ClaimOperations.used] *)
Definition operation_used (db : ClaimTables) (operation : string) : bool :=
  bool_decide (is_Some (cb_operations db !! operation)).

(** The greatest sequence of an original claim up to [through], or zero *)
Definition last_claim (rows : gmap Z ClaimTransition) (through : Z) : Z :=
  map_fold (fun seq _ greatest => if seq <=? through then Z.max seq greatest else greatest) 0 rows.

(** [transitions[row.claim_seq].claimed(row.resource)] *)
Definition holder (db : ClaimTables) (row : string * Z) : outcome (string * ClaimOwner) :=
  t ← of_option (cb_claimed db !! row.2) (KeyError row.1);
  o ← claimed t row.1;
  Ok (row.1, o).

(** [HeldResources._project] *)
Definition project_rows (db : ClaimTables) (current : gmap string Z) (through : Z) : outcome ClaimProjection :=
  owners ← mapM (holder db) (map_to_list current);
  projection (last_claim (cb_claimed db) through) (list_to_map owners).

(** [HeldResources.all_claims] *)
Definition all_claims (db : ClaimTables) : outcome ClaimProjection := project_rows db (cb_held db) (cb_last db).

(** [HeldResources.claims_for] *)
Definition claims_for (db : ClaimTables) (wanted : list string) (through : Z) : outcome ClaimProjection :=
  project_rows db (filter (fun kv => kv.1 ∈ wanted) (cb_held db)) through.

(** [HeldResources.owner_for] *)
Definition owner_for (db : ClaimTables) (resource : string) : outcome (option ClaimOwner) :=
  match cb_held db !! resource ≫= (fun seq => cb_claimed db !! seq) with
  | Some t => o ← claimed t resource; Ok (Some o)
  | None => Ok None
  end.

(** ** Projecting a transition *)

(** [HeldResources.project]: a committed transition that does not apply is an inconsistency *)
Definition consistent {A : Type} (o : outcome A) : outcome A :=
  match o with
  | Err (ClaimTransitionError _ | ClaimConflict _ | IdentityConflict _) =>
      Err (RelationViolationError "Committed claim transition is inconsistent.")
  | _ => o
  end.

Definition project_from (t : ClaimTransition) (used : string -> bool) (before : outcome ClaimProjection)
    : outcome ClaimProjection :=
  consistent (_ ← require_new_operation t used; previous ← before; project t previous).

Definition removed (t : ClaimTransition) : list string := resources t ++ ct_expired t.

Definition holder_row (o : ClaimOwner) : string * Z := (co_resource o, co_seq o).

Definition operation_rows (t : ClaimTransition) : list (string * Z) :=
  map (fun o => (o, ct_seq t)) (operation_ids t).

(** [ClaimHolders.apply] *)
Definition stored_apply (t : ClaimTransition) (projected : ClaimProjection) (db : ClaimTables)
    : outcome ClaimTables :=
  held ← insert_rows "held_resources" (map (fun ko => holder_row ko.2) (items (cp_claims projected)))
           (filter (fun kv => kv.1 ∉ removed t) (cb_held db));
  operations ← insert_rows "claim_operations" (operation_rows t) (cb_operations db);
  Ok (mkClaimTables (cb_last db) (cb_claimed db) held operations).

(** [ClaimHolders.project] of [StoredHolders] *)
Definition stored_project (t : ClaimTransition) (db : ClaimTables) : outcome ClaimTables :=
  projected ← project_from t (operation_used db) (claims_for db (resources t) (ct_seq t - 1));
  stored_apply t projected db.

(** [BusRecord.append_to], of a claim record *)
Definition append_claim (t : ClaimTransition) (db : ClaimTables) : outcome ClaimTables :=
  stored_project t
    (mkClaimTables (ct_seq t) (<[ct_seq t := t]> (cb_claimed db)) (cb_held db) (cb_operations db)).

(** ** Publishing *)

(** [Bus.prepare_claim] *)
Definition prepare_claim (db : ClaimTables) (t : ClaimTransition) (registry : RegistryClaims)
    : outcome ClaimTransition :=
  previous ← all_claims db;
  projected ← apply_transition t previous registry;
  _ ← require_new_operation t (operation_used db);
  Ok (with_expired t (List.filter (fun r => negb (bool_decide (is_Some (cp_claims projected !! r)))
                                            && negb (bool_decide (r ∈ resources t)))
                        (map fst (items (cp_claims previous))))).

(** What the publication of the carrying message answers: [_validate_publish_request], which
    gives the canonical sender, and [_prepare_message_unlocked] at a sequence, which gives the
    message's identity. *)
Record ClaimRequest : Type := mkClaimRequest {
  cr_validated : outcome string;
  cr_prepared : Z -> outcome string;
}.

(** [_claim_builder] and [Bus._insert], for a sender that was validated *)
Definition insert_claim (request : ClaimRequest) (sender incarnation : string) (change : ClaimChange)
    (registry : RegistryClaims) (db : ClaimTables) : outcome (Z * ClaimTables) :=
  let seq := cb_last db + 1 in
  message ← cr_prepared request seq;
  let t := mkClaimTransition sender incarnation seq message [] change in
  _ ← transition_post_init t;
  prepared ← prepare_claim db t registry;
  db' ← append_claim prepared db;
  Ok (seq, db').

(** The transaction of [Bus._publish], and the record it reads back *)
Definition publish_row {A : Type} (operation : outcome (Z * ClaimTables)) (read : ClaimTransition -> outcome A)
    (db : ClaimTables) : outcome A * ClaimTables :=
  match operation with
  | Err e => (Err e, db)
  | Ok (seq, db') =>
      (t ← of_option (cb_claimed db' !! seq) (RelationViolationError "Message has no claim transition"); read t, db')
  end.

(** [ClaimWrites._claim_result] *)
Definition claim_result {A : Type} (result : outcome A * ClaimTables) : outcome A * ClaimTables :=
  match result with
  | (Err (RelationViolationError _), db) =>
      (Err (ClaimEnvelopeUnknownError "Claim envelope outcome UNKNOWN; inspect durable bus; do not replay."), db)
  | _ => result
  end.

(** [ClaimWrites._publish_claim_transition_unlocked] *)
Definition publish_claim_transition (request : ClaimRequest) (incarnation : string) (change : ClaimChange)
    (registry : RegistryClaims) (db : ClaimTables) : outcome ClaimTransition * ClaimTables :=
  match cr_validated request with
  | Err e => (Err e, db)
  | Ok sender => claim_result (publish_row (insert_claim request sender incarnation change registry db) Ok db)
  end.

(** [ClaimOwner.acquire] and [UnclaimedResource.acquire] in [Bus.acquire_resource_claim] *)
Definition acquire_resource_claim (resource : string) (scope : ClaimScope) (registry : RegistryClaims)
    (insert : outcome (Z * ClaimTables)) (db : ClaimTables) : outcome ClaimOwner * ClaimTables :=
  publish_row
    (current ← owner_for db resource;
     match current with
     | Some o => if reuses (co_scope o) scope && owner_live registry o then Ok (co_seq o, db) else insert
     | None => insert
     end)
    (fun t => claimed t resource) db.

(** [ClaimWrites._publish_acquisition_unlocked], of a minted generation *)
Definition publish_acquisition (request : ClaimRequest) (incarnation resource generation : string)
    (scope : ClaimScope) (registry : RegistryClaims) (db : ClaimTables) : outcome ClaimOwner * ClaimTables :=
  match cr_validated request with
  | Err e => (Err e, db)
  | Ok sender =>
      claim_result (acquire_resource_claim resource scope registry
        (insert_claim request sender incarnation (WakeClaims [resource] generation scope) registry db) db)
  end.

(** ** Releasing *)

(** [itertools.groupby] on the incarnation *)
Fixpoint by_incarnation (owned : list ClaimOwner) : list (list ClaimOwner) :=
  match owned with
  | [] => []
  | c :: rest =>
      match by_incarnation rest with
      | (d :: same) :: others =>
          if bool_decide (co_incarnation c = co_incarnation d) then (c :: d :: same) :: others
          else [c] :: (d :: same) :: others
      | others => [c] :: others
      end
  end.

(** The slices of at most [max_resources] *)
Fixpoint slices (fuel : nat) (recorded : list ClaimOwner) : list (list ClaimOwner) :=
  match fuel, recorded with
  | S fuel, _ :: _ => take max_resources recorded :: slices fuel (drop max_resources recorded)
  | _, _ => []
  end.

Definition incarnation_le (a b : ClaimOwner) : Prop := String.leb (co_incarnation a) (co_incarnation b) = true.
#[export] Instance incarnation_le_dec : RelDecision incarnation_le.
Proof. intros a b. unfold incarnation_le. apply _. Defined.

(** The acquisitions still current *)
Fixpoint still_current (db : ClaimTables) (cs : list ClaimOwner) : outcome (list ClaimOwner) :=
  match cs with
  | [] => Ok []
  | c :: rest =>
      current ← owner_for db (co_resource c);
      others ← still_current db rest;
      Ok (if bool_decide (current = Some c) then c :: others else others)
  end.

Definition release_of (c : ClaimOwner) : ClaimRelease := mkClaimRelease (co_resource c) (co_generation c).

(** The envelopes of [ClaimWrites.release_resources]: an error keeps those already published. *)
Fixpoint publish_releases (request : string -> outcome ClaimRequest) (registry : RegistryClaims)
    (batches : list (list ClaimOwner)) (db : ClaimTables) : outcome unit * ClaimTables :=
  match batches with
  | [] => (Ok tt, db)
  | [] :: rest => publish_releases request registry rest db
  | (c :: cs) :: rest =>
      match request (co_owner c) with
      | Err e => (Err e, db)
      | Ok message =>
          match publish_claim_transition message (co_incarnation c)
                  (ReleasedClaims (map release_of (c :: cs))) registry db with
          | (Ok _, db') => publish_releases request registry rest db'
          | (Err e, db') => (Err e, db')
          end
      end
  end.

Definition release_batches (owned : list ClaimOwner) : list (list ClaimOwner) :=
  flat_map (fun group => slices (length group) group) (by_incarnation (merge_sort incarnation_le owned)).

(** [ClaimWrites.release_resources] *)
Definition release_resources (request : string -> outcome ClaimRequest) (registry : RegistryClaims)
    (cs : list ClaimOwner) (db : ClaimTables) : outcome unit * ClaimTables :=
  match still_current db cs with
  | Err e => (Err e, db)
  | Ok owned => publish_releases request registry (release_batches owned) db
  end.

(** [RecoverySnapshot.release_resources] *)
Definition release_attempt_resources (request : string -> outcome ClaimRequest) (registry : RegistryClaims)
    (attempt : AttemptRecord) (db : ClaimTables) : outcome unit * ClaimTables :=
  match (p ← all_claims db; live_in registry p) with
  | Err e => (Err e, db)
  | Ok current =>
      match List.filter (fun c => belongs_to (co_scope c) attempt) (map snd (items (cp_claims current))) with
      | [] => (Ok tt, db)
      | owned => release_resources request registry owned db
      end
  end.

(** ** Rebuilding from history *)

Record ReplayedHolders : Type := mkReplayedHolders {
  rp_last : Z;
  rp_owners : gmap string ClaimOwner;
  rp_operations : gset string;
  rp_rows : list (string * Z);
}.

Definition replay_start : ReplayedHolders := mkReplayedHolders 0 ∅ ∅ [].

(** [ReplayedHolders.before] *)
Definition replay_before (h : ReplayedHolders) (t : ClaimTransition) : outcome ClaimProjection :=
  projection (rp_last h) (filter (fun ko => ko.1 ∈ resources t) (rp_owners h)).

(** [ReplayedHolders.apply] and [advance] *)
Definition replay_apply (t : ClaimTransition) (projected : ClaimProjection) (h : ReplayedHolders)
    : ReplayedHolders :=
  mkReplayedHolders (cp_last projected)
    (cp_claims projected ∪ filter (fun ko => ko.1 ∉ removed t) (rp_owners h))
    (rp_operations h ∪ list_to_set (operation_ids t))
    (rp_rows h ++ operation_rows t).

(** [ClaimHolders.project] of [ReplayedHolders] *)
Definition replay_project (h : ReplayedHolders) (t : ClaimTransition) : outcome ReplayedHolders :=
  projected ← project_from t (fun o => bool_decide (o ∈ rp_operations h)) (replay_before h t);
  Ok (replay_apply t projected h).

Fixpoint replay (history : list ClaimTransition) (h : ReplayedHolders) : outcome ReplayedHolders :=
  match history with
  | [] => Ok h
  | t :: rest => h' ← replay_project h t; replay rest h'
  end.

Definition seq_le (a b : Z * ClaimTransition) : Prop := a.1 <= b.1.
#[export] Instance seq_le_dec : RelDecision seq_le.
Proof. intros a b. unfold seq_le. apply _. Defined.

(** [BusCapability.history], of the claim records *)
Definition history (rows : gmap Z ClaimTransition) : list ClaimTransition :=
  map snd (merge_sort seq_le (map_to_list rows)).

(** [BusProjectionTables.rebuild_rows] of both claim tables, with [ReplayedHolders.flush] *)
Definition rebuild (db : ClaimTables) : outcome ClaimTables :=
  h ← replay (history (cb_claimed db)) replay_start;
  held ← insert_rows "held_resources" (map (fun ko => holder_row ko.2) (items (rp_owners h))) ∅;
  operations ← insert_rows "claim_operations" (rp_rows h) ∅;
  Ok (mkClaimTables (cb_last db) (cb_claimed db) held operations).
