(* ===== verification/ClaimFacts.v ===== *)
(** * What resource claims guarantee

    A claim that is live is never taken from its owner, an operation is consumed once, the
    derived tables are exactly what a rebuild from history gives, and releasing acquisitions
    spares every other live one: for every sequence of publications, each under any registry. *)

From stdpp Require Import base gmap strings list sorting.
From Stdlib Require Import ZArith Lia Ascii.
From S2P Require Import Prelude Contracts WakePolicy AttemptStates Rows EnvelopeClaims ClaimBus.

(** ** Transitions *)

(** The holder an acquisition makes of one of its resources *)
Definition acquired (t : ClaimTransition) (r : string) : option ClaimOwner :=
  match ct_change t with
  | WakeClaims cs g _ | UnscopedClaims cs g =>
      if decide (r ∈ cs) then
        Some (mkClaimOwner (ct_owner t) (ct_incarnation t) (ct_seq t) (ct_message t) g (resource_scope t) r)
      else None
  | ReleasedClaims _ => None
  end.

Lemma claimed_acquired t r o : claimed t r = Ok o <-> acquired t r = Some o.
Proof.
  unfold claimed, acquired. destruct (ct_change t); simpl; [| |done];
    (case_decide as H; [rewrite bool_decide_eq_true_2 by done | rewrite bool_decide_eq_false_2 by done]; simpl; naive_solver).
Qed.

Lemma acquired_claims t r : is_Some (acquired t r) <-> r ∈ claims t.
Proof.
  unfold acquired, claims. destruct (ct_change t); [| |split; [by intros []|by intros ?%elem_of_nil]];
    case_decide; split; naive_solver.
Qed.

Lemma acquired_fields t r o :
  acquired t r = Some o ->
  co_resource o = r /\ co_seq o = ct_seq t /\ co_owner o = ct_owner t /\ co_incarnation o = ct_incarnation t /\
  co_scope o = resource_scope t.
Proof. unfold acquired. destruct (ct_change t); try case_decide; naive_solver. Qed.

Lemma acquired_with_expired t e : acquired (with_expired t e) = acquired t.
Proof. done. Qed.

Lemma projection_ok l m p : projection l m = Ok p -> p = mkClaimProjection l m.
Proof. unfold projection. intros. ok_inv. done. Qed.

Lemma release_all_ok t rs m m' :
  release_all t rs m = Ok m' ->
  (forall r, m' !! r = if decide (r ∈ map rl_resource rs) then None else m !! r) /\
  (forall x, x ∈ rs -> exists o, m !! rl_resource x = Some o /\ co_incarnation o = ct_incarnation t /\
     co_generation o = rl_generation x).
Proof.
  revert m. induction rs as [|x rs IH]; simpl; intros m H; ok_inv.
  - split; [done | by intros x ?%elem_of_nil].
  - bools. simplify_eq. apply IH in H as [Hm Hx]. split.
    + intros r. rewrite Hm. destruct (decide (r = rl_resource x)) as [->|Hne].
      * rewrite lookup_delete_eq. rewrite (decide_True _ _ (P := rl_resource x ∈ rl_resource x :: _)) by left.
        by case_decide.
      * rewrite lookup_delete_ne by done. apply decide_ext. rewrite elem_of_cons. tauto.
    + intros y [->|Hy]%elem_of_cons; [eauto|].
      destruct (Hx _ Hy) as (o & Ho & ? & ?). exists o. split; [|done].
      by apply lookup_delete_Some in Ho as [].
Qed.

Lemma acquire_all_ok t rs m m' :
  acquire_all t rs m = Ok m' -> forall r, m' !! r = if decide (r ∈ rs) then acquired t r else m !! r.
Proof.
  revert m. induction rs as [|x rs IH]; simpl; intros m H r; ok_inv; [done|].
  rewrite (IH _ H). apply claimed_acquired in H0.
  destruct (decide (r = x)) as [->|Hne].
  - rewrite lookup_insert_eq, (decide_True _ _ (P := x ∈ x :: _)) by left. by case_decide; rewrite ?H0.
  - rewrite lookup_insert_ne by done. apply decide_ext. rewrite elem_of_cons. tauto.
Qed.

(** What a projected transition leaves: its acquisitions, and of the previous holders those it
    neither names nor expires *)
Lemma project_ok t previous p :
  project t previous = Ok p ->
  cp_last p = ct_seq t /\ cp_last previous < ct_seq t /\
  (forall r, cp_claims p !! r =
     if decide (r ∈ claims t) then acquired t r
     else if decide (r ∈ removed t) then None else cp_claims previous !! r) /\
  (forall x, x ∈ releases t -> exists o, cp_claims previous !! rl_resource x = Some o /\
     co_incarnation o = ct_incarnation t /\ co_generation o = rl_generation x).
Proof.
  unfold project, remaining. intros H. ok_inv. bools. apply projection_ok in H as ->. simpl.
  apply release_all_ok in H0 as [Hm Hx]. pose proof (acquire_all_ok _ _ _ _ H1) as Ho.
  split; [done|]. split; [lia|]. split.
  - intros r. rewrite Ho. case_decide as Hc; [done|]. rewrite Hm.
    assert (Hres : r ∈ resources t <-> r ∈ map rl_resource (releases t)).
    { revert Hc. unfold resources, claims, releases. destruct (ct_change t); simpl; set_solver. }
    unfold removed. destruct (decide (r ∈ map rl_resource (releases t))) as [Hr|Hr].
    + rewrite decide_True; [done|]. rewrite elem_of_app. tauto.
    + destruct (decide (r ∈ ct_expired t)) as [He|He].
      * rewrite decide_True by (rewrite elem_of_app; tauto).
        apply map_lookup_filter_None. right. intros o _. simpl. tauto.
      * rewrite decide_False by (rewrite elem_of_app; tauto).
        destruct (cp_claims previous !! r) as [o|] eqn:E.
        -- by apply map_lookup_filter_Some.
        -- apply map_lookup_filter_None. by left.
  - intros y (o & Ho' & ?)%Hx. exists o. split; [|done]. by apply map_lookup_filter_Some in Ho' as [].
Qed.

(** ** Stored holders *)

(** The holder a row of [HeldResources] names *)
Definition resolve (db : ClaimTables) (r : string) (seq : Z) : option ClaimOwner :=
  cb_claimed db !! seq ≫= fun t => acquired t r.

Definition holders (db : ClaimTables) : gmap string ClaimOwner := map_imap (resolve db) (cb_held db).

Record bus_wf (db : ClaimTables) : Prop := {
  wf_last : 0 <= cb_last db;
  wf_rows : forall k t, cb_claimed db !! k = Some t -> ct_seq t = k /\ 0 < k <= cb_last db;
  wf_held : forall r k, cb_held db !! r = Some k -> is_Some (resolve db r k);
  wf_operations : forall o k,
    cb_operations db !! o = Some k <-> exists t, cb_claimed db !! k = Some t /\ o ∈ operation_ids t;
}.

Lemma holder_resolve db r k o : resolve db r k = Some o -> holder db (r, k) = Ok (r, o).
Proof.
  unfold resolve, holder. simpl. destruct (cb_claimed db !! k); simpl; [|done].
  intros ->%claimed_acquired. done.
Qed.

Lemma mapM_holder db rows :
  (forall r k, (r, k) ∈ rows -> is_Some (resolve db r k)) ->
  exists owners, mapM (holder db) rows = Ok owners /\ owners.*1 = rows.*1 /\
    forall r o, (r, o) ∈ owners <-> exists k, (r, k) ∈ rows /\ resolve db r k = Some o.
Proof.
  induction rows as [|[r k] rows IH]; intros H.
  - exists []. split_and!; [done..|]. intros r o. split; [by intros ?%elem_of_nil | by intros (? & ?%elem_of_nil & _)].
  - destruct IH as (owners & Hm & Hfst & Hin); [intros; apply H; by right|].
    destruct (H r k) as [o Ho]; [left|].
    exists ((r, o) :: owners). simpl. rewrite (holder_resolve _ _ _ _ Ho). simpl. rewrite Hm. simpl.
    split_and!; [done | by f_equal |]. intros r' o'. rewrite elem_of_cons, Hin. split.
    + intros [[= -> ->]|(k' & Hk & Hr)]; [exists k; split; [left | done] | exists k'; split; [by right | done]].
    + intros (k' & [[= -> ->]|Hk]%elem_of_cons & Hr); [left; congruence | right; eauto].
Qed.

Lemma project_rows_holders db current through :
  (forall r k, current !! r = Some k -> is_Some (resolve db r k)) ->
  project_rows db current through = projection (last_claim (cb_claimed db) through) (map_imap (resolve db) current).
Proof.
  intros H. unfold project_rows.
  destruct (mapM_holder db (map_to_list current)) as (owners & -> & Hfst & Hin).
  { intros r k ?%elem_of_map_to_list. eauto. }
  simpl. f_equal. apply map_eq. intros r. rewrite map_lookup_imap.
  apply option_eq. intros o. rewrite <- elem_of_list_to_map, Hin.
  - split.
    + by intros (k & ->%elem_of_map_to_list & Hr).
    + destruct (current !! r) as [k|] eqn:E; [|done]. simpl. intros Hr.
      exists k. by rewrite elem_of_map_to_list.
  - rewrite Hfst. apply NoDup_fst_map_to_list.
Qed.

Lemma imap_filter db (P : string -> Prop) `{!forall r, Decision (P r)} :
  map_imap (resolve db) (filter (fun kv : string * Z => P kv.1) (cb_held db))
  = filter (fun ko : string * ClaimOwner => P ko.1) (holders db).
Proof.
  apply map_eq. intros r. rewrite map_lookup_imap. apply option_eq. intros o.
  rewrite map_lookup_filter_Some. unfold holders. rewrite map_lookup_imap. simpl.
  destruct (decide (P r)) as [HP|HP].
  - replace (filter (fun kv : string * Z => P kv.1) (cb_held db) !! r) with (cb_held db !! r); [tauto|].
    symmetry. apply option_eq. intros k. rewrite map_lookup_filter_Some. simpl. tauto.
  - replace (filter (fun kv : string * Z => P kv.1) (cb_held db) !! r) with (@None Z); [simpl; split; [done | tauto]|].
    symmetry. apply map_lookup_filter_None. right. intros k _. done.
Qed.

Lemma claims_for_holders db wanted through :
  (forall r k, cb_held db !! r = Some k -> is_Some (resolve db r k)) ->
  claims_for db wanted through
  = projection (last_claim (cb_claimed db) through) (filter (fun ko => ko.1 ∈ wanted) (holders db)).
Proof.
  intros Hheld. unfold claims_for. rewrite project_rows_holders.
  - f_equal. exact (imap_filter db (fun r => r ∈ wanted)).
  - intros r k [Hk _]%map_lookup_filter_Some. by apply Hheld.
Qed.

Section wellformed.
Context (db : ClaimTables) (Hwf : bus_wf db).

Lemma all_claims_holders :
  all_claims db = projection (last_claim (cb_claimed db) (cb_last db)) (holders db).
Proof. apply project_rows_holders. apply Hwf. Qed.

Lemma owner_for_holders r : owner_for db r = Ok (holders db !! r).
Proof.
  unfold owner_for, holders. rewrite map_lookup_imap.
  destruct (cb_held db !! r) as [k|] eqn:E; simpl; [|done].
  destruct (wf_held _ Hwf _ _ E) as [o Ho]. rewrite Ho. unfold resolve in Ho.
  destruct (cb_claimed db !! k); simpl in *; [|done]. by apply claimed_acquired in Ho as ->.
Qed.

Lemma holder_fields r o :
  holders db !! r = Some o -> co_resource o = r /\ cb_held db !! r = Some (co_seq o) /\
    exists t, cb_claimed db !! co_seq o = Some t /\ acquired t r = Some o.
Proof.
  unfold holders. rewrite map_lookup_imap. destruct (cb_held db !! r) as [k|] eqn:E; simpl; [|done].
  unfold resolve. destruct (cb_claimed db !! k) as [t|] eqn:Et; simpl; [|done]. intros Ho.
  destruct (acquired_fields _ _ _ Ho) as (<- & Hseq & _). destruct (wf_rows _ Hwf _ _ Et) as [<- _].
  rewrite Hseq. eauto.
Qed.

Lemma held_holders : cb_held db = co_seq <$> holders db.
Proof.
  apply map_eq. intros r. rewrite lookup_fmap.
  destruct (holders db !! r) as [o|] eqn:E; simpl.
  - apply (holder_fields _ _ E).
  - unfold holders in E. rewrite map_lookup_imap in E. destruct (cb_held db !! r) as [k|] eqn:Ek; [|done].
    destruct (wf_held _ Hwf _ _ Ek) as [o Ho]. simpl in E. congruence.
Qed.
End wellformed.

(** * Runs of the claim tables *)

(** What one committed transition does to the stored tables and to a rebuild, and the
    invariant that every sequence of publications keeps: the derived tables name exactly the
    current holders and consumed operations, and a rebuild from history gives them back. *)

(** ** Rows *)

Lemma insert_rows_ok table rows m m' :
  insert_rows table rows m = Ok m' ->
  m' = list_to_map rows ∪ m /\ NoDup rows.*1 /\ Forall (fun k => m !! k = None) rows.*1.
Proof.
  revert m. induction rows as [|[k v] rows IH]; simpl; intros m H; ok_inv.
  - split_and!; [by rewrite (left_id_L ∅ (∪)) | constructor | constructor].
  - bools. apply IH in H as (-> & Hnd & Hm).
    assert (Hk : k ∉ rows.*1).
    { intros Hin. rewrite Forall_forall in Hm. specialize (Hm _ Hin). by rewrite lookup_insert_eq in Hm. }
    split_and!.
    + rewrite <- insert_union_r, insert_union_l; [done|]. by apply not_elem_of_list_to_map_1.
    + by constructor.
    + constructor; [by apply eq_None_not_Some|]. rewrite Forall_forall in Hm |- *. intros j Hj.
      specialize (Hm _ Hj). rewrite lookup_insert_ne in Hm; [done | by intros ->].
Qed.

Lemma insert_rows_fresh table rows m :
  NoDup rows.*1 -> Forall (fun k => m !! k = None) rows.*1 ->
  insert_rows table rows m = Ok (list_to_map rows ∪ m).
Proof.
  revert m. induction rows as [|[k v] rows IH]; simpl; intros m Hnd Hm.
  - by rewrite (left_id_L ∅ (∪)).
  - apply NoDup_cons in Hnd as [Hk Hnd]. apply Forall_cons in Hm as [Hm Hrest].
    rewrite bool_decide_eq_false_2 by by rewrite Hm; apply is_Some_None. simpl. rewrite IH; [|done|].
    + rewrite <- insert_union_r, insert_union_l; [done|]. by apply not_elem_of_list_to_map_1.
    + rewrite Forall_forall in Hrest |- *. intros j Hj. rewrite lookup_insert_ne; [by apply Hrest | by intros ->].
Qed.

(** Inserting row by row is inserting all *)
Lemma insert_rows_app table xs ys m m1 :
  insert_rows table xs m = Ok m1 -> insert_rows table (xs ++ ys) m = insert_rows table ys m1.
Proof.
  revert m. induction xs as [|[k v] xs IH]; simpl; intros m H; ok_inv; [done|].
  rewrite H0. simpl. by apply IH.
Qed.

Lemma items_perm {A : Type} (m : gmap string A) : items m ≡ₚ map_to_list m.
Proof. apply merge_sort_Permutation. Qed.

Definition keyed (owners : gmap string ClaimOwner) : Prop := map_Forall (fun r o => co_resource o = r) owners.

Definition holder_rows (owners : gmap string ClaimOwner) : list (string * Z) :=
  map (fun ko => holder_row ko.2) (items owners).

Lemma holder_rows_spec owners :
  keyed owners ->
  (holder_rows owners).*1 ≡ₚ (map_to_list owners).*1 /\
  list_to_map (holder_rows owners) = co_seq <$> owners.
Proof.
  intros Hk. assert (Hrows : holder_rows owners ≡ₚ map_to_list (co_seq <$> owners)).
  { unfold holder_rows. rewrite items_perm, map_to_list_fmap. apply reflexive_eq, list_fmap_ext.
    intros i [r o] Ho%list_elem_of_lookup_2%elem_of_map_to_list. unfold holder_row. simpl. by rewrite (Hk _ _ Ho). }
  split.
  - rewrite Hrows, map_to_list_fmap, <- list_fmap_compose. apply reflexive_eq, list_fmap_ext. by intros ? [].
  - rewrite <- (list_to_map_to_list (co_seq <$> owners)). apply list_to_map_proper; [|done].
    rewrite Hrows. apply NoDup_fst_map_to_list.
Qed.

(** ** History *)

Lemma last_claim_insert rows k t through :
  rows !! k = None ->
  last_claim (<[k := t]> rows) through
  = if k <=? through then Z.max k (last_claim rows through) else last_claim rows through.
Proof.
  intros Hk. unfold last_claim. rewrite map_fold_insert_L; [done| |done].
  intros j1 j2 _ _ y _ _ _. destruct (j1 <=? through), (j2 <=? through); lia.
Qed.

Lemma last_claim_range rows through : 0 <= last_claim rows through <= Z.max 0 through.
Proof.
  induction rows as [|k t rows Hk IH] using map_ind.
  - unfold last_claim. rewrite map_fold_empty. lia.
  - rewrite last_claim_insert by done. destruct (k <=? through) eqn:E; bools; lia.
Qed.

(** Rows after the last claim do not change it *)
Lemma last_claim_beyond rows a b :
  map_Forall (fun k _ => k <= a /\ k <= b) rows -> last_claim rows a = last_claim rows b.
Proof.
  induction rows as [|k t rows Hk IH] using map_ind; intros H.
  - unfold last_claim. by rewrite !map_fold_empty.
  - apply map_Forall_insert in H as [[Ha Hb] H]; [|done]. rewrite !last_claim_insert by done.
    rewrite (proj2 (Z.leb_le k a)), (proj2 (Z.leb_le k b)) by done. by rewrite IH.
Qed.

#[export] Instance seq_le_total : Total seq_le.
Proof. intros [a t] [b u]. unfold seq_le. simpl. lia. Qed.
#[export] Instance seq_le_trans : Transitive seq_le.
Proof. intros [a t] [b u] [c v]. unfold seq_le. simpl. lia. Qed.

(** Two orders of the same rows with distinct keys agree *)
Lemma sorted_rows_unique (xs ys : list (Z * ClaimTransition)) :
  NoDup xs.*1 -> StronglySorted seq_le xs -> StronglySorted seq_le ys -> xs ≡ₚ ys -> xs = ys.
Proof.
  revert ys. induction xs as [|x xs IH]; intros ys Hnd Hxs Hys Hp.
  - symmetry. by apply Permutation_nil_l in Hp.
  - destruct ys as [|y ys]; [by apply Permutation_nil_r in Hp|].
    apply StronglySorted_inv in Hxs as [Hxs Hx]. apply StronglySorted_inv in Hys as [Hys Hy].
    rewrite Forall_forall in Hx, Hy. simpl in Hnd. apply NoDup_cons in Hnd as [Hfresh Hnd].
    assert (x = y) as <-.
    { assert (Hyx : y ∈ x :: xs) by (rewrite Hp; left).
      assert (Hxy : x ∈ y :: ys) by (rewrite <- Hp; left).
      apply elem_of_cons in Hyx as [->|Hyx]; [done|]. apply elem_of_cons in Hxy as [->|Hxy]; [done|].
      specialize (Hx _ Hyx). specialize (Hy _ Hxy). unfold seq_le in *.
      exfalso. apply Hfresh. replace x.1 with y.1 by lia. by apply list_elem_of_fmap_2. }
    f_equal. apply IH; [done..|]. by apply Permutation_cons_inv in Hp.
Qed.

Lemma StronglySorted_snoc {A : Type} (R : relation A) xs x :
  StronglySorted R xs -> Forall (fun y => R y x) xs -> StronglySorted R (xs ++ [x]).
Proof.
  induction xs as [|y xs IH]; simpl; intros Hs Hf; [repeat constructor|].
  apply StronglySorted_inv in Hs as [Hs Hy]. apply Forall_cons in Hf as [Hyx Hf].
  constructor; [by apply IH|]. apply Forall_app. split; [done | by constructor].
Qed.

(** A row after every other is the last of the history *)
Lemma history_insert rows k t :
  map_Forall (fun j _ => j < k) rows -> history (<[k := t]> rows) = history rows ++ [t].
Proof.
  intros Hlt. unfold history. rewrite <- (map_app snd _ [(k, t)]). f_equal.
  assert (Hk : rows !! k = None).
  { destruct (rows !! k) eqn:E; [|done]. specialize (Hlt _ _ E). simpl in Hlt. lia. }
  apply sorted_rows_unique.
  - rewrite merge_sort_Permutation. apply NoDup_fst_map_to_list.
  - apply StronglySorted_merge_sort; apply _.
  - apply StronglySorted_snoc; [apply StronglySorted_merge_sort; apply _|].
    rewrite merge_sort_Permutation. apply Forall_forall. intros [j u] Hj%elem_of_map_to_list.
    specialize (Hlt _ _ Hj). unfold seq_le. simpl in *. lia.
  - rewrite !merge_sort_Permutation, map_to_list_insert by done. by rewrite Permutation_app_comm.
Qed.

Lemma replay_app xs ys h : replay (xs ++ ys) h = (h' ← replay xs h; replay ys h').
Proof.
  revert h. induction xs as [|x xs IH]; simpl; intros h; [done|].
  destruct (replay_project h x); simpl; [apply IH | done].
Qed.

(** ** One committed transition *)

Lemma consistent_ok {A : Type} (o : outcome A) a : consistent o = Ok a -> o = Ok a.
Proof. destruct o as [|[]]; simpl; congruence. Qed.

Lemma project_from_ok t used before p :
  project_from t used before = Ok p ->
  Forall (fun o => used o = false) (operation_ids t) /\ exists previous, before = Ok previous /\ project t previous = Ok p.
Proof.
  unfold project_from. intros H%consistent_ok. unfold require_new_operation in H. ok_inv. split; [|eauto].
  eapply Forall_impl; [eassumption|]. intros o Ho. simpl in Ho. by apply refuse_ok in Ho.
Qed.

(** The holders an append starts from are those of the resources it names *)
Definition named_holders (t : ClaimTransition) (owners : gmap string ClaimOwner) : gmap string ClaimOwner :=
  filter (fun ko => ko.1 ∈ resources t) owners.

Lemma claims_resources t r : r ∈ claims t -> r ∈ resources t.
Proof. unfold claims, resources. destruct (ct_change t); [done..|]. by intros ?%elem_of_nil. Qed.

Lemma project_named t owners last p :
  project t (mkClaimProjection last (named_holders t owners)) = Ok p ->
  forall r, cp_claims p !! r = acquired t r.
Proof.
  intros (_ & _ & Hp & _)%project_ok r. rewrite Hp. case_decide as Hc; [done|].
  assert (acquired t r = None) as ->. { apply eq_None_not_Some. by rewrite acquired_claims. }
  case_decide as Hr; [done|]. apply map_lookup_filter_None. right. intros o _ Hin. simpl in Hin.
  apply Hr. unfold removed. rewrite elem_of_app. by left.
Qed.

(** What the next table holds *)
Definition next_holders (t : ClaimTransition) (p : ClaimProjection) (owners : gmap string ClaimOwner)
    : gmap string ClaimOwner :=
  cp_claims p ∪ filter (fun ko => ko.1 ∉ removed t) owners.

Lemma next_holders_lookup t p owners :
  (forall r, cp_claims p !! r = acquired t r) ->
  forall r, next_holders t p owners !! r =
    if decide (r ∈ claims t) then acquired t r else if decide (r ∈ removed t) then None else owners !! r.
Proof.
  intros Hp r. unfold next_holders. case_decide as Hc.
  - apply acquired_claims in Hc as [o Ho]. rewrite Ho. apply lookup_union_Some_l. by rewrite Hp.
  - rewrite lookup_union_r by (rewrite Hp; apply eq_None_not_Some; by rewrite acquired_claims).
    case_decide as Hr.
    + apply map_lookup_filter_None. right. intros o _ H. by apply H.
    + apply option_eq. intros o. rewrite map_lookup_filter_Some. simpl. tauto.
Qed.

Section append.
Context (db : ClaimTables) (Hwf : bus_wf db) (t : ClaimTransition) (Hseq : ct_seq t = cb_last db + 1).

Definition added : ClaimTables :=
  mkClaimTables (ct_seq t) (<[ct_seq t := t]> (cb_claimed db)) (cb_held db) (cb_operations db).

Lemma resolve_added r k : cb_held db !! r = Some k -> resolve added r k = resolve db r k.
Proof.
  intros Hk. destruct (wf_held _ Hwf _ _ Hk) as [o Ho]. unfold resolve in *. simpl.
  destruct (cb_claimed db !! k) as [u|] eqn:E; [|done].
  destruct (wf_rows _ Hwf _ _ E). rewrite lookup_insert_ne by lia. by rewrite E.
Qed.

Lemma holders_added : holders added = holders db.
Proof.
  apply map_eq. intros r. unfold holders. simpl. rewrite !map_lookup_imap.
  destruct (cb_held db !! r) eqn:E; [|done]. simpl. by apply resolve_added.
Qed.

Lemma rows_before : map_Forall (fun k _ => k < ct_seq t) (cb_claimed db).
Proof. intros k u Hk. destruct (wf_rows _ Hwf _ _ Hk). lia. Qed.

Lemma claims_for_added :
  claims_for added (resources t) (ct_seq t - 1)
  = projection (last_claim (cb_claimed db) (cb_last db)) (named_holders t (holders db)).
Proof.
  rewrite claims_for_holders.
  - rewrite holders_added. simpl. rewrite last_claim_insert.
    + rewrite (proj2 (Z.leb_gt (ct_seq t) (ct_seq t - 1))) by lia.
      by replace (ct_seq t - 1) with (cb_last db) by lia.
    + destruct (cb_claimed db !! ct_seq t) as [u|] eqn:E; [|done]. destruct (wf_rows _ Hwf _ _ E). lia.
  - intros r k Hk. rewrite resolve_added by done. by apply Hwf.
Qed.

Context (db' : ClaimTables) (Happend : append_claim t db = Ok db').

(** An append as one step of the holders, the operations and the history *)
Lemma append_ok :
  exists p,
    project_from t (operation_used db)
      (projection (last_claim (cb_claimed db) (cb_last db)) (named_holders t (holders db))) = Ok p /\
    (forall r, cp_claims p !! r = acquired t r) /\
    cb_last db' = ct_seq t /\ cb_claimed db' = <[ct_seq t := t]> (cb_claimed db) /\
    cb_held db' = co_seq <$> next_holders t p (holders db) /\
    insert_rows "claim_operations" (operation_rows t) (cb_operations db) = Ok (cb_operations db').
Proof.
  unfold append_claim, stored_project in Happend. fold added in Happend. rewrite claims_for_added in Happend.
  change (operation_used added) with (operation_used db) in Happend.
  apply bind_ok_inv in Happend as (p & Hp & Ha). exists p. split; [done|].
  destruct (project_from_ok _ _ _ _ Hp) as (_ & previous & ->%projection_ok & Hproj).
  assert (Hacq := project_named _ _ _ _ Hproj). split; [done|].
  unfold stored_apply in Ha. ok_inv. simpl. split_and!; [done..| |done].
  apply insert_rows_ok in H as (-> & _ & _). fold (holder_rows (cp_claims p)).
  rewrite (proj2 (holder_rows_spec (cp_claims p) ltac:(intros r o; rewrite Hacq; apply acquired_fields))).
  unfold next_holders. rewrite map_fmap_union. f_equal.
  change (cb_held added) with (cb_held db). rewrite (held_holders _ Hwf).
  apply map_eq. intros r. rewrite lookup_fmap.
  apply option_eq. intros k. rewrite map_lookup_filter_Some, fmap_Some. simpl.
  rewrite lookup_fmap, fmap_Some. setoid_rewrite map_lookup_filter_Some. simpl. split.
  - intros [(o & Ho & ->) Hr]. eauto.
  - intros (o & [Ho Hr] & ->). eauto.
Qed.

Lemma operation_rows_elem o k : (o, k) ∈ operation_rows t <-> o ∈ operation_ids t /\ k = ct_seq t.
Proof.
  unfold operation_rows. rewrite list_elem_of_fmap. split; [intros (? & [= -> ->] & ?); done|].
  intros [Ho ->]. by exists o.
Qed.

Lemma append_operations o k :
  cb_operations db' !! o = Some k <-> (o ∈ operation_ids t /\ k = ct_seq t) \/ cb_operations db !! o = Some k.
Proof.
  destruct append_ok as (p & _ & _ & _ & _ & _ & (-> & Hnd & Hfresh)%insert_rows_ok).
  rewrite lookup_union_Some.
  - rewrite <- elem_of_list_to_map by done. by rewrite operation_rows_elem.
  - apply map_disjoint_spec. intros i x y Hx Hy. rewrite Forall_forall in Hfresh.
    apply elem_of_list_to_map_2 in Hx. rewrite Hfresh in Hy; [done|]. by apply (list_elem_of_fmap_2 fst _ (i, x)).
Qed.

(** An append keeps the tables well formed and moves their holders *)
Lemma append_wf :
  bus_wf db' /\
  exists p, (forall r, cp_claims p !! r = acquired t r) /\ holders db' = next_holders t p (holders db).
Proof.
  pose proof append_operations as Hops.
  destruct append_ok as (p & _ & Hacq & Hlast & Hrows & Hheld & _).
  assert (Hres : forall r o, next_holders t p (holders db) !! r = Some o -> resolve db' r (co_seq o) = Some o).
  { intros r o. rewrite (next_holders_lookup _ _ _ Hacq). unfold resolve. rewrite Hrows. case_decide.
    - intros Ho. destruct (acquired_fields _ _ _ Ho) as (_ & -> & _). by rewrite lookup_insert_eq.
    - case_decide; [done|]. intros (_ & _ & u & Hu & Ho)%(holder_fields _ Hwf).
      destruct (wf_rows _ Hwf _ _ Hu). rewrite lookup_insert_ne by lia. by rewrite Hu. }
  split; [|exists p; split; [done|]].
  - split.
    + pose proof (wf_last _ Hwf). lia.
    + rewrite Hrows, Hlast. intros k u Hk. apply lookup_insert_Some in Hk as [[<- <-]|[_ Hk]].
      * pose proof (wf_last _ Hwf). lia.
      * destruct (wf_rows _ Hwf _ _ Hk). lia.
    + rewrite Hheld. intros r k. rewrite lookup_fmap, fmap_Some. intros (o & Ho & ->). eauto.
    + intros o k. rewrite Hops, Hrows, (wf_operations _ Hwf). split.
      * intros [[Ho ->]|(u & Hu & Ho)]; [exists t; by rewrite lookup_insert_eq|].
        exists u. destruct (wf_rows _ Hwf _ _ Hu). rewrite lookup_insert_ne by lia. done.
      * intros (u & [[<- <-]|[_ Hu]]%lookup_insert_Some & Ho); eauto.
  - apply map_eq. intros r. unfold holders at 1. rewrite map_lookup_imap, Hheld, lookup_fmap.
    destruct (next_holders t p (holders db) !! r) as [o|] eqn:E; simpl; [by apply Hres | done].
Qed.

(** ** Rebuilding *)

(** A replay of the history that carries what the tables store *)
Definition replayed (d : ClaimTables) (h : ReplayedHolders) : Prop :=
  replay (history (cb_claimed d)) replay_start = Ok h /\
  rp_last h = last_claim (cb_claimed d) (cb_last d) /\
  rp_owners h = holders d /\ rp_operations h = dom (cb_operations d) /\
  insert_rows "claim_operations" (rp_rows h) ∅ = Ok (cb_operations d).

Lemma append_replayed h : replayed db h -> exists h', replayed db' h'.
Proof.
  intros (Hreplay & Hlast & Howners & Hdom & Hins).
  destruct append_ok as (p & Hp & Hacq & Hlast' & Hrows & _ & Hops).
  destruct append_wf as (_ & p' & Hacq' & Hholders).
  assert (p = mkClaimProjection (cp_last p) (cp_claims p')) as Hpp.
  { destruct p as [l m]. simpl in *. f_equal. apply map_eq. intros r. by rewrite Hacq, Hacq'. }
  destruct (project_from_ok _ _ _ _ Hp) as (_ & previous & _ & (Hcp & _)%project_ok).
  exists (replay_apply t p h). split_and!.
  - rewrite Hrows, history_insert by apply rows_before. rewrite replay_app, Hreplay. simpl.
    unfold replay_project, replay_before. rewrite Hlast, Howners. fold (named_holders t (holders db)).
    replace (project_from t (fun o => bool_decide (o ∈ rp_operations h)) _) with (Ok (E := Error) p); [done|].
    rewrite <- Hp. unfold project_from, require_new_operation. do 2 f_equal.
    induction (operation_ids t) as [|o os IH]; simpl; [done|]. rewrite IH. do 2 f_equal.
    unfold operation_used. apply bool_decide_ext. by rewrite Hdom, elem_of_dom.
  - simpl. rewrite Hcp, Hlast', Hrows, last_claim_insert, Z.leb_refl.
    + pose proof (last_claim_range (cb_claimed db) (ct_seq t)). pose proof (wf_last _ Hwf). lia.
    + destruct (cb_claimed db !! ct_seq t) as [u|] eqn:E; [|done]. destruct (wf_rows _ Hwf _ _ E). lia.
  - simpl. rewrite Hholders, Howners. unfold next_holders. by rewrite Hpp.
  - simpl. rewrite Hdom. apply set_eq. intros o. rewrite elem_of_union, elem_of_list_to_set, !elem_of_dom.
    unfold is_Some. setoid_rewrite append_operations. split.
    + intros [[k Hk]|Ho]; eauto.
    + intros (k & [[Ho _]|Hk]); eauto.
  - simpl. by rewrite (insert_rows_app _ _ _ _ _ Hins).
Qed.
End append.

Lemma replayed_rebuild db h : bus_wf db -> replayed db h -> rebuild db = Ok db.
Proof.
  intros Hwf (Hreplay & _ & Howners & _ & Hins). unfold rebuild. rewrite Hreplay. simpl. rewrite Howners.
  fold (holder_rows (holders db)).
  assert (Hk : keyed (holders db)). { intros r o Ho. by apply (holder_fields _ Hwf) in Ho as []. }
  destruct (holder_rows_spec _ Hk) as [Hfst Hmap]. rewrite (insert_rows_fresh _ (holder_rows (holders db))).
  - simpl. rewrite Hins. simpl. rewrite Hmap, (right_id_L ∅ (∪)), <- (held_holders _ Hwf). by destruct db.
  - rewrite Hfst. apply NoDup_fst_map_to_list.
  - apply Forall_forall. intros k _. apply lookup_empty.
Qed.
