(* ===== verification/ClaimGuarantees.v ===== *)
(** * Guarantees of resource claims

    The theorems on resource claims, for every sequence of publications by any senders, each
    under the registry of its moment: a live claim is never taken from its owner, a claim is
    decided by the current holder alone, an operation is consumed once, the derived tables
    are what a rebuild gives, and a release spares every other live claim. *)

From stdpp Require Import base gmap strings list sorting relations.
From Stdlib Require Import ZArith Lia Ascii.
From S2P Require Import Prelude Contracts WakePolicy AttemptStates Rows EnvelopeClaims ClaimBus ClaimFacts.

(** ** Publications *)

(** What writes the bus: a claim transition, an acquisition that may reuse a live one, or any
    other record *)
Inductive ClaimCall : Type :=
| OtherRecord
| TransitionCall (request : ClaimRequest) (incarnation : string) (change : ClaimChange)
| AcquisitionCall (request : ClaimRequest) (incarnation resource generation : string) (scope : ClaimScope).

Definition run_call (registry : RegistryClaims) (call : ClaimCall) (db : ClaimTables) : ClaimTables :=
  match call with
  | OtherRecord => mkClaimTables (cb_last db + 1) (cb_claimed db) (cb_held db) (cb_operations db)
  | TransitionCall request incarnation change =>
      (publish_claim_transition request incarnation change registry db).2
  | AcquisitionCall request incarnation resource generation scope =>
      (publish_acquisition request incarnation resource generation scope registry db).2
  end.

Definition bus_step (db db' : ClaimTables) : Prop := exists registry call, db' = run_call registry call db.

Definition bus_reachable (db : ClaimTables) : Prop := rtc bus_step empty_bus db.

(** The change a call asks for *)
Definition asked (call : ClaimCall) : option (string * ClaimChange) :=
  match call with
  | OtherRecord => None
  | TransitionCall _ incarnation change => Some (incarnation, change)
  | AcquisitionCall _ incarnation resource generation scope =>
      Some (incarnation, WakeClaims [resource] generation scope)
  end.

(** A transition that was prepared under a registry and appended *)
Record published (registry : RegistryClaims) (db : ClaimTables) (t : ClaimTransition) (db' : ClaimTables) : Prop := {
  pub_seq : ct_seq t = cb_last db + 1;
  pub_prepared : exists t0, prepare_claim db t0 registry = Ok t /\ ct_seq t0 = ct_seq t /\
                   transition_post_init t0 = Ok tt;
  pub_append : append_claim t db = Ok db';
}.

Lemma prepare_claim_ok db t registry t' :
  prepare_claim db t registry = Ok t' -> exists expired, t' = with_expired t expired.
Proof. unfold prepare_claim. intros H. ok_inv. eauto. Qed.

Lemma insert_claim_ok request sender incarnation change registry db seq db' :
  insert_claim request sender incarnation change registry db = Ok (seq, db') ->
  exists t, published registry db t db' /\ seq = ct_seq t /\ ct_change t = change /\ ct_incarnation t = incarnation /\
    ct_owner t = sender.
Proof.
  unfold insert_claim. intros H. ok_inv. destruct (prepare_claim_ok _ _ _ _ H2) as [e ->].
  exists (with_expired (mkClaimTransition sender incarnation (cb_last db + 1) x [] change) e).
  split; [split; [done | | done] | done]. eexists. by destruct x0.
Qed.

Lemma claim_result_snd {A : Type} (r : outcome A * ClaimTables) : (claim_result r).2 = r.2.
Proof. by destruct r as [[|[]]]. Qed.

Lemma claim_result_ok {A : Type} (r : outcome A * ClaimTables) a db : claim_result r = (Ok a, db) -> r = (Ok a, db).
Proof. by destruct r as [[|[]]]. Qed.

Lemma publish_row_snd {A : Type} (operation : outcome (Z * ClaimTables)) (read : ClaimTransition -> outcome A) db :
  (publish_row operation read db).2 = match operation with Ok (_, db') => db' | Err _ => db end.
Proof. by destruct operation as [[]|]. Qed.

(** A call leaves the tables, appends another record, or publishes what was asked *)
Lemma run_call_cases registry call db :
  run_call registry call db = db \/ (call = OtherRecord) \/
  exists t, published registry db t (run_call registry call db) /\ asked call = Some (ct_incarnation t, ct_change t).
Proof.
  destruct call as [|request incarnation change|request incarnation resource generation scope]; simpl; [by right; left| |].
  - unfold publish_claim_transition. destruct (cr_validated request) as [sender|]; [|by left].
    rewrite claim_result_snd, publish_row_snd.
    destruct (insert_claim _ _ _ _ _ _) as [[seq db']|] eqn:E; [|by left].
    apply insert_claim_ok in E as (t & Hp & _ & <- & <- & _). eauto.
  - unfold publish_acquisition. destruct (cr_validated request) as [sender|]; [|by left].
    rewrite claim_result_snd. unfold acquire_resource_claim. rewrite publish_row_snd.
    destruct (owner_for db resource) as [[o|]|]; simpl; [destruct (_ && _); [by left|] | | by left];
      (destruct (insert_claim _ _ _ _ _ _) as [[seq db']|] eqn:E; [|by left];
       apply insert_claim_ok in E as (t & Hp & _ & <- & <- & _); eauto).
Qed.

(** ** The invariant of every run *)

Definition bus_inv (db : ClaimTables) : Prop := bus_wf db /\ exists h, replayed db h.

Lemma empty_inv : bus_inv empty_bus.
Proof.
  split; [split|exists replay_start; split_and!]; try done.
  simpl. intros o k. rewrite lookup_empty. split; [done|]. intros (t & Ht & _). by rewrite lookup_empty in Ht.
Qed.

Lemma other_record_inv db : bus_inv db -> bus_inv (mkClaimTables (cb_last db + 1) (cb_claimed db) (cb_held db) (cb_operations db)).
Proof.
  intros [Hwf (h & Hreplay & Hlast & Hrest)]. split.
  - destruct Hwf as [H1 H2 H3 H4]. split; simpl; [lia | | done | done].
    intros k t Hk. destruct (H2 _ _ Hk). lia.
  - exists h. split_and!; [done | | apply Hrest..]. simpl. rewrite Hlast. apply last_claim_beyond.
    intros k t Hk. destruct (wf_rows _ Hwf _ _ Hk). lia.
Qed.

Lemma published_inv registry db t db' : bus_inv db -> published registry db t db' -> bus_inv db'.
Proof.
  intros [Hwf [h Hh]] [Hseq _ Happend]. split.
  - by destruct (append_wf db Hwf t Hseq db' Happend).
  - by apply (append_replayed db Hwf t Hseq db' Happend h).
Qed.

Lemma run_call_inv registry call db : bus_inv db -> bus_inv (run_call registry call db).
Proof.
  intros Hinv. destruct (run_call_cases registry call db) as [->|[->|(t & Hp & _)]].
  - done.
  - by apply other_record_inv.
  - by eapply published_inv.
Qed.

Lemma bus_steps_inv db db' : rtc bus_step db db' -> bus_inv db -> bus_inv db'.
Proof. induction 1 as [|db db1 db2 (registry & call & ->) _ IH]; [done|]. eauto using run_call_inv. Qed.

Lemma bus_reachable_inv db : bus_reachable db -> bus_inv db.
Proof. intros H. eapply bus_steps_inv; [done | apply empty_inv]. Qed.

(** ** One publication *)

Lemma each_elem {A : Type} (f : A -> outcome unit) xs u x : each f xs = Ok u -> x ∈ xs -> f x = Ok tt.
Proof. destruct u. intros H%each_ok Hx. rewrite Forall_forall in H. auto. Qed.

Section one_publication.
Context (registry : RegistryClaims) (db : ClaimTables) (t : ClaimTransition) (db' : ClaimTables).
Context (Hwf : bus_wf db) (Hpub : published registry db t db').

Lemma published_holders r :
  holders db' !! r =
    if decide (r ∈ claims t) then acquired t r else if decide (r ∈ removed t) then None else holders db !! r.
Proof.
  destruct Hpub as [Hseq _ Happend]. destruct (append_wf db Hwf t Hseq db' Happend) as (_ & p & Hacq & ->).
  by apply next_holders_lookup.
Qed.

(** What a prepared transition found in the live table *)
Lemma published_live :
  (forall r o, r ∈ claims t -> holders db !! r = Some o -> owner_live registry o = true ->
     co_owner o = ct_owner t /\ co_incarnation o = ct_incarnation t) /\
  (forall x, x ∈ releases t -> exists o, holders db !! rl_resource x = Some o /\ owner_live registry o = true /\
     co_incarnation o = ct_incarnation t /\ co_generation o = rl_generation x) /\
  (forall r o, holders db !! r = Some o -> owner_live registry o = true -> r ∉ resources t -> r ∉ removed t) /\
  Forall (fun o => operation_used db o = false) (operation_ids t).
Proof.
  destruct Hpub as [_ (t0 & Hprep & _) _]. unfold prepare_claim in Hprep.
  rewrite (all_claims_holders _ Hwf) in Hprep.
  apply bind_ok_inv in Hprep as (previous & ->%projection_ok & Hprep).
  apply bind_ok_inv in Hprep as (projected & Hproj & Hprep).
  apply bind_ok_inv in Hprep as (u & Hops & [= <-]).
  unfold apply_transition in Hproj. apply bind_ok_inv in Hproj as (live & ->%projection_ok & Hproj).
  apply bind_ok_inv in Hproj as (u' & Hown & (_ & _ & Hp & Hrel)%project_ok). simpl in *.
  assert (Hlive : forall r o, holders db !! r = Some o -> owner_live registry o = true ->
    filter (fun ko : string * ClaimOwner => owner_live registry ko.2 = true) (holders db) !! r = Some o).
  { intros r o. by rewrite map_lookup_filter_Some. }
  split_and!.
  - intros r o Hr Ho Hl. unfold require_holders in Hown.
    apply (each_elem _ _ _ r) in Hown; [|done]. simpl in Hown. rewrite (Hlive _ _ Ho Hl) in Hown.
    unfold require_holder in Hown. ok_inv. bools. by simplify_eq.
  - intros x Hx. destruct (Hrel x Hx) as (o & Ho & Hi & Hg). apply map_lookup_filter_Some in Ho as [Ho Hl]. eauto.
  - intros r o Ho Hl Hr. unfold removed. rewrite elem_of_app. intros [?|He]; [done|]. simpl in He.
    apply list_elem_of_In, filter_In in He as [_ He]. bools.
    apply H. exists o. rewrite Hp. rewrite decide_False by (intros ?%claims_resources; done).
    rewrite decide_False by (unfold removed; simpl; by rewrite app_nil_r). auto.
  - unfold require_new_operation in Hops. apply Forall_forall. intros o Ho.
    apply (each_elem _ _ _ o) in Hops; [|done]. by apply refuse_ok in Hops.
Qed.

(** A live claim stays, passes to the same owner, or is released by it *)
Lemma published_keeps r o :
  holders db !! r = Some o -> owner_live registry o = true ->
  holders db' !! r = Some o \/
  (r ∈ claims t /\ exists o', holders db' !! r = Some o' /\
     co_owner o' = co_owner o /\ co_incarnation o' = co_incarnation o) \/
  (mkClaimRelease r (co_generation o) ∈ releases t /\ ct_incarnation t = co_incarnation o /\ holders db' !! r = None).
Proof.
  intros Ho Hl. destruct published_live as (Hclaim & Hrel & Hkept & _). rewrite published_holders.
  case_decide as Hc.
  - right. left. split; [done|]. destruct (Hclaim _ _ Hc Ho Hl) as [-> ->].
    apply acquired_claims in Hc as [o' Ho']. exists o'. split; [done|].
    by destruct (acquired_fields _ _ _ Ho') as (_ & _ & -> & -> & _).
  - destruct (decide (r ∈ resources t)) as [Hr|Hr].
    + right. right. rewrite decide_True by (unfold removed; rewrite elem_of_app; auto).
      assert (Hx : exists x, x ∈ releases t /\ rl_resource x = r).
      { revert Hr Hc. unfold resources, claims, releases. destruct (ct_change t); [done..|].
        intros (x & -> & Hx)%list_elem_of_fmap _. eauto. }
      destruct Hx as (x & Hx & <-). destruct (Hrel x Hx) as (o1 & Ho1 & _ & Hi & Hg).
      simplify_eq. rewrite Hg. by destruct x.
    + left. rewrite decide_False by eauto. done.
Qed.
End one_publication.

(** ** Mutual exclusion *)

(** C17: A live resource claim is never taken from its owner: whatever is published under a
    registry in which a claim is live, the resource is held afterwards by the same claim, or
    by a newer one of the same owner and incarnation, or it was released by that incarnation
    under the claim's own generation. *)
Theorem live_claim_never_displaced (db : ClaimTables) (registry : RegistryClaims) (call : ClaimCall)
    (r : string) (o : ClaimOwner) :
  bus_reachable db -> owner_for db r = Ok (Some o) -> owner_live registry o = true ->
  let db' := run_call registry call db in
  owner_for db' r = Ok (Some o) \/
  (exists o', owner_for db' r = Ok (Some o') /\ co_owner o' = co_owner o /\ co_incarnation o' = co_incarnation o) \/
  (owner_for db' r = Ok None /\ exists releases,
     asked call = Some (co_incarnation o, ReleasedClaims releases) /\
     mkClaimRelease r (co_generation o) ∈ releases).
Proof.
  intros Hreach Ho Hl db'. subst db'. assert (Hinv := bus_reachable_inv _ Hreach).
  pose proof (run_call_inv registry call _ Hinv) as Hinv'.
  destruct Hinv as [Hwf _], Hinv' as [Hwf' _]. rewrite owner_for_holders in Ho by done. injection Ho as Ho.
  rewrite owner_for_holders by done.
  destruct (run_call_cases registry call db) as [Heq|[->|(t & Hp & Hasked)]].
  - left. rewrite Heq. by rewrite Ho.
  - left. f_equal. done.
  - destruct (published_keeps _ _ _ _ Hwf Hp _ _ Ho Hl) as [->|[(_ & o' & -> & ? & ?)|(Hin & Hi & ->)]].
    + by left.
    + right. left. eauto.
    + right. right. split; [done|]. exists (releases t). rewrite Hasked, Hi. split; [|done]. repeat f_equal.
      unfold releases in *. destruct (ct_change t); [by apply elem_of_nil in Hin..|done].
Qed.

(** ** A prepared transition commits *)

Lemma projection_succeeds last owners :
  0 <= last -> (forall r o, owners !! r = Some o -> co_resource o = r /\ co_seq o <= last) ->
  projection last owners = Ok (mkClaimProjection last owners).
Proof.
  intros Hl Ho. unfold projection. rewrite (proj2 (Z.ltb_ge _ _)) by done. simpl.
  rewrite bool_decide_eq_true_2; [done|]. exact Ho.
Qed.

Lemma release_all_succeeds t rs m :
  NoDup (map rl_resource rs) ->
  (forall x, x ∈ rs -> exists o, m !! rl_resource x = Some o /\ co_incarnation o = ct_incarnation t /\
     co_generation o = rl_generation x) ->
  exists m', release_all t rs m = Ok m'.
Proof.
  revert m. induction rs as [|x rs IH]; simpl; intros m Hnd Hx; [eauto|].
  apply NoDup_cons in Hnd as [Hfresh Hnd]. destruct (Hx x) as (o & -> & Hi & Hg); [left|]. simpl.
  rewrite bool_decide_eq_true_2 by congruence. simpl. apply IH; [done|]. intros y Hy.
  destruct (Hx y) as (o' & Ho' & ?); [by right|]. exists o'. split; [|done].
  rewrite lookup_delete_ne; [done|]. intros Heq. apply Hfresh. rewrite Heq. by apply list_elem_of_fmap_2.
Qed.

Lemma acquire_all_succeeds t rs m : (forall r, r ∈ rs -> r ∈ claims t) -> exists m', acquire_all t rs m = Ok m'.
Proof.
  revert m. induction rs as [|r rs IH]; simpl; intros m Hr; [eauto|].
  destruct (proj2 (acquired_claims t r)) as [o Ho]; [apply Hr; left|].
  rewrite (proj2 (claimed_acquired _ _ _) Ho). simpl. apply IH. intros r' ?. apply Hr. by right.
Qed.

(** A transition projects from any table that holds what it releases *)
Lemma project_succeeds t previous :
  NoDup (resources t) -> 0 <= cp_last previous < ct_seq t ->
  (forall r o, cp_claims previous !! r = Some o -> co_resource o = r /\ co_seq o <= cp_last previous) ->
  (forall x, x ∈ releases t -> (rl_resource x ∉ ct_expired t) /\ exists o, cp_claims previous !! rl_resource x = Some o /\
     co_incarnation o = ct_incarnation t /\ co_generation o = rl_generation x) ->
  exists p, project t previous = Ok p.
Proof.
  intros Hnd Hlast Hkeyed Hrel. unfold project, remaining.
  rewrite (proj2 (Z.leb_gt _ _)) by lia. simpl.
  destruct (release_all_succeeds t (releases t) (filter (fun ko => ko.1 ∉ ct_expired t) (cp_claims previous))) as [m Hm].
  { revert Hnd. unfold resources, releases. destruct (ct_change t); [constructor..|done]. }
  { intros x Hx. destruct (Hrel x Hx) as (He & o & Ho & Hog). exists o. split; [|done].
    by apply map_lookup_filter_Some. }
  rewrite Hm. simpl. destruct (acquire_all_succeeds t (claims t) m) as [m' Hm']; [done|]. rewrite Hm'. simpl.
  eexists. apply projection_succeeds; [lia|]. intros r o. rewrite (acquire_all_ok _ _ _ _ Hm').
  case_decide.
  - intros (-> & -> & _)%acquired_fields. split; [done | lia].
  - rewrite (proj1 (release_all_ok _ _ _ _ Hm)). case_decide; [done|].
    intros [Ho _]%map_lookup_filter_Some. destruct (Hkeyed _ _ Ho). split; [done | lia].
Qed.

Lemma last_claim_upper rows k t through : rows !! k = Some t -> k <= through -> k <= last_claim rows through.
Proof.
  intros Hk Hle. rewrite <- (insert_delete_id _ _ _ Hk), last_claim_insert by apply lookup_delete_eq.
  rewrite (proj2 (Z.leb_le _ _)) by done. lia.
Qed.

Lemma operation_rows_keys t : (operation_rows t).*1 = operation_ids t.
Proof. unfold operation_rows. induction (operation_ids t) as [|o os IH]; simpl; [done | by f_equal]. Qed.

(** The rows of a projected transition are new *)
Lemma stored_apply_succeeds t p d :
  (forall r, cp_claims p !! r = acquired t r) -> Forall (fun o => operation_used d o = false) (operation_ids t) ->
  exists d', stored_apply t p d = Ok d'.
Proof.
  intros Hacq Hops. unfold stored_apply. fold (holder_rows (cp_claims p)).
  destruct (holder_rows_spec (cp_claims p)) as [Hfst _]; [intros r o; rewrite Hacq; apply acquired_fields|].
  rewrite (insert_rows_fresh _ (holder_rows (cp_claims p))); [simpl| |].
  - rewrite (insert_rows_fresh _ (operation_rows t)); [simpl; eauto| |]; rewrite operation_rows_keys.
    + unfold operation_ids, scope_operations.
      destruct (recorded (resource_scope t)); simpl; [apply NoDup_singleton | constructor].
    + eapply Forall_impl; [exact Hops|]. intros o Ho. unfold operation_used in Ho. bools. by apply eq_None_not_Some.
  - rewrite Hfst. apply NoDup_fst_map_to_list.
  - rewrite Hfst. apply Forall_fmap, Forall_forall. intros [r o] Ho%elem_of_map_to_list. simpl.
    rewrite Hacq in Ho. apply map_lookup_filter_None. right. intros k _ Hr. simpl in Hr. apply Hr.
    unfold removed. rewrite elem_of_app. left. apply claims_resources, acquired_claims. eauto.
Qed.

Section table.
Context (db : ClaimTables) (Hwf : bus_wf db).

Definition current : ClaimProjection := mkClaimProjection (last_claim (cb_claimed db) (cb_last db)) (holders db).

Lemma current_last : 0 <= cp_last current <= cb_last db.
Proof. pose proof (last_claim_range (cb_claimed db) (cb_last db)). pose proof (wf_last _ Hwf). simpl. lia. Qed.

Lemma current_keyed r o : holders db !! r = Some o -> co_resource o = r /\ co_seq o <= cp_last current.
Proof.
  intros (Hr & _ & t & Ht & _)%(holder_fields _ Hwf). split; [done|]. simpl.
  eapply last_claim_upper; [done|]. by destruct (wf_rows _ Hwf _ _ Ht) as [_ [_ ?]].
Qed.

Lemma all_claims_current : all_claims db = Ok current.
Proof.
  rewrite all_claims_holders by done. apply projection_succeeds; [apply current_last | apply current_keyed].
Qed.

Definition live_claims (registry : RegistryClaims) : ClaimProjection :=
  mkClaimProjection (cp_last current) (filter (fun ko => owner_live registry ko.2 = true) (holders db)).

Lemma live_in_current registry : live_in registry current = Ok (live_claims registry).
Proof.
  apply projection_succeeds; [apply current_last|].
  intros r o [Ho _]%map_lookup_filter_Some. by apply current_keyed.
Qed.

(** What [prepare_claim] accepted is never refused by the append *)
Lemma prepared_commits registry t0 t :
  ct_seq t0 = cb_last db + 1 -> transition_post_init t0 = Ok tt -> prepare_claim db t0 registry = Ok t ->
  exists db', append_claim t db = Ok db'.
Proof.
  intros Hseq Hpost Hprep. unfold prepare_claim in Hprep. rewrite all_claims_current in Hprep. simpl in Hprep.
  apply bind_ok_inv in Hprep as (projected & Hproj & Hprep).
  apply bind_ok_inv in Hprep as (u & Hops & [= <-]).
  set (expired := List.filter _ _). set (t := with_expired t0 expired).
  assert (Hnd : NoDup (resources t)). { unfold transition_post_init in Hpost. ok_inv. by bools. }
  unfold apply_transition in Hproj. rewrite live_in_current in Hproj. simpl in Hproj.
  apply bind_ok_inv in Hproj as (u' & _ & (_ & _ & _ & Hrel)%project_ok). simpl in Hrel.
  pose proof current_last as Hlast.
  destruct (project_succeeds t (mkClaimProjection (cp_last current) (named_holders t (holders db)))) as [p Hp].
  - done.
  - simpl in *. lia.
  - simpl. intros r o [Ho _]%map_lookup_filter_Some. by apply current_keyed.
  - intros x Hx. assert (Hr : rl_resource x ∈ resources t).
    { revert Hx. unfold releases, resources, t. simpl. destruct (ct_change t0); [by intros ?%elem_of_nil..|].
      intros. by apply list_elem_of_fmap_2. }
    split.
    + unfold t, expired. simpl. intros He%list_elem_of_In%filter_In. destruct He as [_ He]. by bools.
    + destruct (Hrel x Hx) as (o & [Ho _]%map_lookup_filter_Some & Hog). exists o. split; [|done].
      by apply map_lookup_filter_Some.
  - assert (Hacq := project_named _ _ _ _ Hp).
    assert (Hfrom : project_from t (operation_used db)
      (projection (cp_last current) (named_holders t (holders db))) = Ok p).
    { unfold project_from. change (require_new_operation t) with (require_new_operation t0). rewrite Hops.
      rewrite projection_succeeds; [cbn [mbind result_bind]; by rewrite Hp | lia |].
      intros r o [Ho _]%map_lookup_filter_Some. by apply current_keyed. }
    unfold append_claim, stored_project. fold (added db t). rewrite (claims_for_added db Hwf t Hseq).
    change (operation_used (added db t)) with (operation_used db).
    change (last_claim (cb_claimed db) (cb_last db)) with (cp_last current). rewrite Hfrom. simpl.
    apply stored_apply_succeeds; [done|]. apply Forall_forall. intros o Ho.
    unfold require_new_operation in Hops. apply (each_elem _ _ _ o) in Hops; [|done]. by apply refuse_ok in Hops.
Qed.
End table.

(** ** Derived tables *)

(** C18: The derived claim tables are what history says: after any publications, clearing
    the tables of held resources and consumed operations and rebuilding them from the
    committed claim rows, without a registry, gives exactly the tables that the appends
    maintained. *)
Theorem claim_rebuild_agrees (db : ClaimTables) : bus_reachable db -> rebuild db = Ok db.
Proof. intros [Hwf [h Hh]]%bus_reachable_inv. by eapply replayed_rebuild. Qed.

(** ** Operations *)

Lemma bus_step_rows db db' k t :
  bus_inv db -> bus_step db db' -> cb_claimed db !! k = Some t -> cb_claimed db' !! k = Some t.
Proof.
  intros [Hwf _] (registry & call & ->) Hk.
  destruct (run_call_cases registry call db) as [->|[->|(u & [Hseq _ Happend] & _)]]; [done..|].
  destruct (append_ok db Hwf u Hseq _ Happend) as (_ & _ & _ & _ & -> & _).
  destruct (wf_rows _ Hwf _ _ Hk). by rewrite lookup_insert_ne by lia.
Qed.

Lemma bus_steps_rows db db' k t :
  rtc bus_step db db' -> bus_inv db -> cb_claimed db !! k = Some t -> cb_claimed db' !! k = Some t.
Proof.
  induction 1 as [|db db1 db2 Hstep Hrun IH]; [done|]. intros Hinv Hk. apply IH.
  - eapply bus_steps_inv; [by apply rtc_once|done].
  - by eapply bus_step_rows.
Qed.

(** A claim operation is consumed once: it belongs to at most one committed claim row,
    and once consumed, every later call that acquires under it is refused or reuses a live
    claim, and leaves the tables as they were. *)
Theorem claim_operation_consumed_once (db db' : ClaimTables) (o : string) (k : Z) (t : ClaimTransition) :
  bus_reachable db -> cb_claimed db !! k = Some t -> o ∈ operation_ids t -> rtc bus_step db db' ->
  (forall k' t', cb_claimed db' !! k' = Some t' -> o ∈ operation_ids t' -> k' = k) /\
  forall registry call incarnation cs generation scope,
    asked call = Some (incarnation, WakeClaims cs generation scope) -> o ∈ scope_operations scope ->
    run_call registry call db' = db'.
Proof.
  intros Hreach Hk Ho Hrun. assert (Hinv := bus_reachable_inv _ Hreach).
  pose proof (bus_steps_rows _ _ _ _ Hrun Hinv Hk) as Hk'. destruct (bus_steps_inv _ _ Hrun Hinv) as [Hwf _].
  assert (Hop : cb_operations db' !! o = Some k) by (apply (wf_operations _ Hwf); eauto). split.
  - intros k' t' Ht' Ho'. assert (cb_operations db' !! o = Some k') by (apply (wf_operations _ Hwf); eauto). congruence.
  - intros registry call incarnation cs generation scope Hasked Hin.
    destruct (run_call_cases registry call db') as [->|[->|(u & Hpub & Hu)]]; [done..|].
    rewrite Hasked in Hu. injection Hu as _ Hchange.
    destruct (published_live _ _ _ _ Hwf Hpub) as (_ & _ & _ & Hfresh). rewrite Forall_forall in Hfresh.
    assert (operation_used db' o = false) as Hu.
    { apply Hfresh. unfold operation_ids, resource_scope. by rewrite <- Hchange. }
    unfold operation_used in Hu. bools. destruct Hu. eauto.
Qed.

(** ** Acquiring *)

(** What decides an acquisition: only the current holder and the operation *)
Inductive Verdict : Type :=
| Reused (o : ClaimOwner)
| Conflicting (owner : string)
| Spent
| Granted.

Definition verdict (db : ClaimTables) (registry : RegistryClaims) (sender incarnation resource operation : string)
    (scope : ClaimScope) : Verdict :=
  let new := if operation_used db operation then Spent else Granted in
  match holders db !! resource with
  | Some o =>
      if negb (owner_live registry o) then new
      else if reuses (co_scope o) scope then Reused o
      else if bool_decide ((co_owner o, co_incarnation o) = (sender, incarnation)) then new
      else Conflicting (co_owner o)
  | None => new
  end.

Section acquiring.
Context (db : ClaimTables) (Hwf : bus_wf db) (registry : RegistryClaims).
Context (sender incarnation message resource generation : string) (scope : ClaimScope) (fields : RecordedScope).
Context (Hscope : recorded scope = Some fields) (Hpost : scope_post_init scope = Ok tt).

Definition asked_transition : ClaimTransition :=
  mkClaimTransition sender incarnation (cb_last db + 1) message [] (WakeClaims [resource] generation scope).

Lemma asked_post_init : transition_post_init asked_transition = Ok tt.
Proof.
  unfold transition_post_init. change (resource_scope asked_transition) with scope. rewrite Hpost. simpl.
  done.
Qed.

Lemma asked_operation : operation_ids asked_transition = [sc_operation fields].
Proof. unfold operation_ids, scope_operations. change (resource_scope asked_transition) with scope. by rewrite Hscope. Qed.

(** Preparing looks at a live holder of the resource and at the operation *)
Lemma asked_prepared :
  (forall o, holders db !! resource = Some o -> owner_live registry o = true ->
     (co_owner o, co_incarnation o) = (sender, incarnation)) ->
  if operation_used db (sc_operation fields)
  then prepare_claim db asked_transition registry = Err (IdentityConflict "Claim operation was already consumed")
  else exists t, prepare_claim db asked_transition registry = Ok t.
Proof.
  intros Hsame. unfold prepare_claim. rewrite all_claims_current by done. cbn [mbind result_bind].
  unfold apply_transition. rewrite live_in_current by done. cbn [mbind result_bind].
  assert (require_holders asked_transition (live_claims db registry) = Ok tt) as ->.
  { unfold require_holders. simpl. destruct (filter _ (holders db) !! resource) as [o|] eqn:E; [|done].
    apply map_lookup_filter_Some in E as [Ho Hl]. unfold require_holder.
    rewrite bool_decide_eq_true_2 by (by apply Hsame). done. }
  cbn [mbind result_bind].
  destruct (project_succeeds (with_expired asked_transition []) (live_claims db registry)) as [p Hp].
  - apply NoDup_singleton.
  - pose proof (current_last db Hwf) as Hlast. simpl in *. lia.
  - intros r o [Ho _]%map_lookup_filter_Some. by apply (current_keyed db Hwf).
  - intros x Hx. by apply elem_of_nil in Hx.
  - rewrite Hp. cbn [mbind result_bind]. unfold require_new_operation. rewrite asked_operation. simpl.
    destruct (operation_used db (sc_operation fields)); simpl; eauto.
Qed.

Lemma asked_refused o :
  holders db !! resource = Some o -> owner_live registry o = true ->
  (co_owner o, co_incarnation o) <> (sender, incarnation) ->
  prepare_claim db asked_transition registry = Err (ClaimConflict (co_owner o)).
Proof.
  intros Ho Hl Hne. unfold prepare_claim. rewrite all_claims_current by done. cbn [mbind result_bind].
  unfold apply_transition. rewrite live_in_current by done. cbn [mbind result_bind].
  unfold require_holders. simpl.
  assert (filter (fun ko : string * ClaimOwner => owner_live registry ko.2 = true) (holders db) !! resource = Some o)
    as -> by by apply map_lookup_filter_Some.
  unfold require_holder. by rewrite bool_decide_eq_false_2.
Qed.

Context (request : ClaimRequest).
Context (Hvalid : cr_validated request = Ok sender) (Hprepared : cr_prepared request (cb_last db + 1) = Ok message).

Lemma asked_inserted :
  insert_claim request sender incarnation (WakeClaims [resource] generation scope) registry db
  = (prepared ← prepare_claim db asked_transition registry;
     db' ← append_claim prepared db; Ok (cb_last db + 1, db')).
Proof. unfold insert_claim. rewrite Hprepared. cbn [mbind result_bind]. fold asked_transition. by rewrite asked_post_init. Qed.

(** The claim an acquisition makes *)
Definition granted : ClaimOwner :=
  mkClaimOwner sender incarnation (cb_last db + 1) message generation scope resource.

(** Inserting, when the holder does not stand in the way *)
Lemma asked_published :
  (forall o, holders db !! resource = Some o -> owner_live registry o = true ->
     (co_owner o, co_incarnation o) = (sender, incarnation)) ->
  let published := publish_row
    (insert_claim request sender incarnation (WakeClaims [resource] generation scope) registry db)
    (fun t => claimed t resource) db in
  if operation_used db (sc_operation fields)
  then published = (Err (IdentityConflict "Claim operation was already consumed"), db)
  else exists db', published = (Ok granted, db') /\ owner_for db' resource = Ok (Some granted) /\
       cb_last db' = cb_last db + 1.
Proof.
  intros Hsame. pose proof (asked_prepared Hsame) as Hprep. cbv zeta. rewrite asked_inserted.
  destruct (operation_used db (sc_operation fields)); [by rewrite Hprep|].
  destruct Hprep as [t Ht]. rewrite Ht. cbn [mbind result_bind].
  destruct (prepared_commits db Hwf registry asked_transition t eq_refl asked_post_init Ht) as [db' Hdb']. rewrite Hdb'. simpl.
  destruct (prepare_claim_ok _ _ _ _ Ht) as [e ->].
  set (t := with_expired asked_transition e) in *.
  assert (Hacq : acquired t resource = Some granted) by (unfold acquired; simpl; by rewrite decide_True by left).
  destruct (append_ok db Hwf t eq_refl db' Hdb') as (_ & _ & _ & Hlast & Hrows & _).
  destruct (append_wf db Hwf t eq_refl db' Hdb') as (Hwf' & p & Hp & Hholders).
  exists db'. rewrite Hrows. change (cb_last db + 1) with (ct_seq t) at 1. rewrite lookup_insert_eq. simpl.
  rewrite (proj2 (claimed_acquired t resource granted) Hacq). split_and!; [done| |done].
  rewrite owner_for_holders by done. rewrite Hholders, next_holders_lookup by done.
  rewrite decide_True by left. by rewrite Hacq.
Qed.
End acquiring.

(** An acquisition is decided by the current holder alone.  For an accepted message and
    a valid recorded scope, under any registry: a live claim of the same scope is returned
    and nothing is written; a live claim of another owner or incarnation refuses with that
    owner; an operation that was consumed refuses; otherwise the resource is acquired, by
    one more row of the bus, and the returned claim is the holder the table then reads back. *)
Theorem acquisition_decided (db : ClaimTables) (registry : RegistryClaims) (request : ClaimRequest)
    (sender incarnation message resource generation : string) (scope : ClaimScope) (fields : RecordedScope) :
  bus_reachable db -> cr_validated request = Ok sender -> cr_prepared request (cb_last db + 1) = Ok message ->
  recorded scope = Some fields -> scope_post_init scope = Ok tt ->
  let result := publish_acquisition request incarnation resource generation scope registry db in
  match verdict db registry sender incarnation resource (sc_operation fields) scope with
  | Reused o => result = (Ok o, db)
  | Conflicting owner => result = (Err (ClaimConflict owner), db)
  | Spent => result = (Err (IdentityConflict "Claim operation was already consumed"), db)
  | Granted => exists db',
      result = (Ok (granted db sender incarnation message resource generation scope), db') /\
      owner_for db' resource = Ok (Some (granted db sender incarnation message resource generation scope)) /\
      cb_last db' = cb_last db + 1
  end.
Proof.
  intros [Hwf _]%bus_reachable_inv Hvalid Hprep Hscope Hpost. cbv zeta.
  unfold publish_acquisition. rewrite Hvalid. unfold acquire_resource_claim. rewrite owner_for_holders by done.
  cbn [mbind result_bind]. unfold verdict.
  pose proof (asked_published db Hwf registry sender incarnation message resource generation scope fields
                Hscope Hpost request Hprep) as Hnew. cbv zeta in Hnew.
  destruct (holders db !! resource) as [o|] eqn:Ho.
  - destruct (owner_live registry o) eqn:Hl; simpl.
    + destruct (reuses (co_scope o) scope); simpl.
      * destruct (holder_fields _ Hwf _ _ Ho) as (_ & _ & t & Ht & Hacq). rewrite Ht. simpl.
        by rewrite (proj2 (claimed_acquired _ _ _) Hacq).
      * case_bool_decide as Hsame.
        -- destruct (operation_used db (sc_operation fields)).
           ++ rewrite Hnew; [done|]. congruence.
           ++ destruct Hnew as (db' & -> & Hrest); [congruence|]. exists db'. done.
        -- rewrite (asked_inserted db registry sender incarnation message resource generation scope Hpost request Hprep).
           by rewrite (asked_refused db Hwf registry sender incarnation message resource generation scope o Ho Hl Hsame).
    + rewrite andb_false_r. destruct (operation_used db (sc_operation fields)).
      * rewrite Hnew; [done|]. congruence.
      * destruct Hnew as (db' & -> & Hrest); [congruence|]. exists db'. done.
  - destruct (operation_used db (sc_operation fields)).
    + rewrite Hnew; [done|]. congruence.
    + destruct Hnew as (db' & -> & Hrest); [congruence|]. exists db'. done.
Qed.

(** ** Releasing *)

Lemma concat_by_incarnation owned : concat (by_incarnation owned) = owned.
Proof.
  induction owned as [|c rest IH]; simpl; [done|]. rewrite <- IH at 2.
  destruct (by_incarnation rest) as [|[|d same] others]; simpl; [done..|]. by case_bool_decide.
Qed.

Lemma concat_slices fuel xs : (length xs <= fuel)%nat -> concat (slices fuel xs) = xs.
Proof.
  revert xs. induction fuel as [|fuel IH]; intros [|x xs] H; simpl in *; [done|lia|done|].
  rewrite IH by (rewrite length_drop; lia). f_equal. apply (take_drop (pred max_resources)).
Qed.

Lemma release_batches_concat owned : concat (release_batches owned) ≡ₚ owned.
Proof.
  unfold release_batches. rewrite flat_map_concat_map.
  transitivity (merge_sort incarnation_le owned); [|apply merge_sort_Permutation].
  rewrite <- (concat_by_incarnation (merge_sort incarnation_le owned)) at 2.
  induction (by_incarnation (merge_sort incarnation_le owned)) as [|g gs IH]; simpl; [done|].
  rewrite concat_app, concat_slices by done. by f_equiv.
Qed.

Lemma release_batches_elem owned c : (exists b, b ∈ release_batches owned /\ c ∈ b) <-> c ∈ owned.
Proof.
  rewrite <- (release_batches_concat owned), list_elem_of_In, in_concat. setoid_rewrite list_elem_of_In.
  split; intros (b & ? & ?); eauto.
Qed.

Lemma still_current_elem db cs owned c :
  bus_wf db -> still_current db cs = Ok owned ->
  c ∈ owned <-> c ∈ cs /\ holders db !! co_resource c = Some c.
Proof.
  intros Hwf. revert owned. induction cs as [|x cs IH]; intros owned; simpl.
  - intros [= <-]. split; [by intros ?%elem_of_nil | by intros [?%elem_of_nil _]].
  - rewrite owner_for_holders by done. cbn [mbind result_bind]. intros H.
    apply bind_ok_inv in H as (others & Ho & [= <-]). specialize (IH _ Ho). rewrite elem_of_cons.
    case_bool_decide as Hx; [rewrite elem_of_cons|]; rewrite IH; [|by split; [tauto | intros [[->|?] ?]; tauto]].
    split; [intros [->|?]; tauto | tauto].
Qed.

Lemma still_current_all db cs :
  bus_wf db -> (forall c, c ∈ cs -> holders db !! co_resource c = Some c) -> still_current db cs = Ok cs.
Proof.
  intros Hwf. induction cs as [|c cs IH]; intros Hcs; simpl; [done|]. rewrite owner_for_holders by done. simpl.
  rewrite IH by (intros; apply Hcs; by right). simpl. rewrite bool_decide_eq_true_2; [done|]. apply Hcs. left.
Qed.

(** One release envelope *)
Lemma release_call registry db request incarnation rs result db' :
  bus_inv db -> publish_claim_transition request incarnation (ReleasedClaims rs) registry db = (result, db') ->
  bus_inv db' /\
  (forall r o, holders db' !! r = Some o -> holders db !! r = Some o) /\
  (forall r o, holders db !! r = Some o -> owner_live registry o = true -> r ∉ map rl_resource rs ->
     holders db' !! r = Some o) /\
  (is_ok result = true -> forall r, r ∈ map rl_resource rs -> holders db' !! r = None).
Proof.
  intros Hinv H.
  assert (Hcall : run_call registry (TransitionCall request incarnation (ReleasedClaims rs)) db = db')
    by (simpl; by rewrite H).
  assert (Hinv' : bus_inv db') by (rewrite <- Hcall; by apply run_call_inv).
  assert (Hnone : is_ok result = true -> exists t, published registry db t db' /\ ct_change t = ReleasedClaims rs).
  { unfold publish_claim_transition in H. destruct (cr_validated request) as [sender|e]; [|by simplify_eq].
    destruct result as [t|]; [|done]. intros _. apply claim_result_ok in H. unfold publish_row in H.
    destruct (insert_claim _ _ _ _ _ _) as [[seq db1]|] eqn:E; [|done]. injection H as _ <-.
    apply insert_claim_ok in E as (u & Hp & _ & Hc & _). eauto. }
  destruct Hinv as [Hwf _]. split; [done|].
  destruct (run_call_cases registry (TransitionCall request incarnation (ReleasedClaims rs)) db)
    as [Heq|[Heq|(t & Hpub & Hasked)]]; [|done|].
  - assert (db' = db) as -> by congruence. split_and!; [done..|]. intros Hok r Hr.
    destruct (Hnone Hok) as (t & [Hseq _ Happend] & _).
    destruct (append_ok db Hwf t Hseq db Happend) as (_ & _ & _ & Hlast & _). lia.
  - rewrite Hcall in Hpub. simpl in Hasked. injection Hasked as _ Hchange.
    assert (Hc : claims t = []) by (unfold claims; by rewrite <- Hchange).
    assert (Hr : resources t = map rl_resource rs) by (unfold resources; by rewrite <- Hchange).
    split_and!.
    + intros r o. rewrite (published_holders _ _ _ _ Hwf Hpub), Hc. rewrite decide_False by apply not_elem_of_nil.
      by case_decide.
    + intros r o Ho Hl Hnot. destruct (published_live _ _ _ _ Hwf Hpub) as (_ & _ & Hkept & _).
      rewrite (published_holders _ _ _ _ Hwf Hpub), Hc. rewrite decide_False by apply not_elem_of_nil.
      rewrite decide_False; [done|]. eapply Hkept; [done..|]. by rewrite Hr.
    + intros _ r Hin. rewrite (published_holders _ _ _ _ Hwf Hpub), Hc. rewrite decide_False by apply not_elem_of_nil.
      rewrite decide_True; [done|]. unfold removed. rewrite Hr, elem_of_app. by left.
Qed.

Lemma release_resource_of batch : map rl_resource (map release_of batch) = map co_resource batch.
Proof. by rewrite map_map. Qed.

(** A sequence of release envelopes, however far it came *)
Lemma publish_releases_ok registry request batches db result db' :
  bus_inv db -> publish_releases request registry batches db = (result, db') ->
  (forall r o, holders db' !! r = Some o -> holders db !! r = Some o) /\
  (forall r o, holders db !! r = Some o -> owner_live registry o = true ->
     (forall b c, b ∈ batches -> c ∈ b -> co_resource c <> r) -> holders db' !! r = Some o) /\
  (result = Ok tt -> forall b c, b ∈ batches -> c ∈ b -> holders db' !! co_resource c = None) /\ bus_inv db'.
Proof.
  revert db. induction batches as [|[|c cs] rest IH]; intros db Hinv; simpl.
  - intros [= <- <-]. refine (conj _ (conj _ (conj _ Hinv))); [done..|]. intros _ b c Hb. by apply elem_of_nil in Hb.
  - intros (H1 & H2 & H3 & H4)%IH; [|done]. refine (conj H1 (conj _ (conj _ H4))).
    + intros r o Ho Hl Hb. apply H2; [done..|]. intros b c ? ?. by apply (Hb b c); [right|].
    + intros Hr b c [->|Hb]%elem_of_cons Hc; [by apply elem_of_nil in Hc | by eapply H3].
  - destruct (request (co_owner c)) as [message|e].
    + destruct (publish_claim_transition _ _ _ _ _) as [[t|e] db1] eqn:E.
      * apply (release_call registry _ _ _ (map release_of (c :: cs))) in E as (Hinv1 & Hsub & Hkeep & Hgone); [|done].
        rewrite release_resource_of in Hkeep, Hgone. specialize (Hgone eq_refl).
        intros (H1 & H2 & H3 & H4)%IH; [|done]. refine (conj _ (conj _ (conj _ H4))); [by eauto| |].
        -- intros r o Ho Hl Hb. apply H2; [|done|].
           ++ apply Hkeep; [done..|]. intros (d & -> & Hd)%list_elem_of_fmap. apply (Hb (c :: cs) d); [left | done | done].
           ++ intros b d ? ?. by apply (Hb b d); [right|].
        -- intros Hr b d [->|Hb]%elem_of_cons Hd; [|by eapply H3].
           destruct (holders db' !! co_resource d) as [o|] eqn:Ho; [|done]. apply H1 in Ho.
           rewrite Hgone in Ho; [done|]. by apply list_elem_of_fmap_2.
      * apply (release_call registry _ _ _ (map release_of (c :: cs))) in E as (Hinv1 & Hsub & Hkeep & _); [|done].
        rewrite release_resource_of in Hkeep. intros [= <- <-]. refine (conj Hsub (conj _ (conj _ Hinv1))); [|done].
        intros r o Ho Hl Hb. apply Hkeep; [done..|]. intros (d & -> & Hd)%list_elem_of_fmap.
        apply (Hb (c :: cs) d); [left | done | done].
    + intros [= <- <-]. refine (conj _ (conj _ (conj _ Hinv))); done.
Qed.

Lemma release_effect (db db' : ClaimTables) registry request cs result :
  bus_reachable db -> release_resources request registry cs db = (result, db') ->
  (forall r o, owner_for db' r = Ok (Some o) -> owner_for db r = Ok (Some o)) /\
  (forall r o, owner_for db r = Ok (Some o) -> owner_live registry o = true -> o ∉ cs ->
     owner_for db' r = Ok (Some o)) /\
  (result = Ok tt -> forall c, c ∈ cs -> owner_for db' (co_resource c) <> Ok (Some c)).
Proof.
  intros Hinv%bus_reachable_inv. unfold release_resources. destruct Hinv as [Hwf Hh].
  destruct (still_current db cs) as [owned|e] eqn:Hcur; [|by intros [= <- <-]; split_and!].
  intros H. apply publish_releases_ok in H as (Hsub & Hkeep & Hgone & Hwf' & _); [|done].
  assert (Howned := fun c => still_current_elem _ _ _ c Hwf Hcur). split_and!.
  - intros r o. rewrite !owner_for_holders by done. intros [= Ho]. f_equal. by apply Hsub.
  - intros r o. rewrite !owner_for_holders by done. intros [= Ho] Hl Hnot. f_equal. apply Hkeep; [done..|].
    intros b c Hb Hc <-. assert (Hin : c ∈ owned) by (apply release_batches_elem; eauto).
    apply Howned in Hin as [Hin Hc']. congruence.
  - intros Hok c Hc. rewrite owner_for_holders by done. intros [= Ho].
    assert (Hin : c ∈ owned) by (apply Howned; eauto).
    apply release_batches_elem in Hin as (b & Hb & Hcb). rewrite (Hgone Hok _ _ Hb Hcb) in Ho. done.
Qed.

(** Releasing a lifetime's acquisitions spares every other live claim: however far the
    release came, each resource that a live claim outside the given acquisitions held is
    still held by it, a successor's newer claim of the same resource included; and once the
    release returned, none of the given acquisitions is held any more. *)
Theorem release_spares_other_claims (db db' : ClaimTables) (registry : RegistryClaims)
    (request : string -> outcome ClaimRequest) (cs : list ClaimOwner) (result : outcome unit) :
  bus_reachable db -> release_resources request registry cs db = (result, db') ->
  (forall r o, owner_for db r = Ok (Some o) -> owner_live registry o = true -> o ∉ cs ->
     owner_for db' r = Ok (Some o)) /\
  (result = Ok tt -> forall c, c ∈ cs -> owner_for db' (co_resource c) <> Ok (Some c)).
Proof. intros Hreach H. by destruct (release_effect _ _ _ _ _ _ Hreach H) as (_ & ? & ?). Qed.

(** ** The resources of a finished attempt *)

(** A request whose envelopes are all accepted *)
Definition accepts (request : string -> outcome ClaimRequest) : Prop :=
  forall owner, exists message sender, request owner = Ok message /\ cr_validated message = Ok sender /\
    forall seq, exists id, cr_prepared message seq = Ok id.

(** An envelope's worth of acquisitions *)
Definition releasable (batch : list ClaimOwner) : Prop :=
  (length batch <= max_resources)%nat /\ exists incarnation, Forall (fun c => co_incarnation c = incarnation) batch.

Lemma by_incarnation_same owned g :
  g ∈ by_incarnation owned -> exists incarnation, Forall (fun c => co_incarnation c = incarnation) g.
Proof.
  revert g. induction owned as [|c rest IH]; simpl; intros g; [by intros ?%elem_of_nil|].
  assert (Hone : exists incarnation, Forall (fun c => co_incarnation c = incarnation) [c])
    by (exists (co_incarnation c); by repeat constructor).
  destruct (by_incarnation rest) as [|[|d same] others].
  - by intros ->%list_elem_of_singleton.
  - intros [->|Hg]%elem_of_cons; eauto.
  - case_bool_decide as Heq; intros [->|Hg]%elem_of_cons; eauto.
    + destruct (IH (d :: same)) as [i Hi]; [left|]. exists i. constructor; [|done].
      apply Forall_cons in Hi as [<- _]. done.
    + apply IH. by right.
Qed.

Lemma slices_releasable fuel group batch :
  (exists incarnation, Forall (fun c => co_incarnation c = incarnation) group) ->
  batch ∈ slices fuel group -> releasable batch.
Proof.
  revert group. induction fuel as [|fuel IH]; intros [|c cs] [i Hi]; simpl; try by intros ?%elem_of_nil.
  intros [->|Hb]%elem_of_cons.
  - split; [simpl; rewrite length_take; unfold max_resources; lia|]. exists i.
    change (c :: take 31 cs) with (take max_resources (c :: cs)). by apply Forall_take.
  - eapply IH; [|done]. exists i. apply Forall_cons in Hi as [_ Hi]. by apply Forall_drop.
Qed.

Lemma release_batches_releasable owned : Forall releasable (release_batches owned).
Proof.
  apply Forall_forall. intros b. unfold release_batches.
  rewrite list_elem_of_In, in_flat_map. intros (g & Hg & Hb).
  eapply slices_releasable; [|by apply list_elem_of_In]. eapply by_incarnation_same. by apply list_elem_of_In.
Qed.

(** An envelope that releases live claims of one incarnation is published *)
Lemma release_succeeds registry db message sender c cs :
  bus_inv db -> releasable (c :: cs) -> NoDup (map co_resource (c :: cs)) ->
  (forall d, d ∈ c :: cs -> holders db !! co_resource d = Some d /\ owner_live registry d = true) ->
  cr_validated message = Ok sender -> (forall seq, exists id, cr_prepared message seq = Ok id) ->
  exists t db', publish_claim_transition message (co_incarnation c) (ReleasedClaims (map release_of (c :: cs)))
                  registry db = (Ok t, db').
Proof.
  intros [Hwf _] [Hlen [i Hi]] Hnd Hheld Hvalid Hprep. unfold publish_claim_transition. rewrite Hvalid.
  destruct (Hprep (cb_last db + 1)) as [id Hid]. unfold insert_claim. rewrite Hid. cbn [mbind result_bind].
  set (t0 := mkClaimTransition _ _ _ _ _ _).
  assert (Hpost : transition_post_init t0 = Ok tt).
  { unfold transition_post_init. change (resources t0) with (map rl_resource (map release_of (c :: cs))).
    rewrite release_resource_of, length_map. rewrite (bool_decide_eq_false_2 (map co_resource (c :: cs) = [])) by discriminate.
    rewrite (proj2 (Nat.ltb_ge _ _)) by done. by rewrite bool_decide_eq_true_2. }
  rewrite Hpost. cbn [mbind result_bind].
  assert (Ht : exists t, prepare_claim db t0 registry = Ok t).
  { unfold prepare_claim. rewrite all_claims_current by done. cbn [mbind result_bind].
    unfold apply_transition. rewrite live_in_current by done. cbn [mbind result_bind].
    destruct (project_succeeds (with_expired t0 []) (live_claims db registry)) as [p Hp].
    - change (resources (with_expired t0 [])) with (map rl_resource (map release_of (c :: cs))).
      by rewrite release_resource_of.
    - pose proof (current_last db Hwf) as Hlast. simpl in *. lia.
    - intros r o [Ho _]%map_lookup_filter_Some. by apply (current_keyed db Hwf).
    - intros x (d & -> & Hd)%list_elem_of_fmap. split; [apply not_elem_of_nil|]. destruct (Hheld d Hd) as [Hr Hl].
      exists d. split; [by apply map_lookup_filter_Some|]. split; [|done]. rewrite Forall_forall in Hi.
      rewrite (Hi d Hd). symmetry. apply Hi. left.
    - cbn [mbind result_bind require_holders claims ct_change t0 each]. rewrite Hp. simpl. eauto. }
  destruct Ht as [t Ht]. rewrite Ht. cbn [mbind result_bind].
  destruct (prepared_commits db Hwf registry t0 t eq_refl Hpost Ht) as [db' Hdb']. rewrite Hdb'. simpl.
  destruct (prepare_claim_ok _ _ _ _ Ht) as [e ->].
  destruct (append_ok db Hwf (with_expired t0 e) eq_refl db' Hdb') as (_ & _ & _ & _ & Hrows & _).
  exists (with_expired t0 e), db'. rewrite Hrows.
  change (cb_last db + 1) with (ct_seq (with_expired t0 e)). by rewrite lookup_insert_eq.
Qed.

Lemma NoDup_filter_map {A B : Type} (f : A -> B) (keep : A -> bool) xs :
  NoDup (map f xs) -> NoDup (map f (List.filter keep xs)).
Proof.
  induction xs as [|x xs IH]; simpl; [done|]. intros [Hx Hnd]%NoDup_cons. destruct (keep x); simpl; [|auto].
  constructor; [|auto]. intros (y & Heq & [Hy _]%list_elem_of_In%filter_In)%list_elem_of_fmap.
  apply Hx. rewrite Heq. apply list_elem_of_fmap_2. by apply list_elem_of_In.
Qed.

Lemma publish_releases_succeed registry request batches db :
  accepts request -> bus_inv db -> Forall releasable batches -> NoDup (map co_resource (concat batches)) ->
  (forall d, d ∈ concat batches -> holders db !! co_resource d = Some d /\ owner_live registry d = true) ->
  exists db', publish_releases request registry batches db = (Ok tt, db').
Proof.
  intros Haccept. revert db. induction batches as [|[|c cs] rest IH]; intros db Hinv Hgood Hnd Hheld.
  - simpl. eauto.
  - simpl in *. apply IH; [done| |done..]. by apply Forall_cons in Hgood as [].
  - apply Forall_cons in Hgood as [Hb Hgood]. destruct (Haccept (co_owner c)) as (message & sender & Hrq & Hv & Hp).
    change (concat ((c :: cs) :: rest)) with ((c :: cs) ++ concat rest) in Hnd, Hheld.
    rewrite map_app in Hnd. apply NoDup_app in Hnd as (Hnd & Hdisj & Hrest).
    destruct (release_succeeds registry db message sender c cs) as (t & db1 & E); [done..| |done|done|].
    { intros d Hd. apply Hheld. rewrite elem_of_app. by left. }
    simpl. rewrite Hrq. simpl in E. rewrite E.
    apply (release_call registry _ _ _ (map release_of (c :: cs))) in E as (Hinv1 & _ & Hkeep & _); [|done].
    rewrite release_resource_of in Hkeep. apply IH; [done..|]. intros d Hd.
    destruct (Hheld d) as [Ho Hl]; [rewrite elem_of_app; by right|]. split; [|done].
    apply Hkeep; [done..|]. intros Hin. apply (Hdisj _ Hin). by apply list_elem_of_fmap_2.
Qed.

(** Settling an attempt releases its files: when the envelopes are accepted, releasing
    the resources of an attempt returns; afterwards no claim of the attempt is live, and
    every live claim of anything else is held as before. *)
Theorem attempt_resources_released (db : ClaimTables) (registry : RegistryClaims)
    (request : string -> outcome ClaimRequest) (attempt : AttemptRecord) :
  bus_reachable db -> accepts request ->
  exists db', release_attempt_resources request registry attempt db = (Ok tt, db') /\
    (forall r o, owner_for db' r = Ok (Some o) -> owner_live registry o = true ->
       belongs_to (co_scope o) attempt = false) /\
    (forall r o, owner_for db r = Ok (Some o) -> owner_live registry o = true ->
       belongs_to (co_scope o) attempt = false -> owner_for db' r = Ok (Some o)).
Proof.
  intros Hreach Haccept. destruct (bus_reachable_inv _ Hreach) as [Hwf Hh]. unfold release_attempt_resources.
  rewrite all_claims_current by done. cbn [mbind result_bind]. rewrite live_in_current by done.
  set (owned := List.filter _ _).
  assert (Howned : forall c, c ∈ owned <-> holders db !! co_resource c = Some c /\ owner_live registry c = true /\
    belongs_to (co_scope c) attempt = true).
  { intros c. unfold owned. rewrite list_elem_of_In, filter_In, <- list_elem_of_In, list_elem_of_fmap.
    setoid_rewrite items_perm. split.
    - intros [([r o] & -> & [Ho Hl]%elem_of_map_to_list%map_lookup_filter_Some) Hb]. simpl.
      destruct (holder_fields _ Hwf _ _ Ho) as [-> _]. done.
    - intros (Ho & Hl & Hb). split; [|done]. exists (co_resource c, c). split; [done|].
      by apply elem_of_map_to_list, map_lookup_filter_Some. }
  assert (Hcurrent : still_current db owned = Ok owned).
  { apply still_current_all; [done|]. intros c Hc. by apply Howned. }
  assert (Hnd : NoDup (map co_resource owned)).
  { apply NoDup_filter_map. change (NoDup (co_resource <$> (snd <$> items (cp_claims (live_claims db registry))))).
    rewrite items_perm, <- list_fmap_compose.
    rewrite (list_fmap_ext _ fst); [apply NoDup_fst_map_to_list|].
    intros i [r o] [Ho _]%list_elem_of_lookup_2%elem_of_map_to_list%map_lookup_filter_Some.
    simpl. by destruct (holder_fields _ Hwf _ _ Ho) as [-> _]. }
  assert (Hdone : exists db', release_resources request registry owned db = (Ok tt, db')).
  { unfold release_resources. rewrite Hcurrent. apply publish_releases_succeed; [done|by split| | |].
    - apply release_batches_releasable.
    - by rewrite release_batches_concat.
    - intros d. rewrite release_batches_concat. intros (? & ? & _)%Howned. done. }
  destruct Hdone as [db1 Hdb1]. exists db1.
  assert (Hresult : match owned with [] => (Ok tt, db) | _ :: _ => release_resources request registry owned db end = (Ok tt, db1)).
  { destruct owned; [|done]. cbn in Hdb1. congruence. }
  split; [by destruct owned|].
  destruct (release_effect db db1 registry request owned (Ok tt) Hreach Hdb1) as (Hsub & Hkept & Hgone). split.
  - intros r o Ho Hl. destruct (belongs_to (co_scope o) attempt) eqn:Hb; [|done]. exfalso.
    apply Hsub in Ho as Ho'. rewrite owner_for_holders in Ho' by done. injection Ho' as Ho'.
    destruct (holder_fields _ Hwf _ _ Ho') as [Hr _]. subst r.
    apply (Hgone eq_refl o); [|done]. by apply Howned.
  - intros r o Ho Hl Hb. apply Hkept; [done..|]. intros (_ & _ & Hb')%Howned. congruence.
Qed.
