(* ===== verification/ClaimLiveness.v ===== *)
(** * Resource claims and the registry

    Composes the registry of threads with the resource claims: what a registry cut answers
    about the owner of a claim ([ClaimOwner.live] through [RegistrySnapshot.threads_for]), and
    that withdrawing a thread ends its claims for good. *)

From stdpp Require Import base gmap strings list relations.
From Stdlib Require Import ZArith Lia.
From S2P Require Import Prelude Contracts ThreadStatus Threads RegistryDocument Registration.
From S2P Require Import RegistrySteps RegistryRuns RegistryHistory RegistryTurns RegistryGuarantees.
From S2P Require Import EnvelopeClaims.

(** ** What a registry cut answers *)

(** [RegistrySnapshot.active_threads] of the threads a recorded incarnation selects, those
    with a live process, and their claim generations; the reading of the recorded birth
    ([float(self.incarnation)]) is an argument *)
Definition registry_claims (float_of : string -> Z) (ob : Observation) (d : RegistryDocument) : RegistryClaims :=
  fun name incarnation =>
    flat_map (fun t =>
      match status ob d (th_name t), claim_generation d (th_name t) with
      | Ok s, Ok g => if active_presence s && alive ob (th_process t) then [g] else []
      | _, _ => []
      end) (threads_for d name (float_of incarnation)).

(** ** Withdrawing *)

(** The threads a call withdraws from their owners *)
Definition withdrawn_names (c : RegistryCall) : list string :=
  match c with
  | UnregisterCall name | FenceOwnerCall name | ArchiveCall name | BeginDeleteCall name | RemoveCall name => [name]
  | ArchiveOriginalsCall originals | BeginDeleteOriginalsCall originals | RemoveOriginalsCall originals =>
      map th_name originals
  | FenceRestartCall selected => map (fun item => th_name item.1) selected
  | _ => []
  end.

(** An operation on a thread after which it holds none of its earlier claim generations *)
Definition passing (name : string) (m : Reg unit) : Prop :=
  forall d u d' birth g, document_wf d -> runs m d u d' -> leads_to d name birth ->
    g <= gc_counter (rd_claims d) -> ~ holds ClaimCounter d' birth g.

Lemma leads_row d name t birth :
  document_wf d -> require_thread d name = Ok t -> leads_to d name birth ->
  birth = th_birth t /\ rd_threads d !! th_name t = Some t.
Proof.
  intros Hwf Ht (u & Hu & <-). destruct (require_thread_ok d name t Hwf Ht) as [Hc Hrow]. rewrite <- Hc in Hu.
  split; [congruence | done].
Qed.

Section passing.
Context (ob : Observation).

(** Closes a withdrawal that touches its thread *)
Ltac passed := match goal with
  | Ht : require_thread ?d ?name = Ok ?t, Hl : leads_to ?d ?name _ |- _ =>
      destruct (leads_row d name t _ ltac:(assumption) Ht Hl) as [-> ?];
      apply touched_passes; [done | done | | done | done]; rewrite ?bound_birth
  end.

Lemma withdrawn_birth t : th_birth (withdrawn t) = th_birth t.
Proof. unfold withdrawn. by destruct (th_execution t). Qed.

Lemma unregister_passing name : passing name (unregister ob name).
Proof.
  intros d u d' birth g Hwf (t & s & Ht & _ & _ & ->)%unregister_runs Hl Hg; [|done]. passed.
  by rewrite withdrawn_birth, bound_birth.
Qed.

Lemma fence_owner_passing name : passing name (fence_owner ob name).
Proof. intros d u d' birth g Hwf (t & s & Ht & _ & _ & ->)%fence_owner_runs Hl Hg; [|done]. by passed. Qed.

Lemma archive_passing name : passing name (archive ob name).
Proof. intros d u d' birth g Hwf (t & s & Ht & _ & ->)%archive_runs Hl Hg; [|done]. by passed. Qed.

Lemma begin_delete_passing name : passing name (begin_delete ob name).
Proof. intros d u d' birth g Hwf (t & s & Ht & _ & _ & ->)%begin_delete_runs Hl Hg; [|done]. by passed. Qed.

Lemma fence_restart_passing expected claimed :
  passing (th_name expected) (_ ← fence_restart_owner ob expected claimed; mret tt).
Proof.
  intros d u d' birth g Hwf H Hl Hg. run_all.
  match goal with Hr : runs (fence_restart_owner _ _ _) _ _ _ |- _ =>
    apply fence_restart_runs in Hr as (t & Ht & _ & _ & _ & _ & ->); [|done] end.
  destruct Hl as (v & Hv & <-). rewrite (canonical_row d _ t Hwf Ht) in Hv. assert (v = t) as -> by congruence.
  apply touched_passes; [done | done | by rewrite bound_birth | done | done].
Qed.

Lemma remove_thread_passing name : passing name (remove_thread ob name).
Proof.
  intros d u d' birth g Hwf (t & owned & Ht & ->)%remove_runs Hl Hg; [|done].
  destruct (leads_row d name t birth Hwf Ht Hl) as [-> Hrow]. intros (n & v & Hv & Hb & _). simpl in Hv.
  apply lookup_delete_Some in Hv as [Hne (v0 & Hv0 & ->)%reparent_some]. rewrite reparented_birth in Hb.
  by apply Hne, (dw_births d Hwf (th_name t) n t v0).
Qed.

Lemma remove_passing name : passing name (remove ob name).
Proof. intros d u d' birth g Hwf H Hl Hg. unfold remove in H. run_all. by eapply remove_thread_passing. Qed.
End passing.

(** ** Groups *)

(** Through any steps a thread keeps its names, or the generations it held are passed *)
Lemma leads_or_passed d d' name birth g :
  document_wf d -> rtc (doc_step true) d d' -> leads_to d name birth -> g <= gc_counter (rd_claims d) ->
  leads_to d' name birth \/ ~ holds ClaimCounter d' birth g.
Proof.
  intros Hwf H. revert Hwf. induction H as [d|d d1 d2 Hstep Hrest IH]; [by left|]. intros Hwf Hl Hg.
  assert (document_wf d1) as Hwf1 by (by eapply doc_step_wf).
  assert (g <= gc_counter (rd_claims d1)) as Hg1.
  { pose proof (doc_step_counter ClaimCounter d d1 Hwf Hstep). simpl in *. lia. }
  destruct (doc_step_leads d d1 name birth Hwf Hstep Hl) as [Hl1|Hgone]; [by apply IH|].
  right. apply (passed_forever (removes := true) ClaimCounter d1); [done | done | done |]. intros (n & t & Ht & Hb & _).
  apply Hgone, elem_of_births. eauto.
Qed.

Lemma each_passing {A : Type} {removes : bool} (f : A -> Reg unit) (name_of : A -> string) xs x :
  (forall y, stepping removes (f y)) -> (forall y, passing (name_of y) (f y)) -> x ∈ xs ->
  passing (name_of x) (reg_each f xs).
Proof.
  intros Hstep Hpass Hin d u d' birth g Hwf H Hl Hg.
  assert (forall d1 d2, rtc (doc_step removes) d1 d2 -> rtc (doc_step true) d1 d2) as Hweak.
  { intros d1 d2. apply rtc_subrel. intros e1 e2. apply doc_step_weaken. }
  assert (forall ys d1 u1 d2 b, document_wf d1 -> runs (reg_each f ys) d1 u1 d2 -> g <= gc_counter (rd_claims d1) ->
            ~ holds ClaimCounter d1 b g -> ~ holds ClaimCounter d2 b g) as Hkeep.
  { intros ys d1 u1 d2 b Hwf1 H1 Hg1. apply (passed_forever (removes := removes) ClaimCounter d1); [done | | done].
    by eapply (stepping_each (removes := removes)). }
  revert d Hwf H Hl Hg. induction xs as [|y rest IH]; intros d Hwf H Hl Hg; [by apply elem_of_nil in Hin|].
  simpl in H. apply runs_bind in H as (v & d1 & Hy & Hrest).
  assert (rtc (doc_step removes) d d1) as Hs by (by eapply Hstep).
  assert (document_wf d1) as Hwf1 by (by eapply doc_steps_wf).
  assert (g <= gc_counter (rd_claims d1)) as Hg1.
  { pose proof (doc_steps_counter ClaimCounter d d1 Hwf Hs). simpl in *. lia. }
  apply elem_of_cons in Hin as [->|Hin].
  { apply (Hkeep rest d1 u d'); [done | done | done |]. by apply (Hpass y d v d1). }
  destruct (leads_or_passed d d1 (name_of x) birth g Hwf (Hweak _ _ Hs) Hl Hg) as [Hl1|Hgone]; [by apply (IH Hin d1)|].
  by apply (Hkeep rest d1 u d').
Qed.

(** What only reads keeps the document, and the group operations walk it *)
Lemma originals_same originals d u d' : runs (require_originals originals) d u d' -> d' = d.
Proof. apply reading_each. intros. by run_all. Qed.

Lemma call_passing ob c name : name ∈ withdrawn_names c -> passing name (call_operation ob c).
Proof.
  intros Hin. assert (forall n, name ∈ [n] -> name = n) as Hone by (intros n [->|?%elem_of_nil]%elem_of_cons; done).
  destruct c; simpl in *; try (by apply elem_of_nil in Hin); try apply Hone in Hin as ->.
  - apply unregister_passing.
  - apply fence_owner_passing.
  - apply list_elem_of_fmap in Hin as (x & -> & Hx).
    apply (each_passing (removes := false) _ (fun item : Thread * Z => th_name item.1)); [..|done].
    + intros y. stepping.
    + intros y. apply fence_restart_passing.
  - apply archive_passing.
  - apply list_elem_of_fmap in Hin as (x & -> & Hx). intros d u d' birth g Hwf H. unfold archive_originals in H. run_all.
    match goal with Ho : runs (require_originals _) _ _ _ |- _ => apply originals_same in Ho as -> end. revert H.
    apply (each_passing (removes := false) _ th_name); [intros y; stepping | | done | done].
    intros y d0 u0 d0' b0 g0 Hwf0 H0. run_all. by eapply archive_passing.
  - apply begin_delete_passing.
  - apply list_elem_of_fmap in Hin as (x & -> & Hx). intros d u d' birth g Hwf H. unfold begin_delete_originals in H. run_all.
    match goal with Ho : runs (require_originals _) _ _ _ |- _ => apply originals_same in Ho as -> end. revert H.
    apply (each_passing (removes := false) _ th_name); [intros y; stepping | | done | done].
    intros y. apply begin_delete_passing.
  - apply remove_passing.
  - apply list_elem_of_fmap in Hin as (x & -> & Hx). intros d u d' birth g Hwf H. unfold remove_originals in H. run_all.
    match goal with Ho : runs (require_originals _) _ _ _ |- _ => apply originals_same in Ho as -> end.
    match goal with Ho : runs (reg_each _ _) _ _ ?y |- _ =>
      lazymatch y with d' => fail | _ => apply reading_each in Ho; [subst | by intros; run_all] end end.
    revert H. apply (each_passing (removes := true) _ th_name); [intros y; stepping | | done | done].
    intros y. apply remove_thread_passing.
Qed.

(** ** Liveness of claims *)

(** A live claim is held at a generation its thread has *)
Lemma live_holds float_of ob d o :
  document_wf d -> owner_live (registry_claims float_of ob d) o = true ->
  exists g, held_at (co_scope o) g = true /\ holds ClaimCounter d (float_of (co_incarnation o)) g.
Proof.
  intros Hwf (g & Hg & Hheld)%existsb_exists. exists g. split; [done|].
  apply in_flat_map in Hg as (t & Ht & Hg). unfold threads_for in Ht.
  destruct (rd_threads d !! canonical_name d (co_owner o)) as [u|] eqn:Eu; [|done].
  destruct (Z.eqb_spec (th_birth u) (float_of (co_incarnation o))) as [E|]; [|done].
  destruct Ht as [->|[]]. pose proof (row_name _ _ (dw_rows d Hwf _ _ Eu)) as Hn.
  destruct (status ob d (th_name t)); [|done].
  destruct (claim_generation d (th_name t)) as [g0|] eqn:Eg; [|done].
  destruct (active_presence _ && alive _ _); [|done]. destruct Hg as [->|[]].
  exists (th_name t), t. rewrite Hn in *. split; [done|]. split; [done|]. unfold claim_generation in Eg.
  rewrite (canonical_row d _ t Hwf Eu) in Eg. simpl. ok_inv. done.
Qed.

Lemma held_at_unique s g1 g2 : held_at s g1 = true -> held_at s g2 = true -> g1 = g2.
Proof. unfold held_at. destruct (recorded s); [|done]. intros. bools. congruence. Qed.

(** C21: Once a call that unregisters, fences, archives, deletes or removes a thread, or
    fences it for a restart, alone or in a group, has returned, no claim the thread held in
    any registry before is live in any registry after, under any observation of the clock
    and the processes. *)
Theorem withdrawn_claims_dead (float_of : string -> Z) (r0 r r1 r2 : Registry) (ob0 ob ob2 : Observation)
    (c : RegistryCall) (name : string) (o : ClaimOwner) :
  registry_reachable r0 -> rtc registry_step r0 r ->
  owner_live (registry_claims float_of ob0 (rg_document r0)) o = true ->
  leads_to (rg_document r) name (float_of (co_incarnation o)) -> name ∈ withdrawn_names c ->
  registry_call ob c r = (Ok tt, r1) -> rtc registry_step r1 r2 ->
  owner_live (registry_claims float_of ob2 (rg_document r2)) o = false.
Proof.
  intros Hr0 H0 Hlive Hl Hin Hcall H2. pose proof (reachable_document_wf _ Hr0) as Hwf0.
  destruct (live_holds _ _ _ _ Hwf0 Hlive) as (g & Hg & Hh).
  apply registry_steps_wf in H0 as [Hs0 Hwf]; [|done].
  assert (registry_call ob c r = editing (call_operation ob c) r) as E by (destruct c; try done; by apply elem_of_nil in Hin).
  rewrite E in Hcall. assert (registry_step r r1) as Hstep by (exists ob, c; by rewrite E, Hcall).
  apply editing_ok in Hcall as [Hrun _].
  pose proof (holds_bound ClaimCounter _ Hwf0 _ _ Hh) as Hb0.
  pose proof (doc_steps_counter ClaimCounter _ _ Hwf0 Hs0) as Hc0. simpl in Hb0, Hc0.
  assert (~ holds ClaimCounter (rg_document r1) (float_of (co_incarnation o)) g) as Hn1
    by (eapply call_passing; [done | exact Hwf | exact Hrun | done | lia]).
  apply rtc_once in Hstep. apply registry_steps_wf in Hstep as [Hs1 Hwf1]; [|done].
  apply registry_steps_wf in H2 as [Hs2 Hwf2]; [|done].
  pose proof (doc_steps_counter ClaimCounter _ _ Hwf Hs1) as Hc1. simpl in Hc1.
  assert (~ holds ClaimCounter (rg_document r2) (float_of (co_incarnation o)) g) as Hn2
    by (eapply passed_forever; [exact Hwf1 | exact Hs2 | simpl; lia | done]).
  apply not_true_is_false. intros E2. apply Hn2.
  destruct (live_holds _ _ _ _ Hwf2 E2) as (g' & Hg' & Hh'). by rewrite (held_at_unique _ _ _ Hg Hg').
Qed.
