(* ===== verification/Delivery.v ===== *)
(** * Committed deliveries

    Models what acceptance reads of a committed bus original: the frozen recipients
    ([frozen_recipient.py], [participant_identity.py]), the audience value and its
    construction checks ([audience_manifest.py], [bus_publication.Delivered]) and the
    canonical JSON text ([FieldCodec.compact]) whose SHA-256 identifies the audience and
    the wake decisions ([cohort_schema.ClaimBatchAcknowledgements.decision_hash]). *)

From stdpp Require Import base gmap strings list sorting pretty.
From Stdlib Require Import ZArith Lia Ascii.
From S2P Require Import Prelude Contracts WakePolicy Rows Sha256.

(** ** Canonical JSON *)

#[local] Set Warnings "-register-all".

(** The JSON values that are digested *)
Inductive Json : Type :=
| JText (text : string)
| JNumber (value : Z)
| JArray (items : list Json)
| JObject (fields : list (string * Json)).

(** Hexadecimal digits of a control character, as in [\u001f] *)
Definition control_escape (code : N) : string :=
  "\u00" +:+ Sha256.hex_of 2 (Z.of_N code) "".

(** [json.dumps] of one character with [ensure_ascii=False] *)
Definition escape_char (c : ascii) : string :=
  let code := N_of_ascii c in
  if (code =? 34)%N then "\" +:+ String c ""
  else if (code =? 92)%N then "\\"
  else if (code =? 10)%N then "\n"
  else if (code =? 13)%N then "\r"
  else if (code =? 9)%N then "\t"
  else if (code =? 12)%N then "\f"
  else if (code =? 8)%N then "\b"
  else if (code <? 32)%N then control_escape code
  else String c "".

Fixpoint escape (text : string) : string :=
  match text with
  | EmptyString => ""
  | String c rest => escape_char c +:+ escape rest
  end.

Definition quote_mark : string := String (ascii_of_nat 34) "".

Definition quoted (text : string) : string := quote_mark +:+ escape text +:+ quote_mark.

Definition joined (parts : list string) : string := String.concat "," parts.

Definition first_le (a b : string * string) : Prop := String.leb a.1 b.1 = true.
#[export] Instance first_le_dec : RelDecision first_le.
Proof. intros a b. unfold first_le. apply _. Defined.

(** [FieldCodec.compact(value, sort_keys=True, ensure_ascii=False, allow_nan=False)] *)
Fixpoint compact (value : Json) : string :=
  match value with
  | JText text => quoted text
  | JNumber z => pretty z
  | JArray items => "[" +:+ joined (map compact items) +:+ "]"
  | JObject fields =>
      let encoded := map (fun kv => (fst kv, compact (snd kv))) fields in
      "{" +:+ joined (map (fun kv : string * string => quoted kv.1 +:+ ":" +:+ kv.2)
                          (merge_sort first_le encoded)) +:+ "}"
  end.

(** ** Frozen recipients *)

(** [str.isspace] below code point 256 *)
Definition is_space (c : ascii) : bool :=
  let code := Z.of_N (N_of_ascii c) in
  ((9 <=? code) && (code <=? 13)) || ((28 <=? code) && (code <=? 32))
  || (code =? 133) || (code =? 160).

(** [re.fullmatch(r"[a-zA-Z0-9_-]+", value)], one character *)
Definition is_name_char (c : ascii) : bool :=
  let code := Z.of_N (N_of_ascii c) in
  ((97 <=? code) && (code <=? 122)) || ((65 <=? code) && (code <=? 90))
  || ((48 <=? code) && (code <=? 57)) || (code =? 95) || (code =? 45).

Fixpoint all_chars (p : ascii -> bool) (s : string) : bool :=
  match s with EmptyString => true | String c rest => p c && all_chars p rest end.

(** [ParticipantIdentity.require_text] *)
Definition require_text (value label : string) : outcome unit :=
  _ ← refuse (bool_decide (value = "") || (MAX_IDENTIFIER_CHARS <? len value))
      (MalformedRecord (label +:+ " must be a bounded nonempty string"));
  refuse (all_chars is_space value) (MalformedRecord (label +:+ " must not be whitespace")).

(** [ParticipantIdentity.require_canonical] *)
Definition require_canonical (value label : string) : outcome unit :=
  _ ← require_text value label;
  require (all_chars is_name_char value)
    (MalformedRecord (label +:+ " must be a canonical thread name")).

Record FrozenRecipient : Type := mkFrozenRecipient {
  fr_lookup : string;
  fr_canonical_thread : string;
}.

#[export] Instance FrozenRecipient_eq_dec : EqDecision FrozenRecipient.
Proof. solve_decision. Defined.

Definition recipient_post_init (r : FrozenRecipient) : outcome unit :=
  _ ← require_text (fr_lookup r) "recipient_lookup";
  require_canonical (fr_canonical_thread r) "canonical_thread".

(** ** Delivered originals *)

(** A [Delivered] bus record.  [dl_reply_target] is its message's [exact_reply_target] and
    [dl_envelope] its [wire_envelope_digest], the digest of the message's public wire form;
    both are functions of message fields that the coordinator does not read. *)
Record Delivered : Type := mkDelivered {
  dl_message : Message;
  dl_reply_target : string;
  dl_recipients : list FrozenRecipient;
  dl_decisions : list RecipientDecision;
  dl_sender_lookup : string;
  dl_source_revision : string;
  dl_envelope : string;
}.

Definition MAX_RECIPIENTS : Z := 4096.
Definition MAX_AUDIENCE_BYTES : Z := 1024 * 1024.
Definition MAX_WIRE_SEQ : Z := Z.shiftl 1 63 - 1.
Definition AUDIENCE_VERSION : Z := 1.

(** [channel_targets.exact_stored_target]: of the built-in channels only [#any] is a view. *)
Definition exact_stored_target (name : string) : bool := negb (bool_decide (name = "#any")).

Definition lookup_le (a b : FrozenRecipient) : Prop := String.leb (fr_lookup a) (fr_lookup b) = true.
#[export] Instance lookup_le_dec : RelDecision lookup_le.
Proof. intros a b. unfold lookup_le. apply _. Defined.

(** [AudiencedMessage.__post_init__] and [Delivered.__post_init__] *)
Definition delivery_post_init (d : Delivered) : outcome unit :=
  let m := dl_message d in
  let lookups := map fr_lookup (dl_recipients d) in
  let names := map fr_canonical_thread (dl_recipients d) in
  _ ← require ((0 <? msg_seq m) && (msg_seq m <=? MAX_WIRE_SEQ))
      (MalformedRecord "wire_seq must be a positive SQLite-range integer");
  _ ← require_text (msg_target m) "target";
  _ ← require_text (dl_source_revision d) "source_revision";
  _ ← require_canonical (msg_sender m) "sender_name";
  _ ← require (exact_stored_target (msg_target m))
      (MalformedRecord "aggregate views are not exact stored targets");
  _ ← refuse (MAX_RECIPIENTS <? Z.of_nat (length (dl_recipients d)))
      (MalformedRecord "recipients must be a bounded immutable tuple");
  _ ← require (bool_decide (merge_sort lookup_le (dl_recipients d) = dl_recipients d))
      (MalformedRecord "recipients must be ordered by stable lookup");
  _ ← require (bool_decide (NoDup lookups) && bool_decide (NoDup names))
      (MalformedRecord "frozen recipient lookups and canonical names must be unique");
  _ ← refuse (bool_decide (dl_sender_lookup d ∈ lookups) || bool_decide (msg_sender m ∈ names))
      (MalformedRecord "the sender cannot be an eligible recipient");
  refuse (negb (bool_decide (length (dl_decisions d) = length (dl_recipients d))))
    (ValueError "Frozen recipients and their decisions must have equal length").

(** ** Content identities *)

(** A domain label and its terminating NUL *)
Definition domain (label : string) : string := label +:+ String (ascii_of_nat 0) "".

(** [AudiencedMessage._digest_record] *)
Definition digest_record (d : Delivered) : Json :=
  let m := dl_message d in
  JObject [("version", JNumber AUDIENCE_VERSION);
           ("wire_seq", JNumber (msg_seq m));
           ("message_id", JText (msg_id m));
           ("exact_target", JText (msg_target m));
           ("sender_lookup", JText (dl_sender_lookup d));
           ("sender_name", JText (msg_sender m));
           ("source_revision", JText (dl_source_revision d));
           ("recipients", JArray (map (fun r =>
              JObject [("recipient_lookup", JText (fr_lookup r));
                       ("canonical_thread", JText (fr_canonical_thread r))])
              (dl_recipients d)));
           ("wire_envelope_digest", JText (dl_envelope d))].

(** [AudiencedMessage.digest] *)
Definition audience_digest (d : Delivered) : outcome string :=
  let encoded := compact (digest_record d) in
  _ ← refuse (MAX_AUDIENCE_BYTES <? Z.of_nat (length (utf8 encoded)))
      (MalformedRecord "audience data exceeds its byte limit");
  Ok (Sha256.sha256_hex (domain "agent-comms:audience:v1" +:+ encoded)).

(** [RecipientDecision.to_wire] as a JSON object *)
Definition decision_json (d : RecipientDecision) : Json :=
  JObject (map (fun kv : string * string => (kv.1, JText kv.2)) (map_to_list (decision_to_wire d))).

(** [ClaimBatchAcknowledgements.decision_hash] *)
Definition decision_hash (d : Delivered) : outcome string :=
  let encoded := compact (JArray (map decision_json (dl_decisions d))) in
  _ ← refuse (MAX_AUDIENCE_BYTES <? Z.of_nat (length (utf8 encoded)))
      (ValueError "Private decision set exceeds its byte bound.");
  Ok (Sha256.sha256_hex (domain "agent-comms:cohort-decisions:v1" +:+ encoded)).

Example compact_sorts_keys :
  compact (JObject [("b", JArray [JNumber 2; JText "x"]); ("a", JText "y")])
  = "{" +:+ quoted "a" +:+ ":" +:+ quoted "y" +:+ "," +:+ quoted "b" +:+ ":[2," +:+ quoted "x" +:+ "]}".
Proof. vm_compute. reflexivity. Qed.

(** ** Facts *)

Lemma require_text_ok value label :
  require_text value label = Ok tt -> 1 <= len value <= 256.
Proof.
  unfold require_text. intros H. ok_inv. bools.
  apply identifier_length. unfold MAX_IDENTIFIER_CHARS in *. split; [done|lia].
Qed.

(** What a constructed delivery guarantees to acceptance. *)
Record delivery_wf (d : Delivered) : Prop := {
  dw_seq : 0 < msg_seq (dl_message d);
  dw_target : 1 <= len (msg_target (dl_message d)) <= 256;
  dw_bounded : Z.of_nat (length (dl_recipients d)) <= MAX_RECIPIENTS;
  dw_lookups : NoDup (map fr_lookup (dl_recipients d));
  dw_names : NoDup (map fr_canonical_thread (dl_recipients d));
  dw_length : length (dl_decisions d) = length (dl_recipients d);
}.

Lemma delivery_post_init_wf d : delivery_post_init d = Ok tt -> delivery_wf d.
Proof.
  unfold delivery_post_init. intros H. ok_inv. bools.
  repeat match goal with u : unit |- _ => destruct u end.
  match goal with Ht : require_text (msg_target _) _ = Ok _ |- _ => apply require_text_ok in Ht end.
  by split.
Qed.
