(* ===== verification/CohortRows.v ===== *)
(** * Rows of the cohort tables

    Models the row classes of [cohort_schema.py]: the acknowledgement of one accepted
    original, its claim members and its deliveries, the acceptance frontier of a
    recipient and the owner generation captured at acceptance, with the CHECK conditions
    of their columns. *)

From stdpp Require Import base gmap strings list.
From Stdlib Require Import ZArith Lia.
From S2P Require Import Prelude Contracts WakePolicy AssignmentStates Rows Delivery.

(** ** Acknowledgements *)

Record ClaimBatchAcknowledgements : Type := mkClaimBatchAcknowledgements {
  cb_root : string;
  cb_seq : Z;
  cb_message_id : string;
  cb_target : string;
  cb_envelope : string;
  cb_audience : string;
  cb_decisions : string;
  cb_members : Z;
  cb_claims : Z;
  cb_codec : string;
  cb_resolver : string;
  cb_policy : string;
  cb_accepted : Z;
  cb_sealed : bool;
}.

#[export] Instance ClaimBatchAcknowledgements_eq_dec : EqDecision ClaimBatchAcknowledgements.
Proof. solve_decision. Defined.

Definition manifest_format : string := "audience-v1".

Definition acknowledgement_checks (r : ClaimBatchAcknowledgements) : bool :=
  (0 <? cb_seq r) && length_between (cb_target r) 1 256
  && (len (cb_envelope r) =? 64) && (len (cb_audience r) =? 64) && (len (cb_decisions r) =? 64)
  && ((0 <=? cb_members r) && (cb_members r <=? 4096))
  && ((0 <=? cb_claims r) && (cb_claims r <=? cb_members r))
  && length_between (cb_codec r) 1 256 && length_between (cb_resolver r) 1 256
  && length_between (cb_policy r) 1 256 && (0 <=? cb_accepted r).

(** [replace(self, sealed=...)] *)
Definition with_sealed (r : ClaimBatchAcknowledgements) (sealed : bool) : ClaimBatchAcknowledgements :=
  mkClaimBatchAcknowledgements (cb_root r) (cb_seq r) (cb_message_id r) (cb_target r)
    (cb_envelope r) (cb_audience r) (cb_decisions r) (cb_members r) (cb_claims r) (cb_codec r)
    (cb_resolver r) (cb_policy r) (cb_accepted r) sealed.

(** [sum(len(decision.claim_decisions()) for decision in delivery.decisions)] *)
Definition claim_count (decisions : list RecipientDecision) : Z :=
  Z.of_nat (length (flat_map claim_decisions decisions)).

(** [ClaimBatchAcknowledgements.for_delivery]; [namespace] is [privacy.namespace]. *)
Definition for_delivery (d : Delivered) (namespace : string) (accepted_at_ms : Z)
    : outcome ClaimBatchAcknowledgements :=
  audience ← audience_digest d;
  decisions ← decision_hash d;
  Ok (mkClaimBatchAcknowledgements namespace (msg_seq (dl_message d)) (msg_id (dl_message d))
        (msg_target (dl_message d)) (dl_envelope d) audience decisions
        (Z.of_nat (length (dl_recipients d))) (claim_count (dl_decisions d)) manifest_format
        RESOLVER_VERSION POLICY_VERSION accepted_at_ms false).

(** [ClaimBatchAcknowledgements.require_delivery] *)
Definition require_delivery (r : ClaimBatchAcknowledgements) (d : Delivered) (namespace : string)
    : outcome unit :=
  expected ← for_delivery d namespace (cb_accepted r);
  refuse (negb (bool_decide (with_sealed r false = expected)))
    (IdentityConflict "sealed cohort acknowledgement conflicts with committed bus").

(** [ClaimBatchAcknowledgements.require_selected_claim] *)
Definition require_selected_claim (r : ClaimBatchAcknowledgements) (c : WakeAssignment)
    : outcome unit :=
  refuse (negb (cb_sealed r) || negb (bool_decide (cb_message_id r = wa_message_id c)))
    (ProjectionUnavailableError "selected source acknowledgement is unsealed or changed").

(** ** Members and deliveries *)

Record ClaimBatchMembers : Type := mkClaimBatchMembers {
  bm_root : string;
  bm_seq : Z;
  bm_ordinal : Z;
  bm_claim : string;
  bm_lookup : string;
}.

#[export] Instance ClaimBatchMembers_eq_dec : EqDecision ClaimBatchMembers.
Proof. solve_decision. Defined.

Definition member_checks (r : ClaimBatchMembers) : bool := 0 <=? bm_ordinal r.

Inductive DeliveryClaim : Type :=
| SelectedClaim (text : string)
| NoDeliveryClaim.

#[export] Instance DeliveryClaim_eq_dec : EqDecision DeliveryClaim.
Proof. solve_decision. Defined.

(** The [claim_id] column: NULL for an observer *)
Definition claim_column (c : DeliveryClaim) : option string :=
  match c with SelectedClaim text => Some text | NoDeliveryClaim => None end.

(** [SelectedClaim.__post_init__]: [AssignmentIdText] spells one to [BoundedText.max_length]
    characters. *)
Definition delivery_claim_post_init (c : DeliveryClaim) : outcome unit :=
  match c with
  | NoDeliveryClaim => Ok tt
  | SelectedClaim text =>
      require (length_between text 1 4096) (MalformedRecord "AssignmentIdText is spelled BoundedText")
  end.

Record CohortDeliveries : Type := mkCohortDeliveries {
  cd_root : string;
  cd_seq : Z;
  cd_ordinal : Z;
  cd_lookup : string;
  cd_thread : string;
  cd_claim_id : DeliveryClaim;
}.

#[export] Instance CohortDeliveries_eq_dec : EqDecision CohortDeliveries.
Proof. solve_decision. Defined.

Definition cd_claim (r : CohortDeliveries) : option string := claim_column (cd_claim_id r).

Definition delivery_checks (r : CohortDeliveries) : bool :=
  (0 <=? cd_ordinal r) && length_between (cd_thread r) 1 256.

(** ** Frontiers and captured generations *)

Record AcceptanceFrontier : Type := mkAcceptanceFrontier {
  af_root : string;
  af_lookup : string;
  af_through : Z;
}.

#[export] Instance AcceptanceFrontier_eq_dec : EqDecision AcceptanceFrontier.
Proof. solve_decision. Defined.

(** [AcceptanceFrontier.page] *)
Definition frontier_page : Z := 101.

Definition frontier_checks (r : AcceptanceFrontier) : bool := 0 <=? af_through r.

Record AwarenessClaimGenerations : Type := mkAwarenessClaimGenerations {
  ag_claim : string;
  ag_root : string;
  ag_seq : Z;
  ag_owner : string;
  ag_generation : Z;
}.

#[export] Instance AwarenessClaimGenerations_eq_dec : EqDecision AwarenessClaimGenerations.
Proof. solve_decision. Defined.

Definition awareness_checks (r : AwarenessClaimGenerations) : bool :=
  (0 <? ag_seq r) && (0 <? ag_generation r).

(** [AwarenessClaimGenerations.current] *)
Definition awareness_current (r : AwarenessClaimGenerations) (expected : OwnerGenerations)
    : outcome bool :=
  _ ← refuse (negb (bool_decide (ag_owner r = og_lookup expected))
              || (og_generation expected <? ag_generation r))
      (ProjectionUnavailableError "captured participant owner changed");
  Ok (bool_decide (mkOwnerGenerations (ag_owner r) (ag_generation r) = expected)).

(** [AwarenessClaimGenerations.require_selection] *)
Definition require_selection (r : AwarenessClaimGenerations) (c : WakeAssignment)
    (acknowledgement : ClaimBatchAcknowledgements) : outcome unit :=
  let expected := mkAwarenessClaimGenerations (wa_id c) (cb_root acknowledgement) (wa_wire_seq c)
                    (wa_lookup c) (ag_generation r) in
  refuse (negb (bool_decide (r = expected)))
    (ProjectionUnavailableError "selected source generation provenance changed").

(** ** Facts *)

Lemma for_delivery_ok d namespace t r :
  for_delivery d namespace t = Ok r ->
  cb_root r = namespace /\ cb_seq r = msg_seq (dl_message d) /\
  cb_message_id r = msg_id (dl_message d) /\ cb_members r = Z.of_nat (length (dl_recipients d)) /\
  cb_claims r = claim_count (dl_decisions d) /\ cb_resolver r = RESOLVER_VERSION /\
  cb_policy r = POLICY_VERSION /\ cb_accepted r = t /\ cb_sealed r = false.
Proof. unfold for_delivery. intros H. ok_inv. by split_and!. Qed.

(** The time of acceptance is the only part of an acknowledgement that is not the delivery's. *)
Lemma for_delivery_at d namespace t t' r :
  for_delivery d namespace t = Ok r ->
  for_delivery d namespace t' =
    Ok (mkClaimBatchAcknowledgements (cb_root r) (cb_seq r) (cb_message_id r) (cb_target r)
          (cb_envelope r) (cb_audience r) (cb_decisions r) (cb_members r) (cb_claims r) (cb_codec r)
          (cb_resolver r) (cb_policy r) t' false).
Proof.
  unfold for_delivery. destruct (audience_digest d); simpl; [|done].
  destruct (decision_hash d); simpl; [|done]. by intros [= <-].
Qed.

Lemma with_sealed_id r b : cb_sealed r = b -> with_sealed r b = r.
Proof. by destruct r; simpl; intros ->. Qed.

Lemma with_sealed_twice r b b' : with_sealed (with_sealed r b) b' = with_sealed r b'.
Proof. done. Qed.

(** * Harness delivery attempts: outcomes, evidence and rows *)

(** Models [harness_delivery_states.py] (what one attempt to put a message into a harness
    session established) and the row class of [coordination/tables/harness_deliveries.py]. *)

(** ** Outcomes *)

Inductive Outcome : Type :=
| FilteredOutcome | UnconfirmedOutcome | DeliveredOutcome | AcceptedOutcome | PersistedOutcome
| EmittedOutcome.

#[export] Instance Outcome_eq_dec : EqDecision Outcome.
Proof. solve_decision. Defined.

Definition outcome_name (o : Outcome) : string :=
  match o with
  | FilteredOutcome => "filtered" | UnconfirmedOutcome => "unconfirmed"
  | DeliveredOutcome => "delivered" | AcceptedOutcome => "accepted"
  | PersistedOutcome => "persisted" | EmittedOutcome => "emitted"
  end.

(** A subclass of [FilteredOutcome] inherits its [settle]: a settled attempt stays settled. *)
Definition outcome_settled (o : Outcome) : bool :=
  match o with
  | FilteredOutcome | DeliveredOutcome | AcceptedOutcome | PersistedOutcome => true
  | UnconfirmedOutcome | EmittedOutcome => false
  end.

(** [Outcome.members_with(UnconfirmedOutcome)] *)
Definition outcome_unconfirmed (o : Outcome) : bool :=
  match o with UnconfirmedOutcome | EmittedOutcome => true | _ => false end.

(** ** Evidence *)

(** [PrintLedgerId], or no ledger *)
Inductive TakingLedger : Type :=
| NoLedger
| PrintLedgerId (token : string).

#[export] Instance TakingLedger_eq_dec : EqDecision TakingLedger.
Proof. solve_decision. Defined.

(** [ObservedMonitor]'s timestamp is kept in milliseconds, as [Timestamped.at_ms]. *)
Inductive MonitorEvidence : Type :=
| UnrecordedMonitor
| ReceivingMonitor (total : Z)
| LedgerReceivingMonitor (total : Z) (token : string)
| MismatchedMonitor (reason : string)
| ObservedMonitor (record_id : string) (at_ms : Z).

#[export] Instance MonitorEvidence_eq_dec : EqDecision MonitorEvidence.
Proof. solve_decision. Defined.

(** [TakingLedger.receiving] *)
Definition receiving (ledger : TakingLedger) (total : Z) : MonitorEvidence :=
  match ledger with
  | NoLedger => ReceivingMonitor total
  | PrintLedgerId token => LedgerReceivingMonitor total token
  end.

(** [MonitorEvidence.evidence] *)
Definition monitor_evidence (m : MonitorEvidence) (recorded : Outcome) : Outcome * MonitorEvidence :=
  match m with
  | ObservedMonitor _ _ => (DeliveredOutcome, m)
  | _ => (recorded, m)
  end.

(** [MonitorEvidence.claim_steps] *)
Definition claim_steps (m : MonitorEvidence) (s : AssignmentState) : list AssignmentKind :=
  match m with
  | ObservedMonitor _ _ => harness_delivery s
  | _ => []
  end.

(** [MonitorEvidence.taken_under] *)
Definition taken_under (m : MonitorEvidence) (ledger : TakingLedger) : bool :=
  match m with
  | LedgerReceivingMonitor _ token => bool_decide (ledger = PrintLedgerId token)
  | _ => false
  end.

(** ** The row *)

(** [hd_bridge] is the declared name of the bridge's [HarnessSession] class. *)
Record HarnessDelivery : Type := mkHarnessDelivery {
  hd_bridge : string;
  hd_lookup : string;
  hd_message_id : string;
  hd_seq : Z;
  hd_outcome : Outcome;
  hd_monitor : MonitorEvidence;
}.

#[export] Instance HarnessDelivery_eq_dec : EqDecision HarnessDelivery.
Proof. solve_decision. Defined.

Definition hd_reference (r : HarnessDelivery) : MessageReference :=
  mkMessageReference (hd_seq r) (hd_message_id r).

(** [HarnessDelivery.identity] *)
Definition hd_identity (r : HarnessDelivery) : string * string * string :=
  (hd_bridge r, hd_lookup r, hd_message_id r).

Definition harness_checks (r : HarnessDelivery) : bool := 0 <? hd_seq r.
