(* ===== verification/TableGuards.v ===== *)
(** * Mutation capabilities of a typed table

    Models the trigger conditions that [storage/typed_table.py] renders for the
    [MutationCapability] mixins of a row class.  Each definition is the [WHEN] clause
    of one trigger as a boolean on the old and the new values: [true] aborts the
    statement.  A nullable column is an [option]. *)

From stdpp Require Import base gmap strings list.
From Stdlib Require Import ZArith Lia.
From S2P Require Import Prelude Contracts Lifecycle.

(** SQLite's [a IS NOT b] *)
Definition is_not {A : Type} `{!EqDecision A} (a b : A) : bool := negb (bool_decide (a = b)).

Definition present {A : Type} (a : option A) : bool :=
  match a with Some _ => true | None => false end.

(** [FrozenColumns]: some immutable column's new value differs. *)
Definition frozen_violation (changed : list bool) : bool := existsb id changed.

(** [IncrementingColumn] *)
Definition revision_violation (old new : Z) : bool := negb (new =? old + 1).

(** [ColumnOrder.trigger] over one column, with [violation] the subclass's comparison *)
Definition order_violation (violation : Z -> option Z -> bool) (old new : option Z) : bool :=
  match old with Some previous => violation previous new | None => false end.

(** [NonDecreasing] *)
Definition non_decreasing (old new : option Z) : bool :=
  order_violation (fun previous following =>
    match following with None => true | Some f => f <? previous end) old new.

(** [NonIncreasing] *)
Definition non_increasing (old new : option Z) : bool :=
  order_violation (fun previous following =>
    match following with None => true | Some f => previous <? f end) old new.

(** [NonDecreasingWhenPresent] *)
Definition non_decreasing_when_present (old new : option Z) : bool :=
  order_violation (fun previous following =>
    match following with None => false | Some f => f <? previous end) old new.

(** A boolean column is stored as 0 or 1. *)
Definition bit (b : bool) : option Z := Some (if b then 1 else 0).

(** [AccumulatingBits] *)
Definition accumulating_violation (old new : Z) : bool := negb (Z.lor new old =? new).

(** [WriteOnceColumns], over one column *)
Definition write_once_violation {A : Type} `{!EqDecision A} (old new : option A) : bool :=
  present old && is_not new old.

(** [RequiredColumn] *)
Definition required_violation {A B : Type} (dependent : option A) (required : option B) : bool :=
  present dependent && negb (present required).

(** [FirstValueState]: a first value is written only in its declared lifecycle. *)
Definition first_value_violation {A : Type} (old new : option A) (in_state : bool) : bool :=
  negb (present old) && present new && negb in_state.

(** [CounterAdvance], with [blocked] some live dependent of the old counter value *)
Definition counter_violation (old new : Z) (blocked : bool) : bool :=
  negb (new =? old) && (negb (new =? old + 1) || blocked).

Section lifecycle_guards.
Context {K : Type} `{!LifecycleFamily K}.

(** [LifecycleTransitions] *)
Definition edges_violation (old new : K) : bool :=
  negb (bool_decide (declared_name old = declared_name new)) && negb (sql_edges old new).

(** [LifecycleChanges] *)
Definition unchanged_violation (old new : K) : bool :=
  bool_decide (declared_name old = declared_name new).

(** [FinalizedLifecycle] *)
Definition finalized_violation (old new : K) : bool :=
  bool_decide (declared_name old = declared_name new) && is_closed old.
End lifecycle_guards.

(** ** What an accepted write satisfies *)

Section lifecycle_guard_facts.
Context {K : Type} `{!LifecycleFamily K, !LifecycleLaws K}.

Lemma declared_name_eq (k k' : K) : declared_name k = declared_name k' <-> k = k'.
Proof. split; [apply declared_name_inj | congruence]. Qed.

Lemma edges_violation_ok (old new : K) :
  edges_violation old new = false <-> old = new \/ may_become old new = true.
Proof.
  unfold edges_violation. rewrite sql_edges_may_become, andb_false_iff, !negb_false_iff.
  by rewrite bool_decide_eq_true, declared_name_eq.
Qed.

Lemma unchanged_violation_ok (old new : K) : unchanged_violation old new = false <-> old <> new.
Proof. unfold unchanged_violation. by rewrite bool_decide_eq_false, declared_name_eq. Qed.

(** A closed lifecycle accepts no further update at all. *)
Lemma finalized_closed (old new : K) :
  finalized_violation old new = false -> edges_violation old new = false -> is_closed old = false.
Proof.
  rewrite edges_violation_ok. unfold finalized_violation. intros Hfin [->|Hedge].
  - rewrite bool_decide_eq_true_2 in Hfin by done. done.
  - destruct (is_closed old) eqn:E; [|done]. rewrite is_closed_spec in E. by rewrite E in Hedge.
Qed.

(** For every lifecycle family, the generated trigger on lifecycle edges refuses an
    update exactly when the state changes along an undeclared edge, and together with the
    finality trigger refuses every update of a closed row. *)
Theorem lifecycle_trigger_is_may_become (old new : K) :
  (edges_violation old new = false <-> old = new \/ may_become old new = true) /\
  (is_closed old = true -> edges_violation old new || finalized_violation old new = true).
Proof.
  split; [apply edges_violation_ok|]. intros Hclosed. apply not_false_iff_true. intros Hno.
  apply orb_false_iff in Hno as [Hedges Hfin]. by rewrite (finalized_closed old new Hfin Hedges) in Hclosed.
Qed.
End lifecycle_guard_facts.

Lemma revision_violation_ok old new : revision_violation old new = false <-> new = old + 1.
Proof. unfold revision_violation. by rewrite negb_false_iff, Z.eqb_eq. Qed.

Lemma non_decreasing_ok old new :
  non_decreasing (Some old) (Some new) = false <-> old <= new.
Proof. unfold non_decreasing, order_violation. by rewrite Z.ltb_ge. Qed.

Lemma accumulating_ok old new :
  accumulating_violation old new = false <-> Z.lor new old = new.
Proof. unfold accumulating_violation. by rewrite negb_false_iff, Z.eqb_eq. Qed.

(** Every bit once observed stays observed. *)
Lemma accumulating_testbit old new n :
  accumulating_violation old new = false -> Z.testbit old n = true -> Z.testbit new n = true.
Proof.
  rewrite accumulating_ok. intros <- Hbit. by rewrite Z.lor_spec, Hbit, orb_true_r.
Qed.

Lemma write_once_ok {A : Type} `{!EqDecision A} (old : A) (new : option A) :
  write_once_violation (Some old) new = false <-> new = Some old.
Proof. unfold write_once_violation, is_not. simpl. by rewrite negb_false_iff, bool_decide_eq_true. Qed.

Lemma is_not_false {A : Type} `{!EqDecision A} (a b : A) : is_not a b = false <-> a = b.
Proof. unfold is_not. by rewrite negb_false_iff, bool_decide_eq_true. Qed.

Lemma frozen_violation_ok changed :
  frozen_violation changed = false <-> Forall (fun c => c = false) changed.
Proof.
  unfold frozen_violation. induction changed as [|c rest IH]; simpl.
  - by split.
  - rewrite orb_false_iff, IH, Forall_cons. done.
Qed.
