(* ===== verification/Database.v ===== *)
(** * The coordinator database

    The tables of [coordination/tables/] as finite maps from primary keys to rows, the
    triggers, CHECK/UNIQUE constraints and foreign keys of each table, and the two
    statements the stores use: [INSERT] of one row and [UPDATE] of the row with a key.
    [Table] is the interface a row class gives to the statement layer; its instances
    are generated from the class declarations of [coordination/tables/*.py].  The
    stores' updates of a row with a [lifecycle] column always assign it, so the
    [UPDATE OF lifecycle] triggers fire on every one of them. *)

From stdpp Require Import base gmap strings list sorting.
From Stdlib Require Import ZArith Lia.
From S2P Require Import Prelude Contracts Lifecycle WakePolicy AssignmentStates ResponseStates.
From S2P Require Import AttemptStates ExecutionStates Rows TableGuards CohortRows.

(** ** State *)

(** The tables of [cohort_schema.py] share the coordinator file. *)
Record PrivateTables : Type := mkPrivateTables {
  batch_receipts : gmap (string * Z) ClaimBatchAcknowledgements;
  batch_members : gmap (string * Z * Z) ClaimBatchMembers;
  delivery_receipts : gmap (string * Z * Z) CohortDeliveries;
  frontiers : gmap (string * string) AcceptanceFrontier;
  awareness : gmap string AwarenessClaimGenerations;
}.

Record DB : Type := mkDB {
  participants : gmap string Participants;
  owner_generations : gmap string OwnerGenerations;
  current_executions : gmap string CurrentExecutions;
  executions : gmap string ExecutionRecord;
  attempts : gmap (string * Z) AttemptRecord;
  wake_claims : gmap string WakeAssignment;
  execution_claims : gmap (string * Z) ExecutionAssignmentLink;
  obligations : gmap (string * string) ResponseObligation;
  publication_intents : gmap (string * string) PublicationIntents;
  publication_receipts : gmap (string * string) PublicationEvidence;
  replay_assessments : gmap string ReplayAssessments;
  append_dispatches : gmap (string * string) PublicationAppendDispatches;
  recovery_audits : gmap (string * Z) RecoveryAudit;
  harness_deliveries : gmap (string * string * string) HarnessDelivery;
  private_tables : PrivateTables;
}.

Definition empty_db : DB :=
  mkDB ∅ ∅ ∅ ∅ ∅ ∅ ∅ ∅ ∅ ∅ ∅ ∅ ∅ ∅ (mkPrivateTables ∅ ∅ ∅ ∅ ∅).

Abbreviation claim_batch_receipts db := (batch_receipts (private_tables db)).
Abbreviation claim_batch_members db := (batch_members (private_tables db)).
Abbreviation cohort_delivery_receipts db := (delivery_receipts (private_tables db)).
Abbreviation acceptance_frontier db := (frontiers (private_tables db)).
Abbreviation awareness_claim_generations db := (awareness (private_tables db)).

(** ** Queries *)

(** [EXISTS (SELECT 1 FROM table WHERE condition)] *)
Definition map_exists {K A : Type} `{Countable K} (P : A -> bool) (m : gmap K A) : bool :=
  existsb (fun kv => P kv.2) (map_to_list m).

Definition second_le {K B : Type} (le : B -> B -> bool) (k1 k2 : K * B) : Prop :=
  le k1.2 k2.2 = true.

#[export] Instance second_le_dec {K B : Type} (le : B -> B -> bool)
  : RelDecision (second_le (K := K) le).
Proof. intros k1 k2. unfold second_le. apply _. Defined.

(** The rows of one owner (an execution, or a cohort) in the order of the last key column:
    [WHERE execution_id=? ORDER BY <last key>]. *)
Definition select_keys {K B A : Type} `{Countable K} `{Countable B} (le : B -> B -> bool)
    (m : gmap (K * B) A) (owner : K) : list (K * B) :=
  merge_sort (second_le le) (filter (fun k : K * B => k.1 = owner) (elements (dom m))).

Definition select_rows {K B A : Type} `{Countable K} `{Countable B} (le : B -> B -> bool)
    (m : gmap (K * B) A) (owner : K) : list A :=
  omap (fun k => m !! k) (select_keys le m owner).

Definition obligation_rows (db : DB) : string -> list ResponseObligation :=
  select_rows String.leb (obligations db).
Definition intent_rows (db : DB) : string -> list PublicationIntents :=
  select_rows String.leb (publication_intents db).
Definition evidence_rows (db : DB) : string -> list PublicationEvidence :=
  select_rows String.leb (publication_receipts db).
Definition link_rows (db : DB) : string -> list ExecutionAssignmentLink :=
  select_rows Z.leb (execution_claims db).
Definition attempt_rows (db : DB) : string -> list AttemptRecord :=
  select_rows Z.leb (attempts db).
Definition audit_rows (db : DB) : string -> list RecoveryAudit :=
  select_rows Z.leb (recovery_audits db).

(** [coalesce((SELECT max(a.attempt_ordinal) FROM attempts a WHERE ...), 0)] *)
Definition max_ordinal (db : DB) (execution_id : string) : Z :=
  foldr Z.max 0 (map at_ordinal (attempt_rows db execution_id)).

(** [WireOrigin.retry_sql] *)
Definition wire_retry_sql (db : DB) (e : ExecutionRecord) : bool :=
  negb (wire_origin (ex_origin e))
  || (negb (match obligation_rows db (ex_id e) with [] => true | _ => false end)
      && negb (existsb (fun o => negb (ob_retryable o)) (obligation_rows db (ex_id e)))).

(** The [retry_disposition_basis] view, at one execution *)
Definition retry_basis (db : DB) (execution_id : string) : bool :=
  match executions db !! execution_id with
  | None => false
  | Some e =>
      match ex_ordinal e with None => false | Some o => o <? ex_max_attempts e end
      && match replay_assessments db !! execution_id with
         | None => false | Some r => ra_retry_authorized r =? 1 end
      && wire_retry_sql db e
  end.

(** [RetryPartition.after_write_condition] *)
Definition retry_partition (db : DB) (execution_id : string) : bool :=
  match executions db !! execution_id with
  | None => false
  | Some e => retry_basis db execution_id && bool_decide (ex_status e = FailedExec)
              && present (ex_ordinal e)
  end.

(** A foreign key with a NULL child column is not checked. *)
Definition references {A : Type} (child : option A) (found : A -> bool) : bool :=
  match child with None => true | Some a => found a end.

Definition option_pair {A B : Type} (a : option A) (b : option B) : option (A * B) :=
  match a, b with Some x, Some y => Some (x, y) | _, _ => None end.

(** ** The interface of a row class to the statement layer *)

Class Table (Row : Type) : Type := {
  row_key : Type;
  #[global] row_key_eq :: EqDecision row_key;
  #[global] row_key_countable :: Countable row_key;
  key_of : Row -> row_key;
  table : DB -> gmap row_key Row;
  with_table : gmap row_key Row -> DB -> DB;
  table_name : string;
  post_init : Row -> outcome unit;
  row_checks : Row -> bool;
  (** other rows this row's UNIQUE columns must differ from *)
  conflicts : Row -> Row -> bool;
  insert_guard : DB -> Row -> bool;
  update_guard : DB -> Row -> Row -> bool;
  after_guard : DB -> Row -> bool;
  immediate_keys : DB -> Row -> bool;
  deferred_keys : DB -> Row -> bool;
}.

Class TableLaws (Row : Type) `{!Table Row} : Prop := {
  table_with : forall m db, table (with_table m db) = m;
  with_table_with : forall m m' db, with_table m (with_table m' db) = with_table m db;
  with_own_table : forall db, with_table (table db) db = db;
}.

(** ** Triggers of each table *)

Definition participant_update_guard (db : DB) (old new : Participants) : bool :=
  non_decreasing (bit (committed old)) (bit (committed new))
  || is_not (participant_lookup new) (participant_lookup old).

(** Some attempt of this owner generation is not in a closed phase. *)
Definition live_dependent (db : DB) (owner : string) (generation : Z) : bool :=
  map_exists (fun a => bool_decide (at_owner a = owner) && (at_generation a =? generation)
                       && negb (is_closed (at_phase a))) (attempts db).

Definition generation_update_guard (db : DB) (old new : OwnerGenerations) : bool :=
  frozen_violation [is_not (og_lookup new) (og_lookup old)]
  || counter_violation (og_generation old) (og_generation new)
       (live_dependent db (og_lookup old) (og_generation old)).

Definition pointer_insert_guard (db : DB) (new : CurrentExecutions) : bool :=
  negb (present (owner_generations db !! ptr_owner new)).

Definition pointer_update_guard (db : DB) (old new : CurrentExecutions) : bool :=
  frozen_violation [is_not (ptr_owner new) (ptr_owner old)]
  || revision_violation (ptr_revision old) (ptr_revision new).

(** [ExecutionRecord.column_guards] *)
Definition execution_lifecycle_guard (db : DB) (new : ExecutionRecord) : bool :=
  let e := ex_id new in
  let kind := ex_status new in
  (interrupted_execution kind && present (ex_ordinal new)
   && negb (match ex_ordinal new with
            | None => false
            | Some o => match attempts db !! (e, o) with
                        | None => false
                        | Some a => bool_decide (at_owner a = ex_owner new)
                                    && has_capability (at_phase a) Failed end end))
  || (wire_origin (ex_origin new)
      && (match obligation_rows db e with [] => true | _ => false end
          || (bool_decide (kind = CompletedExec)
              && existsb (fun o => negb (ob_success_terminal o)) (obligation_rows db e))
          || (bool_decide (kind = DeferredExec) && present (ex_ordinal new)
              && existsb (fun o => negb (ob_retryable o)) (obligation_rows db e))))
  || (bool_decide (kind = FailedExec)
      && match evidence_rows db e with [] => false | _ => true end)
  || (bool_decide (kind = FailedExec) && present (ex_ordinal new) && retry_basis db e).

Definition execution_frozen (old new : ExecutionRecord) : bool :=
  frozen_violation [is_not (ex_id new) (ex_id old); is_not (ex_origin new) (ex_origin old);
                    is_not (ex_owner new) (ex_owner old);
                    is_not (ex_max_attempts new) (ex_max_attempts old);
                    is_not (ex_created new) (ex_created old)].

Definition execution_update_guard (db : DB) (old new : ExecutionRecord) : bool :=
  edges_violation (ex_status old) (ex_status new)
  || ordinal_violation (ex_lifecycle old) (ex_lifecycle new)
  || revision_violation (ex_revision old) (ex_revision new)
  || non_decreasing (Some (ex_updated old)) (Some (ex_updated new))
  || execution_frozen old new
  || execution_lifecycle_guard db new.

Definition execution_deferred_keys (db : DB) (e : ExecutionRecord) : bool :=
  references (option_pair (ex_ordinal e) (required_attempt_kind e)) (fun '(o, kind) =>
    match attempts db !! (ex_id e, o) with
    | None => false
    | Some a => bool_decide (at_owner a = ex_owner e) && bool_decide (phase_kind a = kind) end)
  && references (option_pair (active_execution_id e) (active_attempt_ordinal e)) (fun '(i, o) =>
    match current_executions db !! ex_owner e with
    | None => false
    | Some p => bool_decide (ptr_execution p = Some i) && bool_decide (ptr_attempt p = Some o) end)
  && references (option_pair (wire_execution_id e) (wire_claim_ordinal e)) (fun '(i, o) =>
    present (execution_claims db !! (i, o)))
  && references (deferred_replay_id e) (fun i =>
    match replay_assessments db !! i with
    | None => false | Some r => ra_retry_authorized r =? 1 end).

Definition pointer_deferred_keys (db : DB) (p : CurrentExecutions) : bool :=
  references (option_pair (ptr_execution p) (ptr_attempt p)) (fun '(i, o) =>
    match executions db !! i with
    | None => false
    | Some e => bool_decide (ex_ordinal e = Some o) && bool_decide (ex_owner e = ptr_owner p)
                && bool_decide (ex_status e = ActiveExec) end
    && match attempts db !! (i, o) with
       | None => false
       | Some a => bool_decide (at_owner a = ptr_owner p) && bool_decide (phase_kind a = "active")
       end).

(** [AttemptRecord.insert_condition] *)
Definition attempt_start_allowed (db : DB) (new : AttemptRecord) : bool :=
  match executions db !! at_execution new with
  | None => false
  | Some e =>
      let o := at_ordinal new in
      bool_decide (ex_owner e = at_owner new) && (o <=? ex_max_attempts e)
      && (((o =? 1) && (bool_decide (ex_status e = PendingExec)
                        || (bool_decide (ex_status e = ActiveExec)
                            && bool_decide (ex_ordinal e = Some 1))))
          || ((1 <? o) && (bool_decide (ex_status e = DeferredExec)
                           || (bool_decide (ex_status e = ActiveExec)
                               && bool_decide (ex_ordinal e = Some o)))))
      && (o =? 1 + max_ordinal db (at_execution new))
  end.

Definition retry_predecessor (db : DB) (new : AttemptRecord) : bool :=
  match attempts db !! (at_execution new, at_ordinal new - 1) with
  | None => false
  | Some a => permits_retry (at_lifecycle a)
              && attempt_backend_done (at_lifecycle a) && attempt_process_dead (at_lifecycle a)
              && (at_generation a <? at_generation new)
              && negb (bool_decide (at_digest new = at_digest a))
  end.

Definition attempt_insert_guard (db : DB) (new : AttemptRecord) : bool :=
  negb (attempt_start_allowed db new)
  || negb (match owner_generations db !! at_owner new with
           | None => false | Some g => og_generation g =? at_generation new end)
  || (negb (bool_decide (at_phase new = LiveKind PromptStarting)) || negb (at_revision new =? 1)
      || attempt_backend_done (at_lifecycle new) || attempt_process_dead (at_lifecycle new))
  || ((1 <? at_ordinal new)
      && (negb (retry_basis db (at_execution new))
          || match current_executions db !! at_owner new with
             | None => false | Some p => present (ptr_execution p) end))
  || ((1 <? at_ordinal new) && negb (retry_predecessor db new)).

Definition attempt_frozen (old new : AttemptRecord) : bool :=
  frozen_violation [is_not (at_execution new) (at_execution old);
                    is_not (at_ordinal new) (at_ordinal old); is_not (at_owner new) (at_owner old);
                    is_not (at_generation new) (at_generation old);
                    is_not (at_digest new) (at_digest old);
                    is_not (at_created new) (at_created old)].

Definition attempt_update_guard (db : DB) (old new : AttemptRecord) : bool :=
  edges_violation (at_phase old) (at_phase new)
  || finalized_violation (at_phase old) (at_phase new)
  || revision_violation (at_revision old) (at_revision new)
  || non_decreasing (Some (at_updated old)) (Some (at_updated new))
  || non_decreasing (at_progress old) (at_progress new)
  || non_decreasing (bit (attempt_backend_done (at_lifecycle old)))
                    (bit (attempt_backend_done (at_lifecycle new)))
  || non_decreasing (bit (attempt_process_dead (at_lifecycle old)))
                    (bit (attempt_process_dead (at_lifecycle new)))
  || non_decreasing_when_present (attempt_lease (at_lifecycle old)) (attempt_lease (at_lifecycle new))
  || attempt_frozen old new.

Definition attempt_deferred_keys (db : DB) (a : AttemptRecord) : bool :=
  references (active_required_status a) (fun status =>
    match executions db !! at_execution a with
    | None => false
    | Some e => bool_decide (ex_ordinal e = Some (at_ordinal a))
                && bool_decide (ex_owner e = at_owner a)
                && bool_decide (execution_name (ex_status e) = status) end).

(** [CohortDeliveries.related_insert_condition]: a sealed cohort has this recipient at this
    sequence as an observer. *)
Definition observer_of (db : DB) (lookup : string) (seq : Z) (d : CohortDeliveries) : bool :=
  match claim_batch_receipts db !! (cd_root d, cd_seq d) with
  | None => false | Some r => cb_sealed r end
  && bool_decide (cd_lookup d = lookup) && (cd_seq d =? seq) && negb (present (cd_claim d)).

Definition claim_insert_guard (db : DB) (new : WakeAssignment) : bool :=
  map_exists (observer_of db (wa_lookup new) (wa_wire_seq new)) (cohort_delivery_receipts db).

Definition claim_frozen (old new : WakeAssignment) : bool :=
  frozen_violation [is_not (wa_id new) (wa_id old); is_not (wa_recipient new) (wa_recipient old);
                    is_not (wa_lookup new) (wa_lookup old);
                    is_not (wa_wire_seq new) (wa_wire_seq old);
                    is_not (wa_message_id new) (wa_message_id old);
                    is_not (wa_audience new) (wa_audience old);
                    is_not (wa_accepted new) (wa_accepted old);
                    is_not (wa_resolver new) (wa_resolver old);
                    is_not (wa_policy new) (wa_policy old);
                    is_not (sql_assignment_mode (wa_lifecycle new))
                           (sql_assignment_mode (wa_lifecycle old))].

Definition claim_update_guard (db : DB) (old new : WakeAssignment) : bool :=
  (write_once_violation (assignment_verdict (wa_lifecycle old)) (assignment_verdict (wa_lifecycle new))
   || write_once_violation (wa_execution_id old) (wa_execution_id new)
   || write_once_violation (wa_exact_target old) (wa_exact_target new))
  || first_value_violation (wa_execution_id old) (wa_execution_id new)
       (bool_decide (wa_disposition new = EngagedKind))
  || required_violation (wa_exact_target new) (wa_execution_id new)
  || edges_violation (wa_disposition old) (wa_disposition new)
  || unchanged_violation (wa_disposition old) (wa_disposition new)
  || revision_violation (wa_revision old) (wa_revision new)
  || non_decreasing (Some (wa_updated old)) (Some (wa_updated new))
  || claim_frozen old new.

Definition claim_deferred_keys (db : DB) (c : WakeAssignment) : bool :=
  references (option_pair (wa_execution_id c) (wa_exact_target c)) (fun '(i, t) =>
    present (obligations db !! (i, t)))
  && references (wa_execution_id c) (fun i =>
    existsb (fun l => bool_decide (ln_assignment l = wa_id c)) (link_rows db i))
  && references (option_pair (wa_execution_id c) (wa_claim_status_kind c)) (fun '(i, kind) =>
    match executions db !! i with
    | None => false | Some e => bool_decide (ex_claim_status_kind e = kind) end).

(** [ExecutionAssignmentLink.insert_condition] *)
Definition link_insert_guard (db : DB) (new : ExecutionAssignmentLink) : bool :=
  (negb (match executions db !! ln_execution new with
         | None => false | Some e => exec_unstarted (ex_status e) end)
   || negb (ln_ordinal new =? Z.of_nat (length (link_rows db (ln_execution new)))))
  || negb (match executions db !! ln_execution new, wake_claims db !! ln_assignment new with
           | Some e, Some c => bool_decide (wa_execution_id c = Some (ex_id e))
                               && present (wa_exact_target c)
                               && bool_decide (wa_lookup c = ex_owner e)
           | _, _ => false end).

(** A wire execution has an engaged claim with this exact target. *)
Definition wire_route (db : DB) (execution_id exact_target : string) : bool :=
  match executions db !! execution_id with
  | None => false
  | Some e => wire_origin (ex_origin e)
              && map_exists (fun c => bool_decide (wa_execution_id c = Some execution_id)
                                      && bool_decide (wa_exact_target c = Some exact_target))
                            (wake_claims db)
  end.

Definition obligation_insert_guard (db : DB) (new : ResponseObligation) : bool :=
  negb (wire_route db (ob_execution new) (ob_target new))
  || response_requires_intent (ob_state new).

(** [ResponseObligation.update_membership_condition] *)
Definition obligation_membership_guard (db : DB) (new : ResponseObligation) : bool :=
  let route := (ob_execution new, ob_target new) in
  response_requires_intent (ob_state new)
  && (negb (present (publication_intents db !! route))
      || (response_published (ob_state new)
          && negb (match publication_receipts db !! route with
                   | None => false
                   | Some r => bool_decide (published_message_id (ob_lifecycle new)
                                            = Some (pe_message_id r))
                               && bool_decide (publication_seq (ob_lifecycle new)
                                               = Some (pe_seq r)) end))).

(** [ResponseObligation.column_guards] on [lifecycle] *)
Definition obligation_lifecycle_guard (db : DB) (old new : ResponseObligation) : bool :=
  let route := (ob_execution old, ob_target old) in
  (present (publication_receipts db !! route) && negb (response_published (ob_state new)))
  || (present (publication_intents db !! route) && negb (response_allows_intent (ob_state new))).

Definition obligation_frozen (old new : ResponseObligation) : bool :=
  frozen_violation [is_not (ob_execution new) (ob_execution old);
                    is_not (ob_target new) (ob_target old);
                    is_not (ob_created new) (ob_created old)].

Definition obligation_update_guard (db : DB) (old new : ResponseObligation) : bool :=
  edges_violation (ob_state old) (ob_state new)
  || unchanged_violation (ob_state old) (ob_state new)
  || revision_violation (ob_revision old) (ob_revision new)
  || non_decreasing (Some (ob_updated old)) (Some (ob_updated new))
  || obligation_frozen old new
  || obligation_membership_guard db new
  || obligation_lifecycle_guard db old new.

Definition intent_insert_guard (db : DB) (new : PublicationIntents) : bool :=
  negb (match obligations db !! (pi_execution new, pi_target new) with
        | None => false | Some o => bool_decide (ob_state o = PendingResponseKind) end)
  || negb (is_ok (intent_post_init new)).

Definition evidence_insert_guard (db : DB) (new : PublicationEvidence) : bool :=
  match executions db !! pe_execution new with
  | None => false | Some e => bool_decide (ex_status e = FailedExec) end
  || match publication_intents db !! (pe_execution new, pe_target new) with
     | None => false | Some i => negb (bool_decide (pe_message_id new = pi_message_id i)) end
  || negb (match obligations db !! (pe_execution new, pe_target new) with
           | None => false | Some o => response_publishing (ob_state o) end).

Definition replay_update_guard (db : DB) (old new : ReplayAssessments) : bool :=
  revision_violation (ra_revision old) (ra_revision new)
  || non_decreasing (bit (ra_side_effects old)) (bit (ra_side_effects new))
  || non_increasing (bit (ra_safe old)) (bit (ra_safe new))
  || accumulating_violation (ra_facts old) (ra_facts new)
  || frozen_violation [is_not (ra_execution new) (ra_execution old)].

(** ** The row classes as tables *)

Definition no_guard {Row : Type} (db : DB) (r : Row) : bool := false.
Definition no_conflict {Row : Type} (r r' : Row) : bool := false.
(** [ImmutableRows] *)
Definition immutable_rows {Row : Type} (db : DB) (old new : Row) : bool := true.

#[export] Instance participants_table : Table Participants := {|
  key_of := participant_lookup;
  table := participants;
  with_table m db := mkDB m (owner_generations db) (current_executions db) (executions db)
    (attempts db) (wake_claims db) (execution_claims db) (obligations db) (publication_intents db)
    (publication_receipts db) (replay_assessments db) (append_dispatches db) (recovery_audits db)
    (harness_deliveries db) (private_tables db);
  table_name := "participants";
  post_init _ := Ok tt;
  row_checks _ := true;
  conflicts := no_conflict;
  insert_guard := no_guard;
  update_guard := participant_update_guard;
  after_guard := no_guard;
  immediate_keys _ _ := true;
  deferred_keys _ _ := true;
|}.

#[export] Instance owner_generations_table : Table OwnerGenerations := {|
  key_of := og_lookup;
  table := owner_generations;
  with_table m db := mkDB (participants db) m (current_executions db) (executions db)
    (attempts db) (wake_claims db) (execution_claims db) (obligations db) (publication_intents db)
    (publication_receipts db) (replay_assessments db) (append_dispatches db) (recovery_audits db)
    (harness_deliveries db) (private_tables db);
  table_name := "owner_generations";
  post_init _ := Ok tt;
  row_checks := owner_generation_checks;
  conflicts := no_conflict;
  insert_guard := no_guard;
  update_guard := generation_update_guard;
  after_guard := no_guard;
  immediate_keys db r := present (participants db !! og_lookup r);
  deferred_keys _ _ := true;
|}.

#[export] Instance current_executions_table : Table CurrentExecutions := {|
  key_of := ptr_owner;
  table := current_executions;
  with_table m db := mkDB (participants db) (owner_generations db) m (executions db)
    (attempts db) (wake_claims db) (execution_claims db) (obligations db) (publication_intents db)
    (publication_receipts db) (replay_assessments db) (append_dispatches db) (recovery_audits db)
    (harness_deliveries db) (private_tables db);
  table_name := "current_executions";
  post_init := pointer_post_init;
  row_checks := pointer_checks;
  conflicts := no_conflict;
  insert_guard := pointer_insert_guard;
  update_guard := pointer_update_guard;
  after_guard := no_guard;
  immediate_keys db r := present (participants db !! ptr_owner r);
  deferred_keys := pointer_deferred_keys;
|}.

#[export] Instance executions_table : Table ExecutionRecord := {|
  key_of := ex_id;
  table := executions;
  with_table m db := mkDB (participants db) (owner_generations db) (current_executions db) m
    (attempts db) (wake_claims db) (execution_claims db) (obligations db) (publication_intents db)
    (publication_receipts db) (replay_assessments db) (append_dispatches db) (recovery_audits db)
    (harness_deliveries db) (private_tables db);
  table_name := "executions";
  post_init := execution_post_init;
  row_checks := execution_checks;
  conflicts := no_conflict;
  insert_guard := no_guard;
  update_guard := execution_update_guard;
  after_guard := no_guard;
  immediate_keys db r := present (participants db !! ex_owner r);
  deferred_keys := execution_deferred_keys;
|}.

#[export] Instance attempts_table : Table AttemptRecord := {|
  key_of r := (at_execution r, at_ordinal r);
  table := attempts;
  with_table m db := mkDB (participants db) (owner_generations db) (current_executions db)
    (executions db) m (wake_claims db) (execution_claims db) (obligations db)
    (publication_intents db) (publication_receipts db) (replay_assessments db)
    (append_dispatches db) (recovery_audits db)
    (harness_deliveries db) (private_tables db);
  table_name := "attempts";
  post_init := attempt_post_init;
  row_checks := attempt_checks;
  conflicts r r' := bool_decide (at_digest r = at_digest r');
  insert_guard := attempt_insert_guard;
  update_guard := attempt_update_guard;
  after_guard := no_guard;
  immediate_keys db r := present (executions db !! at_execution r)
                         && present (participants db !! at_owner r);
  deferred_keys := attempt_deferred_keys;
|}.

#[export] Instance wake_claims_table : Table WakeAssignment := {|
  key_of := wa_id;
  table := wake_claims;
  with_table m db := mkDB (participants db) (owner_generations db) (current_executions db)
    (executions db) (attempts db) m (execution_claims db) (obligations db) (publication_intents db)
    (publication_receipts db) (replay_assessments db) (append_dispatches db) (recovery_audits db)
    (harness_deliveries db) (private_tables db);
  table_name := "wake_claims";
  post_init := assignment_post_init;
  row_checks := assignment_checks;
  conflicts r r' := bool_decide ((wa_lookup r, wa_wire_seq r) = (wa_lookup r', wa_wire_seq r'));
  insert_guard := claim_insert_guard;
  update_guard := claim_update_guard;
  after_guard := no_guard;
  immediate_keys db r := present (participants db !! wa_lookup r)
                         && references (wa_execution_id r) (fun i => present (executions db !! i));
  deferred_keys := claim_deferred_keys;
|}.

#[export] Instance execution_claims_table : Table ExecutionAssignmentLink := {|
  key_of r := (ln_execution r, ln_ordinal r);
  table := execution_claims;
  with_table m db := mkDB (participants db) (owner_generations db) (current_executions db)
    (executions db) (attempts db) (wake_claims db) m (obligations db) (publication_intents db)
    (publication_receipts db) (replay_assessments db) (append_dispatches db) (recovery_audits db)
    (harness_deliveries db) (private_tables db);
  table_name := "execution_claims";
  post_init := link_post_init;
  row_checks r := 0 <=? ln_ordinal r;
  conflicts r r' := bool_decide (ln_assignment r = ln_assignment r');
  insert_guard := link_insert_guard;
  update_guard := immutable_rows;
  after_guard := no_guard;
  immediate_keys db r :=
    present (executions db !! ln_execution r)
    && match wake_claims db !! ln_assignment r with
       | None => false | Some c => bool_decide (wa_execution_id c = Some (ln_execution r)) end;
  deferred_keys _ _ := true;
|}.

#[export] Instance obligations_table : Table ResponseObligation := {|
  key_of r := (ob_execution r, ob_target r);
  table := obligations;
  with_table m db := mkDB (participants db) (owner_generations db) (current_executions db)
    (executions db) (attempts db) (wake_claims db) (execution_claims db) m (publication_intents db)
    (publication_receipts db) (replay_assessments db) (append_dispatches db) (recovery_audits db)
    (harness_deliveries db) (private_tables db);
  table_name := "obligations";
  post_init := obligation_post_init;
  row_checks := obligation_checks;
  conflicts := no_conflict;
  insert_guard := obligation_insert_guard;
  update_guard := obligation_update_guard;
  after_guard db r := retry_partition db (ob_execution r);
  immediate_keys db r := present (executions db !! ob_execution r);
  deferred_keys _ _ := true;
|}.

#[export] Instance publication_intents_table : Table PublicationIntents := {|
  key_of r := (pi_execution r, pi_target r);
  table := publication_intents;
  with_table m db := mkDB (participants db) (owner_generations db) (current_executions db)
    (executions db) (attempts db) (wake_claims db) (execution_claims db) (obligations db) m
    (publication_receipts db) (replay_assessments db) (append_dispatches db) (recovery_audits db)
    (harness_deliveries db) (private_tables db);
  table_name := "publication_intents";
  post_init := intent_post_init;
  row_checks := intent_checks;
  conflicts r r' := bool_decide (pi_key r = pi_key r')
                    || bool_decide (pi_message_id r = pi_message_id r');
  insert_guard := intent_insert_guard;
  update_guard := immutable_rows;
  after_guard := no_guard;
  immediate_keys db r := present (executions db !! pi_execution r);
  deferred_keys db r := match obligations db !! (pi_execution r, pi_target r) with
                        | None => false | Some o => ob_intent_settled o end;
|}.

#[export] Instance publication_receipts_table : Table PublicationEvidence := {|
  key_of r := (pe_execution r, pe_target r);
  table := publication_receipts;
  with_table m db := mkDB (participants db) (owner_generations db) (current_executions db)
    (executions db) (attempts db) (wake_claims db) (execution_claims db) (obligations db)
    (publication_intents db) m (replay_assessments db) (append_dispatches db) (recovery_audits db)
    (harness_deliveries db) (private_tables db);
  table_name := "publication_receipts";
  post_init _ := Ok tt;
  row_checks := evidence_checks;
  conflicts r r' := (pe_seq r =? pe_seq r') || bool_decide (pe_message_id r = pe_message_id r');
  insert_guard := evidence_insert_guard;
  update_guard := immutable_rows;
  after_guard := no_guard;
  immediate_keys db r := present (publication_intents db !! (pe_execution r, pe_target r));
  deferred_keys db r := match obligations db !! (pe_execution r, pe_target r) with
                        | None => false | Some o => ob_publication_settled o end;
|}.

#[export] Instance replay_assessments_table : Table ReplayAssessments := {|
  key_of := ra_execution;
  table := replay_assessments;
  with_table m db := mkDB (participants db) (owner_generations db) (current_executions db)
    (executions db) (attempts db) (wake_claims db) (execution_claims db) (obligations db)
    (publication_intents db) (publication_receipts db) m (append_dispatches db) (recovery_audits db)
    (harness_deliveries db) (private_tables db);
  table_name := "replay_assessments";
  post_init := replay_post_init;
  row_checks := replay_checks;
  conflicts := no_conflict;
  insert_guard := no_guard;
  update_guard := replay_update_guard;
  after_guard db r := retry_partition db (ra_execution r);
  immediate_keys db r := present (executions db !! ra_execution r);
  deferred_keys _ _ := true;
|}.

#[export] Instance append_dispatches_table : Table PublicationAppendDispatches := {|
  key_of r := (di_execution r, di_target r);
  table := append_dispatches;
  with_table m db := mkDB (participants db) (owner_generations db) (current_executions db)
    (executions db) (attempts db) (wake_claims db) (execution_claims db) (obligations db)
    (publication_intents db) (publication_receipts db) (replay_assessments db) m (recovery_audits db)
    (harness_deliveries db) (private_tables db);
  table_name := "publication_append_dispatches";
  post_init _ := Ok tt;
  row_checks := dispatch_checks;
  conflicts := no_conflict;
  insert_guard := no_guard;
  update_guard := immutable_rows;
  after_guard := no_guard;
  immediate_keys db r := present (publication_intents db !! (di_execution r, di_target r));
  deferred_keys _ _ := true;
|}.

(** ** The lens laws *)

Ltac table_laws := constructor; intros; repeat match goal with d : DB |- _ => destruct d end; reflexivity.

#[export] Instance participants_laws : TableLaws Participants.
Proof. table_laws. Qed.
#[export] Instance owner_generations_laws : TableLaws OwnerGenerations.
Proof. table_laws. Qed.
#[export] Instance current_executions_laws : TableLaws CurrentExecutions.
Proof. table_laws. Qed.
#[export] Instance executions_laws : TableLaws ExecutionRecord.
Proof. table_laws. Qed.
#[export] Instance attempts_laws : TableLaws AttemptRecord.
Proof. table_laws. Qed.
#[export] Instance wake_claims_laws : TableLaws WakeAssignment.
Proof. table_laws. Qed.
#[export] Instance execution_claims_laws : TableLaws ExecutionAssignmentLink.
Proof. table_laws. Qed.
#[export] Instance obligations_laws : TableLaws ResponseObligation.
Proof. table_laws. Qed.
#[export] Instance publication_intents_laws : TableLaws PublicationIntents.
Proof. table_laws. Qed.
#[export] Instance publication_receipts_laws : TableLaws PublicationEvidence.
Proof. table_laws. Qed.
#[export] Instance replay_assessments_laws : TableLaws ReplayAssessments.
Proof. table_laws. Qed.
#[export] Instance append_dispatches_laws : TableLaws PublicationAppendDispatches.
Proof. table_laws. Qed.
