(* ===== verification/CohortTables.v ===== *)
(** * Cohort, harness and recovery tables

    The triggers, UNIQUE constraints and foreign keys of the tables of [cohort_schema.py],
    of [coordination/tables/harness_deliveries.py] and of
    [coordination/tables/recovery.py], and their instances of [Table].  An UPDATE never
    assigns a primary key, so the guards refuse one that would. *)

From stdpp Require Import base gmap strings list.
From Stdlib Require Import ZArith Lia.
From S2P Require Import Prelude Contracts WakePolicy AssignmentStates Rows CohortRows.
From S2P Require Import TableGuards Database.

(** ** Queries *)

(** [WHERE wire_root_id=? AND wire_seq=? ORDER BY ordinal] *)
Definition member_rows (db : DB) : string * Z -> list ClaimBatchMembers :=
  select_rows Z.leb (claim_batch_members db).
Definition delivery_rows (db : DB) : string * Z -> list CohortDeliveries :=
  select_rows Z.leb (cohort_delivery_receipts db).

(** [(SELECT sealed FROM claim_batch_receipts r WHERE ...) != 0] *)
Definition batch_sealed (db : DB) (batch : string * Z) : bool :=
  match claim_batch_receipts db !! batch with None => false | Some r => cb_sealed r end.

Definition claimed (deliveries : list CohortDeliveries) : list CohortDeliveries :=
  List.filter (fun d => present (cd_claim d)) deliveries.

Definition count {A : Type} (rows : list A) : Z := Z.of_nat (length rows).

(** ** Triggers *)

(** The member has a delivery with its claim, at the position the claimed deliveries before
    it leave; a LEFT JOIN without a match gives one row of NULLs. *)
Definition member_misplaced (deliveries : list CohortDeliveries) (m : ClaimBatchMembers) : bool :=
  match List.filter (fun d => bool_decide (cd_claim d = Some (bm_claim m))) deliveries with
  | [] => true
  | matches => existsb (fun d => negb (bm_ordinal m =?
      count (List.filter (fun p => cd_ordinal p <? cd_ordinal d) (claimed deliveries)))) matches
  end.

(** Some claim of an observer at the batch's sequence *)
Definition observer_conflict (claims : gmap string WakeAssignment) (d : CohortDeliveries) : bool :=
  negb (present (cd_claim d))
  && map_exists (fun c => bool_decide (wa_lookup c = cd_lookup d) && (wa_wire_seq c =? cd_seq d)) claims.

(** The sealing condition, over the rows it selects *)
Definition seal_violation (deliveries : list CohortDeliveries) (members : list ClaimBatchMembers)
    (claims : gmap string WakeAssignment) (old : ClaimBatchAcknowledgements) : bool :=
  (negb (count deliveries =? cb_members old) || negb (count (claimed deliveries) =? cb_claims old))
  || negb (count members =? cb_claims old)
  || (existsb (fun d => cb_members old <=? cd_ordinal d) deliveries
      || existsb (fun m => cb_claims old <=? bm_ordinal m) members)
  || existsb (member_misplaced deliveries) members
  || existsb (observer_conflict claims) deliveries.

(** [ClaimBatchAcknowledgements.column_guards] on [sealed] *)
Definition seal_guard (db : DB) (old : ClaimBatchAcknowledgements) : bool :=
  let batch := (cb_root old, cb_seq old) in
  seal_violation (delivery_rows db batch) (member_rows db batch) (wake_claims db) old.

(** [OneWayColumn]: every update is the transition from 0 to 1. *)
Definition one_way_violation (old new : bool) : bool := old || negb new.

Definition receipt_frozen (old new : ClaimBatchAcknowledgements) : bool :=
  frozen_violation [is_not (cb_root new) (cb_root old); is_not (cb_seq new) (cb_seq old);
    is_not (cb_message_id new) (cb_message_id old); is_not (cb_target new) (cb_target old);
    is_not (cb_envelope new) (cb_envelope old); is_not (cb_audience new) (cb_audience old);
    is_not (cb_decisions new) (cb_decisions old); is_not (cb_members new) (cb_members old);
    is_not (cb_claims new) (cb_claims old); is_not (cb_codec new) (cb_codec old);
    is_not (cb_resolver new) (cb_resolver old); is_not (cb_policy new) (cb_policy old);
    is_not (cb_accepted new) (cb_accepted old)].

Definition receipt_update_guard (db : DB) (old new : ClaimBatchAcknowledgements) : bool :=
  one_way_violation (cb_sealed old) (cb_sealed new) || receipt_frozen old new || seal_guard db old.

(** [InitialOneWayColumn] *)
Definition receipt_insert_guard (db : DB) (new : ClaimBatchAcknowledgements) : bool := cb_sealed new.

(** The claim that a member names is the acknowledgement's. *)
Definition member_claim (db : DB) (new : ClaimBatchMembers) : bool :=
  match wake_claims db !! bm_claim new, claim_batch_receipts db !! (bm_root new, bm_seq new) with
  | Some c, Some r =>
      bool_decide (wa_lookup c = bm_lookup new) && (wa_wire_seq c =? bm_seq new)
      && bool_decide (wa_message_id c = cb_message_id r) && bool_decide (wa_resolver c = cb_resolver r)
      && bool_decide (wa_policy c = cb_policy r) && (wa_accepted c =? cb_accepted r)
  | _, _ => false
  end.

(** [ClaimBatchMembers.insert_condition] *)
Definition member_insert_guard (db : DB) (new : ClaimBatchMembers) : bool :=
  batch_sealed db (bm_root new, bm_seq new) || negb (member_claim db new).

(** A member of the batch holds this claim for the delivery's recipient. *)
Definition delivery_member (db : DB) (new : CohortDeliveries) (m : ClaimBatchMembers) : bool :=
  bool_decide (cd_claim new = Some (bm_claim m)) && bool_decide (bm_lookup m = cd_lookup new)
  && match wake_claims db !! bm_claim m with
     | None => false | Some c => bool_decide (wa_recipient c = cd_thread new) end.

(** [CohortDeliveries.insert_condition] *)
Definition delivery_insert_guard (db : DB) (new : CohortDeliveries) : bool :=
  batch_sealed db (cd_root new, cd_seq new)
  || (present (cd_claim new)
      && negb (existsb (delivery_member db new) (member_rows db (cd_root new, cd_seq new)))).

Definition frontier_update_guard (db : DB) (old new : AcceptanceFrontier) : bool :=
  is_not (af_root new) (af_root old) || is_not (af_lookup new) (af_lookup old).

(** [AwarenessClaimGenerations.insert_condition]: the member of an unsealed batch, captured
    at its owner's generation *)
Definition awareness_member (db : DB) (new : AwarenessClaimGenerations) (m : ClaimBatchMembers) : bool :=
  bool_decide (bm_claim m = ag_claim new) && bool_decide (bm_lookup m = ag_owner new)
  && match wake_claims db !! bm_claim m, claim_batch_receipts db !! (bm_root m, bm_seq m),
           owner_generations db !! bm_lookup m with
     | Some c, Some r, Some g =>
         bool_decide (wa_lookup c = ag_owner new) && bool_decide (wa_message_id c = cb_message_id r)
         && negb (cb_sealed r) && (og_generation g =? ag_generation new)
     | _, _, _ => false
     end.

Definition awareness_insert_guard (db : DB) (new : AwarenessClaimGenerations) : bool :=
  negb (existsb (awareness_member db new) (member_rows db (ag_root new, ag_seq new))).

Definition harness_update_guard (db : DB) (old new : HarnessDelivery) : bool :=
  frozen_violation [is_not (hd_bridge new) (hd_bridge old); is_not (hd_lookup new) (hd_lookup old);
                    is_not (hd_message_id new) (hd_message_id old); is_not (hd_seq new) (hd_seq old)].

(** ** The row classes as tables *)

Definition with_private (p : PrivateTables) (db : DB) : DB :=
  mkDB (participants db) (owner_generations db) (current_executions db) (executions db)
    (attempts db) (wake_claims db) (execution_claims db) (obligations db) (publication_intents db)
    (publication_receipts db) (replay_assessments db) (append_dispatches db) (recovery_audits db)
    (harness_deliveries db) p.

#[export] Instance batch_receipts_table : Table ClaimBatchAcknowledgements := {|
  key_of r := (cb_root r, cb_seq r);
  table db := claim_batch_receipts db;
  with_table m db := with_private (mkPrivateTables m (claim_batch_members db)
    (cohort_delivery_receipts db) (acceptance_frontier db) (awareness_claim_generations db)) db;
  table_name := "claim_batch_receipts";
  post_init _ := Ok tt;
  row_checks := acknowledgement_checks;
  conflicts := no_conflict;
  insert_guard := receipt_insert_guard;
  update_guard := receipt_update_guard;
  after_guard := no_guard;
  immediate_keys _ _ := true;
  deferred_keys _ _ := true;
|}.

#[export] Instance batch_members_table : Table ClaimBatchMembers := {|
  key_of r := (bm_root r, bm_seq r, bm_ordinal r);
  table db := claim_batch_members db;
  with_table m db := with_private (mkPrivateTables (claim_batch_receipts db) m
    (cohort_delivery_receipts db) (acceptance_frontier db) (awareness_claim_generations db)) db;
  table_name := "claim_batch_members";
  post_init _ := Ok tt;
  row_checks := member_checks;
  conflicts r r' :=
    bool_decide ((bm_root r, bm_seq r, bm_claim r) = (bm_root r', bm_seq r', bm_claim r'))
    || bool_decide (bm_claim r = bm_claim r')
    || bool_decide ((bm_root r, bm_seq r, bm_lookup r) = (bm_root r', bm_seq r', bm_lookup r'));
  insert_guard := member_insert_guard;
  update_guard := immutable_rows;
  after_guard := no_guard;
  immediate_keys db r := present (wake_claims db !! bm_claim r)
                         && present (participants db !! bm_lookup r)
                         && present (claim_batch_receipts db !! (bm_root r, bm_seq r));
  deferred_keys _ _ := true;
|}.

#[export] Instance delivery_receipts_table : Table CohortDeliveries := {|
  key_of r := (cd_root r, cd_seq r, cd_ordinal r);
  table db := cohort_delivery_receipts db;
  with_table m db := with_private (mkPrivateTables (claim_batch_receipts db)
    (claim_batch_members db) m (acceptance_frontier db) (awareness_claim_generations db)) db;
  table_name := "cohort_delivery_receipts";
  post_init r := delivery_claim_post_init (cd_claim_id r);
  row_checks := delivery_checks;
  conflicts r r' :=
    bool_decide ((cd_root r, cd_seq r, cd_lookup r) = (cd_root r', cd_seq r', cd_lookup r'))
    || bool_decide ((cd_root r, cd_seq r, cd_thread r) = (cd_root r', cd_seq r', cd_thread r'))
    || (present (cd_claim r)
        && bool_decide ((cd_root r, cd_seq r, cd_claim r) = (cd_root r', cd_seq r', cd_claim r')));
  insert_guard := delivery_insert_guard;
  update_guard := immutable_rows;
  after_guard := no_guard;
  immediate_keys db r := present (participants db !! cd_lookup r)
                         && references (cd_claim r) (fun i => present (wake_claims db !! i))
                         && present (claim_batch_receipts db !! (cd_root r, cd_seq r));
  deferred_keys _ _ := true;
|}.

#[export] Instance frontiers_table : Table AcceptanceFrontier := {|
  key_of r := (af_root r, af_lookup r);
  table db := acceptance_frontier db;
  with_table m db := with_private (mkPrivateTables (claim_batch_receipts db)
    (claim_batch_members db) (cohort_delivery_receipts db) m (awareness_claim_generations db)) db;
  table_name := "acceptance_frontier";
  post_init _ := Ok tt;
  row_checks := frontier_checks;
  conflicts := no_conflict;
  insert_guard := no_guard;
  update_guard := frontier_update_guard;
  after_guard := no_guard;
  immediate_keys db r := present (participants db !! af_lookup r);
  deferred_keys _ _ := true;
|}.

#[export] Instance awareness_table : Table AwarenessClaimGenerations := {|
  key_of := ag_claim;
  table db := awareness_claim_generations db;
  with_table m db := with_private (mkPrivateTables (claim_batch_receipts db)
    (claim_batch_members db) (cohort_delivery_receipts db) (acceptance_frontier db) m) db;
  table_name := "awareness_claim_generations";
  post_init _ := Ok tt;
  row_checks := awareness_checks;
  conflicts := no_conflict;
  insert_guard := awareness_insert_guard;
  update_guard := immutable_rows;
  after_guard := no_guard;
  immediate_keys db r := present (wake_claims db !! ag_claim r)
    && present (participants db !! ag_owner r)
    && existsb (fun m => bool_decide (bm_claim m = ag_claim r)) (member_rows db (ag_root r, ag_seq r));
  deferred_keys _ _ := true;
|}.

#[export] Instance harness_deliveries_table : Table HarnessDelivery := {|
  key_of := hd_identity;
  table := harness_deliveries;
  with_table m db := mkDB (participants db) (owner_generations db) (current_executions db)
    (executions db) (attempts db) (wake_claims db) (execution_claims db) (obligations db)
    (publication_intents db) (publication_receipts db) (replay_assessments db)
    (append_dispatches db) (recovery_audits db) m (private_tables db);
  table_name := "harness_deliveries";
  post_init _ := Ok tt;
  row_checks := harness_checks;
  conflicts r r' := bool_decide ((hd_bridge r, hd_lookup r, hd_seq r)
                                 = (hd_bridge r', hd_lookup r', hd_seq r'));
  insert_guard := no_guard;
  update_guard := harness_update_guard;
  after_guard := no_guard;
  immediate_keys db r := present (participants db !! hd_lookup r);
  deferred_keys _ _ := true;
|}.

#[export] Instance recovery_audits_table : Table RecoveryAudit := {|
  key_of r := (au_execution r, au_id r);
  table := recovery_audits;
  with_table m db := mkDB (participants db) (owner_generations db) (current_executions db)
    (executions db) (attempts db) (wake_claims db) (execution_claims db) (obligations db)
    (publication_intents db) (publication_receipts db) (replay_assessments db)
    (append_dispatches db) m (harness_deliveries db) (private_tables db);
  table_name := "recovery_audit";
  post_init := audit_post_init;
  row_checks := audit_checks;
  conflicts r r' := au_id r =? au_id r';
  insert_guard := no_guard;
  update_guard := immutable_rows;
  after_guard := no_guard;
  immediate_keys db r := present (executions db !! au_execution r)
                         && present (attempts db !! (au_execution r, au_attempt r));
  deferred_keys _ _ := true;
|}.

(** ** The lens laws *)

Ltac private_laws := constructor; intros;
  repeat match goal with d : DB |- _ => destruct d as [? ? ? ? ? ? ? ? ? ? ? ? ? ? []] end; reflexivity.

#[export] Instance batch_receipts_laws : TableLaws ClaimBatchAcknowledgements.
Proof. private_laws. Qed.
#[export] Instance batch_members_laws : TableLaws ClaimBatchMembers.
Proof. private_laws. Qed.
#[export] Instance delivery_receipts_laws : TableLaws CohortDeliveries.
Proof. private_laws. Qed.
#[export] Instance frontiers_laws : TableLaws AcceptanceFrontier.
Proof. private_laws. Qed.
#[export] Instance awareness_laws : TableLaws AwarenessClaimGenerations.
Proof. private_laws. Qed.
#[export] Instance harness_deliveries_laws : TableLaws HarnessDelivery.
Proof. private_laws. Qed.
#[export] Instance recovery_audits_laws : TableLaws RecoveryAudit.
Proof. private_laws. Qed.
