(* ===== verification/Session.v ===== *)
(** * Statements, transactions and the session

    [exec_insert] and [exec_update] run one statement of [storage/typed_table.py]'s
    [insert]/[update] against the database: BEFORE triggers, constraints, the write,
    AFTER triggers and immediate foreign keys, in SQLite's order.  [M] is the monad of a
    store method: it reads and writes the connection of a [CoordinationSession], reads its
    clock and may raise.  [writing] is [CoordinationStore.writing], which commits when its
    block returns (checking deferred foreign keys) and rolls back when it raises. *)

From stdpp Require Import base gmap strings list.
From Stdlib Require Import ZArith Lia.
From S2P Require Import Prelude Contracts Lifecycle WakePolicy AssignmentStates ResponseStates.
From S2P Require Import AttemptStates ExecutionStates Rows TableGuards Database CohortRows CohortTables.

(** ** Statements *)

Section statements.
Context {Row : Type} `{!Table Row}.

(** What follows the BEFORE triggers when [new] is written over the other rows [others]. *)
Definition write_row (d : DB) (others : gmap row_key Row) (k : row_key) (new : Row) : outcome DB :=
  _ ← require (row_checks new) (SqlConstraint table_name);
  _ ← refuse (map_exists (conflicts new) others) (SqlConstraint table_name);
  let d' := with_table (<[k := new]> (table d)) d in
  _ ← refuse (after_guard d' new) (SqlAbort table_name);
  _ ← require (immediate_keys d' new) SqlForeignKey;
  Ok d'.

Definition exec_insert (d : DB) (new : Row) : outcome DB :=
  _ ← refuse (insert_guard d new) (SqlAbort table_name);
  _ ← refuse (present (table d !! key_of new)) (SqlConstraint table_name);
  write_row d (table d) (key_of new) new.

(** [UPDATE ... WHERE key=? AND condition], with the number of changed rows *)
Definition exec_update (d : DB) (k : row_key) (condition : Row -> bool) (change : Row -> Row)
    : outcome (Z * DB) :=
  match table d !! k with
  | None => Ok (0, d)
  | Some old =>
      if condition old then
        let new := change old in
        _ ← refuse (update_guard d old new) (SqlAbort table_name);
        d' ← write_row d (delete k (table d)) k new;
        Ok (1, d')
      else Ok (0, d)
  end.

(** [INSERT ... ON CONFLICT (<primary key>) DO UPDATE SET <every other column>] *)
Definition exec_upsert (d : DB) (new : Row) : outcome DB :=
  match table d !! key_of new with
  | None => exec_insert d new
  | Some _ =>
      _ ← refuse (insert_guard d new) (SqlAbort table_name);
      changed ← exec_update d (key_of new) (fun _ => true) (fun _ => new);
      Ok changed.2
  end.

(** [INSERT ... ON CONFLICT DO NOTHING] *)
Definition exec_insert_if_absent (d : DB) (new : Row) : outcome DB :=
  if present (table d !! key_of new) || map_exists (conflicts new) (table d)
  then _ ← refuse (insert_guard d new) (SqlAbort table_name);
       _ ← require (row_checks new) (SqlConstraint table_name);
       Ok d
  else exec_insert d new.

Definition row_keys_hold (d : DB) : bool :=
  bool_decide (map_Forall (fun _ r => immediate_keys d r = true /\ deferred_keys d r = true) (table d)).
End statements.

(** Every foreign key of every table: what [COMMIT] requires. *)
Definition foreign_keys_hold (d : DB) : bool :=
  row_keys_hold (Row := OwnerGenerations) d && row_keys_hold (Row := CurrentExecutions) d
  && row_keys_hold (Row := ExecutionRecord) d && row_keys_hold (Row := AttemptRecord) d
  && row_keys_hold (Row := WakeAssignment) d && row_keys_hold (Row := ExecutionAssignmentLink) d
  && row_keys_hold (Row := ResponseObligation) d && row_keys_hold (Row := PublicationIntents) d
  && row_keys_hold (Row := PublicationEvidence) d && row_keys_hold (Row := ReplayAssessments) d
  && row_keys_hold (Row := PublicationAppendDispatches) d
  && row_keys_hold (Row := ClaimBatchMembers) d && row_keys_hold (Row := CohortDeliveries) d
  && row_keys_hold (Row := AcceptanceFrontier) d && row_keys_hold (Row := AwarenessClaimGenerations) d
  && row_keys_hold (Row := HarnessDelivery) d && row_keys_hold (Row := RecoveryAudit) d.

(** ** Sessions *)

Record Session : Type := mkSession {
  db : DB;
  clock_ms : nat -> Z;
  ticks : nat;
}.

Definition with_db (d : DB) (s : Session) : Session := mkSession d (clock_ms s) (ticks s).

(** The clock has been read once more. *)
Definition tick (s : Session) : Session := mkSession (db s) (clock_ms s) (S (ticks s)).

Definition M (A : Type) : Type := Session -> outcome A * Session.

#[export] Instance M_ret : MRet M := fun A a s => (Ok a, s).
#[export] Instance M_bind : MBind M := fun A B f m s =>
  match m s with
  | (Ok a, s') => f a s'
  | (Err e, s') => (Err e, s')
  end.

(** A computation that may raise but touches no state *)
Definition lift {A : Type} (o : outcome A) : M A := fun s => (o, s).

(** A read of the connection's current rows *)
Definition reading {A : Type} (query : DB -> outcome A) : M A := fun s => (query (db s), s).

(** [CoordinationSession.now] *)
Definition now (floor : Z) : M Z := fun s =>
  let read := clock_ms s (ticks s) in
  if read <? 0
  then (Err (ValueError "coordinator clock must return a nonnegative integer millisecond"), tick s)
  else (Ok (Z.max read floor), tick s).

Section store_statements.
Context {Row : Type} `{!Table Row}.

(** [Row(...).insert(db)]: construction checks the row first. *)
Definition insert (new : Row) : M unit := fun s =>
  match (_ ← post_init new; exec_insert (db s) new) with
  | Ok d' => (Ok tt, with_db d' s)
  | Err e => (Err e, s)
  end.

Definition update (k : row_key) (condition : Row -> bool) (change : Row -> Row) : M Z := fun s =>
  match exec_update (db s) k condition change with
  | Ok (n, d') => (Ok n, with_db d' s)
  | Err e => (Err e, s)
  end.

(** [Row(...).upsert(db)] *)
Definition upsert (new : Row) : M unit := fun s =>
  match (_ ← post_init new; exec_upsert (db s) new) with
  | Ok d' => (Ok tt, with_db d' s)
  | Err e => (Err e, s)
  end.

(** [Row(...).insert_if_absent(db)] *)
Definition insert_if_absent (new : Row) : M unit := fun s =>
  match (_ ← post_init new; exec_insert_if_absent (db s) new) with
  | Ok d' => (Ok tt, with_db d' s)
  | Err e => (Err e, s)
  end.

(** [Row.one(db, **key)]: decoding the row constructs it again. *)
Definition one (k : row_key) : DB -> outcome (option Row) := fun d =>
  match table d !! k with
  | None => Ok None
  | Some r => _ ← post_init r; Ok (Some r)
  end.
End store_statements.

(** A [for] statement in a store method *)
Fixpoint for_each {A : Type} (body : A -> M unit) (xs : list A) : M unit :=
  match xs with
  | [] => mret tt
  | x :: rest => _ ← body x; for_each body rest
  end.

(** [write_transaction]: COMMIT when the block returns, ROLLBACK when it raises. *)
Definition writing {A : Type} (body : M A) : M A := fun s =>
  match body s with
  | (Ok a, s') => if foreign_keys_hold (db s') then (Ok a, s')
                  else (Err SqlForeignKey, with_db (db s) s')
  | (Err e, s') => (Err e, with_db (db s) s')
  end.

(** ** Inversion *)

Section monad_facts.
Context {A B : Type}.

Lemma bindM_ok (m : M A) (f : A -> M B) s b s' :
  mbind f m s = (Ok b, s') <-> exists a s1, m s = (Ok a, s1) /\ f a s1 = (Ok b, s').
Proof.
  unfold mbind, M_bind. destruct (m s) as [[a|e] s1]; split.
  - eauto.
  - by intros (? & ? & [= <- <-] & ?).
  - done.
  - by intros (? & ? & [=] & ?).
Qed.

Lemma lift_ok (o : outcome A) s a s' : lift o s = (Ok a, s') <-> o = Ok a /\ s' = s.
Proof. unfold lift. split; [by intros [= -> ->] | by intros [-> ->]]. Qed.

Lemma reading_ok (q : DB -> outcome A) s a s' :
  reading q s = (Ok a, s') <-> q (db s) = Ok a /\ s' = s.
Proof. unfold reading. split; [by intros [= -> ->] | by intros [-> ->]]. Qed.

Lemma ret_ok (a a' : A) s s' : (mret a : M A) s = (Ok a', s') <-> a' = a /\ s' = s.
Proof. unfold mret, M_ret. split; [by intros [= -> ->] | by intros [-> ->]]. Qed.

(** A transaction that succeeds ran its block and left consistent foreign keys. *)
Lemma writing_ok (body : M A) s a s' :
  writing body s = (Ok a, s') <-> body s = (Ok a, s') /\ foreign_keys_hold (db s') = true.
Proof.
  unfold writing. destruct (body s) as [[a'|e] s1]; split.
  - destruct (foreign_keys_hold (db s1)) eqn:E; [|done]. by intros [= <- <-].
  - by intros [[= <- <-] ->].
  - done.
  - by intros [[=] _].
Qed.

(** A transaction that raises changes no row. *)
Lemma writing_err (body : M A) s e s' : writing body s = (Err e, s') -> db s' = db s.
Proof.
  unfold writing. destruct (body s) as [[a'|e'] s1].
  - destruct (foreign_keys_hold (db s1)); [done|]. by intros [= <- <-].
  - by intros [= <- <-].
Qed.
End monad_facts.

Lemma now_ok floor s t s' :
  now floor s = (Ok t, s') ->
  floor <= t /\ 0 <= t /\ db s' = db s /\ clock_ms s' = clock_ms s.
Proof.
  unfold now. destruct (Z.ltb_spec (clock_ms s (ticks s)) 0); [done|].
  intros [= <- <-]. simpl. split_and!; try done; lia.
Qed.

Lemma now_reads floor s :
  0 <= clock_ms s (ticks s) -> now floor s = (Ok (Z.max (clock_ms s (ticks s)) floor), tick s).
Proof. intros Hc. unfold now. by rewrite (proj2 (Z.ltb_ge _ _) Hc). Qed.

Section statement_facts.
Context {Row : Type} `{!Table Row}.

Lemma write_row_ok d others k new d' :
  write_row d others k new = Ok d' <->
  row_checks new = true /\ map_exists (conflicts new) others = false /\
  d' = with_table (<[k := new]> (table d)) d /\
  after_guard d' new = false /\ immediate_keys d' new = true.
Proof.
  unfold write_row. split.
  - intros H. ok_inv. auto.
  - intros (Hc & Hu & -> & Ha & Hi). by rewrite Hc, Hu, Ha, Hi.
Qed.

Lemma exec_insert_ok d new d' :
  exec_insert d new = Ok d' <->
  insert_guard d new = false /\ table d !! key_of new = None /\
  write_row d (table d) (key_of new) new = Ok d'.
Proof.
  unfold exec_insert. split.
  - intros H. ok_inv. destruct (table d !! key_of new); done.
  - intros (Hg & Hn & Hw). by rewrite Hg, Hn.
Qed.

Lemma exec_update_ok d k condition change n d' :
  exec_update d k condition change = Ok (n, d') <->
  (n = 0 /\ d' = d /\ forall old, table d !! k = Some old -> condition old = false) \/
  (n = 1 /\ exists old, table d !! k = Some old /\ condition old = true /\
     update_guard d old (change old) = false /\
     write_row d (delete k (table d)) k (change old) = Ok d').
Proof.
  unfold exec_update. destruct (table d !! k) as [old|] eqn:E.
  - destruct (condition old) eqn:Ec; split.
    + intros H. ok_inv. right. split; [done|]. exists old. auto.
    + intros [(_ & _ & H)|(-> & old' & [= <-] & _ & Hg & Hw)].
      * specialize (H old eq_refl). congruence.
      * by rewrite Hg, Hw.
    + intros [= <- <-]. left. split_and!; [done|done|]. by intros ? [= <-].
    + intros [(-> & -> & _)|(_ & old' & [= <-] & Hc & _)]; [done | congruence].
  - split.
    + intros [= <- <-]. left. by split_and!.
    + intros [(-> & -> & _)|(_ & old' & [=] & _)]. done.
Qed.

Lemma insert_ok (new : Row) s u s' :
  insert new s = (Ok u, s') <->
  post_init new = Ok tt /\ exists d', exec_insert (db s) new = Ok d' /\ s' = with_db d' s.
Proof.
  unfold insert. destruct u, (post_init new) as [[]|e]; simpl; split.
  - destruct (exec_insert (db s) new); [|done]. intros [= <-]. eauto.
  - intros (_ & d' & -> & ->). done.
  - done.
  - by intros [[=] _].
Qed.

Lemma update_ok k condition change s n s' :
  update k condition change s = (Ok n, s') <->
  exists d', exec_update (db s) k condition change = Ok (n, d') /\ s' = with_db d' s.
Proof.
  unfold update. destruct (exec_update (db s) k condition change) as [[n' d']|e]; split.
  - intros [= <- <-]. eauto.
  - by intros (? & [= <- <-] & ->).
  - done.
  - by intros (? & [=] & _).
Qed.

Lemma upsert_ok (new : Row) s u s' :
  upsert new s = (Ok u, s') ->
  post_init new = Ok tt /\ insert_guard (db s) new = false /\ row_checks new = true /\
  db s' = with_table (<[key_of new := new]> (table (db s))) (db s) /\
  clock_ms s' = clock_ms s /\ ticks s' = ticks s.
Proof.
  unfold upsert, exec_upsert. destruct (post_init new) as [[]|e]; simpl; [|done].
  destruct (table (db s) !! key_of new) as [old|] eqn:E.
  - destruct (insert_guard (db s) new); simpl; [done|].
    destruct (exec_update _ _ _ _) as [[n d']|e] eqn:Eu; simpl; [|done]. intros [= <- <-].
    apply exec_update_ok in Eu as [(_ & _ & Hnone)|(_ & old' & _ & _ & _ & Hw)].
    + by specialize (Hnone _ E).
    + by apply write_row_ok in Hw as (? & _ & -> & _).
  - destruct (exec_insert (db s) new) as [d'|e] eqn:Ei; [|done]. intros [= <- <-].
    apply exec_insert_ok in Ei as (? & _ & Hw). by apply write_row_ok in Hw as (? & _ & -> & _).
Qed.

Lemma one_ok k d r :
  one k d = Ok r <-> table d !! k = r /\ match r with Some x => post_init x = Ok tt | None => True end.
Proof.
  unfold one. destruct (table d !! k) as [x|]; split.
  - intros H. ok_inv. by destruct x0.
  - intros [<- Hp]. by rewrite Hp.
  - by intros [= <-].
  - by intros [<- _].
Qed.
End statement_facts.

(** Inversion of a successful store method, one statement at a time *)
Ltac m_step :=
  match goal with
  | H : mbind _ _ ?s = (Ok _, _) |- _ =>
      apply bindM_ok in H; destruct H as (? & ? & ? & H)
  | H : lift _ _ = (Ok _, _) |- _ => apply lift_ok in H; destruct H as [H ?]; subst
  | H : reading _ _ = (Ok _, _) |- _ => apply reading_ok in H; destruct H as [H ?]; subst
  | H : mret _ _ = (Ok _, _) |- _ => apply ret_ok in H; destruct H as [? ?]; subst
  | H : writing _ _ = (Ok _, _) |- _ => apply writing_ok in H; destruct H as [H ?]
  end.
Ltac m_inv := repeat m_step.

(** An unconditional update of a stored row either raises or writes it. *)
Lemma update_row_ok {Row : Type} `{!Table Row} k condition change s n s' old :
  update k condition change s = (Ok n, s') -> table (db s) !! k = Some old -> condition old = true ->
  update_guard (db s) old (change old) = false /\ row_checks (change old) = true /\
  db s' = with_table (<[k := change old]> (table (db s))) (db s) /\
  after_guard (db s') (change old) = false /\ clock_ms s' = clock_ms s /\ ticks s' = ticks s.
Proof.
  intros (d' & Hu & ->)%update_ok Hold Hc.
  apply exec_update_ok in Hu as [(_ & _ & Hnone)|(_ & old' & Hold' & _ & Hg & Hw)].
  - specialize (Hnone _ Hold). congruence.
  - rewrite Hold in Hold'. injection Hold' as <-.
    apply write_row_ok in Hw as (Hchk & _ & -> & Hafter & _). by split_and!.
Qed.

(** A loop whose body writes the row at one key of one table *)
Section row_loop.
Context {Row : Type} `{!Table Row, !TableLaws Row} {A : Type}.
Context (key : A -> row_key) (P : Row -> Prop) (body : A -> M unit).

Definition writes_row : Prop := forall x s u s', body x s = (Ok u, s') ->
  (table (db s) !! key x = None /\ db s' = db s) \/
  (exists new, is_Some (table (db s) !! key x) /\ P new /\
     db s' = with_table (<[key x := new]> (table (db s))) (db s)).

Lemma row_loop_ok xs s u s' :
  writes_row -> for_each body xs s = (Ok u, s') ->
  exists m, db s' = with_table m (db s) /\
    (forall k, (forall x, x ∈ xs -> k <> key x) -> m !! k = table (db s) !! k) /\
    (forall x, x ∈ xs -> is_Some (table (db s) !! key x) ->
       exists new, m !! key x = Some new /\ P new).
Proof.
  intros Hbody. revert s. induction xs as [|x xs IH]; simpl; intros s H.
  { apply ret_ok in H as [_ ->]. exists (table (db s)). split_and!; [by rewrite with_own_table|done|].
    intros x Hx. by apply elem_of_nil in Hx. }
  apply bindM_ok in H as (u1 & s1 & Hx & H). destruct (IH s1 H) as (m & Hdb & Hframe & Hrows).
  destruct (Hbody _ _ _ _ Hx) as [[Hnone Hs1]|(new & Hold & HP & Hs1)]; rewrite Hs1 in *.
  - exists m. split_and!; [done| |].
    + intros k Hk. apply Hframe. intros y Hy. apply Hk. by right.
    + intros y Hy Hsome. apply elem_of_cons in Hy as [->|Hy]; [|by apply Hrows].
      rewrite Hnone in Hsome. by destruct Hsome.
  - rewrite table_with, with_table_with in *. exists m. split_and!; [done| |].
    + intros k Hk. rewrite Hframe; [|intros y Hy; apply Hk; by right].
      rewrite lookup_insert_ne; [done|]. intros Heq. apply (Hk x); [by left | done].
    + intros y Hy Hsome. destruct (decide (Exists (fun z => key z = key y) xs)) as [Hin|Hout].
      * apply Exists_exists in Hin as (z & Hz & Heq). rewrite <- Heq. apply Hrows; [done|].
        destruct (decide (key x = key z)) as [->|Hne]; [rewrite lookup_insert_eq; by eexists|].
        rewrite lookup_insert_ne by done. by rewrite Heq.
      * assert (key y = key x) as Hk.
        { apply elem_of_cons in Hy as [->|Hy]; [done|]. exfalso. apply Hout, Exists_exists. eauto. }
        exists new. split; [|done]. rewrite Hframe, Hk; [apply lookup_insert_eq|].
        intros z Hz Heq. apply Hout, Exists_exists. by exists z.
Qed.
End row_loop.

(** An unconditional update writes the row at its key when there is one. *)
Lemma update_writes {Row : Type} `{!Table Row} k change s n s' :
  update k (fun _ => true) change s = (Ok n, s') ->
  (table (db s) !! k = None /\ db s' = db s) \/
  (exists old, table (db s) !! k = Some old /\
     db s' = with_table (<[k := change old]> (table (db s))) (db s)).
Proof.
  intros (d' & Hu & ->)%update_ok.
  apply exec_update_ok in Hu as [(_ & -> & Hnone)|(_ & old & Hold & _ & _ & Hw)].
  - left. split; [|done]. destruct (table (db s) !! k); [|done]. by specialize (Hnone _ eq_refl).
  - right. apply write_row_ok in Hw as (_ & _ & -> & _). eauto.
Qed.
