(* ===== verification/SchemaSteps.v ===== *)
(** * Every write the schema accepts

    A step is any [INSERT] or single-row [UPDATE] that the triggers and constraints of a
    coordinator table accept, whoever issues it: the stores' own statements are steps,
    and so is raw SQL on the same file.  [table_change] is what one step can do to one
    table; every schema invariant is proved by induction over steps from it. *)

From stdpp Require Import base gmap strings list sorting.
From Stdlib Require Import ZArith Lia.
From S2P Require Import Prelude Contracts Lifecycle WakePolicy AssignmentStates ResponseStates AttemptStates.
From S2P Require Import ExecutionStates Rows CohortRows TableGuards Database CohortTables Session.

(** The tables of the coordinator file *)
Inductive declared_table : forall Row : Type, Table Row -> Prop :=
| declared_participants : declared_table Participants participants_table
| declared_generations : declared_table OwnerGenerations owner_generations_table
| declared_pointers : declared_table CurrentExecutions current_executions_table
| declared_executions : declared_table ExecutionRecord executions_table
| declared_attempts : declared_table AttemptRecord attempts_table
| declared_claims : declared_table WakeAssignment wake_claims_table
| declared_links : declared_table ExecutionAssignmentLink execution_claims_table
| declared_obligations : declared_table ResponseObligation obligations_table
| declared_intents : declared_table PublicationIntents publication_intents_table
| declared_receipts : declared_table PublicationEvidence publication_receipts_table
| declared_replays : declared_table ReplayAssessments replay_assessments_table
| declared_dispatches : declared_table PublicationAppendDispatches append_dispatches_table
| declared_batches : declared_table ClaimBatchAcknowledgements batch_receipts_table
| declared_members : declared_table ClaimBatchMembers batch_members_table
| declared_deliveries : declared_table CohortDeliveries delivery_receipts_table
| declared_frontiers : declared_table AcceptanceFrontier frontiers_table
| declared_awareness : declared_table AwarenessClaimGenerations awareness_table
| declared_harness : declared_table HarnessDelivery harness_deliveries_table
| declared_audits : declared_table RecoveryAudit recovery_audits_table.

Inductive db_step (d : DB) : DB -> Prop :=
| step_insert (Row : Type) (T : Table Row) (new : Row) d' :
    declared_table Row T -> exec_insert d new = Ok d' -> db_step d d'
| step_update (Row : Type) (T : Table Row) k condition change n d' :
    declared_table Row T -> exec_update d k condition change = Ok (n, d') -> db_step d d'.

(** The states raw SQL can reach from an empty file, between statements. *)
Inductive db_reachable : DB -> Prop :=
| reach_empty : db_reachable empty_db
| reach_step d d' : db_reachable d -> db_step d d' -> db_reachable d'.

(** ** What one step does *)

Section changes.
Context {Row : Type} `{!Table Row}.

(** One row of this table was written past all its guards and constraints. *)
Inductive accepted_write (d d' : DB) : Prop :=
| inserted new :
    insert_guard d new = false -> table d !! key_of new = None ->
    row_checks new = true -> map_exists (conflicts new) (table d) = false ->
    d' = with_table (<[key_of new := new]> (table d)) d ->
    after_guard d' new = false -> immediate_keys d' new = true -> accepted_write d d'
| updated k old new :
    table d !! k = Some old -> update_guard d old new = false ->
    row_checks new = true -> map_exists (conflicts new) (delete k (table d)) = false ->
    d' = with_table (<[k := new]> (table d)) d ->
    after_guard d' new = false -> immediate_keys d' new = true -> accepted_write d d'.

Lemma insert_accepted d new d' : exec_insert d new = Ok d' -> accepted_write d d'.
Proof.
  intros (Hg & Hn & (Hc & Hu & -> & Ha & Hi)%write_row_ok)%exec_insert_ok. by eapply inserted.
Qed.

Lemma update_accepted d k condition change n d' :
  exec_update d k condition change = Ok (n, d') -> d' = d \/ accepted_write d d'.
Proof.
  intros [(_ & -> & _)|(_ & old & Hold & _ & Hg & Hw)]%exec_update_ok; [by left|right].
  apply write_row_ok in Hw as (Hc & Hu & -> & Ha & Hi). by eapply updated.
Qed.
End changes.

(** A step changes nothing, or one row of one declared table. *)
Inductive step_effect (d d' : DB) : Prop :=
| no_effect : d' = d -> step_effect d d'
| wrote (Row : Type) (T : Table Row) :
    declared_table Row T -> accepted_write (Row := Row) d d' -> step_effect d d'.

Lemma db_step_effect d d' : db_step d d' -> step_effect d d'.
Proof.
  intros [Row T new d1 Hd H | Row T k c f n d1 Hd H].
  - eapply wrote; [done|]. by eapply insert_accepted.
  - apply update_accepted in H as [->|H]; [by left | by eapply wrote].
Qed.

(** Splits a write into the insertions and updates of the nineteen tables. *)
Ltac each_write H :=
  destruct H as [->|Row T Hdeclared [new Hguard Hfresh Hchecks Hunique -> Hafter Hkeys
                                    |k old new Hold Hguard Hchecks Hunique -> Hafter Hkeys]];
  [|destruct Hdeclared; simpl in *|destruct Hdeclared; simpl in *; try discriminate Hguard].

(** An invariant of one step is an invariant of every reachable state. *)
Lemma reachable_invariant (I : DB -> Prop) :
  I empty_db -> (forall d d', I d -> step_effect d d' -> I d') -> forall d, db_reachable d -> I d.
Proof.
  intros Hempty Hstep d Hd. induction Hd as [|d d' _ IH Hs]; [done|].
  by eapply Hstep, db_step_effect.
Qed.

(** ** Queries *)

Lemma map_exists_spec {K A : Type} `{Countable K} (P : A -> bool) (m : gmap K A) :
  map_exists P m = true <-> exists k a, m !! k = Some a /\ P a = true.
Proof.
  unfold map_exists. rewrite existsb_exists. split.
  - intros ([k a] & Hin & HP). apply list_elem_of_In, elem_of_map_to_list in Hin. eauto.
  - intros (k & a & Hka & HP). exists (k, a). split; [|done].
    by apply list_elem_of_In, elem_of_map_to_list.
Qed.

Lemma map_exists_false {K A : Type} `{Countable K} (P : A -> bool) (m : gmap K A) k a :
  map_exists P m = false -> m !! k = Some a -> P a = false.
Proof.
  intros Hnone Hka. apply not_true_iff_false. intros HP.
  assert (map_exists P m = true); [|congruence]. apply map_exists_spec. eauto.
Qed.

Lemma elem_of_select_keys {K B A : Type} `{Countable K} `{Countable B} (le : B -> B -> bool)
    (m : gmap (K * B) A) e k :
  k ∈ select_keys le m e <-> k.1 = e /\ is_Some (m !! k).
Proof.
  unfold select_keys. rewrite (merge_sort_Permutation (second_le le)).
  rewrite list_elem_of_filter, elem_of_elements, elem_of_dom. done.
Qed.

Lemma elem_of_select_rows {K B A : Type} `{Countable K} `{Countable B} (le : B -> B -> bool)
    (m : gmap (K * B) A) e a :
  a ∈ select_rows le m e <-> exists b, m !! (e, b) = Some a.
Proof.
  unfold select_rows. rewrite list_elem_of_omap. split.
  - intros ([e' b] & [? _]%elem_of_select_keys & Ha). simpl in *. subst. eauto.
  - intros (b & Ha). exists (e, b). split; [|done]. apply elem_of_select_keys.
    split; [done|]. by eexists.
Qed.

(** Rewriting one row changes neither which keys an execution has nor their order. *)
Lemma select_keys_update {K B A : Type} `{Countable K} `{Countable B} (le : B -> B -> bool)
    (m : gmap (K * B) A) e k a :
  is_Some (m !! k) -> select_keys le (<[k := a]> m) e = select_keys le m e.
Proof.
  intros Hk. unfold select_keys. by rewrite dom_insert_lookup_L.
Qed.

Lemma select_rows_other {K B A : Type} `{Countable K} `{Countable B} (le : B -> B -> bool)
    (m : gmap (K * B) A) e k a :
  is_Some (m !! k) -> k.1 <> e -> select_rows le (<[k := a]> m) e = select_rows le m e.
Proof.
  intros Hk Hne. unfold select_rows. rewrite select_keys_update by done.
  apply list_omap_ext, Forall_Forall2_diag, Forall_forall. intros k' Hk'.
  apply elem_of_select_keys in Hk' as [Hk' _].
  rewrite lookup_insert_ne; [done | congruence].
Qed.

Lemma select_rows_nil {K B A : Type} `{Countable K} `{Countable B} (le : B -> B -> bool)
    (m : gmap (K * B) A) e :
  select_rows le m e = [] <-> forall b, m !! (e, b) = None.
Proof.
  split.
  - intros Hnil b. destruct (m !! (e, b)) as [a|] eqn:E; [|done].
    assert (a ∈ select_rows le m e) as Hin by (apply elem_of_select_rows; eauto).
    rewrite Hnil in Hin. by apply elem_of_nil in Hin.
  - intros Hnone. destruct (select_rows le m e) as [|a rest] eqn:E; [done|].
    assert (a ∈ select_rows le m e) as Hin by (rewrite E; apply list_elem_of_here).
    apply elem_of_select_rows in Hin as (b & Hb). by rewrite Hnone in Hb.
Qed.

(** * What an accepted update implies, table by table *)

(** Reads back the trigger conditions of [Database.v]: each lemma lists what a new row
    must satisfy for its table to accept it over the old one. *)

(** A disjunction of trigger conditions is [false] when each is. *)
Ltac no_violation :=
  repeat match goal with
  | H : (_ || _) = false |- _ => apply orb_false_iff in H; destruct H
  | H : frozen_violation _ = false |- _ => apply frozen_violation_ok in H
  | H : Forall _ (_ :: _) |- _ => apply Forall_cons in H; destruct H
  | H : Forall _ [] |- _ => clear H
  | H : is_not _ _ = false |- _ => apply (proj1 (is_not_false _ _)) in H
  | H : revision_violation _ _ = false |- _ => apply revision_violation_ok in H
  | H : non_decreasing (Some _) (Some _) = false |- _ => apply non_decreasing_ok in H
  | H : edges_violation _ _ = false |- _ => apply edges_violation_ok in H
  | H : unchanged_violation _ _ = false |- _ => apply unchanged_violation_ok in H
  | H : accumulating_violation _ _ = false |- _ => apply accumulating_ok in H
  end.

Lemma execution_update_ok d old new :
  execution_update_guard d old new = false ->
  (ex_id new = ex_id old /\ ex_origin new = ex_origin old /\ ex_owner new = ex_owner old /\
   ex_max_attempts new = ex_max_attempts old /\ ex_created new = ex_created old) /\
  (ex_status old = ex_status new \/ may_become (ex_status old) (ex_status new) = true) /\
  accepts_previous (ex_lifecycle new) (ex_lifecycle old) = true /\
  ex_revision new = ex_revision old + 1 /\ ex_updated old <= ex_updated new /\
  execution_lifecycle_guard d new = false.
Proof.
  unfold execution_update_guard, execution_frozen. intros H. no_violation.
  match goal with Ho : ordinal_violation _ _ = false |- _ =>
    rewrite ordinal_violation_spec in Ho; apply negb_false_iff in Ho end.
  by split_and!.
Qed.

Lemma attempt_update_ok d old new :
  attempt_update_guard d old new = false ->
  (at_execution new = at_execution old /\ at_ordinal new = at_ordinal old /\
   at_owner new = at_owner old /\ at_generation new = at_generation old /\
   at_digest new = at_digest old /\ at_created new = at_created old) /\
  is_closed (at_phase old) = false /\
  (at_phase old = at_phase new \/ may_become (at_phase old) (at_phase new) = true) /\
  at_revision new = at_revision old + 1 /\ at_updated old <= at_updated new.
Proof.
  unfold attempt_update_guard, attempt_frozen. intros H.
  repeat match goal with Hb : (_ || _) = false |- _ => apply orb_false_iff in Hb; destruct Hb end.
  match goal with He : edges_violation _ _ = false, Hf : finalized_violation _ _ = false |- _ =>
    pose proof (finalized_closed _ _ Hf He) end.
  no_violation. by split_and!.
Qed.

Lemma claim_update_ok d old new :
  claim_update_guard d old new = false ->
  (wa_id new = wa_id old /\ wa_lookup new = wa_lookup old /\ wa_source new = wa_source old /\
   assignment_mode (wa_lifecycle new) = assignment_mode (wa_lifecycle old)) /\
  may_become (wa_disposition old) (wa_disposition new) = true /\
  (forall e, wa_execution_id old = Some e -> wa_execution_id new = Some e) /\
  (forall t, wa_exact_target old = Some t -> wa_exact_target new = Some t) /\
  wa_revision new = wa_revision old + 1 /\ wa_updated old <= wa_updated new.
Proof.
  unfold claim_update_guard, claim_frozen. intros H. no_violation. unfold wa_source.
  repeat match goal with Hm : sql_assignment_mode _ = sql_assignment_mode _ |- _ =>
    rewrite !sql_assignment_mode_name in Hm; apply wake_name_inj in Hm end.
  split_and!; try congruence; try done.
  - match goal with He : wa_disposition old = _ \/ _ |- _ => destruct He; done end.
  - intros e He. match goal with Hw : write_once_violation (wa_execution_id old) _ = false |- _ =>
      rewrite He in Hw; by apply write_once_ok in Hw end.
  - intros t Ht. match goal with Hw : write_once_violation (wa_exact_target old) _ = false |- _ =>
      rewrite Ht in Hw; by apply write_once_ok in Hw end.
Qed.

Lemma obligation_update_ok d old new :
  obligation_update_guard d old new = false ->
  (ob_execution new = ob_execution old /\ ob_target new = ob_target old /\
   ob_created new = ob_created old) /\
  may_become (ob_state old) (ob_state new) = true /\
  ob_revision new = ob_revision old + 1 /\ ob_updated old <= ob_updated new /\
  obligation_membership_guard d new = false /\ obligation_lifecycle_guard d old new = false.
Proof.
  unfold obligation_update_guard, obligation_frozen. intros H. no_violation.
  split_and!; try done.
  match goal with He : ob_state old = _ \/ _ |- _ => destruct He; done end.
Qed.

Lemma bit_order a b : non_decreasing (bit a) (bit b) = false <-> (a = true -> b = true).
Proof. destruct a, b; simpl; split; try done; intros HH; by specialize (HH eq_refl). Qed.

Lemma bit_reverse_order a b : non_increasing (bit a) (bit b) = false <-> (b = true -> a = true).
Proof. destruct a, b; simpl; split; try done; intros HH; by specialize (HH eq_refl). Qed.

Lemma replay_update_ok d old new :
  replay_update_guard d old new = false ->
  ra_execution new = ra_execution old /\ ra_revision new = ra_revision old + 1 /\
  Z.lor (ra_facts new) (ra_facts old) = ra_facts new /\
  (ra_side_effects old = true -> ra_side_effects new = true) /\
  (ra_safe new = true -> ra_safe old = true).
Proof.
  unfold replay_update_guard. intros H.
  repeat match goal with Hb : (_ || _) = false |- _ => apply orb_false_iff in Hb; destruct Hb end.
  match goal with Hb : non_decreasing _ _ = false |- _ => rewrite bit_order in Hb end.
  match goal with Hb : non_increasing _ _ = false |- _ => rewrite bit_reverse_order in Hb end.
  no_violation. by split_and!.
Qed.

Lemma pointer_update_ok d old new :
  pointer_update_guard d old new = false ->
  ptr_owner new = ptr_owner old /\ ptr_revision new = ptr_revision old + 1.
Proof. unfold pointer_update_guard. intros H. no_violation. done. Qed.

Lemma generation_update_ok d old new :
  generation_update_guard d old new = false ->
  og_lookup new = og_lookup old /\
  (og_generation new = og_generation old \/
   og_generation new = og_generation old + 1 /\
   live_dependent d (og_lookup old) (og_generation old) = false).
Proof.
  unfold generation_update_guard, counter_violation. intros [H Hc]%orb_false_iff. no_violation.
  split; [done|]. apply andb_false_iff in Hc as [Hc|Hc].
  - left. apply negb_false_iff in Hc. by apply Z.eqb_eq.
  - right. apply orb_false_iff in Hc as [Hc Hl]. apply negb_false_iff in Hc.
    split; [by apply Z.eqb_eq | done].
Qed.

Lemma participant_update_ok d old new :
  participant_update_guard d old new = false ->
  participant_lookup new = participant_lookup old /\ (committed old = true -> committed new = true).
Proof.
  unfold participant_update_guard. intros [H1 H2]%orb_false_iff.
  split; [by apply (proj1 (is_not_false _ _)) in H2 | by apply bit_order].
Qed.

(** What the guard of an attempt's insertion requires. *)
Lemma attempt_insert_ok d new :
  attempt_insert_guard d new = false ->
  (exists e, executions d !! at_execution new = Some e /\ ex_owner e = at_owner new /\
     at_ordinal new <= ex_max_attempts e) /\
  at_ordinal new = 1 + max_ordinal d (at_execution new) /\ 1 <= at_ordinal new /\
  (exists g, owner_generations d !! at_owner new = Some g /\ og_generation g = at_generation new) /\
  at_phase new = LiveKind PromptStarting /\ at_revision new = 1 /\
  (1 < at_ordinal new ->
     retry_basis d (at_execution new) = true /\
     (forall p, current_executions d !! at_owner new = Some p -> ptr_execution p = None) /\
     exists a, attempts d !! (at_execution new, at_ordinal new - 1) = Some a /\
       at_lifecycle a = TerminalAttempt AttemptFailed /\ at_generation a < at_generation new).
Proof.
  unfold attempt_insert_guard. intros H.
  repeat match goal with Hb : (_ || _) = false |- _ => apply orb_false_iff in Hb; destruct Hb end.
  repeat match goal with Hn : negb _ = false |- _ => apply negb_false_iff in Hn end.
  unfold attempt_start_allowed in *.
  destruct (executions d !! at_execution new) as [e|] eqn:He; [|done].
  destruct (owner_generations d !! at_owner new) as [g|] eqn:Hg; [|done].
  bools. split_and!; eauto.
  - match goal with Ho : (_ || _) = true |- _ => apply orb_true_iff in Ho as [Ho|Ho] end; bools; lia.
  - intros Hlt. rewrite (proj2 (Z.ltb_lt 1 (at_ordinal new)) Hlt) in *.
    repeat match goal with Hb : true && _ = false |- _ => simpl in Hb end.
    repeat match goal with Hb : (_ || _) = false |- _ => apply orb_false_iff in Hb; destruct Hb end.
    repeat match goal with Hn : negb _ = false |- _ => apply negb_false_iff in Hn end.
    split_and!; [done| |].
    + intros p Hp. destruct (current_executions d !! at_owner new); simplify_eq.
      by destruct (ptr_execution p).
    + unfold retry_predecessor in *.
      destruct (attempts d !! (at_execution new, at_ordinal new - 1)) as [a|]; [|done].
      bools. exists a. split_and!; [done| |done].
      destruct (at_lifecycle a) as [| []]; done.
Qed.

(** An accepted claim update is lifecycle progress of the same claim. *)
Lemma claim_update_progress d old new :
  claim_update_guard d old new = false ->
  new = wa_progress old (wa_lifecycle new) (wa_updated new) (wa_revision new).
Proof.
  unfold claim_update_guard, claim_frozen, wa_progress. intros H. no_violation.
  destruct new; simpl in *; congruence.
Qed.

(** An acknowledgement is only ever sealed, once, and only when its rows are complete. *)
Lemma receipt_update_ok d old new :
  receipt_update_guard d old new = false ->
  cb_sealed old = false /\ new = with_sealed old true /\ seal_guard d old = false.
Proof.
  unfold receipt_update_guard, receipt_frozen, one_way_violation. intros H. no_violation.
  destruct old as [? ? ? ? ? ? ? ? ? ? ? ? ? so], new as [? ? ? ? ? ? ? ? ? ? ? ? ? sn0].
  simpl in *. match goal with Hn : negb _ = false |- _ => apply negb_false_iff in Hn end.
  subst. by split_and!.
Qed.

Lemma frontier_update_ok d old new :
  frontier_update_guard d old new = false -> af_root new = af_root old /\ af_lookup new = af_lookup old.
Proof. unfold frontier_update_guard. intros H. no_violation. done. Qed.

Lemma harness_update_ok d old new :
  harness_update_guard d old new = false ->
  hd_identity new = hd_identity old /\ hd_seq new = hd_seq old.
Proof. unfold harness_update_guard, hd_identity. intros H. no_violation. split; congruence. Qed.
