(* ===== verification/SchemaInvariants.v ===== *)
(** * What the schema alone guarantees

    Invariants of every database the guarded statements can reach, proved by rule
    induction over [db_reachable]; and what the foreign keys add at a commit. *)

From stdpp Require Import base gmap strings list.
From Stdlib Require Import ZArith Lia.
From S2P Require Import Prelude Contracts Lifecycle WakePolicy AssignmentStates ResponseStates.
From S2P Require Import AttemptStates ExecutionStates Rows TableGuards Database Session SchemaSteps.
From S2P Require Import CohortRows CohortTables.


(** ** Rows sit at their own keys *)

Definition keyed {Row : Type} `{!Table Row} (d : DB) : Prop :=
  map_Forall (fun k r => key_of r = k) (table d).

Lemma update_keeps_key Row (T : Table Row) d old new :
  declared_table Row T -> update_guard d old new = false -> key_of new = key_of old.
Proof.
  intros Hd Hg. destruct Hd; simpl in *; try done.
  - by apply participant_update_ok in Hg as [? _].
  - by apply generation_update_ok in Hg as [? _].
  - by apply pointer_update_ok in Hg as [? _].
  - by apply execution_update_ok in Hg as [(? & _) _].
  - apply attempt_update_ok in Hg as [(? & ? & _) _]. congruence.
  - by apply claim_update_ok in Hg as [(? & _) _].
  - apply obligation_update_ok in Hg as [(? & ? & _) _]. congruence.
  - by apply replay_update_ok in Hg as [? _].
  - by apply receipt_update_ok in Hg as (_ & -> & _).
  - apply frontier_update_ok in Hg as [-> ->]. done.
  - by apply harness_update_ok in Hg as [? _].
Qed.

Definition all_keyed (d : DB) : Prop :=
  forall Row (T : Table Row), declared_table Row T -> keyed (Row := Row) d.

Lemma keyed_step d d' : all_keyed d -> step_effect d d' -> all_keyed d'.
Proof.
  intros Hall H Row0 T0 HT0. unfold keyed.
  destruct H as [->|Row T Hd [new ? ? ? ? -> ? ?|k old new Hold Hg ? ? -> ? ?]].
  - by apply Hall.
  - pose proof (Hall _ _ HT0) as HI. unfold keyed in HI.
    destruct Hd, HT0; simpl in *; first [exact HI | by apply map_Forall_insert_2].
  - pose proof (Hall _ _ HT0) as HI. pose proof (Hall _ _ Hd _ _ Hold) as Hk.
    pose proof (update_keeps_key _ _ _ _ _ Hd Hg) as Hkey. unfold keyed in HI.
    destruct Hd, HT0; simpl in *;
      first [exact HI | apply map_Forall_insert_2; [congruence | exact HI]].
Qed.

Lemma reachable_keyed d : db_reachable d -> all_keyed d.
Proof.
  apply reachable_invariant; [|apply keyed_step].
  intros Row T []; apply map_Forall_empty.
Qed.

(** ** Rows satisfy their CHECK constraints *)

Definition all_checked (d : DB) : Prop :=
  forall Row (T : Table Row), declared_table Row T ->
    map_Forall (fun _ r => row_checks r = true) (table d).

Lemma reachable_checked d : db_reachable d -> all_checked d.
Proof.
  apply reachable_invariant; [intros Row T []; apply map_Forall_empty|].
  intros d1 d2 Hall H Row0 T0 HT0. pose proof (Hall _ _ HT0) as HI.
  destruct H as [->|Row T Hd [new ? ? ? ? -> ? ?|k old new Hold Hg ? ? -> ? ?]]; [done| |];
    destruct Hd, HT0; simpl in *; first [exact HI | by apply map_Forall_insert_2].
Qed.

(** A step keeps a stored row, or replaces it by an accepted update. *)
Lemma row_step Row (T : Table Row) d d' i r :
  declared_table Row T -> step_effect d d' -> table d !! i = Some r ->
  exists r', table d' !! i = Some r' /\ (r' = r \/ update_guard d r r' = false).
Proof.
  intros HT H Hr.
  destruct H as [->|Row1 T1 Hd [new ? Hf ? ? -> ? ?|k old new Hold Hg ? ? -> ? ?]]; [by eauto| |].
  - destruct Hd, HT; simpl in *; try (exists r; by auto);
      (exists r; rewrite lookup_insert_ne; [by auto | congruence]).
  - destruct Hd, HT; simpl in *; try (exists r; by auto);
      (destruct (decide (k = i)) as [->|Hne];
       [exists new; rewrite lookup_insert_eq; simplify_eq; by auto
       |exists r; rewrite lookup_insert_ne by done; by auto]).
Qed.

(** No step removes a row. *)
Lemma row_persists Row (T : Table Row) d d' i :
  declared_table Row T -> rtc db_step d d' -> is_Some (table d !! i) -> is_Some (table d' !! i).
Proof.
  intros HT Hsteps. induction Hsteps as [|d1 d2 d3 Hs _ IH]; intros [r Hr]; [by eexists|].
  apply IH. destruct (row_step _ _ _ _ _ _ HT (db_step_effect _ _ Hs) Hr) as (r' & ? & _). by eexists.
Qed.

(** ** Attempt history *)

(** Each attempt belongs to an execution of the same owner within its budget, and
    follows a failed attempt of a strictly older owner generation. *)
Definition attempt_history (d : DB) : Prop :=
  forall e o a, attempts d !! (e, o) = Some a ->
    (exists x, executions d !! e = Some x /\ ex_owner x = at_owner a /\
               1 <= o <= ex_max_attempts x) /\
    (1 < o -> exists p, attempts d !! (e, o - 1) = Some p /\
                at_lifecycle p = TerminalAttempt AttemptFailed /\ at_generation p < at_generation a).

Lemma terminal_phase_closed t : is_closed (TerminalKind t) = true.
Proof. destruct t; reflexivity. Qed.

Lemma history_attempt_insert d new :
  keyed (Row := AttemptRecord) d -> attempt_history d ->
  attempt_insert_guard d new = false ->
  attempts d !! (at_execution new, at_ordinal new) = None ->
  attempt_history (with_table (Row := AttemptRecord) (<[(at_execution new, at_ordinal new) := new]> (attempts d)) d).
Proof.
  intros Hkey HI Hg Hfresh e o a Ha. simpl in *.
  apply attempt_insert_ok in Hg as ((x & Hx & Hown & Hmax) & _ & Hone & _ & _ & _ & Hretry).
  apply lookup_insert_Some in Ha as [[Hk <-]|[Hk Ha]].
  - simplify_eq. split; [eauto 6|]. intros Hlt.
    destruct (Hretry Hlt) as (_ & _ & p & Hp & Hfail & Hgen).
    exists p. rewrite lookup_insert_ne by (intros [=]; lia). done.
  - destruct (HI _ _ _ Ha) as [Hex Hprev]. split; [done|]. intros Hlt.
    destruct (Hprev Hlt) as (p & Hp & Hrest). exists p. split; [|done].
    rewrite lookup_insert_ne; [done|]. congruence.
Qed.

Lemma history_attempt_update d old new k :
  keyed (Row := AttemptRecord) d -> attempt_history d ->
  attempts d !! k = Some old -> attempt_update_guard d old new = false ->
  attempt_history (with_table (Row := AttemptRecord) (<[k := new]> (attempts d)) d).
Proof.
  intros Hkey HI Hold Hg e o a Ha. simpl in *.
  apply attempt_update_ok in Hg as ((He & Ho & Hown & Hgen & _) & Hopen & _).
  assert (Hprev : forall o' p, attempts d !! (e, o') = Some p ->
     at_lifecycle p = TerminalAttempt AttemptFailed -> k <> (e, o')).
  { intros o' p Hp Hterm ->. rewrite Hold in Hp. simplify_eq.
    unfold at_phase in Hopen. rewrite Hterm in Hopen. simpl in Hopen.
    by rewrite terminal_phase_closed in Hopen. }
  apply lookup_insert_Some in Ha as [[-> <-]|[Hk Ha]].
  - destruct (HI _ _ _ Hold) as [(x & Hx & ? & ?) Hpred]. split.
    + exists x. split_and!; congruence || lia.
    + intros Hlt. destruct (Hpred Hlt) as (p & Hp & Hterm & Hlt').
      exists p. rewrite lookup_insert_ne by eauto. split_and!; [done|done|lia].
  - destruct (HI _ _ _ Ha) as [Hex Hpred]. split; [done|]. intros Hlt.
    destruct (Hpred Hlt) as (p & Hp & Hterm & Hlt').
    exists p. rewrite lookup_insert_ne by eauto. done.
Qed.

Lemma history_executions d (m : gmap string ExecutionRecord) :
  attempt_history d ->
  (forall e x, executions d !! e = Some x ->
     exists x', m !! e = Some x' /\ ex_owner x' = ex_owner x /\
                ex_max_attempts x' = ex_max_attempts x) ->
  attempt_history (with_table (Row := ExecutionRecord) m d).
Proof.
  intros HI Hm e o a Ha. simpl in *. destruct (HI _ _ _ Ha) as [(x & Hx & Hown & Hmax) Hpred].
  split; [|done]. destruct (Hm _ _ Hx) as (x' & Hx' & Hown' & Hmax').
  exists x'. split_and!; [done | congruence | lia | lia].
Qed.

Lemma history_step d d' :
  all_keyed d /\ attempt_history d -> step_effect d d' -> all_keyed d' /\ attempt_history d'.
Proof.
  intros [Hkey HI] Hstep. split; [by eapply keyed_step|].
  each_write Hstep; try exact HI.
  - apply history_executions; [done|]. intros e x Hx. exists x.
    rewrite lookup_insert_ne; [done|]. congruence.
  - apply history_attempt_insert; try done. by apply (Hkey _ _ declared_attempts).
  - apply history_executions; [done|]. intros e x Hx.
    apply execution_update_ok in Hguard as [(_ & _ & Hown & Hmax & _) _].
    destruct (decide (k = e)) as [->|Hne].
    + rewrite lookup_insert_eq. simplify_eq. eauto.
    + rewrite lookup_insert_ne by done. eauto.
  - eapply history_attempt_update; try done. by apply (Hkey _ _ declared_attempts).
Qed.

Lemma reachable_history d : db_reachable d -> attempt_history d.
Proof.
  intros Hd. apply (reachable_invariant (fun d => all_keyed d /\ attempt_history d)); [| |done].
  - split; [apply reachable_keyed; constructor|]. intros e o a Ha. simpl in Ha. by simplify_map_eq.
  - intros d1 d2 HI Hs. by eapply history_step.
Qed.

(** Going down from an attempt reaches every earlier ordinal. *)
Lemma history_down d e o a :
  attempt_history d -> attempts d !! (e, o) = Some a ->
  forall o', 1 <= o' < o ->
    exists p, attempts d !! (e, o') = Some p /\ at_lifecycle p = TerminalAttempt AttemptFailed /\
              at_generation p < at_generation a.
Proof.
  intros HI Ha o' Hlt.
  remember (Z.to_nat (o - o')) as n eqn:Hn. revert o a Ha Hlt Hn.
  induction n as [|n IH]; intros o a Ha Hlt Hn; [lia|].
  destruct (HI _ _ _ Ha) as [_ Hpred]. destruct Hpred as (p & Hp & Hterm & Hgen); [lia|].
  destruct (decide (o' = o - 1)) as [->|Hne]; [by eauto|].
  destruct (IH (o - 1) p Hp) as (q & Hq & Hqt & Hqg); [lia|lia|].
  exists q. split_and!; [done|done|lia].
Qed.

(** ** Publication evidence *)

Record publication_consistent (d : DB) : Prop := {
  intent_execution : forall e t i, publication_intents d !! (e, t) = Some i ->
    is_Some (executions d !! e);
  receipt_intent : forall e t r, publication_receipts d !! (e, t) = Some r ->
    exists i, publication_intents d !! (e, t) = Some i /\ pi_message_id i = pe_message_id r;
  receipt_obligation : forall e t r, publication_receipts d !! (e, t) = Some r ->
    exists o, obligations d !! (e, t) = Some o /\
      (ob_state o = PublishingResponseKind \/
       ob_lifecycle o = PublishedResponse (pe_message_id r) (pe_seq r));
  receipt_not_failed : forall e t r x, publication_receipts d !! (e, t) = Some r ->
    executions d !! e = Some x -> ex_status x <> FailedExec;
  published_receipt : forall e t o m s, obligations d !! (e, t) = Some o ->
    ob_lifecycle o = PublishedResponse m s ->
    exists r, publication_receipts d !! (e, t) = Some r /\ pe_message_id r = m /\ pe_seq r = s;
}.

Lemma published_kind o m s : ob_lifecycle o = PublishedResponse m s ->
  ob_state o = PublishedResponseKind.
Proof. unfold ob_state. by intros ->. Qed.

(** An accepted obligation update that reaches [published] cites its receipt. *)
Lemma membership_published d new :
  obligation_membership_guard d new = false -> ob_state new = PublishedResponseKind ->
  exists r, publication_receipts d !! (ob_execution new, ob_target new) = Some r /\
            ob_lifecycle new = PublishedResponse (pe_message_id r) (pe_seq r).
Proof.
  unfold obligation_membership_guard. intros Hg Hk. rewrite Hk in Hg. simpl in Hg.
  apply orb_false_iff in Hg as [_ Hg]. apply negb_false_iff in Hg.
  destruct (publication_receipts d !! _) as [r|]; [|done]. exists r. split; [done|].
  unfold ob_state in Hk. destruct (ob_lifecycle new); simplify_eq/=. bools. congruence.
Qed.

(** Once a receipt exists its obligation can only become [published]. *)
Lemma receipt_forces_published d old new r :
  obligation_lifecycle_guard d old new = false ->
  publication_receipts d !! (ob_execution old, ob_target old) = Some r ->
  ob_state new = PublishedResponseKind.
Proof.
  unfold obligation_lifecycle_guard. intros Hg Hr. rewrite Hr in Hg. simpl in Hg.
  apply orb_false_iff in Hg as [Hg _]. apply negb_false_iff in Hg. by destruct (ob_state new).
Qed.

Lemma publication_obligation_insert d new :
  publication_consistent d -> obligation_insert_guard d new = false ->
  obligations d !! (ob_execution new, ob_target new) = None ->
  publication_consistent
    (with_table (Row := ResponseObligation)
       (<[(ob_execution new, ob_target new) := new]> (obligations d)) d).
Proof.
  intros [H1 H2 H3 H4 H5] Hg Hfresh. split; simpl; try done.
  - intros e t r Hr. destruct (H3 _ _ _ Hr) as (o & Ho & Hstate). exists o.
    rewrite lookup_insert_ne; [done|]. congruence.
  - intros e t o m s Ho Hlife. apply lookup_insert_Some in Ho as [[Hk <-]|[Hk Ho]]; [|eauto].
    apply orb_false_iff in Hg as [_ Hg]. by rewrite (published_kind _ _ _ Hlife) in Hg.
Qed.

Lemma publication_obligation_update d old new k :
  keyed (Row := ResponseObligation) d -> publication_consistent d ->
  obligations d !! k = Some old -> obligation_update_guard d old new = false ->
  publication_consistent (with_table (Row := ResponseObligation) (<[k := new]> (obligations d)) d).
Proof.
  intros Hkey [H1 H2 H3 H4 H5] Hold Hg.
  apply obligation_update_ok in Hg as ((He & Ht & _) & _ & _ & _ & Hmember & Hlife).
  pose proof (Hkey _ _ Hold) as Hk. simpl in Hk. subst k. split; simpl; try done.
  - intros e t r Hr. destruct (decide ((ob_execution old, ob_target old) = (e, t))) as [Hk|Hne].
    + injection Hk as <- <-. exists new. rewrite lookup_insert_eq. split; [done|]. right.
      destruct (membership_published d new Hmember) as (r' & Hr' & Hnew).
      { by eapply receipt_forces_published. }
      rewrite He, Ht in Hr'. simplify_eq. done.
    + rewrite lookup_insert_ne by done. eauto.
  - intros e t o m s Ho Hpub. apply lookup_insert_Some in Ho as [[Hk <-]|[Hk Ho]]; [|eauto].
    injection Hk as <- <-.
    destruct (membership_published d new Hmember (published_kind _ _ _ Hpub)) as (r & Hr & Hnew).
    rewrite He, Ht in Hr. exists r. split; [done|]. rewrite Hpub in Hnew. by simplify_eq.
Qed.

Lemma publication_receipt_insert d new :
  publication_consistent d -> evidence_insert_guard d new = false ->
  publication_receipts d !! (pe_execution new, pe_target new) = None ->
  present (publication_intents d !! (pe_execution new, pe_target new)) = true ->
  publication_consistent
    (with_table (Row := PublicationEvidence)
       (<[(pe_execution new, pe_target new) := new]> (publication_receipts d)) d).
Proof.
  intros [H1 H2 H3 H4 H5] Hg Hfresh Hintent.
  apply orb_false_iff in Hg as [[Hfail Hid]%orb_false_iff Hpub]. apply negb_false_iff in Hpub.
  split; simpl; try done.
  - intros e t r Hr. apply lookup_insert_Some in Hr as [[Hk <-]|[Hk Hr]]; [|eauto].
    injection Hk as <- <-. destruct (publication_intents d !! _) as [i|]; [|done].
    exists i. split; [done|]. apply negb_false_iff, bool_decide_eq_true in Hid. done.
  - intros e t r Hr. apply lookup_insert_Some in Hr as [[Hk <-]|[Hk Hr]]; [|eauto].
    injection Hk as <- <-. destruct (obligations d !! _) as [o|]; [|done].
    exists o. split; [done|]. left. by destruct (ob_state o).
  - intros e t r x Hr Hx. apply lookup_insert_Some in Hr as [[Hk <-]|[Hk Hr]]; [|eauto].
    injection Hk as <- <-. rewrite Hx in Hfail. by apply bool_decide_eq_false in Hfail.
  - intros e t o m s Ho Hlife. destruct (H5 _ _ _ _ _ Ho Hlife) as (r & Hr & Hrest). exists r.
    rewrite lookup_insert_ne; [done|]. congruence.
Qed.

Lemma publication_execution_insert d new :
  publication_consistent d -> executions d !! ex_id new = None ->
  publication_consistent (with_table (Row := ExecutionRecord) (<[ex_id new := new]> (executions d)) d).
Proof.
  intros [H1 H2 H3 H4 H5] Hfresh. split; simpl; try done.
  - intros e t i Hi. destruct (H1 _ _ _ Hi) as [x Hx]. exists x.
    rewrite lookup_insert_ne; [done|]. congruence.
  - intros e t r x Hr Hx. apply lookup_insert_Some in Hx as [[<- <-]|[Hne Hx]]; [|eauto].
    destruct (H2 _ _ _ Hr) as (i & Hi & _). destruct (H1 _ _ _ Hi) as [y Hy]. congruence.
Qed.

Lemma publication_execution_update d old new k :
  keyed (Row := ExecutionRecord) d -> publication_consistent d ->
  executions d !! k = Some old -> execution_update_guard d old new = false ->
  publication_consistent (with_table (Row := ExecutionRecord) (<[k := new]> (executions d)) d).
Proof.
  intros Hkey [H1 H2 H3 H4 H5] Hold Hg.
  apply execution_update_ok in Hg as ((Hid & _) & _ & _ & _ & _ & Hlife).
  pose proof (Hkey _ _ Hold) as Hk. simpl in Hk. subst k. split; simpl; try done.
  - intros e t i Hi. destruct (decide (ex_id old = e)) as [->|Hne].
    + rewrite lookup_insert_eq. by eexists.
    + rewrite lookup_insert_ne by done. eauto.
  - intros e t r x Hr Hx Hfailed. apply lookup_insert_Some in Hx as [[<- <-]|[Hne Hx]].
    + unfold execution_lifecycle_guard in Hlife. rewrite Hfailed, Hid in Hlife.
      apply orb_false_iff in Hlife as [[_ Hlife]%orb_false_iff _].
      rewrite bool_decide_eq_true_2 in Hlife by done. simpl in Hlife.
      assert (evidence_rows d (ex_id old) = []) as Hnil.
      { by destruct (evidence_rows d (ex_id old)). }
      rewrite (proj1 (select_rows_nil _ _ _) Hnil t) in Hr. done.
    + by eapply H4.
Qed.

Lemma publication_step d d' :
  all_keyed d /\ publication_consistent d -> step_effect d d' ->
  all_keyed d' /\ publication_consistent d'.
Proof.
  intros [Hkey HI] Hstep. split; [by eapply keyed_step|].
  each_write Hstep; try (destruct HI; split; simpl; eassumption).
  - by apply publication_execution_insert.
  - by apply publication_obligation_insert.
  - destruct HI as [H1 H2 H3 H4 H5]. split; simpl; try done.
    + intros e t i Hi. apply lookup_insert_Some in Hi as [[Hk <-]|[Hk Hi]]; [|eauto].
      injection Hk as <- <-. by destruct (executions d !! pi_execution new).
    + intros e t r Hr. destruct (H2 _ _ _ Hr) as (i & Hi & Hid). exists i.
      rewrite lookup_insert_ne; [done|]. congruence.
  - by apply publication_receipt_insert.
  - eapply publication_execution_update; try done. by apply (Hkey _ _ declared_executions).
  - eapply publication_obligation_update; try done. by apply (Hkey _ _ declared_obligations).
Qed.

Lemma reachable_publication d : db_reachable d -> publication_consistent d.
Proof.
  intros Hd.
  apply (reachable_invariant (fun d => all_keyed d /\ publication_consistent d)); [| |done].
  - split; [apply reachable_keyed; constructor|]. split; simpl; intros; by simplify_map_eq.
  - intros d1 d2 HI Hs. by eapply publication_step.
Qed.

(** ** What a commit adds *)

Lemma row_keys_hold_ok {Row : Type} `{!Table Row} d :
  row_keys_hold (Row := Row) d = true <->
  forall k r, table d !! k = Some r -> immediate_keys d r = true /\ deferred_keys d r = true.
Proof. unfold row_keys_hold. by rewrite bool_decide_eq_true. Qed.

(** ** Foreign keys that only ask for a parent row *)

Definition keeps_keys {K A : Type} `{Countable K} (m m' : gmap K A) : Prop :=
  forall k, is_Some (m !! k) -> is_Some (m' !! k).

Lemma keeps_insert {K A : Type} `{Countable K} (m : gmap K A) k v : keeps_keys m (<[k := v]> m).
Proof.
  intros j Hj. destruct (decide (k = j)) as [->|Hne]; [rewrite lookup_insert_eq; by eexists|].
  by rewrite lookup_insert_ne.
Qed.

Lemma present_kept {K A : Type} `{Countable K} (m m' : gmap K A) k :
  keeps_keys m m' -> present (m !! k) = true -> present (m' !! k) = true.
Proof.
  intros Hm Hp. destruct (m !! k) as [a|] eqn:E; [|done].
  destruct (Hm k) as [a' Ha']; [by eexists | by rewrite Ha'].
Qed.

Lemma referenced_kept {K A : Type} `{Countable K} (m m' : gmap K A) (o : option K) :
  keeps_keys m m' -> references o (fun i => present (m !! i)) = true ->
  references o (fun i => present (m' !! i)) = true.
Proof. intros Hm. destruct o as [i|]; [|done]. simpl. by apply present_kept. Qed.

(** Proves that the keys of a child table survive a change of its parent's rows. *)
Ltac kept_keys Hrows :=
  apply row_keys_hold_ok; simpl; intros ? ? Hrow;
  destruct (proj1 (row_keys_hold_ok _) Hrows _ _ Hrow) as [Hnow Hlater]; simpl in Hnow, Hlater;
  split; [|exact Hlater]; bools; rewrite ?andb_true_iff; split_and!;
  first [assumption | eapply present_kept; eassumption | eapply referenced_kept; eassumption].

Section parents.
Context (d : DB).

Lemma cohort_keys_claims (m : gmap string WakeAssignment) :
  keeps_keys (wake_claims d) m ->
  row_keys_hold (Row := ClaimBatchMembers) d = true ->
  row_keys_hold (Row := CohortDeliveries) d = true ->
  row_keys_hold (Row := AwarenessClaimGenerations) d = true ->
  (let d' := with_table (Row := WakeAssignment) m d in
   row_keys_hold (Row := ClaimBatchMembers) d' = true /\
   row_keys_hold (Row := CohortDeliveries) d' = true /\
   row_keys_hold (Row := AwarenessClaimGenerations) d' = true).
Proof. intros Hm H1 H2 H3. split_and!; [kept_keys H1|kept_keys H2|kept_keys H3]. Qed.

Lemma audit_keys_attempts (m : gmap (string * Z) AttemptRecord) :
  keeps_keys (attempts d) m -> row_keys_hold (Row := RecoveryAudit) d = true ->
  row_keys_hold (Row := RecoveryAudit) (with_table (Row := AttemptRecord) m d) = true.
Proof. intros Hm H. kept_keys H. Qed.
End parents.

Lemma committed_rows d :
  foreign_keys_hold d = true ->
  row_keys_hold (Row := CurrentExecutions) d = true /\
  row_keys_hold (Row := ExecutionRecord) d = true /\
  row_keys_hold (Row := AttemptRecord) d = true /\
  row_keys_hold (Row := WakeAssignment) d = true /\
  row_keys_hold (Row := PublicationIntents) d = true /\
  row_keys_hold (Row := PublicationEvidence) d = true.
Proof. unfold foreign_keys_hold. intros H. bools. done. Qed.

Lemma committed_pointer d w p e o :
  foreign_keys_hold d = true -> keyed (Row := CurrentExecutions) d ->
  current_executions d !! w = Some p -> ptr_execution p = Some e -> ptr_attempt p = Some o ->
  exists x, executions d !! e = Some x /\ ex_lifecycle x = ActiveExecution o /\ ex_owner x = w.
Proof.
  intros (Hrows & _)%committed_rows Hkey Hp He Ho.
  apply (proj1 (row_keys_hold_ok d)) with (k := w) (r := p) in Hrows as [_ Hdef]; [|done].
  pose proof (Hkey _ _ Hp) as Hown. simpl in Hown, Hdef. unfold pointer_deferred_keys in Hdef.
  rewrite He, Ho in Hdef. simpl in Hdef. bools.
  destruct (executions d !! e) as [x|]; [|done]. bools. exists x. split; [done|].
  unfold ex_status, ex_ordinal in *. destruct (ex_lifecycle x); simplify_eq/=. by split.
Qed.

Lemma committed_active d e x o :
  foreign_keys_hold d = true -> keyed (Row := ExecutionRecord) d ->
  executions d !! e = Some x -> ex_lifecycle x = ActiveExecution o ->
  exists p, current_executions d !! ex_owner x = Some p /\
            ptr_execution p = Some e /\ ptr_attempt p = Some o.
Proof.
  intros (_ & Hrows & _)%committed_rows Hkey Hx Hlife.
  apply (proj1 (row_keys_hold_ok d)) with (k := e) (r := x) in Hrows as [_ Hdef]; [|done].
  pose proof (Hkey _ _ Hx) as Hid. simpl in Hid, Hdef. unfold execution_deferred_keys in Hdef.
  unfold active_execution_id, active_attempt_ordinal, ex_status, ex_ordinal in Hdef.
  rewrite Hlife in Hdef. simpl in Hdef. bools.
  destruct (current_executions d !! ex_owner x) as [p|]; [|done]. bools.
  exists p. split_and!; congruence.
Qed.

Lemma committed_live d e o a p lease done dead :
  foreign_keys_hold d = true -> keyed (Row := AttemptRecord) d ->
  attempts d !! (e, o) = Some a -> at_lifecycle a = LiveAttempt p lease done dead ->
  exists x, executions d !! e = Some x /\ ex_lifecycle x = ActiveExecution o /\
            ex_owner x = at_owner a.
Proof.
  intros (_ & _ & Hrows & _)%committed_rows Hkey Ha Hlive.
  apply (proj1 (row_keys_hold_ok (Row := AttemptRecord) d)) with (k := (e, o)) (r := a) in Hrows as [_ Hdef]; [|done].
  pose proof (Hkey _ _ Ha) as Hid. simpl in Hid, Hdef. unfold attempt_deferred_keys in Hdef.
  unfold active_required_status, phase_kind, at_phase in Hdef. rewrite Hlive in Hdef.
  simpl in Hdef. injection Hid as He Ho. rewrite He, Ho in Hdef.
  destruct (executions d !! e) as [x|]; [|done]. bools. exists x. split; [done|].
  unfold ex_status, ex_ordinal in *. destruct (ex_lifecycle x); simplify_eq/=. by split.
Qed.

(** ** Theorems *)

(** C32: In every reachable store the attempts of an execution are numbered from one without
    gaps and within its budget, each belongs to the execution's owner, and every attempt but
    the last has failed and ran under an older generation than its successors. *)
Theorem attempts_contiguous_and_fenced (d : DB) (e : string) (o : Z) (a : AttemptRecord) :
  db_reachable d -> attempts d !! (e, o) = Some a ->
  (exists x, executions d !! e = Some x /\ ex_owner x = at_owner a /\ 1 <= o <= ex_max_attempts x) /\
  forall o', 1 <= o' < o ->
    exists p, attempts d !! (e, o') = Some p /\ at_lifecycle p = TerminalAttempt AttemptFailed /\
              at_generation p < at_generation a.
Proof.
  intros Hd Ha. pose proof (reachable_history d Hd) as HI. split.
  - by apply (HI _ _ _ Ha).
  - by apply history_down with (o := o).
Qed.

(** In every committed store an owner's pointer names an execution and attempt exactly
    when that execution is active in that attempt and belongs to the owner. *)
Theorem pointer_names_active_execution (d : DB) (w e : string) (o : Z) :
  db_reachable d -> foreign_keys_hold d = true ->
  (exists p, current_executions d !! w = Some p /\ ptr_execution p = Some e /\ ptr_attempt p = Some o)
  <-> (exists x, executions d !! e = Some x /\ ex_lifecycle x = ActiveExecution o /\ ex_owner x = w).
Proof.
  intros Hd Hfk. pose proof (reachable_keyed d Hd) as Hkey. split.
  - intros (p & Hp & He & Ho). eapply committed_pointer; try done. apply (Hkey _ _ declared_pointers).
  - intros (x & Hx & Hlife & <-). eapply committed_active; try done.
    apply (Hkey _ _ declared_executions).
Qed.

(** C33: In every committed store an owner has at most one live attempt, over all its
    executions. *)
Theorem one_live_attempt_per_owner (d : DB) e1 o1 a1 p1 l1 b1 x1 e2 o2 a2 p2 l2 b2 x2 :
  db_reachable d -> foreign_keys_hold d = true ->
  attempts d !! (e1, o1) = Some a1 -> at_lifecycle a1 = LiveAttempt p1 l1 b1 x1 ->
  attempts d !! (e2, o2) = Some a2 -> at_lifecycle a2 = LiveAttempt p2 l2 b2 x2 ->
  at_owner a1 = at_owner a2 -> (e1, o1) = (e2, o2).
Proof.
  intros Hd Hfk H1 L1 H2 L2 Hown. pose proof (reachable_keyed d Hd) as Hkey.
  pose proof (Hkey _ _ declared_attempts) as Ka. pose proof (Hkey _ _ declared_executions) as Ke.
  destruct (committed_live d e1 o1 a1 _ _ _ _ Hfk Ka H1 L1) as (y1 & Y1 & A1 & O1).
  destruct (committed_live d e2 o2 a2 _ _ _ _ Hfk Ka H2 L2) as (y2 & Y2 & A2 & O2).
  destruct (committed_active d _ _ _ Hfk Ke Y1 A1) as (q1 & Q1 & ? & ?).
  destruct (committed_active d _ _ _ Hfk Ke Y2 A2) as (q2 & Q2 & ? & ?).
  rewrite O1, Hown in Q1. rewrite O2 in Q2. congruence.
Qed.

(** In every committed store an obligation is published with a message and sequence
    number exactly when the route's receipt records that message and number. *)
Theorem published_iff_receipt (d : DB) (e t m : string) (s : Z) :
  db_reachable d -> foreign_keys_hold d = true ->
  (exists o, obligations d !! (e, t) = Some o /\ ob_lifecycle o = PublishedResponse m s) <->
  (exists r, publication_receipts d !! (e, t) = Some r /\ pe_message_id r = m /\ pe_seq r = s).
Proof.
  intros Hd Hfk. destruct (reachable_publication d Hd) as [_ _ Hob _ Hpub].
  pose proof (reachable_keyed d Hd _ _ declared_receipts) as Hkey. split.
  - intros (o & Ho & Hlife). eauto.
  - intros (r & Hr & <- & <-). destruct (Hob _ _ _ Hr) as (o & Ho & [Hstate|Hlife]); [|eauto].
    apply committed_rows in Hfk as (_ & _ & _ & _ & _ & Hrows).
    apply (proj1 (row_keys_hold_ok (Row := PublicationEvidence) d)) with (k := (e, t)) (r := r) in Hrows as [_ Hdef]; [|done].
    pose proof (Hkey _ _ Hr) as Hid. simpl in Hid, Hdef. rewrite Hid, Ho in Hdef.
    unfold ob_publication_settled in Hdef. by rewrite Hstate in Hdef.
Qed.

(** Every stored receipt belongs to a frozen intent with the same message identity, of
    an execution that has not failed. *)
Theorem receipt_matches_frozen_intent (d : DB) (e t : string) (r : PublicationEvidence) :
  db_reachable d -> publication_receipts d !! (e, t) = Some r ->
  (exists i, publication_intents d !! (e, t) = Some i /\ pi_message_id i = pe_message_id r) /\
  (exists x, executions d !! e = Some x /\ ex_status x <> FailedExec).
Proof.
  intros Hd Hr. destruct (reachable_publication d Hd) as [Hex Hint _ Hfail _].
  destruct (Hint _ _ _ Hr) as (i & Hi & Hid). split; [eauto|].
  destruct (Hex _ _ _ Hi) as [x Hx]. eauto.
Qed.

(** ** Facts that no later write takes back *)

(** A terminal attempt's row never changes again. *)
Lemma terminal_attempt_kept (d d' : DB) (k : string * Z) (a : AttemptRecord) (t : TerminalPhase) :
  rtc db_step d d' -> attempts d !! k = Some a -> at_lifecycle a = TerminalAttempt t ->
  attempts d' !! k = Some a.
Proof.
  intros Hsteps Ha Hterm. induction Hsteps as [|d1 d2 d3 Hs _ IH]; [done|].
  apply IH.
  destruct (row_step _ _ _ _ _ _ declared_attempts (db_step_effect _ _ Hs) Ha) as (a' & Ha' & [->|Hg]);
    [done|].
  apply attempt_update_ok in Hg as (_ & Hopen & _). unfold at_phase in Hopen.
  rewrite Hterm in Hopen. simpl in Hopen. by rewrite terminal_phase_closed in Hopen.
Qed.

(** A terminal attempt's row is never changed or removed by any accepted statement. *)
Theorem terminal_attempt_immutable (d d' : DB) (k : string * Z) (a : AttemptRecord) (t : TerminalPhase) :
  rtc db_step d d' -> attempts d !! k = Some a -> at_lifecycle a = TerminalAttempt t ->
  attempts d' !! k = Some a.
Proof. apply terminal_attempt_kept. Qed.

Lemma replay_revoked_step r r' :
  ra_allows_retry r = false ->
  Z.lor (ra_facts r') (ra_facts r) = ra_facts r' ->
  (ra_side_effects r = true -> ra_side_effects r' = true) ->
  (ra_safe r' = true -> ra_safe r = true) -> ra_allows_retry r' = false.
Proof.
  unfold ra_allows_retry, ReplayFact_NONE. intros Hno Hfacts Hside Hsafe.
  apply not_true_iff_false. intros Hyes. bools.
  match goal with H : ra_facts r' = 0 |- _ => rewrite H, Z.lor_0_l in Hfacts end.
  rewrite (Hsafe ltac:(done)), Hfacts in Hno. simpl in Hno.
  apply negb_false_iff in Hno. specialize (Hside Hno). congruence.
Qed.

(** A denied retry stays denied, with every fact behind it. *)
Lemma replay_revoked_steps (d d' : DB) (e : string) (r : ReplayAssessments) :
  rtc db_step d d' -> replay_assessments d !! e = Some r -> ra_allows_retry r = false ->
  exists r', replay_assessments d' !! e = Some r' /\ ra_allows_retry r' = false /\
    forall n, Z.testbit (ra_facts r) n = true -> Z.testbit (ra_facts r') n = true.
Proof.
  intros Hsteps. revert r. induction Hsteps as [|d1 d2 d3 Hs _ IH]; intros r Hr Hno; [by eauto|].
  destruct (row_step _ _ _ _ _ _ declared_replays (db_step_effect _ _ Hs) Hr) as (r1 & Hr1 & [->|Hg]).
  { by apply IH. }
  apply replay_update_ok in Hg as (_ & _ & Hfacts & Hside & Hsafe).
  destruct (IH r1 Hr1) as (r2 & Hr2 & Hno2 & Hbits).
  { by eapply replay_revoked_step. }
  exists r2. split_and!; [done|done|]. intros n Hn. apply Hbits.
  by rewrite <- Hfacts, Z.lor_spec, Hn, orb_true_r.
Qed.

(** An assessment that denies retry never allows it again, and no recorded fact is ever
    lost. *)
Theorem replay_revocation_permanent (d d' : DB) (e : string) (r : ReplayAssessments) :
  rtc db_step d d' -> replay_assessments d !! e = Some r -> ra_allows_retry r = false ->
  exists r', replay_assessments d' !! e = Some r' /\ ra_allows_retry r' = false /\
    forall n, Z.testbit (ra_facts r) n = true -> Z.testbit (ra_facts r') n = true.
Proof. apply replay_revoked_steps. Qed.

(** ** Claims *)

(** A bound claim's execution is stored. *)
Definition claims_bound (d : DB) : Prop :=
  forall i c e, wake_claims d !! i = Some c -> wa_execution_id c = Some e ->
    is_Some (executions d !! e).

Lemma execution_kept d d' e : step_effect d d' -> is_Some (executions d !! e) ->
  is_Some (executions d' !! e).
Proof.
  intros H [x Hx]. destruct (row_step _ _ _ _ _ _ declared_executions H Hx) as (x' & Hx' & _).
  by exists x'.
Qed.

Lemma claim_keys_bound d c e :
  immediate_keys (Row := WakeAssignment) d c = true -> wa_execution_id c = Some e ->
  is_Some (executions d !! e).
Proof.
  simpl. intros Hk He. rewrite He in Hk. simpl in Hk. bools.
  by destruct (executions d !! e).
Qed.

Lemma reachable_claims_bound d : db_reachable d -> claims_bound d.
Proof.
  apply reachable_invariant; [intros i c e Hc; simpl in Hc; by simplify_map_eq|].
  intros d1 d2 HI Hstep i c e Hc He.
  assert (Hkept : is_Some (executions d1 !! e) -> is_Some (executions d2 !! e))
    by (by apply execution_kept).
  each_write Hstep; try (by eapply Hkept, HI).
  - apply lookup_insert_Some in Hc as [[_ <-]|[_ Hc]]; [|by eapply HI].
    by eapply (claim_keys_bound _ new).
  - apply lookup_insert_Some in Hc as [[_ <-]|[_ Hc]]; [|by eapply HI].
    by eapply (claim_keys_bound _ new).
Qed.

(** Every stored claim satisfies its constructor, given well-formed identity texts. *)
Lemma stored_claim_decodes d i c :
  db_reachable d -> wake_claims d !! i = Some c ->
  length_between (wa_id c) 1 256 = true -> length_between (wa_lookup c) 1 256 = true ->
  length_between (wa_message_id c) 1 256 = true ->
  assignment_post_init c = Ok tt.
Proof.
  intros Hd Hc Hid0 Hlookup Hmsg.
  pose proof (reachable_checked d Hd _ _ declared_claims _ _ Hc) as Hchk. simpl in Hchk.
  unfold assignment_checks in Hchk. bools. unfold assignment_post_init.
  rewrite !bind_ok_unit. split_and!.
  - apply each_ok. repeat constructor; cbn [fst snd]; by apply require_identifier_ok.
  - unfold wa_exact_target in *. destruct (assignment_exact_target _) as [t|]; [|done].
    simpl. by apply (require_identifier_ok t "exact_target").
  - destruct (assignment_execution_id (wa_lifecycle c)) as [e|] eqn:Ee; [|done].
    destruct (reachable_claims_bound d Hd _ _ _ Hc Ee) as [x Hx].
    pose proof (reachable_checked d Hd _ _ declared_executions _ _ Hx) as Hx'. simpl in Hx'.
    pose proof (reachable_keyed d Hd _ _ declared_executions _ _ Hx) as Hid. simpl in Hid.
    subst e. apply execution_checks_post_init in Hx' as [Hpost _].
    unfold execution_post_init in Hpost. rewrite !bind_ok_unit in Hpost. apply Hpost.
  - apply refuse_ok, orb_false_iff. rewrite !Z.leb_gt. done.
  - apply refuse_ok, orb_false_iff. rewrite !Z.ltb_ge. done.
Qed.

(** A recipient has one claim at a wire sequence. *)
Definition claims_unique (d : DB) : Prop :=
  forall i j c c', wake_claims d !! i = Some c -> wake_claims d !! j = Some c' ->
    (wa_lookup c, wa_wire_seq c) = (wa_lookup c', wa_wire_seq c') -> i = j.

Lemma unique_claim_write d i new :
  claims_unique d ->
  map_exists (conflicts (Row := WakeAssignment) new) (delete i (wake_claims d)) = false ->
  claims_unique (with_table (Row := WakeAssignment) (<[i := new]> (wake_claims d)) d).
Proof.
  intros HI Hnone j1 j2 c1 c2 H1 H2 Heq. simpl in *.
  assert (Hother : forall j c, i <> j -> wake_claims d !! j = Some c ->
     (wa_lookup new, wa_wire_seq new) <> (wa_lookup c, wa_wire_seq c)).
  { intros j c Hne Hc He. apply (map_exists_false _ _ j c) in Hnone.
    - by apply bool_decide_eq_false in Hnone.
    - by rewrite lookup_delete_ne. }
  apply lookup_insert_Some in H1 as [[<- <-]|[N1 H1]];
    apply lookup_insert_Some in H2 as [[<- <-]|[N2 H2]]; try done.
  - by destruct (Hother _ _ N2 H2).
  - by destruct (Hother _ _ N1 H1).
  - by eapply HI.
Qed.

Lemma reachable_claims_unique d : db_reachable d -> claims_unique d.
Proof.
  apply reachable_invariant; [intros i j c c' Hc; simpl in Hc; by simplify_map_eq|].
  intros d1 d2 HI Hstep. each_write Hstep; try exact HI.
  - apply unique_claim_write; [done|]. simpl. by rewrite delete_id.
  - by apply unique_claim_write.
Qed.
