(* ===== verification/RowTypes.v ===== *)
(** * Stored rows are values of their row types

    A row read back from SQLite is constructed again, and its constructor validates it
    ([__post_init__]).  The CHECK constraints and foreign keys of the tables of this file
    imply those validations, so reading such a row from a committed store never raises. *)

From stdpp Require Import base gmap strings list.
From Stdlib Require Import ZArith Lia.
From S2P Require Import Prelude Contracts Lifecycle WakePolicy AssignmentStates ResponseStates.
From S2P Require Import AttemptStates ExecutionStates Rows TableGuards Database CohortTables Session SchemaSteps.
From S2P Require Import SchemaInvariants.

(** The tables whose constraints imply their constructor's checks.  The remaining validated
    tables, claims, their links to executions and intents, keep texts that no CHECK bounds. *)
Inductive self_typed : forall Row : Type, Table Row -> Prop :=
| typed_pointers : self_typed CurrentExecutions current_executions_table
| typed_executions : self_typed ExecutionRecord executions_table
| typed_attempts : self_typed AttemptRecord attempts_table
| typed_obligations : self_typed ResponseObligation obligations_table
| typed_replays : self_typed ReplayAssessments replay_assessments_table
| typed_audits : self_typed RecoveryAudit recovery_audits_table.

Section store.
Context (d : DB) (Hd : db_reachable d) (Hfk : foreign_keys_hold d = true).

Lemma stored_execution_valid e x : executions d !! e = Some x -> execution_post_init x = Ok tt /\ ex_id x = e.
Proof.
  intros Hx. pose proof (reachable_checked d Hd _ _ declared_executions _ _ Hx) as Hchk.
  apply execution_checks_post_init in Hchk as [Hpost _]. split; [done|].
  exact (reachable_keyed d Hd _ _ declared_executions _ _ Hx).
Qed.

Lemma referenced_execution_id e : present (executions d !! e) = true -> validate_execution_id e = Ok tt.
Proof.
  destruct (executions d !! e) as [x|] eqn:Hx; [|done]. intros _.
  destruct (stored_execution_valid _ _ Hx) as [Hpost Hid]. unfold execution_post_init in Hpost.
  rewrite !bind_ok_unit in Hpost. rewrite <- Hid. apply Hpost.
Qed.

Lemma stored_keys :
  row_keys_hold (Row := CurrentExecutions) d = true /\ row_keys_hold (Row := AttemptRecord) d = true /\
  row_keys_hold (Row := ExecutionAssignmentLink) d = true /\ row_keys_hold (Row := ResponseObligation) d = true /\
  row_keys_hold (Row := ReplayAssessments) d = true /\ row_keys_hold (Row := RecoveryAudit) d = true.
Proof. clear Hd. unfold foreign_keys_hold in Hfk. bools. done. Qed.

Lemma pointer_typed w p : current_executions d !! w = Some p -> pointer_post_init p = Ok tt.
Proof.
  intros Hp. pose proof (reachable_checked d Hd _ _ declared_pointers _ _ Hp) as Hchk. simpl in Hchk.
  unfold pointer_checks in Hchk. bools.
  unfold pointer_post_init. rewrite !bind_ok_unit, !refuse_spec.
  destruct (ptr_execution p) as [e|] eqn:He, (ptr_attempt p) as [o|] eqn:Ho; try done; split_and!; try done;
    try (by apply Z.ltb_ge).
  - destruct (committed_pointer d w p e o Hfk (reachable_keyed d Hd _ _ declared_pointers) Hp He Ho)
      as (x & Hx & _). apply referenced_execution_id. by rewrite Hx.
  - destruct (committed_pointer d w p e o Hfk (reachable_keyed d Hd _ _ declared_pointers) Hp He Ho)
      as (x & Hx & Hlife & _). destruct (stored_execution_valid _ _ Hx) as [Hpost _].
    unfold execution_post_init in Hpost. rewrite !bind_ok_unit in Hpost. destruct Hpost as (_ & _ & Hb & _).
    apply validate_budget_check in Hb as [Hb _]. rewrite Hlife in Hb. simpl in Hb. bools.
    apply refuse_spec, Z.leb_gt. lia.
Qed.

Lemma attempt_typed k a : attempts d !! k = Some a -> attempt_post_init a = Ok tt.
Proof.
  intros Ha. destruct stored_keys as (_ & Hk & _).
  destruct (proj1 (row_keys_hold_ok (Row := AttemptRecord) d) Hk k a Ha) as [Hi _].
  apply (proj1 (attempt_checks_post_init a)). split.
  - exact (reachable_checked d Hd _ _ declared_attempts _ _ Ha).
  - apply referenced_execution_id. simpl in Hi. bools. done.
Qed.

(** A link decodes with the claim it names. *)
Lemma link_typed k l c :
  execution_claims d !! k = Some l -> wake_claims d !! ln_assignment l = Some c -> assignment_post_init c = Ok tt ->
  link_post_init l = Ok tt.
Proof.
  intros Hl Hc Hpost. destruct stored_keys as (_ & _ & Hk & _).
  destruct (proj1 (row_keys_hold_ok (Row := ExecutionAssignmentLink) d) Hk k l Hl) as [Hi _]. simpl in Hi. bools.
  pose proof (reachable_checked d Hd _ _ declared_links _ _ Hl) as Hchk. simpl in Hchk. bools.
  unfold link_post_init. rewrite !bind_ok_unit, refuse_spec. split_and!.
  - by apply referenced_execution_id.
  - pose proof (reachable_keyed d Hd _ _ declared_claims _ _ Hc) as Hkey. simpl in Hkey.
    unfold assignment_post_init in Hpost. rewrite bind_ok_unit in Hpost. destruct Hpost as [Hids _].
    apply each_ok in Hids. rewrite Forall_cons in Hids. simpl in Hids. rewrite <- Hkey. apply Hids.
  - by apply Z.ltb_ge.
Qed.

Lemma obligation_typed k o : obligations d !! k = Some o -> obligation_post_init o = Ok tt.
Proof.
  intros Ho. destruct stored_keys as (_ & _ & _ & Hk & _).
  destruct (proj1 (row_keys_hold_ok (Row := ResponseObligation) d) Hk k o Ho) as [Hi _]. simpl in Hi.
  pose proof (reachable_checked d Hd _ _ declared_obligations _ _ Ho) as Hchk. simpl in Hchk.
  unfold obligation_checks in Hchk. bools.
  unfold obligation_post_init. rewrite !bind_ok_unit, !refuse_spec. split_and!.
  - by apply referenced_execution_id.
  - by apply require_identifier_ok.
  - by apply Z.leb_gt.
  - apply orb_false_iff. rewrite !Z.ltb_ge. done.
Qed.

Lemma replay_typed k r : replay_assessments d !! k = Some r -> replay_post_init r = Ok tt.
Proof.
  intros Hr. destruct stored_keys as (_ & _ & _ & _ & Hk & _).
  destruct (proj1 (row_keys_hold_ok (Row := ReplayAssessments) d) Hk k r Hr) as [Hi _]. simpl in Hi.
  apply replay_checks_post_init. split; [|by apply referenced_execution_id].
  exact (reachable_checked d Hd _ _ declared_replays _ _ Hr).
Qed.

Lemma audit_typed k a : recovery_audits d !! k = Some a -> audit_post_init a = Ok tt.
Proof.
  intros Ha. destruct stored_keys as (_ & _ & _ & _ & _ & Hk).
  destruct (proj1 (row_keys_hold_ok (Row := RecoveryAudit) d) Hk k a Ha) as [Hi _]. simpl in Hi. bools.
  pose proof (reachable_checked d Hd _ _ declared_audits _ _ Ha) as Hchk. simpl in Hchk.
  unfold audit_checks in Hchk. bools. unfold audit_post_init. rewrite bind_ok_unit, refuse_spec. split.
  - by apply referenced_execution_id.
  - rewrite !orb_false_iff, Z.leb_gt, !Z.ltb_ge. done.
Qed.
End store.

(** C39: Every stored row of an execution, attempt, pointer, obligation, replay assessment
    or recovery audit is a value of its row type in every committed store: its constructor's
    validation succeeds, so reading the row by its key returns it and never raises. *)
Theorem stored_rows_decode (d : DB) (Row : Type) (T : Table Row) (k : row_key) (r : Row) :
  db_reachable d -> foreign_keys_hold d = true -> self_typed Row T -> table d !! k = Some r ->
  post_init r = Ok tt /\ one k d = Ok (Some r).
Proof.
  intros Hd Hfk HT Hr. enough (Hpost : post_init r = Ok tt).
  { split; [done|]. unfold one. rewrite Hr, Hpost. done. }
  destruct HT; simpl in *.
  - by eapply pointer_typed.
  - by eapply stored_execution_valid.
  - by eapply attempt_typed.
  - by eapply obligation_typed.
  - by eapply replay_typed.
  - by eapply audit_typed.
Qed.
