(* ===== verification/Replay.v ===== *)
(** * Replay assessments: what a failed attempt may have done

    The store operations of [ReplayState]/[ReplayAssessments] in
    [coordination/tables/executions.py], and the two [prepare_execution_retry] methods of
    [turn_failure.py] that consume them. *)

From stdpp Require Import base gmap strings list.
From Stdlib Require Import ZArith Lia.
From S2P Require Import Prelude Contracts Lifecycle WakePolicy AssignmentStates ResponseStates.
From S2P Require Import AttemptStates ExecutionStates Rows TableGuards Database Session.

(** [ReplayAssessments.for_execution] *)
Definition replay_for_execution (execution_id : string) : M (option ReplayAssessments) :=
  reading (one (Row := ReplayAssessments) execution_id).

(** The stored row already joins these facts and denies replay. *)
Definition already_joined (observed : Z) (r : ReplayAssessments) : bool :=
  (Z.land (ra_facts r) observed =? observed) && negb (ra_safe r) && ra_side_effects r.

(** The [ON CONFLICT (execution_id) DO UPDATE SET ... WHERE ...] clause *)
Definition join_facts (observed : Z) (r : ReplayAssessments) : ReplayAssessments :=
  mkReplayAssessments (ra_execution r) (Z.lor (ra_facts r) observed) false true (ra_revision r + 1).

Definition join_changes (observed : Z) (r : ReplayAssessments) : bool :=
  negb (Z.lor (ra_facts r) observed =? ra_facts r) || ra_safe r || negb (ra_side_effects r).

(** [ReplayAssessments.accumulate] *)
Definition accumulate (execution_id : string) (observed : Z) : M unit :=
  stored ← reading (fun d => Ok (replay_assessments d !! execution_id));
  if (observed =? 0) || match stored with Some r => already_joined observed r | None => false end
  then mret tt
  else
    let joined := mkReplayAssessments execution_id observed false true 1 in
    _ ← lift (replay_post_init joined);
    match stored with
    | None => insert joined
    | Some _ => _ ← update (Row := ReplayAssessments) execution_id (join_changes observed)
                     (join_facts observed);
                mret tt
    end.

(** [NoReplayAssessment.record] inserts; [ReplayAssessments.record] validates a successor. *)
Definition replay_record (self : option ReplayAssessments) (after : ReplayAssessments) : M bool :=
  match self with
  | None => _ ← insert after; mret true
  | Some r =>
      _ ← lift (replay_require_execution (Some after) (ra_execution r));
      let same := mkReplayAssessments (ra_execution r) (ra_facts r) (ra_safe r) (ra_side_effects r)
                    (ra_revision after) in
      if bool_decide (same = after) then mret false
      else
        _ ← lift (replay_require_successor r after);
        _ ← update (Row := ReplayAssessments) (ra_execution r) (fun _ => true)
            (fun old => mkReplayAssessments (ra_execution old) (ra_facts after) (ra_safe after)
                          (ra_side_effects after) (ra_revision r + 1));
        mret true
  end.

(** [ReplayState.observe] *)
Definition replay_observe (self : option ReplayAssessments) (execution_id : string) (facts : Z)
    (replay_safe side_effects_possible : bool) : M bool :=
  _ ← lift (replay_require_execution self execution_id);
  let after := mkReplayAssessments execution_id facts replay_safe side_effects_possible
                 (replay_next_revision self) in
  _ ← lift (replay_post_init after);
  replay_record self after.

(** [ReplayAssessments.authorize_if_unobserved]: only a missing assessment is authorized. *)
Definition authorize_if_unobserved (execution_id : string) : M unit :=
  replay ← replay_for_execution execution_id;
  match replay with
  | Some _ => mret tt
  | None => _ ← replay_observe None execution_id ReplayFact_NONE true false; mret tt
  end.

(** [ReplayAssessments.revoke] *)
Definition revoke (execution_id : string) : M unit :=
  replay ← replay_for_execution execution_id;
  match replay with
  | None => mret tt
  | Some r =>
      if ra_safe r then
        let after := mkReplayAssessments (ra_execution r) (ra_facts r) false (ra_side_effects r)
                       (ra_revision r + 1) in
        _ ← lift (replay_post_init after);
        _ ← replay_record (Some r) after; mret tt
      else mret tt
  end.

(** [TurnFailure.prepare_execution_retry]: a provider refusal
    ([RetryableProviderFailure]) may authorize a retry, any other failure revokes. *)
Inductive TurnFailure : Type := RetryableProviderFailure | OtherTurnFailure.

Definition prepare_execution_retry (failure : TurnFailure) (execution_id : string) : M unit :=
  match failure with
  | RetryableProviderFailure => authorize_if_unobserved execution_id
  | OtherTurnFailure => revoke execution_id
  end.

(** ** Facts *)

Definition only_replay (e : string) (d d' : DB) : Prop :=
  exists r, d' = with_table (Row := ReplayAssessments) (<[e := r]> (replay_assessments d)) d.

Lemma exec_insert_replay d r d' :
  exec_insert d r = Ok d' ->
  d' = with_table (Row := ReplayAssessments) (<[ra_execution r := r]> (replay_assessments d)) d.
Proof. by intros (_ & _ & (_ & _ & -> & _)%write_row_ok)%exec_insert_ok. Qed.

(** Recorded facts are joined, and replay is denied, whatever was stored before. *)
Lemma accumulate_ok e observed s u s' :
  accumulate e observed s = (Ok u, s') -> observed <> 0 ->
  exists r, replay_assessments (db s') !! e = Some r /\
    Z.land (ra_facts r) observed = observed /\ ra_safe r = false /\ ra_side_effects r = true.
Proof.
  unfold accumulate. intros H Hobs. m_step. m_step.
  match goal with Hr : Ok _ = Ok ?x |- _ => injection Hr as <- end.
  rewrite (proj2 (Z.eqb_neq observed 0) Hobs) in H. simpl in H.
  destruct (replay_assessments (db s) !! e) as [r|] eqn:Er.
  - destruct (already_joined observed r) eqn:Ej.
    + m_inv. unfold already_joined in Ej. bools. eauto.
    + m_inv. match goal with Hu : update _ _ _ _ = _ |- _ =>
        apply update_ok in Hu as (d' & Hu & ->) end.
      match goal with Hu : exec_update _ _ _ _ = _ |- _ =>
        apply exec_update_ok in Hu as [(_ & -> & Hnone)|(_ & old & Hold & _ & _ & Hw)] end.
      * simpl in *. specialize (Hnone r Er). unfold join_changes in Hnone. bools.
        unfold already_joined in Ej.
        match goal with Hl : Z.lor _ _ = ra_facts r, Hs : ra_safe r = false,
                        Hx : ra_side_effects r = true |- _ =>
          rewrite Hs, Hx, andb_true_r, andb_true_r in Ej; apply Z.eqb_neq in Ej;
          exfalso; apply Ej; by rewrite <- Hl, land_lor_part end.
      * apply write_row_ok in Hw as (_ & _ & -> & _). simpl in *. rewrite Er in Hold.
        simplify_eq. rewrite lookup_insert_eq. eexists. split; [done|]. simpl.
        by rewrite land_lor_part.
  - m_inv. match goal with Hi : insert _ _ = _ |- _ =>
      apply insert_ok in Hi as (_ & d' & Hi & ->) end.
    match goal with Hi : exec_insert _ _ = _ |- _ => apply exec_insert_replay in Hi as -> end.
    simpl. rewrite lookup_insert_eq. eexists. split; [done|]. simpl. by rewrite Z.land_diag.
Qed.
