(* ===== verification/Stepwise.v ===== *)
(** * Store methods only take schema steps

    [stepwise m] says that whatever a store method [m] returns or raises, the rows it
    leaves are reached from the rows it found by accepted statements.  The combinators
    below and the [stepwise] hint database prove it for every operation of the stores, so
    the invariants of [SchemaInvariants.v] hold in every state the program reaches. *)

From stdpp Require Import base gmap strings list.
From Stdlib Require Import ZArith Lia.
From S2P Require Import Prelude Contracts Lifecycle WakePolicy AssignmentStates ResponseStates.
From S2P Require Import AttemptStates ExecutionStates Rows TableGuards Database Session SchemaSteps.
From S2P Require Import Replay.

Definition stepwise {A : Type} (m : M A) : Prop := forall s, rtc db_step (db s) (db (m s).2).

Lemma reachable_steps d d' : db_reachable d -> rtc db_step d d' -> db_reachable d'.
Proof. intros Hd Hs. induction Hs as [|d1 d2 d3 H12 _ IH]; [done|]. apply IH. by econstructor. Qed.

Section combinators.
Context {A B : Type}.

Lemma stepwise_lift (o : outcome A) : stepwise (lift o).
Proof. intros s. apply rtc_refl. Qed.

Lemma stepwise_reading (q : DB -> outcome A) : stepwise (reading q).
Proof. intros s. apply rtc_refl. Qed.

Lemma stepwise_ret (a : A) : stepwise (mret a).
Proof. intros s. apply rtc_refl. Qed.

Lemma stepwise_bind (m : M A) (f : A -> M B) :
  stepwise m -> (forall a, stepwise (f a)) -> stepwise (mbind f m).
Proof.
  intros Hm Hf s. unfold mbind, M_bind. specialize (Hm s). destruct (m s) as [[a|e] s1]; [|done].
  etrans; [exact Hm|]. apply Hf.
Qed.

Lemma stepwise_writing (m : M A) : stepwise m -> stepwise (writing m).
Proof.
  intros Hm s. unfold writing. specialize (Hm s). destruct (m s) as [[a|e] s1]; [|apply rtc_refl].
  destruct (foreign_keys_hold (db s1)); [exact Hm | apply rtc_refl].
Qed.

End combinators.

Lemma stepwise_for_each {A : Type} (body : A -> M unit) xs :
  (forall x, stepwise (body x)) -> stepwise (for_each body xs).
Proof.
  intros Hbody. induction xs as [|x rest IH]; simpl; [apply stepwise_ret|].
  by apply stepwise_bind.
Qed.


Lemma stepwise_now floor : stepwise (now floor).
Proof. intros s. unfold now. by destruct (_ <? 0). Qed.

Lemma stepwise_insert Row (T : Table Row) (r : Row) :
  declared_table Row T -> stepwise (insert r).
Proof.
  intros Hd s. unfold insert. destruct (post_init r) as [[]|e]; simpl; [|apply rtc_refl].
  destruct (exec_insert (db s) r) as [d'|e] eqn:E; [|apply rtc_refl].
  apply rtc_once. by eapply step_insert.
Qed.

Lemma stepwise_update Row (T : Table Row) k condition change :
  declared_table Row T -> stepwise (update k condition change).
Proof.
  intros Hd s. unfold update.
  destruct (exec_update (db s) k condition change) as [[n d']|e] eqn:E; [|apply rtc_refl].
  apply rtc_once. by eapply step_update.
Qed.

Lemma stepwise_upsert Row (T : Table Row) (r : Row) :
  declared_table Row T -> stepwise (upsert r).
Proof.
  intros Hd s. unfold upsert, exec_upsert. destruct (post_init r) as [[]|e]; simpl; [|apply rtc_refl].
  destruct (table (db s) !! key_of r).
  - destruct (insert_guard (db s) r); simpl; [apply rtc_refl|].
    destruct (exec_update _ _ _ _) as [[n d']|e] eqn:E; simpl; [|apply rtc_refl].
    apply rtc_once. by eapply step_update.
  - destruct (exec_insert (db s) r) as [d'|e] eqn:E; [|apply rtc_refl].
    apply rtc_once. by eapply step_insert.
Qed.

Lemma stepwise_insert_if_absent Row (T : Table Row) (r : Row) :
  declared_table Row T -> stepwise (insert_if_absent r).
Proof.
  intros Hd s. unfold insert_if_absent, exec_insert_if_absent.
  destruct (post_init r) as [[]|e]; simpl; [|apply rtc_refl].
  destruct (present _ || map_exists _ _).
  - destruct (insert_guard (db s) r); simpl; [apply rtc_refl|].
    destruct (row_checks r); simpl; apply rtc_refl.
  - destruct (exec_insert (db s) r) as [d'|e] eqn:E; [|apply rtc_refl].
    apply rtc_once. by eapply step_insert.
Qed.

Create HintDb stepwise discriminated.
#[export] Hint Resolve stepwise_lift stepwise_reading stepwise_ret stepwise_now stepwise_writing
  : stepwise.
#[export] Hint Constructors declared_table : stepwise.
#[export] Hint Extern 1 (stepwise (insert _)) => apply stepwise_insert : stepwise.
#[export] Hint Extern 1 (stepwise (update _ _ _)) => apply stepwise_update : stepwise.
#[export] Hint Extern 1 (stepwise (upsert _)) => apply stepwise_upsert : stepwise.
#[export] Hint Extern 1 (stepwise (insert_if_absent _)) => apply stepwise_insert_if_absent : stepwise.

(** Walks the structure of a store method. *)
Ltac stepwise_step :=
  match goal with
  | |- stepwise (mbind _ _) => apply stepwise_bind; [|intros ?]
  | |- stepwise (for_each _ _) => apply stepwise_for_each; intros ?
  | |- stepwise (match ?x with _ => _ end) => destruct x
  | |- stepwise (writing _) => apply stepwise_writing
  | |- _ => solve [auto with stepwise]
  end.
Ltac stepwise := repeat stepwise_step.

Lemma stepwise_accumulate e observed : stepwise (accumulate e observed).
Proof. unfold accumulate. stepwise. Qed.

Lemma stepwise_replay_record self after : stepwise (replay_record self after).
Proof. unfold replay_record. stepwise. Qed.
#[export] Hint Resolve stepwise_accumulate stepwise_replay_record : stepwise.

Lemma stepwise_prepare_execution_retry failure e : stepwise (prepare_execution_retry failure e).
Proof.
  unfold prepare_execution_retry, authorize_if_unobserved, revoke, replay_observe,
    replay_for_execution.
  stepwise.
Qed.
#[export] Hint Resolve stepwise_prepare_execution_retry : stepwise.

(** ** Store methods that leave part of the database alone *)

Definition preserves {A X : Type} (part : DB -> X) (m : M A) : Prop :=
  forall s, part (db (m s).2) = part (db s).

Section preserves_combinators.
Context {X : Type} (part : DB -> X).

Lemma preserves_lift {A : Type} (o : outcome A) : preserves part (lift o).
Proof. by intros s. Qed.

Lemma preserves_reading {A : Type} (q : DB -> outcome A) : preserves part (reading q).
Proof. by intros s. Qed.

Lemma preserves_ret {A : Type} (a : A) : preserves part (mret a).
Proof. by intros s. Qed.

Lemma preserves_now floor : preserves part (now floor).
Proof. intros s. unfold now. by destruct (_ <? 0). Qed.

Lemma preserves_bind {A B : Type} (m : M A) (f : A -> M B) :
  preserves part m -> (forall a, preserves part (f a)) -> preserves part (mbind f m).
Proof.
  intros Hm Hf s. unfold mbind, M_bind. specialize (Hm s). destruct (m s) as [[a|e] s1]; [|done].
  simpl in Hm. rewrite <- Hm. apply Hf.
Qed.

Lemma preserves_for_each {A : Type} (body : A -> M unit) xs :
  (forall x, preserves part (body x)) -> preserves part (for_each body xs).
Proof.
  intros Hbody. induction xs as [|x rest IH]; simpl; [apply preserves_ret | by apply preserves_bind].
Qed.

(** A statement on one table preserves whatever does not read that table. *)
Lemma preserves_insert Row (T : Table Row) (r : Row) :
  (forall m d, part (with_table m d) = part d) -> preserves part (insert r).
Proof.
  intros Hpart s. unfold insert. destruct (post_init r) as [[]|e]; simpl; [|done].
  destruct (exec_insert (db s) r) as [d'|e] eqn:E; [|done].
  apply exec_insert_ok in E as (_ & _ & (_ & _ & -> & _)%write_row_ok). apply Hpart.
Qed.

Lemma preserves_update Row (T : Table Row) k condition change :
  (forall m d, part (with_table m d) = part d) -> preserves part (update k condition change).
Proof.
  intros Hpart s. unfold update.
  destruct (exec_update (db s) k condition change) as [[n d']|e] eqn:E; [|done].
  apply exec_update_ok in E as [(_ & -> & _)|(_ & old & _ & _ & _ & Hw)]; [done|].
  apply write_row_ok in Hw as (_ & _ & -> & _). apply Hpart.
Qed.
End preserves_combinators.

Lemma preserves_upsert {X : Type} (part : DB -> X) Row (T : Table Row) (r : Row) :
  (forall m d, part (with_table m d) = part d) -> preserves part (upsert r).
Proof.
  intros Hpart s. destruct (upsert r s) as [[u|e] s'] eqn:E; simpl.
  - apply upsert_ok in E as (_ & _ & _ & -> & _). apply Hpart.
  - unfold upsert in E. by destruct (_ ← _; _); simplify_eq.
Qed.

Lemma preserves_if_absent {X : Type} (part : DB -> X) Row (T : Table Row) (r : Row) :
  (forall m d, part (with_table m d) = part d) -> preserves part (insert_if_absent r).
Proof.
  intros Hpart s. unfold insert_if_absent, exec_insert_if_absent. destruct (post_init r) as [[]|e]; simpl; [|done].
  destruct (_ || _); simpl.
  - destruct (refuse _ _) as [[]|e]; simpl; [|done]. by destruct (require _ _) as [[]|e].
  - destruct (exec_insert (db s) r) as [d'|e] eqn:E; simpl; [|done].
    apply exec_insert_ok in E as (_ & _ & Hw). apply write_row_ok in Hw as (_ & _ & -> & _). apply Hpart.
Qed.

Ltac preserves_step :=
  match goal with
  | |- preserves _ (mbind _ _) => apply preserves_bind; [|intros ?]
  | |- preserves _ (for_each _ _) => apply preserves_for_each; intros ?
  | |- preserves _ (match ?x with _ => _ end) => destruct x
  | |- preserves _ (lift _) => apply preserves_lift
  | |- preserves _ (reading _) => apply preserves_reading
  | |- preserves _ (mret _) => apply preserves_ret
  | |- preserves _ (now _) => apply preserves_now
  | |- preserves _ (insert _) => apply preserves_insert; intros ? []; reflexivity
  | |- preserves _ (update _ _ _) => apply preserves_update; intros ? []; reflexivity
  | |- preserves _ (upsert _) => apply preserves_upsert; intros ? []; reflexivity
  | |- preserves _ (insert_if_absent _) => apply preserves_if_absent; intros ? []; reflexivity
  end.
Ltac preserves := repeat preserves_step.

Lemma preserves_ok {A X : Type} (part : DB -> X) (m : M A) s r s' :
  preserves part m -> m s = (r, s') -> part (db s') = part (db s).
Proof. intros Hm H. specialize (Hm s). by rewrite H in Hm. Qed.
