(* ===== verification/ParticipantStore.v ===== *)
(** * Participant store

    Models [participant_store.py]: the registration aggregate of one participant (its
    row, its owner generation and its pointer) and the three operations on it. *)

From stdpp Require Import base gmap strings list.
From Stdlib Require Import ZArith Lia.
From S2P Require Import Prelude Contracts Lifecycle WakePolicy AssignmentStates ResponseStates.
From S2P Require Import AttemptStates ExecutionStates Rows TableGuards Database Session SchemaSteps.
From S2P Require Import SchemaInvariants Replay Stepwise.

Record ParticipantSnapshot : Type := mkParticipantSnapshot {
  ps_lookup : string;
  ps_committed : bool;
  ps_owner : OwnerGenerations;
  ps_pointer : CurrentExecutions;
}.

#[export] Instance ParticipantSnapshot_eq_dec : EqDecision ParticipantSnapshot.
Proof. solve_decision. Defined.

(** [Row.require(db, **key)] inside [read_at]: a missing row means no registration. *)
Definition require_registered {Row : Type} `{!Table Row} (k : row_key) (lookup : string) (d : DB)
    : outcome Row :=
  found ← one k d;
  of_option found (ParticipantNotRegistered lookup).

(** [ParticipantStore.read_at] *)
Definition participant_read_at (lookup : string) (d : DB) : outcome ParticipantSnapshot :=
  person ← require_registered (Row := Participants) lookup lookup d;
  generation ← require_registered (Row := OwnerGenerations) lookup lookup d;
  pointer ← require_registered (Row := CurrentExecutions) lookup lookup d;
  Ok (mkParticipantSnapshot lookup (committed person) generation pointer).

(** [ParticipantStore.get] *)
Definition participant_get (lookup : string) : M ParticipantSnapshot :=
  reading (participant_read_at lookup).

(** [ParticipantStore.register] *)
Definition register (lookup : string) (is_committed : bool) : M (applied ParticipantSnapshot) :=
  writing (
    existing ← reading (one (Row := Participants) lookup);
    match existing with
    | Some _ => snapshot ← participant_get lookup; mret (AlreadyApplied snapshot)
    | None =>
        _ ← insert (mkParticipants lookup is_committed);
        _ ← insert (mkOwnerGenerations lookup 1);
        _ ← insert (mkCurrentExecutions lookup None None 0);
        snapshot ← participant_get lookup;
        mret (Applied snapshot)
    end).

(** [ParticipantStore.commit] *)
Definition commit (lookup : string) : M (applied ParticipantSnapshot) :=
  writing (
    person ← participant_get lookup;
    if ps_committed person then mret (AlreadyApplied person)
    else
      _ ← update (Row := Participants) lookup (fun r => negb (committed r))
          (fun r => mkParticipants (participant_lookup r) true);
      snapshot ← participant_get lookup;
      mret (Applied snapshot)).

(** [ParticipantStore.advance_generation] *)
Definition advance_generation (lookup : string) (expected_generation : Z)
    : M (applied ParticipantSnapshot) :=
  writing (
    person ← participant_get lookup;
    _ ← lift (refuse (negb (ps_committed person))
                (IdentityConflict "uncommitted participant cannot own a generation"));
    _ ← lift (refuse (negb (og_generation (ps_owner person) =? expected_generation))
                (StaleRevision "owner generation changed"));
    _ ← update (Row := OwnerGenerations) lookup
        (fun r => og_generation r =? expected_generation)
        (fun r => mkOwnerGenerations (og_lookup r) (expected_generation + 1));
    snapshot ← participant_get lookup;
    mret (Applied snapshot)).

(** ** Facts *)

Lemma require_registered_ok {Row : Type} `{!Table Row} k lookup d (r : Row) :
  require_registered k lookup d = Ok r <-> table d !! k = Some r /\ post_init r = Ok tt.
Proof.
  unfold require_registered. rewrite bind_ok_inv. split.
  - intros (o & [Hr Hp]%one_ok & Ho). apply of_option_ok in Ho as ->. done.
  - intros [Hr Hp]. exists (Some r). split; [by apply one_ok | done].
Qed.

Lemma participant_read_at_ok lookup d p :
  participant_read_at lookup d = Ok p <->
  (exists person, participants d !! lookup = Some person /\ ps_committed p = committed person) /\
  owner_generations d !! lookup = Some (ps_owner p) /\
  current_executions d !! lookup = Some (ps_pointer p) /\
  pointer_post_init (ps_pointer p) = Ok tt /\ ps_lookup p = lookup.
Proof.
  unfold participant_read_at. split.
  - intros H. ok_inv. repeat match goal with Hr : require_registered _ _ _ = Ok _ |- _ =>
      apply require_registered_ok in Hr as [? ?] end. simpl in *. eauto 10.
  - intros ((person & Hp & Hc) & Hg & Hptr & Hpost & <-).
    apply bind_ok_inv. exists person. split; [by apply require_registered_ok|].
    apply bind_ok_inv. exists (ps_owner p). split; [by apply require_registered_ok|].
    apply bind_ok_inv. exists (ps_pointer p). split; [by apply require_registered_ok|].
    rewrite <- Hc. by destruct p.
Qed.

Lemma stepwise_register lookup c : stepwise (register lookup c).
Proof. unfold register, participant_get. stepwise. Qed.
Lemma stepwise_commit lookup : stepwise (commit lookup).
Proof. unfold commit, participant_get. stepwise. Qed.
Lemma stepwise_advance_generation lookup g : stepwise (advance_generation lookup g).
Proof. unfold advance_generation, participant_get. stepwise. Qed.
#[export] Hint Resolve stepwise_register stepwise_commit stepwise_advance_generation : stepwise.

(** ** Theorems *)

(** Registering an owner again, with either commitment, returns the snapshot of the
    first registration as already applied and changes nothing. *)
Theorem register_idempotent (lookup : string) (c c' : bool) (s s' : Session)
    (r : applied ParticipantSnapshot) :
  register lookup c s = (Ok r, s') ->
  register lookup c' s' = (Ok (AlreadyApplied (applied_value r)), s').
Proof.
  unfold register, participant_get. intros H. m_inv.
  assert (Hread : participant_read_at lookup (db s') = Ok (applied_value r)).
  { match goal with Ho : one _ _ = Ok ?x |- _ => destruct x end; m_inv; done. }
  apply writing_ok. split; [|done].
  apply participant_read_at_ok in Hread as Hrows. destruct Hrows as ((person & Hp & _) & _).
  apply bindM_ok. exists (Some person), s'. split; [by apply reading_ok; split; [apply one_ok|]|].
  apply bindM_ok. exists (applied_value r), s'. split; [by apply reading_ok | done].
Qed.

(** An owner's generation advances by exactly one, only for a committed participant and
    only when no attempt of the old generation is live, and changes neither attempts nor
    executions. *)
Theorem advance_generation_fenced (lookup : string) (g : Z) (s s' : Session)
    (r : applied ParticipantSnapshot) :
  db_reachable (db s) ->
  advance_generation lookup g s = (Ok r, s') ->
  og_generation (ps_owner (applied_value r)) = g + 1 /\
  ps_committed (applied_value r) = true /\
  (forall e o a, attempts (db s) !! (e, o) = Some a -> at_owner a = lookup ->
     at_generation a = g -> exists t, at_lifecycle a = TerminalAttempt t) /\
  attempts (db s') = attempts (db s) /\ executions (db s') = executions (db s).
Proof.
  intros Hd. pose proof (reachable_keyed _ Hd _ _ declared_generations) as Hkey.
  unfold advance_generation, participant_get. intros H. m_inv. ok_inv. bools. simpl.
  repeat match goal with Hr : participant_read_at _ _ = Ok _ |- _ =>
    apply participant_read_at_ok in Hr end.
  match goal with Hu : update _ _ _ _ = _ |- _ => apply update_ok in Hu as (d' & Hu & ->) end.
  match goal with Hu : exec_update _ _ _ _ = _ |- _ =>
    apply exec_update_ok in Hu as [(_ & -> & Hnone)|(_ & old & Hold & Hcond & Hg & Hw)] end;
    simpl in *.
  { exfalso. destruct_and!. match goal with Hl : owner_generations (db s) !! _ = Some _ |- _ =>
      specialize (Hnone _ Hl) end. simpl in Hnone. bools. congruence. }
  apply write_row_ok in Hw as (_ & _ & -> & _). simpl in *. destruct_and!.
  pose proof (Hkey _ _ Hold) as Hown. simpl in Hown. bools.
  rewrite lookup_insert_eq in *. simplify_eq/=.
  apply generation_update_ok in Hg as (_ & [Hg|[_ Hlive]]); simpl in *; [lia|].
  repeat match goal with Hx : exists _, _ |- _ => destruct Hx as (? & ? & ?) end.
  match goal with Hx : mkOwnerGenerations _ _ = _ |- _ => rewrite <- Hx end. simpl.
  split_and!; try congruence; try done.
  intros e o a Ha Hao Hag. destruct (at_lifecycle a) as [p l b dead|t] eqn:El; [|eauto].
  exfalso. unfold live_dependent in Hlive.
  apply (map_exists_false _ _ _ _ Hlive) in Ha. unfold at_phase in Ha. rewrite El, Hao, Hag in Ha.
  rewrite bool_decide_eq_true_2, Z.eqb_refl in Ha by congruence. destruct p; vm_compute in Ha; done.
Qed.
