(* ===== verification/AssignmentStore.v ===== *)
(** * Assignment store

    Models [assignment_store.py]: accepting a recipient's claim on a message, the
    revision-fenced preengagement transitions, and the record of what a harness outside
    Core did with its recipient's claims. *)

From stdpp Require Import base gmap strings list.
From Stdlib Require Import ZArith Lia.
From S2P Require Import Prelude Contracts Lifecycle WakePolicy AssignmentStates ResponseStates.
From S2P Require Import AttemptStates ExecutionStates Rows TableGuards Database Session SchemaSteps.
From S2P Require Import SchemaInvariants Replay Stepwise.

(** [AssignmentStore.get] *)
Definition assignment_read (assignment_id : string) (d : DB) : outcome WakeAssignment :=
  row ← one (Row := WakeAssignment) assignment_id d;
  of_option row (IdentityConflict "unknown claim").

Definition assignment_get (assignment_id : string) : M WakeAssignment :=
  reading (assignment_read assignment_id).

(** The one claim of a recipient at a wire sequence ([unique] on the pair) *)
Definition claim_at (recipient_lookup : string) (wire_seq : Z) (d : DB) : option WakeAssignment :=
  snd <$> List.find (fun kv => bool_decide ((wa_lookup kv.2, wa_wire_seq kv.2)
                                            = (recipient_lookup, wire_seq)))
            (map_to_list (wake_claims d)).

(** [SELECT * FROM wake_claims WHERE assignment_id=? OR (recipient_lookup=? AND
    wire_seq=?) LIMIT 1] *)
Definition accepted_claim (a : WakeAssignment) (d : DB) : outcome (option WakeAssignment) :=
  let row := match wake_claims d !! wa_id a with
             | Some r => Some r
             | None => claim_at (wa_lookup a) (wa_wire_seq a) d
             end in
  match row with
  | None => Ok None
  | Some r => _ ← assignment_post_init r; Ok (Some r)
  end.

(** [AssignmentStore.accept] *)
Definition accept (a : WakeAssignment) : M (applied WakeAssignment) :=
  _ ← lift (assignment_post_init a);
  _ ← lift (require_initial_decision a);
  writing (
    row ← reading (accepted_claim a);
    match row with
    | Some current =>
        _ ← lift (require_same_acceptance current a);
        mret (AlreadyApplied current)
    | None => _ ← insert a; mret (Applied a)
    end).

(** [AssignmentStore.transition_in] *)
Definition transition_in (assignment_id : string) (disposition : AssignmentKind)
    (expected_revision : Z) : M (applied WakeAssignment) :=
  current ← assignment_get assignment_id;
  _ ← lift (refuse (negb (wa_revision current =? expected_revision))
              (StaleRevision "claim revision changed"));
  lifecycle ← lift (preengagement (wa_lifecycle current) disposition);
  updated ← now (wa_updated current);
  let after := wa_progress current lifecycle updated (wa_revision current + 1) in
  _ ← lift (assignment_post_init after);
  _ ← update (Row := WakeAssignment) assignment_id (fun r => wa_revision r =? expected_revision)
      (fun r => wa_progress r (wa_lifecycle after) (wa_updated after) (wa_revision after));
  mret (Applied after).

(** [AssignmentStore.transition_preengagement] *)
Definition transition_preengagement (assignment_id : string) (disposition : AssignmentKind)
    (expected_revision : Z) : M (applied WakeAssignment) :=
  writing (transition_in assignment_id disposition expected_revision).

(** [AssignmentStore.recoverable_unbound_deliveries]; [native_source] tells which claims
    are sources of a native runtime input, whose tables are in [NativeSession.v]. *)
Definition recoverable_unbound_deliveries (native_source : string -> bool)
    (recipient_lookup : string) (sources : list MessageReference) (d : DB)
    : outcome (list WakeAssignment) :=
  match sources with
  | [] => Ok []
  | _ =>
      let deferred := List.filter (fun c =>
          bool_decide (wa_lookup c = recipient_lookup) && bool_decide (wa_disposition c = DeferredKind)
          && bool_decide (wa_execution_id c = None) && negb (native_source (wa_id c)))
        (map snd (map_to_list (wake_claims d))) in
      _ ← each assignment_post_init deferred;
      Ok (List.filter (fun c =>
          bool_decide (wa_source c ∈ sources)
          && match assignment_build DeferredKind (assignment_mode (wa_lifecycle c)) None None with
             | Ok state => bool_decide (wa_lifecycle c = state)
             | Err _ => false
             end) deferred)
  end.

(** [AssignmentStore.restore_unbound_delivery] *)
Definition restore_unbound_delivery (captured : WakeAssignment) : M WakeAssignment :=
  current ← assignment_get (wa_id captured);
  _ ← lift (refuse (negb (bool_decide (current = captured)))
              (StaleRevision "unbound delivery assignment changed"));
  restored ← transition_preengagement (wa_id current)
               (initial_state (assignment_mode (wa_lifecycle current))) (wa_revision current);
  mret (applied_value restored).

(** The steps of one claim, each from the row the previous one left *)
Fixpoint walk_claim (steps : list AssignmentKind) (claim : WakeAssignment) : M unit :=
  match steps with
  | [] => mret tt
  | disposition :: rest =>
      after ← transition_in (wa_id claim) disposition (wa_revision claim);
      walk_claim rest (applied_value after)
  end.

(** [WakeAssignment.for_harness_sources] and the loop of
    [AssignmentStore.settle_harness_inputs], inside the caller's write *)
Definition settle_harness_inputs (recipient_lookup : string) (sources : list MessageReference)
    (steps : AssignmentState -> list AssignmentKind) : M unit :=
  claims ← reading (fun d =>
    let rows := omap (fun seq => claim_at recipient_lookup seq d)
                  (remove_dups (map ref_seq sources)) in
    _ ← each assignment_post_init rows; Ok rows);
  for_each (fun claim =>
    _ ← lift (refuse (negb (bool_decide (wa_source claim ∈ sources)))
                (IdentityConflict "harness delivery names another message at this sequence"));
    walk_claim (steps (wa_lifecycle claim)) claim) claims.

(** ** Facts *)

Lemma assignment_read_ok i d c :
  assignment_read i d = Ok c <-> wake_claims d !! i = Some c /\ assignment_post_init c = Ok tt.
Proof.
  unfold assignment_read. rewrite bind_ok_inv. split.
  - intros (o & [Hr Hp]%one_ok & Ho). apply of_option_ok in Ho as ->. done.
  - intros [Hr Hp]. exists (Some c). split; [by apply one_ok | done].
Qed.

Lemma stepwise_transition_in i k rev : stepwise (transition_in i k rev).
Proof. unfold transition_in, assignment_get. stepwise. Qed.
#[export] Hint Resolve stepwise_transition_in : stepwise.

Lemma stepwise_transition_preengagement i k rev : stepwise (transition_preengagement i k rev).
Proof. unfold transition_preengagement. stepwise. Qed.
#[export] Hint Resolve stepwise_transition_preengagement : stepwise.

Lemma stepwise_accept a : stepwise (accept a).
Proof. unfold accept. stepwise. Qed.

Lemma stepwise_walk_claim steps claim : stepwise (walk_claim steps claim).
Proof. revert claim. induction steps as [|k rest IH]; intros claim; simpl; stepwise. Qed.
#[export] Hint Resolve stepwise_accept stepwise_walk_claim : stepwise.

Lemma preserves_walk {X : Type} (part : DB -> X) steps c :
  (forall m d, part (with_table (Row := WakeAssignment) m d) = part d) -> preserves part (walk_claim steps c).
Proof.
  intros Hpart. revert c. induction steps as [|k steps IH]; intros c; cbn [walk_claim]; [preserves|].
  apply preserves_bind; [|done]. unfold transition_in, assignment_get. preserves.
  by apply preserves_update.
Qed.

Lemma stepwise_settle_harness_inputs w sources steps :
  stepwise (settle_harness_inputs w sources steps).
Proof. unfold settle_harness_inputs. stepwise. Qed.
#[export] Hint Resolve stepwise_settle_harness_inputs : stepwise.

Lemma find_some_spec {A : Type} (f : A -> bool) l a : List.find f l = Some a -> a ∈ l /\ f a = true.
Proof. intros [? ?]%find_some. split; [by apply list_elem_of_In | done]. Qed.

Lemma claim_at_ok w seq d c :
  claim_at w seq d = Some c ->
  exists k, wake_claims d !! k = Some c /\ wa_lookup c = w /\ wa_wire_seq c = seq.
Proof.
  unfold claim_at. intros ([k c'] & [Hin Hp]%find_some_spec & ->)%fmap_Some. simpl in *.
  apply elem_of_map_to_list in Hin. bools. simplify_eq. eauto.
Qed.

Lemma claim_at_none w seq d i c :
  claim_at w seq d = None -> wake_claims d !! i = Some c -> (wa_lookup c, wa_wire_seq c) <> (w, seq).
Proof.
  unfold claim_at. intros E%fmap_None Hi Heq.
  pose proof (find_none _ _ E (i, c)) as Hf. simpl in Hf. rewrite bool_decide_eq_true_2 in Hf by done.
  discriminate Hf. by apply list_elem_of_In, elem_of_map_to_list.
Qed.

(** The UNIQUE pair finds the claim. *)
Lemma claim_at_found d i c :
  db_reachable d -> wake_claims d !! i = Some c -> claim_at (wa_lookup c) (wa_wire_seq c) d = Some c.
Proof.
  intros Hd Hi. destruct (claim_at _ _ d) as [c'|] eqn:E; [|by eapply claim_at_none in E].
  apply claim_at_ok in E as (j & Hj & Hw & Hseq).
  rewrite (reachable_claims_unique _ Hd i j c c' Hi Hj) in Hi by congruence. congruence.
Qed.

(** A claim step writes exactly the fenced row. *)
Lemma transition_in_ok i k rev s r s' :
  transition_in i k rev s = (Ok r, s') ->
  exists c after, wake_claims (db s) !! i = Some c /\ wa_revision c = rev /\ r = Applied after /\
    preengagement (wa_lifecycle c) k = Ok (wa_lifecycle after) /\
    after = wa_progress c (wa_lifecycle after) (wa_updated after) (rev + 1) /\
    wa_updated c <= wa_updated after /\
    db s' = with_table (Row := WakeAssignment) (<[i := after]> (wake_claims (db s))) (db s).
Proof.
  unfold transition_in, assignment_get. intros H.
  apply bindM_ok in H as (c & s1 & [Hread ->]%reading_ok & H).
  apply bindM_ok in H as (u & s2 & [Hrev ->]%lift_ok & H).
  apply bindM_ok in H as (life & s3 & [Hlife ->]%lift_ok & H).
  apply bindM_ok in H as (t & s4 & Hnow & H).
  apply bindM_ok in H as (u' & s5 & [Hpost ->]%lift_ok & H).
  apply bindM_ok in H as (n & s6 & Hupd & [-> ->]%ret_ok).
  apply refuse_ok in Hrev. bools. apply now_ok in Hnow as (Hle & _ & Hdb & _).
  apply assignment_read_ok in Hread as [Hc _].
  apply update_ok in Hupd as (d' & Hupd & ->). rewrite Hdb in Hupd.
  exists c. eexists. split_and!; try done; simpl; [congruence|].
  apply exec_update_ok in Hupd as [(_ & -> & Hnone)|(_ & old & Hold & _ & _ & Hw)].
  - specialize (Hnone c Hc). simpl in Hnone. bools. congruence.
  - apply write_row_ok in Hw as (_ & _ & -> & _). simpl in *. simplify_eq. done.
Qed.

Lemma require_same_acceptance_ok self candidate :
  require_same_acceptance self candidate = Ok tt <->
  self = wa_progress candidate (wa_lifecycle self) (wa_updated self) (wa_revision self) /\
  assignment_mode (wa_lifecycle self) = assignment_mode (wa_lifecycle candidate).
Proof.
  unfold require_same_acceptance. rewrite refuse_ok, orb_false_iff, !negb_false_iff.
  by rewrite !bool_decide_eq_true.
Qed.

(** Every later accepted write keeps a claim's acceptance. *)
Lemma acceptance_kept d d' i c a :
  rtc db_step d d' -> wake_claims d !! i = Some c -> require_same_acceptance c a = Ok tt ->
  exists c', wake_claims d' !! i = Some c' /\ require_same_acceptance c' a = Ok tt.
Proof.
  intros Hsteps. revert c. induction Hsteps as [|d1 d2 d3 Hs _ IH]; intros c Hc Hsame; [by eauto|].
  destruct (row_step _ _ _ _ _ _ declared_claims (db_step_effect _ _ Hs) Hc) as (c1 & Hc1 & [->|Hg]).
  { by apply (IH c). }
  apply (IH c1 Hc1). apply require_same_acceptance_ok in Hsame as [Hself Hmode].
  simpl in Hg. pose proof (claim_update_progress _ _ _ Hg) as Hprog.
  apply claim_update_ok in Hg as [(_ & _ & _ & Hkeep) _].
  apply require_same_acceptance_ok. split; [|congruence].
  rewrite Hprog at 1. rewrite Hself. done.
Qed.

(** The row an acceptance leaves or finds is stored at its own identity. *)
Lemma accept_stored a s r s' :
  db_reachable (db s) -> accept a s = (Ok r, s') ->
  assignment_post_init a = Ok tt /\ require_initial_decision a = Ok tt /\
  wake_claims (db s') !! wa_id a = Some (applied_value r) /\
  require_same_acceptance (applied_value r) a = Ok tt /\ foreign_keys_hold (db s') = true.
Proof.
  intros Hd H. pose proof (reachable_keyed _ Hd _ _ declared_claims) as Hkey.
  unfold accept in H.
  apply bindM_ok in H as ([] & s1 & [Hpost ->]%lift_ok & H).
  apply bindM_ok in H as ([] & s2 & [Hinit ->]%lift_ok & H).
  apply writing_ok in H as [H Hfk].
  apply bindM_ok in H as (row & s3 & [Hrow ->]%reading_ok & H).
  split_and!; try done.
  all: destruct row as [c|].
  - apply bindM_ok in H as ([] & s4 & [Hsame ->]%lift_ok & [-> ->]%ret_ok). simpl.
    apply require_same_acceptance_ok in Hsame as [Hself _].
    assert (Hstored : exists k, wake_claims (db s) !! k = Some c).
    { unfold accepted_claim in Hrow. destruct (wake_claims (db s) !! wa_id a) eqn:E.
      - ok_inv. eauto.
      - destruct (claim_at _ _ _) eqn:E'; ok_inv. apply claim_at_ok in E' as (? & ? & _). eauto. }
    destruct Hstored as [k Hk]. pose proof (Hkey _ _ Hk) as Hid. simpl in Hid.
    rewrite <- Hk. f_equal. rewrite <- Hid, Hself. done.
  - apply bindM_ok in H as ([] & s4 & (_ & d' & Hins & ->)%insert_ok & [-> ->]%ret_ok). simpl.
    apply exec_insert_ok in Hins as (_ & _ & (_ & _ & -> & _)%write_row_ok). simpl.
    by rewrite lookup_insert_eq.
  - by apply bindM_ok in H as ([] & s4 & [Hsame ->]%lift_ok & [-> ->]%ret_ok).
  - apply bindM_ok in H as ([] & s4 & _ & [-> ->]%ret_ok). simpl.
    apply require_same_acceptance_ok. split; [|done]. by destruct a.
Qed.

(** ** Theorems *)

(** Once a claim was accepted, accepting it again at any later committed state returns
    the stored claim with the frozen wake policy as already applied and changes nothing. *)
Theorem accept_durably_idempotent (a : WakeAssignment) (s s' : Session) (r : applied WakeAssignment)
    (later : Session) :
  db_reachable (db s) -> accept a s = (Ok r, s') ->
  rtc db_step (db s') (db later) -> foreign_keys_hold (db later) = true ->
  exists c, accept a later = (Ok (AlreadyApplied c), later) /\
    wake_claims (db later) !! wa_id a = Some c /\
    assignment_mode (wa_lifecycle c) = assignment_mode (wa_lifecycle a).
Proof.
  intros Hd Hacc Hsteps Hfk.
  assert (Hd' : db_reachable (db later)).
  { eapply reachable_steps; [|exact Hsteps]. eapply reachable_steps; [exact Hd|].
    pose proof (stepwise_accept a s) as Hs. by rewrite Hacc in Hs. }
  destruct (accept_stored _ _ _ _ Hd Hacc) as (Hpost & Hinit & Hc & Hsame & _).
  destruct (acceptance_kept _ _ _ _ _ Hsteps Hc Hsame) as (c & Hlater & Hsame').
  assert (Hdecode : assignment_post_init c = Ok tt).
  { apply require_same_acceptance_ok in Hsame' as [Hself _].
    unfold assignment_post_init in Hpost. rewrite !bind_ok_unit in Hpost.
    destruct Hpost as (Hids & _). apply each_ok in Hids.
    rewrite !Forall_cons in Hids. destruct_and!. simpl in *.
    eapply stored_claim_decodes; [done|done| | |]; rewrite Hself; simpl;
      by eapply require_identifier_ok. }
  exists c. split_and!; [|done|by apply require_same_acceptance_ok in Hsame' as [_ ?]].
  unfold accept. unfold mbind, M_bind, lift. rewrite Hpost, Hinit. apply writing_ok.
  split; [|done]. apply bindM_ok. exists (Some c), later. split.
  - apply reading_ok. unfold accepted_claim. by rewrite Hlater, Hdecode.
  - by rewrite Hsame'.
Qed.

(** ** The schema accepts every declared preengagement step *)

(** What [preengagement] allows, the triggers of [wake_claims] allow. *)
Lemma preengagement_guard d c k life t :
  preengagement (wa_lifecycle c) k = Ok life -> wa_updated c <= t ->
  claim_update_guard d c (wa_progress c life t (wa_revision c + 1)) = false.
Proof.
  intros (Hfree & Hk & Hbuild & Hmode)%preengagement_ok Ht.
  pose proof (build_preengagement_unbound _ _ _ Hbuild) as (_ & Hkind & Hnone).
  unfold claim_update_guard, claim_frozen, wa_execution_id, wa_exact_target, wa_disposition. simpl.
  assert (Hfree' : assignment_execution_id life = None /\ assignment_exact_target life = None).
  { unfold assignment_execution_id, assignment_exact_target. by rewrite Hnone. }
  destruct Hfree' as [He Hx]. rewrite Hfree, He, Hx, Hkind.
  rewrite !sql_assignment_mode_name, Hmode.
  rewrite !orb_false_iff. split_and!; try done; try (by apply is_not_false).
  - unfold write_once_violation. destruct (wa_lifecycle c) as [| | | |?|?|[?|?]|[?|?]|[?|?]];
      simpl in *; try done; by apply elem_of_nil in Hk.
  - unfold assignment_exact_target, assignment_execution_id in *.
    destruct (assignment_engagement (wa_lifecycle c)); done.
  - apply edges_violation_ok. right. apply existsb_exists. exists k.
    split; [by apply list_elem_of_In | by apply bool_decide_eq_true].
  - apply unchanged_violation_ok. intros Heq. rewrite <- Heq in Hk.
    destruct (wa_lifecycle c); simpl in Hk;
      repeat (apply elem_of_cons in Hk as [Hk|Hk]; [done|]); by apply elem_of_nil in Hk.
  - by apply revision_violation_ok.
  - by apply non_decreasing_ok.
Qed.

Lemma preengagement_checks c k life t :
  preengagement (wa_lifecycle c) k = Ok life -> wa_updated c <= t ->
  assignment_checks c = true ->
  assignment_checks (wa_progress c life t (wa_revision c + 1)) = true.
Proof.
  intros Hpre Ht Hc. apply preengagement_ok in Hpre as (_ & _ & Hbuild & _).
  pose proof (build_preengagement_unbound _ _ _ Hbuild) as (Hwf & _ & Hnone).
  unfold assignment_checks, wa_exact_target in *. simpl. bools.
  assert (Hx : assignment_exact_target life = None)
    by (unfold assignment_exact_target; by rewrite Hnone).
  rewrite Hx. rewrite !andb_true_iff. split_and!; try done; try (apply Z.leb_le; lia);
    try (apply Z.ltb_lt; lia).
  - apply bool_decide_eq_true. rewrite sql_assignment_mode_name.
    apply list_elem_of_In. destruct (assignment_mode life); simpl; tauto.
  - destruct life as [| | | |?|?|[[]|]|[[]|]|[[]|]]; simpl in *; done.
Qed.

(** Rewriting an unbound claim to an unbound claim keeps every foreign key. *)
Lemma unbound_rewrite_keys d i c new :
  foreign_keys_hold d = true -> wake_claims d !! i = Some c ->
  wa_execution_id c = None -> wa_execution_id new = None -> wa_lookup new = wa_lookup c ->
  foreign_keys_hold (with_table (Row := WakeAssignment) (<[i := new]> (wake_claims d)) d) = true.
Proof.
  intros Hfk Hc Hfree Hfree' Hlookup. unfold foreign_keys_hold in *. bools.
  repeat (apply andb_true_intro; split); try assumption.
  - match goal with Hr : row_keys_hold (Row := WakeAssignment) d = true |- _ =>
      rewrite row_keys_hold_ok in Hr; rename Hr into Hrows end.
    apply row_keys_hold_ok. simpl. intros j c' Hj.
    apply lookup_insert_Some in Hj as [[_ <-]|[_ Hj]]; [|by apply (Hrows j)].
    destruct (Hrows i c Hc) as [Hi _]. simpl in Hi. rewrite Hfree in Hi. simpl in Hi. bools.
    unfold claim_deferred_keys. rewrite Hfree', Hlookup. simpl. by rewrite andb_true_r.
  - match goal with Hr : row_keys_hold (Row := ExecutionAssignmentLink) d = true |- _ =>
      rewrite row_keys_hold_ok in Hr; rename Hr into Hrows end.
    apply row_keys_hold_ok. simpl. intros j l Hj. destruct (Hrows j l Hj) as [Hi _].
    split; [|done]. simpl in Hi. bools. apply andb_true_iff. split; [done|].
    destruct (decide (i = ln_assignment l)) as [->|Hne].
    + rewrite Hc in *. bools. congruence.
    + by rewrite lookup_insert_ne.
  - apply cohort_keys_claims; [apply keeps_insert|done..].
  - apply cohort_keys_claims; [apply keeps_insert|done..].
  - apply cohort_keys_claims; [apply keeps_insert|done..].
Qed.

(** The new row passes its constructor, its UNIQUE constraint and its immediate keys. *)
Lemma unbound_progress_post_init c life t :
  assignment_post_init c = Ok tt -> assignment_checks (wa_progress c life t (wa_revision c + 1)) = true ->
  assignment_engagement life = None ->
  assignment_post_init (wa_progress c life t (wa_revision c + 1)) = Ok tt.
Proof.
  intros Hpost Hchecks Hnone. unfold assignment_post_init in *. rewrite !bind_ok_unit in *. simpl.
  unfold assignment_exact_target, assignment_execution_id. rewrite Hnone. simpl.
  unfold assignment_checks in Hchecks. bools. destruct_and! Hpost.
  split_and!; try done; apply refuse_ok, orb_false_iff; simpl in *;
    rewrite ?Z.leb_gt, ?Z.ltb_ge; lia.
Qed.

Lemma claim_progress_unique d i c life t rev :
  db_reachable d -> wake_claims d !! i = Some c ->
  map_exists (conflicts (Row := WakeAssignment) (wa_progress c life t rev))
    (delete i (wake_claims d)) = false.
Proof.
  intros Hd Hc. apply not_true_iff_false. intros (j & c' & Hj & Heq)%map_exists_spec.
  apply lookup_delete_Some in Hj as [Hne Hj]. simpl in Heq. bools.
  by apply Hne, (reachable_claims_unique _ Hd i j c c').
Qed.

Lemma unbound_progress_keys d i c life t rev :
  foreign_keys_hold d = true -> wake_claims d !! i = Some c -> wa_execution_id c = None ->
  assignment_engagement life = None ->
  immediate_keys (Row := WakeAssignment) d (wa_progress c life t rev) = true.
Proof.
  intros Hfk Hc Hfree Hnone. unfold foreign_keys_hold in Hfk. bools.
  match goal with Hr : row_keys_hold (Row := WakeAssignment) _ = true |- _ =>
    rewrite row_keys_hold_ok in Hr; destruct (Hr i c Hc) as [Hi _] end.
  simpl in *. rewrite Hfree in Hi. unfold wa_execution_id, assignment_execution_id. simpl.
  rewrite Hnone. done.
Qed.

(** Every pre-engagement step a stored claim's state declares is recorded: with the
    current revision the transition is applied, never refused by a guard of the table, and
    changes that claim alone. *)
Theorem declared_preengagement_recorded (i : string) (k : AssignmentKind) (c : WakeAssignment)
    (life : AssignmentState) (s : Session) :
  db_reachable (db s) -> foreign_keys_hold (db s) = true ->
  wake_claims (db s) !! i = Some c -> assignment_post_init c = Ok tt ->
  preengagement (wa_lifecycle c) k = Ok life -> 0 <= clock_ms s (ticks s) ->
  let t := Z.max (clock_ms s (ticks s)) (wa_updated c) in
  let after := wa_progress c life t (wa_revision c + 1) in
  exists s', transition_preengagement i k (wa_revision c) s = (Ok (Applied after), s') /\
    db s' = with_table (Row := WakeAssignment) (<[i := after]> (wake_claims (db s))) (db s).
Proof.
  intros Hd Hfk Hc Hpost Hpre Hclock t after.
  pose proof (reachable_checked _ Hd _ _ declared_claims _ _ Hc) as Hchk. simpl in Hchk.
  assert (Ht : wa_updated c <= t) by (subst t; lia).
  pose proof (preengagement_guard (db s) c k life t Hpre Ht) as Hguard.
  pose proof (preengagement_checks c k life t Hpre Ht Hchk) as Hchecks.
  apply preengagement_ok in Hpre as Hpre'. destruct Hpre' as (Hfree & _ & Hbuild & _).
  change (wa_execution_id c = None) in Hfree.
  pose proof (build_preengagement_unbound _ _ _ Hbuild) as (_ & _ & Hnone).
  assert (Hfree' : wa_execution_id after = None).
  { unfold after, wa_execution_id, assignment_execution_id. simpl. by rewrite Hnone. }
  pose proof (unbound_rewrite_keys _ _ _ _ Hfk Hc Hfree Hfree' eq_refl) as Hfk'.
  pose proof (unbound_progress_post_init c life t Hpost Hchecks Hnone) as Hpost'.
  match type of Hfk' with foreign_keys_hold ?x = true => set (d' := x) in * end.
  exists (with_db d' (tick s)). split; [|done].
  apply writing_ok. split; [|done]. unfold transition_in, assignment_get.
  apply bindM_ok. exists c, s. split; [by apply reading_ok; split; [apply assignment_read_ok|]|].
  apply bindM_ok. exists tt, s. split; [by rewrite Z.eqb_refl|].
  apply bindM_ok. exists life, s. split; [by apply lift_ok|].
  apply bindM_ok. exists t, (tick s). split; [by apply now_reads|].
  apply bindM_ok. exists tt, (tick s). split; [by apply lift_ok|].
  apply bindM_ok. exists 1, (with_db d' (tick s)). split; [|done].
  apply update_ok. exists d'. split; [|done]. apply exec_update_ok. right. split; [done|].
  exists c. split_and!; [done|by rewrite Z.eqb_refl|done|]. apply write_row_ok.
  split_and!; [done|by apply claim_progress_unique|done|done|].
  by apply (unbound_progress_keys (db s) i).
Qed.
