(* ===== verification/HarnessStore.v ===== *)
(** * Harness delivery store

    Models [coordination/tables/harness_deliveries.py]: what a bridge did with one bus
    message for one recipient, written together with the claim steps it proves, and
    [Outcome.settle] of [harness_delivery_states.py]. *)

From stdpp Require Import base gmap strings list sorting.
From Stdlib Require Import ZArith Lia.
From S2P Require Import Prelude Contracts Lifecycle WakePolicy AssignmentStates ResponseStates.
From S2P Require Import AttemptStates ExecutionStates Rows TableGuards Database Session SchemaSteps.
From S2P Require Import CohortRows CohortTables.
From S2P Require Import SchemaInvariants Replay Stepwise AssignmentStore.

(** [HarnessDelivery.stored] *)
Definition stored (self : HarnessDelivery) (d : DB) : outcome (option HarnessDelivery) :=
  match harness_deliveries d !! hd_identity self with
  | None => Ok None
  | Some row =>
      _ ← refuse (negb (hd_seq row =? hd_seq self))
          (IdentityConflict "message was attempted at another sequence");
      Ok (Some row)
  end.

(** [HarnessDelivery.write] *)
Definition harness_write (self : HarnessDelivery) : M unit :=
  _ ← reading (stored self);
  upsert self.

(** [HarnessDelivery.first_write] *)
Definition first_write (self : HarnessDelivery) : M bool :=
  row ← reading (stored self);
  match row with
  | Some _ => mret false
  | None => _ ← insert self; mret true
  end.

(** [HarnessDelivery.settle_claims] *)
Definition settle_claims (self : HarnessDelivery) : M unit :=
  for_each (settle_harness_inputs (hd_lookup self) [hd_reference self])
    [harness_handoff; claim_steps (hd_monitor self)].

(** [HarnessDelivery.begin] *)
Definition begin (self : HarnessDelivery) : M bool :=
  _ ← settle_claims self;
  first_write self.

(** [HarnessDelivery.record] *)
Definition harness_record (self : HarnessDelivery) : M unit :=
  _ ← settle_claims self;
  harness_write self.

(** [stored, = ...]: exactly one row *)
Definition exactly_one {A : Type} (rows : option A) : outcome A :=
  of_option rows (ValueError "not enough values to unpack (expected 1, got 0)").

(** [Outcome.settle] and [FilteredOutcome.settle] *)
Definition outcome_settle (recorded : Outcome) (successor : HarnessDelivery) : M HarnessDelivery :=
  if outcome_settled recorded then
    row ← reading (stored successor);
    lift (exactly_one row)
  else
    _ ← harness_record successor;
    mret successor.

(** [HarnessDelivery.apply] *)
Definition harness_apply (self : HarnessDelivery) (change : HarnessDelivery -> HarnessDelivery)
    : M HarnessDelivery :=
  row ← reading (stored self);
  current ← lift (exactly_one row);
  outcome_settle (hd_outcome current) (change current).

(** The sort key of [HarnessDelivery.for_recipients] *)
Definition attempt_le (a b : HarnessDelivery) : Prop :=
  (if hd_seq a =? hd_seq b then
     if bool_decide (hd_lookup a = hd_lookup b) then String.leb (hd_bridge a) (hd_bridge b)
     else String.leb (hd_lookup a) (hd_lookup b)
   else hd_seq a <=? hd_seq b) = true.
#[export] Instance attempt_le_dec : RelDecision attempt_le.
Proof. intros a b. unfold attempt_le. apply _. Defined.

(** [HarnessDelivery.for_recipients] *)
Definition for_recipients (keys : list (string * MessageReference)) (d : DB) : list HarnessDelivery :=
  merge_sort attempt_le
    (List.filter (fun r => bool_decide ((hd_lookup r, hd_reference r) ∈ keys))
       (map snd (map_to_list (harness_deliveries d)))).

Definition seq_le (a b : HarnessDelivery) : Prop := hd_seq a <= hd_seq b.
#[export] Instance seq_le_dec : RelDecision seq_le.
Proof. intros a b. unfold seq_le. apply _. Defined.

(** [HarnessDelivery.unconfirmed_for] *)
Definition unconfirmed_for (owners : list string) (d : DB) : list HarnessDelivery :=
  merge_sort seq_le
    (List.filter (fun r => bool_decide (hd_lookup r ∈ owners) && outcome_unconfirmed (hd_outcome r))
       (map snd (map_to_list (harness_deliveries d)))).

(** [HarnessDelivery.latest] *)
Definition latest (bridge recipient_lookup : string) (d : DB) : option MessageReference :=
  hd_reference <$> last (merge_sort seq_le
    (List.filter (fun r => bool_decide (hd_bridge r = bridge)
                           && bool_decide (hd_lookup r = recipient_lookup))
       (map snd (map_to_list (harness_deliveries d))))).

(** ** Every operation takes schema steps *)

Lemma stepwise_settle_claims self : stepwise (settle_claims self).
Proof. unfold settle_claims. stepwise. Qed.
#[export] Hint Resolve stepwise_settle_claims : stepwise.

Lemma stepwise_begin self : stepwise (begin self).
Proof. unfold begin, first_write. stepwise. Qed.

Lemma stepwise_harness_record self : stepwise (harness_record self).
Proof. unfold harness_record, harness_write. stepwise. Qed.
#[export] Hint Resolve stepwise_begin stepwise_harness_record : stepwise.

Lemma stepwise_harness_apply self change : stepwise (harness_apply self change).
Proof. unfold harness_apply, outcome_settle. stepwise. Qed.
#[export] Hint Resolve stepwise_harness_apply : stepwise.

Lemma stored_ok self d row : stored self d = Ok row -> row = harness_deliveries d !! hd_identity self.
Proof.
  unfold stored. destruct (harness_deliveries d !! hd_identity self); [|by intros [= <-]].
  destruct (refuse _ _); simpl; [by intros [= <-] | done].
Qed.

(** ** What the steps of a claim write *)

Lemma with_claims_keys d i (c : WakeAssignment) :
  wake_claims d !! i = Some c ->
  with_table (Row := WakeAssignment) (<[i := c]> (wake_claims d)) d = d.
Proof. intros Hc. rewrite insert_id by done. exact (with_own_table (Row := WakeAssignment) d). Qed.

Lemma last_default {A : Type} (a : A) rest d d' : List.last (a :: rest) d = List.last (a :: rest) d'.
Proof. revert a. induction rest as [|b rest IH]; intros a; [done|]. apply (IH b). Qed.

(** A walk rewrites its claim's row and leaves it in the last state of the walk. *)
Lemma walk_claim_ok steps c s u s' :
  walk_claim steps c s = (Ok u, s') -> wake_claims (db s) !! wa_id c = Some c ->
  exists c', db s' = with_table (Row := WakeAssignment) (<[wa_id c := c']> (wake_claims (db s))) (db s) /\
    wa_id c' = wa_id c /\ wa_lookup c' = wa_lookup c /\ wa_source c' = wa_source c /\
    wa_disposition c' = List.last steps (wa_disposition c) /\
    (steps <> [] -> wa_execution_id c' = None) /\ (steps = [] -> c' = c).
Proof.
  revert c s. induction steps as [|k rest IH]; intros c s H Hc; simpl in H.
  { apply ret_ok in H as [_ ->]. exists c. rewrite with_claims_keys by done. by split_and!. }
  apply bindM_ok in H as (r & s1 & Hstep & H).
  apply transition_in_ok in Hstep as (c0 & after & Hc0 & _ & -> & Hpre & Hafter & _ & Hdb).
  rewrite Hc in Hc0. injection Hc0 as <-. simpl in H.
  assert (Hid : wa_id after = wa_id c /\ wa_lookup after = wa_lookup c /\ wa_source after = wa_source c)
    by (rewrite Hafter; done).
  destruct Hid as (Hid & Hlookup & Hsource).
  assert (Hk : wa_disposition after = k /\ wa_execution_id after = None).
  { apply preengagement_ok in Hpre as (_ & _ & Hbuild & _).
    apply build_preengagement_unbound in Hbuild as (_ & Hkind & Hnone). split; [done|].
    unfold wa_execution_id, assignment_execution_id. by rewrite Hnone. }
  destruct Hk as [Hk Hfree].
  destruct (IH after s1 H) as (c' & Hdb' & Hid' & Hl' & Hs' & Hd' & Hf' & Hnil).
  { rewrite Hid, Hdb. simpl. by rewrite lookup_insert_eq. }
  exists c'. rewrite Hdb' , Hdb, Hid. simpl. rewrite insert_insert_eq.
  split_and!; try congruence.
  - rewrite Hd'. destruct rest; [done|]. apply last_default.
  - intros _. destruct rest as [|k' rest]; [by rewrite Hnil | by apply Hf'].
Qed.

(** Settling one message's claim: there is none, or the walk its state declares was taken. *)
Lemma settle_one_ok w ref steps s u s' :
  db_reachable (db s) -> settle_harness_inputs w [ref] steps s = (Ok u, s') ->
  (forall i c, wake_claims (db s) !! i = Some c -> wa_lookup c = w -> wa_wire_seq c = ref_seq ref -> False) /\
    db s' = db s \/
  exists c c', wake_claims (db s) !! wa_id c = Some c /\ wa_lookup c = w /\ wa_source c = ref /\
    db s' = with_table (Row := WakeAssignment) (<[wa_id c := c']> (wake_claims (db s))) (db s) /\
    wa_id c' = wa_id c /\ wa_lookup c' = w /\ wa_source c' = ref /\
    wa_disposition c' = List.last (steps (wa_lifecycle c)) (wa_disposition c) /\
    (steps (wa_lifecycle c) <> [] -> wa_execution_id c' = None) /\
    (steps (wa_lifecycle c) = [] -> c' = c).
Proof.
  intros Hd H. unfold settle_harness_inputs in H.
  apply bindM_ok in H as (claims & s1 & [Hread ->]%reading_ok & H).
  assert (Hclaims : claims = omap (fun seq => claim_at w seq (db s)) [ref_seq ref]) by (by ok_inv).
  clear Hread. simpl in Hclaims. destruct (claim_at w (ref_seq ref) (db s)) as [c|] eqn:E; subst claims.
  - right. simpl in H. apply bindM_ok in H as (u1 & s2 & H & [_ ->]%ret_ok).
    apply bindM_ok in H as (u2 & s3 & [Hsrc ->]%lift_ok & H). apply refuse_ok in Hsrc. bools.
    apply list_elem_of_singleton in Hsrc. apply claim_at_ok in E as (i & Hi & Hw & Hseq).
    pose proof (reachable_keyed _ Hd _ _ declared_claims _ _ Hi) as Hid. simpl in Hid. subst i.
    destruct (walk_claim_ok _ _ _ _ _ H Hi) as (c' & ? & ? & ? & ? & ? & ? & ?).
    exists c, c'. split_and!; try done; congruence.
  - left. apply ret_ok in H as [_ ->]. split; [|done]. intros i c Hi Hw Hseq.
    apply (claim_at_none _ _ _ _ _ E Hi). congruence.
Qed.

(** A wake pass selects such a claim only for an execution it already belongs to. *)
Definition left_native_queue (c : WakeAssignment) : Prop :=
  wa_execution_id c = None -> pending_selection (wa_lifecycle c) = false.

(** The message's claim of this recipient, if any, has left the native queue. *)
Definition claims_left (d : DB) (w : string) (ref : MessageReference) : Prop :=
  forall i c, wake_claims d !! i = Some c -> wa_lookup c = w -> wa_wire_seq c = ref_seq ref ->
    wa_source c = ref /\ left_native_queue c.

Lemma left_by_kind c : wa_disposition c = DeferredKind \/ wa_disposition c = DeliveredKind ->
  left_native_queue c.
Proof.
  unfold left_native_queue, wa_disposition, wa_execution_id. intros Hk Hfree.
  destruct (wa_lifecycle c) eqn:E; destruct Hk as [Hk|Hk]; simpl in Hk; try discriminate Hk;
    unfold pending_selection; [|done].
  by rewrite Hfree.
Qed.

Lemma handoff_leaves c : harness_handoff (wa_lifecycle c) = [] -> left_native_queue c.
Proof.
  unfold left_native_queue, wa_execution_id. intros Hh Hfree.
  destruct (wa_lifecycle c) eqn:E; simpl in Hh; try done; unfold pending_selection; by rewrite Hfree.
Qed.

(** One phase of the settlement: the claim rows it may change, and what it guarantees. *)
Lemma settle_phase_ok w ref steps (P : WakeAssignment -> Prop) s u s' :
  db_reachable (db s) -> settle_harness_inputs w [ref] steps s = (Ok u, s') ->
  (forall c, wake_claims (db s) !! wa_id c = Some c -> wa_lookup c = w -> wa_source c = ref ->
     steps (wa_lifecycle c) = [] -> P c) ->
  (forall c c', steps (wa_lifecycle c) <> [] ->
     wa_disposition c' = List.last (steps (wa_lifecycle c)) (wa_disposition c) ->
     wa_execution_id c' = None -> P c') ->
  (forall i c, wake_claims (db s') !! i = Some c -> wa_lookup c = w -> wa_wire_seq c = ref_seq ref ->
     wa_source c = ref /\ P c) /\
  (forall i c, wake_claims (db s') !! i = Some c -> (wa_lookup c, wa_wire_seq c) <> (w, ref_seq ref) ->
     wake_claims (db s) !! i = Some c) /\
  exists m, db s' = with_table (Row := WakeAssignment) m (db s).
Proof.
  intros Hd H Hstay Hmove. pose proof (reachable_claims_unique _ Hd) as Huniq.
  destruct (settle_one_ok _ _ _ _ _ _ Hd H) as [[Hnone ->]|
    (c & c' & Hc & Hw & Hsrc & Hdb & Hid & Hw' & Hsrc' & Hk & Hfree & Hnil)].
  - split_and!; [|done|exists (wake_claims (db s)); exact (eq_sym (with_own_table (Row := WakeAssignment) (db s)))].
    intros i c Hc Hw Hseq. by destruct (Hnone i c Hc Hw Hseq).
  - split_and!; [| |by exists (<[wa_id c := c']> (wake_claims (db s)))]; [|
      intros i x Hx Hne; rewrite Hdb in Hx; simpl in Hx;
      apply lookup_insert_Some in Hx as [[_ <-]|[_ Hx]]; [|done];
      destruct Hne; rewrite Hw', <- Hsrc'; reflexivity].
    intros i x Hx Hxw Hxs. rewrite Hdb in Hx. simpl in Hx.
    apply lookup_insert_Some in Hx as [[_ <-]|[Hne Hx]].
    + split; [done|]. destruct (decide (steps (wa_lifecycle c) = [])) as [E|E].
      * rewrite (Hnil E). by apply Hstay.
      * by eapply Hmove; [exact E | | apply Hfree].
    + exfalso. apply Hne. apply (Huniq _ _ c x Hc Hx). unfold wa_source in Hsrc. subst ref.
      simpl in Hxs. congruence.
Qed.

Lemma settle_claims_ok self s u s' :
  db_reachable (db s) -> settle_claims self s = (Ok u, s') ->
  claims_left (db s') (hd_lookup self) (hd_reference self) /\
  (forall i c, wake_claims (db s') !! i = Some c ->
     (wa_lookup c, wa_wire_seq c) <> (hd_lookup self, hd_seq self) -> wake_claims (db s) !! i = Some c) /\
  exists m, db s' = with_table (Row := WakeAssignment) m (db s).
Proof.
  intros Hd H. unfold settle_claims in H. simpl in H.
  apply bindM_ok in H as (u1 & s1 & H1 & H). apply bindM_ok in H as (u2 & s2 & H2 & [_ ->]%ret_ok).
  assert (Hd1 : db_reachable (db s1)).
  { eapply reachable_steps; [exact Hd|].
    pose proof (stepwise_settle_harness_inputs (hd_lookup self) [hd_reference self] harness_handoff s) as Hs.
    by rewrite H1 in Hs. }
  destruct (settle_phase_ok _ _ _ left_native_queue _ _ _ Hd H1) as (Hleft1 & Hframe1 & m1 & Hdb1).
  { intros c _ _ _. apply handoff_leaves. }
  { intros c c' Hne Hk _. apply left_by_kind. left. rewrite Hk.
    destruct (wa_lifecycle c); simpl in *; done. }
  destruct (settle_phase_ok _ _ _ left_native_queue _ _ _ Hd1 H2) as (Hleft2 & Hframe2 & m2 & Hdb2).
  { intros c Hc Hw Hsrc _. apply (Hleft1 _ _ Hc Hw). by rewrite <- Hsrc. }
  { intros c c' Hne Hk _. apply left_by_kind. right. rewrite Hk. unfold claim_steps in *.
    destruct (hd_monitor self), (wa_lifecycle c); simpl in *; done. }
  split_and!; [exact Hleft2|by auto|]. exists m2. by rewrite Hdb2, Hdb1, with_table_with.
Qed.

Lemma settle_claims_frame self s u s' i c :
  db_reachable (db s) -> settle_claims self s = (Ok u, s') -> wake_claims (db s') !! i = Some c ->
  (wa_lookup c, wa_wire_seq c) <> (hd_lookup self, hd_seq self) -> wake_claims (db s) !! i = Some c.
Proof. intros Hd (_ & Hframe & _)%settle_claims_ok; [|done]. by apply Hframe. Qed.

(** ** Theorems *)

Lemma begin_stored self s b s' :
  db_reachable (db s) -> begin self s = (Ok b, s') ->
  claims_left (db s') (hd_lookup self) (hd_reference self) /\
  is_Some (harness_deliveries (db s') !! hd_identity self) /\
  (is_Some (harness_deliveries (db s) !! hd_identity self) ->
     b = false /\ harness_deliveries (db s') = harness_deliveries (db s)).
Proof.
  intros Hd H. unfold begin in *. apply bindM_ok in H as (u & s1 & H1 & H).
  destruct (settle_claims_ok _ _ _ _ Hd H1) as (Hleft & _ & m & Hdb).
  unfold first_write in H. apply bindM_ok in H as (row & s2 & [Hrow ->]%reading_ok & H).
  assert (Hsame : harness_deliveries (db s1) = harness_deliveries (db s)) by (by rewrite Hdb).
  unfold stored in Hrow.
  destruct (harness_deliveries (db s1) !! hd_identity self) as [r|] eqn:E; ok_inv.
  - apply ret_ok in H as [-> ->]. split_and!; [done|by eexists|done].
  - apply bindM_ok in H as ([] & s3 & (_ & d' & Hins & ->)%insert_ok & [-> ->]%ret_ok).
    apply exec_insert_ok in Hins as (_ & _ & (_ & _ & -> & _)%write_row_ok). simpl.
    split_and!; [exact Hleft|rewrite lookup_insert_eq; by eexists|].
    rewrite <- Hsame, E. by intros [? ?].
Qed.

(** Beginning a harness attempt takes the message's claim out of the native queue in
    the same write that stores the attempt: afterwards the recipient's claim at that
    sequence is this message's and no wake pass selects it for a new execution, and whatever
    is written later, the same attempt never begins again. *)
Theorem harness_attempt_begins_once (self again : HarnessDelivery) (s s' later later' : Session)
    (b b' : bool) :
  db_reachable (db s) -> begin self s = (Ok b, s') -> rtc db_step (db s') (db later) ->
  hd_identity again = hd_identity self -> begin again later = (Ok b', later') ->
  claims_left (db s') (hd_lookup self) (hd_reference self) /\
  b' = false /\ harness_deliveries (db later') = harness_deliveries (db later).
Proof.
  intros Hd H Hsteps Hid Hagain. destruct (begin_stored _ _ _ _ Hd H) as (Hleft & Hrow & _).
  split; [done|].
  assert (Hd' : db_reachable (db later)).
  { eapply reachable_steps; [|exact Hsteps]. eapply reachable_steps; [exact Hd|].
    pose proof (stepwise_begin self s) as Hs. by rewrite H in Hs. }
  destruct (begin_stored _ _ _ _ Hd' Hagain) as (_ & _ & Hagain'). apply Hagain'. rewrite Hid.
  exact (row_persists HarnessDelivery _ _ _ _ declared_harness Hsteps Hrow).
Qed.

(** A settled harness attempt stays settled: changing it, whatever the change, writes
    no row of the attempts and answers the attempt as stored; a change of an open attempt
    that returns stored exactly the successor, with the claim steps its evidence proves. *)
Theorem settled_attempt_is_final (self current answer : HarnessDelivery)
    (change : HarnessDelivery -> HarnessDelivery) (s s' : Session) :
  db_reachable (db s) -> harness_deliveries (db s) !! hd_identity self = Some current ->
  hd_identity (change current) = hd_identity self ->
  harness_apply self change s = (Ok answer, s') ->
  if outcome_settled (hd_outcome current)
  then answer = current /\ s' = s
  else answer = change current /\
       harness_deliveries (db s') = <[hd_identity self := change current]> (harness_deliveries (db s)) /\
       claims_left (db s') (hd_lookup answer) (hd_reference answer).
Proof.
  intros Hd Hrow Hid H. unfold harness_apply in H.
  apply bindM_ok in H as (row & s1 & [Hread ->]%reading_ok & H).
  apply bindM_ok in H as (cur & s2 & [Hone ->]%lift_ok & H).
  apply stored_ok in Hread as ->. rewrite Hrow in Hone. injection Hone as <-.
  unfold outcome_settle in H. destruct (outcome_settled (hd_outcome current)).
  - apply bindM_ok in H as (row' & s3 & [Hread' ->]%reading_ok & H).
    apply lift_ok in H as [Hone ->]. apply stored_ok in Hread' as ->. rewrite Hid, Hrow in Hone.
    by injection Hone.
  - apply bindM_ok in H as (u & s3 & H & [-> ->]%ret_ok). unfold harness_record in H.
    apply bindM_ok in H as (u1 & s4 & H1 & H).
    destruct (settle_claims_ok _ _ _ _ Hd H1) as (Hleft & _ & m & Hdb).
    unfold harness_write in H. apply bindM_ok in H as (row' & s5 & [_ ->]%reading_ok & H).
    apply upsert_ok in H as (_ & _ & _ & Hdb' & _). split; [done|].
    rewrite Hdb'. simpl. rewrite Hid. split; [by rewrite Hdb | exact Hleft].
Qed.
