(* ===== verification/CohortSchema.v ===== *)
(** * What a sealed cohort guarantees

    The schema invariants of the cohort tables: once an acknowledgement is sealed its
    deliveries and members are exactly as many as it counts, numbered without gaps, the
    members are the claimed deliveries in order, and no observer ever has a claim.  They
    hold in every store reached by accepted statements, whoever issued them. *)

From stdpp Require Import base gmap strings list sorting.
From Stdlib Require Import ZArith Lia.
From S2P Require Import Prelude Contracts Lifecycle WakePolicy AssignmentStates ResponseStates.
From S2P Require Import AttemptStates ExecutionStates Rows TableGuards Database Session SchemaSteps.
From S2P Require Import CohortRows CohortTables SchemaInvariants.

(** ** Numbered rows *)

Lemma strictly_sorted_length (l : list Z) lo hi :
  StronglySorted Z.lt l -> Forall (fun z => lo <= z < hi) l -> lo <= hi ->
  Z.of_nat (length l) <= hi - lo.
Proof.
  intros Hs. revert lo. induction Hs as [|x l Hs IH Hx]; intros lo Hl Hle; simpl; [lia|].
  apply Forall_cons in Hl as [Hxb Hl].
  assert (Hrest : Forall (fun z => x + 1 <= z < hi) l).
  { rewrite Forall_forall in *. intros z Hz. specialize (Hx z Hz). specialize (Hl z Hz). lia. }
  specialize (IH (x + 1) Hrest). lia.
Qed.

(** Distinct numbers below their count are all the numbers below it. *)
Lemma strictly_sorted_full (l : list Z) lo :
  StronglySorted Z.lt l -> Forall (fun z => lo <= z < lo + Z.of_nat (length l)) l ->
  l = seqZ lo (Z.of_nat (length l)).
Proof.
  intros Hs. revert lo. induction Hs as [|x l Hs IH Hx]; intros lo Hl; [done|].
  simpl length in *. apply Forall_cons in Hl as [Hxb Hl].
  assert (Hrest : Forall (fun z => x + 1 <= z < lo + Z.of_nat (S (length l))) l).
  { rewrite Forall_forall in *. intros z Hz. specialize (Hx z Hz). specialize (Hl z Hz). lia. }
  assert (x = lo) as ->.
  { pose proof (strictly_sorted_length l (x + 1) _ Hs Hrest). lia. }
  rewrite seqZ_cons by lia. f_equal.
  replace (Z.pred (Z.of_nat (S (length l)))) with (Z.of_nat (length l)) by lia.
  apply IH. eapply Forall_impl; [exact Hrest|]. simpl. lia.
Qed.

(** The number of rows before a row of a sorted table is its position. *)
Lemma strictly_sorted_rank {A : Type} (f : A -> Z) (l : list A) j x :
  StronglySorted Z.lt (map f l) -> l !! j = Some x ->
  length (List.filter (fun y => f y <? f x) l) = j.
Proof.
  revert j. induction l as [|a l IH]; intros j Hs Hj; [done|]. simpl in Hs.
  apply StronglySorted_inv in Hs as [Hs Ha]. rewrite Forall_forall in Ha.
  destruct j as [|j]; simpl in *.
  - injection Hj as ->. rewrite Z.ltb_irrefl.
    assert (Hnone : forall y, y ∈ l -> (f y <? f x) = false).
    { intros y Hy. apply Z.ltb_ge. assert (f x < f y); [|lia].
      apply Ha. apply list_elem_of_fmap. eauto. }
    clear -Hnone. induction l as [|y l IH]; simpl; [done|].
    rewrite (Hnone y) by left. apply IH. intros z Hz. apply Hnone. by right.
  - assert (f a < f x).
    { apply Ha. apply list_elem_of_fmap. exists x. split; [done|]. by eapply list_elem_of_lookup_2. }
    rewrite (proj2 (Z.ltb_lt _ _)) by done. simpl. f_equal. by apply IH.
Qed.

#[export] Instance lt_antisymm : AntiSymm (=) Z.lt.
Proof. intros x y Hxy Hyx. lia. Qed.

Lemma StronglySorted_lt_NoDup (l : list Z) : StronglySorted Z.lt l -> NoDup l.
Proof.
  intros Hs. induction Hs as [|x l Hs IH Hx]; constructor; [|done].
  intros Hin. rewrite Forall_forall in Hx. specialize (Hx x Hin). lia.
Qed.

Section numbered.
Context {K A : Type} `{Countable K} (m : gmap (K * Z) A) (ordinal : A -> Z) (owner : K).
Hypothesis Hkeyed : forall k a, m !! k = Some a -> ordinal a = k.2.

Lemma select_rows_keys :
  map ordinal (select_rows Z.leb m owner) = map snd (select_keys Z.leb m owner).
Proof.
  unfold select_rows.
  assert (Hall : Forall (fun k => is_Some (m !! k)) (select_keys Z.leb m owner)).
  { apply Forall_forall. intros k [_ Hk]%elem_of_select_keys. done. }
  induction (select_keys Z.leb m owner) as [|k l IH]; [done|].
  apply Forall_cons in Hall as [[a Ha] Hall]. simpl. rewrite Ha. simpl.
  f_equal; [by apply Hkeyed | by apply IH].
Qed.

Lemma select_keys_sorted : StronglySorted Z.lt (map snd (select_keys Z.leb m owner)).
Proof.
  assert (Hnodup : NoDup (select_keys Z.leb m owner)).
  { unfold select_keys. rewrite (merge_sort_Permutation (second_le Z.leb)).
    apply NoDup_filter, NoDup_elements. }
  assert (Hown : Forall (fun k => k.1 = owner) (select_keys Z.leb m owner)).
  { apply Forall_forall. by intros k [? _]%elem_of_select_keys. }
  assert (Hs : StronglySorted (second_le Z.leb) (select_keys Z.leb m owner)).
  { unfold select_keys. apply StronglySorted_merge_sort.
    - intros [? x] [? y] [? z]. unfold second_le. simpl. rewrite !Z.leb_le. lia.
    - intros [? x] [? y]. unfold second_le. simpl. rewrite !Z.leb_le. lia. }
  induction Hs as [|k l Hs IH Hk]; simpl; [constructor|].
  apply NoDup_cons in Hnodup as [Hnotin Hnodup]. apply Forall_cons in Hown as [Hko Hown].
  constructor; [by apply IH|]. apply Forall_fmap, Forall_forall. intros k' Hk'. simpl.
  rewrite Forall_forall in Hk, Hown. specialize (Hk k' Hk'). specialize (Hown k' Hk').
  unfold second_le in Hk. apply Z.leb_le in Hk.
  destruct (decide (k.2 = k'.2)) as [Heq|]; [|lia]. exfalso. apply Hnotin.
  replace k with k'; [done|]. destruct k, k'; simpl in *; congruence.
Qed.

Lemma select_rows_sorted : StronglySorted Z.lt (map ordinal (select_rows Z.leb m owner)).
Proof. rewrite select_rows_keys. apply select_keys_sorted. Qed.
End numbered.

(** The selection depends on the owner's rows alone. *)
Lemma select_keys_ext {K A : Type} `{Countable K} (m m' : gmap (K * Z) A) owner :
  (forall b, is_Some (m !! (owner, b)) <-> is_Some (m' !! (owner, b))) ->
  select_keys Z.leb m owner = select_keys Z.leb m' owner.
Proof.
  intros Hsame.
  assert (Hown : forall m0 : gmap (K * Z) A, select_keys Z.leb m0 owner =
    map (pair owner) (map snd (select_keys Z.leb m0 owner))).
  { intros m0. rewrite map_map. rewrite <- (map_id (select_keys Z.leb m0 owner)) at 1.
    apply map_ext_in. intros [k b] Hk%list_elem_of_In. apply elem_of_select_keys in Hk as [Hk _].
    simpl in *. congruence. }
  rewrite (Hown m), (Hown m'). f_equal.
  apply (StronglySorted_unique Z.lt); [apply select_keys_sorted..|].
  apply NoDup_Permutation.
  - apply StronglySorted_lt_NoDup, select_keys_sorted.
  - apply StronglySorted_lt_NoDup, select_keys_sorted.
  - intros z. rewrite !list_elem_of_fmap.
    split; intros ([k b] & -> & [Hk Hb]%elem_of_select_keys); simpl in *; subst k;
      exists (owner, b); (split; [done|]); apply elem_of_select_keys; (split; [done|]); by apply Hsame.
Qed.

Lemma select_rows_ext {K A : Type} `{Countable K} (m m' : gmap (K * Z) A) owner :
  (forall b, m !! (owner, b) = m' !! (owner, b)) ->
  select_rows Z.leb m owner = select_rows Z.leb m' owner.
Proof.
  intros Hsame. unfold select_rows.
  rewrite (select_keys_ext m m') by (intros b; by rewrite Hsame).
  apply list_omap_ext, Forall_Forall2_diag, Forall_forall.
  intros [k b] [Hk _]%elem_of_select_keys. simpl in *. subst k. apply Hsame.
Qed.

(** ** The invariant *)

Record cohort_wf (d : DB) : Prop := {
  cw_sealed : forall b r, claim_batch_receipts d !! b = Some r -> cb_sealed r = true ->
    seal_guard d r = false;
  cw_member : forall k m, claim_batch_members d !! k = Some m -> member_claim d m = true;
  cw_receipt : forall k v, cohort_delivery_receipts d !! k = Some v ->
    is_Some (claim_batch_receipts d !! (cd_root v, cd_seq v));
  cw_delivery : forall k v i, cohort_delivery_receipts d !! k = Some v -> cd_claim v = Some i ->
    exists c, wake_claims d !! i = Some c /\ wa_lookup c = cd_lookup v /\
      wa_recipient c = cd_thread v /\ wa_wire_seq c = cd_seq v;
}.

Lemma existsb_false {A : Type} (p : A -> bool) l : existsb p l = false <-> forall x, x ∈ l -> p x = false.
Proof.
  split.
  - intros H x Hx. apply not_true_iff_false. intros Hp.
    assert (existsb p l = true); [|congruence]. apply existsb_exists. exists x.
    split; [by apply list_elem_of_In | done].
  - intros H. apply not_true_iff_false. intros (x & Hx & Hp)%existsb_exists.
    apply list_elem_of_In in Hx. rewrite H in Hp; done.
Qed.

Lemma delivery_rows_elem d b v :
  keyed (Row := CohortDeliveries) d -> v ∈ delivery_rows d b ->
  cohort_delivery_receipts d !! (b, cd_ordinal v) = Some v /\ (cd_root v, cd_seq v) = b.
Proof.
  intros Hk (o & Hv)%elem_of_select_rows. pose proof (Hk _ _ Hv) as Hkey. simpl in Hkey.
  injection Hkey as <- <-. done.
Qed.

Lemma member_rows_elem d b m :
  keyed (Row := ClaimBatchMembers) d -> m ∈ member_rows d b ->
  claim_batch_members d !! (b, bm_ordinal m) = Some m /\ (bm_root m, bm_seq m) = b.
Proof.
  intros Hk (o & Hm)%elem_of_select_rows. pose proof (Hk _ _ Hm) as Hkey. simpl in Hkey.
  injection Hkey as <- <-. done.
Qed.

(** What sealing reads of the claims: which recipients have one at which sequence. *)
Lemma seal_violation_claims deliveries members claims claims' r :
  (forall v i c, v ∈ deliveries -> cd_claim v = None -> claims' !! i = Some c ->
     wa_lookup c = cd_lookup v -> wa_wire_seq c = cd_seq v ->
     exists j c0, claims !! j = Some c0 /\ wa_lookup c0 = cd_lookup v /\ wa_wire_seq c0 = cd_seq v) ->
  seal_violation deliveries members claims r = false ->
  seal_violation deliveries members claims' r = false.
Proof.
  intros Hmore. unfold seal_violation. rewrite !orb_false_iff.
  intros [Hrest Hobs]. split; [done|]. rewrite existsb_false in *. intros v Hv.
  specialize (Hobs v Hv). unfold observer_conflict in *.
  destruct (cd_claim v) eqn:Ev; simpl in *; [done|].
  apply not_true_iff_false. intros (i & c & Hc & Heq)%map_exists_spec. bools.
  destruct (Hmore v i c Hv Ev Hc) as (j & c0 & Hc0 & Hl & Hs); [done..|].
  apply (map_exists_false _ _ _ _ Hobs) in Hc0. rewrite Hl, Hs in Hc0.
  by rewrite bool_decide_eq_true_2, Z.eqb_refl in Hc0.
Qed.

Lemma member_claim_kept d d' m :
  (forall c, wake_claims d !! bm_claim m = Some c ->
     exists c', wake_claims d' !! bm_claim m = Some c' /\
       wa_lookup c' = wa_lookup c /\ wa_source c' = wa_source c /\ wa_resolver c' = wa_resolver c /\
       wa_policy c' = wa_policy c /\ wa_accepted c' = wa_accepted c) ->
  (forall r, claim_batch_receipts d !! (bm_root m, bm_seq m) = Some r ->
     exists r', claim_batch_receipts d' !! (bm_root m, bm_seq m) = Some r' /\
       with_sealed r' false = with_sealed r false) ->
  member_claim d m = true -> member_claim d' m = true.
Proof.
  intros Hclaim Hreceipt. unfold member_claim.
  destruct (wake_claims d !! bm_claim m) as [c|]; [|done].
  destruct (claim_batch_receipts d !! (bm_root m, bm_seq m)) as [r|]; [|done]. intros H.
  destruct (Hclaim c eq_refl) as (c' & -> & Hl & Hs & Hr & Hp & Ha).
  destruct (Hreceipt r eq_refl) as (r' & -> & Hsame). injection Hs as Hs1 Hs2.
  injection Hsame as _ _ Hm _ _ _ _ _ _ _ Hres Hpol Hacc.
  by rewrite Hl, Hs1, Hs2, Hr, Hp, Ha, Hm, Hres, Hpol, Hacc.
Qed.

Section one_write.
Context (d : DB) (HK : all_keyed d) (HI : cohort_wf d).

Lemma wf_claim_insert new :
  claim_insert_guard d new = false -> wake_claims d !! wa_id new = None ->
  cohort_wf (with_table (Row := WakeAssignment) (<[wa_id new := new]> (wake_claims d)) d).
Proof.
  intros Hg Hfresh. split; simpl.
  - intros b r Hr Hs. pose proof (HK _ _ declared_batches _ _ Hr) as Hkey. simpl in Hkey.
    eapply seal_violation_claims; [|exact (cw_sealed _ HI b r Hr Hs)].
    intros v i c Hv Hobs Hc Hl Hq. simpl in Hc. apply lookup_insert_Some in Hc as [[_ <-]|[_ Hc]]; [|by eauto].
    exfalso. apply (delivery_rows_elem d) in Hv as [Hv Hb]; [|by apply (HK _ _ declared_deliveries)].
    apply (map_exists_false _ _ _ _ Hg) in Hv. unfold observer_of in Hv.
    rewrite Hb, Hkey, Hr, Hs, Hobs, Hl, Hq in Hv.
    by rewrite bool_decide_eq_true_2, Z.eqb_refl in Hv.
  - intros k m Hm. eapply member_claim_kept; [| |exact (cw_member _ HI k m Hm)]; simpl; [|by eauto].
    intros c Hc. exists c. rewrite lookup_insert_ne; [by split_and!|]. congruence.
  - exact (cw_receipt _ HI).
  - intros k v i Hv Hi. destruct (cw_delivery _ HI k v i Hv Hi) as (c & Hc & Hrest).
    exists c. split; [|done]. rewrite lookup_insert_ne; [done|]. congruence.
Qed.

Lemma wf_claim_update i old new :
  wake_claims d !! i = Some old -> claim_update_guard d old new = false ->
  cohort_wf (with_table (Row := WakeAssignment) (<[i := new]> (wake_claims d)) d).
Proof.
  intros Hold Hg. pose proof (claim_update_progress _ _ _ Hg) as Hprog. split; simpl.
  - intros b r Hr Hs. eapply seal_violation_claims; [|exact (cw_sealed _ HI b r Hr Hs)].
    intros v j c Hv Hobs Hc Hl Hq. simpl in Hc. apply lookup_insert_Some in Hc as [[_ <-]|[_ Hc]]; [|by eauto].
    exists i, old. rewrite Hprog in Hl, Hq. done.
  - intros k m Hm. eapply member_claim_kept; [| |exact (cw_member _ HI k m Hm)]; simpl; [|by eauto].
    intros c Hc. destruct (decide (i = bm_claim m)) as [->|Hne].
    + rewrite Hold in Hc. injection Hc as <-. exists new. rewrite lookup_insert_eq.
      split; [done|]. by rewrite Hprog.
    + exists c. by rewrite lookup_insert_ne.
  - exact (cw_receipt _ HI).
  - intros k v j Hv Hj. destruct (cw_delivery _ HI k v j Hv Hj) as (c & Hc & Hrest).
    destruct (decide (i = j)) as [->|Hne].
    + rewrite Hold in Hc. injection Hc as <-. exists new. rewrite lookup_insert_eq.
      split; [done|]. by rewrite Hprog.
    + exists c. by rewrite lookup_insert_ne.
Qed.

Lemma wf_receipt_insert new :
  cb_sealed new = false -> claim_batch_receipts d !! (cb_root new, cb_seq new) = None ->
  cohort_wf (with_table (Row := ClaimBatchAcknowledgements)
    (<[(cb_root new, cb_seq new) := new]> (claim_batch_receipts d)) d).
Proof.
  intros Hs Hfresh. split; simpl.
  - intros b r Hr Hsr. apply lookup_insert_Some in Hr as [[_ <-]|[_ Hr]]; [congruence|].
    exact (cw_sealed _ HI b r Hr Hsr).
  - intros k m Hm. eapply member_claim_kept; [| |exact (cw_member _ HI k m Hm)]; simpl; [by eauto 10|].
    intros r Hr. exists r. rewrite lookup_insert_ne; [done|]. congruence.
  - intros k v Hv. apply keeps_insert. exact (cw_receipt _ HI k v Hv).
  - exact (cw_delivery _ HI).
Qed.

Lemma wf_receipt_update b old new :
  claim_batch_receipts d !! b = Some old -> receipt_update_guard d old new = false ->
  cohort_wf (with_table (Row := ClaimBatchAcknowledgements) (<[b := new]> (claim_batch_receipts d)) d).
Proof.
  intros Hold (Hopen & -> & Hseal)%receipt_update_ok. split; simpl.
  - intros b' r Hr Hs. apply lookup_insert_Some in Hr as [[_ <-]|[_ Hr]]; [exact Hseal|].
    exact (cw_sealed _ HI b' r Hr Hs).
  - intros k m Hm. eapply member_claim_kept; [| |exact (cw_member _ HI k m Hm)]; simpl; [by eauto 10|].
    intros r Hr. destruct (decide (b = (bm_root m, bm_seq m))) as [->|Hne].
    + rewrite Hold in Hr. injection Hr as <-. rewrite lookup_insert_eq. by eexists.
    + rewrite lookup_insert_ne by done. eauto.
  - intros k v Hv. apply keeps_insert. exact (cw_receipt _ HI k v Hv).
  - exact (cw_delivery _ HI).
Qed.

(** Rows are only added to batches that are not sealed. *)
Lemma wf_member_insert new :
  member_insert_guard d new = false ->
  claim_batch_members d !! (bm_root new, bm_seq new, bm_ordinal new) = None ->
  cohort_wf (with_table (Row := ClaimBatchMembers)
    (<[(bm_root new, bm_seq new, bm_ordinal new) := new]> (claim_batch_members d)) d).
Proof.
  intros [Hopen Hclaim%negb_false_iff]%orb_false_iff Hfresh. split; simpl.
  - intros b r Hr Hs. pose proof (HK _ _ declared_batches _ _ Hr) as Hkey. simpl in Hkey.
    unfold seal_guard, member_rows, delivery_rows. simpl.
    rewrite (select_rows_ext _ (claim_batch_members d)); [exact (cw_sealed _ HI b r Hr Hs)|].
    intros o. rewrite lookup_insert_ne; [done|]. intros Heq.
    injection Heq as H1 H2 _. unfold batch_sealed in Hopen. rewrite H1, H2, Hkey, Hr in Hopen. congruence.
  - intros k m Hm. apply lookup_insert_Some in Hm as [[_ <-]|[_ Hm]]; [exact Hclaim|].
    exact (cw_member _ HI k m Hm).
  - exact (cw_receipt _ HI).
  - exact (cw_delivery _ HI).
Qed.

Lemma wf_delivery_insert new :
  delivery_insert_guard d new = false ->
  is_Some (claim_batch_receipts d !! (cd_root new, cd_seq new)) ->
  cohort_wf (with_table (Row := CohortDeliveries)
    (<[(cd_root new, cd_seq new, cd_ordinal new) := new]> (cohort_delivery_receipts d)) d).
Proof.
  intros [Hopen Hmember]%orb_false_iff Hreceipt. split; simpl.
  - intros b r Hr Hs. pose proof (HK _ _ declared_batches _ _ Hr) as Hkey. simpl in Hkey.
    unfold seal_guard, member_rows, delivery_rows. simpl.
    rewrite (select_rows_ext _ (cohort_delivery_receipts d)); [exact (cw_sealed _ HI b r Hr Hs)|].
    intros o. rewrite lookup_insert_ne; [done|]. intros Heq.
    injection Heq as H1 H2 _. unfold batch_sealed in Hopen. rewrite H1, H2, Hkey, Hr in Hopen. congruence.
  - exact (cw_member _ HI).
  - intros k v Hv. apply lookup_insert_Some in Hv as [[_ <-]|[_ Hv]]; [exact Hreceipt|].
    exact (cw_receipt _ HI k v Hv).
  - intros k v i Hv Hi. apply lookup_insert_Some in Hv as [[_ <-]|[_ Hv]];
      [|exact (cw_delivery _ HI k v i Hv Hi)].
    rewrite Hi in Hmember. simpl in Hmember. apply negb_false_iff, existsb_exists in Hmember.
    destruct Hmember as (m & Hm%list_elem_of_In & Hdm). unfold delivery_member in Hdm.
    destruct (wake_claims d !! bm_claim m) as [c|] eqn:Ec; bools; [|done].
    apply member_rows_elem in Hm as [Hm Hb]; [|by apply (HK _ _ declared_members)].
    pose proof (cw_member _ HI _ _ Hm) as Hmc. unfold member_claim in Hmc. rewrite Ec in Hmc.
    destruct (claim_batch_receipts d !! (bm_root m, bm_seq m)); [|done]. bools.
    injection Hb as _ Hseq. exists c. split_and!; congruence.
Qed.
End one_write.

(** The invariant reads the claims and the private tables; a frontier or a captured
    generation is no part of it. *)
Lemma cohort_wf_frame d d' :
  wake_claims d' = wake_claims d -> claim_batch_receipts d' = claim_batch_receipts d ->
  claim_batch_members d' = claim_batch_members d ->
  cohort_delivery_receipts d' = cohort_delivery_receipts d -> cohort_wf d -> cohort_wf d'.
Proof.
  intros Hc Hr Hm Hv [H1 H2 H3 H4].
  split; unfold seal_guard, member_claim, delivery_rows, member_rows in *; rewrite ?Hc, ?Hr, ?Hm, ?Hv; done.
Qed.

Lemma cohort_wf_step d d' :
  all_keyed d /\ cohort_wf d -> step_effect d d' -> all_keyed d' /\ cohort_wf d'.
Proof.
  intros [HK HI] Hstep. split; [by eapply keyed_step|].
  each_write Hstep; try exact HI; try by apply (cohort_wf_frame d).
  - by apply wf_claim_insert.
  - by apply wf_receipt_insert.
  - by apply wf_member_insert.
  - apply wf_delivery_insert; [done..|]. bools.
    by destruct (batch_receipts (private_tables d) !! (cd_root new, cd_seq new)).
  - by eapply wf_claim_update.
  - by eapply wf_receipt_update.
Qed.

Lemma reachable_cohort d : db_reachable d -> cohort_wf d.
Proof.
  intros Hd. apply (reachable_invariant (fun d => all_keyed d /\ cohort_wf d)); [| |done].
  - split; [apply reachable_keyed; constructor|]. split; intros k x; intros; simpl in *; by simplify_map_eq.
  - intros d1 d2 HI Hs. by eapply cohort_wf_step.
Qed.

(** ** A sealed batch never changes *)

Lemma sealed_batch_step d d' b r :
  all_keyed d -> step_effect d d' -> claim_batch_receipts d !! b = Some r -> cb_sealed r = true ->
  claim_batch_receipts d' !! b = Some r /\
  member_rows d' b = member_rows d b /\ delivery_rows d' b = delivery_rows d b.
Proof.
  intros HK Hstep Hr Hs. pose proof (HK _ _ declared_batches _ _ Hr) as Hkey. simpl in Hkey.
  each_write Hstep; try done.
  - split; [|done]. rewrite lookup_insert_ne; [done|]. congruence.
  - split_and!; try done. apply select_rows_ext. intros o. simpl. rewrite lookup_insert_ne; [done|].
    intros Heq. subst b. injection Heq as H1 H2 _. apply orb_false_iff in Hguard as [Hopen _].
    unfold batch_sealed in Hopen. rewrite H1, H2, Hr in Hopen. congruence.
  - split_and!; try done. apply select_rows_ext. intros o. simpl. rewrite lookup_insert_ne; [done|].
    intros Heq. subst b. injection Heq as H1 H2 _. apply orb_false_iff in Hguard as [Hopen _].
    unfold batch_sealed in Hopen. rewrite H1, H2, Hr in Hopen. congruence.
  - apply receipt_update_ok in Hguard as (Hopen & _). split; [|done].
    rewrite lookup_insert_ne; [done|]. congruence.
Qed.

Lemma sealed_batch_kept d d' b r :
  db_reachable d -> rtc db_step d d' -> claim_batch_receipts d !! b = Some r -> cb_sealed r = true ->
  claim_batch_receipts d' !! b = Some r /\
  member_rows d' b = member_rows d b /\ delivery_rows d' b = delivery_rows d b.
Proof.
  intros Hd Hsteps Hr Hs. induction Hsteps as [|d1 d2 d3 H12 _ IH]; [done|].
  destruct (sealed_batch_step d1 d2 b r) as (Hr2 & Hm2 & Hv2); try done.
  { by apply reachable_keyed. }
  { by apply db_step_effect. }
  destruct IH as (Hr3 & Hm3 & Hv3); [by econstructor|done|]. split_and!; congruence.
Qed.

(** ** What sealing establishes *)

Section sealed.
Context (deliveries : list CohortDeliveries) (members : list ClaimBatchMembers).
Context (claims : gmap string WakeAssignment) (r : ClaimBatchAcknowledgements).
Hypothesis Hseal : seal_violation deliveries members claims r = false.
Hypothesis Hdsort : StronglySorted Z.lt (map cd_ordinal deliveries).
Hypothesis Hmsort : StronglySorted Z.lt (map bm_ordinal members).
Hypothesis Hdpos : Forall (fun v => 0 <= cd_ordinal v) deliveries.
Hypothesis Hmpos : Forall (fun m => 0 <= bm_ordinal m) members.

Lemma seal_facts :
  (count deliveries = cb_members r /\ count (claimed deliveries) = cb_claims r /\
   count members = cb_claims r) /\
  Forall (fun v => cd_ordinal v < cb_members r) deliveries /\
  Forall (fun m => bm_ordinal m < cb_claims r) members /\
  Forall (fun m => member_misplaced deliveries m = false) members /\
  Forall (fun v => observer_conflict claims v = false) deliveries.
Proof.
  unfold seal_violation in Hseal. rewrite !orb_false_iff, !negb_false_iff, !existsb_false in Hseal.
  destruct Hseal as [[[[[H1 H2] H3] [H4 H5]] H6] H7]. rewrite !Forall_forall.
  repeat match goal with H : (_ =? _) = true |- _ => apply Z.eqb_eq in H end.
  split_and!; try done; intros x Hx; [specialize (H4 x Hx)|specialize (H5 x Hx)]; by apply Z.leb_gt.
Qed.

Lemma sealed_ordinals :
  map cd_ordinal deliveries = seqZ 0 (cb_members r) /\ map bm_ordinal members = seqZ 0 (cb_claims r).
Proof.
  destruct seal_facts as ((H1 & _ & H3) & H4 & H5 & _). unfold count in *. split.
  - rewrite (strictly_sorted_full _ 0 Hdsort); rewrite length_map; [by f_equal|].
    apply Forall_fmap. rewrite Forall_forall in *. intros v Hv. simpl.
    specialize (H4 v Hv). specialize (Hdpos v Hv). lia.
  - rewrite (strictly_sorted_full _ 0 Hmsort); rewrite length_map; [by f_equal|].
    apply Forall_fmap. rewrite Forall_forall in *. intros m Hm. simpl.
    specialize (H5 m Hm). specialize (Hmpos m Hm). lia.
Qed.

Lemma claimed_sorted : StronglySorted Z.lt (map cd_ordinal (claimed deliveries)).
Proof.
  clear -Hdsort. unfold claimed. induction deliveries as [|v l IH]; simpl; [constructor|].
  simpl in Hdsort. apply StronglySorted_inv in Hdsort as [Hs Hv].
  destruct (present (cd_claim v)); [|by apply IH]. simpl. constructor; [by apply IH|].
  rewrite Forall_forall in *. intros z (x & -> & Hx)%list_elem_of_fmap. apply Hv, list_elem_of_fmap.
  exists x. split; [done|]. apply list_elem_of_In in Hx. apply List.filter_In in Hx as [Hx _].
  by apply list_elem_of_In.
Qed.

(** The members are the claims of the claimed deliveries, in the deliveries' order. *)
Lemma sealed_members : map (fun m => Some (bm_claim m)) members = map cd_claim (claimed deliveries).
Proof.
  destruct seal_facts as ((_ & H2 & H3) & _ & _ & H6 & _).
  destruct sealed_ordinals as [_ Hord]. apply list_eq_same_length with (length members).
  - by rewrite !length_map in *; unfold count in *; lia.
  - by rewrite length_map.
  - intros k x y Hk Hx Hy. rewrite !list_lookup_fmap in *.
    destruct (members !! k) as [m|] eqn:Em; [|done]. injection Hx as <-.
    destruct (claimed deliveries !! k) as [v|] eqn:Ev; [|done]. injection Hy as <-.
    rewrite Forall_forall in H6. specialize (H6 m (list_elem_of_lookup_2 _ _ _ Em)).
    assert (Hmk : bm_ordinal m = Z.of_nat k).
    { assert (Hl : map bm_ordinal members !! k = Some (bm_ordinal m)) by (by rewrite list_lookup_fmap, Em).
      rewrite Hord in Hl. apply lookup_seqZ in Hl as [Hl _]. lia. }
    unfold member_misplaced in H6.
    match type of H6 with context [List.filter ?p deliveries] =>
      destruct (List.filter p deliveries) as [|w ws] eqn:Ef; [done|] end.
    assert (Hw : w ∈ deliveries /\ cd_claim w = Some (bm_claim m)).
    { assert (Hin : In w (w :: ws)) by (by left). rewrite <- Ef in Hin.
      apply List.filter_In in Hin as [Hin Hp]. bools. split; [by apply list_elem_of_In | done]. }
    destruct Hw as [Hw Hclaim]. simpl in H6. apply orb_false_iff in H6 as [H6 _].
    apply negb_false_iff, Z.eqb_eq in H6. unfold count in H6.
    assert (Hin : w ∈ claimed deliveries).
    { apply list_elem_of_In. apply List.filter_In. split; [by apply list_elem_of_In|].
      by rewrite Hclaim. }
    apply list_elem_of_lookup in Hin as [j Hj].
    rewrite (strictly_sorted_rank cd_ordinal _ j w claimed_sorted Hj) in H6.
    assert (j = k) as -> by lia. congruence.
Qed.
End sealed.

Lemma map_some_omap {A B C : Type} (f : A -> B) (g : C -> option B) (l : list A) (l' : list C) :
  map (fun a => Some (f a)) l = map g l' -> map f l = omap g l'.
Proof.
  revert l'. induction l as [|a l IH]; intros [|c l'] H; try done. simpl in *.
  injection H as Ha H. rewrite <- Ha. f_equal. by apply IH.
Qed.

Lemma omap_claimed deliveries : omap cd_claim (claimed deliveries) = omap cd_claim deliveries.
Proof.
  unfold claimed. induction deliveries as [|v l IH]; simpl; [done|].
  destruct (cd_claim v) eqn:E; simpl; [rewrite E; f_equal|]; exact IH.
Qed.

(** A delivery without a claim has no claim at the sequence of its sealed batch. *)
Lemma sealed_observer d root seq r v i c :
  db_reachable d -> claim_batch_receipts d !! (root, seq) = Some r -> cb_sealed r = true ->
  v ∈ delivery_rows d (root, seq) -> wake_claims d !! i = Some c ->
  wa_lookup c = cd_lookup v -> wa_wire_seq c = seq -> is_Some (cd_claim v).
Proof.
  intros Hd Hr Hs Hv Hc Hl Hq. pose proof (reachable_keyed _ Hd) as HK.
  pose proof (HK _ _ declared_batches _ _ Hr) as Hkey. injection Hkey as Hroot Hseq.
  pose proof (cw_sealed _ (reachable_cohort _ Hd) _ _ Hr Hs) as Hseal.
  unfold seal_guard in Hseal. rewrite Hroot, Hseq in Hseal.
  destruct (seal_facts _ _ _ _ Hseal) as (_ & _ & _ & _ & Hobs).
  rewrite Forall_forall in Hobs. specialize (Hobs v Hv). unfold observer_conflict in Hobs.
  destruct (cd_claim v) as [x|]; [by eexists|]. simpl in Hobs. exfalso.
  apply delivery_rows_elem in Hv as [_ Hb]; [|exact (HK _ _ declared_deliveries)]. injection Hb as _ Hvq.
  apply (map_exists_false _ _ _ _ Hobs) in Hc.
  rewrite Hl, Hq, Hvq in Hc. by rewrite bool_decide_eq_true_2, Z.eqb_refl in Hc.
Qed.

(** C15: A sealed acknowledgement is complete and exact in every reachable store: it has
    exactly as many deliveries and claim members as it counts, numbered from zero without
    gaps; the members are the claims of the claimed deliveries in the deliveries' order;
    every member's claim is stored for its recipient and names the acknowledged message; and
    an observer, a delivery without a claim, has no claim at that sequence. *)
Theorem sealed_cohort_complete (d : DB) (root : string) (seq : Z) (r : ClaimBatchAcknowledgements) :
  db_reachable d -> claim_batch_receipts d !! (root, seq) = Some r -> cb_sealed r = true ->
  map cd_ordinal (delivery_rows d (root, seq)) = seqZ 0 (cb_members r) /\
  map bm_ordinal (member_rows d (root, seq)) = seqZ 0 (cb_claims r) /\
  map bm_claim (member_rows d (root, seq)) = omap cd_claim (delivery_rows d (root, seq)) /\
  (forall m, m ∈ member_rows d (root, seq) -> exists c, wake_claims d !! bm_claim m = Some c /\
     wa_lookup c = bm_lookup m /\ wa_source c = mkMessageReference seq (cb_message_id r)) /\
  (forall v i c, v ∈ delivery_rows d (root, seq) -> wake_claims d !! i = Some c ->
     wa_lookup c = cd_lookup v -> wa_wire_seq c = seq -> is_Some (cd_claim v)).
Proof.
  intros Hd Hr Hs. pose proof (reachable_keyed _ Hd) as HK. pose proof (reachable_checked _ Hd) as HC.
  pose proof (reachable_cohort _ Hd) as HI. pose proof (HK _ _ declared_batches _ _ Hr) as Hkey.
  injection Hkey as Hroot Hseq. pose proof (cw_sealed _ HI _ _ Hr Hs) as Hseal.
  unfold seal_guard in Hseal. rewrite Hroot, Hseq in Hseal.
  pose proof (HK _ _ declared_members) as HKm. pose proof (HK _ _ declared_deliveries) as HKv.
  assert (Hdsort : StronglySorted Z.lt (map cd_ordinal (delivery_rows d (root, seq)))).
  { apply select_rows_sorted. intros k v Hv. by rewrite <- (HKv _ _ Hv). }
  assert (Hmsort : StronglySorted Z.lt (map bm_ordinal (member_rows d (root, seq)))).
  { apply select_rows_sorted. intros k m Hm. by rewrite <- (HKm _ _ Hm). }
  assert (Hdpos : Forall (fun v => 0 <= cd_ordinal v) (delivery_rows d (root, seq))).
  { apply Forall_forall. intros v (o & Hv)%elem_of_select_rows.
    pose proof (HC _ _ declared_deliveries _ _ Hv) as Hc. simpl in Hc. unfold delivery_checks in Hc.
    by bools. }
  assert (Hmpos : Forall (fun m => 0 <= bm_ordinal m) (member_rows d (root, seq))).
  { apply Forall_forall. intros m (o & Hm)%elem_of_select_rows.
    pose proof (HC _ _ declared_members _ _ Hm) as Hc. simpl in Hc. unfold member_checks in Hc.
    by bools. }
  destruct (sealed_ordinals _ _ _ _ Hseal Hdsort Hmsort Hdpos Hmpos) as [Hdo Hmo].
  split_and!; [done|done| | |].
  - rewrite <- omap_claimed. apply map_some_omap.
    exact (sealed_members _ _ _ _ Hseal Hdsort Hmsort Hdpos Hmpos).
  - intros m [Hm Hb]%member_rows_elem; [|done]. pose proof (cw_member _ HI _ _ Hm) as Hmc.
    unfold member_claim in Hmc. rewrite Hb, Hr in Hmc. injection Hb as _ Hq.
    destruct (wake_claims d !! bm_claim m) as [c|]; [|done]. bools. exists c.
    split_and!; try done. unfold wa_source. congruence.
  - intros v i c Hv Hc Hl Hq. by eapply sealed_observer.
Qed.
