(* ===== verification/Cohort.v ===== *)
(** * Cohort acceptance

    Models [coordination/cohort.py], the queries of [cohort_schema.py] and the acceptance
    pass of [cohort_foreground.py]: a committed bus original becomes, in one transaction,
    an acknowledgement with one delivery per frozen recipient and one claim per selected
    recipient, sealed when complete; a recipient's acceptance frontier advances over the
    originals it has visited; and the sealed claims of a recipient are read in pages.
    [namespace] is [privacy.namespace], the root a bus belongs to. *)

From stdpp Require Import base gmap strings list sorting pretty.
From Stdlib Require Import ZArith Lia.
From S2P Require Import Prelude Contracts Lifecycle WakePolicy AssignmentStates ResponseStates.
From S2P Require Import AttemptStates ExecutionStates Rows TableGuards Database Session SchemaSteps.
From S2P Require Import Sha256 Delivery CohortRows CohortTables.
From S2P Require Import SchemaInvariants Replay Stepwise AssignmentStore HarnessStore.

Record AcceptedCohort : Type := mkAcceptedCohort {
  ac_root : string;
  ac_seq : Z;
  ac_message_id : string;
  ac_members : Z;
  ac_claims : Z;
  ac_accepted : Z;
  ac_assignments : list WakeAssignment;
}.

(** ** What a delivery's cohort must be *)

(** [_assignment_id], with [AssignmentId.cohort] *)
Definition assignment_id (root : string) (seq : Z) (lookup : string) : string :=
  "cohort-v1:" +:+ Sha256.sha256_hex
    (domain "agent-comms:cohort-claim:v1" +:+ root +:+ ":" +:+ pretty seq +:+ ":" +:+ lookup).

Definition expected_claim (m : Message) (accepted_at_ms : Z) (namespace : string)
    (recipient : FrozenRecipient) (lookup : string) (audience : MessageAudience) (mode : WakePolicy)
    : WakeAssignment :=
  mkWakeAssignment (assignment_id namespace (msg_seq m) lookup) (fr_canonical_thread recipient)
    lookup (msg_seq m) (msg_id m) audience (initial_assignment mode) accepted_at_ms accepted_at_ms 1
    RESOLVER_VERSION POLICY_VERSION.

(** The loop of [_expected_assignments]; [zip(..., strict=True)] raises where one list ends
    before the other.  Constructing a claim checks it. *)
Fixpoint expected_loop (m : Message) (accepted_at_ms : Z) (namespace : string)
    (recipients : list FrozenRecipient) (decisions : list RecipientDecision)
    : outcome (list WakeAssignment) :=
  match recipients, decisions with
  | [], [] => Ok []
  | recipient :: recipients, member :: decisions =>
      _ ← refuse (negb (bool_decide (fr_lookup recipient = decision_recipient member)))
          (IntegrityViolationError "bus decision does not match frozen N");
      match member with
      | NoWakeDecision _ _ => expected_loop m accepted_at_ms namespace recipients decisions
      | WakeDecision lookup audience mode =>
          let claim := expected_claim m accepted_at_ms namespace recipient lookup audience mode in
          _ ← assignment_post_init claim;
          rest ← expected_loop m accepted_at_ms namespace recipients decisions;
          Ok (claim :: rest)
      end
  | _, _ => Err (ValueError "zip() argument 2 has another length than argument 1")
  end.

(** [_expected_assignments] *)
Definition expected_assignments (d : Delivered) (accepted_at_ms : Z) (namespace : string)
    : outcome (list WakeAssignment) :=
  expected_loop (dl_message d) accepted_at_ms namespace (dl_recipients d) (dl_decisions d).

(** The [ClaimBatchMembers] of [enumerate(expected)] *)
Definition expected_members (d : Delivered) (namespace : string) (expected : list WakeAssignment)
    : list ClaimBatchMembers :=
  imap (fun i c => mkClaimBatchMembers namespace (msg_seq (dl_message d)) (Z.of_nat i) (wa_id c)
                     (wa_lookup c)) expected.

(** The [selected] dictionary *)
Definition selected (expected : list WakeAssignment) : gmap string DeliveryClaim :=
  foldl (fun m c => <[wa_lookup c := SelectedClaim (wa_id c)]> m) ∅ expected.

(** The [CohortDeliveries] of [enumerate(initial.recipients)] *)
Definition expected_deliveries (d : Delivered) (namespace : string) (expected : list WakeAssignment)
    : list CohortDeliveries :=
  imap (fun i r => mkCohortDeliveries namespace (msg_seq (dl_message d)) (Z.of_nat i) (fr_lookup r)
                     (fr_canonical_thread r)
                     (default NoDeliveryClaim (selected expected !! fr_lookup r)))
    (dl_recipients d).

(** ** Reading a sealed cohort *)

(** The claims now stored for the expected ones *)
Fixpoint current_claims (expected : list WakeAssignment) (d : DB) : outcome (list WakeAssignment) :=
  match expected with
  | [] => Ok []
  | accepted :: rest =>
      found ← one (Row := WakeAssignment) (wa_id accepted) d;
      actual ← of_option found (IdentityConflict "sealed cohort claim is missing");
      _ ← require_same_acceptance accepted actual;
      claims ← current_claims rest d;
      Ok (actual :: claims)
  end.

(** [WakeAssignment.one(db, recipient_lookup=..., wire_seq=...)] *)
Definition one_claim_at (lookup : string) (seq : Z) (d : DB) : outcome (option WakeAssignment) :=
  match claim_at lookup seq d with
  | None => Ok None
  | Some c => _ ← assignment_post_init c; Ok (Some c)
  end.

(** Some no-wake recipient has a claim. *)
Fixpoint observer_claimed (seq : Z) (pairs : list (FrozenRecipient * RecipientDecision)) (d : DB)
    : outcome bool :=
  match pairs with
  | [] => Ok false
  | (recipient, NoWakeDecision _ _) :: rest =>
      found ← one_claim_at (fr_lookup recipient) seq d;
      match found with Some _ => Ok true | None => observer_claimed seq rest d end
  | _ :: rest => observer_claimed seq rest d
  end.

(** [_claim_record] *)
Definition claim_record (initial : Delivered) (namespace : string) (d : DB) : outcome AcceptedCohort :=
  let seq := msg_seq (dl_message initial) in
  found ← one (Row := ClaimBatchAcknowledgements) (namespace, seq) d;
  row ← of_option found (IdentityConflict "cohort acknowledgement is absent or unsealed");
  _ ← require (cb_sealed row) (IdentityConflict "cohort acknowledgement is absent or unsealed");
  _ ← require_delivery row initial namespace;
  expected ← expected_assignments initial (cb_accepted row) namespace;
  _ ← refuse (negb (bool_decide (member_rows d (namespace, seq)
                                 = expected_members initial namespace expected)))
      (IdentityConflict "sealed K claim members conflict with committed bus");
  _ ← each (fun r => delivery_claim_post_init (cd_claim_id r)) (delivery_rows d (namespace, seq));
  _ ← refuse (negb (bool_decide (delivery_rows d (namespace, seq)
                                 = expected_deliveries initial namespace expected)))
      (IdentityConflict "sealed N delivery rows conflict with committed bus");
  current ← current_claims expected d;
  claimed ← observer_claimed seq (zip (dl_recipients initial) (dl_decisions initial)) d;
  _ ← refuse claimed (IdentityConflict "no-wake observer has a conflicting unbound claim");
  Ok (mkAcceptedCohort namespace seq (msg_id (dl_message initial))
        (Z.of_nat (length (dl_recipients initial))) (Z.of_nat (length expected)) (cb_accepted row)
        current).

(** ** Recording a cohort *)

(** The errors [_record_optional_owner_generations] catches *)
Definition optional_error (e : Error) : bool :=
  match e with
  | SqlAbort _ | SqlConstraint _ | SqlForeignKey | IdentityConflict _ => true
  | _ => false
  end.

(** [SAVEPOINT] with [ROLLBACK TO] on a caught error *)
Definition savepoint (caught : Error -> bool) (body : M unit) : M unit := fun s =>
  match body s with
  | (Ok a, s') => (Ok a, s')
  | (Err e, s') => if caught e then (Ok tt, with_db (db s) s') else (Err e, s')
  end.

(** [_record_optional_owner_generations] *)
Definition record_optional_owner_generations (assignments : list WakeAssignment)
    (wire_root_id : string) (wire_seq : Z) : M unit :=
  savepoint optional_error (for_each (fun c =>
    found ← reading (one (Row := OwnerGenerations) (wa_lookup c));
    current ← lift (of_option found
                      (IdentityConflict "optional claim generation has no current owner"));
    insert (mkAwarenessClaimGenerations (wa_id c) wire_root_id wire_seq (wa_lookup c)
              (og_generation current))) assignments).

Definition at_sequence (seq : Z) (d : DB) : list WakeAssignment :=
  List.filter (fun c => wa_wire_seq c =? seq) (map snd (map_to_list (wake_claims d))).

(** The refusals of [AcceptedCohort.record] before it writes *)
Definition require_unclaimed (initial : Delivered) (d : DB) : outcome unit :=
  let seq := msg_seq (dl_message initial) in
  _ ← each assignment_post_init (at_sequence seq d);
  _ ← require (match at_sequence seq d with [] => true | _ => false end)
      (IdentityConflict "singleton claim cannot be adopted by a cohort");
  _ ← refuse (map_exists (fun r => cb_seq r =? seq) (claim_batch_receipts d))
      (IdentityConflict "wire sequence already belongs to another cohort root");
  each (fun r => require (present (participants d !! fr_lookup r))
                   (IdentityConflict "frozen recipient has no durable participant identity"))
    (dl_recipients initial).

(** Claims and their members are inserted in turn. *)
Definition insert_claims (claims : list (WakeAssignment * ClaimBatchMembers)) : M unit :=
  for_each (fun cm : WakeAssignment * ClaimBatchMembers => _ ← insert cm.1; insert cm.2) claims.

(** The keys of the stored harness attempts on the accepted claims *)
Definition attempt_keys (initial : Delivered) (expected : list WakeAssignment)
    : list (string * MessageReference) :=
  map (fun c => (wa_lookup c, msg_reference (dl_message initial))) expected.

(** [AcceptedCohort.record], inside the caller's acceptance transaction *)
Definition cohort_record (initial : Delivered) (namespace : string) : M (applied AcceptedCohort) :=
  let seq := msg_seq (dl_message initial) in
  existing ← reading (one (Row := ClaimBatchAcknowledgements) (namespace, seq));
  match existing with
  | Some _ =>
      cohort ← reading (claim_record initial namespace);
      mret (AlreadyApplied cohort)
  | None =>
      _ ← reading (require_unclaimed initial);
      accepted_at ← now 0;
      expected ← lift (expected_assignments initial accepted_at namespace);
      acknowledgement ← lift (for_delivery initial namespace accepted_at);
      _ ← insert acknowledgement;
      _ ← insert_claims (zip expected (expected_members initial namespace expected));
      _ ← for_each insert (expected_deliveries initial namespace expected);
      _ ← record_optional_owner_generations expected namespace seq;
      attempts ← reading (fun d => Ok (for_recipients (attempt_keys initial expected) d));
      _ ← for_each settle_claims attempts;
      _ ← update (Row := ClaimBatchAcknowledgements) (namespace, seq) (fun _ => true)
          (fun r => with_sealed r true);
      cohort ← reading (claim_record initial namespace);
      mret (Applied cohort)
  end.

(** ** Pages of sealed claims *)

(** The rows of the JOIN for one claim: its members in sealed batches whose delivery holds
    the claim *)
Definition sealed_memberships (d : DB) (c : WakeAssignment) : list ClaimBatchMembers :=
  List.filter (fun m => bool_decide (bm_claim m = wa_id c)
      && batch_sealed d (bm_root m, bm_seq m)
      && existsb (fun v => bool_decide (cd_claim v = Some (wa_id c))) (delivery_rows d (bm_root m, bm_seq m)))
    (map snd (map_to_list (claim_batch_members d))).

(** [ORDER BY c.wire_seq, c.assignment_id] *)
Definition claim_le (a b : WakeAssignment) : Prop :=
  (if wa_wire_seq a =? wa_wire_seq b then String.leb (wa_id a) (wa_id b)
   else wa_wire_seq a <=? wa_wire_seq b) = true.
#[export] Instance claim_le_dec : RelDecision claim_le.
Proof. intros a b. unfold claim_le. apply _. Defined.

Definition sealed_claims (d : DB) (lookup : string) (after_seq : Z) (capable : AssignmentState -> bool)
    : list WakeAssignment :=
  merge_sort claim_le
    (flat_map (fun c => map (fun _ => c) (sealed_memberships d c))
       (List.filter (fun c => bool_decide (wa_lookup c = lookup) && (after_seq <? wa_wire_seq c)
                              && capable (wa_lifecycle c))
          (map snd (map_to_list (wake_claims d))))).

(** [sealed_cohort_assignments] *)
Definition sealed_cohort_assignments (lookup : string) (after_seq limit : Z)
    (capable : AssignmentState -> bool) (d : DB) : outcome (list WakeAssignment) :=
  _ ← refuse ((after_seq <? 0) || negb ((0 <? limit) && (limit <=? 100)))
      (ValueError "acknowledgement-backed page bounds are invalid");
  let page := take (Z.to_nat limit) (sealed_claims d lookup after_seq capable) in
  _ ← each assignment_post_init page;
  Ok page.

(** [next_sealed_assignment] *)
Definition next_sealed_assignment (lookup : string) (after_seq : Z) (d : DB)
    : outcome (option WakeAssignment) :=
  pending ← sealed_cohort_assignments lookup after_seq 1 pending_selection d;
  Ok (head pending).

(** The [while True] of [pending_sealed_assignments]; [None] is a loop that has not returned
    within [fuel] pages. *)
Fixpoint pending_pages (fuel : nat) (lookup : string) (cursor : Z) (d : DB)
    : option (outcome (list WakeAssignment)) :=
  match fuel with
  | O => None
  | S fuel =>
      match sealed_cohort_assignments lookup cursor 100 pending_selection d with
      | Err e => Some (Err e)
      | Ok page =>
          if Z.of_nat (length page) <? 100 then Some (Ok page)
          else
            match last page with
            | None => Some (Err (ValueError "list index out of range"))
            | Some c => fmap (M := option) (fun rest => more ← rest; Ok (page ++ more))
                          (pending_pages fuel lookup (wa_wire_seq c) d)
            end
      end
  end.

(** ** The acceptance frontier *)

(** [AcceptanceFrontier.scan_after] *)
Definition scan_after (root lookup : string) (d : DB) : outcome Z :=
  row ← of_option (acceptance_frontier d !! (root, lookup)) (RowNotFoundError "acceptance_frontier");
  Ok (af_through row).

(** [AcceptanceFrontier.advance] *)
Definition frontier_advance (self : AcceptanceFrontier) : M unit :=
  current ← reading (scan_after (af_root self) (af_lookup self));
  if current <? af_through self then upsert self else mret tt.

(** [PrivateRegistryGuard.declare_acceptance] *)
Definition declare_acceptance (namespace lookup : string) : M unit :=
  insert_if_absent (mkAcceptanceFrontier namespace lookup 0).

(** [CohortDeliveries.sealed_sequences_after] *)
Definition sealed_sequences_after (root lookup : string) (after_seq limit : Z) (d : DB) : list Z :=
  take (Z.to_nat limit) (merge_sort Z.le
    (map cd_seq (List.filter (fun v => bool_decide (cd_root v = root) && bool_decide (cd_lookup v = lookup)
         && (after_seq <? cd_seq v) && batch_sealed d (cd_root v, cd_seq v))
       (map snd (map_to_list (cohort_delivery_receipts d)))))).

(** ** An acceptance pass *)

(** [AudiencedMessage.includes_lookup] *)
Definition includes_lookup (d : Delivered) (lookup : string) : bool :=
  existsb (fun r => bool_decide (fr_lookup r = lookup)) (dl_recipients d).

(** [BusReader.received] over the committed originals in bus order *)
Definition received (log : list Delivered) (lookup : string) (after limit : Z) : list Delivered :=
  take (Z.to_nat limit) (List.filter (fun d => includes_lookup d lookup && (after <? msg_seq (dl_message d))) log).

(** The recipient rows of an original under this lookup carry the owner's name. *)
Definition addressed_as (d : Delivered) (lookup owner_name : string) : bool :=
  existsb (fun r => bool_decide (fr_lookup r = lookup) && bool_decide (fr_canonical_thread r = owner_name))
    (dl_recipients d).

(** The read phase of [_accept_visible_deliveries]: the originals to accept and how far the
    pass has looked.  [received] only returns originals that name the lookup, so the code's
    check that a recipient row exists never refuses here. *)
Record Visit : Type := mkVisit {
  vi_unaccepted : list Delivered;
  vi_through : Z;
}.

Definition visit (log : list Delivered) (root lookup owner_name : string) (d : DB) : outcome Visit :=
  after_seq ← scan_after root lookup d;
  let sealed := sealed_sequences_after root lookup after_seq frontier_page d in
  let originals := received log lookup after_seq frontier_page in
  Ok (mkVisit (List.filter (fun o => negb (bool_decide (msg_seq (dl_message o) ∈ sealed))
                                     && addressed_as o lookup owner_name) originals)
        (default after_seq (last (map (fun o => msg_seq (dl_message o)) originals)))).

(** The write phase: every unaccepted original and the frontier, in one transaction *)
Definition accept_visit (root lookup : string) (v : Visit) : M unit :=
  writing (
    _ ← for_each (fun o => _ ← cohort_record o root; mret tt) (vi_unaccepted v);
    frontier_advance (mkAcceptanceFrontier root lookup (vi_through v))).

(** The frontiers [CheckRoot._populate] positions after the history it imported *)
Definition position_frontiers (root : string) (lookups : list string) (through : Z) : M unit :=
  writing (for_each (fun lookup => frontier_advance (mkAcceptanceFrontier root lookup through)) lookups).
