(* ===== verification/CohortFacts.v ===== *)
(** * What recording a cohort does

    Correctness of [AcceptedCohort.record]: the rows a recorded cohort has, the durable
    idempotence of acceptance, and what it does with claims a harness had already tried. *)

From stdpp Require Import base gmap strings list sorting.
From Stdlib Require Import ZArith Lia.
From S2P Require Import Prelude Contracts Lifecycle WakePolicy AssignmentStates ResponseStates.
From S2P Require Import AttemptStates ExecutionStates Rows TableGuards Database Session SchemaSteps.
From S2P Require Import Delivery CohortRows CohortTables.
From S2P Require Import SchemaInvariants Replay Stepwise AssignmentStore HarnessStore.
From S2P Require Import CohortSchema Cohort.

(** ** Every operation takes schema steps *)

Lemma stepwise_savepoint caught body : stepwise body -> stepwise (savepoint caught body).
Proof.
  intros Hb s. unfold savepoint. specialize (Hb s). destruct (body s) as [[[]|e] s1]; [done|].
  destruct (caught e); [apply rtc_refl | done].
Qed.

Lemma stepwise_owner_generations claims root seq :
  stepwise (record_optional_owner_generations claims root seq).
Proof. apply stepwise_savepoint. stepwise. Qed.

Lemma stepwise_insert_claims claims : stepwise (insert_claims claims).
Proof. unfold insert_claims. stepwise. Qed.
#[export] Hint Resolve stepwise_owner_generations stepwise_insert_claims : stepwise.

Lemma stepwise_cohort_record initial ns : stepwise (cohort_record initial ns).
Proof. unfold cohort_record. stepwise. Qed.
#[export] Hint Resolve stepwise_cohort_record : stepwise.

Lemma stepwise_frontier_advance f : stepwise (frontier_advance f).
Proof. unfold frontier_advance. stepwise. Qed.
#[export] Hint Resolve stepwise_frontier_advance : stepwise.

Lemma stepwise_accept_visit root lookup v : stepwise (accept_visit root lookup v).
Proof. unfold accept_visit. stepwise. Qed.

Lemma stepwise_declare_acceptance ns lookup : stepwise (declare_acceptance ns lookup).
Proof. unfold declare_acceptance. stepwise. Qed.
#[export] Hint Resolve stepwise_accept_visit stepwise_declare_acceptance : stepwise.

Lemma stepwise_position_frontiers root lookups through : stepwise (position_frontiers root lookups through).
Proof. unfold position_frontiers. stepwise. Qed.

(** ** What reading a sealed cohort checks *)

Record cohort_read (initial : Delivered) (ns : string) (d : DB) (c : AcceptedCohort)
    (row : ClaimBatchAcknowledgements) (expected : list WakeAssignment) : Prop := {
  cr_row : claim_batch_receipts d !! (ns, msg_seq (dl_message initial)) = Some row;
  cr_sealed : cb_sealed row = true;
  cr_delivery : for_delivery initial ns (cb_accepted row) = Ok (with_sealed row false);
  cr_expected : expected_assignments initial (cb_accepted row) ns = Ok expected;
  cr_members : member_rows d (ns, msg_seq (dl_message initial)) = expected_members initial ns expected;
  cr_decodes : each (fun r => delivery_claim_post_init (cd_claim_id r))
                 (delivery_rows d (ns, msg_seq (dl_message initial))) = Ok tt;
  cr_deliveries : delivery_rows d (ns, msg_seq (dl_message initial))
                  = expected_deliveries initial ns expected;
  cr_current : current_claims expected d = Ok (ac_assignments c);
  cr_observers : observer_claimed (msg_seq (dl_message initial))
                   (zip (dl_recipients initial) (dl_decisions initial)) d = Ok false;
  cr_cohort : c = mkAcceptedCohort ns (msg_seq (dl_message initial)) (msg_id (dl_message initial))
                    (Z.of_nat (length (dl_recipients initial))) (Z.of_nat (length expected))
                    (cb_accepted row) (ac_assignments c);
}.

Lemma claim_record_ok initial ns d c :
  claim_record initial ns d = Ok c <-> exists row expected, cohort_read initial ns d c row expected.
Proof.
  unfold claim_record. split.
  - intros H. ok_inv. bools.
    match goal with Ho : one _ _ = Ok _ |- _ => apply one_ok in Ho as [Ho _] end. simpl in *.
    match goal with Hq : require_delivery _ _ _ = Ok _ |- _ => unfold require_delivery in Hq end.
    ok_inv. bools. repeat match goal with u : unit |- _ => destruct u end.
    do 2 eexists. split; try done; try congruence. by apply each_ok.
  - intros (row & expected & [H1 H2 H3 H4 H5 H6 H7 H8 H9 H10]).
    apply bind_ok_inv. exists (Some row). split; [by apply one_ok|].
    apply bind_ok_inv. exists row. split; [done|].
    apply bind_ok_inv. exists tt. split; [by rewrite H2|].
    apply bind_ok_inv. exists tt. split.
    { apply bind_ok_inv. eexists. split; [exact H3|]. apply refuse_ok, negb_false_iff.
      by apply bool_decide_eq_true. }
    apply bind_ok_inv. exists expected. split; [done|].
    apply bind_ok_inv. exists tt. split; [by apply refuse_ok, negb_false_iff, bool_decide_eq_true|].
    apply bind_ok_inv. exists tt. split; [done|].
    apply bind_ok_inv. exists tt. split; [by apply refuse_ok, negb_false_iff, bool_decide_eq_true|].
    apply bind_ok_inv. eexists. split; [exact H8|].
    apply bind_ok_inv. eexists. split; [exact H9|].
    apply bind_ok_inv. exists tt. split; [done|]. by rewrite H10 at 2.
Qed.

(** ** Stability *)

Lemma same_acceptance_sym a b : require_same_acceptance a b = Ok tt -> require_same_acceptance b a = Ok tt.
Proof.
  rewrite !require_same_acceptance_ok. intros [Ha Hm]. split; [|done].
  destruct a, b; unfold wa_progress in *; simpl in *. congruence.
Qed.

Lemma same_acceptance_fields a b :
  require_same_acceptance a b = Ok tt ->
  wa_id b = wa_id a /\ wa_lookup b = wa_lookup a /\ wa_recipient b = wa_recipient a /\
  wa_source b = wa_source a /\ wa_audience b = wa_audience a /\
  assignment_mode (wa_lifecycle b) = assignment_mode (wa_lifecycle a).
Proof.
  intros [Ha Hm]%require_same_acceptance_ok. unfold wa_source.
  destruct a, b; unfold wa_progress in *; simpl in *. by injection Ha as <- <- <- <- <- <-.
Qed.

Lemma expected_loop_decodes m t ns rs ds claims :
  expected_loop m t ns rs ds = Ok claims -> Forall (fun c => assignment_post_init c = Ok tt) claims.
Proof.
  revert ds claims. induction rs as [|r rs IH]; intros [|[l x|l a w] ds] claims H; simpl in H; try done.
  - injection H as <-. constructor.
  - apply bind_ok_inv in H as (u & _ & H). by eapply IH.
  - apply bind_ok_inv in H as (u & _ & H). apply bind_ok_inv in H as ([] & Hp & H).
    apply bind_ok_inv in H as (rest & Hr & [= <-]). constructor; [done|]. by eapply IH.
Qed.

(** The expected claims are the woken members' in order, with the delivery's identity. *)
Lemma expected_loop_claims m t ns rs ds claims :
  expected_loop m t ns rs ds = Ok claims ->
  length rs = length ds /\
  claims = omap (fun rd : FrozenRecipient * RecipientDecision =>
    match rd.2 with
    | NoWakeDecision _ _ => None
    | WakeDecision l a w => Some (expected_claim m t ns rd.1 l a w)
    end) (zip rs ds) /\
  Forall (fun rd : FrozenRecipient * RecipientDecision => fr_lookup rd.1 = decision_recipient rd.2) (zip rs ds).
Proof.
  revert ds claims. induction rs as [|r rs IH]; intros [|dec ds] claims H; simpl in H; try done.
  - injection H as <-. split_and!; [done|done|constructor].
  - apply bind_ok_inv in H as ([] & Heq & H). apply refuse_ok in Heq. bools.
    destruct dec as [l x|l a w].
    + destruct (IH _ _ H) as (Hlen & -> & Hall). simpl. split_and!; [by f_equal|done|by constructor].
    + apply bind_ok_inv in H as ([] & _ & H). apply bind_ok_inv in H as (rest & Hr & [= <-]).
      destruct (IH _ _ Hr) as (Hlen & -> & Hall). simpl. split_and!; [by f_equal|done|by constructor].
Qed.

(** The time of acceptance does not change whom a delivery claims. *)
Lemma expected_lookups_at initial t t' ns expected expected' :
  expected_assignments initial t ns = Ok expected -> expected_assignments initial t' ns = Ok expected' ->
  map wa_lookup expected = map wa_lookup expected'.
Proof.
  intros (_ & -> & _)%expected_loop_claims (_ & -> & _)%expected_loop_claims.
  induction (zip (dl_recipients initial) (dl_decisions initial)) as [|[r [l x|l a w]] pairs IH];
    simpl; [done|exact IH|]. f_equal. exact IH.
Qed.

Lemma expected_claim_seq initial t ns expected c :
  expected_assignments initial t ns = Ok expected -> c ∈ expected ->
  wa_wire_seq c = msg_seq (dl_message initial).
Proof.
  intros (_ & -> & _)%expected_loop_claims Hc.
  apply list_elem_of_omap in Hc as ([r [l x|l a w]] & _ & Hc); simpl in Hc; [done|].
  by injection Hc as <-.
Qed.

(** Every claim an expected claim was accepted as is stored, with the same acceptance. *)
Lemma current_claims_ok expected d current :
  current_claims expected d = Ok current <->
  Forall2 (fun a c => wake_claims d !! wa_id a = Some c /\ assignment_post_init c = Ok tt /\
                      require_same_acceptance a c = Ok tt) expected current.
Proof.
  revert current. induction expected as [|a rest IH]; intros current; simpl.
  - split; [intros [= <-]; constructor | by inversion 1].
  - split.
    + intros H. apply bind_ok_inv in H as (found & [Hf Hp]%one_ok & H).
      apply bind_ok_inv in H as (actual & Ha & H). apply of_option_ok in Ha as ->.
      apply bind_ok_inv in H as ([] & Hsame & H). apply bind_ok_inv in H as (more & Hm & [= <-]).
      constructor; [done|]. by apply IH.
    + inversion 1 as [|? c ? more (Hc & Hp & Hsame) Hmore]; subst.
      apply bind_ok_inv. exists (Some c). split; [by apply one_ok|]. simpl.
      apply bind_ok_inv. exists tt. split; [done|].
      apply bind_ok_inv. exists more. split; [by apply IH|done].
Qed.

Lemma current_claims_kept expected d d' current :
  db_reachable d' -> rtc db_step d d' -> Forall (fun c => assignment_post_init c = Ok tt) expected ->
  current_claims expected d = Ok current -> exists later, current_claims expected d' = Ok later.
Proof.
  intros Hd' Hsteps Hdec. rewrite current_claims_ok. intros Hcur.
  cut (exists later, Forall2 (fun a c => wake_claims d' !! wa_id a = Some c /\
         assignment_post_init c = Ok tt /\ require_same_acceptance a c = Ok tt) expected later).
  { intros [later Hlater]. exists later. by apply current_claims_ok. }
  induction Hcur as [|a c expected current (Hc & _ & Hsame) _ IH]; [by exists []|].
  apply Forall_cons in Hdec as [Ha Hdec]. destruct (IH Hdec) as [later Hlater].
  destruct (acceptance_kept _ _ _ _ a Hsteps Hc (same_acceptance_sym _ _ Hsame)) as (c' & Hc' & Hsame').
  exists (c' :: later). constructor; [|done]. split_and!; [done| |by apply same_acceptance_sym].
  apply same_acceptance_sym, same_acceptance_fields in Hsame' as (Hi & Hl & _ & Hs & _).
  injection Hs as _ Hm. unfold assignment_post_init in Ha. rewrite !bind_ok_unit in Ha.
  destruct Ha as (Hids & _). apply each_ok in Hids. rewrite !Forall_cons in Hids. destruct_and!.
  simpl in *. eapply stored_claim_decodes; [done|done| | |]; rewrite ?Hi, ?Hl, ?Hm; by eapply require_identifier_ok.
Qed.

(** ** Observers *)

Lemma observer_claimed_false seq pairs d :
  observer_claimed seq pairs d = Ok false <->
  forall r l x, (r, NoWakeDecision l x) ∈ pairs -> claim_at (fr_lookup r) seq d = None.
Proof.
  induction pairs as [|[r dec] rest IH]; simpl.
  - split; [|done]. intros _ r l x H. by apply elem_of_nil in H.
  - destruct dec as [l x|l a w].
    + unfold one_claim_at. destruct (claim_at (fr_lookup r) seq d) as [c|] eqn:E; simpl.
      * split.
        -- destruct (assignment_post_init c); done.
        -- intros H. specialize (H r l x (list_elem_of_here _ _)). congruence.
      * rewrite IH. split; intros H r' l' x' Hin.
        -- apply elem_of_cons in Hin as [[= -> -> ->]|Hin]; [done|]. by eapply H.
        -- apply (H r' l' x'). by right.
    + rewrite IH. split; intros H r' l' x' Hin.
      * apply elem_of_cons in Hin as [[=]|Hin]. by eapply H.
      * apply (H r' l' x'). by right.
Qed.

Lemma selected_step (m : gmap string DeliveryClaim) expected l x :
  foldl (fun m c => <[wa_lookup c := SelectedClaim (wa_id c)]> m) m expected !! l = Some x ->
  m !! l = Some x \/ exists c, c ∈ expected /\ wa_lookup c = l /\ x = SelectedClaim (wa_id c).
Proof.
  revert m. induction expected as [|c expected IH]; intros m H; simpl in H; [by left|].
  apply IH in H as [H|(c' & Hc' & Hl & Hx)].
  - apply lookup_insert_Some in H as [[<- <-]|[_ H]]; [|by left].
    right. exists c. split_and!; [left|done|done].
  - right. exists c'. split_and!; [by right|done|done].
Qed.

Lemma selected_claim expected l x :
  selected expected !! l = Some x -> exists c, c ∈ expected /\ wa_lookup c = l /\ x = SelectedClaim (wa_id c).
Proof. intros H. destruct (selected_step ∅ expected l x H) as [H'|H']; [by rewrite lookup_empty in H' | exact H']. Qed.

(** A recipient's delivery row *)
Lemma expected_delivery_at initial ns expected j r :
  dl_recipients initial !! j = Some r ->
  expected_deliveries initial ns expected !! j =
    Some (mkCohortDeliveries ns (msg_seq (dl_message initial)) (Z.of_nat j) (fr_lookup r)
            (fr_canonical_thread r) (default NoDeliveryClaim (selected expected !! fr_lookup r))).
Proof. intros Hr. unfold expected_deliveries. rewrite list_lookup_imap, Hr. done. Qed.

(** ** The record of a sealed cohort never changes *)

Section kept.
Context (initial : Delivered) (ns : string) (d d' : DB).
Hypotheses (Hd : db_reachable d) (Hsteps : rtc db_step d d').

Lemma observers_kept c row expected :
  cohort_read initial ns d c row expected ->
  observer_claimed (msg_seq (dl_message initial))
    (zip (dl_recipients initial) (dl_decisions initial)) d' = Ok false.
Proof.
  intros [H1 H2 H3 H4 H5 H6 H7 H8 H9 H10]. rewrite observer_claimed_false in *.
  intros r l x Hin. specialize (H9 r l x Hin).
  destruct (claim_at (fr_lookup r) (msg_seq (dl_message initial)) d') as [c'|] eqn:E; [|done]. exfalso.
  apply claim_at_ok in E as (i & Hi & Hl & Hs).
  destruct (sealed_batch_kept _ _ _ _ Hd Hsteps H1 H2) as (Hrow & _ & Hdel).
  assert (Hr : r ∈ dl_recipients initial).
  { apply list_elem_of_In in Hin. apply in_combine_l in Hin. by apply list_elem_of_In. }
  apply list_elem_of_lookup in Hr as [j Hj].
  pose proof (expected_delivery_at initial ns expected j r Hj) as Hv.
  pose proof (sealed_observer d' ns (msg_seq (dl_message initial)) row _ i c' (reachable_steps _ _ Hd Hsteps) Hrow H2
    (list_elem_of_lookup_2 _ _ _ (eq_trans (f_equal (.!! j) (eq_trans Hdel H7)) Hv)) Hi Hl Hs) as Hobs.
  destruct (selected expected !! fr_lookup r) as [x0|] eqn:Es; [|by destruct Hobs].
  apply selected_claim in Es as (a & Ha & Hal & _).
  apply current_claims_ok in H8. apply list_elem_of_lookup in Ha as [k Hk].
  destruct (Forall2_lookup_l _ _ _ _ _ H8 Hk) as (a' & _ & Ha' & _ & Hsame).
  apply same_acceptance_fields in Hsame as (_ & Hla & _ & Hsa & _).
  apply (claim_at_none _ _ _ _ _ H9 Ha'). rewrite Hla, Hal. f_equal.
  injection Hsa as Hsa _. rewrite Hsa.
  eapply expected_claim_seq; [exact H4|]. by eapply list_elem_of_lookup_2.
Qed.
End kept.

(** What a sealed cohort reads as in every later store *)
Lemma claim_record_kept initial ns d d' c :
  db_reachable d -> rtc db_step d d' -> claim_record initial ns d = Ok c ->
  exists later, claim_record initial ns d' = Ok later /\
    later = mkAcceptedCohort (ac_root c) (ac_seq c) (ac_message_id c) (ac_members c) (ac_claims c)
              (ac_accepted c) (ac_assignments later) /\
    map wa_id (ac_assignments later) = map wa_id (ac_assignments c).
Proof.
  intros Hd Hsteps (row & expected & Hread)%claim_record_ok.
  pose proof (observers_kept _ _ _ _ Hd Hsteps _ _ _ Hread) as Hobs.
  destruct Hread as [H1 H2 H3 H4 H5 H6 H7 H8 H9 H10].
  pose proof (reachable_steps _ _ Hd Hsteps) as Hd'.
  destruct (sealed_batch_kept _ _ _ _ Hd Hsteps H1 H2) as (Hrow & Hmem & Hdel).
  destruct (current_claims_kept expected d d' _ Hd' Hsteps (expected_loop_decodes _ _ _ _ _ _ H4) H8)
    as [later Hlater].
  exists (mkAcceptedCohort ns (msg_seq (dl_message initial)) (msg_id (dl_message initial))
            (Z.of_nat (length (dl_recipients initial))) (Z.of_nat (length expected))
            (cb_accepted row) later).
  split_and!; [| by rewrite H10 |].
  - apply claim_record_ok. exists row, expected. split; simpl; try done; congruence.
  - simpl. apply current_claims_ok in H8, Hlater. revert H8 Hlater. generalize (ac_assignments c).
    clear. intros current H8. revert later. induction H8 as [|a c0 es cs (_ & _ & Hs) _ IH];
      intros later Hlater; inversion Hlater as [|? c1 ? cs' (_ & _ & Hs') Hrest]; subst; [done|].
    simpl. apply same_acceptance_fields in Hs as [-> _], Hs' as [-> _]. f_equal. by apply IH.
Qed.

Lemma cohort_record_reads initial ns s r s' :
  cohort_record initial ns s = (Ok r, s') -> claim_record initial ns (db s') = Ok (applied_value r).
Proof.
  unfold cohort_record. intros H. apply bindM_ok in H as ([row|] & s1 & [_ ->]%reading_ok & H).
  - by apply bindM_ok in H as (c & s2 & [Hc ->]%reading_ok & [-> ->]%ret_ok).
  - do 11 (apply bindM_ok in H as (? & ? & _ & H)).
    by apply bindM_ok in H as (c & s2 & [Hc ->]%reading_ok & [-> ->]%ret_ok).
Qed.

(** Accepting a committed original is durably idempotent: once its cohort was recorded,
    recording it again in any later store, whatever was written in between, changes nothing
    and answers the same cohort as already applied, with the same claims as they now stand. *)
Theorem cohort_record_durably_idempotent (initial : Delivered) (ns : string) (s s' later : Session)
    (r : applied AcceptedCohort) :
  db_reachable (db s) -> cohort_record initial ns s = (Ok r, s') ->
  rtc db_step (db s') (db later) ->
  exists c, cohort_record initial ns later = (Ok (AlreadyApplied c), later) /\
    c = mkAcceptedCohort (ac_root (applied_value r)) (ac_seq (applied_value r))
          (ac_message_id (applied_value r)) (ac_members (applied_value r))
          (ac_claims (applied_value r)) (ac_accepted (applied_value r)) (ac_assignments c) /\
    map wa_id (ac_assignments c) = map wa_id (ac_assignments (applied_value r)).
Proof.
  intros Hd H Hsteps. pose proof (stepwise_cohort_record initial ns s) as Hs. rewrite H in Hs.
  pose proof (reachable_steps _ _ Hd Hs) as Hd'.
  pose proof (cohort_record_reads _ _ _ _ _ H) as Hread.
  destruct (claim_record_kept _ _ _ _ _ Hd' Hsteps Hread) as (c & Hc & Heq & Hids).
  exists c. split_and!; [|done|done].
  apply claim_record_ok in Hc as Hc'. destruct Hc' as (row & expected & [H1 _ _ _ _ _ _ _ _ _]).
  unfold cohort_record. apply bindM_ok. exists (Some row), later.
  split; [by apply reading_ok; split; [apply one_ok|]|].
  apply bindM_ok. exists c, later. split; [by apply reading_ok|done].
Qed.

(** ** Who is claimed *)

Lemma selected_unique expected c :
  NoDup (map wa_lookup expected) -> c ∈ expected ->
  selected expected !! wa_lookup c = Some (SelectedClaim (wa_id c)).
Proof.
  unfold selected. generalize (∅ : gmap string DeliveryClaim) as m.
  induction expected as [|a expected IH]; intros m Hn Hc; [by apply elem_of_nil in Hc|].
  simpl in *. apply NoDup_cons in Hn as [Ha Hn]. apply elem_of_cons in Hc as [->|Hc]; [|by apply IH].
  clear IH. assert (Hkeep : forall l (m0 : gmap string DeliveryClaim),
    wa_lookup a ∉ map wa_lookup l ->
    foldl (fun m c => <[wa_lookup c := SelectedClaim (wa_id c)]> m) m0 l !! wa_lookup a
    = m0 !! wa_lookup a).
  { induction l as [|b l IH]; intros m0 Hb; simpl in *; [done|].
    apply not_elem_of_cons in Hb as [Hb Hl]. rewrite IH by done. by rewrite lookup_insert_ne. }
  rewrite Hkeep by done. by rewrite lookup_insert_eq.
Qed.

Section audience.
Context (m : Message) (t : Z) (ns : string).

(** The claim of one member, if it is woken *)
Let claim_for (rd : FrozenRecipient * RecipientDecision) : option WakeAssignment :=
  match rd.2 with
  | NoWakeDecision _ _ => None
  | WakeDecision l a w => Some (expected_claim m t ns rd.1 l a w)
  end.

Lemma expected_lookups rs ds :
  Forall (fun rd : FrozenRecipient * RecipientDecision => fr_lookup rd.1 = decision_recipient rd.2) (zip rs ds) ->
  NoDup (map fr_lookup rs) -> NoDup (map wa_lookup (omap claim_for (zip rs ds))).
Proof.
  revert ds. induction rs as [|r rs IH]; intros [|dec ds] Hall Hn; simpl in *; try constructor.
  apply Forall_cons in Hall as [Hd Hall]. apply NoDup_cons in Hn as [Hr Hn].
  destruct dec as [l x|l a w]; simpl in *; [by apply IH|]. constructor; [|by apply IH].
  intros (c & Heq & Hc)%list_elem_of_fmap. apply list_elem_of_omap in Hc as ([r' d'] & Hin & Hc).
  apply Hr. rewrite Forall_forall in Hall. specialize (Hall _ Hin). simpl in *.
  apply list_elem_of_fmap. exists r'. split.
  - destruct d'; simpl in *; [done|]. injection Hc as <-. simpl in *. congruence.
  - apply list_elem_of_In in Hin. apply in_combine_l in Hin. by apply list_elem_of_In.
Qed.

(** A recipient is selected exactly when its own decision wakes it. *)
Lemma selected_member rs ds j r dec :
  Forall (fun rd : FrozenRecipient * RecipientDecision => fr_lookup rd.1 = decision_recipient rd.2) (zip rs ds) ->
  NoDup (map fr_lookup rs) -> rs !! j = Some r -> ds !! j = Some dec ->
  selected (omap claim_for (zip rs ds)) !! fr_lookup r =
    match claim_for (r, dec) with Some c => Some (SelectedClaim (wa_id c)) | None => None end.
Proof.
  intros Hall Hn Hr Hdec.
  assert (Hin : (r, dec) ∈ zip rs ds).
  { apply list_elem_of_lookup. exists j. by rewrite lookup_zip_with, Hr, Hdec. }
  pose proof (proj1 (Forall_forall _ _) Hall _ Hin) as Hl. simpl in Hl.
  destruct dec as [l x|l a w].
  - unfold claim_for at 2. simpl.
    destruct (selected _ !! fr_lookup r) as [x0|] eqn:E; [|done]. exfalso.
    apply selected_claim in E as (c & Hc & Hcl & _).
    apply list_elem_of_omap in Hc as ([r' d'] & Hin' & Hc).
    pose proof (proj1 (Forall_forall _ _) Hall _ Hin') as Hl'. simpl in Hl'.
    destruct d' as [|l' a' w']; simpl in Hc; [done|]. injection Hc as <-. simpl in Hcl, Hl'.
    apply list_elem_of_lookup in Hin' as [j' Hj']. rewrite lookup_zip_with in Hj'.
    destruct (rs !! j') as [r0|] eqn:Er; [|done]. destruct (ds !! j') as [d0|] eqn:Ed; [|done].
    injection Hj' as -> ->.
    assert (j = j') as <-; [|congruence].
    eapply NoDup_lookup; [exact Hn| |]; rewrite list_lookup_fmap; [by rewrite Hr|].
    rewrite Er. simpl. congruence.
  - simpl in Hl. subst l. apply (selected_unique _ (expected_claim m t ns r (fr_lookup r) a w)).
    + by apply expected_lookups.
    + apply list_elem_of_omap. by exists (r, WakeDecision (fr_lookup r) a w).
Qed.
End audience.

(** C16: Recording a committed delivery covers its whole frozen audience: each recipient has
    its delivery row under its frozen name; a recipient with a wake decision has one claim
    on the message at that sequence, with the decided audience and policy, and the row names
    it; a recipient without one has neither a claim in the row nor a claim at the sequence. *)
Theorem recorded_cohort_covers_audience (initial : Delivered) (ns : string) (s s' : Session)
    (r : applied AcceptedCohort) (j : nat) (recipient : FrozenRecipient) (decision : RecipientDecision) :
  db_reachable (db s) -> delivery_post_init initial = Ok tt ->
  cohort_record initial ns s = (Ok r, s') ->
  dl_recipients initial !! j = Some recipient -> dl_decisions initial !! j = Some decision ->
  exists v, cohort_delivery_receipts (db s') !! (ns, msg_seq (dl_message initial), Z.of_nat j) = Some v /\
    cd_lookup v = fr_lookup recipient /\ cd_thread v = fr_canonical_thread recipient /\
    match decision with
    | NoWakeDecision _ _ => cd_claim v = None /\
        claim_at (fr_lookup recipient) (msg_seq (dl_message initial)) (db s') = None
    | WakeDecision _ audience mode => exists c,
        claim_at (fr_lookup recipient) (msg_seq (dl_message initial)) (db s') = Some c /\
        cd_claim v = Some (wa_id c) /\ wa_recipient c = fr_canonical_thread recipient /\
        wa_source c = msg_reference (dl_message initial) /\ wa_audience c = audience /\
        assignment_mode (wa_lifecycle c) = mode
    end.
Proof.
  intros Hd Hpost H Hr Hdec. pose proof (delivery_post_init_wf _ Hpost) as Hwf.
  pose proof (stepwise_cohort_record initial ns s) as Hs. rewrite H in Hs.
  pose proof (reachable_steps _ _ Hd Hs) as Hd'.
  apply cohort_record_reads, claim_record_ok in H as (row & expected & [H1 H2 H3 H4 H5 H6 H7 H8 H9 H10]).
  apply expected_loop_claims in H4 as Hloop. destruct Hloop as (_ & Hexp & Hall).
  pose proof (selected_member (dl_message initial) (cb_accepted row) ns _ _ j recipient decision Hall
    (dw_lookups _ Hwf) Hr Hdec) as Hsel. rewrite <- Hexp in Hsel.
  pose proof (expected_delivery_at initial ns expected j recipient Hr) as Hv. rewrite <- H7 in Hv.
  apply list_elem_of_lookup_2, delivery_rows_elem in Hv as [Hv _];
    [|by apply (reachable_keyed _ Hd' _ _ declared_deliveries)].
  eexists. split; [exact Hv|]. simpl. split_and!; [done|done|]. unfold cd_claim. simpl. rewrite Hsel.
  assert (Hin : (recipient, decision) ∈ zip (dl_recipients initial) (dl_decisions initial)).
  { apply list_elem_of_lookup. exists j. by rewrite lookup_zip_with, Hr, Hdec. }
  destruct decision as [l x|l a w]; simpl.
  - split; [done|]. rewrite observer_claimed_false in H9. by eapply H9.
  - assert (Hl : fr_lookup recipient = l) by exact (proj1 (Forall_forall _ _) Hall _ Hin).
    assert (Hc : expected_claim (dl_message initial) (cb_accepted row) ns recipient l a w ∈ expected).
    { rewrite Hexp. apply list_elem_of_omap. eexists. split; [exact Hin|done]. }
    apply current_claims_ok in H8. apply list_elem_of_lookup in Hc as [k Hk].
    destruct (Forall2_lookup_l _ _ _ _ _ H8 Hk) as (c & _ & Hc & _ & Hsame).
    apply same_acceptance_fields in Hsame as (Hid & Hcl & Hrec & Hsrc & Haud & Hmode). simpl in *.
    exists c. split_and!; try done; [|congruence|rewrite Hmode; by destruct w].
    replace (fr_lookup recipient) with (wa_lookup c) by congruence.
    injection Hsrc as Hseq _. rewrite <- Hseq. by apply (claim_at_found _ _ _ Hd' Hc).
Qed.

(** ** Attempts made before acceptance *)

Lemma settle_keeps_left self w s u s' :
  db_reachable (db s) -> settle_claims self s = (Ok u, s') ->
  claims_left (db s) w (hd_reference self) -> claims_left (db s') w (hd_reference self).
Proof.
  intros Hd H Hleft. destruct (decide (hd_lookup self = w)) as [<-|Hne].
  - by apply settle_claims_ok in H as [? _].
  - intros i c Hc Hw Hseq. apply (Hleft i c); [|done|done].
    eapply settle_claims_frame; [exact Hd|exact H|exact Hc|]. congruence.
Qed.

Lemma settle_loop_left attempts ref s u s' :
  db_reachable (db s) -> Forall (fun a => hd_reference a = ref) attempts ->
  for_each settle_claims attempts s = (Ok u, s') ->
  forall w, (w ∈ map hd_lookup attempts \/ claims_left (db s) w ref) -> claims_left (db s') w ref.
Proof.
  intros Hd Hall. revert s Hd. induction attempts as [|a attempts IH]; intros s Hd H w Hw; simpl in H.
  - apply ret_ok in H as [_ ->]. destruct Hw as [Hw|Hw]; [by apply elem_of_nil in Hw | done].
  - apply Forall_cons in Hall as [Href Hall]. apply bindM_ok in H as (u1 & s1 & H1 & H).
    assert (Hd1 : db_reachable (db s1)).
    { eapply reachable_steps; [exact Hd|]. pose proof (stepwise_settle_claims a s) as Hs. by rewrite H1 in Hs. }
    apply (IH Hall s1 Hd1 H w). destruct Hw as [Hw|Hw].
    + simpl in Hw. apply elem_of_cons in Hw as [->|Hw]; [|by left].
      right. apply settle_claims_ok in H1 as [? _]; [|done]. by rewrite <- Href.
    + right. subst ref. exact (settle_keeps_left _ _ _ _ _ Hd H1 Hw).
Qed.

Lemma elem_of_for_recipients keys d a :
  a ∈ for_recipients keys d <->
  (exists k, harness_deliveries d !! k = Some a) /\ (hd_lookup a, hd_reference a) ∈ keys.
Proof.
  unfold for_recipients. rewrite (merge_sort_Permutation attempt_le).
  rewrite list_elem_of_In, List.filter_In, <- list_elem_of_In, bool_decide_eq_true.
  rewrite list_elem_of_fmap. split; intros [H1 H2]; split; try done.
  - destruct H1 as ([k x] & -> & Hx%elem_of_map_to_list). eauto.
  - destruct H1 as [k Hk]. exists (k, a). split; [done|]. by apply elem_of_map_to_list.
Qed.

Lemma preserves_savepoint {X : Type} (part : DB -> X) caught body :
  preserves part body -> preserves part (savepoint caught body).
Proof.
  intros Hb s. unfold savepoint. specialize (Hb s). destruct (body s) as [[[]|e] s1]; [done|].
  by destruct (caught e).
Qed.

(** The writes of a first recording, around the settlement of earlier attempts *)
Lemma record_applied_steps initial ns s c s' :
  cohort_record initial ns s = (Ok (Applied c), s') ->
  exists t expected u mid settled, expected_assignments initial t ns = Ok expected /\
    rtc db_step (db s) (db mid) /\ harness_deliveries (db mid) = harness_deliveries (db s) /\
    for_each settle_claims (for_recipients (attempt_keys initial expected) (db mid)) mid = (Ok u, settled) /\
    wake_claims (db s') = wake_claims (db settled).
Proof.
  unfold cohort_record. intros H. apply bindM_ok in H as ([row'|] & s1 & [_ ->]%reading_ok & H).
  { by apply bindM_ok in H as (? & ? & _ & [[=] _]%ret_ok). }
  apply bindM_ok in H as (u0 & s1 & [_ ->]%reading_ok & H).
  apply bindM_ok in H as (t & s2 & Hnow & H). apply bindM_ok in H as (expected & s3 & [Hexp ->]%lift_ok & H).
  apply bindM_ok in H as (ack & s3 & [_ ->]%lift_ok & H). apply bindM_ok in H as (u1 & s4 & Hins & H).
  apply bindM_ok in H as (u2 & s5 & Hclaims & H). apply bindM_ok in H as (u3 & s6 & Hdel & H).
  apply bindM_ok in H as (u4 & s7 & Hgen & H).
  apply bindM_ok in H as (attempts & s8 & [[= <-] ->]%reading_ok & H).
  apply bindM_ok in H as (u5 & s9 & Hsettle & H). apply bindM_ok in H as (n & s10 & Hseal & H).
  apply bindM_ok in H as (c' & s11 & [_ ->]%reading_ok & [_ ->]%ret_ok).
  apply now_ok in Hnow as (_ & _ & Hdb & _).
  exists t, expected, u5, s7, s9. rewrite <- Hdb. split_and!; [done| | |done|].
  - pose proof (stepwise_insert _ _ ack declared_batches s2) as S1. rewrite Hins in S1.
    pose proof (stepwise_insert_claims (zip expected (expected_members initial ns expected)) s4) as S2.
    rewrite Hclaims in S2.
    assert (S3 : stepwise (for_each insert (expected_deliveries initial ns expected))) by stepwise.
    specialize (S3 s5). rewrite Hdel in S3.
    pose proof (stepwise_owner_generations expected ns (msg_seq (dl_message initial)) s6) as S4.
    rewrite Hgen in S4. simpl in *. do 3 (etrans; [eassumption|]). done.
  - apply preserves_ok with (part := harness_deliveries) in Hins; [|preserves].
    apply preserves_ok with (part := harness_deliveries) in Hclaims; [|unfold insert_claims; preserves].
    apply preserves_ok with (part := harness_deliveries) in Hdel; [|preserves].
    apply preserves_ok with (part := harness_deliveries) in Hgen;
      [|apply preserves_savepoint; preserves]. congruence.
  - apply preserves_ok with (part := wake_claims) in Hseal; [done|preserves].
Qed.

(** An attempt a harness made before acceptance keeps its effect: when the cohort is
    recorded, every stored attempt on one of its claims takes that claim out of the native
    queue in the same transaction, so a message a bridge may already have shown is never
    selected for a new native execution. *)
Theorem acceptance_honours_earlier_attempts (initial : Delivered) (ns : string) (s s' : Session)
    (c : AcceptedCohort) (k : string * string * string) (a : HarnessDelivery) :
  db_reachable (db s) -> cohort_record initial ns s = (Ok (Applied c), s') ->
  harness_deliveries (db s) !! k = Some a -> hd_reference a = msg_reference (dl_message initial) ->
  hd_lookup a ∈ map wa_lookup (ac_assignments c) ->
  claims_left (db s') (hd_lookup a) (hd_reference a).
Proof.
  intros Hd H Ha Href Hin. pose proof (cohort_record_reads _ _ _ _ _ H) as Hread.
  apply claim_record_ok in Hread as (row & expected0 & [_ _ _ Hexp0 _ _ _ Hcur _ _]).
  apply record_applied_steps in H as (t & expected & u & mid & settled & Hexp & Hsteps & Hharness & Hsettle & Hclaims).
  pose proof (reachable_steps _ _ Hd Hsteps) as Hd7. unfold claims_left. rewrite Hclaims, Href.
  refine (settle_loop_left _ _ _ _ _ Hd7 _ Hsettle (hd_lookup a) _).
  - apply Forall_forall. intros x [_ Hx]%elem_of_for_recipients.
    unfold attempt_keys in Hx. apply list_elem_of_fmap in Hx as (y & Hy & _).
    exact (f_equal snd Hy).
  - left. apply list_elem_of_fmap. exists a. split; [done|]. apply elem_of_for_recipients.
    split; [rewrite Hharness; by eauto|]. unfold attempt_keys. rewrite Href.
    apply list_elem_of_fmap in Hin as (x & Hxl & Hx).
    apply list_elem_of_lookup in Hx as [j Hj].
    apply current_claims_ok in Hcur. destruct (Forall2_lookup_r _ _ _ _ _ Hcur Hj) as (y & Hy & _ & _ & Hsame).
    apply same_acceptance_fields in Hsame as (_ & Hl & _).
    pose proof (expected_lookups_at _ _ _ _ _ _ Hexp0 Hexp) as Hsamel.
    apply list_elem_of_fmap. assert (Hyl : wa_lookup y ∈ map wa_lookup expected).
    { rewrite <- Hsamel. apply list_elem_of_fmap. exists y. split; [done|]. by eapply list_elem_of_lookup_2. }
    apply list_elem_of_fmap in Hyl as (z & Hz & Hzin). exists z. split; [congruence|done].
Qed.
