(* ===== verification/CohortPages.v ===== *)
(** * Reading sealed claims in pages

    [pending_sealed_assignments] of [coordination/cohort.py] reads the acknowledged
    pending work of a recipient a hundred rows at a time, restarting after the last wire
    sequence it has seen.  A recipient has one claim at a sequence, so no row is lost or
    repeated at a page boundary, and the loop returns. *)

From stdpp Require Import base gmap strings list sorting.
From Stdlib Require Import ZArith Lia.
From S2P Require Import Prelude Contracts Lifecycle WakePolicy AssignmentStates ResponseStates.
From S2P Require Import AttemptStates ExecutionStates Rows TableGuards Database Session SchemaSteps.
From S2P Require Import CohortRows CohortTables SchemaInvariants Cohort CohortSchema.

(** ** One membership per claim *)

Definition distinct_rows {K A : Type} `{Countable K} (conflict : A -> A -> bool) (m : gmap K A) : Prop :=
  forall i j a b, m !! i = Some a -> m !! j = Some b -> conflict a b = true -> i = j.

Lemma distinct_write {K A : Type} `{Countable K} (conflict : A -> A -> bool) (m : gmap K A) k new :
  (forall a b, conflict a b = conflict b a) -> distinct_rows conflict m ->
  map_exists (conflict new) (delete k m) = false -> distinct_rows conflict (<[k := new]> m).
Proof.
  intros Hsym Hm Hnone i j a b Hi Hj Hab.
  assert (Hother : forall l c, k <> l -> m !! l = Some c -> conflict new c = false).
  { intros l c Hne Hc. apply (map_exists_false _ _ l c) in Hnone; [done|]. by rewrite lookup_delete_ne. }
  apply lookup_insert_Some in Hi as [[<- <-]|[Hni Hi]];
    apply lookup_insert_Some in Hj as [[<- <-]|[Hnj Hj]]; try done.
  - by rewrite (Hother _ _ Hnj Hj) in Hab.
  - rewrite Hsym, (Hother _ _ Hni Hi) in Hab. done.
  - by eapply Hm.
Qed.

Lemma member_conflict_sym (a b : ClaimBatchMembers) : conflicts a b = conflicts b a.
Proof.
  simpl. f_equal; [f_equal|]; apply bool_decide_ext; split; congruence.
Qed.

Definition members_distinct (d : DB) : Prop :=
  distinct_rows (conflicts (Row := ClaimBatchMembers)) (claim_batch_members d).

Lemma reachable_members_distinct d : db_reachable d -> members_distinct d.
Proof.
  apply reachable_invariant; [intros i j a b Hi; simpl in Hi; by simplify_map_eq|].
  intros d1 d2 HI Hstep. each_write Hstep; try exact HI.
  apply distinct_write; [exact member_conflict_sym|exact HI|]. by rewrite delete_id.
Qed.

Lemma one_membership d c : db_reachable d -> (length (sealed_memberships d c) <= 1)%nat.
Proof.
  intros Hd. pose proof (reachable_members_distinct d Hd) as Hdist.
  unfold sealed_memberships.
  match goal with |- (length (List.filter ?p _) <= 1)%nat => set (P := p) end.
  assert (Hclaim : forall m, P m = true -> bm_claim m = wa_id c) by (intros m Hm; subst P; simpl in Hm; by bools).
  clearbody P.
  assert (Hdist' : forall k k' m m', (k, m) ∈ map_to_list (claim_batch_members d) ->
    (k', m') ∈ map_to_list (claim_batch_members d) -> P m = true -> P m' = true -> k = k').
  { intros k k' m m' Hm Hm' HP HP'. apply elem_of_map_to_list in Hm, Hm'.
    apply (Hdist k k' m m' Hm Hm'). simpl. rewrite !orb_true_iff, !bool_decide_eq_true.
    left. right. rewrite (Hclaim _ HP), (Hclaim _ HP'). done. }
  pose proof (NoDup_fst_map_to_list (claim_batch_members d)) as Hkeys. revert Hdist' Hkeys.
  generalize (map_to_list (claim_batch_members d)) as l. intros l Hdist' Hkeys.
  induction l as [|[k m] l IH]; simpl; [lia|]. simpl in Hkeys. apply NoDup_cons in Hkeys as [Hk Hkeys].
  destruct (P m) eqn:HPm; [|apply IH; [|done]; intros; eapply Hdist'; try (by right); done].
  simpl. enough (List.filter P (map snd l) = []) as -> by (simpl; lia).
  apply length_zero_iff_nil. destruct (List.filter P (map snd l)) as [|m' rest] eqn:E; [done|].
  exfalso. assert (Hin : In m' (m' :: rest)) by (by left). rewrite <- E in Hin.
  apply List.filter_In in Hin as [Hin HP']. apply list_elem_of_In, list_elem_of_fmap in Hin as ([k' m0] & -> & Hin).
  apply Hk. rewrite (Hdist' k k' m m0) ; [|left|by right|done|done].
  apply list_elem_of_fmap. by exists (k', m0).
Qed.

(** ** The whole selection *)

Lemma flat_map_once {A B : Type} (f : A -> list B) (l : list A) :
  (forall a, (length (f a) <= 1)%nat) ->
  flat_map (fun a => map (fun _ => a) (f a)) l
  = List.filter (fun a => match f a with [] => false | _ => true end) l.
Proof.
  intros Hf. induction l as [|a l IH]; simpl; [done|]. specialize (Hf a).
  destruct (f a) as [|b [|b' rest]]; simpl in *; [exact IH|by f_equal|lia].
Qed.

(** [c] is in a sealed batch, with the delivery that holds its claim. *)
Definition sealed_claim (d : DB) (c : WakeAssignment) : bool :=
  match sealed_memberships d c with [] => false | _ => true end.

Definition selects (d : DB) (lookup : string) (after : Z) (capable : AssignmentState -> bool)
    (c : WakeAssignment) : Prop :=
  (exists i, wake_claims d !! i = Some c) /\ wa_lookup c = lookup /\ after < wa_wire_seq c /\
  capable (wa_lifecycle c) = true /\ sealed_claim d c = true.

Definition seq_lt (a b : WakeAssignment) : Prop := wa_wire_seq a < wa_wire_seq b.

#[export] Instance seq_lt_antisymm : AntiSymm (=) seq_lt.
Proof. intros a b Hab Hba. unfold seq_lt in *. lia. Qed.

Lemma string_leb_trans a b c : String.leb a b = true -> String.leb b c = true -> String.leb a c = true.
Proof. rewrite <- !Is_true_true. apply (transitivity (R := String.le)). Qed.

Lemma claim_le_trans : Transitive claim_le.
Proof.
  intros a b c. unfold claim_le.
  destruct (Z.eqb_spec (wa_wire_seq a) (wa_wire_seq b)) as [H1|H1],
    (Z.eqb_spec (wa_wire_seq b) (wa_wire_seq c)) as [H2|H2],
    (Z.eqb_spec (wa_wire_seq a) (wa_wire_seq c)) as [H3|H3]; rewrite ?Z.leb_le; intros; try lia.
  by eapply string_leb_trans.
Qed.

Lemma claim_le_total : Total claim_le.
Proof.
  intros a b. unfold claim_le. rewrite (Z.eqb_sym (wa_wire_seq b)).
  destruct (Z.eqb_spec (wa_wire_seq a) (wa_wire_seq b)) as [H1|H1]; [apply String.leb_total|].
  rewrite !Z.leb_le. lia.
Qed.

Lemma sorted_filter {A : Type} (R : A -> A -> Prop) (p : A -> bool) l :
  StronglySorted R l -> StronglySorted R (List.filter p l).
Proof.
  induction 1 as [|a l Hs IH Ha]; simpl; [constructor|]. destruct (p a); [|done].
  constructor; [done|]. rewrite Forall_forall in *. intros x Hx. apply Ha.
  apply list_elem_of_In in Hx. apply List.filter_In in Hx as [Hx _]. by apply list_elem_of_In.
Qed.

Section selection.
Context (d : DB) (Hd : db_reachable d) (lookup : string) (capable : AssignmentState -> bool).

Lemma sealed_claims_permutation after :
  sealed_claims d lookup after capable ≡ₚ
  List.filter (sealed_claim d)
    (List.filter (fun c => bool_decide (wa_lookup c = lookup) && (after <? wa_wire_seq c)
                           && capable (wa_lifecycle c)) (map snd (map_to_list (wake_claims d)))).
Proof.
  unfold sealed_claims. rewrite (merge_sort_Permutation claim_le).
  rewrite flat_map_once by (intros c; by apply one_membership). done.
Qed.

Lemma elem_of_sealed_claims after c :
  c ∈ sealed_claims d lookup after capable <-> selects d lookup after capable c.
Proof.
  rewrite sealed_claims_permutation. rewrite !list_elem_of_In, !List.filter_In, <- list_elem_of_In.
  rewrite list_elem_of_fmap, !andb_true_iff, bool_decide_eq_true, Z.ltb_lt. unfold selects. split.
  - intros [[([k x] & -> & Hx%elem_of_map_to_list) [[? ?] ?]] ?]. split_and!; eauto.
  - intros ([i Hi] & ? & ? & ? & ?). split_and!; try done. exists (i, c). split; [done|].
    by apply elem_of_map_to_list.
Qed.

Lemma NoDup_list_filter {A : Type} (p : A -> bool) (l : list A) : NoDup l -> NoDup (List.filter p l).
Proof. intros Hn. apply NoDup_ListNoDup in Hn. by apply NoDup_ListNoDup, List.NoDup_filter. Qed.

Lemma sealed_claims_NoDup after : NoDup (sealed_claims d lookup after capable).
Proof.
  rewrite sealed_claims_permutation. do 2 apply NoDup_list_filter.
  apply (NoDup_fmap_1 wa_id). rewrite <- list_fmap_compose.
  pose proof (NoDup_fst_map_to_list (wake_claims d)) as Hk.
  replace ((wa_id ∘ snd) <$> map_to_list (wake_claims d)) with (map_to_list (wake_claims d)).*1; [done|].
  apply list_fmap_ext. intros j [i c] Hj. simpl.
  apply list_elem_of_lookup_2, elem_of_map_to_list in Hj.
  by pose proof (reachable_keyed _ Hd _ _ declared_claims _ _ Hj).
Qed.

(** Rows come in strictly increasing wire sequence: a recipient has one claim at each. *)
Lemma sealed_claims_sorted after : StronglySorted seq_lt (sealed_claims d lookup after capable).
Proof.
  pose proof (sealed_claims_NoDup after) as Hn.
  assert (Hel : Forall (selects d lookup after capable) (sealed_claims d lookup after capable)).
  { apply Forall_forall. intros c Hc. by apply elem_of_sealed_claims. }
  assert (Hs : StronglySorted claim_le (sealed_claims d lookup after capable)).
  { unfold sealed_claims. apply StronglySorted_merge_sort.
    - apply claim_le_trans.
    - apply claim_le_total. }
  induction Hs as [|c l Hs IH Hc]; [constructor|].
  apply NoDup_cons in Hn as [Hnotin Hn]. apply Forall_cons in Hel as [Hcs Hel].
  constructor; [by apply IH|]. rewrite Forall_forall in *. intros c' Hc'.
  specialize (Hc c' Hc'). specialize (Hel c' Hc'). unfold seq_lt.
  destruct Hcs as ([i Hi] & Hl & _), Hel as ([j Hj] & Hl' & _).
  unfold claim_le in Hc. destruct (Z.eqb_spec (wa_wire_seq c) (wa_wire_seq c')) as [Heq|Hne];
    [|apply Z.leb_le in Hc; lia].
  exfalso. apply Hnotin. rewrite (reachable_claims_unique _ Hd i j c c' Hi Hj) in Hi by congruence.
  congruence.
Qed.

(** Restarting after a seen sequence drops exactly the rows up to it. *)
Lemma sealed_claims_after after after' :
  after <= after' ->
  sealed_claims d lookup after' capable =
  List.filter (fun c => after' <? wa_wire_seq c) (sealed_claims d lookup after capable).
Proof.
  intros Hle. apply (StronglySorted_unique seq_lt).
  - apply sealed_claims_sorted.
  - apply sorted_filter, sealed_claims_sorted.
  - apply NoDup_Permutation; [apply sealed_claims_NoDup|apply NoDup_list_filter, sealed_claims_NoDup|].
    intros c. rewrite elem_of_sealed_claims, list_elem_of_In, List.filter_In, <- list_elem_of_In.
    rewrite elem_of_sealed_claims, Z.ltb_lt. unfold selects. split.
    + intros (? & ? & ? & ? & ?). split_and!; try done. lia.
    + intros ((? & ? & ? & ? & ?) & ?). by split_and!.
Qed.
End selection.

(** In a list sorted by a number, the elements after the [n]-th are those of a later one. *)
Lemma sorted_drop_by {A : Type} (f : A -> Z) (l : list A) n c :
  StronglySorted (fun a b => f a < f b) l -> last (take n l) = Some c ->
  List.filter (fun x => f c <? f x) l = drop n l.
Proof.
  intros Hs. revert n. induction Hs as [|a l Hs IH Ha]; intros n Hlast; [by destruct n|].
  destruct n as [|n]; [done|]. simpl in *. rewrite Forall_forall in Ha.
  destruct (take n l) as [|b rest] eqn:E.
  - injection Hlast as <-. rewrite Z.ltb_irrefl.
    assert (Hdrop : drop n l = l).
    { destruct n; [done|]. by destruct l. }
    rewrite Hdrop. clear -Ha. induction l as [|x l IH]; simpl; [done|].
    rewrite (proj2 (Z.ltb_lt _ _)) by (apply Ha; left). f_equal. apply IH. intros y Hy. apply Ha. by right.
  - assert (Hc : c ∈ l).
    { rewrite <- (take_drop n l), E. apply elem_of_app. left. by apply last_Some_elem_of. }
    specialize (Ha c Hc). rewrite (proj2 (Z.ltb_ge _ _)) by lia.
    apply (IH n). by rewrite E.
Qed.

Lemma each_app {A : Type} (f : A -> outcome unit) (xs ys : list A) :
  each f (xs ++ ys) = (_ ← each f xs; each f ys).
Proof.
  induction xs as [|x xs IH]; simpl; [by destruct (each f ys)|].
  destruct (f x) as [u|e]; simpl; [exact IH|done].
Qed.

Lemma sealed_claims_bound d lookup after capable :
  db_reachable d -> (length (sealed_claims d lookup after capable) <= size (wake_claims d))%nat.
Proof.
  intros Hd. rewrite (Permutation_length (sealed_claims_permutation d Hd lookup capable after)).
  etransitivity; [apply List.filter_length_le|]. etransitivity; [apply List.filter_length_le|].
  by rewrite length_map, length_map_to_list.
Qed.

Lemma page_read (lookup : string) (after limit : Z) (capable : AssignmentState -> bool) (d : DB) :
  0 <= after -> 0 < limit <= 100 ->
  sealed_cohort_assignments lookup after limit capable d =
  (_ ← each assignment_post_init (take (Z.to_nat limit) (sealed_claims d lookup after capable));
   Ok (take (Z.to_nat limit) (sealed_claims d lookup after capable))).
Proof.
  intros Hafter Hlimit. unfold sealed_cohort_assignments.
  rewrite (proj2 (Z.ltb_ge _ _) Hafter), (proj2 (Z.ltb_lt _ _) (proj1 Hlimit)),
    (proj2 (Z.leb_le _ _) (proj2 Hlimit)). done.
Qed.

(** A recipient's pending work read at once *)
Definition pending_read (d : DB) (lookup : string) (after : Z) : outcome (list WakeAssignment) :=
  let pending := sealed_claims d lookup after pending_selection in
  _ ← each assignment_post_init pending; Ok pending.

Lemma pages_read d lookup :
  db_reachable d -> forall fuel after, 0 <= after ->
  (length (sealed_claims d lookup after pending_selection) < fuel * 100)%nat ->
  pending_pages fuel lookup after d = Some (pending_read d lookup after).
Proof.
  intros Hd fuel. induction fuel as [|fuel IH]; intros after Hafter Hlen; [lia|].
  cbn [pending_pages]. rewrite page_read by lia. unfold pending_read.
  change (Z.to_nat 100) with 100%nat.
  set (all := sealed_claims d lookup after pending_selection) in *.
  assert (Hall : each assignment_post_init all =
    (_ ← each assignment_post_init (take 100 all); each assignment_post_init (drop 100 all))).
  { rewrite <- each_app. by rewrite take_drop. }
  rewrite Hall.
  destruct (each assignment_post_init (take 100 all)) as [[]|e] eqn:Epage; [|done]. simpl.
  destruct (Z.ltb_spec (Z.of_nat (length (take 100 all))) 100) as [Hshort|Hfull].
  - rewrite length_take in Hshort.
    rewrite drop_ge, take_ge by lia. done.
  - rewrite length_take in Hfull.
    destruct (last (take 100 all)) as [c|] eqn:Elast.
    2:{ apply last_None in Elast. apply (f_equal length) in Elast. rewrite length_take in Elast.
        cbn [length] in Elast. lia. }
    assert (Hc : selects d lookup after pending_selection c).
    { apply elem_of_sealed_claims; [done|]. apply last_Some_elem_of in Elast. fold all.
      rewrite <- (take_drop 100 all). apply elem_of_app. by left. }
    destruct Hc as (_ & _ & Hseq & _).
    assert (Hrest : sealed_claims d lookup (wa_wire_seq c) pending_selection = drop 100 all).
    { rewrite (sealed_claims_after d Hd lookup pending_selection after) by lia.
      apply (sorted_drop_by wa_wire_seq); [by apply sealed_claims_sorted|done]. }
    rewrite IH; [|lia|rewrite Hrest, length_drop; lia].
    unfold pending_read. rewrite Hrest. simpl.
    destruct (each assignment_post_init (drop 100 all)) as [[]|e]; simpl; [|done].
    by rewrite take_drop.
Qed.

(** C37: The paged read of a recipient's acknowledged pending work returns: with more pages
    of fuel than the stored claims fill, it yields the whole selection at once, or the error
    of its first undecodable claim; the selection is strictly ascending in wire sequence and
    holds exactly the recipient's pending claims after the cursor that a sealed batch
    carries. *)
Theorem pending_pages_return_all (d : DB) (lookup : string) (after : Z) (fuel : nat) :
  db_reachable d -> 0 <= after -> (size (wake_claims d) < fuel * 100)%nat ->
  pending_pages fuel lookup after d = Some (pending_read d lookup after) /\
  StronglySorted seq_lt (sealed_claims d lookup after pending_selection) /\
  (forall c, c ∈ sealed_claims d lookup after pending_selection <->
             selects d lookup after pending_selection c).
Proof.
  intros Hd Hafter Hfuel. split_and!.
  - apply pages_read; [done|done|].
    pose proof (sealed_claims_bound d lookup after pending_selection Hd). lia.
  - by apply sealed_claims_sorted.
  - intros c. by apply elem_of_sealed_claims.
Qed.

