(* ===== verification/Acceptance.v ===== *)
(** * The acceptance frontier is safe

    An acceptance pass of [cohort_foreground.py] reads the bus and the store first, and only
    later writes, in one transaction, the cohorts it found and how far it looked.  Between the
    two phases the bus may commit more originals, other passes may write, the recipient may be
    renamed, an imported history may position frontiers, and every other component may change
    the rest of the store.  This file runs that whole system as a step relation
    and shows that the frontier of a recipient never passes an original that names it whose
    cohort is not sealed, unless the pass ran under another name than the one the original was
    frozen with, or an import positioned the frontier there; and that consecutive passes catch up with the bus. *)

From stdpp Require Import base gmap strings list sorting.
From Stdlib Require Import ZArith Lia.
From S2P Require Import Prelude Contracts Lifecycle WakePolicy AssignmentStates ResponseStates.
From S2P Require Import AttemptStates ExecutionStates Rows Delivery TableGuards Database Session SchemaSteps.
From S2P Require Import CohortRows CohortTables SchemaInvariants Stepwise.
From S2P Require Import AssignmentStore HarnessStore Cohort CohortSchema CohortFacts CohortPages.

(** ** The system *)

Abbreviation seq_of o := (msg_seq (dl_message o)).

Definition last_seq (log : list Delivered) : Z := default 0 (last (map (fun o => seq_of o) log)).

(** What the read phase of one pass took with it *)
Record PassRead : Type := mkPassRead {
  pr_root : string;
  pr_lookup : string;
  pr_name : string;    (* the name the recipient was registered under *)
  pr_after : Z;        (* the frontier it read *)
  pr_visit : Visit;
}.

(** The bus, the store, the passes between their phases, and two records of what happened: the
    passes that wrote, and the frontiers that were positioned after an import *)
Record AcceptanceWorld : Type := mkAcceptanceWorld {
  aw_log : list Delivered;
  aw_db : DB;
  aw_reads : list PassRead;
  aw_passes : list PassRead;
  aw_imports : list (string * string * Z);
}.

(** A recipient may be renamed at any time, so each pass has the name of its moment.  Frontiers
    are written by declarations, by passes and by imports of a history; everything else may
    change the rest of the store. *)
Inductive acceptance_step : AcceptanceWorld -> AcceptanceWorld -> Prop :=
| bus_commits log d rs ps im o :
    0 < seq_of o -> Forall (fun x => seq_of x < seq_of o) log ->
    acceptance_step (mkAcceptanceWorld log d rs ps im) (mkAcceptanceWorld (log ++ [o]) d rs ps im)
| participant_declared log s rs ps im root lookup r s' :
    writing (declare_acceptance root lookup) s = (r, s') ->
    acceptance_step (mkAcceptanceWorld log (db s) rs ps im) (mkAcceptanceWorld log (db s') rs ps im)
| pass_reads log d rs ps im root lookup name after v :
    scan_after root lookup d = Ok after -> visit log root lookup name d = Ok v ->
    acceptance_step (mkAcceptanceWorld log d rs ps im)
      (mkAcceptanceWorld log d (mkPassRead root lookup name after v :: rs) ps im)
| pass_writes log s rs ps im p s' :
    p ∈ rs -> accept_visit (pr_root p) (pr_lookup p) (pr_visit p) s = (Ok tt, s') ->
    acceptance_step (mkAcceptanceWorld log (db s) rs ps im) (mkAcceptanceWorld log (db s') rs (p :: ps) im)
| pass_fails log s rs ps im p e s' :
    p ∈ rs -> accept_visit (pr_root p) (pr_lookup p) (pr_visit p) s = (Err e, s') ->
    acceptance_step (mkAcceptanceWorld log (db s) rs ps im) (mkAcceptanceWorld log (db s') rs ps im)
| history_positioned log s rs ps im root lookups through s' :
    through <= last_seq log -> position_frontiers root lookups through s = (Ok tt, s') ->
    acceptance_step (mkAcceptanceWorld log (db s) rs ps im)
      (mkAcceptanceWorld log (db s') rs ps (map (fun lookup => (root, lookup, through)) lookups ++ im))
| store_writes log d d' rs ps im :
    rtc db_step d d' -> acceptance_frontier d' = acceptance_frontier d ->
    acceptance_step (mkAcceptanceWorld log d rs ps im) (mkAcceptanceWorld log d' rs ps im).

Definition acceptance_initial : AcceptanceWorld := mkAcceptanceWorld [] empty_db [] [] [].

Definition acceptance_reachable (w : AcceptanceWorld) : Prop := rtc acceptance_step acceptance_initial w.

(** ** The invariant *)

Definition due (log : list Delivered) (lookup : string) (through : Z) (o : Delivered) : Prop :=
  o ∈ log /\ includes_lookup o lookup = true /\ seq_of o <= through.

(** A pass that wrote had the original on its page and was not addressed by it under its name. *)
Definition renamed_past (ps : list PassRead) (root lookup : string) (o : Delivered) : Prop :=
  exists p, p ∈ ps /\ pr_root p = root /\ pr_lookup p = lookup /\
    pr_after p < seq_of o <= vi_through (pr_visit p) /\ addressed_as o lookup (pr_name p) = false.

Definition imported_past (im : list (string * string * Z)) (root lookup : string) (o : Delivered) : Prop :=
  exists through, (root, lookup, through) ∈ im /\ seq_of o <= through.

Definition settled_for (w : AcceptanceWorld) (root lookup : string) (o : Delivered) : Prop :=
  batch_sealed (aw_db w) (root, seq_of o) = true \/ renamed_past (aw_passes w) root lookup o \/
  imported_past (aw_imports w) root lookup o.

Record acceptance_inv (w : AcceptanceWorld) : Prop := {
  wi_db : db_reachable (aw_db w);
  wi_log : StronglySorted (fun a b => seq_of a < seq_of b) (aw_log w);
  wi_positive : Forall (fun o => 0 < seq_of o) (aw_log w);
  wi_frontier : forall root lookup f, acceptance_frontier (aw_db w) !! (root, lookup) = Some f ->
    af_through f <= last_seq (aw_log w) /\
    forall o, due (aw_log w) lookup (af_through f) o -> settled_for w root lookup o;
  wi_reads : forall p, p ∈ aw_reads w ->
    vi_through (pr_visit p) <= last_seq (aw_log w) /\
    forall o, due (aw_log w) (pr_lookup p) (vi_through (pr_visit p)) o ->
      settled_for w (pr_root p) (pr_lookup p) o \/ o ∈ vi_unaccepted (pr_visit p) \/
      (pr_after p < seq_of o /\ addressed_as o (pr_lookup p) (pr_name p) = false);
}.

Lemma batch_sealed_kept d d' b :
  db_reachable d -> rtc db_step d d' -> batch_sealed d b = true -> batch_sealed d' b = true.
Proof.
  intros Hd Hs Hb. unfold batch_sealed in *.
  destruct (claim_batch_receipts d !! b) as [r|] eqn:Er; [|done].
  destruct (sealed_batch_kept d d' b r Hd Hs Er Hb) as (-> & _). done.
Qed.

(** What was settled stays so when the store moves on and more is recorded. *)
Lemma settled_later log d d' rs rs' ps ps' im im' log' root lookup o :
  db_reachable d -> rtc db_step d d' -> ps ⊆ ps' -> im ⊆ im' ->
  settled_for (mkAcceptanceWorld log d rs ps im) root lookup o ->
  settled_for (mkAcceptanceWorld log' d' rs' ps' im') root lookup o.
Proof.
  intros Hd Hs Hps His [H|[(p & Hp & H)|(t & Ht & H)]]; simpl in *.
  - left. by eapply batch_sealed_kept.
  - right. left. exists p. split; [by apply Hps|done].
  - right. right. exists t. split; [by apply His|done].
Qed.

(** *** The bus *)

Lemma last_seq_app log o : last_seq (log ++ [o]) = seq_of o.
Proof. unfold last_seq. rewrite map_app, last_app. done. Qed.

Lemma last_seq_le log o :
  0 < seq_of o -> Forall (fun x => seq_of x < seq_of o) log -> last_seq log < seq_of o.
Proof.
  intros Hpos Hall. unfold last_seq. destruct (last (map _ log)) as [n|] eqn:E; [|done]. simpl.
  apply last_Some_elem_of, list_elem_of_fmap in E as (x & -> & Hx). rewrite Forall_forall in Hall. by apply Hall.
Qed.

Lemma last_seq_max log x :
  StronglySorted (fun a b => seq_of a < seq_of b) log -> x ∈ log -> seq_of x <= last_seq log.
Proof.
  intros Hs Hx. destruct log as [|y log] using rev_ind; [by apply not_elem_of_nil in Hx|].
  rewrite last_seq_app. apply elem_of_app in Hx as [Hx|Hx].
  - pose proof (StronglySorted_app_1_elem_of _ _ _ x y Hs Hx ltac:(by left)). simpl in *. lia.
  - apply list_elem_of_singleton in Hx. subst. done.
Qed.

Lemma due_app log o lookup through x :
  through < seq_of o -> due (log ++ [o]) lookup through x -> due log lookup through x.
Proof.
  intros Hlt (Hx & Ha & Hle). split_and!; try done.
  apply elem_of_app in Hx as [Hx|Hx]; [done|]. apply list_elem_of_singleton in Hx. subst x. lia.
Qed.

Lemma commits_kept log d rs ps im o :
  acceptance_inv (mkAcceptanceWorld log d rs ps im) -> 0 < seq_of o -> Forall (fun x => seq_of x < seq_of o) log ->
  acceptance_inv (mkAcceptanceWorld (log ++ [o]) d rs ps im).
Proof.
  intros [Hd Hlog Hp Hf Hv] Hpos Hall. simpl in *. pose proof (last_seq_le log o Hpos Hall) as Hlast.
  split; simpl; [done| |apply Forall_app; by repeat constructor| |].
  - apply StronglySorted_app_2; [|done|repeat constructor].
    intros x y Hx Hy. apply list_elem_of_singleton in Hy. subst y. rewrite Forall_forall in Hall. by apply Hall.
  - intros root lookup f Hrow. destruct (Hf root lookup f Hrow) as [Hle Hcov]. rewrite last_seq_app.
    split; [lia|]. intros x Hx. apply Hcov. eapply due_app; [|done]. lia.
  - intros p Hin. destruct (Hv p Hin) as [Hle Hcov]. rewrite last_seq_app.
    split; [lia|]. intros x Hx. apply Hcov. eapply due_app; [|done]. lia.
Qed.

(** *** Writes *)

(** Whatever is written, what is known of passes between their phases stays. *)
Lemma reads_later log d d' rs ps ps' im im' :
  acceptance_inv (mkAcceptanceWorld log d rs ps im) -> rtc db_step d d' -> ps ⊆ ps' -> im ⊆ im' ->
  (forall root lookup f, acceptance_frontier d' !! (root, lookup) = Some f ->
     acceptance_frontier d !! (root, lookup) = Some f \/
     (af_through f <= last_seq log /\ forall o, due log lookup (af_through f) o ->
        settled_for (mkAcceptanceWorld log d' rs ps' im') root lookup o)) ->
  acceptance_inv (mkAcceptanceWorld log d' rs ps' im').
Proof.
  intros [Hd Hlog Hp Hf Hv] Hs Hps Him Hnew. simpl in *. split; simpl; [by eapply reachable_steps|done|done| |].
  - intros root lookup f Hrow. destruct (Hnew root lookup f Hrow) as [Hold|?]; [|done].
    destruct (Hf root lookup f Hold) as [Hle Hcov]. split; [done|]. intros o Ho. eapply settled_later; eauto.
  - intros p Hin. destruct (Hv p Hin) as [Hle Hcov].
    split; [done|]. intros o Ho. destruct (Hcov o Ho) as [Hb|Hu]; [left|by right]. eapply settled_later; eauto.
Qed.

Lemma writes_kept log d d' rs ps im ps' im' :
  acceptance_inv (mkAcceptanceWorld log d rs ps im) -> rtc db_step d d' -> ps ⊆ ps' -> im ⊆ im' ->
  acceptance_frontier d' = acceptance_frontier d -> acceptance_inv (mkAcceptanceWorld log d' rs ps' im').
Proof. intros HI Hs Hps Him Hsame. eapply reads_later; eauto. intros root lookup f Hrow. left. by rewrite <- Hsame. Qed.

(** *** The read phase *)

Lemma elem_of_take_all {A : Type} (l : list A) n x : x ∈ take n l -> x ∈ l.
Proof. intros Hx. rewrite <- (take_drop n l). apply elem_of_app. by left. Qed.

Lemma sealed_sequence root lookup after limit d n :
  n ∈ sealed_sequences_after root lookup after limit d -> batch_sealed d (root, n) = true.
Proof.
  unfold sealed_sequences_after. intros Hn. apply elem_of_take_all in Hn.
  rewrite merge_sort_Permutation in Hn. apply list_elem_of_In, in_map_iff in Hn as (v & <- & Hv).
  apply List.filter_In in Hv as [_ Hv]. bools. by subst root.
Qed.

(** The addressed originals after a sequence, oldest first *)
Definition remaining (log : list Delivered) (lookup : string) (after : Z) : list Delivered :=
  List.filter (fun d => includes_lookup d lookup && (after <? seq_of d)) log.

Lemma addressed_included o lookup name : addressed_as o lookup name = true -> includes_lookup o lookup = true.
Proof.
  unfold addressed_as, includes_lookup. rewrite !existsb_exists. intros (r & Hr & Hb). bools.
  exists r. split; [done|]. by apply bool_decide_eq_true.
Qed.

Lemma remaining_sorted log lookup after :
  StronglySorted (fun a b => seq_of a < seq_of b) log ->
  StronglySorted (fun a b => seq_of a < seq_of b) (remaining log lookup after).
Proof. apply sorted_filter. Qed.

Lemma elem_of_remaining log lookup after o :
  o ∈ remaining log lookup after <-> o ∈ log /\ includes_lookup o lookup = true /\ after < seq_of o.
Proof.
  unfold remaining. rewrite !list_elem_of_In, List.filter_In, andb_true_iff, Z.ltb_lt. done.
Qed.

(** A page ends at a sequence no addressed original before it is missing from. *)
Lemma page_closed (l : list Delivered) n o x :
  StronglySorted (fun a b => seq_of a < seq_of b) l -> last (take n l) = Some x ->
  o ∈ l -> seq_of o <= seq_of x -> o ∈ take n l.
Proof.
  intros Hs Hlast Ho Hle. rewrite <- (take_drop n l) in Ho, Hs. apply elem_of_app in Ho as [Ho|Ho]; [done|].
  apply last_Some_elem_of in Hlast.
  pose proof (StronglySorted_app_1_elem_of _ _ _ x o Hs Hlast Ho). simpl in *. lia.
Qed.

Lemma visit_ok log root lookup name d v :
  visit log root lookup name d = Ok v ->
  exists f, acceptance_frontier d !! (root, lookup) = Some f /\
    vi_through v = default (af_through f) (last (map (fun o => seq_of o)
                     (take (Z.to_nat frontier_page) (remaining log lookup (af_through f))))) /\
    (forall o, o ∈ take (Z.to_nat frontier_page) (remaining log lookup (af_through f)) ->
       batch_sealed d (root, seq_of o) = true \/ o ∈ vi_unaccepted v \/ addressed_as o lookup name = false).
Proof.
  unfold visit, scan_after. intros H. apply bind_ok_inv in H as (n & Hn & H).
  apply bind_ok_inv in Hn as (f & Hf & [= <-]). apply of_option_ok in Hf. injection H as <-.
  exists f. split_and!; [done|done|]. intros o Ho. cbn [vi_unaccepted].
  destruct (decide (seq_of o ∈ sealed_sequences_after root lookup (af_through f) frontier_page d)) as [Hin|Hnot].
  - left. by eapply sealed_sequence.
  - right. destruct (addressed_as o lookup name) eqn:Ha; [left|by right].
    apply list_elem_of_In, List.filter_In. split; [by apply list_elem_of_In|].
    rewrite Ha, bool_decide_eq_false_2 by done. done.
Qed.

Lemma last_map_inv {A B : Type} (f : A -> B) (l : list A) y :
  last (map f l) = Some y -> exists x, last l = Some x /\ f x = y.
Proof. rewrite fmap_last. destruct (last l) as [x|]; simpl; [|done]. intros [= <-]. eauto. Qed.

Lemma reads_kept log d rs ps im root lookup name after v :
  acceptance_inv (mkAcceptanceWorld log d rs ps im) ->
  scan_after root lookup d = Ok after -> visit log root lookup name d = Ok v ->
  acceptance_inv (mkAcceptanceWorld log d (mkPassRead root lookup name after v :: rs) ps im).
Proof.
  intros [Hd Hlog Hp Hf Hv] Hafter Hvisit. simpl in *. split; simpl; try done.
  intros p Hin. apply elem_of_cons in Hin as [->|Hin]; [simpl|by apply Hv].
  apply visit_ok in Hvisit as (f & Hrow & Hthrough & Hpage). destruct (Hf root lookup f Hrow) as [Hle Hcov].
  assert (after = af_through f) as ->.
  { unfold scan_after in Hafter. rewrite Hrow in Hafter. by injection Hafter as <-. }
  set (page := take _ _) in *.
  destruct (last (map (fun o => seq_of o) page)) as [n|] eqn:Elast; simpl in Hthrough; rewrite Hthrough.
  - apply last_map_inv in Elast as (x & Hx & <-).
    assert (Hxl : x ∈ log).
    { apply last_Some_elem_of in Hx. subst page. apply elem_of_take_all, elem_of_remaining in Hx. apply Hx. }
    split; [by apply last_seq_max|].
    intros o (Ho & Ha & Hseq). destruct (Z.leb_spec (seq_of o) (af_through f)).
    + left. apply Hcov. by split_and!.
    + destruct (Hpage o) as [Hs|[Hu|Hn]]; [|by left; left|by right; left|by right; right].
      eapply page_closed; [by apply remaining_sorted|done| |done]. apply elem_of_remaining. by split_and!.
  - split; [done|]. intros o Ho. left. by apply Hcov.
Qed.

(** *** The write phase *)

Lemma record_keeps_frontiers initial ns s r s' :
  cohort_record initial ns s = (r, s') -> acceptance_frontier (db s') = acceptance_frontier (db s).
Proof.
  intros H. apply preserves_ok with (part := fun d => acceptance_frontier d) in H; [done|].
  unfold cohort_record, insert_claims, settle_claims, settle_harness_inputs,
    record_optional_owner_generations. preserves; try apply preserves_savepoint; preserves.
  apply preserves_walk. intros ? []. done.
Qed.

Lemma record_seals initial ns s r s' :
  cohort_record initial ns s = (Ok r, s') -> batch_sealed (db s') (ns, seq_of initial) = true.
Proof.
  intros H. apply cohort_record_reads, claim_record_ok in H as (row & expected & [Hrow Hs _ _ _ _ _ _ _ _]).
  unfold batch_sealed. by rewrite Hrow.
Qed.

Lemma records_ok root originals s u s' :
  db_reachable (db s) -> for_each (fun o => _ ← cohort_record o root; mret tt) originals s = (Ok u, s') ->
  rtc db_step (db s) (db s') /\ acceptance_frontier (db s') = acceptance_frontier (db s) /\
  Forall (fun o => batch_sealed (db s') (root, seq_of o) = true) originals.
Proof.
  revert s. induction originals as [|o rest IH]; intros s Hd H; cbn [for_each] in H.
  { apply ret_ok in H as [_ ->]. split_and!; [done|done|constructor]. }
  apply bindM_ok in H as (u1 & s1 & H1 & H). apply bindM_ok in H1 as (r & s2 & Hrec & [_ <-]%ret_ok).
  pose proof (stepwise_cohort_record o root s) as Hs. rewrite Hrec in Hs. simpl in Hs.
  pose proof (reachable_steps _ _ Hd Hs) as Hd1. destruct (IH s1 Hd1 H) as (Hs' & Hf & Hall).
  split_and!; [by etrans|rewrite Hf; by eapply record_keeps_frontiers|].
  constructor; [|done]. eapply batch_sealed_kept; [done|done|]. by eapply record_seals.
Qed.

Lemma advance_ok f s u s' :
  frontier_advance f s = (Ok u, s') -> exists old, acceptance_frontier (db s) !! (af_root f, af_lookup f) = Some old /\
  ((af_through f <= af_through old /\ s' = s) \/
   (af_through old < af_through f /\
    acceptance_frontier (db s') = <[(af_root f, af_lookup f) := f]> (acceptance_frontier (db s)))).
Proof.
  unfold frontier_advance. intros H. apply bindM_ok in H as (n & s1 & [Hn ->]%reading_ok & H).
  unfold scan_after in Hn. apply bind_ok_inv in Hn as (old & Hold & [= <-]). apply of_option_ok in Hold.
  exists old. split; [done|]. destruct (Z.ltb_spec (af_through old) (af_through f)).
  - right. split; [done|]. by apply upsert_ok in H as (_ & _ & _ & -> & _).
  - left. apply ret_ok in H as [_ ->]. done.
Qed.

Lemma accept_ok root lookup v s s' u :
  db_reachable (db s) -> accept_visit root lookup v s = (Ok u, s') ->
  rtc db_step (db s) (db s') /\
  Forall (fun o => batch_sealed (db s') (root, seq_of o) = true) (vi_unaccepted v) /\
  exists old, acceptance_frontier (db s) !! (root, lookup) = Some old /\
    ((vi_through v <= af_through old /\ acceptance_frontier (db s') = acceptance_frontier (db s)) \/
     (af_through old < vi_through v /\
      acceptance_frontier (db s') =
        <[(root, lookup) := mkAcceptanceFrontier root lookup (vi_through v)]> (acceptance_frontier (db s)))).
Proof.
  intros Hd H. pose proof (stepwise_accept_visit root lookup v s) as Hs. rewrite H in Hs. simpl in Hs.
  unfold accept_visit in H. apply writing_ok in H as [H _].
  apply bindM_ok in H as (u1 & s1 & H1 & H2). apply records_ok in H1 as (Hs1 & Hf1 & Hall); [|done].
  pose proof (stepwise_frontier_advance (mkAcceptanceFrontier root lookup (vi_through v)) s1) as Hs2.
  rewrite H2 in Hs2. simpl in Hs2. apply advance_ok in H2 as (old & Hold & Hcase). simpl in *.
  split_and!; [done| |].
  - eapply Forall_impl; [exact Hall|]. intros o Ho. eapply batch_sealed_kept; [|done|done]. by eapply reachable_steps.
  - rewrite Hf1 in Hold, Hcase. exists old. split; [done|].
    destruct Hcase as [[Hle ->]|[Hlt Heq]]; [left|right]; done.
Qed.

Lemma accepts_kept log s rs ps im p s' :
  acceptance_inv (mkAcceptanceWorld log (db s) rs ps im) -> p ∈ rs ->
  accept_visit (pr_root p) (pr_lookup p) (pr_visit p) s = (Ok tt, s') ->
  acceptance_inv (mkAcceptanceWorld log (db s') rs (p :: ps) im).
Proof.
  intros HI Hin H. pose proof (wi_reads _ HI p Hin) as [Hle Hcov]. pose proof (wi_db _ HI) as Hd. simpl in *.
  apply accept_ok in H as (Hs & Hall & old & Hold & Hcase); [|done].
  eapply reads_later; [done|done|by intros x; right|done|]. intros root lookup f Hrow.
  destruct Hcase as [[_ Hsame]|[Hlt Hnew]]; [left; by rewrite <- Hsame|]. rewrite Hnew in Hrow.
  apply lookup_insert_Some in Hrow as [[[= <- <-] <-]|[Hne Hrow]]; simpl; [right|by left].
  split; [done|]. intros o Ho. destruct (Hcov o Ho) as [Hset|[Hu|[Hafter Hname]]].
  - eapply settled_later; [exact Hd|done| |done|exact Hset]. intros x. by right.
  - left. rewrite Forall_forall in Hall. by apply Hall.
  - right. left. exists p. simpl. split_and!; [by left|done..|apply Ho|done].
Qed.

(** *** Imports *)

Lemma positions_ok root lookups through s u s' :
  for_each (fun lookup => frontier_advance (mkAcceptanceFrontier root lookup through)) lookups s = (Ok u, s') ->
  forall root' lookup',
    acceptance_frontier (db s') !! (root', lookup') = acceptance_frontier (db s) !! (root', lookup') \/
    exists old, root' = root /\ lookup' ∈ lookups /\ acceptance_frontier (db s) !! (root', lookup') = Some old /\
      af_through old < through /\
      acceptance_frontier (db s') !! (root', lookup') = Some (mkAcceptanceFrontier root lookup' through).
Proof.
  revert s. induction lookups as [|lookup rest IH]; intros s H root' lookup'; cbn [for_each] in H.
  { apply ret_ok in H as [_ ->]. by left. }
  apply bindM_ok in H as (u1 & s1 & H1 & H). apply advance_ok in H1 as (old & Hold & Hcase). simpl in *.
  destruct (IH s1 H root' lookup') as [Hsame|(mid & -> & Hin & Hmid & Hlt & Hnew)].
  - rewrite Hsame. destruct Hcase as [[_ ->]|[Hlt Heq]]; [by left|]. rewrite Heq.
    destruct (decide ((root', lookup') = (root, lookup))) as [[= -> ->]|Hne]; [right|left; by rewrite lookup_insert_ne].
    exists old. rewrite lookup_insert_eq. split_and!; [done|by left|done..].
  - right. destruct Hcase as [[_ ->]|[Hlt' Heq]]; [exists mid; split_and!; [done|by right|done..]|].
    rewrite Heq in Hmid. apply lookup_insert_Some in Hmid as [[[= <-] <-]|[_ Hmid]]; [simpl in Hlt; lia|].
    exists mid. split_and!; [done|by right|done..].
Qed.

Lemma positions_kept log s rs ps im root lookups through s' :
  acceptance_inv (mkAcceptanceWorld log (db s) rs ps im) -> through <= last_seq log ->
  position_frontiers root lookups through s = (Ok tt, s') ->
  acceptance_inv (mkAcceptanceWorld log (db s') rs ps (map (fun lookup => (root, lookup, through)) lookups ++ im)).
Proof.
  intros HI Hle H. pose proof (stepwise_position_frontiers root lookups through s) as Hs. rewrite H in Hs. simpl in Hs.
  unfold position_frontiers in H. apply writing_ok in H as [H _].
  eapply reads_later; [done|done|done|apply list_subseteq_app_r; done|]. intros root' lookup' f Hrow.
  destruct (positions_ok _ _ _ _ _ _ H root' lookup') as [Hsame|(old & -> & Hin & _ & _ & Hnew)].
  - left. by rewrite <- Hsame.
  - right. rewrite Hnew in Hrow. injection Hrow as <-. simpl. split; [done|]. intros o (_ & _ & Hq).
    right. right. exists through. simpl. split; [|done]. apply elem_of_app. left.
    by apply (list_elem_of_fmap_2 (fun lookup => (root, lookup, through))).
Qed.

Lemma declare_ok root lookup s u s' :
  declare_acceptance root lookup s = (Ok u, s') ->
  acceptance_frontier (db s') = acceptance_frontier (db s) \/
  (acceptance_frontier (db s) !! (root, lookup) = None /\
   acceptance_frontier (db s') = <[(root, lookup) := mkAcceptanceFrontier root lookup 0]> (acceptance_frontier (db s))).
Proof.
  unfold declare_acceptance, insert_if_absent. simpl. unfold exec_insert_if_absent.
  destruct (present _ || _) eqn:E.
  - destruct (refuse _ _) as [[]|e]; simpl; [|done]. intros [= _ <-]. by left.
  - destruct (exec_insert _ _) as [d'|e] eqn:Ei; [|done]. intros [= _ <-]. right.
    apply exec_insert_ok in Ei as (_ & Hnone & Hw). apply write_row_ok in Hw as (_ & _ & -> & _). done.
Qed.

Lemma declares_kept log s rs ps im root lookup r s' :
  acceptance_inv (mkAcceptanceWorld log (db s) rs ps im) -> writing (declare_acceptance root lookup) s = (r, s') ->
  acceptance_inv (mkAcceptanceWorld log (db s') rs ps im).
Proof.
  intros HI H. destruct r as [u|e]; [|apply writing_err in H; by rewrite H].
  apply writing_ok in H as [H _]. pose proof (stepwise_declare_acceptance root lookup s) as Hs.
  rewrite H in Hs. simpl in Hs. eapply reads_later; [done|done|done|done|]. intros root' lookup' f Hrow.
  destruct (declare_ok _ _ _ _ _ H) as [Hsame|[Hnone Hnew]]; [left; by rewrite <- Hsame|]. rewrite Hnew in Hrow.
  apply lookup_insert_Some in Hrow as [[[= <- <-] <-]|[Hne Hrow]]; simpl; [right|by left].
  pose proof (wi_positive _ HI) as Hp. simpl in Hp. rewrite Forall_forall in Hp. split.
  - unfold last_seq. destruct (last _) as [n|] eqn:E; [|done].
    apply last_map_inv in E as (x & Hx%last_Some_elem_of & <-). apply Hp in Hx. simpl. lia.
  - intros o (Ho & _ & Hle). apply Hp in Ho. lia.
Qed.

Lemma acceptance_inv_reachable w : acceptance_reachable w -> acceptance_inv w.
Proof.
  unfold acceptance_reachable. intros H.
  assert (Hinit : acceptance_inv acceptance_initial).
  { split; simpl; [constructor|constructor|constructor|intros ? ? ? Hx|intros ? Hx]; simpl in Hx;
      [by simplify_map_eq|by apply not_elem_of_nil in Hx]. }
  revert Hinit. induction H as [|w1 w2 w3 Hstep _ IH]; [done|]. intros HI. apply IH.
  destruct Hstep as [| | | |? s ? ? ? p e s' _ H| |].
  - by apply commits_kept.
  - by eapply declares_kept.
  - by eapply reads_kept.
  - by eapply accepts_kept.
  - unfold accept_visit in H. apply writing_err in H. by rewrite H.
  - by eapply positions_kept.
  - by eapply writes_kept.
Qed.

Lemma frontier_step w w' root lookup f :
  acceptance_inv w -> acceptance_step w w' -> acceptance_frontier (aw_db w) !! (root, lookup) = Some f ->
  exists f', acceptance_frontier (aw_db w') !! (root, lookup) = Some f' /\ af_through f <= af_through f'.
Proof.
  intros HI Hstep Hrow.
  destruct Hstep as [|? s ? ? ? ? ? r s' H| |? s ? ? ? p s' _ H|? s ? ? ? p e s' _ H|? s ? ? ? root0 lookups through s' _ H|? ? ? ? ? ? _ Hsame];
    simpl in *; try (by exists f); try (by exists f; rewrite Hsame).
  - destruct r as [u|e]; [|apply writing_err in H; rewrite H; by exists f]. apply writing_ok in H as [H _].
    destruct (declare_ok _ _ _ _ _ H) as [->|[Hnone ->]]; [by exists f|].
    exists f. split; [|done]. apply lookup_insert_Some. right. split; [congruence|done].
  - apply accept_ok in H as (_ & _ & old & Hold & [[_ ->]|[Hlt ->]]); [by exists f| |apply HI].
    destruct (decide ((pr_root p, pr_lookup p) = (root, lookup))) as [Heq|Hne].
    + rewrite Heq in *. eexists. rewrite lookup_insert_eq. split; [done|].
      assert (old = f) by congruence. subst. simpl. lia.
    + exists f. split; [|done]. by apply lookup_insert_Some; right.
  - unfold accept_visit in H. apply writing_err in H. rewrite H. by exists f.
  - unfold position_frontiers in H. apply writing_ok in H as [H _].
    destruct (positions_ok _ _ _ _ _ _ H root lookup) as [->|(old & -> & _ & Hold & Hlt & ->)]; [by exists f|].
    eexists. split; [done|]. assert (old = f) by congruence. subst. simpl. lia.
Qed.

(** C3: In every state the acceptance system reaches, with the bus committing, recipients
    renamed, other passes writing, imported histories positioning frontiers and every other
    component changing the store between the two phases of a pass, each committed original
    that names a recipient at or below its acceptance frontier has a sealed cohort, unless a
    written pass met it on its page under a name it was not frozen for, or an import
    positioned the frontier at or past it; and the frontier never moves back. *)
Theorem frontier_never_passes_unsealed (w w' : AcceptanceWorld) (root lookup : string) (f : AcceptanceFrontier) :
  acceptance_reachable w -> rtc acceptance_step w w' ->
  acceptance_frontier (aw_db w) !! (root, lookup) = Some f ->
  (forall o, o ∈ aw_log w -> includes_lookup o lookup = true -> seq_of o <= af_through f ->
     batch_sealed (aw_db w) (root, seq_of o) = true \/
     (exists p, p ∈ aw_passes w /\ pr_root p = root /\ pr_lookup p = lookup /\
        pr_after p < seq_of o <= vi_through (pr_visit p) /\ addressed_as o lookup (pr_name p) = false) \/
     (exists through, (root, lookup, through) ∈ aw_imports w /\ seq_of o <= through)) /\
  exists f', acceptance_frontier (aw_db w') !! (root, lookup) = Some f' /\ af_through f <= af_through f'.
Proof.
  intros Hw Hsteps Hrow. split.
  - intros o Ho Ha Hle. apply acceptance_inv_reachable in Hw as [_ _ _ Hf _].
    destruct (Hf root lookup f Hrow) as [_ Hcov]. apply Hcov. by split_and!.
  - revert f Hrow. induction Hsteps as [|w1 w2 w3 Hstep _ IH]; intros f Hrow; [by exists f|].
    destruct (frontier_step w1 w2 root lookup f) as (f1 & Hf1 & Hle); [by apply acceptance_inv_reachable|done|done|].
    destruct (IH ltac:(by eapply rtc_r) f1 Hf1) as (f2 & Hf2 & Hle2). exists f2. split; [done|lia].
Qed.

(** ** Catching up *)

(** One acceptance pass, nothing else written between its two phases *)
Definition pass (log : list Delivered) (root lookup name : string) (s s' : Session) : Prop :=
  exists v, visit log root lookup name (db s) = Ok v /\ accept_visit root lookup v s = (Ok tt, s').

Lemma remaining_drop log lookup after n x :
  StronglySorted (fun a b => seq_of a < seq_of b) log ->
  last (take n (remaining log lookup after)) = Some x ->
  remaining log lookup (seq_of x) = drop n (remaining log lookup after).
Proof.
  intros Hs Hlast. pose proof (remaining_sorted log lookup after Hs) as Hr.
  assert (Hx : after < seq_of x).
  { apply last_Some_elem_of, elem_of_take_all, elem_of_remaining in Hlast. apply Hlast. }
  transitivity (List.filter (fun o => seq_of x <? seq_of o) (remaining log lookup after)).
  { unfold remaining. clear -Hx. induction log as [|o log IH]; simpl; [done|].
    destruct (includes_lookup o lookup); simpl; [|done].
    destruct (Z.ltb_spec after (seq_of o)); simpl; destruct (Z.ltb_spec (seq_of x) (seq_of o)); simpl;
      try lia; by rewrite IH. }
  by apply (sorted_drop_by (fun o => seq_of o)).
Qed.

Lemma pass_drops log root lookup name s s' f :
  db_reachable (db s) -> StronglySorted (fun a b => seq_of a < seq_of b) log ->
  pass log root lookup name s s' -> acceptance_frontier (db s) !! (root, lookup) = Some f ->
  db_reachable (db s') /\
  exists f', acceptance_frontier (db s') !! (root, lookup) = Some f' /\
    remaining log lookup (af_through f') = drop (Z.to_nat frontier_page) (remaining log lookup (af_through f)).
Proof.
  intros Hd Hs (v & Hv & Ha) Hf. apply visit_ok in Hv as (f0 & Hf0 & Hthrough & _).
  assert (f0 = f) as -> by congruence.
  apply accept_ok in Ha as (Hsteps & _ & old & Hold & Hcase); [|done].
  assert (old = f) as -> by congruence. split; [by eapply reachable_steps|].
  set (page := take _ _) in *.
  destruct (last (map (fun o => seq_of o) page)) as [n|] eqn:Elast; simpl in Hthrough; rewrite Hthrough in Hcase.
  - apply last_map_inv in Elast as (x & Hx & <-). pose proof (remaining_drop _ _ _ _ _ Hs Hx) as Hdrop.
    assert (af_through f < seq_of x).
    { apply last_Some_elem_of, elem_of_take_all, elem_of_remaining in Hx. apply Hx. }
    destruct Hcase as [[? _]|[_ ->]]; [lia|].
    eexists. split; [apply lookup_insert_eq|]. exact Hdrop.
  - destruct Hcase as [[_ ->]|[? _]]; [|lia]. exists f. split; [done|].
    rewrite last_None in Elast. apply map_eq_nil in Elast. subst page.
    destruct (remaining log lookup (af_through f)) as [|o l]; [by rewrite drop_nil|done].
Qed.

(** Acceptance catches up: each successful pass covers exactly the next 101 originals
    that name the recipient, so k passes leave what remains of the log after k pages, and
    once k pages cover it the frontier is at or past every original of the log that names
    the recipient. *)
Theorem acceptance_catches_up (log : list Delivered) (root lookup name : string) (k : nat) (s s' : Session)
    (f : AcceptanceFrontier) :
  db_reachable (db s) -> StronglySorted (fun a b => seq_of a < seq_of b) log ->
  nsteps (pass log root lookup name) k s s' -> acceptance_frontier (db s) !! (root, lookup) = Some f ->
  exists f', acceptance_frontier (db s') !! (root, lookup) = Some f' /\
    remaining log lookup (af_through f') = drop (k * 101) (remaining log lookup (af_through f)) /\
    ((length (remaining log lookup (af_through f)) <= k * 101)%nat ->
     forall o, o ∈ log -> includes_lookup o lookup = true -> seq_of o <= af_through f').
Proof.
  intros Hd Hs Hpass. revert f Hd. induction Hpass as [|k s1 s2 s3 H12 _ IH]; intros f Hd Hf.
  - exists f. split_and!; [done|by rewrite drop_0|]. intros Hlen o Ho Hi.
    destruct (Z.leb_spec (seq_of o) (af_through f)) as [|Hgt]; [done|].
    assert (Hin : o ∈ remaining log lookup (af_through f)) by (by apply elem_of_remaining).
    destruct (remaining log lookup (af_through f)); [by apply not_elem_of_nil in Hin|simpl in Hlen; lia].
  - destruct (pass_drops _ _ _ _ _ _ _ Hd Hs H12 Hf) as (Hd2 & f2 & Hf2 & Hr2).
    destruct (IH f2 Hd2 Hf2) as (f3 & Hf3 & Hr3 & Hall). exists f3. change (Z.to_nat frontier_page) with 101%nat in Hr2.
    split_and!; [done| |].
    + by rewrite Hr3, Hr2, drop_drop.
    + intros Hlen. apply Hall. rewrite Hr2, length_drop. lia.
Qed.
