(* ===== verification/Snapshot.v ===== *)
(** * Recovery snapshots

    Models [coordination/snapshot.py] and [recovery_reader.py]: the projection of one
    execution with everything coupled to it, the cross-record checks its construction
    makes, retry authorization, and the atomic settlement of the current attempt. *)

From stdpp Require Import base gmap strings list sorting.
From Stdlib Require Import ZArith Lia.
From S2P Require Import Prelude Contracts Lifecycle WakePolicy AssignmentStates ResponseStates.
From S2P Require Import AttemptStates ExecutionStates Rows TableGuards Database Session SchemaSteps.
From S2P Require Import SchemaInvariants Replay Stepwise ParticipantStore AssignmentStore.

Record RecoverySnapshot : Type := mkRecoverySnapshot {
  sn_execution : ExecutionRecord;
  sn_attempt : option AttemptRecord;
  sn_assignments : list WakeAssignment;
  sn_links : list ExecutionAssignmentLink;
  sn_replay : option ReplayAssessments;
  sn_obligations : list ResponseObligation;
  sn_intents : list PublicationIntents;
  sn_evidence : list PublicationEvidence;
  sn_last_recovery : option RecoveryAudit;
  sn_current_execution : option string;
  sn_current_attempt : option Z;
  sn_pointer_revision : Z;
  sn_is_current : bool;
}.

(** ** Requirements read from a snapshot *)

(** [ResponseObligation.response_record] *)
Definition response_record {R : Type} (exact_target : R -> string) (records : list R)
    (target : string) : option R :=
  List.find (fun row => bool_decide (exact_target row = target)) records.

Definition nonempty {A : Type} (l : list A) : bool := match l with [] => false | _ => true end.

Definition require_wire_responses (sn : RecoverySnapshot) : outcome (list ResponseObligation) :=
  _ ← refuse (negb (nonempty (sn_assignments sn)) || negb (nonempty (sn_obligations sn)))
      (IdentityConflict "wire response requires original claims and obligations");
  Ok (sn_obligations sn).

Definition require_wire_response (sn : RecoverySnapshot) (target : string)
    : outcome ResponseObligation :=
  responses ← require_wire_responses sn;
  of_option (response_record ob_target responses target)
    (IdentityConflict "response route is absent from original obligations").

(** [RecoverySnapshot.previous_attempt.require_attempt] *)
Definition require_attempt (sn : RecoverySnapshot) : outcome AttemptRecord :=
  of_option (sn_attempt sn) (StaleFence "execution has no authorized attempt").

Definition require_current_attempt (sn : RecoverySnapshot) : outcome AttemptRecord :=
  _ ← refuse (negb (sn_is_current sn)) (StaleFence "attempt fence is not current");
  require_attempt sn.

Definition require_final_response (sn : RecoverySnapshot) (recipient_lookup target : string)
    : outcome ResponseObligation :=
  _ ← refuse (negb (bool_decide (ex_owner (sn_execution sn) = recipient_lookup)))
      (StaleFence "response turn belongs to a different SQL recipient");
  _ ← exec_require_final_response (ex_lifecycle (sn_execution sn));
  attempt ← require_attempt sn;
  _ ← attempt_require_final_response (at_lifecycle attempt);
  require_wire_response sn target.

Definition sn_require_preparation (sn : RecoverySnapshot) (target : string)
    : outcome ResponseObligation :=
  obligation ← require_wire_response sn target;
  _ ← require_preparation (ob_lifecycle obligation);
  Ok obligation.

Definition sn_require_existing_preparation (sn : RecoverySnapshot) (candidate : Message)
    : outcome unit :=
  obligation ← require_wire_response sn (msg_target candidate);
  _ ← require_existing_preparation (ob_lifecycle obligation);
  match response_record pi_target (sn_intents sn) (msg_target candidate) with
  | Some intent => require (matches_request intent (ex_id (sn_execution sn)) candidate)
                     (IdentityConflict "prepared response envelope conflicts")
  | None => Err (IdentityConflict "prepared response envelope conflicts")
  end.

(** [sender_lookup] is the registry's lookup of a sender's name. *)
Definition require_publishing_intent (sn : RecoverySnapshot) (target : string)
    (sender_lookup : string -> outcome string)
    : outcome (PublicationIntents * ResponseObligation) :=
  responses ← require_wire_responses sn;
  _ ← refuse (negb (bool_decide (length (sn_intents sn) = length responses)))
      (IdentityConflict "all original response bodies must be frozen before first append");
  obligation ← require_wire_response sn target;
  _ ← require_publishing (ob_lifecycle obligation);
  match response_record pi_target (sn_intents sn) target with
  | None => Err (IdentityConflict "no frozen publishing intent for current owner")
  | Some intent =>
      lookup ← sender_lookup (msg_sender (pi_message intent));
      _ ← refuse (negb (bool_decide (lookup = ex_owner (sn_execution sn))))
          (IdentityConflict "no frozen publishing intent for current owner");
      Ok (intent, obligation)
  end.

Definition require_published_evidence (sn : RecoverySnapshot) (target : string)
    : outcome (PublicationIntents * PublicationEvidence) :=
  match response_record pi_target (sn_intents sn) target,
        response_record pe_target (sn_evidence sn) target with
  | Some intent, Some acknowledgement => Ok (intent, acknowledgement)
  | _, _ => Err (StaleFence "response route has no frozen publication evidence")
  end.

Definition completed_response (sn : RecoverySnapshot) : bool :=
  has_capability (execution_kind (ex_lifecycle (sn_execution sn))) Complete.

Definition require_nonpublication_response (sn : RecoverySnapshot) : outcome unit :=
  each (fun o => require_nonpublication (ob_lifecycle o)) (sn_obligations sn).

(** ** Retry *)

Definition sn_retry_authorized (sn : RecoverySnapshot) : bool :=
  execution_retry_authorized (sn_execution sn) (sn_replay sn) (sn_obligations sn).

Definition sn_can_retry (sn : RecoverySnapshot) : bool :=
  exec_can_retry (ex_lifecycle (sn_execution sn)) (sn_retry_authorized sn)
    (at_lifecycle <$> sn_attempt sn) (sn_is_current sn).

(** [previous_attempt.require_retry] and [previous_attempt.require_newer_owner] *)
Definition require_retry (sn : RecoverySnapshot) : outcome unit :=
  match sn_attempt sn with
  | Some _ => refuse (negb (sn_can_retry sn))
                (RecoveryBlocked "retry requires final death, replay proof, and budget")
  | None => Err (RecoveryBlocked "frozen v2 cannot resume an unstarted deferral")
  end.

Definition require_newer_owner (sn : RecoverySnapshot) (generation : Z) : outcome unit :=
  match sn_attempt sn with
  | Some a => refuse (generation <=? at_generation a)
                (StaleFence "retry must use a strictly newer owner generation")
  | None => Ok tt
  end.

(** [ExecutionState.require_retry_start] *)
Definition require_retry_start (sn : RecoverySnapshot) : outcome unit :=
  match ex_lifecycle (sn_execution sn) with
  | DeferredExecution _ => require_retry sn
  | _ => Ok tt
  end.

(** ** Construction: the records agree *)

Definition validate_membership (sn : RecoverySnapshot) : outcome unit :=
  let execution := sn_execution sn in
  let e := ex_id execution in
  let ids := map wa_id (sn_assignments sn) in
  _ ← replay_require_execution (sn_replay sn) e;
  _ ← refuse (existsb (fun i => negb (bool_decide (i = e)))
                (map ob_execution (sn_obligations sn) ++ map pi_execution (sn_intents sn)
                 ++ map pe_execution (sn_evidence sn)
                 ++ match sn_last_recovery sn with Some a => [au_execution a] | None => [] end)
              || existsb (fun c => negb (bool_decide (wa_execution_id c = Some e)))
                   (sn_assignments sn))
      (IntegrityViolationError "snapshot records belong to another execution");
  _ ← refuse (negb (bool_decide (map ln_assignment (sn_links sn) = ids))
              || negb (bool_decide (map ln_ordinal (sn_links sn)
                                    = map Z.of_nat (seq 0 (length (sn_assignments sn)))))
              || existsb (fun l => negb (bool_decide (ln_execution l = e))) (sn_links sn))
      (IntegrityViolationError "snapshot execution-claim links disagree with ordered claims");
  _ ← refuse (negb (bool_decide (NoDup ids))
              || existsb (fun c => negb (bool_decide (wa_lookup c = ex_owner execution)))
                   (sn_assignments sn))
      (IntegrityViolationError "snapshot claims have duplicate IDs or wrong owner");
  refuse (existsb (fun c => negb (bool_decide (wa_disposition c
                                               = assignment_state (ex_status execution))))
            (sn_assignments sn))
    (IntegrityViolationError "snapshot claims disagree with execution disposition").

Definition validate_attempt_identity (sn : RecoverySnapshot) : outcome unit :=
  let execution := sn_execution sn in
  _ ← refuse (negb (eqb (negb (pointed (ex_ordinal execution))) (negb (pointed (sn_attempt sn)))))
      (IntegrityViolationError "snapshot attempt does not match execution reference");
  match sn_attempt sn with
  | None => Ok tt
  | Some a =>
      _ ← refuse (negb (bool_decide ((at_execution a, Some (at_ordinal a), at_owner a)
                                     = (ex_id execution, ex_ordinal execution, ex_owner execution))))
          (IntegrityViolationError "snapshot attempt identity/owner mismatch");
      refuse (negb (accepts_attempt (ex_lifecycle execution) (at_lifecycle a)))
        (IntegrityViolationError "snapshot status/attempt phase mismatch")
  end.

Definition validate_current_pointer (sn : RecoverySnapshot) : outcome unit :=
  let execution := sn_execution sn in
  _ ← refuse (negb (eqb (pointed (sn_current_execution sn)) (pointed (sn_current_attempt sn))))
      (IntegrityViolationError "snapshot pointer tuple is incomplete");
  refuse (negb (eqb (sn_is_current sn)
      (bool_decide (sn_current_execution sn = Some (ex_id execution))
       && bool_decide (sn_current_attempt sn = ex_ordinal execution)
       && has_capability (ex_status execution) Active
       && match sn_attempt sn with
          | Some a => accepts_active_execution (at_lifecycle a) | None => false end)))
    (IntegrityViolationError "snapshot current pointer is inconsistent").

(** The Python sets of targets are lists read up to order and repetition. *)
Definition validate_response_route (sn : RecoverySnapshot) : outcome unit :=
  let expected := map wa_exact_target (sn_assignments sn) in
  let targets := map ob_target (sn_obligations sn) in
  let routes_ok (routes : list string) :=
    bool_decide (NoDup routes) && forallb (fun r => bool_decide (Some r ∈ expected)) routes in
  _ ← validate_routes (ex_origin (sn_execution sn)) (sn_assignments sn) (sn_obligations sn);
  _ ← refuse (negb (routes_ok targets)
              || negb (forallb (fun t => bool_decide (t ∈ map Some targets)) expected))
      (IntegrityViolationError "response obligations differ from original claim routes");
  _ ← refuse (negb (routes_ok (map pi_target (sn_intents sn))))
      (IntegrityViolationError "publication routes differ from original obligations");
  refuse (negb (routes_ok (map pe_target (sn_evidence sn))))
    (IntegrityViolationError "publication routes differ from original obligations").

Definition validate_publication_receipt (sn : RecoverySnapshot) : outcome unit :=
  each (fun o =>
    validate_publication (ob_lifecycle o)
      (pi_message_id <$> response_record pi_target (sn_intents sn) (ob_target o))
      ((fun r => (pe_message_id r, pe_seq r))
         <$> response_record pe_target (sn_evidence sn) (ob_target o)))
    (sn_obligations sn).

(** [ExecutionState.validate_snapshot] of each state *)
Definition validate_snapshot (sn : RecoverySnapshot) : outcome unit :=
  let authorized := sn_retry_authorized sn in
  match ex_lifecycle (sn_execution sn) with
  | QueuedExecution | PendingExecution => Ok tt
  | ActiveExecution _ =>
      require (sn_is_current sn)
        (IntegrityViolationError "active snapshot must carry exact owner pointer")
  | CompletedExecution _ =>
      each (fun o => require_capability (ob_state o) Successful
              (IntegrityViolationError "completed wire execution requires terminal obligation"))
        (sn_obligations sn)
  | DeferredExecution _ =>
      refuse (pointed (sn_attempt sn) && negb authorized)
        (IntegrityViolationError "post-attempt deferral requires authorized retry")
  | FailedExecution _ =>
      _ ← refuse (nonempty (sn_evidence sn))
          (IntegrityViolationError "failed execution cannot erase a publication acknowledgement");
      refuse (pointed (sn_attempt sn) && authorized)
        (IntegrityViolationError "authorized retry cannot settle failed")
  end.

(** [RecoverySnapshot.__post_init__] *)
Definition snapshot_post_init (sn : RecoverySnapshot) : outcome unit :=
  _ ← refuse (sn_pointer_revision sn <? 0) (ValueError "pointer_revision cannot be negative");
  _ ← validate_membership sn;
  _ ← validate_attempt_identity sn;
  _ ← validate_current_pointer sn;
  _ ← validate_response_route sn;
  _ ← validate_publication_receipt sn;
  validate_snapshot sn.

(** ** Reading a snapshot *)

Definition decode_rows {Row : Type} `{!Table Row} (rows : list Row) : outcome (list Row) :=
  _ ← each post_init rows; Ok rows.

(** [RecoveryReader.get] *)
Definition recovery_read (execution_id : string) (d : DB) : outcome RecoverySnapshot :=
  row ← one (Row := ExecutionRecord) execution_id d;
  execution ← of_option row (IdentityConflict "unknown execution");
  attempt ← match ex_ordinal execution with
            | Some ordinal => one (Row := AttemptRecord) (execution_id, ordinal) d
            | None => Ok None
            end;
  links ← decode_rows (link_rows d execution_id);
  assignments ← mapM (fun link => assignment_read (ln_assignment link) d) links;
  replay ← one (Row := ReplayAssessments) execution_id d;
  obligations ← decode_rows (obligation_rows d execution_id);
  intents ← decode_rows (intent_rows d execution_id);
  evidence ← decode_rows (evidence_rows d execution_id);
  audit ← match last (audit_rows d execution_id) with
          | Some a => _ ← audit_post_init a; Ok (Some a)
          | None => Ok None
          end;
  owner ← participant_read_at (ex_owner execution) d;
  let pointer := ps_pointer owner in
  let snapshot := mkRecoverySnapshot execution attempt assignments links replay obligations intents
    evidence audit (ptr_execution pointer) (ptr_attempt pointer) (ptr_revision pointer)
    (bool_decide (ptr_execution pointer = Some execution_id)) in
  _ ← snapshot_post_init snapshot;
  Ok snapshot.

Definition recovery_get (execution_id : string) : M RecoverySnapshot :=
  reading (recovery_read execution_id).

(** ** Settlement *)

(** The assignments of an [UPDATE] of each lifecycle row; [None] leaves the reason. *)
Definition attempt_set (lifecycle : AttemptState) (revision updated : Z) (reason : option ReasonCode)
    (r : AttemptRecord) : AttemptRecord :=
  mkAttemptRecord (at_execution r) (at_ordinal r) (at_owner r) (at_generation r) (at_digest r)
    lifecycle revision (at_progress r) (default (at_reason r) reason) (at_created r) updated.

Definition execution_set (lifecycle : ExecutionState) (revision updated : Z)
    (reason : option ReasonCode) (r : ExecutionRecord) : ExecutionRecord :=
  mkExecutionRecord (ex_id r) (ex_origin r) lifecycle (ex_owner r) revision (ex_max_attempts r)
    (default (ex_reason r) reason) (ex_created r) updated.

Definition obligation_set (lifecycle : ResponseState) (revision updated : Z)
    (reason : option ReasonCode) (r : ResponseObligation) : ResponseObligation :=
  mkResponseObligation (ob_execution r) (ob_target r) lifecycle (default (ob_reason r) reason)
    (ob_created r) updated revision.

Definition claim_set (lifecycle : AssignmentState) (revision updated : Z) (r : WakeAssignment)
    : WakeAssignment :=
  wa_progress r lifecycle updated revision.

Definition pointer_set (execution : option string) (ordinal : option Z) (revision : Z)
    (r : CurrentExecutions) : CurrentExecutions :=
  mkCurrentExecutions (ptr_owner r) execution ordinal revision.

Definition always {Row : Type} (r : Row) : bool := true.

(** [TerminalAttempt.disposition] of each outcome *)
Definition disposition (outcome_ : TerminalPhase) (sn : RecoverySnapshot) (attempt : AttemptRecord)
    : outcome (ExecutionState * ResponseState) :=
  let failed := Ok (FailedExecution (Some (at_ordinal attempt)), FailedResponse) in
  match outcome_ with
  | Succeeded =>
      _ ← require_silent_completion (at_lifecycle attempt);
      _ ← require_nonpublication_response sn;
      completed ← attempt_execution CompletedExecution (at_ordinal attempt);
      Ok (completed, SilentResponse)
  | AttemptFailed =>
      if sn_retry_authorized sn
      then Ok (DeferredExecution (Some (at_ordinal attempt)), DeferredResponse)
      else failed
  | UnknownOutcome => failed
  end.

(** A [CoordinationCapture]: what settlement releases outside SQL.  A standalone capture
    ([no_native_resources]) releases nothing; a native one may refuse. *)
Abbreviation Boundary := (RecoverySnapshot -> TerminalPhase -> outcome unit).
Definition no_native_resources : Boundary := fun _ _ => Ok tt.

(** The coupled claims of an execution that reached [kind] *)
Definition settle_claim (kind : ExecutionKind) (c : WakeAssignment) : M unit :=
  lifecycle ← lift (assignment_build (assignment_state kind) (assignment_mode (wa_lifecycle c))
                      (assignment_execution_id (wa_lifecycle c))
                      (assignment_exact_target (wa_lifecycle c)));
  updated ← now (wa_updated c);
  _ ← update (Row := WakeAssignment) (wa_id c) always (claim_set lifecycle (wa_revision c + 1) updated);
  mret tt.

Definition settle_obligation (execution_id : string) (response : ResponseState) (reason : ReasonCode)
    (o : ResponseObligation) : M unit :=
  updated ← now (ob_updated o);
  _ ← update (Row := ResponseObligation) (execution_id, ob_target o) always
      (obligation_set response (ob_revision o + 1) updated (Some reason));
  mret tt.

(** The rows coupled to a settled execution: its obligations, its claims, its pointer *)
Definition settle_coupled (sn : RecoverySnapshot) (state : ExecutionState) (response : ResponseState)
    (reason : ReasonCode) : M unit :=
  _ ← for_each (settle_obligation (ex_id (sn_execution sn)) response reason) (sn_obligations sn);
  _ ← for_each (settle_claim (execution_kind state)) (sn_assignments sn);
  _ ← update (Row := CurrentExecutions) (ex_owner (sn_execution sn)) always
      (pointer_set None None (sn_pointer_revision sn + 1));
  mret tt.

(** [RecoverySnapshot.settle] *)
Definition settle (sn : RecoverySnapshot) (outcome_ : TerminalPhase) (reason : ReasonCode)
    (boundary : Boundary) : M unit :=
  let execution := sn_execution sn in
  _ ← lift (refuse (nonempty (sn_intents sn))
              (PublicationUncertain "publication requires bus-keyed acknowledgement resolution"));
  attempt ← lift (of_option (sn_attempt sn)
              (RecoveryBlocked "settlement requires exact final done/death evidence"));
  _ ← lift (refuse (negb (sn_is_current sn)
                    || negb (attempt_backend_done (at_lifecycle attempt)
                             && attempt_process_dead (at_lifecycle attempt)))
              (RecoveryBlocked "settlement requires exact final done/death evidence"));
  _ ← accumulate (ex_id execution) (replay_contribution outcome_);
  states ← lift (disposition outcome_ sn attempt);
  _ ← lift (boundary sn outcome_);
  t ← now (Z.max (ex_updated execution) (at_updated attempt));
  _ ← update (Row := AttemptRecord) (ex_id execution, at_ordinal attempt) always
      (attempt_set (TerminalAttempt outcome_) (at_revision attempt + 1) t (Some reason));
  _ ← update (Row := ExecutionRecord) (ex_id execution) always
      (execution_set states.1 (ex_revision execution + 1) t (Some reason));
  settle_coupled sn states.1 states.2 reason.

(** [RecoverySnapshot.finish_publications] *)
Definition finish_publications (sn : RecoverySnapshot) (boundary : Boundary) : M unit :=
  let execution := sn_execution sn in
  responses ← lift (require_wire_responses sn);
  if negb (forallb (fun o => response_published (ob_state o)) responses) then mret tt
  else
    attempt ← lift (require_current_attempt sn);
    _ ← lift (boundary sn Succeeded);
    t ← now (at_updated attempt);
    _ ← update (Row := AttemptRecord) (ex_id execution, at_ordinal attempt)
        (fun r => at_revision r =? at_revision attempt)
        (attempt_set (TerminalAttempt Succeeded) (at_revision attempt + 1) t None);
    completed ← lift (attempt_execution CompletedExecution (at_ordinal attempt));
    t ← now (ex_updated execution);
    _ ← update (Row := ExecutionRecord) (ex_id execution)
        (fun r => ex_revision r =? ex_revision execution)
        (execution_set completed (ex_revision execution + 1) t None);
    _ ← for_each (fun c =>
          lifecycle ← lift (assignment_build CompletedKind (assignment_mode (wa_lifecycle c))
                              (assignment_execution_id (wa_lifecycle c))
                              (assignment_exact_target (wa_lifecycle c)));
          t ← now (wa_updated c);
          _ ← update (Row := WakeAssignment) (wa_id c) (fun r => wa_revision r =? wa_revision c)
              (claim_set lifecycle (wa_revision c + 1) t);
          mret tt) (sn_assignments sn);
    _ ← update (Row := CurrentExecutions) (ex_owner execution)
        (fun r => (ptr_revision r =? sn_pointer_revision sn)
                  && bool_decide (ptr_execution r = Some (ex_id execution)))
        (pointer_set None None (sn_pointer_revision sn + 1));
    mret tt.

(** ** Facts *)

Lemma stepwise_recovery_get e : stepwise (recovery_get e).
Proof. unfold recovery_get. stepwise. Qed.
#[export] Hint Resolve stepwise_recovery_get : stepwise.

Lemma stepwise_settle_claim k c : stepwise (settle_claim k c).
Proof. unfold settle_claim. stepwise. Qed.
Lemma stepwise_settle_obligation e r reason o : stepwise (settle_obligation e r reason o).
Proof. unfold settle_obligation. stepwise. Qed.
#[export] Hint Resolve stepwise_settle_claim stepwise_settle_obligation : stepwise.

Lemma stepwise_settle sn t reason boundary : stepwise (settle sn t reason boundary).
Proof. unfold settle, settle_coupled. stepwise. Qed.
Lemma stepwise_finish_publications sn boundary : stepwise (finish_publications sn boundary).
Proof. unfold finish_publications. stepwise. Qed.
#[export] Hint Resolve stepwise_settle stepwise_finish_publications : stepwise.
