(* ===== verification/Settlement.v ===== *)
(** * Settlement of an attempt

    What reading a snapshot establishes, the agreement of the Python retry rule with the
    SQL view, and the effect of [RecoverySnapshot.settle] on every coupled row. *)

From stdpp Require Import base gmap strings list sorting.
From Stdlib Require Import ZArith Lia.
From S2P Require Import Prelude Contracts Lifecycle WakePolicy AssignmentStates ResponseStates.
From S2P Require Import AttemptStates ExecutionStates Rows TableGuards Database Session SchemaSteps.
From S2P Require Import SchemaInvariants Replay Stepwise ParticipantStore AssignmentStore.
From S2P Require Import Snapshot.

(** ** What a read snapshot is *)

Lemma decode_rows_ok {Row : Type} `{!Table Row} (rows rows' : list Row) :
  decode_rows rows = Ok rows' -> rows' = rows /\ Forall (fun r => post_init r = Ok tt) rows.
Proof. unfold decode_rows. intros H. ok_inv. by split. Qed.

Lemma recovery_read_ok e d sn :
  recovery_read e d = Ok sn ->
  executions d !! e = Some (sn_execution sn) /\
  sn_attempt sn = (ex_ordinal (sn_execution sn) ≫= fun o => attempts d !! (e, o)) /\
  sn_replay sn = replay_assessments d !! e /\
  sn_obligations sn = obligation_rows d e /\ sn_intents sn = intent_rows d e /\
  sn_evidence sn = evidence_rows d e /\
  (exists p, participant_read_at (ex_owner (sn_execution sn)) d = Ok p /\
     sn_current_execution sn = ptr_execution (ps_pointer p) /\
     sn_current_attempt sn = ptr_attempt (ps_pointer p) /\
     sn_pointer_revision sn = ptr_revision (ps_pointer p)) /\
  sn_is_current sn = bool_decide (sn_current_execution sn = Some e) /\
  mapM (fun link => assignment_read (ln_assignment link) d) (sn_links sn) = Ok (sn_assignments sn) /\
  snapshot_post_init sn = Ok tt.
Proof.
  unfold recovery_read. intros H.
  apply bind_ok_inv in H as (row & Hrow & H). apply bind_ok_inv in H as (ex & Hex & H).
  apply bind_ok_inv in H as (att & Hatt & H). apply bind_ok_inv in H as (links & Hlinks & H).
  apply bind_ok_inv in H as (asg & Hasg & H). apply bind_ok_inv in H as (rep & Hrep & H).
  apply bind_ok_inv in H as (obs & Hobs & H). apply bind_ok_inv in H as (ints & Hints & H).
  apply bind_ok_inv in H as (evs & Hevs & H). apply bind_ok_inv in H as (aud & Haud & H).
  apply bind_ok_inv in H as (own & Hown & H). apply bind_ok_inv in H as ([] & Hpost & H).
  injection H as <-. simpl.
  apply one_ok in Hrow as [Hrow _]. apply of_option_ok in Hex as ->.
  apply one_ok in Hrep as [Hrep _]. apply decode_rows_ok in Hobs as [-> _].
  apply decode_rows_ok in Hints as [-> _]. apply decode_rows_ok in Hevs as [-> _].
  split_and!; try done; [|by eauto].
  destruct (ex_ordinal ex) as [o|]; simpl in *; [|congruence]. by apply one_ok in Hatt as [<- _].
Qed.

(** The claims of a snapshot are the stored claims of its links, in order. *)
Lemma mapM_ok {A B : Type} (f : A -> outcome B) xs ys :
  mapM f xs = Ok ys -> Forall2 (fun x y => f x = Ok y) xs ys.
Proof.
  revert ys. induction xs as [|x xs IH]; simpl; unfold mret, result_ret; intros ys H.
  { injection H as <-. constructor. }
  apply bind_ok_inv in H as (y & Hy & H). apply bind_ok_inv in H as (ys' & Hys & H).
  injection H as <-. constructor; auto.
Qed.

Lemma snapshot_claim_stored e d sn c :
  recovery_read e d = Ok sn -> c ∈ sn_assignments sn -> exists i, wake_claims d !! i = Some c.
Proof.
  intros (_ & _ & _ & _ & _ & _ & _ & _ & Hm & _)%recovery_read_ok Hc.
  apply mapM_ok in Hm. apply list_elem_of_lookup in Hc as [n Hn].
  destruct (Forall2_lookup_r _ _ _ _ _ Hm Hn) as (l & _ & [Hl _]%assignment_read_ok). eauto.
Qed.

(** ** Retry: the Python rule and the SQL view *)

Lemma forallb_retryable os :
  forallb ob_retryable os = negb (existsb (fun o => negb (ob_retryable o)) os).
Proof.
  induction os as [|o os IH]; simpl; [done|]. rewrite IH, negb_orb, negb_involutive. done.
Qed.

Lemma retry_basis_execution d e x :
  executions d !! e = Some x -> ex_id x = e ->
  retry_basis d e = execution_retry_authorized x (replay_assessments d !! e) (obligation_rows d e).
Proof.
  intros Hx Hid. unfold retry_basis, execution_retry_authorized, wire_retry_sql. rewrite Hx, Hid.
  unfold has_retry_budget, ex_ordinal, origin_retry_authorized.
  destruct (current_attempt_ordinal (ex_lifecycle x)) as [o|]; [|done]. simpl. f_equal; [f_equal|].
  - destruct (replay_assessments d !! e) as [r|]; [|done]. simpl.
    apply eq_true_iff_eq. by rewrite Z.eqb_eq, retry_authorized_column.
  - rewrite forallb_retryable. by destruct (wire_origin (ex_origin x)).
Qed.

(** The retry decision computed from a recovery snapshot is the decision of the SQL
    view the table guards consult. *)
Theorem retry_rule_agrees_with_view (d : DB) (e : string) (sn : RecoverySnapshot) :
  db_reachable d -> recovery_read e d = Ok sn -> sn_retry_authorized sn = retry_basis d e.
Proof.
  intros Hd (Hx & _ & Hrep & Hobs & _)%recovery_read_ok.
  pose proof (reachable_keyed d Hd _ _ declared_executions _ _ Hx) as Hid. simpl in Hid.
  rewrite (retry_basis_execution d e _ Hx Hid). unfold sn_retry_authorized. by rewrite Hrep, Hobs.
Qed.

(** ** The effect of each statement of [settle] *)

(** [d'] differs from [d] in its replay assessment of [e] at most. *)
Definition replay_only (e : string) (d d' : DB) : Prop :=
  exists m, d' = with_table (Row := ReplayAssessments) m d /\
    forall e', e' <> e -> m !! e' = replay_assessments d !! e'.

Lemma replay_only_refl e d : replay_only e d d.
Proof. exists (replay_assessments d). split; [by destruct d | done]. Qed.

Lemma accumulate_replay_only e observed s u s' :
  accumulate e observed s = (Ok u, s') -> replay_only e (db s) (db s').
Proof.
  unfold accumulate. intros H.
  apply bindM_ok in H as (stored & s1 & [[= <-] ->]%reading_ok & H).
  destruct (_ || _). { apply ret_ok in H as [_ ->]. apply replay_only_refl. }
  apply bindM_ok in H as ([] & s2 & [_ ->]%lift_ok & H).
  destruct (replay_assessments (db s) !! e) eqn:Er.
  - apply bindM_ok in H as (n & s3 & Hu & [_ ->]%ret_ok). apply update_ok in Hu as (d' & Hu & ->).
    apply exec_update_ok in Hu as [(_ & -> & _)|(_ & old & _ & _ & _ & Hw)];
      [apply replay_only_refl|].
    apply write_row_ok in Hw as (_ & _ & -> & _). simpl. eexists. split; [done|].
    intros e' Hne. by rewrite lookup_insert_ne.
  - apply insert_ok in H as (_ & d' & Hi & ->). apply exec_insert_replay in Hi as ->. simpl.
    eexists. split; [done|]. intros e' Hne. simpl. by rewrite lookup_insert_ne.
Qed.

Lemma settle_obligation_writes e response reason :
  writes_row (Row := ResponseObligation) (fun o : ResponseObligation => (e, ob_target o))
    (fun r => ob_lifecycle r = response) (settle_obligation e response reason).
Proof.
  intros o s u s' H. unfold settle_obligation in H.
  apply bindM_ok in H as (t & s1 & (_ & _ & Hdb & _)%now_ok & H).
  apply bindM_ok in H as (n & s2 & Hu & [_ ->]%ret_ok).
  apply update_writes in Hu. rewrite Hdb in Hu. destruct Hu as [Hu|(old & Hold & Hu)]; [by left|].
  right. eexists. split; [by eexists|]. split; [|exact Hu]. done.
Qed.

Lemma settle_claim_writes kind :
  writes_row (Row := WakeAssignment) wa_id (fun r => wa_disposition r = assignment_state kind) (settle_claim kind).
Proof.
  intros c s u s' H. unfold settle_claim in H.
  apply bindM_ok in H as (life & s0 & [Hlife ->]%lift_ok & H).
  apply bindM_ok in H as (t & s1 & (_ & _ & Hdb & _)%now_ok & H).
  apply bindM_ok in H as (n & s2 & Hu & [_ ->]%ret_ok).
  apply update_writes in Hu. rewrite Hdb in Hu. destruct Hu as [Hu|(old & Hold & Hu)]; [by left|].
  right. eexists. split; [by eexists|]. split; [|exact Hu].
  by apply assignment_build_wf in Hlife as [_ ?].
Qed.

(** The database after the two row updates that precede the loops *)
Definition settled_rows (sn : RecoverySnapshot) (t : TerminalPhase) (reason : ReasonCode)
    (a : AttemptRecord) (x' : ExecutionRecord) (time : Z) (d : DB) : DB :=
  with_table (Row := ExecutionRecord) (<[ex_id (sn_execution sn) := x']> (executions d))
    (with_table (Row := AttemptRecord)
       (<[(ex_id (sn_execution sn), at_ordinal a) :=
            attempt_set (TerminalAttempt t) (at_revision a + 1) time (Some reason) a]> (attempts d)) d).

(** What an outcome adds to the assessment of its execution: nothing, or facts that deny a retry *)
Definition assessment_after (t : TerminalPhase) (e : string) (d d' : DB) : Prop :=
  (replay_contribution t = 0 -> replay_assessments d' !! e = replay_assessments d !! e) /\
  (replay_contribution t <> 0 -> exists r, replay_assessments d' !! e = Some r /\ ra_allows_retry r = false).

(** The checks and the row updates of a settlement that succeeds. *)
Lemma settle_prefix sn t reason boundary s u s' e :
  db_reachable (db s) -> recovery_read e (db s) = Ok sn ->
  settle sn t reason boundary s = (Ok u, s') ->
  exists a st rs time dr s1,
    sn_attempt sn = Some a /\ sn_is_current sn = true /\ sn_intents sn = [] /\
    attempt_backend_done (at_lifecycle a) = true /\ attempt_process_dead (at_lifecycle a) = true /\
    disposition t sn a = Ok (st, rs) /\ boundary sn t = Ok tt /\
    replay_only e (db s) dr /\
    assessment_after t e (db s) dr /\
    (let x' := execution_set st (ex_revision (sn_execution sn) + 1) time (Some reason)
                (sn_execution sn) in
     execution_update_guard
       (with_table (Row := AttemptRecord)
          (<[(e, at_ordinal a) := attempt_set (TerminalAttempt t) (at_revision a + 1) time
               (Some reason) a]> (attempts dr)) dr) (sn_execution sn) x' = false /\
     db s1 = settled_rows sn t reason a x' time dr) /\
    settle_coupled sn st rs reason s1 = (Ok u, s').
Proof.
  intros Hd Hread H. pose proof (recovery_read_ok _ _ _ Hread) as (Hx & Hatt & _ & _ & _ & _ & _ & _ & _ & Hpost).
  pose proof (reachable_keyed _ Hd _ _ declared_executions _ _ Hx) as Hid. simpl in Hid.
  unfold settle in H.
  apply bindM_ok in H as (u0 & s0 & [Hint ->]%lift_ok & H). apply refuse_ok in Hint.
  apply bindM_ok in H as (a & s2 & [Ha ->]%lift_ok & H). apply of_option_ok in Ha.
  apply bindM_ok in H as (u1 & s3 & [Hfin ->]%lift_ok & H). apply refuse_ok in Hfin. bools.
  apply bindM_ok in H as (u2 & s4 & Hacc & H).
  apply bindM_ok in H as ([st rs] & s5 & [Hdisp ->]%lift_ok & H).
  apply bindM_ok in H as ([] & s6 & [Hbound ->]%lift_ok & H).
  apply bindM_ok in H as (time & s7 & (_ & _ & Hdb7 & _)%now_ok & H).
  apply bindM_ok in H as (n1 & s8 & Hup1 & H). apply bindM_ok in H as (n2 & s9 & Hup2 & H).
  rewrite Hid in *. simpl in Hup2, H.
  pose proof (accumulate_replay_only _ _ _ _ _ Hacc) as Hrep. destruct Hrep as (m & Hs4 & Hm).
  assert (Ha' : attempts (db s) !! (e, at_ordinal a) = Some a).
  { rewrite Ha in Hatt. destruct (ex_ordinal (sn_execution sn)) as [o|]; [|done]. simpl in Hatt.
    symmetry in Hatt. pose proof (reachable_keyed _ Hd _ _ declared_attempts _ _ Hatt) as Hk.
    simpl in Hk. injection Hk as Hk1 Hk2. congruence. }
  apply update_row_ok with (old := a) in Hup1 as (_ & _ & Hs8 & _); [|by rewrite Hdb7, Hs4|done].
  apply update_row_ok with (old := sn_execution sn) in Hup2 as (Hg & _ & Hs9 & _);
    [|by rewrite Hs8, Hdb7, Hs4|done].
  exists a, st, rs, time, (db s4), s9. rewrite Hs9, Hs8, Hdb7 in *.
  split_and!; try done.
  - by destruct (sn_intents sn).
  - by exists m.
  - split.
    + intros Hzero. unfold accumulate in Hacc. apply bindM_ok in Hacc as (stored & sr & [_ ->]%reading_ok & Hacc).
      rewrite Hzero in Hacc. by apply ret_ok in Hacc as [_ ->].
    + intros Hne. destruct (accumulate_ok _ _ _ _ _ Hacc Hne) as (r & Hr & _ & Hsafe & _).
      exists r. split; [done|]. unfold ra_allows_retry. by rewrite Hsafe.
  - unfold settled_rows. by rewrite Hid.
Qed.

Lemma retryable_not_successful k : response_retryable k = true -> response_successful k = false.
Proof. by destruct k. Qed.

Lemma disposition_succeeded sn a st rs :
  disposition Succeeded sn a = Ok (st, rs) ->
  st = CompletedExecution (at_ordinal a) /\ rs = SilentResponse /\
  (exists l b x, at_lifecycle a = LiveAttempt Settling l b x) /\
  Forall (fun o => ob_retryable o = true) (sn_obligations sn).
Proof.
  unfold disposition. intros H. apply bind_ok_inv in H as ([] & Hset & H).
  apply bind_ok_inv in H as ([] & Hnon & H). apply bind_ok_inv in H as (c & Hc & [= <- <-]).
  unfold attempt_execution in Hc. ok_inv. split_and!; try done.
  - destruct (at_lifecycle a) as [[] lease fin dead|]; try done. eauto.
  - apply each_ok in Hnon. eapply Forall_impl; [exact Hnon|]. intros o Ho.
    by apply require_ok in Ho.
Qed.

(** A wire execution cannot be settled silently: its row would become [completed] while
    its obligations are still open, which the schema refuses. *)
Lemma silent_wire_settlement_stops sn reason boundary s e r s' :
  db_reachable (db s) -> recovery_read e (db s) = Ok sn ->
  wire_origin (ex_origin (sn_execution sn)) = true ->
  settle sn Succeeded reason boundary s = (r, s') -> exists err, r = Err err.
Proof.
  intros Hd Hread Hwire H. destruct r as [u|err]; [exfalso | by eauto].
  destruct (settle_prefix _ _ _ _ _ _ _ _ Hd Hread H)
    as (a & st & rs & time & dr & s1 & _ & _ & _ & _ & _ & Hdisp & _ & Hrep & _ & (Hg & _) & _).
  pose proof (recovery_read_ok _ _ _ Hread) as (Hx & _ & _ & Hobs & _).
  pose proof (reachable_keyed _ Hd _ _ declared_executions _ _ Hx) as Hid. simpl in Hid.
  apply disposition_succeeded in Hdisp as (-> & _ & _ & Hopen).
  apply execution_update_ok in Hg as (_ & _ & _ & _ & _ & Hlife).
  destruct Hrep as (m & -> & _). unfold execution_lifecycle_guard in Hlife. simpl in Hlife.
  rewrite Hwire, Hid in Hlife. unfold ex_status in Hlife. simpl in Hlife.
  rewrite orb_false_r in Hlife. unfold obligation_rows in Hlife. simpl in Hlife.
  fold (obligation_rows (db s) e) in Hlife. rewrite <- Hobs in Hlife.
  destruct (sn_obligations sn) as [|o os]; [done|]. simpl in Hlife.
  apply Forall_cons in Hopen as [Ho _]. unfold ob_success_terminal in Hlife.
  rewrite (retryable_not_successful _ Ho) in Hlife. done.
Qed.

(** Everything a settlement leaves alone: the rows of other executions, other attempts, other
    owners and other claims, and the tables it never writes. *)
Record untouched (sn : RecoverySnapshot) (d d' : DB) : Prop := mkUntouched {
  same_participants : participants d' = participants d;
  same_generations : owner_generations d' = owner_generations d;
  same_links : execution_claims d' = execution_claims d;
  same_intents : publication_intents d' = publication_intents d;
  same_receipts : publication_receipts d' = publication_receipts d;
  same_dispatches : append_dispatches d' = append_dispatches d;
  same_audits : recovery_audits d' = recovery_audits d;
  same_deliveries : harness_deliveries d' = harness_deliveries d;
  same_private : private_tables d' = private_tables d;
  same_executions : forall e, e <> ex_id (sn_execution sn) -> executions d' !! e = executions d !! e;
  same_attempts : forall e o, (e, Some o) <> (ex_id (sn_execution sn), ex_ordinal (sn_execution sn)) ->
    attempts d' !! (e, o) = attempts d !! (e, o);
  same_obligations : forall e t, e <> ex_id (sn_execution sn) ->
    obligations d' !! (e, t) = obligations d !! (e, t);
  same_replays : forall e, e <> ex_id (sn_execution sn) ->
    replay_assessments d' !! e = replay_assessments d !! e;
  same_pointers : forall w, w <> ex_owner (sn_execution sn) ->
    current_executions d' !! w = current_executions d !! w;
  same_claims : forall i, (forall c, c ∈ sn_assignments sn -> i <> wa_id c) ->
    wake_claims d' !! i = wake_claims d !! i;
}.

(** The coupled loops and the pointer, from any state *)
Lemma settle_coupled_ok sn st rs reason s u s' p :
  settle_coupled sn st rs reason s = (Ok u, s') ->
  current_executions (db s) !! ex_owner (sn_execution sn) = Some p ->
  exists mo mc,
    db s' = with_table (Row := CurrentExecutions)
      (<[ex_owner (sn_execution sn) := pointer_set None None (sn_pointer_revision sn + 1) p]>
         (current_executions (db s)))
      (with_table (Row := WakeAssignment) mc (with_table (Row := ResponseObligation) mo (db s))) /\
    (forall k, (forall o, o ∈ sn_obligations sn -> k <> (ex_id (sn_execution sn), ob_target o)) ->
       mo !! k = obligations (db s) !! k) /\
    (forall o, o ∈ sn_obligations sn ->
       is_Some (obligations (db s) !! (ex_id (sn_execution sn), ob_target o)) ->
       exists o', mo !! (ex_id (sn_execution sn), ob_target o) = Some o' /\ ob_lifecycle o' = rs) /\
    (forall i, (forall c, c ∈ sn_assignments sn -> i <> wa_id c) ->
       mc !! i = wake_claims (db s) !! i) /\
    (forall c, c ∈ sn_assignments sn -> is_Some (wake_claims (db s) !! wa_id c) ->
       exists c', mc !! wa_id c = Some c' /\
         wa_disposition c' = assignment_state (execution_kind st)).
Proof.
  unfold settle_coupled. intros H Hp.
  apply bindM_ok in H as (u1 & s1 & Hobs & H). apply bindM_ok in H as (u2 & s2 & Hcl & H).
  apply bindM_ok in H as (n & s3 & Hup & [_ ->]%ret_ok).
  destruct (row_loop_ok _ _ _ _ _ _ _ (settle_obligation_writes _ _ _) Hobs)
    as (mo & Hs1 & Hfo & Hro).
  destruct (row_loop_ok _ _ _ _ _ _ _ (settle_claim_writes _) Hcl) as (mc & Hs2 & Hfc & Hrc).
  apply update_row_ok with (old := p) in Hup as (_ & _ & Hs3 & _); [|by rewrite Hs2, Hs1|done].
  exists mo, mc. rewrite Hs3, Hs2, Hs1 in *. simpl in *. split_and!; try done.
Qed.

Lemma obligation_of_rows d e o :
  keyed (Row := ResponseObligation) d -> o ∈ obligation_rows d e ->
  obligations d !! (e, ob_target o) = Some o.
Proof.
  intros Hkey (t & Ho)%elem_of_select_rows. pose proof (Hkey _ _ Ho) as Hk. simpl in Hk.
  by injection Hk as <- <-.
Qed.

(** A snapshot's attempt carries the execution's ordinal. *)
Lemma snapshot_ordinal d e sn o a :
  db_reachable d -> recovery_read e d = Ok sn -> ex_ordinal (sn_execution sn) = Some o ->
  sn_attempt sn = Some a -> at_ordinal a = o.
Proof.
  intros Hd (_ & Hatt & _)%recovery_read_ok Ho Ha. rewrite Ho, Ha in Hatt. simpl in Hatt.
  pose proof (reachable_keyed d Hd _ _ declared_attempts _ _ (eq_sym Hatt)) as Hk. simpl in Hk.
  by injection Hk.
Qed.

(** A settlement that succeeds writes exactly its own execution, atomically consistent. *)
Lemma settle_effect sn t reason boundary s u s' e :
  db_reachable (db s) -> recovery_read e (db s) = Ok sn ->
  settle sn t reason boundary s = (Ok u, s') ->
  exists a st rs,
    sn_attempt sn = Some a /\ disposition t sn a = Ok (st, rs) /\
    (exists a', attempts (db s') !! (e, at_ordinal a) = Some a' /\
       at_lifecycle a' = TerminalAttempt t /\ at_revision a' = at_revision a + 1) /\
    (exists x', executions (db s') !! e = Some x' /\ ex_lifecycle x' = st /\
       ex_revision x' = ex_revision (sn_execution sn) + 1) /\
    (exists p', current_executions (db s') !! ex_owner (sn_execution sn) = Some p' /\
       ptr_execution p' = None /\ ptr_attempt p' = None /\
       ptr_revision p' = sn_pointer_revision sn + 1) /\
    (forall o, o ∈ sn_obligations sn -> exists o', obligations (db s') !! (e, ob_target o) = Some o' /\
       ob_lifecycle o' = rs) /\
    (forall c, c ∈ sn_assignments sn -> exists c', wake_claims (db s') !! wa_id c = Some c' /\
       wa_disposition c' = assignment_state (execution_kind st)) /\
    assessment_after t e (db s) (db s') /\
    untouched sn (db s) (db s').
Proof.
  intros Hd Hread H.
  destruct (settle_prefix _ _ _ _ _ _ _ _ Hd Hread H)
    as (a & st & rs & time & dr & s1 & Ha & _ & _ & _ & _ & Hdisp & _ & (m & -> & Hm) & Hno & (_ & Hs1) & Hc).
  pose proof (recovery_read_ok _ _ _ Hread)
    as (Hx & Hatt & _ & Hobs & _ & _ & (p & Hp & _) & _).
  pose proof (reachable_keyed _ Hd) as Hkey. pose proof (Hkey _ _ declared_executions _ _ Hx) as Hid.
  simpl in Hid. apply participant_read_at_ok in Hp as (_ & _ & Hp & _).
  apply settle_coupled_ok with (p := ps_pointer p) in Hc
    as (mo & mc & Hdb & Hfo & Hro & Hfc & Hrc); [|by rewrite Hs1].
  rewrite Hs1 in *. rewrite Hdb. unfold settled_rows in *. rewrite Hid in *. simpl in *.
  exists a, st, rs. split_and!; try done.
  - rewrite lookup_insert_eq. eexists. split; [done|]. done.
  - rewrite lookup_insert_eq. eexists. split; [done|]. done.
  - rewrite lookup_insert_eq. eexists. split; [done|]. done.
  - intros o Ho. apply Hro; [done|]. rewrite Hobs in Ho.
    rewrite (obligation_of_rows _ _ _ (Hkey _ _ declared_obligations) Ho). by eexists.
  - intros c Hin. apply Hrc; [done|]. destruct (snapshot_claim_stored _ _ _ _ Hread Hin) as [i Hi].
    pose proof (Hkey _ _ declared_claims _ _ Hi) as Hki. simpl in Hki. rewrite Hki, Hi. by eexists.
  - split; simpl; try done; rewrite ?Hid.
    + intros e' Hne. by rewrite lookup_insert_ne.
    + intros e' o Hne. rewrite lookup_insert_ne; [done|]. intros [= <- <-]. apply Hne.
      destruct (ex_ordinal (sn_execution sn)) as [o'|] eqn:Ho; [|rewrite Ha in Hatt; done].
      by rewrite (snapshot_ordinal _ _ _ _ _ Hd Hread Ho Ha).
    + intros e' t' Hne. apply Hfo. intros o _. congruence.
    + intros e' Hne. by rewrite Hm.
    + intros w Hne. by rewrite lookup_insert_ne.
Qed.
