(* ===== verification/ExecutionStore.v ===== *)
(** * Execution store

    Models [execution_store.py] and the capture of a [SelectedSource] in
    [selected_source_batch.py] and [coordination/tables/assignments.py]: creating an
    execution from its original deliveries, releasing it to run, and failing it before
    any attempt. *)

From stdpp Require Import base gmap strings list sorting.
From Stdlib Require Import ZArith Lia.
From S2P Require Import Prelude Contracts Lifecycle WakePolicy AssignmentStates ResponseStates.
From S2P Require Import AttemptStates ExecutionStates Rows TableGuards Database Session SchemaSteps.
From S2P Require Import SchemaInvariants Replay Stepwise ParticipantStore AssignmentStore.
From S2P Require Import Snapshot Settlement Delivery.

(** ** Selected sources *)

(** A [SelectedSource]; [src_own_store] says that it captured this very store. *)
Record SelectedSource : Type := mkSelectedSource {
  src_assignment_id : string;
  src_own_store : bool;
  src_delivery : Delivered;
}.

Definition recipient_identity (c : WakeAssignment) : FrozenRecipient :=
  mkFrozenRecipient (wa_lookup c) (wa_recipient c).

(** [WakeAssignment.require_committed_source] *)
Definition require_committed_source (c : WakeAssignment) (initial : Delivered) : outcome unit :=
  _ ← refuse (negb (bool_decide (wa_source c = msg_reference (dl_message initial))))
      (IdentityConflict "wake frame does not match a committed source");
  let expected := WakeDecision (wa_lookup c) (wa_audience c) (assignment_mode (wa_lifecycle c)) in
  _ ← refuse (negb (bool_decide (length (dl_recipients initial) = length (dl_decisions initial))))
      (ValueError "zip() argument 2 has another length than argument 1");
  refuse (negb (bool_decide (length (List.filter (fun rd : FrozenRecipient * RecipientDecision =>
             bool_decide (rd.1 = recipient_identity c) && bool_decide (rd.2 = expected))
           (zip (dl_recipients initial) (dl_decisions initial))) = 1%nat)))
    (IdentityConflict "wake frame requires one selected N/K recipient").

(** [WakeAssignment.require_selected_source] *)
Definition require_selected_source (c : WakeAssignment) (initial : Delivered)
    (owner : FrozenRecipient) : outcome unit :=
  _ ← refuse (negb (bool_decide (recipient_identity c = owner)))
      (IdentityConflict "wake frame does not match a committed recipient");
  require_committed_source c initial.

(** [SelectedSource.assignment] *)
Definition source_assignment (source : SelectedSource) (d : DB) : outcome WakeAssignment :=
  current ← assignment_read (src_assignment_id source) d;
  _ ← require_committed_source current (src_delivery source);
  Ok current.

(** ** Creation *)

(** The keys of a dict filled by [setdefault]: first occurrences, in order *)
Definition dict_keys (xs : list string) : list string := rev (remove_dups (rev xs)).

(** Python's order on [str] *)
Definition text_le (a b : string) : Prop := String.leb a b = true.
#[export] Instance text_le_dec : RelDecision text_le.
Proof. intros a b. unfold text_le. apply _. Defined.

(** [tuple(sorted(set(xs)))] *)
Definition sorted_set (xs : list string) : list string :=
  merge_sort text_le (remove_dups xs).

Definition reply_targets (sources : list SelectedSource) : list string :=
  map (fun s => dl_reply_target (src_delivery s)) sources.

(** One source of the engagement loop of [_create] *)
Definition engage_source (execution_id owner_lookup : string) (item : Z * (SelectedSource * WakeAssignment))
    : M unit :=
  let '(ordinal, (source, assignment)) := item in
  let target := dl_reply_target (src_delivery source) in
  _ ← lift (require_engageable (wa_lifecycle assignment));
  _ ← lift (refuse (negb (bool_decide (wa_lookup assignment = owner_lookup))
                    || pointed (assignment_execution_id (wa_lifecycle assignment)))
              (IdentityConflict "claim cannot engage this execution"));
  decision ← lift (assignment_build EngagedKind (assignment_mode (wa_lifecycle assignment))
                     (Some execution_id) (Some target));
  updated ← now (wa_updated assignment);
  count ← update (Row := WakeAssignment) (src_assignment_id source)
      (fun r => wa_revision r =? wa_revision assignment)
      (claim_set decision (wa_revision assignment + 1) updated);
  _ ← lift (refuse (negb (count =? 1)) (StaleRevision "original claim changed during engagement"));
  insert (mkExecutionAssignmentLink execution_id (src_assignment_id source) ordinal).

Definition enumerate {A : Type} (xs : list A) : list (Z * A) := imap (fun n x => (Z.of_nat n, x)) xs.

(** The existing execution's identity, in [_create] *)
Definition same_creation (sn : RecoverySnapshot) (origin : ExecutionProvenance) (owner_lookup : string)
    (max_attempts : Z) (sources : list SelectedSource) : bool :=
  let e := sn_execution sn in
  bool_decide ((ex_origin e, ex_owner e, ex_max_attempts e,
                merge_sort text_le (map ob_target (sn_obligations sn)),
                map ln_assignment (sn_links sn))
               = (origin, owner_lookup, max_attempts, sorted_set (reply_targets sources),
                  map src_assignment_id sources)).

(** The part of [_create] that inserts a new execution *)
Definition create_new (execution_id : string) (origin : ExecutionProvenance) (owner_lookup : string)
    (max_attempts : Z) (sources : list SelectedSource) (assignments : list WakeAssignment)
    : M (applied RecoverySnapshot) :=
  participant ← participant_get owner_lookup;
  _ ← lift (refuse (negb (ps_committed participant))
              (IdentityConflict "execution requires committed current owner"));
  _ ← lift (refuse (max_attempts <=? 0) (ValueError "max_attempts must be positive"));
  _ ← lift (refuse (negb (bool_decide (NoDup (map src_assignment_id sources))))
              (IdentityConflict "duplicate claim membership"));
  t ← now 0;
  _ ← insert (mkExecutionRecord execution_id origin QueuedExecution owner_lookup 1 max_attempts
                NoReasonCode t t);
  _ ← for_each (engage_source execution_id owner_lookup) (enumerate (zip sources assignments));
  _ ← for_each (fun target => insert (mkResponseObligation execution_id target PendingResponse
                                        NoReasonCode t t 1)) (dict_keys (reply_targets sources));
  snapshot ← recovery_get execution_id;
  mret (Applied snapshot).

(** [ExecutionStore._create] *)
Definition create_in (execution_id : string) (origin : ExecutionProvenance) (owner_lookup : string)
    (max_attempts : Z) (sources : list SelectedSource) (assignments : list WakeAssignment)
    : M (applied RecoverySnapshot) :=
  _ ← lift (refuse (existsb (fun s => negb (src_own_store s)) sources)
              (IdentityConflict "execution source belongs to another assignment store"));
  _ ← lift (require_sources origin sources);
  row ← reading (one (Row := ExecutionRecord) execution_id);
  match row with
  | Some _ =>
      snapshot ← recovery_get execution_id;
      _ ← lift (refuse (negb (same_creation snapshot origin owner_lookup max_attempts sources))
                  (IdentityConflict "execution identity conflicts"));
      mret (AlreadyApplied snapshot)
  | None => create_new execution_id origin owner_lookup max_attempts sources assignments
  end.

(** [ExecutionStore.create] *)
Definition create (execution_id : string) (origin : ExecutionProvenance) (owner_lookup : string)
    (max_attempts : Z) (sources : list SelectedSource) : M (applied RecoverySnapshot) :=
  writing (
    assignments ← reading (fun d => mapM (fun s => source_assignment s d) sources);
    create_in execution_id origin owner_lookup max_attempts sources assignments).

(** [ExecutionStore.create_after_triage] *)
Definition create_after_triage (execution_id : string) (origin : ExecutionProvenance)
    (owner_lookup : string) (max_attempts : Z) (sources : list SelectedSource)
    (settled : list WakeAssignment) : M (applied RecoverySnapshot) :=
  writing (
    assignments ← reading (fun d => mapM (fun s => source_assignment s d) sources);
    _ ← lift (refuse (negb (bool_decide (assignments = settled)))
                (StaleRevision "original claims changed after proved native settlement"));
    create_in execution_id origin owner_lookup max_attempts sources assignments).

(** ** Release and early failure *)

(** [ExecutionStore.mark_pending] *)
Definition mark_pending (execution_id : string) (expected_revision : Z) : M (applied RecoverySnapshot) :=
  writing (
    snapshot ← recovery_get execution_id;
    let execution := sn_execution snapshot in
    _ ← lift (refuse (negb (ex_revision execution =? expected_revision))
                (StaleRevision "execution revision changed"));
    _ ← lift (refuse (negb (exec_queued (ex_status execution)))
                (IdentityConflict "only queued executions can become pending"));
    updated ← now (ex_updated execution);
    _ ← update (Row := ExecutionRecord) execution_id (fun r => ex_revision r =? expected_revision)
        (execution_set PendingExecution (expected_revision + 1) updated None);
    after ← recovery_get execution_id;
    mret (Applied after)).

(** [ExecutionStore.fail_unstarted] *)
Definition fail_unstarted (execution_id : string) (expected_revision : Z) (reason : ReasonCode)
    : M (applied RecoverySnapshot) :=
  writing (
    before ← recovery_get execution_id;
    let execution := sn_execution before in
    _ ← lift (refuse (negb (ex_revision execution =? expected_revision))
                (StaleRevision "execution revision changed"));
    _ ← lift (refuse (negb (exec_unstarted (ex_status execution)))
                (IdentityConflict "unstarted failure requires queued/pending work"));
    t ← now (ex_updated execution);
    _ ← update (Row := ExecutionRecord) execution_id always
        (execution_set (FailedExecution None) (ex_revision execution + 1) t (Some reason));
    _ ← for_each (settle_obligation execution_id FailedResponse reason) (sn_obligations before);
    _ ← for_each (settle_claim FailedExec) (sn_assignments before);
    after ← recovery_get execution_id;
    mret (Applied after)).

(** ** Facts *)

Lemma stepwise_engage_source e w item : stepwise (engage_source e w item).
Proof. destruct item as [o [src a]]. unfold engage_source. stepwise. Qed.
#[export] Hint Resolve stepwise_engage_source : stepwise.

Lemma stepwise_create_in e origin w n sources assignments :
  stepwise (create_in e origin w n sources assignments).
Proof. unfold create_in, create_new, participant_get. stepwise. Qed.
#[export] Hint Resolve stepwise_create_in : stepwise.

Lemma stepwise_create e origin w n sources : stepwise (create e origin w n sources).
Proof. unfold create. stepwise. Qed.
Lemma stepwise_mark_pending e rev : stepwise (mark_pending e rev).
Proof. unfold mark_pending. stepwise. Qed.
Lemma stepwise_fail_unstarted e rev reason : stepwise (fail_unstarted e rev reason).
Proof. unfold fail_unstarted. stepwise. Qed.
#[export] Hint Resolve stepwise_create stepwise_mark_pending stepwise_fail_unstarted : stepwise.
