(* ===== verification/AttemptStore.v ===== *)
(** * Attempt store

    Models [owner_fence.py], [attempt_start.py], [AttemptRecord.advance] of
    [coordination/tables/attempts.py] and [attempt_store.py]: the fence an owner holds on
    its running attempt, and every operation made under it. *)

From stdpp Require Import base gmap strings list sorting.
From Stdlib Require Import ZArith Lia.
From S2P Require Import Prelude Contracts Lifecycle WakePolicy AssignmentStates ResponseStates.
From S2P Require Import AttemptStates ExecutionStates Rows TableGuards Database Session SchemaSteps.
From S2P Require Import SchemaInvariants Replay Stepwise ParticipantStore AssignmentStore.
From S2P Require Import Snapshot Settlement ExecutionStore Sha256.

(** ** Fences *)

(** [_digest] *)
Definition token_digest (token : string) : outcome string :=
  _ ← refuse (negb ((1 <=? len token) && (len token <=? MAX_IDENTIFIER_CHARS)))
      (ValueError "invalid retained fence token");
  Ok (Sha256.sha256_hex token).

Record AttemptAuthority : Type := mkAttemptAuthority {
  aa_execution : string;
  aa_ordinal : Z;
  aa_owner : string;
  aa_generation : Z;
  aa_digest : string;
}.

#[export] Instance AttemptAuthority_eq_dec : EqDecision AttemptAuthority.
Proof. solve_decision. Defined.

Record OwnerFence : Type := mkOwnerFence {
  of_execution : string;
  of_ordinal : Z;
  of_owner : string;
  of_generation : Z;
  of_revision : Z;
  of_token : string;
}.

#[export] Instance OwnerFence_eq_dec : EqDecision OwnerFence.
Proof. solve_decision. Defined.

(** [OwnerFence.__post_init__] *)
Definition fence_post_init (f : OwnerFence) : outcome unit :=
  _ ← validate_execution_id (of_execution f);
  _ ← require_nonempty (of_token f) "token";
  _ ← require_bounded (Some (of_token f)) "token" MAX_IDENTIFIER_CHARS;
  refuse (Z.min (Z.min (of_ordinal f) (of_generation f)) (of_revision f) <=? 0)
    (ValueError "fence ordinal, generation and revision must be positive").

Definition fence_authority (f : OwnerFence) : outcome AttemptAuthority :=
  digest ← token_digest (of_token f);
  Ok (mkAttemptAuthority (of_execution f) (of_ordinal f) (of_owner f) (of_generation f) digest).

(** [AttemptRecord.authority] *)
Definition attempt_authority (a : AttemptRecord) : AttemptAuthority :=
  mkAttemptAuthority (at_execution a) (at_ordinal a) (at_owner a) (at_generation a) (at_digest a).

(** [dataclasses.replace(fence, revision=...)] *)
Definition fence_replace (f : OwnerFence) (revision : Z) : outcome OwnerFence :=
  let f' := mkOwnerFence (of_execution f) (of_ordinal f) (of_owner f) (of_generation f) revision
              (of_token f) in
  _ ← fence_post_init f'; Ok f'.

(** ** Starting *)

Definition INITIAL_LEASE_DURATION_MS : Z := 60000.

Record AttemptStart : Type := mkAttemptStart {
  st_execution : string;
  st_ordinal : Z;
  st_owner : string;
  st_generation : Z;
  st_token : string;
  st_execution_revision : Z;
  st_pointer_revision : Z;
}.

(** [AttemptStart.fence] *)
Definition start_fence (st : AttemptStart) (revision : Z) : outcome OwnerFence :=
  let f := mkOwnerFence (st_execution st) (st_ordinal st) (st_owner st) (st_generation st) revision
             (st_token st) in
  _ ← fence_post_init f; Ok f.

(** [AttemptStart.replayed_fence] *)
Definition replayed_fence (st : AttemptStart) (sn : RecoverySnapshot) (old : AttemptRecord)
    : outcome OwnerFence :=
  _ ← refuse (negb (bool_decide
        ((at_ordinal old, at_owner old, at_generation old, ex_created (sn_execution sn) <=? at_created old)
         = (st_ordinal st, st_owner st, st_generation st, true))))
      (IdentityConflict "prepared token is bound to a different attempt");
  start_fence st (at_revision old).

(** [AttemptStart.validate] *)
Definition validate_start (st : AttemptStart) (sn : RecoverySnapshot) (p : ParticipantSnapshot)
    : outcome unit :=
  let execution := sn_execution sn in
  let ordinal := next_attempt_ordinal (ex_lifecycle execution) in
  _ ← refuse (negb (ps_committed p)
              || negb (bool_decide ((og_lookup (ps_owner p), og_generation (ps_owner p))
                                    = (st_owner st, st_generation st))))
      (StaleFence "owner lookup or generation changed");
  _ ← refuse (negb (bool_decide ((ex_revision execution, ptr_revision (ps_pointer p))
                                 = (st_execution_revision st, st_pointer_revision st))))
      (StaleRevision "execution or pointer revision changed");
  _ ← require_idle (ps_pointer p);
  _ ← require_attempt_start (ex_lifecycle execution);
  _ ← refuse (nonempty (sn_intents sn))
      (PublicationUncertain "no authorized bus-keyed publication resolution");
  _ ← require_retry_start sn;
  _ ← refuse (negb (ordinal =? st_ordinal st))
      (IdentityConflict "attempt ordinal must be contiguous");
  _ ← refuse (ex_max_attempts execution <? ordinal) (RecoveryBlocked "retry budget exhausted");
  require_newer_owner sn (st_generation st).

(** [AttemptStart.activate] *)
Definition activate (st : AttemptStart) (sn : RecoverySnapshot) : M unit :=
  let execution := sn_execution sn in
  created ← now (ex_updated execution);
  let lease := created + INITIAL_LEASE_DURATION_MS in
  digest ← lift (token_digest (st_token st));
  lifecycle ← lift (live_attempt PromptStarting (Some lease) false false);
  _ ← insert (mkAttemptRecord (st_execution st) (st_ordinal st) (ex_owner execution)
                (st_generation st) digest lifecycle 1 None NoReasonCode created created);
  active ← lift (attempt_execution ActiveExecution (st_ordinal st));
  _ ← update (Row := ExecutionRecord) (st_execution st) always
      (execution_set active (ex_revision execution + 1) created (Some NoReasonCode));
  pointed_id ← lift (pointed_execution (st_execution st));
  pointed_ordinal ← lift (pointed_attempt (st_ordinal st));
  _ ← update (Row := CurrentExecutions) (ex_owner execution) always
      (pointer_set pointed_id pointed_ordinal (sn_pointer_revision sn + 1));
  mret tt.

(** [ResponseState.resume_response]: only a deferred response reengages. *)
Definition resume_response (execution_id : string) (o : ResponseObligation) : M unit :=
  match ob_lifecycle o with
  | DeferredResponse =>
      t ← now (ob_updated o);
      _ ← update (Row := ResponseObligation) (execution_id, ob_target o) always
          (obligation_set PendingResponse (ob_revision o + 1) t (Some NoReasonCode));
      mret tt
  | _ => mret tt
  end.

Definition reengage_claim (c : WakeAssignment) : M unit :=
  lifecycle ← lift (assignment_build EngagedKind (assignment_mode (wa_lifecycle c))
                      (assignment_execution_id (wa_lifecycle c))
                      (assignment_exact_target (wa_lifecycle c)));
  t ← now (wa_updated c);
  _ ← update (Row := WakeAssignment) (wa_id c) always (claim_set lifecycle (wa_revision c + 1) t);
  mret tt.

(** [AttemptStore._resume_retry] *)
Definition resume_retry (sn : RecoverySnapshot) (st : AttemptStart) : M unit :=
  _ ← for_each (resume_response (st_execution st)) (sn_obligations sn);
  if exec_retry (ex_status (sn_execution sn)) then for_each reengage_claim (sn_assignments sn)
  else mret tt.

Record StartResult : Type := mkStartResult {
  sr_snapshot : RecoverySnapshot;
  sr_fence : OwnerFence;
}.

(** [AttemptRecord.one(db, **key)] for a key that is not the primary key *)
Definition attempt_one (matching : AttemptRecord -> bool) (d : DB) : outcome (option AttemptRecord) :=
  let stored := List.filter matching (map snd (map_to_list (attempts d))) in
  _ ← each attempt_post_init (take 2 stored);
  match stored with
  | [] => Ok None
  | [a] => Ok (Some a)
  | _ => Err (MalformedRecord "Expected one attempts")
  end.

Definition issued_to (digest execution_id : string) (a : AttemptRecord) : bool :=
  bool_decide (at_execution a = execution_id) && bool_decide (at_digest a = digest).
Definition issued (digest : string) (a : AttemptRecord) : bool := bool_decide (at_digest a = digest).

(** [AttemptStore.start] *)
Definition start (request : AttemptStart) : M (applied StartResult) :=
  digest ← lift (token_digest (st_token request));
  writing (
    snapshot ← recovery_get (st_execution request);
    old ← reading (attempt_one (issued_to digest (st_execution request)));
    match old with
    | Some a =>
        fence ← lift (replayed_fence request snapshot a);
        mret (AlreadyApplied (mkStartResult snapshot fence))
    | None =>
        other ← reading (attempt_one (issued digest));
        _ ← lift (refuse (pointed other)
                    (IdentityConflict "prepared fence token has already been issued"));
        participant ← participant_get (ex_owner (sn_execution snapshot));
        _ ← lift (validate_start request snapshot participant);
        _ ← activate request snapshot;
        _ ← resume_retry snapshot request;
        after ← recovery_get (st_execution request);
        fence ← lift (start_fence request 1);
        mret (Applied (mkStartResult after fence))
    end).

(** ** Under the fence *)

(** [AttemptStore.require_fence] *)
Definition fence_read (fence : OwnerFence) (d : DB) : outcome (RecoverySnapshot * AttemptRecord) :=
  snapshot ← recovery_read (of_execution fence) d;
  attempt ← require_current_attempt snapshot;
  authority ← fence_authority fence;
  _ ← refuse (negb (bool_decide (attempt_authority attempt = authority)))
      (StaleFence "attempt fence is not current");
  owner ← participant_read_at (at_owner attempt) d;
  _ ← refuse (negb (og_generation (ps_owner owner) =? at_generation attempt))
      (StaleFence "attempt fence is not current");
  _ ← refuse (negb (at_revision attempt =? of_revision fence))
      (StaleRevision "attempt fence revision changed");
  Ok (snapshot, attempt).

Definition require_fence (fence : OwnerFence) : M (RecoverySnapshot * AttemptRecord) :=
  reading (fence_read fence).

(** The assignments of the UPDATE of [AttemptRecord.advance] *)
Definition advanced (lifecycle : AttemptState) (revision t : Z) (progress : option Z)
    (reason : ReasonCode) (r : AttemptRecord) : AttemptRecord :=
  mkAttemptRecord (at_execution r) (at_ordinal r) (at_owner r) (at_generation r) (at_digest r)
    lifecycle revision progress reason (at_created r) t.

(** [AttemptRecord.advance] *)
Definition record_advance (self : AttemptRecord) (phase : AttemptKind)
    (backend_done process_dead progress : bool) (reason : ReasonCode) : M unit :=
  t ← now (at_updated self);
  lifecycle ← lift (observed (at_lifecycle self) phase backend_done process_dead progress);
  _ ← update (Row := AttemptRecord) (at_execution self, at_ordinal self) always
      (advanced lifecycle (at_revision self + 1) t (if progress then Some t else at_progress self)
         reason);
  mret tt.

Definition terminal_phase (phase : AttemptKind) : bool :=
  match phase with TerminalKind _ => true | LiveKind _ => false end.

(** [AttemptStore.advance] *)
Definition advance (fence : OwnerFence) (phase : AttemptKind) (expected_pointer_revision : Z)
    (backend_done process_dead progress : bool) (reason : ReasonCode) : M (applied StartResult) :=
  _ ← lift (refuse (terminal_phase phase)
              (IdentityConflict "terminal phases require atomic settlement"));
  writing (
    held ← require_fence fence;
    _ ← lift (refuse (negb (sn_pointer_revision held.1 =? expected_pointer_revision))
                (StaleRevision "pointer revision changed"));
    _ ← record_advance held.2 phase backend_done process_dead progress reason;
    after ← recovery_get (of_execution fence);
    attempt ← lift (require_attempt after);
    fence' ← lift (fence_replace fence (at_revision attempt));
    mret (Applied (mkStartResult after fence'))).

Definition native_unknown : ReasonCode := GivenReasonCode "native_unknown".

(** [AttemptStore.fail_unknown] *)
Definition fail_unknown (fence : OwnerFence) (expected_pointer_revision : Z) (boundary : Boundary)
    : M (applied RecoverySnapshot) :=
  writing (
    held ← require_fence fence;
    _ ← lift (refuse (negb (sn_pointer_revision held.1 =? expected_pointer_revision))
                (StaleRevision "pointer revision changed"));
    _ ← lift (refuse (nonempty (sn_intents held.1))
                (PublicationUncertain "UNKNOWN failure cannot resolve frozen publication"));
    _ ← (if attempt_backend_done (at_lifecycle held.2) && attempt_process_dead (at_lifecycle held.2)
         then mret tt
         else record_advance held.2 (at_phase held.2) true true false native_unknown);
    current ← recovery_get (of_execution fence);
    _ ← settle current UnknownOutcome native_unknown boundary;
    after ← recovery_get (of_execution fence);
    mret (Applied after)).

(** [AttemptStore.settle_nonpublication] *)
Definition settle_nonpublication (fence : OwnerFence) (expected_pointer_revision : Z)
    (outcome_ : TerminalPhase) (reason : ReasonCode) (failure : option TurnFailure)
    (boundary : Boundary) : M (applied RecoverySnapshot) :=
  writing (
    held ← require_fence fence;
    _ ← lift (refuse (negb (sn_pointer_revision held.1 =? expected_pointer_revision))
                (StaleRevision "pointer revision changed"));
    current ← match failure with
              | None => mret held.1
              | Some f =>
                  _ ← prepare_execution_retry f (of_execution fence);
                  again ← require_fence fence;
                  mret again.1
              end;
    _ ← settle current outcome_ reason boundary;
    after ← recovery_get (of_execution fence);
    mret (Applied after)).
