(* ===== verification/Fences.v ===== *)
(** * Owner fences

    What a fence proves about the state it is checked in, how long it stays valid, and
    the effect of the two operations that hand one out: [AttemptStore.start] and
    [AttemptStore.advance]. *)

From stdpp Require Import base gmap strings list sorting.
From Stdlib Require Import ZArith Lia.
From S2P Require Import Prelude Contracts Lifecycle WakePolicy AssignmentStates ResponseStates.
From S2P Require Import AttemptStates ExecutionStates Rows TableGuards Database Session SchemaSteps.
From S2P Require Import SchemaInvariants Replay Stepwise ParticipantStore AssignmentStore.
From S2P Require Import Snapshot Settlement ExecutionStore Sha256 AttemptStore.

(** ** Every operation is a sequence of accepted statements *)

Lemma stepwise_activate st sn : stepwise (activate st sn).
Proof. unfold activate. stepwise. Qed.
Lemma stepwise_resume_response e o : stepwise (resume_response e o).
Proof. unfold resume_response. stepwise. Qed.
Lemma stepwise_reengage_claim c : stepwise (reengage_claim c).
Proof. unfold reengage_claim. stepwise. Qed.
Lemma stepwise_record_advance a p b x g r : stepwise (record_advance a p b x g r).
Proof. unfold record_advance. stepwise. Qed.
#[export] Hint Resolve stepwise_activate stepwise_resume_response stepwise_reengage_claim
  stepwise_record_advance : stepwise.

Lemma stepwise_start request : stepwise (start request).
Proof. unfold start, resume_retry, participant_get. stepwise. Qed.
Lemma stepwise_advance f p e b x g r : stepwise (advance f p e b x g r).
Proof. unfold advance, require_fence. stepwise. Qed.
Lemma stepwise_fail_unknown f e b : stepwise (fail_unknown f e b).
Proof. unfold fail_unknown, require_fence. stepwise. Qed.
Lemma stepwise_settle_nonpublication f e o r t b : stepwise (settle_nonpublication f e o r t b).
Proof. unfold settle_nonpublication, require_fence. stepwise. Qed.
#[export] Hint Resolve stepwise_start stepwise_advance stepwise_fail_unknown
  stepwise_settle_nonpublication : stepwise.

(** A row of a declared table is never deleted, and changes along its guard. *)
Lemma row_steps Row (T : Table Row) (R : Row -> Row -> Prop) d d' i r :
  declared_table Row T -> reflexive _ R -> transitive _ R ->
  (forall d1 old new, update_guard d1 old new = false -> R old new) ->
  rtc db_step d d' -> table d !! i = Some r -> exists r', table d' !! i = Some r' /\ R r r'.
Proof.
  intros HT Hrefl Htrans Hguard Hs. revert r.
  induction Hs as [|d1 d2 d3 H12 _ IH]; intros r Hr; [by eauto|].
  destruct (row_step _ _ _ _ _ _ HT (db_step_effect _ _ H12) Hr) as (r1 & Hr1 & Hstep).
  destruct (IH _ Hr1) as (r2 & Hr2 & HR). exists r2. split; [done|].
  destruct Hstep as [->|Hg]; [done|]. eapply Htrans; [by eapply Hguard | done].
Qed.

(** [a'] is [a] later: the same authority, and unchanged unless at a later revision. *)
Definition attempt_later (a a' : AttemptRecord) : Prop :=
  attempt_authority a' = attempt_authority a /\ at_created a' = at_created a /\
  (a' = a \/ at_revision a < at_revision a').

Lemma attempt_steps d d' k a :
  rtc db_step d d' -> attempts d !! k = Some a ->
  exists a', attempts d' !! k = Some a' /\ attempt_later a a'.
Proof.
  intros Hs Ha. apply (row_steps AttemptRecord attempts_table attempt_later d d' k a declared_attempts); try done.
  - intros x. split_and!; auto.
  - intros x y z (H1 & H2 & H3) (H4 & H5 & H6). split_and!; [congruence|congruence|].
    destruct H3 as [->|H3], H6 as [->|H6]; auto. right. lia.
  - intros d1 old new ((H1 & H2 & H3 & H4 & H5 & H6) & _ & _ & Hrev & _)%attempt_update_ok.
    unfold attempt_later, attempt_authority. rewrite H1, H2, H3, H4, H5, H6. split_and!; auto.
    right. lia.
Qed.

Lemma generation_steps d d' w g :
  rtc db_step d d' -> owner_generations d !! w = Some g ->
  exists g', owner_generations d' !! w = Some g' /\ og_generation g <= og_generation g'.
Proof.
  intros Hs Hg.
  apply (row_steps OwnerGenerations owner_generations_table (fun x y => og_generation x <= og_generation y) d d' w g declared_generations);
    try done.
  - intros x. lia.
  - intros x y z. lia.
  - intros d1 old new (_ & [Ho|[Ho _]])%generation_update_ok; lia.
Qed.

(** ** What a valid fence says *)

Lemma token_digest_ok token digest :
  token_digest token = Ok digest <->
  1 <= len token <= MAX_IDENTIFIER_CHARS /\ digest = Sha256.sha256_hex token.
Proof.
  unfold token_digest. split.
  - intros H. ok_inv. bools. done.
  - intros [[H1 H2] ->]. by rewrite (proj2 (Z.leb_le _ _) H1), (proj2 (Z.leb_le _ _) H2).
Qed.

Lemma require_current_attempt_ok sn a :
  require_current_attempt sn = Ok a <-> sn_is_current sn = true /\ sn_attempt sn = Some a.
Proof.
  unfold require_current_attempt, require_attempt. split.
  - intros H. apply bind_ok_inv in H as ([] & Hc & Ha). apply refuse_ok in Hc.
    apply negb_false_iff in Hc. by apply of_option_ok in Ha.
  - intros [Hc Ha]. by rewrite Hc, Ha.
Qed.

(** [require_fence] accepts exactly the current attempt's owner, at its revision. *)
Lemma fence_read_ok f d sn a :
  fence_read f d = Ok (sn, a) <->
  recovery_read (of_execution f) d = Ok sn /\
  sn_is_current sn = true /\ sn_attempt sn = Some a /\
  fence_authority f = Ok (attempt_authority a) /\
  (exists p, participant_read_at (at_owner a) d = Ok p /\
     og_generation (ps_owner p) = at_generation a) /\
  at_revision a = of_revision f.
Proof.
  unfold fence_read. split.
  - intros H. apply bind_ok_inv in H as (sn' & Hsn & H). apply bind_ok_inv in H as (a' & Ha & H).
    apply require_current_attempt_ok in Ha as [Hcur Ha].
    apply bind_ok_inv in H as (auth & Hauth & H). apply bind_ok_inv in H as ([] & Heq & H).
    apply bind_ok_inv in H as (p & Hp & H). apply bind_ok_inv in H as ([] & Hgen & H).
    apply bind_ok_inv in H as ([] & Hrev & H). injection H as <- <-.
    apply refuse_ok in Heq, Hgen, Hrev. bools. subst auth. split_and!; eauto.
  - intros (Hsn & Hcur & Ha & Hauth & (p & Hp & Hgen) & Hrev).
    apply bind_ok_inv. exists sn. split; [done|]. apply bind_ok_inv. exists a.
    split; [by apply require_current_attempt_ok|]. apply bind_ok_inv. eexists. split; [done|].
    rewrite bool_decide_eq_true_2 by done. simpl. rewrite Hp. simpl. rewrite Hgen, Hrev.
    by rewrite !Z.eqb_refl.
Qed.

(** The stored rows behind a valid fence *)
Lemma fence_read_rows f d sn a :
  db_reachable d -> fence_read f d = Ok (sn, a) ->
  attempts d !! (of_execution f, of_ordinal f) = Some a /\
  executions d !! of_execution f = Some (sn_execution sn) /\
  ex_ordinal (sn_execution sn) = Some (of_ordinal f) /\ ex_owner (sn_execution sn) = of_owner f /\
  (exists g, owner_generations d !! of_owner f = Some g /\ og_generation g = of_generation f) /\
  (exists p, current_executions d !! of_owner f = Some p /\ ptr_execution p = Some (of_execution f)).
Proof.
  intros Hd (Hsn & Hcur & Ha & Hauth & (p & Hp & Hgen) & _)%fence_read_ok.
  pose proof (recovery_read_ok _ _ _ Hsn) as (Hx & Hatt & _ & _ & _ & _ & (q & Hq & Hqe & _) & Hc & _ & Hpost).
  unfold fence_authority in Hauth. apply bind_ok_inv in Hauth as (dg & _ & Hauth).
  injection Hauth as H1 H2 H3 H4 _. rewrite Ha in Hatt.
  destruct (ex_ordinal (sn_execution sn)) as [o|] eqn:Eo; [|done]. simpl in Hatt. symmetry in Hatt.
  pose proof (reachable_keyed d Hd _ _ declared_attempts _ _ Hatt) as Hk. simpl in Hk.
  injection Hk as Hk1 Hk2.
  destruct (reachable_history d Hd _ _ _ Hatt) as ((x & Hx' & Hown & _) & _).
  rewrite Hx in Hx'. injection Hx' as <-.
  apply participant_read_at_ok in Hp as (_ & Hg & _). apply participant_read_at_ok in Hq as (_ & _ & Hq & _).
  rewrite Hcur in Hc. symmetry in Hc. apply bool_decide_eq_true in Hc.
  rewrite H2, H3, H4 in *. split_and!; try congruence.
  - exists (ps_owner p). split; congruence.
  - exists (ps_pointer q). split; congruence.
Qed.

(** ** How long a fence is valid *)

(** A fence behind its attempt's revision is never accepted again. *)
Lemma stale_revision_stays (d d' : DB) (f : OwnerFence) (a : AttemptRecord) :
  db_reachable d -> rtc db_step d d' ->
  attempts d !! (of_execution f, of_ordinal f) = Some a -> of_revision f < at_revision a ->
  exists err, fence_read f d' = Err err.
Proof.
  intros Hd Hs Ha Hlt. destruct (fence_read f d') as [[sn b]|err] eqn:E; [exfalso | by eauto].
  pose proof (fence_read_rows _ _ _ _ (reachable_steps _ _ Hd Hs) E) as (Hb & _).
  apply fence_read_ok in E as (_ & _ & _ & _ & _ & Hrev).
  destruct (attempt_steps _ _ _ _ Hs Ha) as (b' & Hb' & _ & _ & Hlater).
  rewrite Hb in Hb'. injection Hb' as <-. destruct Hlater as [->|?]; lia.
Qed.

(** Once an owner has reached a newer generation, a fence of an older one is refused in
    every later state. *)
Theorem superseded_generation_fences_forever (d d' : DB) (f : OwnerFence) (g : OwnerGenerations) :
  db_reachable d -> rtc db_step d d' ->
  owner_generations d !! of_owner f = Some g -> of_generation f < og_generation g ->
  exists err, fence_read f d' = Err err.
Proof.
  intros Hd Hs Hg Hlt. destruct (fence_read f d') as [[sn b]|err] eqn:E; [exfalso | by eauto].
  pose proof (fence_read_rows _ _ _ _ (reachable_steps _ _ Hd Hs) E) as (_ & _ & _ & _ & (g' & Hg' & Heq) & _).
  destruct (generation_steps _ _ _ _ Hs Hg) as (g'' & Hg'' & Hle). rewrite Hg' in Hg''.
  injection Hg'' as <-. lia.
Qed.

(** ** Starting an attempt *)

Lemma stored_attempt d P a :
  a ∈ List.filter P (map snd (map_to_list (attempts d))) <->
  (exists k, attempts d !! k = Some a) /\ P a = true.
Proof.
  rewrite list_elem_of_In, filter_In, in_map_iff. split.
  - intros [([k b] & <- & Hin) HP]. split; [|done]. exists k.
    by apply list_elem_of_In, elem_of_map_to_list in Hin.
  - intros [(k & Hk) HP]. split; [|done]. exists (k, a). split; [done|].
    by apply list_elem_of_In, elem_of_map_to_list.
Qed.

Lemma attempt_one_some P d a :
  attempt_one P d = Ok (Some a) -> (exists k, attempts d !! k = Some a) /\ P a = true.
Proof.
  unfold attempt_one. intros H. apply bind_ok_inv in H as ([] & _ & H).
  apply stored_attempt. destruct (List.filter _ _) as [|b [|c rest]]; [done| |done].
  injection H as <-. apply list_elem_of_here.
Qed.

Lemma attempt_one_only P d k a b :
  attempt_one P d = Ok (Some b) -> attempts d !! k = Some a -> P a = true -> b = a.
Proof.
  unfold attempt_one. intros H Ha HP. apply bind_ok_inv in H as ([] & _ & H).
  assert (Hin : a ∈ List.filter P (map snd (map_to_list (attempts d)))).
  { apply stored_attempt. eauto. }
  destruct (List.filter _ _) as [|c [|? rest]]; [done| |done]. injection H as ->.
  by apply list_elem_of_singleton in Hin.
Qed.

Lemma attempt_one_none P d k a :
  attempt_one P d = Ok None -> attempts d !! k = Some a -> P a = false.
Proof.
  unfold attempt_one. intros H Ha. apply bind_ok_inv in H as ([] & _ & H).
  apply not_true_iff_false. intros HP.
  assert (Hin : a ∈ List.filter P (map snd (map_to_list (attempts d)))).
  { apply stored_attempt. eauto. }
  destruct (List.filter _ _) as [|b [|c rest]]; [by apply elem_of_nil in Hin|done|done].
Qed.

Lemma validate_start_ok st sn p :
  validate_start st sn p = Ok tt <->
  ps_committed p = true /\ og_lookup (ps_owner p) = st_owner st /\
  og_generation (ps_owner p) = st_generation st /\
  ex_revision (sn_execution sn) = st_execution_revision st /\
  ptr_revision (ps_pointer p) = st_pointer_revision st /\
  ptr_execution (ps_pointer p) = None /\
  starts_attempt (ex_status (sn_execution sn)) = true /\ sn_intents sn = [] /\
  require_retry_start sn = Ok tt /\
  next_attempt_ordinal (ex_lifecycle (sn_execution sn)) = st_ordinal st /\
  st_ordinal st <= ex_max_attempts (sn_execution sn) /\
  (forall a, sn_attempt sn = Some a -> at_generation a < st_generation st).
Proof.
  unfold validate_start, require_idle, require_attempt_start, unresolved, ex_status.
  rewrite !bind_ok_unit. unfold require_newer_owner. rewrite !refuse_ok, require_ok. split.
  - intros (H1 & H2 & H3 & H4 & H5 & H6 & H7 & H8 & H9). bools. simplify_eq.
    repeat match goal with Hp : (_, _) = (_, _) |- _ => injection Hp as ? ? end.
    split_and!; try done.
    + by destruct (ptr_execution (ps_pointer p)).
    + by destruct (sn_intents sn).
    + lia.
    + intros a Ha. rewrite Ha in H9. apply refuse_ok, Z.leb_gt in H9. done.
  - intros (H1 & H2 & H3 & H4 & H5 & H6 & H7 & H8 & H9 & H10 & H11 & H12).
    rewrite H1, H2, H3, H4, H5, H6, H8, H10. rewrite !bool_decide_eq_true_2 by done. simpl.
    rewrite Z.eqb_refl. split_and!; try done.
    + apply Z.ltb_ge. lia.
    + destruct (sn_attempt sn) as [a|]; [|done]. apply refuse_ok, Z.leb_gt. by apply H12.
Qed.

(** The three rows [activate] writes *)
Definition started_rows (st : AttemptStart) (sn : RecoverySnapshot) (p : CurrentExecutions)
    (digest : string) (created : Z) (d : DB) : DB :=
  let e := st_execution st in
  let a := mkAttemptRecord e (st_ordinal st) (ex_owner (sn_execution sn)) (st_generation st) digest
             (LiveAttempt PromptStarting (created + INITIAL_LEASE_DURATION_MS) false false)
             1 None NoReasonCode created created in
  with_table (Row := CurrentExecutions)
    (<[ex_owner (sn_execution sn) :=
         pointer_set (Some e) (Some (st_ordinal st)) (sn_pointer_revision sn + 1) p]>
       (current_executions d))
    (with_table (Row := ExecutionRecord)
       (<[e := execution_set (ActiveExecution (st_ordinal st)) (ex_revision (sn_execution sn) + 1)
                 created (Some NoReasonCode) (sn_execution sn)]> (executions d))
       (with_table (Row := AttemptRecord) (<[(e, st_ordinal st) := a]> (attempts d)) d)).

Lemma activate_ok st sn s u s' p :
  activate st sn s = (Ok u, s') -> executions (db s) !! st_execution st = Some (sn_execution sn) ->
  current_executions (db s) !! ex_owner (sn_execution sn) = Some p ->
  exists digest created,
    token_digest (st_token st) = Ok digest /\ ex_updated (sn_execution sn) <= created /\
    attempts (db s) !! (st_execution st, st_ordinal st) = None /\
    attempt_insert_guard (db s)
      (mkAttemptRecord (st_execution st) (st_ordinal st) (ex_owner (sn_execution sn))
         (st_generation st) digest
         (LiveAttempt PromptStarting (created + INITIAL_LEASE_DURATION_MS) false false)
         1 None NoReasonCode created created) = false /\
    db s' = started_rows st sn p digest created (db s).
Proof.
  unfold activate. intros H Hx Hp.
  apply bindM_ok in H as (created & s1 & (Hle & _ & Hdb1 & _)%now_ok & H).
  apply bindM_ok in H as (digest & s2 & [Hdg ->]%lift_ok & H).
  apply bindM_ok in H as (life & s3 & [Hlife ->]%lift_ok & H).
  apply live_attempt_ok in Hlife as (l & [= <-] & _ & ->).
  apply bindM_ok in H as (u1 & s4 & Hins & H). apply insert_ok in Hins as (_ & d4 & Hins & ->).
  apply exec_insert_ok in Hins as (Hguard & Hfresh & (_ & _ & -> & _)%write_row_ok).
  apply bindM_ok in H as (active & s5 & [Hact ->]%lift_ok & H).
  apply bindM_ok in H as (n1 & s6 & Hup1 & H).
  apply bindM_ok in H as (pe & s7 & [Hpe ->]%lift_ok & H).
  apply bindM_ok in H as (pa & s8 & [Hpa ->]%lift_ok & H).
  apply bindM_ok in H as (n2 & s9 & Hup2 & [_ ->]%ret_ok).
  assert (active = ActiveExecution (st_ordinal st)) as ->.
  { unfold attempt_execution in Hact. ok_inv. done. }
  assert (pe = Some (st_execution st)) as -> by (unfold pointed_execution in Hpe; by ok_inv).
  assert (pa = Some (st_ordinal st)) as -> by (unfold pointed_attempt in Hpa; by ok_inv).
  apply update_row_ok with (old := sn_execution sn) in Hup1 as (_ & _ & Hs6 & _);
    [|simpl; by rewrite Hdb1|done].
  apply update_row_ok with (old := p) in Hup2 as (_ & _ & Hs9 & _);
    [|rewrite Hs6; simpl; by rewrite Hdb1|done].
  exists digest, created. rewrite Hs9, Hs6. simpl in *. rewrite Hdb1 in *. by split_and!.
Qed.

(** What resuming a retry leaves alone *)
Definition fenced_part (d : DB) :=
  (participants d, owner_generations d, current_executions d, executions d, attempts d).

Lemma resume_retry_preserves sn st : preserves fenced_part (resume_retry sn st).
Proof. unfold resume_retry, resume_response, reengage_claim. preserves. Qed.

Lemma start_applied_ok request s r s' :
  start request s = (Ok (Applied r), s') ->
  exists sn p digest s1,
    recovery_read (st_execution request) (db s) = Ok sn /\
    token_digest (st_token request) = Ok digest /\
    (forall k a, attempts (db s) !! k = Some a -> at_digest a <> digest) /\
    participant_read_at (ex_owner (sn_execution sn)) (db s) = Ok p /\
    validate_start request sn p = Ok tt /\
    activate request sn s = (Ok tt, s1) /\
    fenced_part (db s') = fenced_part (db s1) /\
    recovery_read (st_execution request) (db s') = Ok (sr_snapshot r) /\
    start_fence request 1 = Ok (sr_fence r).
Proof.
  unfold start, participant_get, recovery_get. intros H.
  apply bindM_ok in H as (digest & s0 & [Hdg ->]%lift_ok & H). apply writing_ok in H as [H _].
  apply bindM_ok in H as (sn & s2 & [Hsn ->]%reading_ok & H).
  apply bindM_ok in H as (old & s2 & [Hold ->]%reading_ok & H).
  destruct old as [a|].
  { apply bindM_ok in H as (f & s3 & [_ ->]%lift_ok & [[=] _]%ret_ok). }
  apply bindM_ok in H as (other & s3 & [Hother ->]%reading_ok & H).
  apply bindM_ok in H as ([] & s4 & [Hno ->]%lift_ok & H). apply refuse_ok in Hno.
  destruct other; [done|].
  apply bindM_ok in H as (p & s5 & [Hp ->]%reading_ok & H).
  apply bindM_ok in H as ([] & s6 & [Hv ->]%lift_ok & H).
  apply bindM_ok in H as ([] & s7 & Hact & H). apply bindM_ok in H as ([] & s8 & Hres & H).
  apply bindM_ok in H as (after & s9 & [Hafter ->]%reading_ok & H).
  apply bindM_ok in H as (f & s10 & [Hf ->]%lift_ok & H). apply ret_ok in H as [Hr ->].
  injection Hr as ->. exists sn, p, digest, s7. split_and!; try done.
  - intros k a Ha Heq. pose proof (attempt_one_none _ _ _ _ Hother Ha) as Hf'.
    unfold issued in Hf'. by rewrite bool_decide_eq_true_2 in Hf'.
  - by apply (preserves_ok _ _ _ _ _ (resume_retry_preserves sn request)) in Hres.
Qed.

(** The rows a started attempt leaves *)
Lemma start_rows request s r s' :
  db_reachable (db s) -> start request s = (Ok (Applied r), s') ->
  exists sn p digest created,
    recovery_read (st_execution request) (db s) = Ok sn /\
    participant_read_at (ex_owner (sn_execution sn)) (db s) = Ok p /\
    validate_start request sn p = Ok tt /\ token_digest (st_token request) = Ok digest /\
    ex_updated (sn_execution sn) <= created /\ ex_owner (sn_execution sn) = st_owner request /\
    attempts (db s) !! (st_execution request, st_ordinal request) = None /\
    fenced_part (db s')
    = fenced_part (started_rows request sn (ps_pointer p) digest created (db s)) /\
    recovery_read (st_execution request) (db s') = Ok (sr_snapshot r) /\
    start_fence request 1 = Ok (sr_fence r).
Proof.
  intros Hd H.
  destruct (start_applied_ok _ _ _ _ H) as (sn & p & digest & s1 & Hsn & Hdg & _ & Hp & Hv & Hact & Hpart & Hafter & Hf).
  pose proof (recovery_read_ok _ _ _ Hsn) as (Hx & _).
  pose proof Hp as (_ & Hg & Hptr & _)%participant_read_at_ok.
  pose proof (reachable_keyed _ Hd _ _ declared_generations _ _ Hg) as Hkg. simpl in Hkg.
  pose proof Hv as (_ & Hown & _)%validate_start_ok.
  destruct (activate_ok _ _ _ _ _ _ Hact Hx Hptr) as (dg & created & Hdg' & Hle & Hfresh & _ & Hdb).
  rewrite Hdg in Hdg'. injection Hdg' as <-.
  exists sn, p, digest, created. rewrite Hpart, Hdb. split_and!; try done. congruence.
Qed.

(** An execution that passes the start checks is pending, or deferred behind a failed
    attempt with an authorized retry. *)
Lemma startable_execution sn :
  starts_attempt (ex_status (sn_execution sn)) = true -> require_retry_start sn = Ok tt ->
  ex_lifecycle (sn_execution sn) = PendingExecution /\
    next_attempt_ordinal (ex_lifecycle (sn_execution sn)) = 1 \/
  exists o a, ex_lifecycle (sn_execution sn) = DeferredExecution (Some o) /\
    next_attempt_ordinal (ex_lifecycle (sn_execution sn)) = o + 1 /\
    sn_attempt sn = Some a /\ at_lifecycle a = TerminalAttempt AttemptFailed /\
    sn_retry_authorized sn = true.
Proof.
  unfold require_retry_start, require_retry, sn_can_retry, exec_can_retry, ex_status. intros Hst Hr.
  destruct (ex_lifecycle (sn_execution sn)) as [| | | |o|]; try done; [by left|right].
  destruct (sn_attempt sn) as [a|]; [|done]. simpl in Hr. apply refuse_ok, negb_false_iff in Hr.
  destruct o as [o|]; [|done]. bools. exists o, a. split_and!; try done.
  by destruct (at_lifecycle a) as [|[]].
Qed.

(** C28: An attempt starts only for the owner's current generation, a committed and idle
    owner, and either as the first attempt of a pending execution or as the successor of a
    failed attempt of an older generation with a retry that the stored evidence authorises
    and the execution's budget admits. *)
Theorem start_admits_only_authorized (request : AttemptStart) (s s' : Session) (r : StartResult) :
  db_reachable (db s) -> start request s = (Ok (Applied r), s') ->
  (exists g person p,
     owner_generations (db s) !! st_owner request = Some g /\
     og_generation g = st_generation request /\
     participants (db s) !! st_owner request = Some person /\ committed person = true /\
     current_executions (db s) !! st_owner request = Some p /\ ptr_execution p = None) /\
  exists x, executions (db s) !! st_execution request = Some x /\ ex_owner x = st_owner request /\
    1 <= st_ordinal request <= ex_max_attempts x /\
    (ex_lifecycle x = PendingExecution /\ st_ordinal request = 1 \/
     exists o a, ex_lifecycle x = DeferredExecution (Some o) /\ st_ordinal request = o + 1 /\
       attempts (db s) !! (st_execution request, o) = Some a /\
       at_lifecycle a = TerminalAttempt AttemptFailed /\ at_generation a < st_generation request /\
       retry_basis (db s) (st_execution request) = true).
Proof.
  intros Hd H.
  destruct (start_rows _ _ _ _ Hd H)
    as (sn & p & dg & created & Hsn & Hp & Hv & _ & _ & Hown & Hfresh & _).
  pose proof (recovery_read_ok _ _ _ Hsn) as (Hx & Hatt & Hrep & Hobs & _ & _ & _ & _ & _ & Hpost).
  pose proof (reachable_keyed _ Hd _ _ declared_executions _ _ Hx) as Hid. simpl in Hid.
  apply validate_start_ok in Hv as (Hc & Hl & Hg & _ & _ & Hidle & Hst & _ & Hretry & Hnext & Hmax & Hnewer).
  apply participant_read_at_ok in Hp as ((person & Hper & Hcom) & Hgen & Hptr & _).
  rewrite Hown in *. split.
  { exists (ps_owner p), person, (ps_pointer p). split_and!; congruence. }
  exists (sn_execution sn).
  destruct (startable_execution _ Hst Hretry)
    as [[Hlife Ho]|(o & a & Hlife & Ho & Ha & Hfail & Hauth)]; rewrite Hnext in Ho; rewrite Ho in *.
  { split_and!; try done. by left. }
  rewrite Ha in Hatt. unfold ex_ordinal in Hatt. rewrite Hlife in Hatt. simpl in Hatt.
  destruct (reachable_history _ Hd _ _ _ (eq_sym Hatt)) as ((x & _ & _ & Hlo & _) & _).
  split_and!; try done; [lia|]. right. exists o, a. split_and!; try done; [by apply Hnewer|].
  by rewrite (retry_basis_execution _ _ _ Hx Hid), <- Hrep, <- Hobs.
Qed.

(** C29: A start that is applied inserts exactly one attempt, in its first phase with the
    initial lease and revision 1, makes it the execution's active attempt, and returns a
    fence that the store accepts for the returned snapshot. *)
Theorem start_issues_current_fence (request : AttemptStart) (s s' : Session) (r : StartResult) :
  db_reachable (db s) -> start request s = (Ok (Applied r), s') ->
  exists a, fence_read (sr_fence r) (db s') = Ok (sr_snapshot r, a) /\
    at_lifecycle a
    = LiveAttempt PromptStarting (at_created a + INITIAL_LEASE_DURATION_MS) false false /\
    ex_lifecycle (sn_execution (sr_snapshot r)) = ActiveExecution (st_ordinal request) /\
    of_revision (sr_fence r) = 1 /\
    attempts (db s') = <[(st_execution request, st_ordinal request) := a]> (attempts (db s)) /\
    attempts (db s) !! (st_execution request, st_ordinal request) = None.
Proof.
  intros Hd H.
  destruct (start_rows _ _ _ _ Hd H)
    as (sn & p & dg & created & Hsn & Hp & Hv & Hdg & Hle & Hown & Hfresh & Hpart & Hafter & Hf).
  unfold fenced_part, started_rows in Hpart. simpl in Hpart.
  injection Hpart as Hparts Hgens Hptrs Hexs Hats.
  pose proof (recovery_read_ok _ _ _ Hafter) as (Hx & Hatt & _ & _ & _ & _ & (q & Hq & Hqe & _) & Hcur & _).
  rewrite Hexs, lookup_insert_eq in Hx. injection Hx as Hx. symmetry in Hx.
  assert (Hord : ex_ordinal (sn_execution (sr_snapshot r)) = Some (st_ordinal request)) by (by rewrite Hx).
  assert (Hexo : ex_owner (sn_execution (sr_snapshot r)) = ex_owner (sn_execution sn)) by (by rewrite Hx).
  rewrite Hord in Hatt. simpl in Hatt. rewrite Hats, lookup_insert_eq in Hatt.
  rewrite Hexo in Hq. pose proof Hq as (_ & Hqg & Hqp & _)%participant_read_at_ok.
  rewrite Hptrs, lookup_insert_eq in Hqp. injection Hqp as Hqp.
  apply validate_start_ok in Hv as (_ & _ & Hg & _). apply participant_read_at_ok in Hp as (_ & Hpg & _).
  unfold start_fence in Hf. apply bind_ok_inv in Hf as ([] & _ & Hf). injection Hf as Hf.
  match type of Hatt with _ = Some ?row => exists row end.
  rewrite <- Hf. split_and!; [|done|by rewrite Hx|done|exact Hats|done].
  apply fence_read_ok. simpl. split_and!; try done.
  - rewrite Hcur, Hqe, <- Hqp. by apply bool_decide_eq_true.
  - unfold fence_authority, attempt_authority. simpl. rewrite Hdg. simpl. by rewrite Hown.
  - exists q. split; [done|]. rewrite Hgens, Hpg in Hqg. by injection Hqg as <-.
Qed.

Lemma bindM_lift {A B : Type} (a : A) (f : A -> M B) s : mbind f (lift (Ok a)) s = f a s.
Proof. done. Qed.

Lemma replayed_fence_ok st sn a f :
  replayed_fence st sn a = Ok f -> of_revision f = at_revision a /\ of_token f = st_token st.
Proof.
  unfold replayed_fence, start_fence. intros H. apply bind_ok_inv in H as ([] & _ & H).
  apply bind_ok_inv in H as ([] & _ & H). by injection H as <-.
Qed.

(** Whatever happened since a start was applied, repeating the same start changes no
    row; if it returns, it returns the fence of the attempt as it then stands. *)
Theorem start_issued_once (request : AttemptStart) (s s' t t' : Session) (r : StartResult)
    (again : outcome (applied StartResult)) :
  db_reachable (db s) -> start request s = (Ok (Applied r), s') ->
  rtc db_step (db s') (db t) -> start request t = (again, t') ->
  db t' = db t /\
  forall v, again = Ok v -> exists sn a f, v = AlreadyApplied (mkStartResult sn f) /\
    attempts (db t) !! (st_execution request, st_ordinal request) = Some a /\
    of_revision f = at_revision a /\ of_token f = st_token request.
Proof.
  intros Hd H Hs Ht.
  destruct (start_rows _ _ _ _ Hd H)
    as (sn & p & dg & created & Hsn & Hp & Hv & Hdg & Hle & Hown & Hfresh & Hpart & Hafter & Hf).
  unfold fenced_part, started_rows in Hpart. simpl in Hpart. injection Hpart as _ _ _ _ Hats.
  assert (Hk : exists a, attempts (db t) !! (st_execution request, st_ordinal request) = Some a /\
                 issued_to dg (st_execution request) a = true).
  { pose proof (lookup_insert_eq (attempts (db s)) (st_execution request, st_ordinal request)) as Hnew.
    match type of Hats with _ = <[_ := ?row]> _ => specialize (Hnew row) end.
    rewrite <- Hats in Hnew. destruct (attempt_steps _ _ _ _ Hs Hnew) as (a & Ha & Hlater).
    exists a. split; [done|]. destruct Hlater as (Hauth & _).
    unfold attempt_authority in Hauth. simpl in Hauth. injection Hauth as He _ _ _ Hdig.
    unfold issued_to. by rewrite !bool_decide_eq_true_2. }
  destruct Hk as (a & Ha & Hissued).
  unfold start, recovery_get in Ht. rewrite Hdg in Ht.
  rewrite bindM_lift in Ht. destruct again as [v|err].
  - apply writing_ok in Ht as [Ht _].
    apply bindM_ok in Ht as (sn' & s2 & [Hsn' ->]%reading_ok & Ht).
    apply bindM_ok in Ht as (old & s2 & [Hold ->]%reading_ok & Ht). destruct old as [b|].
    + apply (attempt_one_only _ _ _ _ _ Hold Ha) in Hissued as <-.
      apply bindM_ok in Ht as (f & s3 & [Hf' ->]%lift_ok & [-> ->]%ret_ok). split; [done|].
      intros v [= <-]. apply replayed_fence_ok in Hf' as [? ?]. by exists sn', b, f.
    + by rewrite (attempt_one_none _ _ _ _ Hold Ha) in Hissued.
  - apply writing_err in Ht. by split.
Qed.

(** ** Advancing an attempt *)

Lemma record_advance_ok a p b x g reason s u s' :
  record_advance a p b x g reason s = (Ok u, s') ->
  attempts (db s) !! (at_execution a, at_ordinal a) = Some a ->
  exists life t,
    observed (at_lifecycle a) p b x g = Ok life /\ at_updated a <= t /\
    db s' = with_table (Row := AttemptRecord)
      (<[(at_execution a, at_ordinal a) :=
           advanced life (at_revision a + 1) t (if g then Some t else at_progress a) reason a]>
         (attempts (db s))) (db s).
Proof.
  unfold record_advance. intros H Ha.
  apply bindM_ok in H as (t & s1 & (Hle & _ & Hdb & _)%now_ok & H).
  apply bindM_ok in H as (life & s2 & [Hlife ->]%lift_ok & H).
  apply bindM_ok in H as (n & s3 & Hup & [_ ->]%ret_ok).
  apply update_row_ok with (old := a) in Hup as (_ & _ & Hs3 & _); [|simpl; by rewrite Hdb|done].
  exists life, t. rewrite Hs3, Hdb. done.
Qed.

Lemma fence_replace_ok f revision f' :
  fence_replace f revision = Ok f' ->
  fence_authority f' = fence_authority f /\ of_execution f' = of_execution f /\
  of_ordinal f' = of_ordinal f /\ of_revision f' = revision.
Proof. unfold fence_replace. intros H. apply bind_ok_inv in H as ([] & _ & H). by injection H as <-. Qed.

(** A snapshot read after only the current attempt's row changed *)
Lemma advanced_fence f f' sn a sn' a' b d d' :
  db_reachable d -> fence_read f d = Ok (sn, a) ->
  d' = with_table (Row := AttemptRecord) (<[(of_execution f, of_ordinal f) := a']> (attempts d)) d ->
  attempt_authority a' = attempt_authority a ->
  fence_authority f' = fence_authority f -> of_execution f' = of_execution f ->
  recovery_read (of_execution f) d' = Ok sn' ->
  require_attempt sn' = Ok b -> of_revision f' = at_revision b ->
  fence_read f' d' = Ok (sn', a').
Proof.
  intros Hd Hf -> Hauth Hf' He Hsn' Hb Hrev. unfold require_attempt in Hb. apply of_option_ok in Hb.
  pose proof (fence_read_rows _ _ _ _ Hd Hf) as (_ & Hx & Hord & _).
  apply fence_read_ok in Hf as (Hsn & Hcur & _ & Hauthf & (p & Hp & Hgen) & _).
  pose proof (recovery_read_ok _ _ _ Hsn) as (_ & _ & _ & _ & _ & _ & (q & Hq & Hqe & _) & Hc & _).
  pose proof (recovery_read_ok _ _ _ Hsn') as (Hx' & Hatt' & _ & _ & _ & _ & (q' & Hq' & Hqe' & _) & Hc' & _).
  simpl in Hx'. rewrite Hx in Hx'. injection Hx' as Hx'. rewrite <- Hx' in Hatt', Hq'.
  rewrite Hord in Hatt'. simpl in Hatt'. rewrite lookup_insert_eq in Hatt'.
  rewrite Hb in Hatt'. injection Hatt' as ->.
  apply participant_read_at_ok in Hq as (_ & _ & Hq & _).
  apply participant_read_at_ok in Hq' as (_ & _ & Hq' & _). simpl in Hq'. rewrite Hq in Hq'.
  injection Hq' as Hq'.
  apply fence_read_ok. rewrite He. split_and!; try done.
  - rewrite Hc', Hqe', <- Hq', <- Hqe, <- Hc. done.
  - by rewrite Hf', Hauthf, Hauth.
  - unfold attempt_authority in Hauth. injection Hauth as _ _ -> -> _.
    exists p. split; [|done]. apply participant_read_at_ok. by apply participant_read_at_ok in Hp.
Qed.

(** C30: An advance that returns has checked the fence and the pointer revision, replaced
    exactly the attempt's row by its observed successor with the same authority and the next
    revision, and returned the fence of that row; the fence it was called with is refused
    for ever after. *)
Theorem advance_records_observation (f : OwnerFence) (phase : AttemptKind) (pointer_revision : Z)
    (b x g : bool) (reason : ReasonCode) (s s' : Session) (r : applied StartResult) :
  db_reachable (db s) -> advance f phase pointer_revision b x g reason s = (Ok r, s') ->
  exists sn a a',
    fence_read f (db s) = Ok (sn, a) /\ sn_pointer_revision sn = pointer_revision /\
    observed (at_lifecycle a) phase b x g = Ok (at_lifecycle a') /\
    attempt_authority a' = attempt_authority a /\ at_revision a' = at_revision a + 1 /\
    db s' = with_table (Row := AttemptRecord)
              (<[(of_execution f, of_ordinal f) := a']> (attempts (db s))) (db s) /\
    fence_read (sr_fence (applied_value r)) (db s') = Ok (sr_snapshot (applied_value r), a') /\
    forall d, rtc db_step (db s') d -> exists err, fence_read f d = Err err.
Proof.
  intros Hd H. pose proof (stepwise_advance f phase pointer_revision b x g reason s) as Hsteps.
  rewrite H in Hsteps. simpl in Hsteps. unfold advance, require_fence, recovery_get in H.
  apply bindM_ok in H as ([] & s0 & [_ ->]%lift_ok & H). apply writing_ok in H as [H _].
  apply bindM_ok in H as ([sn a] & s1 & [Hf ->]%reading_ok & H).
  apply bindM_ok in H as ([] & s2 & [Hrev ->]%lift_ok & H). apply refuse_ok, negb_false_iff, Z.eqb_eq in Hrev.
  apply bindM_ok in H as (u & s3 & Hadv & H).
  apply bindM_ok in H as (sn' & s4 & [Hsn' ->]%reading_ok & H).
  apply bindM_ok in H as (a' & s5 & [Ha' ->]%lift_ok & H).
  apply bindM_ok in H as (f' & s6 & [Hf' ->]%lift_ok & H). apply ret_ok in H as [-> ->]. simpl in *.
  pose proof (fence_read_rows _ _ _ _ Hd Hf) as (Ha & _).
  pose proof (reachable_keyed _ Hd _ _ declared_attempts _ _ Ha) as Hk. simpl in Hk.
  destruct (record_advance_ok _ _ _ _ _ _ _ _ _ Hadv) as (life & t & Hobs & _ & Hdb); [by rewrite Hk|].
  rewrite Hk in Hdb.
  match type of Hdb with _ = with_table (<[_ := ?row]> _) _ =>
    assert (Hrow : attempts (db s3) !! (of_execution f, of_ordinal f) = Some row)
      by (rewrite Hdb; apply lookup_insert_eq); exists sn, a, row end.
  apply fence_replace_ok in Hf' as (Hauth' & He' & Ho' & Hrev').
  split_and!; try done.
  - by eapply (advanced_fence f f' sn a sn' _ a').
  - intros d Hs. apply fence_read_ok in Hf as (_ & _ & _ & _ & _ & Hfr).
    eapply (stale_revision_stays _ _ _ _ (reachable_steps _ _ Hd Hsteps) Hs Hrow). simpl. lia.
Qed.
