(* ===== verification/Progress.v ===== *)
(** * A current fence can always advance

    Nothing but the guards [AttemptStore.advance] states can refuse it: an observation
    the attempt's state allows passes the triggers, the constraints, the foreign keys and
    the reading back of the snapshot. *)

From stdpp Require Import base gmap strings list sorting.
From Stdlib Require Import ZArith Lia.
From S2P Require Import Prelude Contracts Lifecycle WakePolicy AssignmentStates ResponseStates.
From S2P Require Import AttemptStates ExecutionStates Rows TableGuards Database Session SchemaSteps.
From S2P Require Import SchemaInvariants Replay Stepwise ParticipantStore AssignmentStore.
From S2P Require Import Snapshot Settlement ExecutionStore Sha256 AttemptStore Fences.

(** ** Unique token digests *)

Definition digests_unique (d : DB) : Prop :=
  forall i j a a', attempts d !! i = Some a -> attempts d !! j = Some a' ->
    at_digest a = at_digest a' -> i = j.

Lemma unique_attempt_write d i new :
  digests_unique d ->
  map_exists (conflicts (Row := AttemptRecord) new) (delete i (attempts d)) = false ->
  digests_unique (with_table (Row := AttemptRecord) (<[i := new]> (attempts d)) d).
Proof.
  intros HI Hnone j1 j2 a1 a2 H1 H2 Heq. simpl in *.
  assert (Hother : forall j a, i <> j -> attempts d !! j = Some a -> at_digest new <> at_digest a).
  { intros j a Hne Ha He. apply (map_exists_false _ _ j a) in Hnone.
    - by apply bool_decide_eq_false in Hnone.
    - by rewrite lookup_delete_ne. }
  apply lookup_insert_Some in H1 as [[<- <-]|[N1 H1]];
    apply lookup_insert_Some in H2 as [[<- <-]|[N2 H2]]; try done.
  - by destruct (Hother _ _ N2 H2).
  - by destruct (Hother _ _ N1 H1).
  - by eapply HI.
Qed.

Lemma reachable_digests_unique d : db_reachable d -> digests_unique d.
Proof.
  apply reachable_invariant; [intros i j a a' Ha; simpl in Ha; by simplify_map_eq|].
  intros d1 d2 HI Hstep. each_write Hstep; try exact HI.
  - apply unique_attempt_write; [done|]. simpl. by rewrite delete_id.
  - by apply unique_attempt_write.
Qed.

(** ** The advanced row *)

(** [a'] is the row [record_advance] writes over [a] at time [t]. *)
Definition advanced_row (a : AttemptRecord) (life : AttemptState) (t : Z) (progress : bool)
    (reason : ReasonCode) : AttemptRecord :=
  advanced life (at_revision a + 1) t (if progress then Some t else at_progress a) reason a.

Section advanced_row.
Context (a : AttemptRecord) (p p' : LivePhase) (lease t : Z) (done dead b x g : bool)
  (reason : ReasonCode).
Context (Hlive : at_lifecycle a = LiveAttempt p lease done dead).
Context (Hobs : observed (at_lifecycle a) (LiveKind p') b x g
                = Ok (LiveAttempt p' lease (done || b) (dead || x))).
Context (Ht : at_updated a <= t).
Context (Hreason : reason_check reason = true).
Context (Hchecks : attempt_checks a = true).

Let row : AttemptRecord := advanced_row a (LiveAttempt p' lease (done || b) (dead || x)) t g reason.

Lemma monotone_bit (y z : bool) : non_decreasing (bit y) (bit (y || z)) = false.
Proof. by destruct y, z. Qed.

Lemma advanced_times :
  at_created a <= at_updated a /\
  match at_progress a with Some q => at_created a <= q <= at_updated a | None => True end.
Proof.
  unfold attempt_checks in Hchecks. bools. split; [done|].
  destruct (at_progress a); [|done]. bools. done.
Qed.

Lemma advanced_guard d : attempt_update_guard d a row = false.
Proof.
  rewrite Hlive in Hobs. apply observed_live_ok in Hobs as (_ & q & [= <-] & Hedge & _ & _).
  destruct advanced_times as [Hc Hp].
  unfold attempt_update_guard, attempt_frozen, at_phase, row, advanced_row, advanced. simpl.
  rewrite Hlive. simpl. rewrite !orb_false_iff. split_and!; try (by apply is_not_false); try done.
  - apply edges_violation_ok. destruct Hedge as [->|Hedge]; auto.
  - unfold finalized_violation. apply andb_false_iff. right. by destruct p.
  - by apply revision_violation_ok.
  - by apply non_decreasing_ok.
  - destruct (at_progress a) as [q|]; [|done]. destruct g; apply non_decreasing_ok; lia.
  - apply monotone_bit.
  - apply monotone_bit.
  - unfold non_decreasing_when_present, order_violation. apply Z.ltb_ge. lia.
Qed.

Lemma advanced_checks : attempt_checks row = true.
Proof.
  destruct advanced_times as [Hc Hp]. rewrite Hlive in Hobs.
  apply observed_live_ok in Hobs as (Hlease & _).
  unfold attempt_checks in *. bools. unfold row, advanced_row, advanced, phase_kind, at_phase. simpl.
  rewrite !andb_true_iff. split_and!; try done; try (apply Z.leb_le; lia); try (apply Z.ltb_lt; lia).
  destruct g; [apply andb_true_iff; split; apply Z.leb_le; lia|].
  destruct (at_progress a) as [q|]; [|done]. apply andb_true_iff. split; apply Z.leb_le; lia.
Qed.

Lemma advanced_post_init : attempt_post_init a = Ok tt -> attempt_post_init row = Ok tt.
Proof.
  destruct advanced_times as [Hc Hp]. unfold attempt_post_init. rewrite !bind_ok_unit.
  intros (H1 & H2 & H3 & H4 & H5 & H6). apply refuse_ok in H4, H5. bools.
  unfold row, advanced_row, advanced. simpl. split_and!; try done.
  - apply refuse_ok. apply Z.leb_gt. apply Z.leb_gt in H4. lia.
  - apply refuse_ok, orb_false_iff. rewrite !Z.ltb_ge. lia.
  - destruct g; [apply refuse_ok, negb_false_iff, andb_true_iff; split; apply Z.leb_le; lia|].
    destruct (at_progress a) as [q|]; [|done].
    apply refuse_ok, negb_false_iff, andb_true_iff; split; apply Z.leb_le; lia.
Qed.
End advanced_row.

(** ** The rest of the database *)

Section rewritten_attempt.
Context (d : DB) (k : string * Z) (a a' : AttemptRecord).
Context (Ha : attempts d !! k = Some a).
Context (Hid : at_execution a' = at_execution a) (Hord : at_ordinal a' = at_ordinal a)
  (Hown : at_owner a' = at_owner a) (Hkind : phase_kind a' = phase_kind a).

Let d' : DB := with_table (Row := AttemptRecord) (<[k := a']> (attempts d)) d.

(** A foreign key into [attempts] reads an attempt's owner and the kind of its phase. *)
Lemma attempt_reference_kept (i : string * Z) (P : string -> string -> bool) :
  match attempts d !! i with Some r => P (at_owner r) (phase_kind r) | None => false end = true ->
  match attempts d' !! i with Some r => P (at_owner r) (phase_kind r) | None => false end = true.
Proof.
  unfold d'. simpl. destruct (decide (k = i)) as [->|Hne].
  - by rewrite Ha, lookup_insert_eq, Hown, Hkind.
  - by rewrite lookup_insert_ne.
Qed.

Lemma attempt_rewrite_keys : foreign_keys_hold d = true -> foreign_keys_hold d' = true.
Proof.
  intros Hfk. unfold foreign_keys_hold in *. bools.
  repeat (apply andb_true_intro; split); try assumption.
  - match goal with Hr : row_keys_hold (Row := CurrentExecutions) d = true |- _ =>
      rewrite row_keys_hold_ok in Hr; rename Hr into Hrows end.
    apply row_keys_hold_ok. simpl. intros w q Hq. destruct (Hrows w q Hq) as [Hi Hdef].
    split; [done|]. simpl in Hdef. unfold pointer_deferred_keys in *. simpl.
    destruct (option_pair (ptr_execution q) (ptr_attempt q)) as [[i o]|]; [|done]. simpl in *.
    apply andb_true_iff in Hdef as [He Hat]. apply andb_true_iff. split; [done|].
    exact (attempt_reference_kept (i, o)
      (fun v kind => bool_decide (v = ptr_owner q) && bool_decide (kind = "active")) Hat).
  - match goal with Hr : row_keys_hold (Row := ExecutionRecord) d = true |- _ =>
      rewrite row_keys_hold_ok in Hr; rename Hr into Hrows end.
    apply row_keys_hold_ok. simpl. intros e y Hy. destruct (Hrows e y Hy) as [Hi Hdef].
    split; [done|]. simpl in Hdef. unfold execution_deferred_keys in *. simpl.
    apply andb_true_iff in Hdef as [Hdef Hk4]. apply andb_true_iff in Hdef as [Hdef Hk3].
    apply andb_true_iff in Hdef as [Hat Hk2]. rewrite !andb_true_iff. split_and!; try done.
    destruct (option_pair (ex_ordinal y) (required_attempt_kind y)) as [[o kind]|]; [|done].
    simpl in *.
    exact (attempt_reference_kept (ex_id y, o)
      (fun v kind' => bool_decide (v = ex_owner y) && bool_decide (kind' = kind)) Hat).
  - match goal with Hr : row_keys_hold (Row := AttemptRecord) d = true |- _ =>
      rewrite row_keys_hold_ok in Hr; rename Hr into Hrows end.
    apply row_keys_hold_ok. simpl. intros i r Hr.
    apply lookup_insert_Some in Hr as [[_ <-]|[_ Hr]]; [|by apply (Hrows i)].
    destruct (Hrows k a Ha) as [Hi Hdef]. simpl in *. rewrite Hid, Hown. split; [done|].
    unfold attempt_deferred_keys, active_required_status in *. simpl.
    by rewrite Hkind, Hid, Hord, Hown.
  - apply audit_keys_attempts; [apply keeps_insert | done].
Qed.
End rewritten_attempt.

(** ** Reading the snapshot back *)

Definition with_attempt (sn : RecoverySnapshot) (a : AttemptRecord) : RecoverySnapshot :=
  mkRecoverySnapshot (sn_execution sn) (Some a) (sn_assignments sn) (sn_links sn) (sn_replay sn)
    (sn_obligations sn) (sn_intents sn) (sn_evidence sn) (sn_last_recovery sn)
    (sn_current_execution sn) (sn_current_attempt sn) (sn_pointer_revision sn) (sn_is_current sn).

Lemma current_snapshot_active sn a :
  snapshot_post_init sn = Ok tt -> sn_is_current sn = true -> sn_attempt sn = Some a ->
  (exists o, ex_lifecycle (sn_execution sn) = ActiveExecution o) /\
  exists p lease done dead, at_lifecycle a = LiveAttempt p lease done dead.
Proof.
  intros Hpost Hcur Ha. unfold snapshot_post_init in Hpost. rewrite !bind_ok_unit in Hpost.
  destruct Hpost as (_ & _ & _ & Hptr & _). unfold validate_current_pointer in Hptr.
  rewrite bind_ok_unit in Hptr. destruct Hptr as (_ & Hptr%refuse_ok).
  rewrite Ha, Hcur in Hptr. apply negb_false_iff, eqb_prop in Hptr. symmetry in Hptr. bools.
  split.
  - unfold ex_status in *. destruct (ex_lifecycle (sn_execution sn)); try done. eauto.
  - destruct (at_lifecycle a); [eauto 6|done].
Qed.

(** A current snapshot stays valid when its live attempt's row changes but not its identity. *)
Lemma with_attempt_valid sn a a' :
  snapshot_post_init sn = Ok tt -> sn_is_current sn = true -> sn_attempt sn = Some a ->
  at_execution a' = at_execution a -> at_ordinal a' = at_ordinal a -> at_owner a' = at_owner a ->
  (exists p lease done dead, at_lifecycle a' = LiveAttempt p lease done dead) ->
  snapshot_post_init (with_attempt sn a') = Ok tt.
Proof.
  intros Hpost Hcur Ha He Ho Hw (p' & l' & b' & x' & Hlive').
  destruct (current_snapshot_active _ _ Hpost Hcur Ha) as ((o & Hact) & p & l & b & x & Hlive).
  unfold snapshot_post_init in *. rewrite !bind_ok_unit in *.
  destruct Hpost as (H1 & H2 & H3 & H4 & H5 & H6 & H7). split_and!; try done.
  - unfold validate_attempt_identity in *. simpl. rewrite Ha in H3. simpl in H3.
    rewrite !bind_ok_unit in *. destruct H3 as (A1 & A2 & _).
    rewrite He, Ho, Hw, Hact, Hlive'. by split_and!.
  - unfold validate_current_pointer in *. simpl. rewrite Ha, Hlive in H4. by rewrite Hlive'.
  - unfold validate_snapshot in *. simpl. by rewrite Hact in *.
Qed.

Lemma recovery_read_rewritten e d sn o a a' :
  recovery_read e d = Ok sn -> ex_ordinal (sn_execution sn) = Some o -> sn_attempt sn = Some a ->
  attempt_post_init a = Ok tt /\
  (attempt_post_init a' = Ok tt -> snapshot_post_init (with_attempt sn a') = Ok tt ->
   recovery_read e (with_table (Row := AttemptRecord) (<[(e, o) := a']> (attempts d)) d)
   = Ok (with_attempt sn a')).
Proof.
  unfold recovery_read. intros H Ho Ha.
  apply bind_ok_inv in H as (row & Hrow & H). apply bind_ok_inv in H as (ex & Hex & H).
  apply bind_ok_inv in H as (att & Hatt & H). apply bind_ok_inv in H as (links & Hlinks & H).
  apply bind_ok_inv in H as (asg & Hasg & H). apply bind_ok_inv in H as (rep & Hrep & H).
  apply bind_ok_inv in H as (obs & Hobs & H). apply bind_ok_inv in H as (ints & Hints & H).
  apply bind_ok_inv in H as (evs & Hevs & H). apply bind_ok_inv in H as (aud & Haud & H).
  apply bind_ok_inv in H as (own & Hown & H). apply bind_ok_inv in H as ([] & Hpost & H).
  injection H as <-. simpl in Ho, Ha. subst att. rewrite Ho in Hatt.
  apply one_ok in Hatt as [_ Hatt]. split; [by apply Hatt|]. intros Ha' Hpost'.
  apply bind_ok_inv. exists row. split; [exact Hrow|]. apply bind_ok_inv. exists ex. split; [exact Hex|].
  apply bind_ok_inv. exists (Some a'). split.
  { rewrite Ho. unfold one. simpl. by rewrite lookup_insert_eq, Ha'. }
  apply bind_ok_inv. exists links. split; [exact Hlinks|].
  apply bind_ok_inv. exists asg. split; [exact Hasg|].
  apply bind_ok_inv. exists rep. split; [exact Hrep|].
  apply bind_ok_inv. exists obs. split; [exact Hobs|].
  apply bind_ok_inv. exists ints. split; [exact Hints|].
  apply bind_ok_inv. exists evs. split; [exact Hevs|].
  apply bind_ok_inv. exists aud. split; [exact Haud|].
  apply bind_ok_inv. exists own. split; [exact Hown|].
  apply bind_ok_inv. exists tt. by split.
Qed.

(** ** The advance *)

Lemma fence_replace_valid f sn a d revision :
  fence_read f d = Ok (sn, a) -> attempt_post_init a = Ok tt -> 0 < revision ->
  exists f', fence_replace f revision = Ok f'.
Proof.
  intros (_ & _ & _ & Hauth & _)%fence_read_ok Hpost Hrev.
  unfold fence_authority in Hauth. apply bind_ok_inv in Hauth as (dg & Hdg & Hauth).
  injection Hauth as He Ho Hw Hg _. apply token_digest_ok in Hdg as [[Hlo Hhi] _].
  unfold attempt_post_init in Hpost. rewrite !bind_ok_unit in Hpost.
  destruct Hpost as (Hid & _ & _ & Hpos%refuse_ok & _). apply Z.leb_gt in Hpos.
  eexists. unfold fence_replace. apply bind_ok_inv. exists tt. split; [|done].
  unfold fence_post_init. rewrite !bind_ok_unit. simpl. rewrite He. split_and!; try done.
  - unfold require_nonempty. destruct (of_token f); [|done]. unfold len in Hlo. simpl in Hlo. lia.
  - unfold require_bounded. apply refuse_ok, Z.ltb_ge. done.
  - apply refuse_ok, Z.leb_gt. lia.
Qed.

(** The write of [record_advance] is accepted. *)
Lemma record_advance_accepted a p' b x g reason s life :
  db_reachable (db s) -> foreign_keys_hold (db s) = true ->
  attempts (db s) !! (at_execution a, at_ordinal a) = Some a ->
  observed (at_lifecycle a) (LiveKind p') b x g = Ok life ->
  (exists p lease done dead, at_lifecycle a = LiveAttempt p lease done dead) ->
  reason_check reason = true -> 0 <= clock_ms s (ticks s) ->
  let row := advanced_row a life (Z.max (clock_ms s (ticks s)) (at_updated a)) g reason in
  let d' := with_table (Row := AttemptRecord)
              (<[(at_execution a, at_ordinal a) := row]> (attempts (db s))) (db s) in
  record_advance a (LiveKind p') b x g reason s = (Ok tt, with_db d' (tick s)) /\
  foreign_keys_hold d' = true /\ (attempt_post_init a = Ok tt -> attempt_post_init row = Ok tt) /\
  exists p lease done dead, at_lifecycle row = LiveAttempt p lease done dead.
Proof.
  intros Hd Hfk Ha Hobs (p & lease & done & dead & Hlive) Hreason Hclock row d'.
  assert (Hlife : life = LiveAttempt p' lease (done || b) (dead || x)).
  { rewrite Hlive in Hobs. apply observed_live_ok in Hobs as (_ & q & [= <-] & _ & _ & ->). done. }
  subst life. pose proof (reachable_checked _ Hd _ _ declared_attempts _ _ Ha) as Hchk. simpl in Hchk.
  assert (Ht : at_updated a <= Z.max (clock_ms s (ticks s)) (at_updated a)) by lia.
  assert (Hkeys : foreign_keys_hold d' = true).
  { apply (attempt_rewrite_keys (db s) _ a row Ha); try done.
    unfold row, phase_kind, at_phase. simpl. by rewrite Hlive. }
  split_and!; [|done| |by eauto 6].
  - unfold record_advance.
    apply bindM_ok. exists (Z.max (clock_ms s (ticks s)) (at_updated a)), (tick s).
    split; [by apply now_reads|].
    apply bindM_ok. eexists. exists (tick s). split; [by apply lift_ok|].
    apply bindM_ok. exists 1, (with_db d' (tick s)). split; [|done].
    apply update_ok. exists d'. split; [|done]. apply exec_update_ok. right. split; [done|].
    exists a. split_and!; [done|done|by apply (advanced_guard a p p' lease _ done dead b x g)|].
    apply write_row_ok.
    split_and!; [by apply (advanced_checks a p p' lease _ done dead b x g)| |done|done|].
    + apply not_true_iff_false. intros (j & a2 & Hj & Heq)%map_exists_spec.
      apply lookup_delete_Some in Hj as [Hne Hj]. simpl in Heq. bools.
      by apply Hne, (reachable_digests_unique _ Hd _ _ _ _ Ha Hj).
    + unfold foreign_keys_hold in Hfk. bools.
      match goal with Hr : row_keys_hold (Row := AttemptRecord) _ = true |- _ =>
        rewrite row_keys_hold_ok in Hr; by destruct (Hr _ _ Ha) as [Hi _] end.
  - intros Hp. by apply advanced_post_init.
Qed.

(** A current fence can always advance: with the pointer revision its snapshot shows,
    an observation the attempt's state allows and a valid reason, advance returns in every
    committed store, and the attempt's row holds the observed state at the next revision. *)
Theorem current_fence_advances (f : OwnerFence) (p : LivePhase) (b x g : bool) (reason : ReasonCode)
    (s : Session) (sn : RecoverySnapshot) (a : AttemptRecord) (life : AttemptState) :
  db_reachable (db s) -> foreign_keys_hold (db s) = true -> fence_read f (db s) = Ok (sn, a) ->
  observed (at_lifecycle a) (LiveKind p) b x g = Ok life -> reason_check reason = true ->
  0 <= clock_ms s (ticks s) ->
  exists r s' a', advance f (LiveKind p) (sn_pointer_revision sn) b x g reason s
                  = (Ok (Applied r), s') /\
    attempts (db s') !! (of_execution f, of_ordinal f) = Some a' /\
    at_lifecycle a' = life /\ at_revision a' = at_revision a + 1.
Proof.
  intros Hd Hfk Hf Hobs Hreason Hclock.
  pose proof (fence_read_rows _ _ _ _ Hd Hf) as (Hrow & _ & Hord & _).
  pose proof (reachable_keyed _ Hd _ _ declared_attempts _ _ Hrow) as Hk. simpl in Hk.
  pose proof Hf as (Hsn & Hcur & Ha & _)%fence_read_ok.
  pose proof (recovery_read_ok _ _ _ Hsn) as (_ & _ & _ & _ & _ & _ & _ & _ & _ & Hpost).
  destruct (current_snapshot_active _ _ Hpost Hcur Ha) as (_ & Hlive).
  rewrite <- Hk in Hrow.
  destruct (record_advance_accepted a p b x g reason s life Hd Hfk Hrow Hobs Hlive Hreason Hclock)
    as (Hadv & Hkeys & Hinit & Hlive').
  set (row := advanced_row a life (Z.max (clock_ms s (ticks s)) (at_updated a)) g reason) in *.
  destruct (recovery_read_rewritten _ _ _ _ _ row Hsn Hord Ha) as (Hpa & Hread).
  rewrite <- Hk in Hread.
  specialize (Hread (Hinit Hpa)
    (with_attempt_valid sn a row Hpost Hcur Ha eq_refl eq_refl eq_refl Hlive')).
  destruct (fence_replace_valid f sn a (db s) (at_revision a + 1) Hf Hpa) as (f' & Hf').
  { pose proof (reachable_checked _ Hd _ _ declared_attempts _ _ Hrow) as Hc. simpl in Hc.
    unfold attempt_checks in Hc. bools. lia. }
  match type of Hadv with _ = (_, ?s') => match type of Hread with _ = Ok ?sn' =>
    exists (mkStartResult sn' f'), s' end end.
  eexists. split_and!; [|rewrite <- Hk; apply lookup_insert_eq|done|done].
  unfold advance. apply bindM_ok. exists tt, s. split; [done|]. apply writing_ok. split; [|exact Hkeys].
  apply bindM_ok. exists (sn, a), s. split; [by apply reading_ok|].
  apply bindM_ok. exists tt, s. split; [simpl; by rewrite Z.eqb_refl|].
  apply bindM_ok. eexists _, _. split; [exact Hadv|].
  apply bindM_ok. eexists _, _. split; [apply reading_ok; split; [exact Hread|done]|].
  apply bindM_ok. eexists _, _. split; [by apply lift_ok|].
  apply bindM_ok. eexists _, _. split; [by apply lift_ok|]. done.
Qed.
