(* ===== verification/AttemptOutcomes.v ===== *)
(** * Outcomes of an attempt

    The effect of [AttemptStore.fail_unknown] and [AttemptStore.settle_nonpublication],
    the two ways an owner ends its attempt without publishing a response. *)

From stdpp Require Import base gmap strings list sorting.
From Stdlib Require Import ZArith Lia.
From S2P Require Import Prelude Contracts Lifecycle WakePolicy AssignmentStates ResponseStates.
From S2P Require Import AttemptStates ExecutionStates Rows TableGuards Database Session SchemaSteps.
From S2P Require Import SchemaInvariants Replay Stepwise ParticipantStore AssignmentStore.
From S2P Require Import Snapshot Settlement ExecutionStore Sha256 AttemptStore Fences.

(** The rows of execution [e] after its attempt [o] ended as [t], owned by [w], leaving
    the execution in [st], its obligations in [rs] and its claims in the coupled state *)
Record settled (e w : string) (o : Z) (t : TerminalPhase) (st : ExecutionState) (rs : ResponseState)
    (sn : RecoverySnapshot) (d : DB) : Prop := mkSettled {
  settled_attempt : exists a, attempts d !! (e, o) = Some a /\ at_lifecycle a = TerminalAttempt t;
  settled_execution : exists x, executions d !! e = Some x /\ ex_lifecycle x = st;
  settled_pointer : exists p, current_executions d !! w = Some p /\ ptr_execution p = None /\
                              ptr_attempt p = None;
  settled_obligations : forall r, r ∈ sn_obligations sn ->
    exists r', obligations d !! (e, ob_target r) = Some r' /\ ob_lifecycle r' = rs;
  settled_claims : forall c, c ∈ sn_assignments sn ->
    exists c', wake_claims d !! wa_id c = Some c' /\
               wa_disposition c' = assignment_state (execution_kind st);
}.

Lemma settle_settled sn t reason boundary s u s' e o :
  db_reachable (db s) -> recovery_read e (db s) = Ok sn ->
  ex_ordinal (sn_execution sn) = Some o -> settle sn t reason boundary s = (Ok u, s') ->
  exists a st rs, sn_attempt sn = Some a /\ at_ordinal a = o /\ disposition t sn a = Ok (st, rs) /\
    settled e (ex_owner (sn_execution sn)) o t st rs sn (db s') /\
    assessment_after t e (db s) (db s') /\ untouched sn (db s) (db s').
Proof.
  intros Hd Hsn Ho H.
  destruct (settle_effect _ _ _ _ _ _ _ _ Hd Hsn H)
    as (a & st & rs & Ha & Hdisp & (a' & Ha' & Hlife & _) & (x' & Hx' & Hst & _)
        & (p & Hp & Hpe & Hpa & _) & Hobs & Hcl & Hrep & Hun).
  pose proof (snapshot_ordinal _ _ _ _ _ Hd Hsn Ho Ha) as Hao. rewrite Hao in Ha'.
  exists a, st, rs. split_and!; try done. split; eauto.
Qed.

Lemma retry_denied d e r :
  replay_assessments d !! e = Some r -> ra_allows_retry r = false -> db_reachable d ->
  retry_basis d e = false.
Proof.
  intros Hr Hno Hd. destruct (executions d !! e) as [x|] eqn:Ex.
  - pose proof (reachable_keyed d Hd _ _ declared_executions _ _ Ex) as Hid. simpl in Hid.
    rewrite (retry_basis_execution d e x Ex Hid). unfold execution_retry_authorized, origin_retry_authorized.
    rewrite Hr. simpl. rewrite Hno. simpl. by rewrite ?andb_false_r.
  - unfold retry_basis. by rewrite Ex.
Qed.

Lemma retry_denied_after d d' e r :
  db_reachable d -> replay_assessments d !! e = Some r -> ra_allows_retry r = false ->
  rtc db_step d d' -> retry_basis d' e = false.
Proof.
  intros Hd Hr Hno Hs. destruct (replay_revoked_steps _ _ _ _ Hs Hr Hno) as (r' & Hr' & Hno' & _).
  apply (retry_denied _ _ _ Hr' Hno'). by apply (reachable_steps d).
Qed.

(** No attempt follows one that did not fail. *)
Lemma no_attempt_follows d d' e o a t :
  db_reachable d -> rtc db_step d d' -> attempts d !! (e, o) = Some a ->
  at_lifecycle a = TerminalAttempt t -> t <> AttemptFailed -> 1 <= o ->
  attempts d' !! (e, o + 1) = None.
Proof.
  intros Hd Hs Ha Hlife Ht Ho. destruct (attempts d' !! (e, o + 1)) as [b|] eqn:Eb; [exfalso|done].
  destruct (reachable_history d' (reachable_steps _ _ Hd Hs) _ _ _ Eb) as (_ & Hprev).
  destruct Hprev as (p & Hp & Hfail & _); [lia|]. replace (o + 1 - 1) with o in Hp by lia.
  rewrite (terminal_attempt_kept _ _ _ _ _ Hs Ha Hlife) in Hp. congruence.
Qed.

(** ** Snapshots of states that agree on the coupled rows *)

(** What a snapshot's execution, obligations and claims are read from *)
Definition coupled_part (d : DB) :=
  (executions d, obligations d, execution_claims d, wake_claims d).

Lemma recovery_read_links e d sn : recovery_read e d = Ok sn -> sn_links sn = link_rows d e.
Proof.
  unfold recovery_read. intros H.
  apply bind_ok_inv in H as (row & _ & H). apply bind_ok_inv in H as (ex & _ & H).
  apply bind_ok_inv in H as (att & _ & H). apply bind_ok_inv in H as (links & Hlinks & H).
  apply bind_ok_inv in H as (asg & _ & H). apply bind_ok_inv in H as (rep & _ & H).
  apply bind_ok_inv in H as (obs & _ & H). apply bind_ok_inv in H as (ints & _ & H).
  apply bind_ok_inv in H as (evs & _ & H). apply bind_ok_inv in H as (aud & _ & H).
  apply bind_ok_inv in H as (own & _ & H). apply bind_ok_inv in H as ([] & _ & H).
  injection H as <-. by apply decode_rows_ok in Hlinks as [-> _].
Qed.

Lemma coupled_snapshots e d d' sn sn' :
  coupled_part d' = coupled_part d -> recovery_read e d = Ok sn -> recovery_read e d' = Ok sn' ->
  sn_execution sn' = sn_execution sn /\ sn_obligations sn' = sn_obligations sn /\
  sn_assignments sn' = sn_assignments sn.
Proof.
  intros Hpart Hsn Hsn'. injection Hpart as Hex Hob Hln Hcl.
  pose proof (recovery_read_links _ _ _ Hsn) as Hl. pose proof (recovery_read_links _ _ _ Hsn') as Hl'.
  pose proof (recovery_read_ok _ _ _ Hsn) as (Hx & _ & _ & Ho & _ & _ & _ & _ & Hm & _).
  pose proof (recovery_read_ok _ _ _ Hsn') as (Hx' & _ & _ & Ho' & _ & _ & _ & _ & Hm' & _).
  unfold obligation_rows, link_rows, assignment_read in *. unfold one in Hm, Hm'. simpl in Hm, Hm'.
  rewrite Hex in Hx'. rewrite Hob in Ho'. rewrite Hln in Hl'. rewrite Hcl, Hl', <- Hl in Hm'.
  split_and!; congruence.
Qed.

(** [settled] depends on the snapshot through its obligations and claims only. *)
Lemma settled_snapshot e w o t st rs sn sn' d :
  sn_obligations sn' = sn_obligations sn -> sn_assignments sn' = sn_assignments sn ->
  settled e w o t st rs sn' d -> settled e w o t st rs sn d.
Proof. intros Ho Ha [H1 H2 H3 H4 H5]. rewrite Ho in H4. rewrite Ha in H5. by split. Qed.

(** ** Unknown outcomes *)

(** [fail_unknown] up to its settlement *)
Lemma fail_unknown_ok f pointer_revision boundary s r s' :
  db_reachable (db s) -> fail_unknown f pointer_revision boundary s = (Ok r, s') ->
  exists sn a s1 current,
    fence_read f (db s) = Ok (sn, a) /\ sn_pointer_revision sn = pointer_revision /\
    db_reachable (db s1) /\ coupled_part (db s1) = coupled_part (db s) /\
    recovery_read (of_execution f) (db s1) = Ok current /\
    settle current UnknownOutcome native_unknown boundary s1 = (Ok tt, s').
Proof.
  unfold fail_unknown, require_fence, recovery_get. intros Hd H. apply writing_ok in H as [H _].
  apply bindM_ok in H as ([sn a] & s1 & [Hf ->]%reading_ok & H). simpl in H.
  apply bindM_ok in H as ([] & s2 & [Hrev ->]%lift_ok & H).
  apply refuse_ok, negb_false_iff, Z.eqb_eq in Hrev.
  apply bindM_ok in H as ([] & s3 & [_ ->]%lift_ok & H).
  apply bindM_ok in H as ([] & s4 & Hadv & H).
  apply bindM_ok in H as (current & s5 & [Hcur ->]%reading_ok & H).
  apply bindM_ok in H as ([] & s6 & Hset & H).
  apply bindM_ok in H as (after & s7 & [_ ->]%reading_ok & [-> ->]%ret_ok).
  exists sn, a, s4, current. split_and!; try done.
  - destruct (_ && _); [by apply ret_ok in Hadv as [_ ->]|].
    eapply reachable_steps; [exact Hd|].
    pose proof (stepwise_record_advance a (at_phase a) true true false native_unknown s) as Hs.
    by rewrite Hadv in Hs.
  - destruct (_ && _); [by apply ret_ok in Hadv as [_ ->]|].
    refine (preserves_ok coupled_part _ _ _ _ _ Hadv). unfold record_advance. preserves.
Qed.

(** Accumulating any observed fact of an execution stores the fact, and from then on no
    store the program reaches authorises a retry of that execution. *)
Theorem observed_effects_deny_retry (e : string) (observed : Z) (s s' : Session) (u : unit) :
  db_reachable (db s) -> accumulate e observed s = (Ok u, s') -> observed <> 0 ->
  (exists r, replay_assessments (db s') !! e = Some r /\ Z.land (ra_facts r) observed = observed) /\
  forall d, rtc db_step (db s') d -> retry_basis d e = false.
Proof.
  intros Hd H Hobs. destruct (accumulate_ok _ _ _ _ _ H Hobs) as (r & Hr & Hland & Hsafe & _).
  split; [by exists r|]. intros d Hs. eapply retry_denied_after; [|exact Hr| |exact Hs].
  - pose proof (stepwise_accumulate e observed s) as Hacc. rewrite H in Hacc.
    by apply (reachable_steps (db s)).
  - unfold ra_allows_retry. by rewrite Hsafe.
Qed.

(** C9: fail_unknown, called with the attempt's live fence, ends the attempt as unknown,
    fails the execution with its obligations and claims and frees the owner; from then on,
    whatever is written, no retry of the execution is authorised and it never has a further
    attempt. *)
Theorem unknown_outcome_never_retried (f : OwnerFence) (pointer_revision : Z) (boundary : Boundary)
    (s s' : Session) (r : applied RecoverySnapshot) :
  db_reachable (db s) -> fail_unknown f pointer_revision boundary s = (Ok r, s') ->
  exists sn a,
    fence_read f (db s) = Ok (sn, a) /\ sn_pointer_revision sn = pointer_revision /\
    settled (of_execution f) (of_owner f) (of_ordinal f) UnknownOutcome
      (FailedExecution (Some (of_ordinal f))) FailedResponse sn (db s') /\
    forall d, rtc db_step (db s') d ->
      retry_basis d (of_execution f) = false /\
      attempts d !! (of_execution f, of_ordinal f + 1) = None.
Proof.
  intros Hd H. pose proof (stepwise_fail_unknown f pointer_revision boundary s) as Hsteps.
  rewrite H in Hsteps. apply (reachable_steps _ _ Hd) in Hsteps. simpl in Hsteps.
  destruct (fail_unknown_ok _ _ _ _ _ _ Hd H)
    as (sn & a & s1 & current & Hf & Hrev & Hd1 & Hpart & Hcur & Hset).
  pose proof (fence_read_rows _ _ _ _ Hd Hf) as (Ha & Hx & Hord & Hown & _).
  pose proof Hf as (Hsn & _)%fence_read_ok.
  destruct (coupled_snapshots _ _ _ _ _ Hpart Hsn Hcur) as (Hex & Hobs & Hcl).
  destruct (settle_settled _ _ _ _ _ _ _ _ (of_ordinal f) Hd1 Hcur ltac:(congruence) Hset)
    as (a1 & st & rs & Ha1 & Hao & Hdisp & Hsettled & Hrep & _).
  simpl in Hdisp. injection Hdisp as <- <-. rewrite Hex, Hown, Hao in Hsettled.
  destruct (proj2 Hrep) as (rep & Hrep' & Hno); [done|].
  exists sn, a. split_and!; [done|done|by apply (settled_snapshot _ _ _ _ _ _ _ _ _ Hobs Hcl)|].
  intros d Hs. split.
  - by apply (retry_denied_after _ _ _ _ Hsteps Hrep' Hno).
  - destruct Hsettled as [(b & Hb & Hlife) _ _ _ _].
    destruct (reachable_history _ Hd _ _ _ Ha) as ((x & _ & _ & Hlo & _) & _).
    by apply (no_attempt_follows _ _ _ _ _ _ Hsteps Hs Hb Hlife).
Qed.

(** ** Settlement without a publication *)

Lemma prepare_preserves failure e : preserves coupled_part (prepare_execution_retry failure e).
Proof.
  unfold prepare_execution_retry, authorize_if_unobserved, revoke, replay_observe, replay_record,
    replay_for_execution.
  preserves.
Qed.

(** The assessment a provider's failure writes before the settlement, if it writes one: a
    retryable failure authorizes the first, any other revokes one that was safe. *)
Definition reassessment (failure : TurnFailure) (e : string) (stored : option ReplayAssessments) : option ReplayAssessments :=
  match failure, stored with
  | RetryableProviderFailure, None => Some (mkReplayAssessments e ReplayFact_NONE true false 1)
  | OtherTurnFailure, Some r =>
      if ra_safe r then Some (mkReplayAssessments e (ra_facts r) false (ra_side_effects r) (ra_revision r + 1)) else None
  | _, _ => None
  end.

(** The rows the settlement decides on *)
Definition assessed (failure : option TurnFailure) (e : string) (d : DB) : DB :=
  match failure with
  | Some f =>
      match reassessment f e (replay_assessments d !! e) with
      | Some r => with_table (Row := ReplayAssessments) (<[e := r]> (replay_assessments d)) d
      | None => d
      end
  | None => d
  end.

Lemma prepare_assessed failure e s u s' :
  db_reachable (db s) -> prepare_execution_retry failure e s = (Ok u, s') -> db s' = assessed (Some failure) e (db s).
Proof.
  intros Hd H. unfold prepare_execution_retry, authorize_if_unobserved, revoke, replay_for_execution in H.
  destruct failure; apply bindM_ok in H as (stored & s1 & [[Hs _]%one_ok ->]%reading_ok & H);
    simpl in Hs; simpl; rewrite Hs; destruct stored as [r|]; simpl.
  - by apply ret_ok in H as [_ ->].
  - apply bindM_ok in H as (b & s2 & H & [_ ->]%ret_ok). unfold replay_observe in H.
    apply bindM_ok in H as (? & ? & [_ ->]%lift_ok & H). apply bindM_ok in H as (? & ? & [_ ->]%lift_ok & H).
    unfold replay_record in H. apply bindM_ok in H as (? & ? & Hi & [_ ->]%ret_ok).
    apply insert_ok in Hi as (_ & d' & Hi & ->). apply exec_insert_replay in Hi as ->. done.
  - pose proof (reachable_keyed _ Hd _ _ declared_replays _ _ Hs) as Hk. simpl in Hk. subst e.
    destruct (ra_safe r) eqn:Hsafe; [|by apply ret_ok in H as [_ ->]].
    apply bindM_ok in H as (? & ? & [_ ->]%lift_ok & H). apply bindM_ok in H as (b & s2 & H & [_ ->]%ret_ok).
    unfold replay_record in H. apply bindM_ok in H as (? & ? & [_ ->]%lift_ok & H). simpl in H.
    rewrite bool_decide_eq_false_2 in H by (rewrite Hsafe; congruence).
    apply bindM_ok in H as (? & ? & [_ ->]%lift_ok & H). apply bindM_ok in H as (n & ? & Hu & [_ ->]%ret_ok).
    by apply update_row_ok with (old := r) in Hu as (_ & _ & -> & _).
  - by apply ret_ok in H as [_ ->].
Qed.

Lemma untouched_assessed failure e d sn d' :
  ex_id (sn_execution sn) = e -> untouched sn (assessed failure e d) d' -> untouched sn d d'.
Proof.
  intros He Hun. destruct failure as [f|]; [|done]. simpl in Hun.
  destruct (reassessment f e (replay_assessments d !! e)) as [r|]; [|done].
  destruct Hun. split; simpl in *; try done.
  intros e' Hne. rewrite same_replays by done. rewrite lookup_insert_ne; [done|congruence].
Qed.

(** [settle_nonpublication] up to its settlement *)
Lemma settle_nonpublication_ok f pointer_revision t reason failure boundary s r s' :
  db_reachable (db s) ->
  settle_nonpublication f pointer_revision t reason failure boundary s = (Ok r, s') ->
  exists sn a s1 current b,
    fence_read f (db s) = Ok (sn, a) /\ sn_pointer_revision sn = pointer_revision /\
    db_reachable (db s1) /\ coupled_part (db s1) = coupled_part (db s) /\
    db s1 = assessed failure (of_execution f) (db s) /\
    fence_read f (db s1) = Ok (current, b) /\
    settle current t reason boundary s1 = (Ok tt, s').
Proof.
  unfold settle_nonpublication, require_fence, recovery_get. intros Hd H. apply writing_ok in H as [H _].
  apply bindM_ok in H as ([sn a] & s1 & [Hf ->]%reading_ok & H). simpl in H.
  apply bindM_ok in H as ([] & s2 & [Hrev ->]%lift_ok & H).
  apply refuse_ok, negb_false_iff, Z.eqb_eq in Hrev.
  apply bindM_ok in H as (current & s3 & Hcur & H).
  apply bindM_ok in H as ([] & s4 & Hset & H).
  apply bindM_ok in H as (after & s5 & [_ ->]%reading_ok & [-> ->]%ret_ok).
  destruct failure as [failure|].
  - apply bindM_ok in Hcur as ([] & s6 & Hprep & Hcur).
    apply bindM_ok in Hcur as ([sn1 b] & s7 & [Hf1 ->]%reading_ok & Hcur).
    apply ret_ok in Hcur as [-> ->]. exists sn, a, s6, sn1, b. split_and!; try done.
    + eapply reachable_steps; [exact Hd|].
      pose proof (stepwise_prepare_execution_retry failure (of_execution f) s) as Hs.
      by rewrite Hprep in Hs.
    + by refine (preserves_ok coupled_part _ _ _ _ (prepare_preserves _ _) Hprep).
    + by eapply prepare_assessed.
  - apply ret_ok in Hcur as [-> ->]. exists sn, a, s, sn, a. by split_and!.
Qed.

(** What the settlement of each outcome leaves, by the retry rule of the settled state *)
Definition settled_states (t : TerminalPhase) (ordinal : Z) (retry : bool)
    : ExecutionState * ResponseState :=
  match t with
  | Succeeded => (CompletedExecution ordinal, SilentResponse)
  | AttemptFailed => if retry then (DeferredExecution (Some ordinal), DeferredResponse)
                     else (FailedExecution (Some ordinal), FailedResponse)
  | UnknownOutcome => (FailedExecution (Some ordinal), FailedResponse)
  end.

Lemma disposition_states t sn a states :
  disposition t sn a = Ok states -> states = settled_states t (at_ordinal a) (sn_retry_authorized sn).
Proof.
  unfold disposition, settled_states, attempt_execution. intros H. destruct t.
  - ok_inv. done.
  - destruct (sn_retry_authorized sn); by injection H as <-.
  - by injection H as <-.
Qed.

(** C10: A settlement without a publication that returns has moved every coupled row
    together: the attempt is terminal, the execution is completed, deferred or failed as the
    outcome and the retry rule decide, every obligation and bound claim of the execution has
    the matching state and the owner's pointer is clear.  A provider's failure, where one is
    given, was recorded first: the rule decides on the assessment it left (a retryable
    failure authorises one that was absent, any other revokes a safe one), and that
    assessment stays unless the outcome itself denies the retry.  Every row but these is as
    it was. *)
Theorem settlement_couples_every_row (f : OwnerFence) (pointer_revision : Z) (t : TerminalPhase)
    (reason : ReasonCode) (failure : option TurnFailure) (boundary : Boundary)
    (s s' : Session) (r : applied RecoverySnapshot) :
  db_reachable (db s) ->
  settle_nonpublication f pointer_revision t reason failure boundary s = (Ok r, s') ->
  let d1 := assessed failure (of_execution f) (db s) in
  let states := settled_states t (of_ordinal f) (retry_basis d1 (of_execution f)) in
  exists sn a,
    fence_read f (db s) = Ok (sn, a) /\ sn_pointer_revision sn = pointer_revision /\
    settled (of_execution f) (of_owner f) (of_ordinal f) t states.1 states.2 sn (db s') /\
    assessment_after t (of_execution f) d1 (db s') /\
    untouched sn (db s) (db s').
Proof.
  intros Hd H d1 states. destruct (settle_nonpublication_ok _ _ _ _ _ _ _ _ _ Hd H)
    as (sn & a & s1 & current & b & Hf & Hrev & Hd1 & Hpart & Hs1 & Hf1 & Hset). fold d1 in Hs1.
  pose proof (fence_read_rows _ _ _ _ Hd1 Hf1) as (Hb & Hx & Hord & Hown & _).
  pose proof Hf as (Hsn & _)%fence_read_ok. pose proof Hf1 as (Hcur & _)%fence_read_ok.
  destruct (coupled_snapshots _ _ _ _ _ Hpart Hsn Hcur) as (Hex & Hobs & Hcl).
  destruct (settle_settled _ _ _ _ _ _ _ _ (of_ordinal f) Hd1 Hcur Hord Hset)
    as (a1 & st & rs & Ha1 & Hao & Hdisp & Hsettled & Hafter & Hun).
  exists sn, a. apply disposition_states in Hdisp. rewrite Hao in Hdisp.
  pose proof (recovery_read_ok _ _ _ Hcur) as (_ & _ & Hrep & Hob & _).
  pose proof (reachable_keyed _ Hd1 _ _ declared_executions _ _ Hx) as Hid. simpl in Hid.
  assert (Hstates : (st, rs) = states).
  { rewrite Hdisp. unfold states. rewrite <- Hs1, (retry_basis_execution _ _ _ Hx Hid), <- Hrep, <- Hob. done. }
  rewrite <- Hstates. simpl. rewrite Hown in Hsettled. split_and!; [done|done| |by rewrite <- Hs1|].
  - by apply (settled_snapshot _ _ _ _ _ _ _ _ _ Hobs Hcl).
  - apply (untouched_assessed failure (of_execution f) _ sn); [congruence|]. fold d1. rewrite <- Hs1.
    destruct Hun. rewrite Hex in *. rewrite Hcl in *. by split.
Qed.

(** The success of a wire execution is never recorded without its published response:
    settling one as succeeded without a publication raises, whatever the rows, and leaves
    every row as it was. *)
Theorem silent_wire_completion_refused (f : OwnerFence) (pointer_revision : Z) (reason : ReasonCode)
    (failure : option TurnFailure) (boundary : Boundary) (s s' : Session) (x : ExecutionRecord)
    (result : outcome (applied RecoverySnapshot)) :
  db_reachable (db s) -> executions (db s) !! of_execution f = Some x ->
  wire_origin (ex_origin x) = true ->
  settle_nonpublication f pointer_revision Succeeded reason failure boundary s = (result, s') ->
  (exists err, result = Err err) /\ db s' = db s.
Proof.
  intros Hd Hx Hwire H. destruct result as [r|err].
  - exfalso. destruct (settle_nonpublication_ok _ _ _ _ _ _ _ _ _ Hd H)
      as (sn & a & s1 & current & b & _ & _ & Hd1 & Hpart & _ & Hf1 & Hset).
    apply fence_read_ok in Hf1 as (Hcur & _).
    pose proof (recovery_read_ok _ _ _ Hcur) as (Hx1 & _). injection Hpart as Hex _ _ _.
    rewrite Hex, Hx in Hx1. injection Hx1 as ->.
    by destruct (silent_wire_settlement_stops _ _ _ _ _ _ _ Hd1 Hcur Hwire Hset) as [? [=]].
  - unfold settle_nonpublication in H. apply writing_err in H. eauto.
Qed.
