(* ===== verification/Recovery.v ===== *)
(** * Recovery of a dead attempt

    [terminalize_dead_attempt] of [attempt_recovery.py] ends the attempt of an owner whose
    process was observed to be gone.  It never acts under a live fence: the caller holds the
    observed release of that owner and names the revisions it saw.  Whether the child's last
    message was final decides the outcome ([pi_vocabulary.py]); no outcome authorises a
    replay. *)

From stdpp Require Import base gmap strings list sorting.
From Stdlib Require Import ZArith Lia.
From S2P Require Import Prelude Contracts Lifecycle WakePolicy AssignmentStates ResponseStates.
From S2P Require Import AttemptStates ExecutionStates Rows TableGuards Database CohortTables Session SchemaSteps.
From S2P Require Import SchemaInvariants Replay Stepwise ParticipantStore AssignmentStore.
From S2P Require Import Snapshot Settlement ExecutionStore Sha256 AttemptStore Fences AttemptOutcomes.

(** ** How the native session ended *)

(** The members of [PiStopReason] *)
Inductive PiStopReason : Type :=
| PendingStopReason | StopStopReason | LengthStopReason | ToolUseStopReason
| ErrorStopReason | AbortedStopReason | DeferredStopReason | UnreportedStopReason.

(** A [FinishedPiStop]: the native turn ended with a terminal message. *)
Definition finished_stop (r : PiStopReason) : bool :=
  match r with
  | StopStopReason | LengthStopReason | ErrorStopReason | AbortedStopReason => true
  | PendingStopReason | ToolUseStopReason | DeferredStopReason | UnreportedStopReason => false
  end.

(** [record_recovery] of [PiStopReason] and of [FinishedPiStop] *)
Definition record_recovery (terminal : PiStopReason) (execution : ExecutionRecord) : M TerminalPhase :=
  if finished_stop terminal then
    _ ← accumulate (ex_id execution) ASSISTANT_OUTPUT;
    mret AttemptFailed
  else
    _ ← accumulate (ex_id execution) (replay_contribution UnknownOutcome);
    mret UnknownOutcome.

(** ** Evidence and authority *)

Record MonitorEvidence : Type := mkMonitorEvidence {
  me_subprocess_dead : bool;
  me_backend_done : bool;
  me_reason : string;
  me_observed : Z;
  me_terminal : PiStopReason;
}.

(** [MonitorEvidence.__post_init__] with the [GivenReasonCode] it holds *)
Definition evidence_post_init (e : MonitorEvidence) : outcome unit :=
  _ ← require (length_between (me_reason e) 1 MAX_REASON_CODE_CHARS) (ValueError "reason code is invalid");
  refuse (me_observed e <? 0) (ValueError "negative evidence timestamp").

(** A [VerifiedAttemptOwnerLoss]: [ol_issued] is [issued_for] of the store in use, which only
    the observation of a release establishes, and [ol_boundary] the capture it holds. *)
Record VerifiedAttemptOwnerLoss : Type := mkOwnerLoss {
  ol_issued : bool;
  ol_attempt : AttemptRecord;
  ol_boundary : Boundary;
}.

(** [VerifiedAttemptOwnerLoss.owns] *)
Definition owns (loss : VerifiedAttemptOwnerLoss) (attempt : AttemptRecord) : bool :=
  ol_issued loss
  && bool_decide (attempt_authority (ol_attempt loss) = attempt_authority attempt)
  && bool_decide ((at_owner (ol_attempt loss), at_generation (ol_attempt loss))
                  = (at_owner attempt, at_generation attempt)).

(** ** Recording and settling *)

(** [replace(attempt.lifecycle, process_dead=True, backend_done=...)]: a terminal state has
    no such fields. *)
Definition dead_lifecycle (s : AttemptState) (backend_done : bool) : outcome AttemptState :=
  match s with
  | LiveAttempt p lease done _ => Ok (LiveAttempt p lease (done || backend_done) true)
  | TerminalAttempt _ => Err TypeError
  end.

(** The row id SQLite assigns: rows are never deleted, so the next one *)
Definition next_audit (d : DB) : Z :=
  1 + foldr Z.max 0 (map (fun ka => au_id (snd ka)) (map_to_list (recovery_audits d))).

(** The recovery row of a settled execution *)
Definition recovery_audit (execution_id : string) (settled : ExecutionRecord) (reason : string)
    (ordinal t : Z) (d : DB) : RecoveryAudit :=
  mkRecoveryAudit execution_id
    (if exec_retry (ex_status settled) then DeferredRecovery else FailedRecovery)
    reason NoDetail ordinal 0 t (next_audit d).

(** What the transaction of [terminalize_dead_attempt] leaves: the settled snapshot, or
    recorded death that settles nothing yet *)
Inductive Recovered : Type :=
| RecoverySettled (after : RecoverySnapshot)
| DeathRecorded (unresolved backend_done : bool).

Definition record_dead_attempt (execution_id : string) (ordinal owner_generation : Z)
    (expected_attempt_revision expected_execution_revision expected_pointer_revision : Z)
    (evidence : MonitorEvidence) (owner_loss : VerifiedAttemptOwnerLoss) : M Recovered :=
  snapshot ← recovery_get execution_id;
  attempt ← lift (of_option (sn_attempt snapshot)
              (StaleFence "monitor must name the exact old active attempt"));
  _ ← lift (refuse (negb (sn_is_current snapshot) || negb (at_ordinal attempt =? ordinal)
                    || negb (at_generation attempt =? owner_generation))
              (StaleFence "monitor must name the exact old active attempt"));
  _ ← lift (refuse (negb (bool_decide
              ((at_revision attempt, ex_revision (sn_execution snapshot), sn_pointer_revision snapshot)
               = (expected_attempt_revision, expected_execution_revision, expected_pointer_revision))))
              (StaleRevision "monitor CAS is stale"));
  _ ← lift (refuse (negb (owns owner_loss attempt))
              (RecoveryBlocked "monitor requires an observed release of this exact owner"));
  t ← now (Z.max (at_updated attempt) (me_observed evidence));
  outcome_ ← record_recovery (me_terminal evidence) (sn_execution snapshot);
  lifecycle ← lift (dead_lifecycle (at_lifecycle attempt) (me_backend_done evidence));
  _ ← update (Row := AttemptRecord) (execution_id, ordinal) always
      (attempt_set lifecycle (at_revision attempt + 1) t (Some (GivenReasonCode (me_reason evidence))));
  let unresolved := nonempty (sn_intents snapshot) in
  let backend_done := attempt_backend_done (at_lifecycle attempt) || me_backend_done evidence in
  if backend_done && negb unresolved then
    current ← recovery_get execution_id;
    _ ← settle current outcome_ (GivenReasonCode (me_reason evidence)) (ol_boundary owner_loss);
    settled ← recovery_get execution_id;
    audit ← reading (fun d => Ok (recovery_audit execution_id (sn_execution settled) (me_reason evidence)
                                    ordinal t d));
    _ ← insert audit;
    after ← recovery_get execution_id;
    mret (RecoverySettled after)
  else mret (DeathRecorded unresolved backend_done).

(** [RecoveryMonitorCapability.terminalize_dead_attempt]: death and backend completion commit
    even where the attempt cannot be settled yet. *)
Definition terminalize_dead_attempt (execution_id : string) (ordinal owner_generation : Z)
    (expected_attempt_revision expected_execution_revision expected_pointer_revision : Z)
    (evidence : MonitorEvidence) (owner_loss : VerifiedAttemptOwnerLoss)
    : M (applied RecoverySnapshot) :=
  _ ← lift (refuse (negb (me_subprocess_dead evidence))
              (RecoveryBlocked "monitor cannot record a live Pi RPC subprocess as dead"));
  _ ← lift (refuse (negb (ol_issued owner_loss))
              (RecoveryBlocked "monitor requires an observed release of this exact owner"));
  recovered ← writing (record_dead_attempt execution_id ordinal owner_generation
                         expected_attempt_revision expected_execution_revision
                         expected_pointer_revision evidence owner_loss);
  match recovered with
  | RecoverySettled after => mret (Applied after)
  | DeathRecorded true true =>
      lift (Err (PublicationUncertain "frozen publication requires bus-keyed acknowledgement"))
  | DeathRecorded _ _ =>
      lift (Err (RecoveryBlocked "process death alone is not backend-final proof"))
  end.

(** ** Facts *)

Lemma stepwise_record_recovery terminal x : stepwise (record_recovery terminal x).
Proof. unfold record_recovery. stepwise. Qed.
#[export] Hint Resolve stepwise_record_recovery : stepwise.

Lemma stepwise_record_dead e o g r1 r2 r3 evidence loss :
  stepwise (record_dead_attempt e o g r1 r2 r3 evidence loss).
Proof. unfold record_dead_attempt, recovery_audit. stepwise. Qed.
#[export] Hint Resolve stepwise_record_dead : stepwise.

Lemma stepwise_terminalize e o g r1 r2 r3 evidence loss :
  stepwise (terminalize_dead_attempt e o g r1 r2 r3 evidence loss).
Proof. unfold terminalize_dead_attempt. stepwise. Qed.
#[export] Hint Resolve stepwise_terminalize : stepwise.

(** Recovery knows the attempt failed or does not know its outcome; either way the
    execution's retry is revoked before anything is settled. *)
Lemma record_recovery_ok terminal x s t s' :
  record_recovery terminal x s = (Ok t, s') ->
  (t = if finished_stop terminal then AttemptFailed else UnknownOutcome) /\
  replay_only (ex_id x) (db s) (db s') /\ 
  exists r, replay_assessments (db s') !! ex_id x = Some r /\ ra_allows_retry r = false.
Proof.
  unfold record_recovery. destruct (finished_stop terminal); intros H;
    apply bindM_ok in H as (u & s1 & Hacc & [-> ->]%ret_ok); (split; [done|]);
    (split; [by eapply accumulate_replay_only|]);
    (destruct (accumulate_ok _ _ _ _ _ Hacc) as (r & Hr & _ & Hsafe & _); [done|]);
    exists r; (split; [done|]); unfold ra_allows_retry; by rewrite Hsafe.
Qed.

(** The state a recorded death leaves: the attempt's row with its finality, and the revoked
    retry; nothing else. *)
Record death_recorded (e : string) (o : Z) (a a' : AttemptRecord) (d d' : DB) : Prop := {
  death_row : d' = with_table (Row := AttemptRecord) (<[(e, o) := a']> (attempts d))
                     (with_table (Row := ReplayAssessments) (replay_assessments d') d);
  death_attempt : attempts d !! (e, o) = Some a;
  death_lifecycle : exists p lease done dead done',
    at_lifecycle a = LiveAttempt p lease done dead /\ at_lifecycle a' = LiveAttempt p lease done' true /\
    (done = true -> done' = true);
  death_authority : attempt_authority a' = attempt_authority a;
  death_revision : at_revision a' = at_revision a + 1;
  death_revoked : exists r, replay_assessments d' !! e = Some r /\ ra_allows_retry r = false;
  death_others : forall e', e' <> e -> replay_assessments d' !! e' = replay_assessments d !! e';
}.

Lemma recorded_update e a life done t reason s s1 n s' sn :
  db_reachable (db s) -> recovery_read e (db s) = Ok sn -> sn_attempt sn = Some a ->
  replay_only e (db s) (db s1) ->
  (exists r, replay_assessments (db s1) !! e = Some r /\ ra_allows_retry r = false) ->
  dead_lifecycle (at_lifecycle a) done = Ok life ->
  update (Row := AttemptRecord) (e, at_ordinal a) always
    (attempt_set life (at_revision a + 1) t (Some reason)) s1 = (Ok n, s') ->
  death_recorded e (at_ordinal a) a (attempt_set life (at_revision a + 1) t (Some reason) a) (db s) (db s').
Proof.
  intros Hd Hsn Ha (m & Hs1 & Hm) Hrev Hlife Hup.
  pose proof (recovery_read_ok _ _ _ Hsn) as (_ & Hatt & _). rewrite Ha in Hatt.
  destruct (ex_ordinal (sn_execution sn)) as [o|]; [|done]. simpl in Hatt. symmetry in Hatt.
  pose proof (reachable_keyed _ Hd _ _ declared_attempts _ _ Hatt) as Hk. simpl in Hk. injection Hk as _ <-.
  apply update_row_ok with (old := a) in Hup as (_ & _ & Hs' & _); [|by rewrite Hs1|done].
  rewrite Hs', Hs1 in *. simpl in *. split; simpl; try done.
  unfold dead_lifecycle in Hlife. destruct (at_lifecycle a) as [p lease b x|]; [|done].
  injection Hlife as <-. do 5 eexists. split_and!; [done|done|]. by intros ->.
Qed.

(** The checks and the first write of a recovery transaction that returns *)
Lemma record_dead_ok e o g r1 r2 r3 evidence loss s result s' :
  db_reachable (db s) ->
  record_dead_attempt e o g r1 r2 r3 evidence loss s = (Ok result, s') ->
  exists sn a a' s1 t (outcome_ : TerminalPhase),
    recovery_read e (db s) = Ok sn /\ sn_attempt sn = Some a /\ sn_is_current sn = true /\
    at_ordinal a = o /\ at_generation a = g /\ owns loss a = true /\
    (at_revision a, ex_revision (sn_execution sn), sn_pointer_revision sn) = (r1, r2, r3) /\
    outcome_ = (if finished_stop (me_terminal evidence) then AttemptFailed else UnknownOutcome) /\
    death_recorded e o a a' (db s) (db s1) /\ rtc db_step (db s) (db s1) /\
    attempt_backend_done (at_lifecycle a') = attempt_backend_done (at_lifecycle a) || me_backend_done evidence /\
    (if attempt_backend_done (at_lifecycle a') && negb (nonempty (sn_intents sn)) then
       exists current settled after s2, recovery_read e (db s1) = Ok current /\
         settle current outcome_ (GivenReasonCode (me_reason evidence)) (ol_boundary loss) s1 = (Ok tt, s2) /\
         recovery_read e (db s2) = Ok settled /\
         insert (recovery_audit e (sn_execution settled) (me_reason evidence) o t (db s2)) s2 = (Ok tt, s') /\
         recovery_read e (db s') = Ok after /\ result = RecoverySettled after
     else s' = s1 /\ result = DeathRecorded (nonempty (sn_intents sn)) (attempt_backend_done (at_lifecycle a'))).
Proof.
  intros Hd H. unfold record_dead_attempt, recovery_get in H.
  apply bindM_ok in H as (sn & s0 & [Hsn ->]%reading_ok & H).
  apply bindM_ok in H as (a & s0 & [Ha ->]%lift_ok & H). apply of_option_ok in Ha.
  apply bindM_ok in H as (u0 & s0 & [Hc ->]%lift_ok & H). apply refuse_ok in Hc. bools.
  apply bindM_ok in H as (u1 & s0 & [Hr ->]%lift_ok & H). apply refuse_ok, negb_false_iff, bool_decide_eq_true in Hr.
  apply bindM_ok in H as (u2 & s0 & [Ho ->]%lift_ok & H). apply refuse_ok, negb_false_iff in Ho.
  apply bindM_ok in H as (t & s2 & Hnow & H). pose proof (now_ok _ _ _ _ Hnow) as (_ & _ & Hdb & _).
  apply bindM_ok in H as (outcome_ & s3 & Hrec & H).
  apply bindM_ok in H as (life & s4 & [Hlife ->]%lift_ok & H).
  apply bindM_ok in H as (n & s4 & Hup & H).
  pose proof (stepwise_record_recovery (me_terminal evidence) (sn_execution sn) s2) as Hst. rewrite Hrec in Hst.
  assert (Hst' : rtc db_step (db s3) (db s4)).
  { pose proof (stepwise_update AttemptRecord _ (e, o) always (attempt_set life (at_revision a + 1) t
      (Some (GivenReasonCode (me_reason evidence)))) declared_attempts s3) as Hu. by rewrite Hup in Hu. }
  simpl in Hst, Hst'. rewrite Hdb in Hst.
  apply record_recovery_ok in Hrec as (Hout & Hrep & Hrev).
  pose proof (recovery_read_ok _ _ _ Hsn) as (Hx & _).
  pose proof (reachable_keyed _ Hd _ _ declared_executions _ _ Hx) as Hid. simpl in Hid. rewrite Hid, Hdb in *.
  subst o. pose proof (recorded_update _ _ _ _ _ _ _ _ _ _ _ Hd Hsn Ha Hrep Hrev Hlife Hup) as Hdeath.
  assert (Hdone : attempt_backend_done life = attempt_backend_done (at_lifecycle a) || me_backend_done evidence).
  { unfold dead_lifecycle in Hlife. destruct (at_lifecycle a); [|done]. by injection Hlife as <-. }
  eexists sn, a, _, s4, t, outcome_. split_and!; try done; [by etrans|].
  cbn [attempt_set at_lifecycle]. rewrite Hdone. destruct (_ && _).
  - apply bindM_ok in H as (current & s5 & [Hcur ->]%reading_ok & H).
    apply bindM_ok in H as ([] & s6 & Hset & H). apply bindM_ok in H as (settled & s7 & [Hs7 ->]%reading_ok & H).
    apply bindM_ok in H as (audit & s8 & [[= <-] ->]%reading_ok & H). apply bindM_ok in H as ([] & s9 & Hins & H).
    apply bindM_ok in H as (after & s10 & [Hafter ->]%reading_ok & [-> ->]%ret_ok).
    exists current, settled, after, s6. split_and!; done.
  - by apply ret_ok in H as [-> ->].
Qed.

Lemma death_coupled e o a a' d d' : death_recorded e o a a' d d' -> coupled_part d' = coupled_part d.
Proof. intros [Hrow _ _ _ _ _ _]. rewrite Hrow. done. Qed.

(** A failed execution stays failed. *)
Lemma failed_execution_kept d d' e x :
  rtc db_step d d' -> executions d !! e = Some x -> ex_status x = FailedExec ->
  exists x', executions d' !! e = Some x' /\ ex_status x' = FailedExec.
Proof.
  intros Hsteps. revert x. induction Hsteps as [|d1 d2 d3 Hs _ IH]; intros x0 Hx Hf; [by eauto|].
  destruct (row_step _ _ _ _ _ _ declared_executions (db_step_effect _ _ Hs) Hx) as (x1 & Hx1 & [->|Hg]);
    [by eapply IH|].
  apply (IH x1 Hx1). apply execution_update_ok in Hg as (_ & [Heq|Hedge] & _); [congruence|].
  rewrite Hf in Hedge. by destruct (ex_status x1).
Qed.

Lemma audit_inserted (audit : RecoveryAudit) s s' :
  insert audit s = (Ok tt, s') ->
  exists m, db s' = with_table (Row := RecoveryAudit) m (db s) /\
            m !! (au_execution audit, au_id audit) = Some audit.
Proof.
  intros (_ & d' & Hi & ->)%insert_ok. apply exec_insert_ok in Hi as (_ & _ & Hw).
  apply write_row_ok in Hw as (_ & _ & -> & _). simpl. eexists. split; [done|]. apply lookup_insert_eq.
Qed.

(** The settlement of a recovery, once the retry is revoked, fails the execution. *)
Lemma revoked_disposition e d sn a t st rs :
  db_reachable d -> recovery_read e d = Ok sn -> t <> Succeeded ->
  (exists r, replay_assessments d !! e = Some r /\ ra_allows_retry r = false) ->
  disposition t sn a = Ok (st, rs) -> st = FailedExecution (Some (at_ordinal a)) /\ rs = FailedResponse.
Proof.
  intros Hd Hsn Ht (r & Hr & Hno) Hdisp. apply disposition_states in Hdisp.
  assert (Hretry : sn_retry_authorized sn = false).
  { pose proof (recovery_read_ok _ _ _ Hsn) as (Hx & _ & Hrep & Hobs & _).
    pose proof (reachable_keyed d Hd _ _ declared_executions _ _ Hx) as Hid. simpl in Hid.
    unfold sn_retry_authorized. rewrite Hrep, Hobs, <- (retry_basis_execution d e _ Hx Hid).
    by eapply retry_denied. }
  rewrite Hretry in Hdisp. by destruct t; injection Hdisp as -> ->.
Qed.

(** C7: A recovery that settles a dead attempt names the current attempt of the released
    owner at the revisions it saw, with no frozen publication; it fails the attempt (or
    leaves its outcome unknown, where the native turn did not finish), fails the execution
    with its obligations and claims, frees the owner and stores a failed-recovery audit;
    from then on no retry is authorised and the execution stays failed. *)
Theorem recovery_never_replays (e : string) (o g r1 r2 r3 : Z) (evidence : MonitorEvidence)
    (loss : VerifiedAttemptOwnerLoss) (s s' : Session) (r : applied RecoverySnapshot) :
  db_reachable (db s) ->
  terminalize_dead_attempt e o g r1 r2 r3 evidence loss s = (Ok r, s') ->
  exists sn a outcome_ audit,
    recovery_read e (db s) = Ok sn /\ sn_attempt sn = Some a /\ sn_is_current sn = true /\
    at_ordinal a = o /\ at_generation a = g /\ owns loss a = true /\ sn_intents sn = [] /\
    (at_revision a, ex_revision (sn_execution sn), sn_pointer_revision sn) = (r1, r2, r3) /\
    settled e (ex_owner (sn_execution sn)) o outcome_ (FailedExecution (Some o)) FailedResponse sn (db s') /\
    (outcome_ = AttemptFailed <-> finished_stop (me_terminal evidence) = true) /\
    recovery_audits (db s') !! (e, au_id audit) = Some audit /\ au_kind audit = FailedRecovery /\
    (forall d, rtc db_step (db s') d ->
       retry_basis d e = false /\ exists x, executions d !! e = Some x /\ ex_status x = FailedExec).
Proof.
  intros Hd H. pose proof (stepwise_terminalize e o g r1 r2 r3 evidence loss s) as Hsteps. rewrite H in Hsteps.
  pose proof (reachable_steps _ _ Hd Hsteps) as Hd'. simpl in Hd'. unfold terminalize_dead_attempt in H.
  apply bindM_ok in H as (u1 & s1 & [_ ->]%lift_ok & H). apply bindM_ok in H as (u2 & s2 & [_ ->]%lift_ok & H).
  apply bindM_ok in H as (rec & s3 & Hw & H). apply writing_ok in Hw as [Hw _].
  destruct (record_dead_ok _ _ _ _ _ _ _ _ _ _ _ Hd Hw)
    as (sn & a & a' & s4 & t & outcome_ & Hsn & Ha & Hcur & Ho & Hg & Hown & Hrev & Hout & Hdeath & Hst & Hdone & Hcase).
  destruct (_ && _) eqn:Eb; [|by destruct Hcase as [_ ->]; destruct (nonempty _), (attempt_backend_done _);
                               apply lift_ok in H as [[=] _]].
  destruct Hcase as (current & settled_ & after & s5 & Hc & Hset & Hs5 & Hins & Hafter & ->).
  apply ret_ok in H as [-> ->]. pose proof (reachable_steps _ _ Hd Hst) as Hd4.
  destruct (coupled_snapshots _ _ _ _ _ (death_coupled _ _ _ _ _ _ Hdeath) Hsn Hc) as (Hex & Hobs & Hcl).
  assert (Hord : ex_ordinal (sn_execution current) = Some o).
  { rewrite Hex. pose proof (recovery_read_ok _ _ _ Hsn) as (_ & Hatt & _). rewrite Ha in Hatt.
    destruct (ex_ordinal (sn_execution sn)) as [o'|] eqn:E; [|done].
    by rewrite <- Ho, (snapshot_ordinal _ _ _ _ _ Hd Hsn E Ha). }
  destruct (settle_settled _ _ _ _ _ _ _ _ o Hd4 Hc Hord Hset) as (a1 & st & rs & Ha1 & Hao & Hdisp & Hsettled & _ & _).
  destruct Hdeath as [_ _ _ _ _ Hrevoked _].
  assert (Ht : outcome_ <> Succeeded) by (rewrite Hout; by destruct (finished_stop _)).
  destruct (revoked_disposition _ _ _ _ _ _ _ Hd4 Hc Ht Hrevoked Hdisp) as [-> ->]. rewrite Hao, Hex in Hsettled.
  apply (settled_snapshot _ _ _ _ _ _ _ _ _ Hobs Hcl) in Hsettled.
  pose proof (stepwise_settle current outcome_ (GivenReasonCode (me_reason evidence)) (ol_boundary loss) s4) as Hs45.
  rewrite Hset in Hs45. simpl in Hs45. pose proof (settled_execution _ _ _ _ _ _ _ _ Hsettled) as (x & Hx & Hxl).
  assert (Hx' : sn_execution settled_ = x).
  { pose proof (recovery_read_ok _ _ _ Hs5) as (Hx5 & _). congruence. }
  destruct (audit_inserted _ _ _ Hins) as (m & Hdb & Hm).
  assert (Hin : forall d, rtc db_step (db s3) d -> rtc db_step (db s4) d).
  { intros d Hd1. etrans; [exact Hs45|]. etrans; [|exact Hd1].
    pose proof (stepwise_insert RecoveryAudit _ (recovery_audit e (sn_execution settled_) (me_reason evidence) o t (db s5))
                  declared_audits s5) as Hi. by rewrite Hins in Hi. }
  eexists sn, a, outcome_, _. split_and!; try done.
  - apply andb_true_iff in Eb as [_ Eb]. by destruct (sn_intents sn).
  - destruct Hsettled as [S1 S2 S3 S4 S5]. rewrite Hdb. by split.
  - rewrite Hout. by destruct (finished_stop _).
  - rewrite Hdb. exact Hm.
  - simpl. rewrite Hx'. unfold ex_status. by rewrite Hxl.
  - intros d Hd1. destruct Hrevoked as (rr & Hrr & Hno). split.
    + eapply retry_denied_after; [exact Hd4|exact Hrr|exact Hno|by apply Hin].
    + eapply (failed_execution_kept _ _ _ x Hd1); [by rewrite Hdb|]. unfold ex_status. by rewrite Hxl.
Qed.

(** A recovery that raises has changed nothing, or has durably recorded only the
    attempt's death (with backend completion never forgotten) and revoked its retry; the
    execution, the owner's pointer, the obligations and the claims are as they were, and the
    error tells an unresolved publication from a backend not known to be done. *)
Theorem recovery_error_keeps_ownership (e : string) (o g r1 r2 r3 : Z) (evidence : MonitorEvidence)
    (loss : VerifiedAttemptOwnerLoss) (s s' : Session) (err : Error) :
  db_reachable (db s) ->
  terminalize_dead_attempt e o g r1 r2 r3 evidence loss s = (Err err, s') ->
  db s' = db s \/
  exists sn a a', recovery_read e (db s) = Ok sn /\ sn_attempt sn = Some a /\ owns loss a = true /\
    at_generation a = g /\ death_recorded e o a a' (db s) (db s') /\
    err = (if attempt_backend_done (at_lifecycle a')
           then PublicationUncertain "frozen publication requires bus-keyed acknowledgement"
           else RecoveryBlocked "process death alone is not backend-final proof") /\
    (attempt_backend_done (at_lifecycle a') = true -> sn_intents sn <> []).
Proof.
  intros Hd H. unfold terminalize_dead_attempt in H.
  unfold mbind at 1, M_bind in H. destruct (lift _ s) as [[[]|e1] s1] eqn:E1; unfold lift in E1; simplify_eq; [|by left].
  unfold mbind at 1, M_bind in H. destruct (lift _ s1) as [[[]|e1] s2] eqn:E2; unfold lift in E2; simplify_eq; [|by left].
  unfold mbind at 1, M_bind in H. destruct (writing _ s2) as [[rec|e1] s3] eqn:E3; [|apply writing_err in E3; simplify_eq; by left].
  apply writing_ok in E3 as [Hw _]. right.
  destruct (record_dead_ok _ _ _ _ _ _ _ _ _ _ _ Hd Hw)
    as (sn & a & a' & s4 & t & outcome_ & Hsn & Ha & Hcur & Ho & Hg & Hown & Hrev & Hout & Hdeath & Hst & Hdone & Hcase).
  exists sn, a, a'. destruct (attempt_backend_done (at_lifecycle a')) eqn:Eb, (sn_intents sn) as [|i rest] eqn:Ei;
    cbn [andb negb nonempty] in Hcase.
  - by destruct Hcase as (? & ? & ? & ? & _ & _ & _ & _ & _ & ->).
  - destruct Hcase as [-> ->]. simpl in H. injection H as <- <-. by split_and!.
  - destruct Hcase as [-> ->]. simpl in H. injection H as <- <-. by split_and!.
  - destruct Hcase as [-> ->]. simpl in H. injection H as <- <-. by split_and!.
Qed.
