(* ===== verification/Publication.v ===== *)
(** * Response publication

    Models [coordination/response.py] with the bus writes it makes
    ([publisher.ResponseWrites._publish_keyed_response_unlocked],
    [bus_publication.KeyedPublication.append_to], [messages.BusRow.next_seq]): freezing a
    response, the durable dispatch barrier, the one append, and the acknowledging
    transaction.  The coordinator database and the bus are two stores: a rolled back
    transaction restores the first and never the second.

    A [ResponseBoundary] holds what a call reads elsewhere (the captured registry, the
    cohort receipts, the bus policy).  Each of its checks may refuse; none writes either
    store.  [rb_current] is [registry_cut.current()] at the moment a transaction opens. *)

From stdpp Require Import base gmap strings list sorting.
From Stdlib Require Import ZArith Lia.
From S2P Require Import Prelude Contracts Lifecycle WakePolicy AssignmentStates ResponseStates.
From S2P Require Import AttemptStates ExecutionStates Rows TableGuards Database Session SchemaSteps.
From S2P Require Import SchemaInvariants Replay Stepwise ParticipantStore AssignmentStore.
From S2P Require Import Snapshot Settlement ExecutionStore Sha256 AttemptStore.

(** ** The bus *)

Record BusRow : Type := mkBusRow {
  row_key : option string;
  row_message : Message;
}.

(** [bus_last] is SQLite's sequence of the header table.  [bus_calls] lists the keys whose
    append was called, whatever became of the call; the program does not keep it. *)
Record Bus : Type := mkBus {
  bus_rows : list BusRow;
  bus_last : Z;
  bus_calls : list string;
}.

(** [BusRow.next_seq] *)
Definition next_seq (b : Bus) : Z := bus_last b + 1.

Definition keyed_by (key : string) (r : BusRow) : bool := bool_decide (row_key r = Some key).

(** [PublicationIntents.published_message] over [BusReader.keyed_messages] *)
Definition published_message (i : PublicationIntents) (b : Bus) : outcome (option Message) :=
  match List.find (keyed_by (pi_key i)) (bus_rows b) with
  | None => Ok None
  | Some r =>
      _ ← require (matches_publication i (row_message r))
          (RelationViolationError "Response publication key has different message content.");
      Ok (Some (row_message r))
  end.

Definition with_seq (m : Message) (seq : Z) : Message :=
  mkMessage (msg_sender m) (msg_target m) (msg_body m) (msg_id m) (msg_content m) seq
    (msg_enrichment m).

(** [KeyedPublication.append_to]: one key binds one message's content. *)
Definition append_to (key : string) (m : Message) (b : Bus) : outcome (Message * Bus) :=
  match List.find (keyed_by key) (bus_rows b) with
  | Some r =>
      _ ← require (bool_decide (publication_snapshot m = publication_snapshot (row_message r)))
          (RelationViolationError "Response publication key has different message content.");
      Ok (row_message r, b)
  | None =>
      let stored := with_seq m (next_seq b) in
      Ok (stored, mkBus (bus_rows b ++ [mkBusRow (Some key) stored]) (next_seq b) (bus_calls b))
  end.

(** ** Two stores *)

Record World : Type := mkWorld {
  w_session : Session;
  w_bus : Bus;
}.

Definition W (A : Type) : Type := World -> outcome A * World.

#[export] Instance W_ret : MRet W := fun A a w => (Ok a, w).
#[export] Instance W_bind : MBind W := fun A B f m w =>
  match m w with
  | (Ok a, w') => f a w'
  | (Err e, w') => (Err e, w')
  end.

Definition liftW {A : Type} (o : outcome A) : W A := fun w => (o, w).

(** A read of both stores *)
Definition readingW {A : Type} (query : DB -> Bus -> outcome A) : W A :=
  fun w => (query (db (w_session w)) (w_bus w), w).

(** Coordinator statements *)
Definition sql {A : Type} (m : M A) : W A := fun w =>
  let '(r, s) := m (w_session w) in (r, mkWorld s (w_bus w)).

(** [session.writing()]: only the coordinator's rows are rolled back. *)
Definition writingW {A : Type} (body : W A) : W A := fun w =>
  let rollback (e : Error) (w' : World) :=
    (Err e, mkWorld (with_db (db (w_session w)) (w_session w')) (w_bus w')) in
  match body w with
  | (Ok a, w') => if foreign_keys_hold (db (w_session w')) then (Ok a, w') else rollback SqlForeignKey w'
  | (Err e, w') => rollback e w'
  end.

(** ** What a call reads elsewhere *)

Record ResponseBoundary : Type := mkResponseBoundary {
  rb_live : OwnerFence -> outcome unit;
  rb_recipient : string;
  rb_current : Session -> outcome unit;
  rb_cohort : RecoverySnapshot -> bool -> outcome unit;
  rb_root : string;
  rb_sender_lookup : string -> outcome string;
  rb_born_name : string -> outcome string;
  rb_answers : RecoverySnapshot -> ResponseObligation -> outcome string;
  rb_content : string -> option Message -> string;
  rb_identity : string -> string -> string -> string -> string;
  rb_conversation : RecoverySnapshot -> ResponseObligation -> outcome unit;
  rb_route : PublicationIntents -> outcome string;
  rb_prepare : Message -> Z -> outcome Message;
  rb_notified : outcome unit;
  rb_release : Boundary;
}.

Section response.
Context (rb : ResponseBoundary).

(** [boundary.registry_cut.current()] *)
Definition registry_current : M unit := fun s => (rb_current rb s, s).

(** [Message(...)] as a response: its sequence and enrichment have their defaults; its
    other content is its kind, role and answers, and its timestamp, which a repeated
    preparation takes from the existing message. *)
Definition response_message (sn : RecoverySnapshot) (target payload answers : string)
    (existing : option PublicationIntents) : outcome Message :=
  sender ← rb_born_name rb (ex_owner (sn_execution sn));
  let content := rb_content rb answers (pi_message <$> existing) in
  Ok (mkMessage sender target payload (rb_identity rb sender target payload content) content 0 "").

(** [_require_final_owner] *)
Definition require_final_owner (fence : OwnerFence) (target : string) (d : DB)
    : outcome RecoverySnapshot :=
  held ← fence_read fence d;
  _ ← require_final_response held.1 (rb_recipient rb) target;
  _ ← rb_cohort rb held.1 false;
  Ok held.1.

(** ** Freezing a response *)

(** [prepare_fenced_response] *)
Definition prepare_fenced_response (fence : OwnerFence) (payload target : string)
    : M (applied PublicationIntents) :=
  _ ← lift (refuse (bool_decide (payload = "")) (ValueError "response payload must be nonempty"));
  _ ← lift (rb_live rb fence);
  _ ← registry_current;
  writing (
    snapshot ← reading (require_final_owner fence target);
    obligation ← lift (require_wire_response snapshot target);
    let existing := response_record pi_target (sn_intents snapshot) (ob_target obligation) in
    answers ← lift (rb_answers rb snapshot obligation);
    match existing with
    | Some intent =>
        candidate ← lift (response_message snapshot (ob_target obligation) payload answers existing);
        _ ← lift (sn_require_existing_preparation snapshot candidate);
        mret (AlreadyApplied intent)
    | None =>
        obligation ← lift (sn_require_preparation snapshot (ob_target obligation));
        candidate ← lift (response_message snapshot (ob_target obligation) payload answers None);
        let e := ex_id (sn_execution snapshot) in
        key ← lift (canonical_publication_key e (ob_target obligation));
        let intent := mkPublicationIntents e (ob_target obligation) candidate key (msg_id candidate) in
        _ ← insert intent;
        t ← now (ob_updated obligation);
        _ ← update (Row := ResponseObligation) (e, ob_target obligation)
            (fun r => bool_decide (ob_state r = PendingResponseKind)
                      && (ob_revision r =? ob_revision obligation))
            (obligation_set PublishingResponse (ob_revision obligation + 1) t None);
        mret (Applied intent)
    end).

(** ** Appending *)

(** [bus.append(build)]: the row is durable before its notification can fail. *)
Definition bus_append (intent : PublicationIntents) (m : Message) : W Message := fun w =>
  let b := w_bus w in
  let called := mkBus (bus_rows b) (bus_last b) (pi_key intent :: bus_calls b) in
  match append_to (pi_key intent) m called with
  | Err e => (Err e, mkWorld (w_session w) called)
  | Ok (stored, b') =>
      (match rb_notified rb with Ok _ => Ok stored | Err e => Err e end, mkWorld (w_session w) b')
  end.

(** [ResponseWrites._publish_keyed_response_unlocked] *)
Definition publish_keyed_response (intent : PublicationIntents) : W Message :=
  matched ← readingW (fun _ b => published_message intent b);
  match matched with
  | Some m => mret m
  | None =>
      route ← liftW (rb_route rb intent);
      key ← liftW (canonical_publication_key (pi_execution intent) route);
      _ ← liftW (refuse (negb (bool_decide (pi_key intent = key)))
                   (RelationViolationError "Response publication key does not match its route."));
      stored ← readingW (fun _ b => rb_prepare rb (pi_message intent) (next_seq b));
      _ ← liftW (require (matches_publication intent stored)
                   (RelationViolationError "Stored response does not match publication intent."));
      bus_append intent stored
  end.

(** ** Acknowledging *)

(** [PublicationAppendDispatches.complete] *)
Definition complete (dispatch : PublicationAppendDispatches) (snapshot : RecoverySnapshot)
    (intent : PublicationIntents) (obligation : ResponseObligation) (matched : Message)
    : M RecoverySnapshot :=
  attempt ← lift (require_current_attempt snapshot);
  _ ← lift (require (matches_attempt dispatch (di_root dispatch) (ex_id (sn_execution snapshot))
                       (at_generation attempt) (at_ordinal attempt) (pi_target intent))
              (IdentityConflict "response dispatch belongs to another root or owner"));
  t ← now (Z.max (ex_updated (sn_execution snapshot)) (at_updated attempt));
  _ ← insert (mkPublicationEvidence (pi_execution intent) (pi_target intent) (msg_seq matched)
                (msg_id matched) t);
  published ← lift (published_response (msg_id matched) (msg_seq matched));
  t ← now (ob_updated obligation);
  _ ← update (Row := ResponseObligation) (pi_execution intent, pi_target intent)
      (fun r => ob_revision r =? ob_revision obligation)
      (obligation_set published (ob_revision obligation + 1) t None);
  current ← recovery_get (pi_execution intent);
  _ ← finish_publications current (rb_release rb);
  recovery_get (pi_execution intent).

(** [_terminal_replay] *)
Definition terminal_replay (fence : OwnerFence) (target : string) (d : DB) (b : Bus)
    : outcome (option RecoverySnapshot) :=
  snapshot ← recovery_read (of_execution fence) d;
  match response_record pe_target (sn_evidence snapshot) target with
  | None => Ok None
  | Some _ =>
      _ ← refuse (negb (bool_decide (ex_owner (sn_execution snapshot) = rb_recipient rb)))
          (StaleFence "finished response belongs to a different SQL recipient");
      attempt ← require_attempt snapshot;
      authority ← fence_authority fence;
      _ ← refuse (negb (bool_decide (attempt_authority attempt = authority)))
          (StaleFence "finished response is not this owner's original attempt");
      evidence ← require_published_evidence snapshot target;
      _ ← rb_cohort rb snapshot (completed_response snapshot);
      matched ← published_message evidence.1 b;
      _ ← require (match matched with
                   | Some m => bool_decide (msg_reference m = pe_reference evidence.2)
                   | None => false end)
          (PublicationUncertain "published SQL acknowledgement has no exact durable bus row");
      Ok (Some snapshot)
  end.

(** The first transaction of [_settle_fenced_response]: an acknowledged response, or
    whether this call made the durable dispatch row *)
Definition dispatch_response (fence : OwnerFence) (target : string)
    : W (option RecoverySnapshot * bool) :=
  _ ← sql registry_current;
  writingW (
    terminal ← readingW (terminal_replay fence target);
    match terminal with
    | Some snapshot => mret (Some snapshot, false)
    | None =>
        snapshot ← sql (reading (require_final_owner fence target));
        _ ← liftW (require_publishing_intent snapshot target (rb_sender_lookup rb));
        prior ← sql (reading (one (Row := PublicationAppendDispatches) (of_execution fence, target)));
        match prior with
        | None =>
            t ← sql (now (ex_updated (sn_execution snapshot)));
            _ ← sql (insert (mkPublicationAppendDispatches (of_execution fence) target (rb_root rb)
                               (of_generation fence) (of_ordinal fence) t));
            mret (None, true)
        | Some p =>
            _ ← liftW (require (matches_attempt p (rb_root rb) (of_execution fence)
                                  (of_generation fence) (of_ordinal fence) target)
                         (IdentityConflict "response dispatch belongs to another root or owner"));
            mret (None, false)
        end
    end).

(** The acknowledging transaction of [_settle_fenced_response] *)
Definition acknowledge_response (first_dispatch : bool) (fence : OwnerFence) (target : string)
    : W (applied RecoverySnapshot) :=
  _ ← sql registry_current;
  writingW (
    terminal ← readingW (terminal_replay fence target);
    match terminal with
    | Some snapshot => mret (AlreadyApplied snapshot)
    | None =>
        snapshot ← sql (reading (require_final_owner fence target));
        frozen ← liftW (require_publishing_intent snapshot target (rb_sender_lookup rb));
        row ← sql (reading (one (Row := PublicationAppendDispatches) (of_execution fence, target)));
        dispatch ← liftW (of_option row (PublicationUncertain "no matching durable append dispatch"));
        _ ← liftW (require (matches_attempt dispatch (rb_root rb) (of_execution fence)
                              (of_generation fence) (of_ordinal fence) target)
                     (PublicationUncertain "no matching durable append dispatch"));
        found ← readingW (fun _ b => published_message frozen.1 b);
        matched ← match found with
                  | Some m => mret m
                  | None =>
                      _ ← liftW (require first_dispatch
                            (PublicationUncertain "no keyed bus acknowledgement; no resend authorized"));
                      _ ← liftW (rb_conversation rb snapshot frozen.2);
                      publish_keyed_response frozen.1
                  end;
        after ← sql (complete dispatch snapshot frozen.1 frozen.2 matched);
        mret (Applied after)
    end).

(** [_settle_fenced_response]; [publish_fenced_response] allows the append. *)
Definition settle_fenced_response (allow_append : bool) (fence : OwnerFence) (target : string)
    : W (applied RecoverySnapshot) :=
  _ ← liftW (rb_live rb fence);
  if allow_append then
    dispatched ← dispatch_response fence target;
    match dispatched.1 with
    | Some snapshot => mret (AlreadyApplied snapshot)
    | None => acknowledge_response dispatched.2 fence target
    end
  else acknowledge_response false fence target.

Definition publish_fenced_response : OwnerFence -> string -> W (applied RecoverySnapshot) :=
  settle_fenced_response true.

(** ** Resolving retained responses *)

(** One route of [PublicationAppendDispatches.resolve_retained] *)
Definition resolve_route (execution_id target : string) : W (RecoverySnapshot * RecoverySnapshot) :=
  _ ← sql registry_current;
  writingW (
    snapshot ← sql (recovery_get execution_id);
    _ ← liftW (rb_cohort rb snapshot false);
    frozen ← liftW (require_publishing_intent snapshot target (rb_sender_lookup rb));
    attempt ← liftW (require_current_attempt snapshot);
    row ← sql (reading (one (Row := PublicationAppendDispatches) (execution_id, target)));
    dispatch ← liftW (of_option row (PublicationUncertain "no matching durable append dispatch"));
    _ ← liftW (require (matches_attempt dispatch (rb_root rb) execution_id (at_generation attempt)
                          (at_ordinal attempt) target)
                 (PublicationUncertain "no matching durable append dispatch"));
    found ← readingW (fun _ b => published_message frozen.1 b);
    matched ← liftW (of_option found
                 (PublicationUncertain "no keyed bus acknowledgement; no resend authorized"));
    after ← sql (complete dispatch snapshot frozen.1 frozen.2 matched);
    mret (snapshot, after)).

(** The routes of one execution; a route is skipped when the last snapshot read already
    holds its acknowledgement. *)
Fixpoint resolve_routes (execution_id : string) (intents : list PublicationIntents)
    (snapshot : RecoverySnapshot) : W (list RecoverySnapshot) :=
  match intents with
  | [] => mret []
  | frozen :: rest =>
      match response_record pe_target (sn_evidence snapshot) (pi_target frozen) with
      | Some _ => resolve_routes execution_id rest snapshot
      | None =>
          step ← resolve_route execution_id (pi_target frozen);
          completed ← resolve_routes execution_id rest step.1;
          mret (step.2 :: completed)
      end
  end.

(** [SELECT DISTINCT i.execution_id ... ORDER BY i.execution_id] *)
Definition retained_executions (owner_lookup : string) (d : DB) : list string :=
  sorted_set (omap (fun kv : (string * string) * PublicationIntents =>
      match executions d !! kv.1.1 with
      | Some x => if bool_decide (ex_owner x = owner_lookup)
                     && negb (present (publication_receipts d !! kv.1))
                  then Some kv.1.1 else None
      | None => None
      end) (map_to_list (publication_intents d))).

Fixpoint resolve_executions (owner_lookup : string) (execution_ids : list string)
    : W (list RecoverySnapshot) :=
  match execution_ids with
  | [] => mret []
  | current_id :: rest =>
      snapshot ← sql (recovery_get current_id);
      _ ← liftW (refuse (negb (bool_decide (ex_owner (sn_execution snapshot) = owner_lookup)))
                   (StaleFence "retained response belongs to another owner"));
      first ← resolve_routes current_id (sn_intents snapshot) snapshot;
      others ← resolve_executions owner_lookup rest;
      mret (first ++ others)
  end.

(** [PublicationAppendDispatches.resolve_retained] *)
Definition resolve_retained (owner_lookup : string) (execution_id : option string)
    : W (list RecoverySnapshot) :=
  ids ← readingW (fun d _ => Ok (retained_executions owner_lookup d));
  resolve_executions owner_lookup
    (List.filter (fun i => match execution_id with
                           | None => true | Some only => bool_decide (i = only) end) ids).
End response.
