(* ===== verification/PublicationFacts.v ===== *)
(** * Publication across two stores

    A system of owners that publish, crash and resolve retained responses, over the
    coordinator database and the bus, and what holds of every state it reaches: no route
    is appended twice, and no acknowledgement exists without its durable bus row. *)

From stdpp Require Import base gmap strings list sorting.
From Stdlib Require Import ZArith Lia.
From S2P Require Import Prelude Contracts Lifecycle WakePolicy AssignmentStates ResponseStates.
From S2P Require Import AttemptStates ExecutionStates Rows TableGuards Database Session SchemaSteps.
From S2P Require Import SchemaInvariants Replay Stepwise ParticipantStore AssignmentStore.
From S2P Require Import Snapshot Settlement ExecutionStore Sha256 AttemptStore Fences Publication.

(** ** Publication keys *)

Lemma app_colon_inj (a b x y : string) :
  contains_colon a = false -> contains_colon b = false ->
  (a +:+ ":" +:+ x = b +:+ ":" +:+ y)%string -> a = b /\ x = y.
Proof.
  revert b. induction a as [|c a IH]; intros [|c' b] Ha Hb H; simpl in *.
  - by injection H.
  - injection H as <- H. done.
  - injection H as -> H. done.
  - injection H as <- H. destruct (Ascii.eqb c _); [done|].
    destruct (IH b Ha Hb H) as [-> ->]. done.
Qed.

Lemma canonical_key_ok e t k :
  canonical_publication_key e t = Ok k ->
  contains_colon e = false /\ k = ("publication:v1:" +:+ e +:+ ":" +:+ t)%string.
Proof.
  unfold canonical_publication_key. intros H. apply bind_ok_inv in H as ([] & He & H).
  apply bind_ok_inv in H as ([] & _ & H). apply bind_ok_inv in H as ([] & _ & H).
  injection H as <-. split; [|done]. by apply validate_execution_id_ok in He as (_ & _ & ?).
Qed.

Lemma canonical_key_inj e t e' t' k :
  canonical_publication_key e t = Ok k -> canonical_publication_key e' t' = Ok k ->
  e = e' /\ t = t'.
Proof.
  intros [He ->]%canonical_key_ok [He' Hk]%canonical_key_ok.
  apply app_colon_inj; try done. by simplify_eq.
Qed.

(** Two routes with the same canonical publication key are the same execution and
    target. *)
Theorem publication_key_names_one_route (e t e' t' k : string) :
  canonical_publication_key e t = Ok k -> canonical_publication_key e' t' = Ok k ->
  (e, t) = (e', t').
Proof. intros H H'. by destruct (canonical_key_inj _ _ _ _ _ H H') as [-> ->]. Qed.

(** ** Inversion of computations on both stores *)

Definition read_only {A : Type} (m : W A) : Prop := forall w, (m w).2 = w.

Lemma read_only_lift {A : Type} (o : outcome A) : read_only (liftW o).
Proof. done. Qed.
Lemma read_only_reading {A : Type} (q : DB -> Bus -> outcome A) : read_only (readingW q).
Proof. done. Qed.
Lemma read_only_sql {A : Type} (q : DB -> outcome A) : read_only (sql (reading q)).
Proof. intros [s b]. done. Qed.
Lemma read_only_current rb : read_only (sql (registry_current rb)).
Proof. intros [s b]. done. Qed.

Lemma bindW_inv {A B : Type} (m : W A) (f : A -> W B) w r w' :
  mbind f m w = (r, w') ->
  (exists e, m w = (Err e, w') /\ r = Err e) \/ (exists a w1, m w = (Ok a, w1) /\ f a w1 = (r, w')).
Proof.
  unfold mbind, W_bind. destruct (m w) as [[a|e] w1]; intros H; [right; eauto|].
  injection H as <- <-. left. eauto.
Qed.

(** A read either raises and changes nothing, or the rest runs from the same stores. *)
Lemma bindW_read {A B : Type} (m : W A) (f : A -> W B) w r w' :
  read_only m -> mbind f m w = (r, w') ->
  (w' = w /\ exists e, r = Err e) \/ (exists a, m w = (Ok a, w) /\ f a w = (r, w')).
Proof.
  intros Hm H. specialize (Hm w). apply bindW_inv in H as [(e & He & ->)|(a & w1 & Ha & H)].
  - rewrite He in Hm. simpl in Hm. subst. left. eauto.
  - rewrite Ha in Hm. simpl in Hm. subst. right. eauto.
Qed.

(** A transaction on both stores: the bus is as its block left it. *)
Lemma writingW_inv {A : Type} (body : W A) w r w' :
  writingW body w = (r, w') ->
  exists r1 w1, body w = (r1, w1) /\ w_bus w' = w_bus w1 /\
    ((exists a, r = Ok a /\ r1 = Ok a /\ w' = w1 /\ foreign_keys_hold (db (w_session w')) = true) \/
     (exists e, r = Err e /\ db (w_session w') = db (w_session w))).
Proof.
  unfold writingW. destruct (body w) as [[a|e] w1]; [destruct (foreign_keys_hold _) eqn:E|];
    intros H; injection H as <- <-; eexists _, w1; (split; [done|]); (split; [done|]); simpl; eauto 10.
Qed.

Lemma sql_inv {A : Type} (m : M A) w r w' :
  sql m w = (r, w') -> w_bus w' = w_bus w /\ m (w_session w) = (r, w_session w').
Proof. unfold sql. destruct (m (w_session w)) as [r1 s1]. by intros [= <- <-]. Qed.

(** ** Appending *)

(** One new keyed row, holding the frozen content of [i] at the next sequence *)
Definition appended (i : PublicationIntents) (b b' : Bus) : Prop :=
  List.find (keyed_by (pi_key i)) (bus_rows b) = None /\
  exists stored, matches_publication i stored = true /\ msg_seq stored = next_seq b /\
    b' = mkBus (bus_rows b ++ [mkBusRow (Some (pi_key i)) stored]) (next_seq b)
           (pi_key i :: bus_calls b).

Lemma published_message_none i b :
  published_message i b = Ok None <-> List.find (keyed_by (pi_key i)) (bus_rows b) = None.
Proof.
  unfold published_message. destruct (List.find _ _) as [r|]; [|done]. split; [|done].
  intros H. apply bind_ok_inv in H as (u & _ & [=]).
Qed.

Lemma published_message_some i b m :
  published_message i b = Ok (Some m) ->
  mkBusRow (Some (pi_key i)) m ∈ bus_rows b /\ matches_publication i m = true.
Proof.
  unfold published_message. destruct (List.find _ _) as [[k m']|] eqn:E; [|done].
  intros H. apply bind_ok_inv in H as ([] & Hm & H). injection H as <-. apply require_ok in Hm.
  apply find_some in E as [Hin Hk]. unfold keyed_by in Hk. apply bool_decide_eq_true in Hk.
  simpl in *. subst k. split; [by apply list_elem_of_In | done].
Qed.

Lemma matches_with_seq i m n : matches_publication i (with_seq m n) = matches_publication i m.
Proof. done. Qed.

Lemma publish_keyed_inv rb i w r w' :
  publish_keyed_response rb i w = (r, w') -> published_message i (w_bus w) = Ok None ->
  w_session w' = w_session w /\
  (w_bus w' = w_bus w /\ (exists e, r = Err e) \/
   appended i (w_bus w) (w_bus w') /\
   (forall m, r = Ok m -> mkBusRow (Some (pi_key i)) m ∈ bus_rows (w_bus w') /\
      matches_publication i m = true)).
Proof.
  unfold publish_keyed_response. intros H Hnone.
  apply (bindW_read _ _ _ _ _ (read_only_reading _)) in H as [[-> He]|(found & Hf & H)]; [by eauto|].
  injection Hf as Hf. rewrite Hnone in Hf. injection Hf as <-.
  apply (bindW_read _ _ _ _ _ (read_only_lift _)) in H as [[-> He]|(route & _ & H)]; [by eauto|].
  apply (bindW_read _ _ _ _ _ (read_only_lift _)) in H as [[-> He]|(key & _ & H)]; [by eauto|].
  apply (bindW_read _ _ _ _ _ (read_only_lift _)) in H as [[-> He]|(u & _ & H)]; [by eauto|].
  apply (bindW_read _ _ _ _ _ (read_only_reading _)) in H as [[-> He]|(stored & _ & H)]; [by eauto|].
  apply (bindW_read _ _ _ _ _ (read_only_lift _)) in H as [[-> He]|([] & Hm & H)]; [by eauto|].
  injection Hm as Hm. apply require_ok in Hm.
  pose proof (proj1 (published_message_none _ _) Hnone) as Hfind.
  unfold bus_append, append_to in H. simpl in H. rewrite Hfind in H. injection H as <- <-. simpl.
  split; [done|]. right. split.
  - split; [done|]. exists (with_seq stored (next_seq (w_bus w))). split_and!; try done.
  - intros m Hr. assert (m = with_seq stored (next_seq (w_bus w))) as ->
      by (destruct (rb_notified rb); [by injection Hr | done]).
    split; [|done]. apply list_elem_of_In, in_or_app. right. by left.
Qed.

(** ** Acknowledging *)

Lemma stepwise_registry_current rb : stepwise (registry_current rb).
Proof. intros s. apply rtc_refl. Qed.
#[export] Hint Resolve stepwise_registry_current : stepwise.

Lemma stepwise_prepare_fenced_response rb f p t : stepwise (prepare_fenced_response rb f p t).
Proof. unfold prepare_fenced_response. stepwise. Qed.
Lemma stepwise_complete rb di sn i o m : stepwise (complete rb di sn i o m).
Proof. unfold complete. stepwise. Qed.
#[export] Hint Resolve stepwise_prepare_fenced_response stepwise_complete : stepwise.

Lemma finish_publications_receipts sn boundary :
  preserves publication_receipts (finish_publications sn boundary).
Proof. unfold finish_publications. preserves. Qed.

Definition receipt_of (i : PublicationIntents) (m : Message) (t : Z) : PublicationEvidence :=
  mkPublicationEvidence (pi_execution i) (pi_target i) (msg_seq m) (msg_id m) t.

Lemma complete_receipts rb di sn i o m s r s' :
  complete rb di sn i o m s = (Ok r, s') ->
  exists t, publication_receipts (db s')
            = <[(pi_execution i, pi_target i) := receipt_of i m t]> (publication_receipts (db s)).
Proof.
  unfold complete, recovery_get. intros H.
  apply bindM_ok in H as (a & s1 & [_ ->]%lift_ok & H). apply bindM_ok in H as (u & s2 & [_ ->]%lift_ok & H).
  apply bindM_ok in H as (t & s3 & (_ & _ & Hdb3 & _)%now_ok & H).
  apply bindM_ok in H as (u4 & s4 & Hins & H).
  apply insert_ok in Hins as (_ & d4 & (_ & _ & (_ & _ & -> & _)%write_row_ok)%exec_insert_ok & ->).
  apply bindM_ok in H as (published & s5 & [_ ->]%lift_ok & H).
  apply bindM_ok in H as (t6 & s6 & (_ & _ & Hdb6 & _)%now_ok & H).
  apply bindM_ok in H as (n & s7 & Hup & H).
  apply bindM_ok in H as (sn8 & s8 & [_ ->]%reading_ok & H).
  apply bindM_ok in H as (u9 & s9 & Hfin & [_ ->]%reading_ok).
  exists t. rewrite (preserves_ok _ _ _ _ _ (finish_publications_receipts _ _) Hfin).
  assert (Hkeep : publication_receipts (db s7) = publication_receipts (db s6)).
  { refine (preserves_ok publication_receipts _ _ _ _ _ Hup). preserves. }
  rewrite Hkeep, Hdb6. simpl. by rewrite Hdb3.
Qed.

(** The intent a publication names is the one stored at its route. *)
Lemma publishing_intent_stored d e sn target lookup i o :
  db_reachable d -> recovery_read e d = Ok sn ->
  require_publishing_intent sn target lookup = Ok (i, o) ->
  publication_intents d !! (e, target) = Some i /\ pi_execution i = e /\ pi_target i = target.
Proof.
  intros Hd (_ & _ & _ & _ & Hints & _)%recovery_read_ok H. unfold require_publishing_intent in H.
  apply bind_ok_inv in H as (responses & _ & H). apply bind_ok_inv in H as ([] & _ & H).
  apply bind_ok_inv in H as (ob & _ & H). apply bind_ok_inv in H as ([] & _ & H).
  destruct (response_record pi_target (sn_intents sn) target) as [i'|] eqn:Ei; [|done].
  apply bind_ok_inv in H as (l & _ & H). apply bind_ok_inv in H as ([] & _ & H). injection H as -> _.
  unfold response_record in Ei. apply find_some in Ei as [Hin Ht]. apply bool_decide_eq_true in Ht.
  apply list_elem_of_In in Hin. rewrite Hints in Hin. apply elem_of_select_rows in Hin as (b & Hb).
  pose proof (reachable_keyed d Hd _ _ declared_intents _ _ Hb) as Hk. simpl in Hk.
  injection Hk as <- Hk. rewrite Ht in Hk. by subst b.
Qed.

(** The bus gains at most the one row of the route ([e], [target]). *)
Definition route_appended (may_append : bool) (e target : string) (w w' : World) : Prop :=
  w_bus w' = w_bus w \/
  may_append = true /\ exists i, publication_intents (db (w_session w)) !! (e, target) = Some i /\
    appended i (w_bus w) (w_bus w').

(** The effect of a transaction that acknowledges a route: at most its bus row, at most
    its receipt, and a receipt only with a bus row that holds the frozen content. *)
Record acknowledges (may_append : bool) (e target : string) (w w' : World) : Prop := mkAcknowledges {
  ack_steps : rtc db_step (db (w_session w)) (db (w_session w'));
  ack_bus : route_appended may_append e target w w';
  ack_receipts :
    publication_receipts (db (w_session w')) = publication_receipts (db (w_session w)) \/
    exists i m t, publication_intents (db (w_session w)) !! (e, target) = Some i /\
      publication_receipts (db (w_session w'))
      = <[(e, target) := receipt_of i m t]> (publication_receipts (db (w_session w))) /\
      mkBusRow (Some (pi_key i)) m ∈ bus_rows (w_bus w') /\ matches_publication i m = true;
}.

(** What the block of such a transaction does, whether or not it raises *)
Definition acknowledging {A : Type} (may_append : bool) (e target : string) (w : World)
    (r : outcome A) (w' : World) : Prop :=
  route_appended may_append e target w w' /\
  ((exists err, r = Err err) \/ acknowledges may_append e target w w').

Lemma acknowledges_refl b e t w : acknowledges b e t w w.
Proof. split; [apply rtc_refl|by left|by left]. Qed.

Lemma acknowledging_refl {A : Type} b e t w (r : outcome A) : acknowledging b e t w r w.
Proof. split; [by left|]. right. apply acknowledges_refl. Qed.

Lemma writingW_acknowledges {A : Type} (body : W A) b e t w r w' :
  (forall r1 w1, body w = (r1, w1) -> acknowledging b e t w r1 w1) ->
  writingW body w = (r, w') -> acknowledges b e t w w'.
Proof.
  intros Hbody H. apply writingW_inv in H as (r1 & w1 & H1 & Hbus & H).
  destruct (Hbody _ _ H1) as [Hroute Hack]. destruct H as [(a & -> & -> & -> & _)|(err & -> & Hdb)].
  - by destruct Hack as [[err [=]]|Hack].
  - split; [rewrite Hdb; apply rtc_refl| |left; by rewrite Hdb].
    unfold route_appended in *. by rewrite Hbus.
Qed.

(** The last statements of such a block *)
Lemma complete_acknowledging {A : Type} rb di sn i o m (f : RecoverySnapshot -> A) b e target w w1 r w' :
  publication_intents (db (w_session w)) !! (e, target) = Some i ->
  pi_execution i = e -> pi_target i = target ->
  w_session w1 = w_session w -> (w_bus w1 = w_bus w \/ b = true /\ appended i (w_bus w) (w_bus w1)) ->
  mkBusRow (Some (pi_key i)) m ∈ bus_rows (w_bus w1) -> matches_publication i m = true ->
  mbind (fun after => mret (f after)) (sql (complete rb di sn i o m)) w1 = (r, w') ->
  acknowledging b e target w r w'.
Proof.
  intros Hi He Ht Hs Hbus Hrow Hm H.
  assert (Hr : route_appended b e target w w1).
  { destruct Hbus as [Hbus|[-> Hbus]]; [by left|right]. eauto. }
  apply bindW_inv in H as [(err & H & ->)|(after & w2 & H & Hret)]; apply sql_inv in H as [Hb H].
  { split; [|by eauto]. unfold route_appended in *. by rewrite Hb. }
  injection Hret as <- <-. assert (Hr2 : route_appended b e target w w2).
  { unfold route_appended in *. by rewrite Hb. }
  split; [done|]. right. rewrite Hs in H. split; [|done|].
  - pose proof (stepwise_complete rb di sn i o m (w_session w)) as Hst. by rewrite H in Hst.
  - apply complete_receipts in H as (t & H). right. exists i, m, t. rewrite Hb.
    rewrite He, Ht in H. done.
Qed.

(** Runs one read of a transaction's block, or closes the goal when it raises. *)
Ltac read_step H a Ha :=
  match type of H with
  | mbind _ ?m _ = _ =>
      let Hm := fresh in
      assert (Hm : read_only m) by first [apply read_only_lift | apply read_only_reading
                                         | apply read_only_sql | apply read_only_current];
      apply (bindW_read _ _ _ _ _ Hm) in H as [[-> ?]|(a & Ha & H)]; clear Hm;
      [by first [apply acknowledging_refl | apply acknowledges_refl]|]
  end.

Lemma sql_reading_ok {A : Type} (q : DB -> outcome A) w a w' :
  sql (reading q) w = (Ok a, w') -> q (db (w_session w)) = Ok a.
Proof. intros [_ H]%sql_inv. by apply reading_ok in H as [? _]. Qed.

Lemma require_final_owner_read rb f t d sn :
  require_final_owner rb f t d = Ok sn -> recovery_read (of_execution f) d = Ok sn.
Proof.
  unfold require_final_owner. intros H. apply bind_ok_inv in H as ([sn' a] & Hf & H).
  apply bind_ok_inv in H as (o & _ & H). apply bind_ok_inv in H as ([] & _ & H). injection H as <-.
  by apply fence_read_ok in Hf as (? & _).
Qed.

(** The first append of a call that made the dispatch row *)
Lemma first_append_inv rb first i o sn w r w' :
  mbind (fun _ => mbind (fun _ => publish_keyed_response rb i) (liftW (rb_conversation rb sn o)))
    (liftW (require first (PublicationUncertain "no keyed bus acknowledgement; no resend authorized")))
    w = (r, w') ->
  published_message i (w_bus w) = Ok None ->
  w_session w' = w_session w /\
  (w_bus w' = w_bus w /\ (exists e, r = Err e) \/
   first = true /\ appended i (w_bus w) (w_bus w') /\
   (forall m, r = Ok m -> mkBusRow (Some (pi_key i)) m ∈ bus_rows (w_bus w') /\
      matches_publication i m = true)).
Proof.
  intros H Hnone. apply (bindW_read _ _ _ _ _ (read_only_lift _)) in H as [[-> He]|([] & Hf & H)]; [by eauto|].
  injection Hf as Hf. apply require_ok in Hf.
  apply (bindW_read _ _ _ _ _ (read_only_lift _)) in H as [[-> He]|(u & _ & H)]; [by eauto|].
  apply publish_keyed_inv in H as [Hs [[Hb He]|[Hb Hm]]]; [|by eauto|done]. split; [done|]. eauto.
Qed.

Lemma acknowledge_effect rb first f target w r w' :
  db_reachable (db (w_session w)) -> acknowledge_response rb first f target w = (r, w') ->
  acknowledges first (of_execution f) target w w'.
Proof.
  intros Hd H. unfold acknowledge_response in H. read_step H u0 Hu0.
  eapply writingW_acknowledges; [|exact H]. clear H. intros r1 w1 H.
  read_step H terminal Hterm. destruct terminal as [sn|].
  { injection H as <- <-. apply acknowledging_refl. }
  read_step H snap Hsn. apply sql_reading_ok, require_final_owner_read in Hsn.
  read_step H frozen Hfrozen. destruct frozen as [i o]. injection Hfrozen as Hfrozen.
  destruct (publishing_intent_stored _ _ _ _ _ _ _ Hd Hsn Hfrozen) as (Hi & He & Ht).
  read_step H row Hrow. read_step H di Hdi. read_step H u1 Hu1. read_step H found Hfound.
  injection Hfound as Hfound. simpl in H. destruct found as [m|].
  - apply bindW_inv in H as [(err & [=] & _)|(m' & w2 & Hm' & H)]. injection Hm' as <- <-.
    destruct (published_message_some _ _ _ Hfound) as [Hin Hm].
    eapply complete_acknowledging; try done. by left.
  - apply bindW_inv in H as [(err & H & ->)|(m & w2 & H & Hc)];
      destruct (first_append_inv _ _ _ _ _ _ _ _ H Hfound) as [Hs [[Hb Hr]|(-> & Happ & Hm)]].
    + split; [by left | by eauto].
    + split; [right; eauto | by eauto].
    + by destruct Hr as [? [=]].
    + destruct (Hm m eq_refl) as [Hin Hmatch]. eapply complete_acknowledging; try done. by right.
Qed.

Lemma resolve_effect rb e target w r w' :
  db_reachable (db (w_session w)) -> resolve_route rb e target w = (r, w') ->
  acknowledges false e target w w'.
Proof.
  intros Hd H. unfold resolve_route in H. read_step H u0 Hu0.
  eapply writingW_acknowledges; [|exact H]. clear H. intros r1 w1 H. unfold recovery_get in H.
  read_step H snap Hsn. apply sql_reading_ok in Hsn. read_step H u1 Hu1.
  read_step H frozen Hfrozen. destruct frozen as [i o]. injection Hfrozen as Hfrozen.
  destruct (publishing_intent_stored _ _ _ _ _ _ _ Hd Hsn Hfrozen) as (Hi & He & Ht).
  read_step H attempt Hatt. read_step H row Hrow. read_step H di Hdi. read_step H u2 Hu2.
  read_step H found Hfound. injection Hfound as Hfound. read_step H m Hm.
  injection Hm as Hm. apply of_option_ok in Hm. simpl in Hfound. rewrite Hm in Hfound.
  destruct (published_message_some _ _ _ Hfound) as [Hin Hmatch].
  eapply complete_acknowledging; try done. by left.
Qed.

(** ** Dispatching *)

(** A dispatch transaction writes at most the route's dispatch row, and reports having
    made it exactly when there was none. *)
Lemma dispatch_effect rb f target w first w' :
  dispatch_response rb f target w = (Ok (None, first), w') ->
  w_bus w' = w_bus w /\ rtc db_step (db (w_session w)) (db (w_session w')) /\
  publication_receipts (db (w_session w')) = publication_receipts (db (w_session w)) /\
  is_Some (append_dispatches (db (w_session w')) !! (of_execution f, target)) /\
  (first = true -> append_dispatches (db (w_session w)) !! (of_execution f, target) = None).
Proof.
  unfold dispatch_response. intros H.
  apply bindW_inv in H as [(e & _ & [=])|(u & w1 & Hu & H)].
  pose proof (read_only_current rb w) as Hro. rewrite Hu in Hro. simpl in Hro. subst w1.
  apply writingW_inv in H as (r1 & w1 & H & Hbus & [(a & [= <-] & -> & -> & _)|(e & [=] & _)]).
  apply (bindW_read _ _ _ _ _ (read_only_reading _)) in H as [[_ [e [=]]]|(terminal & _ & H)].
  destruct terminal; [done|].
  apply (bindW_read _ _ _ _ _ (read_only_sql _)) in H as [[_ [e [=]]]|(snap & _ & H)].
  apply (bindW_read _ _ _ _ _ (read_only_lift _)) in H as [[_ [e [=]]]|(frozen & _ & H)].
  apply (bindW_read _ _ _ _ _ (read_only_sql _)) in H as [[_ [e [=]]]|(prior & Hp & H)].
  apply sql_reading_ok in Hp. apply one_ok in Hp as [Hp _]. simpl in Hp. destruct prior as [p|].
  - apply (bindW_read _ _ _ _ _ (read_only_lift _)) in H as [[_ [e [=]]]|(u2 & _ & H)].
    injection H as <- <-. split_and!; [done|apply rtc_refl|done|by rewrite Hp|done].
  - apply bindW_inv in H as [(e & _ & [=])|(t & w2 & Hnow & H)].
    apply sql_inv in Hnow as [Hb2 Hnow]. apply now_ok in Hnow as (_ & _ & Hdb2 & _).
    apply bindW_inv in H as [(e & _ & [=])|(u3 & w3 & Hins & H)]. injection H as <- <-.
    apply sql_inv in Hins as [Hb3 Hins]. rewrite Hb3, Hb2 in Hbus.
    pose proof (stepwise_insert _ _ (mkPublicationAppendDispatches (of_execution f) target (rb_root rb)
      (of_generation f) (of_ordinal f) t) declared_dispatches (w_session w2)) as Hst.
    rewrite Hins in Hst. simpl in Hst. rewrite Hdb2 in Hst.
    apply insert_ok in Hins as (_ & d & (_ & _ & (_ & _ & -> & _)%write_row_ok)%exec_insert_ok & Hs3).
    rewrite Hs3 in Hst |- *. simpl in *. rewrite Hdb2 in *. rewrite Hb3, Hb2.
    rewrite lookup_insert_eq. by split_and!.
Qed.

Lemma dispatch_steps d d' k di :
  rtc db_step d d' -> append_dispatches d !! k = Some di -> append_dispatches d' !! k = Some di.
Proof.
  intros Hs Hdi.
  destruct (row_steps PublicationAppendDispatches append_dispatches_table eq d d' k di declared_dispatches)
    as (di' & Hdi' & <-); try done.
  intros x y z. congruence.
Qed.

Lemma intent_steps d d' k i :
  rtc db_step d d' -> publication_intents d !! k = Some i -> publication_intents d' !! k = Some i.
Proof.
  intros Hs Hi.
  destruct (row_steps PublicationIntents publication_intents_table eq d d' k i declared_intents)
    as (i' & Hi' & <-); try done.
  intros x y z. congruence.
Qed.

(** Computations that never append *)
Definition bus_quiet {A : Type} (m : W A) : Prop := forall w, w_bus (m w).2 = w_bus w.

Lemma quiet_read {A : Type} (m : W A) : read_only m -> bus_quiet m.
Proof. intros Hm w. by rewrite Hm. Qed.
Lemma quiet_sql {A : Type} (m : M A) : bus_quiet (sql m).
Proof. intros w. unfold sql. by destruct (m (w_session w)). Qed.
Lemma quiet_bind {A B : Type} (m : W A) (f : A -> W B) :
  bus_quiet m -> (forall a, bus_quiet (f a)) -> bus_quiet (mbind f m).
Proof.
  intros Hm Hf w. unfold mbind, W_bind. specialize (Hm w). destruct (m w) as [[a|e] w1]; [|done].
  simpl in Hm. rewrite <- Hm. apply Hf.
Qed.
Lemma quiet_writing {A : Type} (m : W A) : bus_quiet m -> bus_quiet (writingW m).
Proof.
  intros Hm w. unfold writingW. specialize (Hm w). destruct (m w) as [[a|e] w1]; [|done].
  by destruct (foreign_keys_hold _).
Qed.

Ltac quiet := repeat match goal with
  | |- bus_quiet (mbind _ _) => apply quiet_bind; [|intros ?]
  | |- bus_quiet (match ?x with _ => _ end) => destruct x
  | |- bus_quiet (writingW _) => apply quiet_writing
  | |- bus_quiet (sql _) => apply quiet_sql
  | |- bus_quiet _ => apply quiet_read; done
  end.

Lemma dispatch_quiet rb f target : bus_quiet (dispatch_response rb f target).
Proof. unfold dispatch_response. quiet. Qed.

(** ** The system *)

(** A call of [publish_fenced_response] between its two transactions *)
Record Call : Type := mkCall {
  call_fence : OwnerFence;
  call_target : string;
  call_first : bool;
}.

Record System : Type := mkSystem {
  sys_world : World;
  sys_calls : gmap nat Call;
}.

Definition sys_db (y : System) : DB := db (w_session (sys_world y)).
Definition sys_bus (y : System) : Bus := w_bus (sys_world y).

(** Any number of processes publish concurrently; each transaction is atomic, a process
    may die between or inside its transactions, and everything else the coordinator and
    the bus do may happen at any time. *)
Inductive system_step : System -> System -> Prop :=
| other_statements w calls s' :
    rtc db_step (db (w_session w)) (db s') ->
    publication_receipts (db s') = publication_receipts (db (w_session w)) ->
    system_step (mkSystem w calls) (mkSystem (mkWorld s' (w_bus w)) calls)
| other_message w calls m :
    msg_seq m = next_seq (w_bus w) ->
    system_step (mkSystem w calls)
      (mkSystem (mkWorld (w_session w)
         (mkBus (bus_rows (w_bus w) ++ [mkBusRow None m]) (next_seq (w_bus w)) (bus_calls (w_bus w))))
         calls)
| dispatches rb f target w w' first p calls :
    calls !! p = None -> dispatch_response rb f target w = (Ok (None, first), w') ->
    system_step (mkSystem w calls) (mkSystem w' (<[p := mkCall f target first]> calls))
| publishes rb w r w' p c calls :
    calls !! p = Some c ->
    acknowledge_response rb (call_first c) (call_fence c) (call_target c) w = (r, w') ->
    system_step (mkSystem w calls) (mkSystem w' (delete p calls))
| dies_publishing rb w r w' p c calls :
    calls !! p = Some c ->
    acknowledge_response rb (call_first c) (call_fence c) (call_target c) w = (r, w') ->
    system_step (mkSystem w calls) (mkSystem (mkWorld (w_session w) (w_bus w')) (delete p calls))
| dies w p calls : system_step (mkSystem w calls) (mkSystem w (delete p calls))
| resolves rb w r w' e target calls :
    resolve_route rb e target w = (r, w') -> system_step (mkSystem w calls) (mkSystem w' calls).

Definition initial_system (clock : nat -> Z) : System :=
  mkSystem (mkWorld (mkSession empty_db clock 0) (mkBus [] 0 [])) ∅.

Definition system_reachable (y : System) : Prop :=
  exists clock, rtc system_step (initial_system clock) y.

(** ** The invariant *)

Definition route_of (c : Call) : string * string := (of_execution (call_fence c), call_target c).

Record system_ok (y : System) : Prop := mkSystemOk {
  ok_database : db_reachable (sys_db y);
  ok_once : NoDup (bus_calls (sys_bus y));
  ok_dispatched : forall k, k ∈ bus_calls (sys_bus y) ->
    exists e t, is_Some (append_dispatches (sys_db y) !! (e, t)) /\ canonical_publication_key e t = Ok k;
  ok_rows : forall k m, mkBusRow (Some k) m ∈ bus_rows (sys_bus y) -> k ∈ bus_calls (sys_bus y);
  ok_unique : forall k, (length (List.filter (keyed_by k) (bus_rows (sys_bus y))) <= 1)%nat;
  ok_first : forall p c, sys_calls y !! p = Some c -> call_first c = true ->
    is_Some (append_dispatches (sys_db y) !! route_of c) /\
    forall k, canonical_publication_key (route_of c).1 (route_of c).2 = Ok k ->
      k ∉ bus_calls (sys_bus y);
  ok_one_first : forall p q c c', sys_calls y !! p = Some c -> sys_calls y !! q = Some c' ->
    call_first c = true -> call_first c' = true -> route_of c = route_of c' -> p = q;
  ok_receipts : forall e t r, publication_receipts (sys_db y) !! (e, t) = Some r ->
    exists i m, publication_intents (sys_db y) !! (e, t) = Some i /\
      mkBusRow (Some (pi_key i)) m ∈ bus_rows (sys_bus y) /\ matches_publication i m = true /\
      msg_seq m = pe_seq r /\ msg_id m = pe_message_id r;
}.

(** A stored intent satisfies its constructor, so its key is its route's. *)
Lemma reachable_intents d k i :
  db_reachable d -> publication_intents d !! k = Some i -> intent_post_init i = Ok tt.
Proof.
  intros Hd. revert k i.
  apply (reachable_invariant (fun d => forall k i, publication_intents d !! k = Some i ->
    intent_post_init i = Ok tt)); [intros k i Hi; simpl in Hi; by simplify_map_eq| |done].
  intros d1 d2 HI Hstep j i Hi. each_write Hstep; try (by eapply HI).
  apply lookup_insert_Some in Hi as [[_ <-]|[_ Hi]]; [|by eapply HI].
  unfold intent_insert_guard in Hguard. apply orb_false_iff in Hguard as [_ Hok].
  by destruct (intent_post_init new) as [[]|].
Qed.

Lemma intent_post_init_key i :
  intent_post_init i = Ok tt -> canonical_publication_key (pi_execution i) (pi_target i) = Ok (pi_key i).
Proof.
  unfold intent_post_init. intros H.
  apply bind_ok_inv in H as (u1 & _ & H). apply bind_ok_inv in H as (u2 & _ & H).
  apply bind_ok_inv in H as (u3 & _ & H). apply bind_ok_inv in H as (u4 & _ & H).
  apply bind_ok_inv in H as (u5 & _ & H). apply bind_ok_inv in H as (key & Hkey & H).
  apply bind_ok_inv in H as ([] & Heq & _). apply refuse_ok, negb_false_iff, bool_decide_eq_true in Heq.
  by rewrite Hkey, Heq.
Qed.

Lemma stored_intent_key d e t i :
  db_reachable d -> publication_intents d !! (e, t) = Some i ->
  canonical_publication_key e t = Ok (pi_key i).
Proof.
  intros Hd Hi. pose proof (reachable_keyed d Hd _ _ declared_intents _ _ Hi) as Hk. simpl in Hk.
  injection Hk as <- <-. by eapply intent_post_init_key, reachable_intents.
Qed.

Lemma find_none_filter {A : Type} (P : A -> bool) xs : List.find P xs = None -> List.filter P xs = [].
Proof. induction xs as [|x xs IH]; simpl; [done|]. destruct (P x); [done | exact IH]. Qed.

(** Changes of the database whose new receipts have their bus rows *)
Lemma system_ok_database w calls s' :
  system_ok (mkSystem w calls) -> rtc db_step (db (w_session w)) (db s') ->
  (forall e t r, publication_receipts (db s') !! (e, t) = Some r ->
     publication_receipts (db (w_session w)) !! (e, t) = Some r \/
     exists i m, publication_intents (db (w_session w)) !! (e, t) = Some i /\
       mkBusRow (Some (pi_key i)) m ∈ bus_rows (w_bus w) /\ matches_publication i m = true /\
       msg_seq m = pe_seq r /\ msg_id m = pe_message_id r) ->
  system_ok (mkSystem (mkWorld s' (w_bus w)) calls).
Proof.
  intros [H1 H2 H3 H4 H5 H6 H7 H8] Hs Hrec. unfold sys_db, sys_bus in *. simpl in *.
  assert (Hkeep : forall k, is_Some (append_dispatches (db (w_session w)) !! k) ->
            is_Some (append_dispatches (db s') !! k)).
  { intros k [di Hdi]. exists di. by eapply dispatch_steps. }
  split; unfold sys_db, sys_bus; simpl; try done.
  - by eapply reachable_steps.
  - intros k Hk. destruct (H3 k Hk) as (e & t & Hd & Hc). eauto.
  - intros p c Hp Hf. destruct (H6 p c Hp Hf) as [Hd Hn]. auto.
  - intros e t r Hr.
    assert (Hold : exists i m, publication_intents (db (w_session w)) !! (e, t) = Some i /\
       mkBusRow (Some (pi_key i)) m ∈ bus_rows (w_bus w) /\ matches_publication i m = true /\
       msg_seq m = pe_seq r /\ msg_id m = pe_message_id r)
      by (destruct (Hrec e t r Hr); [by apply H8 | done]).
    destruct Hold as (i & m & Hi & Hrest). exists i, m. split; [by eapply intent_steps | done].
Qed.

(** Fewer calls *)
Lemma system_ok_calls w calls calls' :
  system_ok (mkSystem w calls) -> calls' ⊆ calls -> system_ok (mkSystem w calls').
Proof.
  intros [H1 H2 H3 H4 H5 H6 H7 H8] Hsub. unfold sys_db, sys_bus in *. simpl in *.
  assert (Hk : forall p c, calls' !! p = Some c -> calls !! p = Some c)
    by (intros p c Hp; by eapply lookup_weaken).
  split; unfold sys_db, sys_bus; simpl; try done.
  - intros p c Hp. apply (H6 p c). auto.
  - intros p q c c' Hp Hq. apply (H7 p q c c'); auto.
Qed.

(** An append of a route whose dispatch is stored, whose key was never called and whose
    other calls may not append *)
Lemma system_ok_append w calls b' i e t :
  system_ok (mkSystem w calls) -> publication_intents (db (w_session w)) !! (e, t) = Some i ->
  is_Some (append_dispatches (db (w_session w)) !! (e, t)) ->
  pi_key i ∉ bus_calls (w_bus w) ->
  (forall q c, calls !! q = Some c -> call_first c = true -> route_of c <> (e, t)) ->
  appended i (w_bus w) b' -> system_ok (mkSystem (mkWorld (w_session w) b') calls).
Proof.
  intros [H1 H2 H3 H4 H5 H6 H7 H8] Hi Hd Hnew Hothers (Hnone & stored & Hm & _ & ->).
  unfold sys_db, sys_bus in *. simpl in *. pose proof (stored_intent_key _ _ _ _ H1 Hi) as Hkey.
  split; unfold sys_db, sys_bus; simpl; try done.
  - by constructor.
  - intros k [->|Hk]%elem_of_cons; [by eauto | by apply H3].
  - intros k m Hin. apply list_elem_of_In, in_app_or in Hin as [Hin|[Hin|[]]].
    + right. by eapply H4, list_elem_of_In.
    + injection Hin as <- _. apply list_elem_of_here.
  - intros k. rewrite List.filter_app, length_app. simpl. unfold keyed_by at 2. simpl.
    case_bool_decide as Hk; [|specialize (H5 k); simpl; lia]. injection Hk as <-.
    rewrite (find_none_filter _ _ Hnone). simpl. lia.
  - intros p c Hp Hf. destruct (H6 p c Hp Hf) as [Hdi Hn]. split; [done|].
    intros k Hk [->|Hin]%elem_of_cons; [|by eapply Hn].
    apply (Hothers p c Hp Hf). unfold route_of.
    by destruct (canonical_key_inj _ _ _ _ _ Hk Hkey) as [-> ->].
  - intros e' t' r Hr. destruct (H8 e' t' r Hr) as (i' & m & Hi' & Hrow & Hrest).
    exists i', m. split_and!; try apply Hrest; [done|]. apply list_elem_of_In, in_or_app. left.
    by apply list_elem_of_In.
Qed.

(** An acknowledging transaction, of a call that may append only when it alone made the
    route's dispatch row *)
Lemma system_ok_acknowledges w calls b e t w' :
  system_ok (mkSystem w calls) -> acknowledges b e t w w' ->
  (b = true -> is_Some (append_dispatches (db (w_session w)) !! (e, t)) /\
     (forall k, canonical_publication_key e t = Ok k -> k ∉ bus_calls (w_bus w)) /\
     forall q c, calls !! q = Some c -> call_first c = true -> route_of c <> (e, t)) ->
  system_ok (mkSystem (mkWorld (w_session w) (w_bus w')) calls) /\ system_ok (mkSystem w' calls).
Proof.
  intros Hok [Hs Hb Hr] Hmay.
  assert (Hbus : system_ok (mkSystem (mkWorld (w_session w) (w_bus w')) calls)).
  { destruct Hb as [Hb|[-> (i & Hi & Happ)]]; [rewrite Hb; by destruct w|].
    destruct (Hmay eq_refl) as (Hd & Hnew & Hothers).
    apply (system_ok_append w calls (w_bus w') i e t); try done.
    apply Hnew. by apply (stored_intent_key (db (w_session w))); [apply Hok|]. }
  split; [done|]. destruct w' as [s' b']. simpl in *.
  apply (system_ok_database (mkWorld (w_session w) b') calls s' Hbus Hs). simpl.
  intros e' t' r Hr'. destruct Hr as [Hr|(i & m & t0 & Hi & Hr & Hrow & Hm)]; rewrite Hr in Hr'; [by left|].
  apply lookup_insert_Some in Hr' as [[[= <- <-] <-]|[_ Hr']]; [right|by left].
  exists i, m. by split_and!.
Qed.

Lemma system_ok_dispatch w w' calls rb f target first p :
  system_ok (mkSystem w calls) -> calls !! p = None ->
  dispatch_response rb f target w = (Ok (None, first), w') ->
  system_ok (mkSystem w' (<[p := mkCall f target first]> calls)).
Proof.
  intros Hok Hp H. apply dispatch_effect in H as (Hbus & Hs & Hrec & Hdi & Hfirst).
  destruct w' as [s' b']. simpl in *. subst b'.
  pose proof Hok as [_ _ D3 _ _ D6 _ _]. unfold sys_db, sys_bus in D3, D6. simpl in D3, D6.
  assert (Hok' : system_ok (mkSystem (mkWorld s' (w_bus w)) calls)).
  { apply system_ok_database; [done|done|]. rewrite Hrec. by left. }
  destruct Hok' as [H1 H2 H3 H4 H5 H6 H7 H8]. unfold sys_db, sys_bus in *. simpl in *.
  assert (Hnew : forall k, first = true -> canonical_publication_key (of_execution f) target = Ok k ->
            k ∉ bus_calls (w_bus w)).
  { intros k Hf Hk Hin. destruct (D3 k Hin) as (e & t & [di Hd] & Hc).
    destruct (canonical_key_inj _ _ _ _ _ Hc Hk) as [-> ->]. rewrite (Hfirst Hf) in Hd. done. }
  assert (Hother : forall q c, first = true -> calls !! q = Some c -> call_first c = true ->
            route_of c <> (of_execution f, target)).
  { intros q c Hf Hq Hc Hroute. destruct (D6 q c Hq Hc) as [[di Hd] _].
    rewrite Hroute, (Hfirst Hf) in Hd. done. }
  split; unfold sys_db, sys_bus; simpl; try done.
  - intros q c Hq Hc. apply lookup_insert_Some in Hq as [[<- <-]|[_ Hq]]; [|by eapply H6].
    simpl in *. split; [done|]. intros k Hk. by apply Hnew.
  - intros q1 q2 c1 c2 Hq1 Hq2 Hc1 Hc2 Hroute.
    apply lookup_insert_Some in Hq1 as [[<- <-]|[N1 Hq1]];
      apply lookup_insert_Some in Hq2 as [[<- <-]|[N2 Hq2]]; try done.
    + exfalso. by apply (Hother q2 c2).
    + exfalso. by apply (Hother q1 c1).
    + by eapply H7.
Qed.

Lemma system_ok_initial clock : system_ok (initial_system clock).
Proof.
  split; unfold sys_db, sys_bus; simpl.
  - constructor.
  - constructor.
  - intros k Hk. by apply elem_of_nil in Hk.
  - intros k m Hm. by apply elem_of_nil in Hm.
  - intros k. lia.
  - intros p c Hp. by rewrite lookup_empty in Hp.
  - intros p q c c' Hp. by rewrite lookup_empty in Hp.
  - intros e t r Hr. by rewrite lookup_empty in Hr.
Qed.

(** The route of a call that may append is its own. *)
Lemma system_ok_call w calls p c :
  system_ok (mkSystem w calls) -> calls !! p = Some c -> call_first c = true ->
  is_Some (append_dispatches (db (w_session w)) !! route_of c) /\
  (forall k, canonical_publication_key (of_execution (call_fence c)) (call_target c) = Ok k ->
     k ∉ bus_calls (w_bus w)) /\
  forall q c', delete p calls !! q = Some c' -> call_first c' = true -> route_of c' <> route_of c.
Proof.
  intros Hok Hp Hf. destruct (ok_first _ Hok p c Hp Hf) as [Hd Hk]. split_and!; [done|done|].
  intros q c' Hq Hf' Hroute. apply lookup_delete_Some in Hq as [Hne Hq].
  apply Hne. by apply (ok_one_first _ Hok p q c c').
Qed.

Lemma system_ok_step y y' : system_ok y -> system_step y y' -> system_ok y'.
Proof.
  intros Hok Hstep. destruct Hstep as [w calls s' Hs Hr|w calls m Hm|rb f t w w' first p calls Hp H
    |rb w r w' p c calls Hp H|rb w r w' p c calls Hp H|w p calls|rb w r w' e t calls H].
  - apply system_ok_database; [done|done|]. rewrite Hr. by left.
  - destruct Hok as [H1 H2 H3 H4 H5 H6 H7 H8]. unfold sys_db, sys_bus in *. simpl in *.
    split; unfold sys_db, sys_bus; simpl; try done.
    + intros k m' Hin. apply list_elem_of_In, in_app_or in Hin as [Hin|[[=]|[]]].
      by eapply H4, list_elem_of_In.
    + intros k. rewrite List.filter_app. unfold keyed_by at 2. simpl. rewrite app_nil_r. apply H5.
    + intros e t r Hr. destruct (H8 e t r Hr) as (i & m' & Hi & Hin & Hrest). exists i, m'.
      split_and!; try done; try apply Hrest. apply list_elem_of_In, in_or_app. left.
      by apply list_elem_of_In.
  - by eapply system_ok_dispatch.
  - apply (acknowledge_effect rb) in H; [|apply Hok].
    refine (proj2 (system_ok_acknowledges w _ _ _ _ w' _ H _)).
    + eapply system_ok_calls; [exact Hok | apply delete_subseteq].
    + intros Hf. by apply (system_ok_call w calls p c Hok Hp Hf).
  - apply (acknowledge_effect rb) in H; [|apply Hok].
    refine (proj1 (system_ok_acknowledges w _ _ _ _ w' _ H _)).
    + eapply system_ok_calls; [exact Hok | apply delete_subseteq].
    + intros Hf. by apply (system_ok_call w calls p c Hok Hp Hf).
  - eapply system_ok_calls; [exact Hok | apply delete_subseteq].
  - apply resolve_effect in H; [|apply Hok]. by apply (system_ok_acknowledges w calls false e t w' Hok H).
Qed.

Lemma reachable_system_ok y : system_reachable y -> system_ok y.
Proof.
  intros [clock Hs]. pose proof (system_ok_initial clock) as Hok.
  induction Hs as [|y1 y2 y3 H12 _ IH]; [done|]. by apply IH, (system_ok_step y1).
Qed.

(** ** Theorems *)

(** C1: In every state the publishing processes can reach, with crashes anywhere and any
    interleaving of their transactions, no publication key is appended twice: the append is
    called at most once per key, the bus holds at most one row of each frozen intent's key,
    and such a row exists only where the route's dispatch row was committed first. *)
Theorem response_appended_at_most_once (y : System) :
  system_reachable y ->
  NoDup (bus_calls (sys_bus y)) /\
  forall e t i, publication_intents (sys_db y) !! (e, t) = Some i ->
    (length (List.filter (keyed_by (pi_key i)) (bus_rows (sys_bus y))) <= 1)%nat /\
    (forall m, mkBusRow (Some (pi_key i)) m ∈ bus_rows (sys_bus y) ->
       is_Some (append_dispatches (sys_db y) !! (e, t))).
Proof.
  intros Hok%reachable_system_ok. split; [apply Hok|]. intros e t i Hi. split; [apply Hok|].
  intros m Hm. apply (ok_rows _ Hok) in Hm. destruct (ok_dispatched _ Hok _ Hm) as (e' & t' & Hd & Hc).
  pose proof (stored_intent_key _ _ _ _ (ok_database _ Hok) Hi) as Hk.
  by destruct (canonical_key_inj _ _ _ _ _ Hc Hk) as [-> ->].
Qed.

(** C11: In every reachable state a receipt names a response that is on the bus: the row
    carries the frozen intent's key, its message is the one the intent froze, and its
    sequence number and identity are those of the receipt. *)
Theorem acknowledgement_has_durable_row (y : System) (e t : string) (r : PublicationEvidence) :
  system_reachable y -> publication_receipts (sys_db y) !! (e, t) = Some r ->
  exists i m, publication_intents (sys_db y) !! (e, t) = Some i /\
    mkBusRow (Some (pi_key i)) m ∈ bus_rows (sys_bus y) /\
    publication_snapshot m = pi_message i /\ msg_reference m = pe_reference r.
Proof.
  intros Hok%reachable_system_ok Hr.
  destruct (ok_receipts _ Hok e t r Hr) as (i & m & Hi & Hrow & Hm & Hseq & Hid).
  exists i, m. unfold matches_publication in Hm. apply bool_decide_eq_true in Hm.
  split_and!; try done. unfold msg_reference, pe_reference. by rewrite Hseq, Hid.
Qed.

(** Publishing a response whose dispatch row already exists never writes to the bus,
    whatever the call returns. *)
Theorem dispatched_response_never_resent (rb : ResponseBoundary) (f : OwnerFence) (target : string)
    (w w' : World) (di : PublicationAppendDispatches) (r : outcome (applied RecoverySnapshot)) :
  append_dispatches (db (w_session w)) !! (of_execution f, target) = Some di ->
  db_reachable (db (w_session w)) ->
  publish_fenced_response rb f target w = (r, w') ->
  w_bus w' = w_bus w.
Proof.
  intros Hdi Hd H. unfold publish_fenced_response, settle_fenced_response in H.
  apply (bindW_read _ _ _ _ _ (read_only_lift _)) in H as [[-> _]|(u & _ & H)]; [done|].
  pose proof (dispatch_quiet rb f target w) as Hq.
  apply bindW_inv in H as [(e & H & ->)|(res & w1 & H & Hrest)]; rewrite H in Hq; [done|].
  simpl in Hq. destruct res as [[snap|] first]; simpl in Hrest.
  { by injection Hrest as <- <-. }
  apply dispatch_effect in H as (_ & Hs & _ & _ & Hfirst). destruct first.
  { rewrite Hfirst in Hdi by done. done. }
  apply acknowledge_effect in Hrest as [_ [Hb|[[=] _]] _]; [by rewrite Hb|].
  by eapply reachable_steps.
Qed.
