(* ===== verification/ExecutionFacts.v ===== *)
(** * Executions before their first attempt

    The effect of [ExecutionStore.create], [mark_pending] and [fail_unstarted]. *)

From stdpp Require Import base gmap strings list sorting.
From Stdlib Require Import ZArith Lia.
From S2P Require Import Prelude Contracts Lifecycle WakePolicy AssignmentStates ResponseStates.
From S2P Require Import AttemptStates ExecutionStates Rows TableGuards Database Session SchemaSteps.
From S2P Require Import SchemaInvariants Replay Stepwise ParticipantStore AssignmentStore.
From S2P Require Import Snapshot Settlement Delivery ExecutionStore Sha256 AttemptStore Fences AttemptOutcomes.

(** One iteration of a loop that completed *)
Lemma for_each_elem {A : Type} (body : A -> M unit) xs s u s' x :
  (forall y, stepwise (body y)) -> for_each body xs s = (Ok u, s') -> x ∈ xs ->
  exists s1 s2, rtc db_step (db s) (db s1) /\ body x s1 = (Ok tt, s2) /\ rtc db_step (db s2) (db s').
Proof.
  intros Hbody. revert s. induction xs as [|y ys IH]; intros s H Hx; [by apply elem_of_nil in Hx|].
  simpl in H. apply bindM_ok in H as ([] & s1 & Hy & H).
  apply elem_of_cons in Hx as [->|Hx].
  - exists s, s1. split_and!; [apply rtc_refl|done|].
    pose proof (stepwise_for_each body ys Hbody s1) as Hs. by rewrite H in Hs.
  - destruct (IH s1 H Hx) as (s2 & s3 & H1 & H2 & H3). exists s2, s3. split_and!; try done.
    etrans; [|exact H1]. pose proof (Hbody y s) as Hs. by rewrite Hy in Hs.
Qed.

(** A loop of insertions keeps the rows it found and stores the rows it makes. *)
Lemma insert_loop_ok {Row : Type} `{!Table Row, !TableLaws Row} {A : Type} (make : A -> Row) xs s u s' :
  for_each (fun x => insert (make x)) xs s = (Ok u, s') ->
  (forall x, x ∈ xs -> table (db s') !! key_of (make x) = Some (make x)) /\
  (forall k r, table (db s) !! k = Some r -> table (db s') !! k = Some r).
Proof.
  revert s. induction xs as [|y ys IH]; intros s H; simpl in H.
  { apply ret_ok in H as [_ ->]. split; [|done]. intros x Hx. by apply elem_of_nil in Hx. }
  apply bindM_ok in H as ([] & s1 & Hy & H). destruct (IH s1 H) as [Hnew Hkeep].
  apply insert_ok in Hy as (_ & d & (_ & Hnone & (_ & _ & -> & _)%write_row_ok)%exec_insert_ok & ->).
  simpl in Hkeep. rewrite table_with in Hkeep. split.
  - intros x Hx. apply elem_of_cons in Hx as [->|Hx]; [|by apply Hnew]. apply Hkeep, lookup_insert_eq.
  - intros k r Hr. apply Hkeep. rewrite lookup_insert_ne; [done|]. congruence.
Qed.

Lemma link_steps d d' k l :
  rtc db_step d d' -> execution_claims d !! k = Some l -> execution_claims d' !! k = Some l.
Proof.
  intros Hs Hl.
  destruct (row_steps ExecutionAssignmentLink execution_claims_table eq d d' k l declared_links)
    as (l' & Hl' & <-); try done.
  intros x y z. congruence.
Qed.

(** A claim keeps its recipient, its wire source and its binding. *)
Definition claim_bound_later (c c' : WakeAssignment) : Prop :=
  wa_lookup c' = wa_lookup c /\ wa_source c' = wa_source c /\
  (forall e, wa_execution_id c = Some e -> wa_execution_id c' = Some e) /\
  (forall t, wa_exact_target c = Some t -> wa_exact_target c' = Some t).

Lemma claim_steps d d' i c :
  rtc db_step d d' -> wake_claims d !! i = Some c ->
  exists c', wake_claims d' !! i = Some c' /\ claim_bound_later c c'.
Proof.
  intros Hs Hc.
  apply (row_steps WakeAssignment wake_claims_table claim_bound_later d d' i c declared_claims); try done.
  - intros x y z (H1 & H2 & H3 & H4) (H5 & H6 & H7 & H8). split_and!; try congruence; auto.
  - intros d1 old new ((_ & H1 & H2 & _) & _ & H3 & H4 & _)%claim_update_ok. by split_and!.
Qed.

(** ** Creation *)

Lemma source_assignment_ok src d c :
  source_assignment src d = Ok c -> wake_claims d !! src_assignment_id src = Some c.
Proof.
  unfold source_assignment. intros H. apply bind_ok_inv in H as (c' & Hc & H).
  apply bind_ok_inv in H as ([] & _ & H). injection H as <-. by apply assignment_read_ok in Hc as [? _].
Qed.

Lemma engage_source_ok e w k src c s u s' :
  engage_source e w (k, (src, c)) s = (Ok u, s') ->
  wa_lookup c = w /\ wa_execution_id c = None /\
  execution_claims (db s') !! (e, k) = Some (mkExecutionAssignmentLink e (src_assignment_id src) k) /\
  exists c', wake_claims (db s') !! src_assignment_id src = Some c' /\
    wa_execution_id c' = Some e /\ wa_exact_target c' = Some (dl_reply_target (src_delivery src)).
Proof.
  unfold engage_source. intros H.
  apply bindM_ok in H as ([] & s1 & [_ ->]%lift_ok & H).
  apply bindM_ok in H as ([] & s2 & [Hown ->]%lift_ok & H). apply refuse_ok in Hown.
  apply orb_false_iff in Hown as [Hown Hfree]. apply negb_false_iff, bool_decide_eq_true in Hown.
  apply bindM_ok in H as (life & s3 & [Hlife ->]%lift_ok & H).
  apply bindM_ok in H as (t & s4 & (_ & _ & Hdb & _)%now_ok & H).
  apply bindM_ok in H as (n & s5 & Hup & H). apply update_ok in Hup as (d5 & Hup & ->).
  apply bindM_ok in H as ([] & s6 & [Hone ->]%lift_ok & H).
  apply refuse_ok, negb_false_iff, Z.eqb_eq in Hone. subst n.
  apply exec_update_ok in Hup as [(? & _)|(_ & old & Hold & _ & _ & Hw)]; [done|].
  apply write_row_ok in Hw as (_ & _ & -> & _).
  apply insert_ok in H as (_ & d6 & (_ & _ & (_ & _ & -> & _)%write_row_ok)%exec_insert_ok & ->).
  simpl. rewrite !lookup_insert_eq. split_and!; try done.
  - unfold wa_execution_id. by destruct (assignment_execution_id (wa_lifecycle c)).
  - eexists. split; [done|]. unfold wa_execution_id, wa_exact_target. simpl.
    by apply assignment_build_bound in Hlife as (_ & ? & ?); [|by left].
Qed.

(** What the loops of [_create] leave alone *)
Lemma engage_source_preserves e w item : preserves executions (engage_source e w item).
Proof. destruct item as [k [src c]]. unfold engage_source. preserves. Qed.

(** The obligation loop of [_create] *)
Definition open_obligation (e : string) (t : Z) (target : string) : ResponseObligation :=
  mkResponseObligation e target PendingResponse NoReasonCode t t 1.
Lemma open_obligation_stepwise e t target : stepwise (insert (open_obligation e t target)).
Proof. stepwise. Qed.
Lemma open_obligation_preserves e t target : preserves executions (insert (open_obligation e t target)).
Proof. preserves. Qed.

Lemma enumerate_zip {A B : Type} (xs : list A) (ys : list B) k x :
  length xs = length ys -> xs !! k = Some x ->
  exists y, ys !! k = Some y /\ (Z.of_nat k, (x, y)) ∈ enumerate (zip xs ys).
Proof.
  intros Hlen Hx. assert (Hk : (k < length ys)%nat) by (rewrite <- Hlen; by apply lookup_lt_Some in Hx).
  apply lookup_lt_is_Some_2 in Hk as [y Hy]. exists y. split; [done|].
  apply list_elem_of_lookup. exists k. unfold enumerate. rewrite list_lookup_imap.
  assert (zip xs ys !! k = Some (x, y)) as ->; [|done].
  apply lookup_zip_Some. done.
Qed.

Lemma elem_of_dict_keys x xs : x ∈ dict_keys xs <-> x ∈ xs.
Proof.
  unfold dict_keys. rewrite list_elem_of_In, <- in_rev, <- list_elem_of_In, elem_of_remove_dups.
  by rewrite list_elem_of_In, <- in_rev, <- list_elem_of_In.
Qed.

(** The first statements of [_create], then its two loops *)
Lemma create_new_ok e origin w n sources assignments s r s' :
  create_new e origin w n sources assignments s = (Ok r, s') ->
  exists t s1 s2 s3 sn,
    r = Applied sn /\ 0 < n /\ recovery_read e (db s') = Ok sn /\
    executions (db s) !! e = None /\
    db s1 = with_table (Row := ExecutionRecord)
      (<[e := mkExecutionRecord e origin QueuedExecution w 1 n NoReasonCode t t]> (executions (db s)))
      (db s) /\ rtc db_step (db s) (db s1) /\
    for_each (engage_source e w) (enumerate (zip sources assignments)) s1 = (Ok tt, s2) /\
    for_each (fun target => insert (open_obligation e t target))
      (dict_keys (reply_targets sources)) s2 = (Ok tt, s3) /\ s' = s3.
Proof.
  unfold create_new, participant_get, recovery_get. intros H.
  apply bindM_ok in H as (p & s1 & [_ ->]%reading_ok & H).
  apply bindM_ok in H as ([] & s2 & [_ ->]%lift_ok & H).
  apply bindM_ok in H as ([] & s3 & [Hn ->]%lift_ok & H). apply refuse_ok, Z.leb_gt in Hn.
  apply bindM_ok in H as ([] & s4 & [_ ->]%lift_ok & H).
  apply bindM_ok in H as (t & s5 & (_ & _ & Hdb & _)%now_ok & H).
  apply bindM_ok in H as (u & s6 & Hins & H).
  pose proof (stepwise_insert _ _ (mkExecutionRecord e origin QueuedExecution w 1 n NoReasonCode t t)
                declared_executions s5) as Hst. rewrite Hins in Hst. simpl in Hst. rewrite Hdb in Hst.
  apply insert_ok in Hins as (_ & d6 & (_ & Hnone & (_ & _ & -> & _)%write_row_ok)%exec_insert_ok & ->).
  apply bindM_ok in H as ([] & s7 & H1 & H). apply bindM_ok in H as ([] & s8 & H2 & H).
  apply bindM_ok in H as (sn & s9 & [Hsn ->]%reading_ok & [-> ->]%ret_ok).
  simpl in Hnone. rewrite Hdb in Hnone.
  eexists t, _, s7, s8, sn. split_and!; try done. simpl. by rewrite Hdb.
Qed.

(** Creating an execution inserts exactly one queued execution with revision 1 and
    binds each selected source: its claim, previously unbound and of the same owner, is
    engaged with the execution and the reply target, a link at the source's position is
    stored, and the reply target has a pending obligation. *)
Theorem create_binds_every_source (e : string) (origin : ExecutionProvenance) (w : string) (n : Z)
    (sources : list SelectedSource) (s s' : Session) (sn : RecoverySnapshot) :
  create e origin w n sources s = (Ok (Applied sn), s') ->
  executions (db s) !! e = None /\
  (exists t, executions (db s')
             = <[e := mkExecutionRecord e origin QueuedExecution w 1 n NoReasonCode t t]>
                 (executions (db s))) /\
  forall k src, sources !! k = Some src ->
    (exists c, wake_claims (db s) !! src_assignment_id src = Some c /\ wa_lookup c = w /\
       wa_execution_id c = None) /\
    (exists c, wake_claims (db s') !! src_assignment_id src = Some c /\ wa_execution_id c = Some e /\
       wa_exact_target c = Some (dl_reply_target (src_delivery src))) /\
    execution_claims (db s') !! (e, Z.of_nat k)
    = Some (mkExecutionAssignmentLink e (src_assignment_id src) (Z.of_nat k)) /\
    (exists o, obligations (db s') !! (e, dl_reply_target (src_delivery src)) = Some o /\
       ob_lifecycle o = PendingResponse).
Proof.
  unfold create, create_in. intros H. apply writing_ok in H as [H _].
  apply bindM_ok in H as (assignments & s1 & [Hread ->]%reading_ok & H).
  apply bindM_ok in H as ([] & s2 & [_ ->]%lift_ok & H).
  apply bindM_ok in H as ([] & s3 & [_ ->]%lift_ok & H).
  apply bindM_ok in H as (row & s4 & [Hrow ->]%reading_ok & H). destruct row as [x|].
  { apply bindM_ok in H as (sn' & s5 & _ & H). apply bindM_ok in H as (u & s6 & _ & [[=] _]%ret_ok). }
  apply create_new_ok in H as (t & s5 & s6 & s7 & sn' & _ & _ & _ & Hnone & Hs5 & Hst & Hl1 & Hl2 & ->).
  split; [done|]. split.
  { exists t. rewrite (preserves_ok executions _ _ _ _ (preserves_for_each _ _ _ (open_obligation_preserves e t)) Hl2).
    rewrite (preserves_ok executions _ _ _ _ (preserves_for_each _ _ _ (engage_source_preserves e w)) Hl1).
    by rewrite Hs5. }
  intros k src Hk. apply mapM_ok in Hread.
  destruct (enumerate_zip _ _ _ _ (Forall2_length _ _ _ Hread) Hk) as (c & Hc & Hin).
  pose proof (Forall2_lookup_lr _ _ _ _ _ _ Hread Hk Hc) as Hsrc. apply source_assignment_ok in Hsrc.
  destruct (for_each_elem _ _ _ _ _ _ (stepwise_engage_source e w) Hl1 Hin)
    as (s8 & s9 & _ & Hbody & Hlater).
  pose proof (stepwise_for_each _ (dict_keys (reply_targets sources))
    (open_obligation_stepwise e t) s6) as Hsteps2.
  rewrite Hl2 in Hsteps2. simpl in Hsteps2. assert (Hall : rtc db_step (db s9) (db s7)) by (by etrans).
  apply engage_source_ok in Hbody as (Hown & Hfree & Hlink & c' & Hc' & He & Ht).
  destruct (claim_steps _ _ _ _ Hall Hc') as (c'' & Hc'' & _ & _ & He' & Ht').
  split_and!; [by eauto | exists c''; split_and!; auto | by apply (link_steps _ _ _ _ Hall) |].
  assert (Htarget : dl_reply_target (src_delivery src) ∈ dict_keys (reply_targets sources)).
  { apply elem_of_dict_keys, list_elem_of_fmap. exists src. split; [done|]. by apply list_elem_of_lookup_2 in Hk. }
  apply insert_loop_ok in Hl2 as [Hnew _]. apply Hnew in Htarget. simpl in Htarget.
  by eexists.
Qed.

(** Creating an execution that exists changes no row; it is reported as already applied
    only where origin, owner, budget and the ordered sources are those stored. *)
Theorem create_existing_changes_nothing (e : string) (origin : ExecutionProvenance) (w : string)
    (n : Z) (sources : list SelectedSource) (s s' : Session) (x : ExecutionRecord)
    (result : outcome (applied RecoverySnapshot)) :
  executions (db s) !! e = Some x -> create e origin w n sources s = (result, s') ->
  db s' = db s /\
  forall r, result = Ok r -> exists sn, r = AlreadyApplied sn /\
    recovery_read e (db s) = Ok sn /\
    ex_origin x = origin /\ ex_owner x = w /\ ex_max_attempts x = n /\
    map ln_assignment (sn_links sn) = map src_assignment_id sources.
Proof.
  unfold create, create_in, recovery_get. intros Hx H. destruct result as [r|err].
  2: { apply writing_err in H. by split. }
  apply writing_ok in H as [H _].
  apply bindM_ok in H as (assignments & s1 & [Hread ->]%reading_ok & H).
  apply bindM_ok in H as ([] & s2 & [_ ->]%lift_ok & H).
  apply bindM_ok in H as ([] & s3 & [_ ->]%lift_ok & H).
  apply bindM_ok in H as (row & s4 & [Hrow ->]%reading_ok & H).
  apply one_ok in Hrow as [Hrow _]. simpl in Hrow. rewrite Hx in Hrow. subst row.
  apply bindM_ok in H as (sn & s5 & [Hsn ->]%reading_ok & H).
  apply bindM_ok in H as ([] & s6 & [Hsame ->]%lift_ok & [-> ->]%ret_ok). split; [done|].
  intros r [= <-]. exists sn. apply refuse_ok, negb_false_iff in Hsame. unfold same_creation in Hsame.
  apply bool_decide_eq_true in Hsame. injection Hsame as H1 H2 H3 _ H5.
  pose proof (recovery_read_ok _ _ _ Hsn) as (Hx' & _). rewrite Hx in Hx'. injection Hx' as ->.
  by split_and!.
Qed.

(** ** Release and early failure *)

Lemma mark_pending_ok e revision s r s' :
  mark_pending e revision s = (Ok r, s') ->
  exists x t, executions (db s) !! e = Some x /\ ex_lifecycle x = QueuedExecution /\
    ex_revision x = revision /\ ex_updated x <= t /\
    db s' = with_table (Row := ExecutionRecord)
      (<[e := execution_set PendingExecution (revision + 1) t None x]> (executions (db s))) (db s).
Proof.
  unfold mark_pending, recovery_get. intros H. apply writing_ok in H as [H _].
  apply bindM_ok in H as (sn & s1 & [Hsn ->]%reading_ok & H).
  apply bindM_ok in H as ([] & s2 & [Hrev ->]%lift_ok & H). apply refuse_ok, negb_false_iff, Z.eqb_eq in Hrev.
  apply bindM_ok in H as ([] & s3 & [Hq ->]%lift_ok & H). apply refuse_ok, negb_false_iff in Hq.
  apply bindM_ok in H as (t & s4 & (Hle & _ & Hdb & _)%now_ok & H).
  apply bindM_ok in H as (k & s5 & Hup & H).
  apply bindM_ok in H as (after & s6 & [_ ->]%reading_ok & [_ ->]%ret_ok).
  pose proof (recovery_read_ok _ _ _ Hsn) as (Hx & _).
  apply update_row_ok with (old := sn_execution sn) in Hup as (_ & _ & Hs5 & _);
    [|simpl; by rewrite Hdb|by apply Z.eqb_eq].
  exists (sn_execution sn), t. rewrite Hs5, Hdb. split_and!; try done.
  unfold exec_queued, ex_status in Hq. by destruct (ex_lifecycle (sn_execution sn)).
Qed.

(** mark_pending moves a queued execution at the expected revision to pending, changing
    that row alone, and no later call in the state it leaves releases the execution again. *)
Theorem mark_pending_releases_once (e : string) (revision : Z) (s s' : Session)
    (r : applied RecoverySnapshot) :
  mark_pending e revision s = (Ok r, s') ->
  (exists x t, executions (db s) !! e = Some x /\ ex_lifecycle x = QueuedExecution /\
     ex_revision x = revision /\ ex_updated x <= t /\
     db s' = with_table (Row := ExecutionRecord)
       (<[e := execution_set PendingExecution (revision + 1) t None x]> (executions (db s))) (db s)) /\
  forall expected again t', mark_pending e expected s' = (again, t') ->
    (exists err, again = Err err) /\ db t' = db s'.
Proof.
  intros H. apply mark_pending_ok in H as (x & t & Hx & Hq & Hrev & Hle & Hdb). split; [eauto 10|].
  intros expected again t' H. destruct again as [r'|err].
  - exfalso. apply mark_pending_ok in H as (y & t1 & Hy & Hq' & _). rewrite Hdb in Hy.
    simpl in Hy. rewrite lookup_insert_eq in Hy. injection Hy as <-. done.
  - unfold mark_pending in H. apply writing_err in H. eauto.
Qed.

(** fail_unstarted fails an execution that has no attempt together with all its
    obligations and claims, and leaves pointers and attempts alone. *)
Theorem fail_unstarted_fails_every_row (e : string) (revision : Z) (reason : ReasonCode)
    (s s' : Session) (r : applied RecoverySnapshot) :
  db_reachable (db s) -> fail_unstarted e revision reason s = (Ok r, s') ->
  exists sn x', recovery_read e (db s) = Ok sn /\ sn_attempt sn = None /\
    executions (db s') !! e = Some x' /\ ex_lifecycle x' = FailedExecution None /\
    ex_revision x' = revision + 1 /\ ex_reason x' = reason /\
    (forall o, o ∈ sn_obligations sn -> exists o', obligations (db s') !! (e, ob_target o) = Some o' /\
       ob_lifecycle o' = FailedResponse) /\
    (forall c, c ∈ sn_assignments sn -> exists c', wake_claims (db s') !! wa_id c = Some c' /\
       wa_disposition c' = FailedKind) /\
    current_executions (db s') = current_executions (db s) /\ attempts (db s') = attempts (db s).
Proof.
  unfold fail_unstarted, recovery_get. intros Hd H. apply writing_ok in H as [H _].
  apply bindM_ok in H as (sn & s1 & [Hsn ->]%reading_ok & H).
  apply bindM_ok in H as ([] & s2 & [Hrev ->]%lift_ok & H). apply refuse_ok, negb_false_iff, Z.eqb_eq in Hrev.
  apply bindM_ok in H as ([] & s3 & [Hq ->]%lift_ok & H). apply refuse_ok, negb_false_iff in Hq.
  apply bindM_ok in H as (t & s4 & (Hle & _ & Hdb & _)%now_ok & H).
  apply bindM_ok in H as (k & s5 & Hup & H).
  apply bindM_ok in H as (u1 & s6 & Hl1 & H). apply bindM_ok in H as (u2 & s7 & Hl2 & H).
  apply bindM_ok in H as (after & s8 & [_ ->]%reading_ok & [_ ->]%ret_ok).
  pose proof (recovery_read_ok _ _ _ Hsn) as (Hx & Hatt & _ & Hobs & _).
  pose proof (reachable_keyed _ Hd) as Hkey.
  apply update_row_ok with (old := sn_execution sn) in Hup as (_ & _ & Hs5 & _);
    [|simpl; by rewrite Hdb|done].
  destruct (row_loop_ok _ _ _ _ _ _ _ (settle_obligation_writes _ _ _) Hl1) as (mo & Hs6 & _ & Hro).
  destruct (row_loop_ok _ _ _ _ _ _ _ (settle_claim_writes _) Hl2) as (mc & Hs7 & _ & Hrc).
  rewrite Hs7, Hs6, Hs5, Hdb in *. simpl in *.
  eexists sn, _. split_and!; try done.
  - rewrite Hatt. unfold ex_ordinal. unfold exec_unstarted, ex_status in Hq.
    by destruct (ex_lifecycle (sn_execution sn)).
  - apply lookup_insert_eq.
  - done.
  - simpl. lia.
  - done.
  - intros o Ho. apply Hro; [done|]. rewrite Hobs in Ho.
    rewrite (obligation_of_rows _ _ _ (Hkey _ _ declared_obligations) Ho). by eexists.
  - intros c Hc. destruct (Hrc c Hc) as (c' & Hc' & Hdisp); [|by eauto].
    destruct (snapshot_claim_stored _ _ _ _ Hsn Hc) as [i Hi].
    pose proof (Hkey _ _ declared_claims _ _ Hi) as Hki. simpl in Hki. rewrite Hki, Hi. by eexists.
Qed.
