(* ===== verification/Scheduler.v ===== *)
(** * The scheduler the coordinator implements

    An abstract machine: executions with their owner and lifecycle, and for each owner the
    one execution and attempt it is running.  Five steps change it.  Every operation of the
    coordinator, applied to a committed store, is one of these steps or leaves the machine
    as it was, and an operation that raises always does the latter: the stores, with their
    attempts, claims, obligations, receipts and revisions, refine this machine. *)

From stdpp Require Import base gmap strings list sorting.
From Stdlib Require Import ZArith Lia.
From S2P Require Import Prelude Contracts Lifecycle WakePolicy AssignmentStates ResponseStates.
From S2P Require Import AttemptStates ExecutionStates Rows Delivery TableGuards CohortRows Database.
From S2P Require Import CohortTables Session SchemaSteps SchemaInvariants Replay Stepwise ParticipantStore.
From S2P Require Import AssignmentStore HarnessStore Cohort CohortFacts Snapshot Settlement ExecutionStore.
From S2P Require Import AttemptStore Fences Progress AttemptOutcomes Recovery Publication PublicationFacts ExecutionFacts.

(** ** The abstract machine *)

Record Schedule : Type := mkSchedule {
  sch_executions : gmap string (string * ExecutionState);
  sch_running : gmap string (string * Z);
}.

(** An execution may start as its first attempt, or again behind a deferred one. *)
Definition startable (st : ExecutionState) (o : Z) : Prop :=
  (st = PendingExecution /\ o = 1) \/ st = DeferredExecution (Some (o - 1)).

(** How attempt [o] may leave its execution *)
Definition ended (o : Z) (st : ExecutionState) : Prop :=
  st = CompletedExecution o \/ st = DeferredExecution (Some o) \/ st = FailedExecution (Some o).

Inductive schedule_step : Schedule -> Schedule -> Prop :=
| schedule_create xs r e w :
    xs !! e = None ->
    schedule_step (mkSchedule xs r) (mkSchedule (<[e := (w, QueuedExecution)]> xs) r)
| schedule_release xs r e w :
    xs !! e = Some (w, QueuedExecution) ->
    schedule_step (mkSchedule xs r) (mkSchedule (<[e := (w, PendingExecution)]> xs) r)
| schedule_abandon xs r e w st :
    xs !! e = Some (w, st) -> exec_unstarted (execution_kind st) = true ->
    schedule_step (mkSchedule xs r) (mkSchedule (<[e := (w, FailedExecution None)]> xs) r)
| schedule_start xs r e w st o :
    xs !! e = Some (w, st) -> startable st o -> r !! w = None ->
    schedule_step (mkSchedule xs r)
      (mkSchedule (<[e := (w, ActiveExecution o)]> xs) (<[w := (e, o)]> r))
| schedule_finish xs r e w o st :
    xs !! e = Some (w, ActiveExecution o) -> r !! w = Some (e, o) -> ended o st ->
    schedule_step (mkSchedule xs r) (mkSchedule (<[e := (w, st)]> xs) (delete w r)).

(** ** The abstraction *)

Definition entry (x : ExecutionRecord) : string * ExecutionState := (ex_owner x, ex_lifecycle x).

Definition pointed_at (p : CurrentExecutions) : option (string * Z) :=
  match ptr_execution p, ptr_attempt p with Some e, Some o => Some (e, o) | _, _ => None end.

Definition schedule (d : DB) : Schedule :=
  mkSchedule (entry <$> executions d) (omap pointed_at (current_executions d)).

(** ** The commands *)

Inductive Command : Type :=
| Register (lookup : string) (is_committed : bool)
| Commit (lookup : string)
| AdvanceGeneration (lookup : string) (expected_generation : Z)
| Accept (a : WakeAssignment)
| Transition (assignment_id : string) (disposition : AssignmentKind) (expected_revision : Z)
| RestoreUnbound (captured : WakeAssignment)
| DeclareAcceptance (root lookup : string)
| AcceptVisit (root lookup : string) (v : Visit)
| HarnessBegin (self : HarnessDelivery)
| HarnessApply (self : HarnessDelivery) (change : HarnessDelivery -> HarnessDelivery)
| Create (e : string) (origin : ExecutionProvenance) (owner : string) (max_attempts : Z)
    (sources : list SelectedSource)
| CreateAfterTriage (e : string) (origin : ExecutionProvenance) (owner : string) (max_attempts : Z)
    (sources : list SelectedSource) (settled : list WakeAssignment)
| MarkPending (e : string) (expected_revision : Z)
| FailUnstarted (e : string) (expected_revision : Z) (reason : ReasonCode)
| Start (request : AttemptStart)
| Advance (f : OwnerFence) (phase : AttemptKind) (expected_pointer_revision : Z)
    (backend_done process_dead progress : bool) (reason : ReasonCode)
| FailUnknown (f : OwnerFence) (expected_pointer_revision : Z) (boundary : Boundary)
| SettleNonpublication (f : OwnerFence) (expected_pointer_revision : Z) (t : TerminalPhase)
    (reason : ReasonCode) (failure : option TurnFailure) (boundary : Boundary)
| TerminalizeDead (e : string) (o g r1 r2 r3 : Z) (evidence : MonitorEvidence)
    (loss : VerifiedAttemptOwnerLoss)
| PrepareResponse (rb : ResponseBoundary) (f : OwnerFence) (payload target : string)
| DispatchResponse (rb : ResponseBoundary) (f : OwnerFence) (target : string)
| AcknowledgeResponse (rb : ResponseBoundary) (first : bool) (f : OwnerFence) (target : string)
| ResolveRoute (rb : ResponseBoundary) (e target : string).

Definition only {A : Type} (m : M A) : W unit := sql (_ ← m; mret tt).
Definition onlyW {A : Type} (m : W A) : W unit := _ ← m; mret tt.

Definition perform (c : Command) : W unit :=
  match c with
  | Register w b => only (register w b)
  | Commit w => only (commit w)
  | AdvanceGeneration w g => only (advance_generation w g)
  | Accept a => only (accept a)
  | Transition i k r => only (transition_preengagement i k r)
  | RestoreUnbound c => only (restore_unbound_delivery c)
  | DeclareAcceptance root w => only (writing (declare_acceptance root w))
  | AcceptVisit root w v => only (accept_visit root w v)
  | HarnessBegin self => only (writing (begin self))
  | HarnessApply self change => only (writing (harness_apply self change))
  | Create e origin w n sources => only (create e origin w n sources)
  | CreateAfterTriage e origin w n sources settled => only (create_after_triage e origin w n sources settled)
  | MarkPending e r => only (mark_pending e r)
  | FailUnstarted e r reason => only (fail_unstarted e r reason)
  | Start request => only (start request)
  | Advance f p r b x g reason => only (advance f p r b x g reason)
  | FailUnknown f r boundary => only (fail_unknown f r boundary)
  | SettleNonpublication f r t reason failure boundary =>
      only (settle_nonpublication f r t reason failure boundary)
  | TerminalizeDead e o g r1 r2 r3 evidence loss =>
      only (terminalize_dead_attempt e o g r1 r2 r3 evidence loss)
  | PrepareResponse rb f payload target => only (prepare_fenced_response rb f payload target)
  | DispatchResponse rb f target => onlyW (dispatch_response rb f target)
  | AcknowledgeResponse rb first f target => onlyW (acknowledge_response rb first f target)
  | ResolveRoute rb e target => onlyW (resolve_route rb e target)
  end.

(** A committed store: reachable, with every foreign key in place *)
Definition committed_store (d : DB) : Prop := db_reachable d /\ foreign_keys_hold d = true.

(** [m] commits, and from a committed store it takes at most one step of the machine, none
    when it raises. *)
Definition refines {A : Type} (m : M A) : Prop := forall s r s',
  committed_store (db s) -> m s = (r, s') ->
  committed_store (db s') /\
  (schedule (db s') = schedule (db s) \/
   (exists a, r = Ok a) /\ schedule_step (schedule (db s)) (schedule (db s'))).

(** ** Transactions *)

Lemma committed_writing {A : Type} (body : M A) s r s' :
  stepwise body -> committed_store (db s) -> writing body s = (r, s') -> committed_store (db s').
Proof.
  intros Hb [Hd Hfk] H. pose proof (stepwise_writing _ Hb s) as Hs. rewrite H in Hs. simpl in Hs. split.
  - by eapply reachable_steps.
  - destruct r as [a|e]; [by apply writing_ok in H as [_ ?]|]. apply writing_err in H. by rewrite H.
Qed.

Lemma refines_writing {A : Type} (body : M A) :
  stepwise body ->
  (forall s a s', committed_store (db s) -> body s = (Ok a, s') ->
     schedule (db s') = schedule (db s) \/ schedule_step (schedule (db s)) (schedule (db s'))) ->
  refines (writing body).
Proof.
  intros Hst Hstep s r s' Hc H. split; [by eapply committed_writing|]. destruct r as [a|e].
  - apply writing_ok in H as [H _]. destruct (Hstep _ _ _ Hc H); [by left|right; eauto].
  - apply writing_err in H. left. by rewrite H.
Qed.

Lemma refines_quiet {A : Type} (body : M A) : stepwise body -> preserves schedule body -> refines (writing body).
Proof.
  intros Hst Hp. apply refines_writing; [done|]. intros s a s' _ H. left.
  exact (preserves_ok schedule _ _ _ _ Hp H).
Qed.

(** Reads before a transaction and its result after it *)
Lemma refines_before {A B : Type} (m : M A) (f : A -> M B) :
  (forall s, (m s).2 = s) -> (forall a, refines (f a)) -> refines (mbind f m).
Proof.
  intros Hm Hf s r s' Hc H. unfold mbind, M_bind in H. specialize (Hm s). destruct (m s) as [[a|e] s1].
  - simpl in Hm. subst s1. by apply (Hf a).
  - simpl in Hm. subst s1. injection H as <- <-. split; [done|by left].
Qed.

Lemma refines_after {A B : Type} (m : M A) (g : A -> B) : refines m -> refines (mbind (fun a => mret (g a)) m).
Proof.
  intros Hm s r s' Hc H. unfold mbind, M_bind in H. destruct (m s) as [[a|e] s1] eqn:E.
  - injection H as <- <-. destruct (Hm _ _ _ Hc E) as [Hc' [Hsame|[_ Hstep]]]; (split; [done|]); [by left|right; eauto].
  - injection H as <- <-. destruct (Hm _ _ _ Hc E) as [Hc' [Hsame|[[a [=]] _]]]. split; [done|by left].
Qed.

Lemma record_quiet initial ns : preserves schedule (cohort_record initial ns).
Proof.
  unfold cohort_record, insert_claims, settle_claims, settle_harness_inputs, record_optional_owner_generations.
  preserves; try apply preserves_savepoint; preserves. apply preserves_walk. intros ? []. done.
Qed.

Lemma settle_claims_quiet self : preserves schedule (settle_claims self).
Proof.
  unfold settle_claims, settle_harness_inputs. preserves. apply preserves_walk. intros ? []. done.
Qed.

(** ** Each step *)

Lemma finish_step d d' e x p o x' p' :
  committed_store d -> executions d !! e = Some x -> current_executions d !! ex_owner x = Some p ->
  ptr_execution p = Some e -> ex_ordinal x = Some o ->
  ex_owner x' = ex_owner x -> ended o (ex_lifecycle x') -> ptr_execution p' = None ->
  executions d' = <[e := x']> (executions d) ->
  current_executions d' = <[ex_owner x := p']> (current_executions d) ->
  schedule_step (schedule d) (schedule d').
Proof.
  intros [Hd Hfk] Hx Hp Hpe Ho Hown Hend Hnone Hexs Hptrs.
  assert (Hpa : exists o', ptr_attempt p = Some o').
  { pose proof (reachable_checked d Hd _ _ declared_pointers _ _ Hp) as Hchk. simpl in Hchk.
    unfold pointer_checks in Hchk. bools. rewrite Hpe in *. destruct (ptr_attempt p); [by eexists|done]. }
  destruct Hpa as [o' Hpa].
  destruct (committed_pointer d (ex_owner x) p e o' Hfk (reachable_keyed d Hd _ _ declared_pointers) Hp Hpe Hpa)
    as (y & Hy & Hlife & _).
  rewrite Hx in Hy. injection Hy as <-. unfold ex_ordinal in Ho. rewrite Hlife in Ho. simpl in Ho.
  injection Ho as <-. unfold schedule. rewrite Hexs, Hptrs, fmap_insert.
  rewrite omap_insert_None by (unfold pointed_at; by rewrite Hnone).
  replace (entry x') with (ex_owner x, ex_lifecycle x') by (unfold entry; by rewrite Hown).
  apply (schedule_finish _ _ e (ex_owner x) o').
  - rewrite lookup_fmap, Hx. simpl. unfold entry. by rewrite Hlife.
  - rewrite lookup_omap, Hp. simpl. unfold pointed_at. by rewrite Hpe, Hpa.
  - done.
Qed.

Lemma disposition_ended t sn a st rs : disposition t sn a = Ok (st, rs) -> ended (at_ordinal a) st.
Proof.
  intros H%disposition_states. unfold settled_states in H. unfold ended.
  destruct t; [|destruct (sn_retry_authorized sn)|]; injection H as -> _; auto.
Qed.

(** A settlement inside a transaction that has so far left the schedule alone *)
Lemma settle_step d e sn t reason boundary s u s' :
  committed_store d -> executions (db s) = executions d -> current_executions (db s) = current_executions d ->
  db_reachable (db s) -> recovery_read e (db s) = Ok sn -> settle sn t reason boundary s = (Ok u, s') ->
  schedule_step (schedule d) (schedule (db s')).
Proof.
  intros Hc Hexs Hptrs Hd Hsn H.
  destruct (settle_prefix _ _ _ _ _ _ _ _ Hd Hsn H)
    as (a & st & rs & time & dr & s1 & Ha & Hcur & _ & _ & _ & Hdisp & _ & (m & -> & Hm) & _ & (_ & Hs1) & Hset).
  pose proof (recovery_read_ok _ _ _ Hsn) as (Hx & Hatt & _ & _ & _ & _ & (p & Hp & Hpe & _) & Hcur' & _).
  pose proof (reachable_keyed _ Hd _ _ declared_executions _ _ Hx) as Hid. simpl in Hid.
  apply participant_read_at_ok in Hp as (_ & _ & Hp & _).
  apply settle_coupled_ok with (p := ps_pointer p) in Hset as (mo & mc & Hdb & _); [|by rewrite Hs1].
  rewrite Hs1 in Hdb. unfold settled_rows in Hdb. rewrite Hid in Hdb.
  assert (Ho : ex_ordinal (sn_execution sn) = Some (at_ordinal a)).
  { rewrite Ha in Hatt. destruct (ex_ordinal (sn_execution sn)) as [o|] eqn:E; [|done].
    by rewrite (snapshot_ordinal _ _ _ _ _ Hd Hsn E Ha). }
  eapply (finish_step d _ e (sn_execution sn) (ps_pointer p) (at_ordinal a)
            (execution_set st (ex_revision (sn_execution sn) + 1) time (Some reason) (sn_execution sn))
            (pointer_set None None (sn_pointer_revision sn + 1) (ps_pointer p))); try done.
  - by rewrite <- Hexs.
  - by rewrite <- Hptrs.
  - rewrite <- Hpe. rewrite Hcur' in Hcur. by apply bool_decide_eq_true in Hcur.
  - by eapply disposition_ended.
  - rewrite Hdb. simpl. by rewrite Hexs.
  - rewrite Hdb. simpl. by rewrite Hptrs.
Qed.

(** The last acknowledgement of an execution completes it. *)
Lemma publications_step d e sn boundary s u s' :
  committed_store d -> executions (db s) = executions d -> current_executions (db s) = current_executions d ->
  db_reachable (db s) -> recovery_read e (db s) = Ok sn -> finish_publications sn boundary s = (Ok u, s') ->
  schedule (db s') = schedule d \/ schedule_step (schedule d) (schedule (db s')).
Proof.
  intros Hc Hexs Hptrs Hd Hsn H. unfold finish_publications in H.
  apply bindM_ok in H as (responses & s0 & [_ ->]%lift_ok & H). destruct (negb _).
  { apply ret_ok in H as [_ ->]. left. unfold schedule. by rewrite Hexs, Hptrs. }
  right. apply bindM_ok in H as (a & s0 & [Ha ->]%lift_ok & H). apply require_current_attempt_ok in Ha as [Hcur Ha].
  apply bindM_ok in H as ([] & s0 & [_ ->]%lift_ok & H).
  apply bindM_ok in H as (t & s1 & (_ & _ & Hdb1 & _)%now_ok & H).
  apply bindM_ok in H as (n & s2 & Hup1 & H). apply bindM_ok in H as (st & s3 & [Hst ->]%lift_ok & H).
  apply bindM_ok in H as (t' & s3 & (_ & _ & Hdb3 & _)%now_ok & H).
  apply bindM_ok in H as (n2 & s4 & Hup2 & H). apply bindM_ok in H as (u5 & s5 & Hloop & H).
  apply bindM_ok in H as (n6 & s6 & Hup3 & [_ ->]%ret_ok).
  pose proof (recovery_read_ok _ _ _ Hsn) as (Hx & Hatt & _ & _ & _ & _ & (p & Hp & Hpe & _ & Hpr) & Hcur' & _).
  pose proof (reachable_keyed _ Hd _ _ declared_executions _ _ Hx) as Hid. simpl in Hid.
  apply participant_read_at_ok in Hp as (_ & _ & Hp & _). rewrite Hcur' in Hcur. apply bool_decide_eq_true in Hcur.
  assert (Hst' : st = CompletedExecution (at_ordinal a)) by (unfold attempt_execution in Hst; by ok_inv). subst st.
  apply preserves_ok with (part := fun d => (executions d, current_executions d)) in Hup1; [|preserves].
  injection Hup1 as He2 Hp2. rewrite <- Hdb3, Hdb1 in He2, Hp2. rewrite Hid in *.
  apply update_row_ok with (old := sn_execution sn) in Hup2 as (_ & _ & Hs4 & _);
    [|simpl; by rewrite He2|apply Z.eqb_refl].
  apply preserves_ok with (part := fun d => (executions d, current_executions d)) in Hloop; [|preserves].
  injection Hloop as He5 Hp5. rewrite Hs4 in He5, Hp5. simpl in He5, Hp5. rewrite He2 in He5. rewrite Hp2 in Hp5.
  apply update_row_ok with (old := ps_pointer p) in Hup3 as (_ & _ & Hs6 & _);
    [|simpl; by rewrite Hp5|rewrite Hpr, Z.eqb_refl; apply bool_decide_eq_true; congruence].
  assert (Ho : ex_ordinal (sn_execution sn) = Some (at_ordinal a)).
  { rewrite Ha in Hatt. destruct (ex_ordinal (sn_execution sn)) as [o|] eqn:E; [|done].
    by rewrite (snapshot_ordinal _ _ _ _ _ Hd Hsn E Ha). }
  eapply (finish_step d _ e (sn_execution sn) (ps_pointer p) (at_ordinal a)
            (execution_set (CompletedExecution (at_ordinal a)) (ex_revision (sn_execution sn) + 1) t' None
               (sn_execution sn))
            (pointer_set None None (sn_pointer_revision sn + 1) (ps_pointer p))); try done.
  - by rewrite <- Hexs.
  - by rewrite <- Hptrs.
  - congruence.
  - by left.
  - rewrite Hs6. simpl. by rewrite He5, Hexs.
  - rewrite Hs6. simpl. by rewrite Hp5, Hptrs.
Qed.

Lemma complete_step rb di sn i o m s r s' :
  committed_store (db s) -> complete rb di sn i o m s = (Ok r, s') ->
  schedule (db s') = schedule (db s) \/ schedule_step (schedule (db s)) (schedule (db s')).
Proof.
  intros Hc H. unfold complete, recovery_get in H.
  apply bindM_ok in H as (a & s1 & [_ ->]%lift_ok & H). apply bindM_ok in H as (u & s2 & [_ ->]%lift_ok & H).
  apply bindM_ok in H as (t & s3 & Hnow & H). pose proof (now_ok _ _ _ _ Hnow) as (_ & _ & Hdb3 & _).
  apply bindM_ok in H as (u4 & s4 & Hins & H).
  apply bindM_ok in H as (published & s5 & [_ ->]%lift_ok & H).
  apply bindM_ok in H as (t6 & s6 & Hnow6 & H). pose proof (now_ok _ _ _ _ Hnow6) as (_ & _ & Hdb6 & _).
  apply bindM_ok in H as (n & s7 & Hup & H).
  apply bindM_ok in H as (sn8 & s8 & [Hsn ->]%reading_ok & H).
  apply bindM_ok in H as (u9 & s9 & Hfin & [_ ->]%reading_ok).
  match type of Hins with insert ?row _ = _ =>
    pose proof (stepwise_insert PublicationEvidence _ row declared_receipts s3) as S1 end.
  rewrite Hins in S1.
  match type of Hup with update ?k ?c ?f _ = _ =>
    pose proof (stepwise_update ResponseObligation _ k c f declared_obligations s6) as S2 end.
  rewrite Hup in S2. simpl in S1, S2. rewrite Hdb3 in S1. rewrite Hdb6 in S2.
  apply preserves_ok with (part := fun d => (executions d, current_executions d)) in Hins; [|preserves].
  apply preserves_ok with (part := fun d => (executions d, current_executions d)) in Hup; [|preserves].
  injection Hins as H1 H2. injection Hup as H3 H4. rewrite Hdb6, H1 in H3. rewrite Hdb6, H2 in H4.
  rewrite Hdb3 in H3, H4. eapply publications_step; try done.
  eapply reachable_steps; [exact (proj1 Hc)|]. by etrans.
Qed.

(** ** Commands that leave the machine alone *)

Lemma refines_commit w : refines (commit w).
Proof. unfold commit, participant_get. apply refines_quiet; [stepwise|preserves]. Qed.
Lemma refines_advance_generation w g : refines (advance_generation w g).
Proof. unfold advance_generation, participant_get. apply refines_quiet; [stepwise|preserves]. Qed.
Lemma refines_accept a : refines (accept a).
Proof.
  unfold accept. apply refines_before; [done|]. intros _.
  apply refines_before; [done|]. intros _. apply refines_quiet; [stepwise|preserves].
Qed.
Lemma refines_transition i k r : refines (transition_preengagement i k r).
Proof. unfold transition_preengagement, transition_in, assignment_get. apply refines_quiet; [stepwise|preserves]. Qed.
Lemma refines_restore c : refines (restore_unbound_delivery c).
Proof.
  unfold restore_unbound_delivery, assignment_get. apply refines_before; [done|]. intros current.
  apply refines_before; [done|]. intros _. apply refines_after, refines_transition.
Qed.
Lemma refines_declare root w : refines (writing (declare_acceptance root w)).
Proof. apply refines_quiet; [stepwise|unfold declare_acceptance; preserves]. Qed.
Lemma refines_accept_visit root w v : refines (accept_visit root w v).
Proof.
  unfold accept_visit. apply refines_quiet; [stepwise|]. unfold frontier_advance.
  preserves; try apply record_quiet; preserves.
Qed.
Lemma refines_begin self : refines (writing (begin self)).
Proof.
  apply refines_quiet; [stepwise|]. unfold begin, first_write, stored.
  apply preserves_bind; [apply settle_claims_quiet|]. intros _. preserves.
Qed.
Lemma refines_harness_apply self change : refines (writing (harness_apply self change)).
Proof.
  apply refines_quiet; [stepwise|]. unfold harness_apply, outcome_settle, harness_record, harness_write.
  preserves; try apply settle_claims_quiet; preserves.
Qed.
Lemma refines_advance f p r b x g reason : refines (advance f p r b x g reason).
Proof.
  unfold advance, require_fence. apply refines_before; [done|]. intros _. apply refines_quiet; [stepwise|].
  unfold record_advance, recovery_get. preserves.
Qed.
Lemma refines_prepare rb f payload target : refines (prepare_fenced_response rb f payload target).
Proof.
  unfold prepare_fenced_response. do 3 (apply refines_before; [done|]; intros _).
  apply refines_quiet; [stepwise|]. preserves.
Qed.

(** ** Commands that step it *)

Lemma refines_register w b : refines (register w b).
Proof.
  unfold register, participant_get. apply refines_writing; [stepwise|]. intros s a s' _ H. left.
  apply bindM_ok in H as (row & s1 & [Hrow ->]%reading_ok & H). destruct row as [person|].
  { apply preserves_ok with (part := schedule) in H; [done|preserves]. }
  apply bindM_ok in H as (u1 & s2 & H1 & H). apply bindM_ok in H as (u2 & s3 & H2 & H).
  apply bindM_ok in H as (u3 & s4 & H3 & H). apply bindM_ok in H as (p & s5 & [_ ->]%reading_ok & [_ ->]%ret_ok).
  apply preserves_ok with (part := schedule) in H1; [|preserves].
  apply preserves_ok with (part := schedule) in H2; [|preserves]. rewrite <- H1, <- H2.
  apply insert_ok in H3 as (_ & d' & (_ & Hnone & (_ & _ & -> & _)%write_row_ok)%exec_insert_ok & ->).
  unfold schedule. simpl. f_equal. rewrite omap_insert_None by done. apply delete_id.
  rewrite lookup_omap. simpl in Hnone. by rewrite Hnone.
Qed.

Lemma engage_quiet e w item : preserves current_executions (engage_source e w item).
Proof. destruct item as [o [src a]]. unfold engage_source. preserves. Qed.

Lemma create_in_step e origin w n sources assignments s r s' :
  create_in e origin w n sources assignments s = (Ok r, s') ->
  schedule (db s') = schedule (db s) \/ schedule_step (schedule (db s)) (schedule (db s')).
Proof.
  unfold create_in, recovery_get. intros H.
  apply bindM_ok in H as ([] & s2 & [_ ->]%lift_ok & H). apply bindM_ok in H as ([] & s3 & [_ ->]%lift_ok & H).
  apply bindM_ok in H as (row & s4 & [Hrow ->]%reading_ok & H). destruct row as [x|].
  { left. apply preserves_ok with (part := schedule) in H; [done|preserves]. }
  right. pose proof H as H'. unfold create_new, participant_get, recovery_get in H'.
  apply preserves_ok with (part := current_executions) in H';
    [|preserves; first [apply engage_quiet|preserves]].
  apply create_new_ok in H as (t & s5 & s6 & s7 & sn & _ & _ & _ & Hnone & Hs5 & _ & Hl1 & Hl2 & ->).
  apply preserves_ok with (part := executions) in Hl1; [|preserves; apply engage_source_preserves].
  apply preserves_ok with (part := executions) in Hl2; [|preserves].
  unfold schedule. rewrite H', Hl2, Hl1, Hs5. simpl. rewrite fmap_insert. unfold entry at 1. simpl.
  apply schedule_create. by rewrite lookup_fmap, Hnone.
Qed.

Lemma refines_create e origin w n sources : refines (create e origin w n sources).
Proof.
  unfold create. apply refines_writing; [stepwise|]. intros s a s' _ H.
  apply bindM_ok in H as (assignments & s1 & [_ ->]%reading_ok & H). by apply create_in_step in H.
Qed.

Lemma refines_create_after e origin w n sources settled : refines (create_after_triage e origin w n sources settled).
Proof.
  unfold create_after_triage. apply refines_writing; [stepwise|]. intros s a s' _ H.
  apply bindM_ok in H as (assignments & s1 & [_ ->]%reading_ok & H).
  apply bindM_ok in H as (u & s1 & [_ ->]%lift_ok & H). by apply create_in_step in H.
Qed.

Lemma execution_replaced d d' e x st revision t reason :
  executions d !! e = Some x ->
  executions d' = <[e := execution_set st revision t reason x]> (executions d) ->
  current_executions d' = current_executions d ->
  schedule d' = mkSchedule (<[e := (ex_owner x, st)]> (sch_executions (schedule d))) (sch_running (schedule d)) /\
  sch_executions (schedule d) !! e = Some (ex_owner x, ex_lifecycle x).
Proof.
  intros Hx Hexs Hptrs. unfold schedule. rewrite Hexs, Hptrs, fmap_insert. split; [done|].
  simpl. by rewrite lookup_fmap, Hx.
Qed.

Lemma refines_mark_pending e r : refines (mark_pending e r).
Proof.
  intros s res s' Hc H. pose proof H as Hw. unfold mark_pending in Hw. destruct res as [a|err].
  2:{ pose proof (writing_err _ _ _ _ Hw) as Hdb. rewrite Hdb. split; [done|by left]. }
  apply committed_writing in Hw; [|unfold recovery_get; stepwise|done]. split; [done|]. right. split; [by eexists|].
  apply mark_pending_ok in H as (x & t & Hx & Hq & _ & _ & Hdb).
  destruct (execution_replaced (db s) (db s') e x PendingExecution (r + 1) t None Hx) as [-> He]; [by rewrite Hdb..|].
  rewrite Hq in He. destruct (schedule (db s)) as [xs rs]. by apply schedule_release.
Qed.

Lemma refines_fail_unstarted e r reason : refines (fail_unstarted e r reason).
Proof.
  unfold fail_unstarted, recovery_get. apply refines_writing; [stepwise|]. intros s a s' Hc H. right.
  apply bindM_ok in H as (sn & s1 & [Hsn ->]%reading_ok & H).
  apply bindM_ok in H as ([] & s2 & [_ ->]%lift_ok & H).
  apply bindM_ok in H as ([] & s3 & [Hq ->]%lift_ok & H). apply refuse_ok, negb_false_iff in Hq.
  apply bindM_ok in H as (t & s4 & (_ & _ & Hdb & _)%now_ok & H). apply bindM_ok in H as (k & s5 & Hup & H).
  pose proof (recovery_read_ok _ _ _ Hsn) as (Hx & _).
  apply update_row_ok with (old := sn_execution sn) in Hup as (_ & _ & Hs5 & _); [|simpl; by rewrite Hdb|done].
  apply preserves_ok with (part := fun d => (executions d, current_executions d)) in H;
    [|unfold settle_obligation, settle_claim; preserves].
  injection H as He Hp. rewrite Hs5 in He, Hp. simpl in He, Hp. rewrite Hdb in He, Hp.
  destruct (execution_replaced (db s) (db s') e _ _ _ _ _ Hx He Hp) as [-> Hl].
  destruct (schedule (db s)) as [xs rs]. eapply schedule_abandon; [exact Hl|exact Hq].
Qed.

Lemma refines_start request : refines (start request).
Proof.
  intros s res s' Hc H. pose proof H as Hw. unfold start, participant_get, recovery_get in Hw.
  assert (Hcommit : committed_store (db s')).
  { unfold mbind at 1, M_bind in Hw. unfold lift at 1 in Hw. destruct (token_digest _) as [dg|e]; [|by injection Hw as _ <-].
    apply committed_writing in Hw; [done| |done]. unfold activate, resume_retry, resume_response, reengage_claim. stepwise. }
  split; [done|]. destruct res as [[r|r]|err].
  - right. split; [by eexists|]. destruct Hc as [Hd Hfk].
    destruct (start_rows _ _ _ _ Hd H)
      as (sn & p & dg & created & Hsn & Hp & Hv & _ & _ & Hown & _ & Hpart & _ & _).
    pose proof (recovery_read_ok _ _ _ Hsn) as (Hx & _).
    apply validate_start_ok in Hv as (_ & _ & _ & _ & _ & Hidle & Hst & _ & Hretry & Hnext & _).
    apply participant_read_at_ok in Hp as (_ & _ & Hptr & _).
    unfold fenced_part, started_rows in Hpart. simpl in Hpart. injection Hpart as _ _ Hptrs Hexs _.
    unfold schedule. rewrite Hexs, Hptrs, fmap_insert.
    rewrite (omap_insert_Some _ _ _ _ (st_execution request, st_ordinal request)) by done.
    unfold entry at 1. simpl. apply (schedule_start _ _ _ (ex_owner (sn_execution sn)) (ex_lifecycle (sn_execution sn))).
    + by rewrite lookup_fmap, Hx.
    + destruct (startable_execution _ Hst Hretry) as [[Hl Ho]|(o & a & Hl & Ho & _)]; rewrite Hnext in Ho.
      * by left.
      * right. rewrite Hl, Ho. do 2 f_equal. lia.
    + rewrite lookup_omap. rewrite Hptr. simpl. unfold pointed_at. by rewrite Hidle.
  - left. unfold start, participant_get, recovery_get in H.
    apply bindM_ok in H as (digest & s0 & [Hdg ->]%lift_ok & H). apply writing_ok in H as [H _].
    apply bindM_ok in H as (sn & s2 & [Hsn ->]%reading_ok & H).
    apply bindM_ok in H as (old & s2 & [Hold ->]%reading_ok & H). destruct old as [a|].
    { by apply bindM_ok in H as (f & s3 & [_ ->]%lift_ok & [_ ->]%ret_ok). }
    do 7 (apply bindM_ok in H as (? & ? & _ & H)). apply bindM_ok in H as (f & s3 & [_ ->]%lift_ok & [[=] _]%ret_ok).
  - left. unfold mbind at 1, M_bind in Hw. unfold lift at 1 in Hw.
    destruct (token_digest _) as [dg|e]; [|by injection Hw as _ <-]. apply writing_err in Hw. by rewrite Hw.
Qed.

Lemma coupled_executions d d' : coupled_part d' = coupled_part d -> executions d' = executions d.
Proof. intros H. by injection H. Qed.

Lemma fail_unknown_stepwise f r boundary : stepwise (
    held ← require_fence f;
    _ ← lift (refuse (negb (sn_pointer_revision held.1 =? r)) (StaleRevision "pointer revision changed"));
    _ ← lift (refuse (nonempty (sn_intents held.1))
                (PublicationUncertain "UNKNOWN failure cannot resolve frozen publication"));
    _ ← (if attempt_backend_done (at_lifecycle held.2) && attempt_process_dead (at_lifecycle held.2)
         then mret tt
         else record_advance held.2 (at_phase held.2) true true false native_unknown);
    current ← recovery_get (of_execution f);
    _ ← settle current UnknownOutcome native_unknown boundary;
    after ← recovery_get (of_execution f);
    mret (Applied after)).
Proof. unfold require_fence. stepwise. Qed.

Lemma refines_fail_unknown f r boundary : refines (fail_unknown f r boundary).
Proof.
  unfold fail_unknown. apply refines_writing; [apply fail_unknown_stepwise|]. intros s a s' Hc H. right.
  unfold require_fence, recovery_get in H.
  apply bindM_ok in H as ([sn b] & s1 & [Hf ->]%reading_ok & H). simpl in H.
  apply bindM_ok in H as ([] & s2 & [_ ->]%lift_ok & H). apply bindM_ok in H as ([] & s3 & [_ ->]%lift_ok & H).
  apply bindM_ok in H as ([] & s4 & Hadv & H). apply bindM_ok in H as (current & s5 & [Hcur ->]%reading_ok & H).
  apply bindM_ok in H as ([] & s6 & Hset & H).
  apply bindM_ok in H as (after & s7 & [_ ->]%reading_ok & [-> ->]%ret_ok).
  assert (Hst : rtc db_step (db s) (db s4)).
  { destruct (_ && _); [by apply ret_ok in Hadv as [_ ->]|].
    pose proof (stepwise_record_advance b (at_phase b) true true false native_unknown s) as Hs.
    by rewrite Hadv in Hs. }
  apply preserves_ok with (part := fun d => (executions d, current_executions d)) in Hadv;
    [|unfold record_advance; preserves]. injection Hadv as He Hp.
  eapply settle_step; [done|done|done|by eapply reachable_steps; [apply Hc|]|exact Hcur|exact Hset].
Qed.

Lemma refines_settle_nonpublication f r t reason failure boundary :
  refines (settle_nonpublication f r t reason failure boundary).
Proof.
  unfold settle_nonpublication. apply refines_writing.
  { unfold require_fence. stepwise. }
  intros s a s' Hc H. right. unfold require_fence, recovery_get in H.
  apply bindM_ok in H as ([sn b] & s1 & [Hf ->]%reading_ok & H). simpl in H.
  apply bindM_ok in H as ([] & s2 & [_ ->]%lift_ok & H).
  apply bindM_ok in H as (current & s3 & Hcur & H). apply bindM_ok in H as ([] & s4 & Hset & H).
  apply bindM_ok in H as (after & s5 & [_ ->]%reading_ok & [-> ->]%ret_ok).
  destruct failure as [failure|].
  - apply bindM_ok in Hcur as ([] & s6 & Hprep & Hcur).
    apply bindM_ok in Hcur as ([sn1 b1] & s7 & [Hf1 ->]%reading_ok & Hcur). apply ret_ok in Hcur as [-> ->].
    pose proof (stepwise_prepare_execution_retry failure (of_execution f) s) as Hs. rewrite Hprep in Hs.
    apply preserves_ok with (part := fun d => (executions d, current_executions d)) in Hprep;
      [|unfold prepare_execution_retry, authorize_if_unobserved, revoke, replay_observe, replay_record,
          replay_for_execution; preserves]. injection Hprep as He Hp.
    apply fence_read_ok in Hf1 as (Hsn1 & _).
    eapply settle_step; [done|done|done|by eapply reachable_steps; [apply Hc|]|exact Hsn1|exact Hset].
  - apply ret_ok in Hcur as [-> ->]. apply fence_read_ok in Hf as (Hsn & _).
    eapply settle_step; [done|done|done|apply Hc|exact Hsn|exact Hset].
Qed.

Lemma refines_terminalize e o g r1 r2 r3 evidence loss :
  refines (terminalize_dead_attempt e o g r1 r2 r3 evidence loss).
Proof.
  unfold terminalize_dead_attempt. do 2 (apply refines_before; [done|]; intros _).
  intros s res s' Hc H. unfold mbind, M_bind in H. destruct (writing _ s) as [[rec|err] s1] eqn:Ew.
  2:{ injection H as <- <-. pose proof (writing_err _ _ _ _ Ew) as Hdb. rewrite Hdb. split; [done|by left]. }
  assert (s' = s1) as -> by (destruct rec as [|[] []]; by injection H).
  split; [by eapply committed_writing; [apply stepwise_record_dead| |exact Ew]|].
  apply writing_ok in Ew as [Hw _].
  destruct (record_dead_ok _ _ _ _ _ _ _ _ _ _ _ (proj1 Hc) Hw)
    as (sn & a & a' & s4 & t & outcome_ & Hsn & _ & _ & _ & _ & _ & _ & _ & [Hrow _ _ _ _ _ _] & Hst & _ & Hcase).
  destruct (_ && _).
  - destruct Hcase as (current & settled & after & s5 & Hcur & Hset & _ & Hins & _ & ->).
    injection H as <-. right. split; [by eexists|].
    apply preserves_ok with (part := schedule) in Hins; [|preserves]. rewrite Hins.
    eapply settle_step; [done| | |by eapply reachable_steps; [apply Hc|]|exact Hcur|exact Hset];
      by rewrite Hrow.
  - destruct Hcase as [-> ->]. left. by rewrite Hrow.
Qed.

(** ** Publication transactions *)

Definition refinesW {A : Type} (m : W A) : Prop := forall w r w',
  committed_store (db (w_session w)) -> m w = (r, w') ->
  committed_store (db (w_session w')) /\
  (schedule (db (w_session w')) = schedule (db (w_session w)) \/
   (exists a, r = Ok a) /\ schedule_step (schedule (db (w_session w))) (schedule (db (w_session w')))).

(** The block of a transaction, when it returns *)
Definition blockW {A : Type} (m : W A) : Prop := forall w a w',
  committed_store (db (w_session w)) -> m w = (Ok a, w') ->
  rtc db_step (db (w_session w)) (db (w_session w')) /\
  (schedule (db (w_session w')) = schedule (db (w_session w)) \/
   schedule_step (schedule (db (w_session w))) (schedule (db (w_session w')))).

(** Computations that leave the coordinator's rows alone, whatever they do to the bus *)
Definition keeps_rows {A : Type} (m : W A) : Prop :=
  forall w, db (w_session (m w).2) = db (w_session w).

Lemma keeps_bind {A B : Type} (m : W A) (f : A -> W B) :
  keeps_rows m -> (forall a, keeps_rows (f a)) -> keeps_rows (mbind f m).
Proof.
  intros Hm Hf w. unfold mbind, W_bind. specialize (Hm w). destruct (m w) as [[a|e] w1]; simpl in *; [|done].
  by rewrite Hf.
Qed.

Lemma keeps_read {A : Type} (m : W A) : read_only m -> keeps_rows m.
Proof. intros Hm w. by rewrite Hm. Qed.

Lemma keeps_publish rb i : keeps_rows (publish_keyed_response rb i).
Proof.
  unfold publish_keyed_response. apply keeps_bind; [done|]. intros [m|]; [done|].
  do 5 (apply keeps_bind; [done|]; intros ?). intros w. unfold bus_append.
  destruct (append_to _ _ _) as [[m b]|e]; [|done]. by destruct (rb_notified rb).
Qed.

Lemma block_bind {A B : Type} (m : W A) (f : A -> W B) :
  keeps_rows m -> (forall a, blockW (f a)) -> blockW (mbind f m).
Proof.
  intros Hm Hf w b w' Hc H. apply bindW_inv in H as [(e & _ & [=])|(a & w1 & Ha & H)].
  specialize (Hm w). rewrite Ha in Hm. simpl in Hm. rewrite <- Hm in Hc |- *. by eapply Hf.
Qed.

Lemma block_ret {A : Type} (a : A) : blockW (mret a).
Proof. intros w b w' _ [= _ <-]. split; [apply rtc_refl|by left]. Qed.

Lemma block_complete {A : Type} rb di sn i o m (f : RecoverySnapshot -> A) :
  blockW (mbind (fun after => mret (f after)) (sql (complete rb di sn i o m))).
Proof.
  intros w b w' Hc H. apply bindW_inv in H as [(e & _ & [=])|(after & w1 & H & [= _ <-])].
  apply sql_inv in H as [_ H]. split; [|by eapply complete_step].
  pose proof (stepwise_complete rb di sn i o m (w_session w)) as Hs. by rewrite H in Hs.
Qed.

Lemma keeps_now floor : keeps_rows (sql (now floor)).
Proof. intros [s b]. unfold sql. simpl. unfold now. by destruct (_ <? 0). Qed.

Lemma block_quiet {A B : Type} (m : M A) (f : A -> B) :
  stepwise m -> preserves schedule m -> blockW (mbind (fun a => mret (f a)) (sql m)).
Proof.
  intros Hst Hp w b w' _ H. apply bindW_inv in H as [(e & _ & [=])|(a & w1 & H & [= _ <-])].
  apply sql_inv in H as [_ H]. split; [|left; exact (preserves_ok schedule _ _ _ _ Hp H)].
  specialize (Hst (w_session w)). by rewrite H in Hst.
Qed.

Lemma refinesW_writing {A : Type} (body : W A) : blockW body -> refinesW (writingW body).
Proof.
  intros Hb w r w' Hc H. apply writingW_inv in H as (r1 & w1 & H & _ & [(a & -> & -> & -> & Hfk)|(e & -> & Hdb)]).
  - destruct (Hb _ _ _ Hc H) as [Hs Hstep]. split; [split; [by eapply reachable_steps; [apply Hc|]|done]|].
    destruct Hstep; [by left|right; eauto].
  - rewrite Hdb. split; [done|by left].
Qed.

Lemma refinesW_before {A B : Type} (m : W A) (f : A -> W B) :
  read_only m -> (forall a, refinesW (f a)) -> refinesW (mbind f m).
Proof.
  intros Hm Hf w r w' Hc H. apply (bindW_read _ _ _ _ _ Hm) in H as [[-> _]|(a & _ & H)].
  - split; [done|by left].
  - by eapply Hf.
Qed.

Lemma refinesW_only {A : Type} (m : M A) : refines m -> refinesW (only m).
Proof.
  intros Hm w r w' Hc H. unfold only in H. apply sql_inv in H as [_ H].
  by apply (refines_after m (fun _ => tt) Hm) in H.
Qed.

Lemma refinesW_onlyW {A : Type} (m : W A) : refinesW m -> refinesW (onlyW m).
Proof.
  intros Hm w r w' Hc H. apply bindW_inv in H as [(e & H & ->)|(a & w1 & H & [= <- <-])].
  - destruct (Hm _ _ _ Hc H) as [Hc' [Hsame|[[a [=]] _]]]. split; [done|by left].
  - destruct (Hm _ _ _ Hc H) as [Hc' [Hsame|[_ Hstep]]]; (split; [done|]); [by left|right; eauto].
Qed.

Ltac block := repeat first
  [ apply block_complete | apply block_ret
  | apply block_bind; [first [apply keeps_publish | apply keeps_now | done]|intros ?]
  | match goal with |- blockW (match ?x with _ => _ end) => destruct x end ].

Lemma refines_acknowledge rb first f target : refinesW (acknowledge_response rb first f target).
Proof.
  unfold acknowledge_response. apply refinesW_before; [apply read_only_current|]. intros _.
  apply refinesW_writing. block. apply block_bind; [|intros ?; block].
  match goal with |- keeps_rows (match ?found with _ => _ end) => destruct found end; [done|].
  apply keeps_bind; [done|]. intros _. apply keeps_bind; [done|]. intros _. apply keeps_publish.
Qed.

Lemma refines_resolve rb e target : refinesW (resolve_route rb e target).
Proof.
  unfold resolve_route, recovery_get. apply refinesW_before; [apply read_only_current|]. intros _.
  apply refinesW_writing. block.
Qed.

Lemma refines_dispatch rb f target : refinesW (dispatch_response rb f target).
Proof.
  unfold dispatch_response. apply refinesW_before; [apply read_only_current|]. intros _.
  apply refinesW_writing. block. apply block_quiet; [stepwise|preserves].
Qed.

(** C2: The coordinator refines the abstract scheduler: every operation of its stores,
    applied to a committed store, leaves the store committed and the schedule as it was, or
    takes exactly one step of the machine (create, release, abandon, start on an idle owner,
    finish the running attempt); an operation that raises never moves the schedule. *)
Theorem coordinator_refines_scheduler (c : Command) (w w' : World) (r : outcome unit) :
  committed_store (db (w_session w)) -> perform c w = (r, w') ->
  committed_store (db (w_session w')) /\
  (schedule (db (w_session w')) = schedule (db (w_session w)) \/
   r = Ok tt /\ schedule_step (schedule (db (w_session w))) (schedule (db (w_session w')))).
Proof.
  intros Hc H. enough (Href : refinesW (perform c)).
  { destruct (Href _ _ _ Hc H) as [Hc' [Hsame|[[[] ->] Hstep]]]; (split; [done|]); auto. }
  clear. destruct c; simpl;
    first [apply refinesW_only | apply refinesW_onlyW];
    first [ apply refines_register | apply refines_commit | apply refines_advance_generation
          | apply refines_accept | apply refines_transition | apply refines_restore | apply refines_declare
          | apply refines_accept_visit | apply refines_begin | apply refines_harness_apply
          | apply refines_create | apply refines_create_after | apply refines_mark_pending
          | apply refines_fail_unstarted | apply refines_start | apply refines_advance
          | apply refines_fail_unknown | apply refines_settle_nonpublication | apply refines_terminalize
          | apply refines_prepare | apply refines_dispatch | apply refines_acknowledge | apply refines_resolve ].
Qed.
