(* ===== verification/NativeRows.v ===== *)
(** * Native inputs: rows and rules

    Models the rows of [native_runtime_input.py] and [triage_native_sources.py]: one durable
    row per prompt that was reserved for a native model, its source claims, the consumed tool
    slots and the cursor of each recipient; the prelaunch binding of a prompt
    ([native_prompt_binding.py]); the context a model was shown ([native_input_proof.py],
    [native_session_reopen.py]); what a row records of its context and of its sending claim
    ([native_input_record.py], [native_claim_epoch.py]); and the refusal rules of a send
    ([private_send_rules.py]).

    A CHECK passes when it is not false, so a comparison with a NULL column does not refuse a
    row; the construction of a row does. *)

From stdpp Require Import base gmap strings list sorting.
From Stdlib Require Import ZArith Lia Ascii.
From S2P Require Import Prelude Contracts WakePolicy AssignmentStates Rows TableGuards Sha256 Delivery.

(** ** Stages and executions *)

(** [type[NativeInputExecution]] *)
Inductive NativeStage : Type := TriageStage | FullStage.

#[export] Instance NativeStage_eq_dec : EqDecision NativeStage.
Proof. solve_decision. Defined.

Inductive NativeInputExecution : Type :=
| TriageNativeExecution
| FullNativeExecution (execution_id : string) (attempt_ordinal : Z).

#[export] Instance NativeInputExecution_eq_dec : EqDecision NativeInputExecution.
Proof. solve_decision. Defined.

Definition execution_stage (e : NativeInputExecution) : NativeStage :=
  match e with TriageNativeExecution => TriageStage | FullNativeExecution _ _ => FullStage end.

(** [NativeInputExecution.binding_fields] *)
Definition binding_fields (e : NativeInputExecution) : option string * option Z :=
  match e with
  | TriageNativeExecution => (None, None)
  | FullNativeExecution i o => (Some i, Some o)
  end.

(** [from_columns] of each stage under [NativeRuntimeInput.execution]: a column that does not
    decode conflicts with the stage *)
Definition from_columns (conflict : Error) (stage : NativeStage) (execution_id : option string)
    (attempt_ordinal : option Z) : outcome NativeInputExecution :=
  match stage, execution_id, attempt_ordinal with
  | TriageStage, None, None => Ok TriageNativeExecution
  | FullStage, Some i, Some o =>
      match validate_execution_id i with
      | Ok _ => if o <? 1 then Err (IdentityConflict "Native full input requires an original attempt")
                else Ok (FullNativeExecution i o)
      | Err _ => Err conflict
      end
  | _, _, _ => Err conflict
  end.

(** [type[SelectedTriage]] *)
Inductive SelectedTriage : Type := IgnoreSelectedTriage | FullSelectedTriage.

#[export] Instance SelectedTriage_eq_dec : EqDecision SelectedTriage.
Proof. solve_decision. Defined.

(** ** Sessions and contexts *)

Record NativeSessionIdentity : Type := mkNativeSessionIdentity {
  si_session : string;
  si_file : string;
}.

#[export] Instance NativeSessionIdentity_eq_dec : EqDecision NativeSessionIdentity.
Proof. solve_decision. Defined.

(** [Path(text).is_absolute()] *)
Definition is_absolute (path : string) : bool :=
  match path with String c _ => Ascii.eqb c "/" | EmptyString => false end.

(** [NativeSessionIdentity.__post_init__] *)
Definition session_identity (session_id session_file : string) : outcome NativeSessionIdentity :=
  _ ← refuse (bool_decide (session_id = "") || negb (is_absolute session_file))
      (NativeReopenError "Saved native session identity is incomplete");
  Ok (mkNativeSessionIdentity session_id session_file).

(** [PositiveNativeIntegerBounds] *)
Definition native_integer (value : Z) : bool := (1 <=? value) && (value <=? 2 ^ 53 - 1).

(** [Sha256Text] *)
Definition lower_hex (c : ascii) : bool :=
  let n := nat_of_ascii c in ((48 <=? n)%nat && (n <=? 57)%nat) || ((97 <=? n)%nat && (n <=? 102)%nat).
Definition sha256_text (s : string) : bool :=
  (len s =? 64) && forallb lower_hex (String.list_ascii_of_string s).

(** [NativeContextProof]: which entry of which session file held the input, and the first
    model request that included it *)
Record NativeContextProof : Type := mkNativeContextProof {
  cx_input : string;
  cx_session : string;
  cx_entry : string;
  cx_request : Z;
  cx_digest : string;
  cx_committed : Z;
  cx_file : string;
  cx_start : Z;
}.

#[export] Instance NativeContextProof_eq_dec : EqDecision NativeContextProof.
Proof. solve_decision. Defined.

(** [NativeContextRecord.__post_init__] *)
Definition context_valid (c : NativeContextProof) : bool :=
  sha256_text (cx_digest c) && native_integer (cx_request c) && native_integer (cx_committed c).

(** [NativeSessionIdentity.require_context] *)
Definition require_context (identity : NativeSessionIdentity) (c : NativeContextProof) : outcome unit :=
  other ← session_identity (cx_session c) (cx_file c);
  require (bool_decide (identity = other)) (NativeReopenError "Native saved source identity changed").

(** [NativeContextProof.require_continuation] *)
Definition require_continuation (self context : NativeContextProof) : outcome unit :=
  _ ← refuse (negb (bool_decide
        ((cx_input self, cx_session self, cx_entry self, cx_file self, cx_start self)
         = (cx_input context, cx_session context, cx_entry context, cx_file context, cx_start context))))
      (IdentityConflict "Native context acknowledgement belongs to another entry");
  _ ← refuse (cx_request context <? cx_request self)
      (IdentityConflict "Native context precedes its original acknowledgement");
  refuse ((cx_request context =? cx_request self) && negb (bool_decide (context = self)))
    (IdentityConflict "Native request has contradictory context evidence").

(** ** Reserved inputs *)

Record NativeRuntimeInput : Type := mkNativeRuntimeInput {
  ni_id : string;
  ni_stage : NativeStage;
  ni_execution_id : option string;
  ni_attempt_ordinal : option Z;
  ni_owner : string;
  ni_generation : Z;
  ni_token : string;
  ni_sent : option Z;            (* sent_owner_claimed_generation *)
  ni_session : option string;
  ni_file : option string;
  ni_entry : option string;
  ni_start : option Z;
  ni_request : option Z;
  ni_digest : option string;
  ni_committed : option Z;
  ni_verdict : option SelectedTriage;
}.

#[export] Instance NativeRuntimeInput_eq_dec : EqDecision NativeRuntimeInput.
Proof. solve_decision. Defined.

(** [NativeRuntimeInput.execution] *)
Definition ni_execution (r : NativeRuntimeInput) : outcome NativeInputExecution :=
  from_columns (IdentityConflict "Native input execution columns conflict with their stage")
    (ni_stage r) (ni_execution_id r) (ni_attempt_ordinal r).

(** [NativeRuntimeInput.require_session_identity] *)
Definition require_session_identity (r : NativeRuntimeInput) : outcome NativeSessionIdentity :=
  let absent := IdentityConflict "Native input has no recorded selected session" in
  match ni_session r, ni_file r with
  | Some session, Some file =>
      match session_identity session file with Ok i => Ok i | Err _ => Err absent end
  | _, _ => Err absent
  end.

(** [NativeSessionSelection.selected_session] *)
Definition selected_session (r : NativeRuntimeInput) : outcome (option NativeSessionIdentity) :=
  match ni_session r with
  | None => _ ← refuse (present (ni_file r)) (MalformedRecord "Expected null"); Ok None
  | Some _ => identity ← require_session_identity r; Ok (Some identity)
  end.

(** [NativeInputReference] *)
Record NativeInputReference : Type := mkNativeInputReference {
  nr_input : string;
  nr_stage : NativeStage;
  nr_session : string;
  nr_request : Z;
}.

#[export] Instance NativeInputReference_eq_dec : EqDecision NativeInputReference.
Proof. solve_decision. Defined.

(** [NativeInputReference.acquire] *)
Definition acquire_reference (input : option string) (stage : option NativeStage) (session : option string)
    (request : option Z) : outcome NativeInputReference :=
  let incomplete := IdentityConflict "Native recorded context reference is incomplete" in
  match input, stage, session, request with
  | Some i, Some s, Some n, Some g =>
      _ ← refuse (bool_decide (n = "") || negb (native_integer g)) incomplete;
      Ok (mkNativeInputReference i s n g)
  | _, _, _, _ => Err incomplete
  end.

(** [NativeInputContext.reference] of a reserved input: [None] where no context is recorded *)
Definition ni_reference (r : NativeRuntimeInput) : outcome (option NativeInputReference) :=
  match ni_entry r with
  | None =>
      _ ← refuse (present (ni_start r) || present (ni_request r) || present (ni_digest r)
                  || present (ni_committed r))
          (IdentityConflict "Native unrecorded context group is partial");
      Ok None
  | Some _ =>
      execution ← ni_execution r;
      reference ← acquire_reference (Some (ni_id r)) (Some (execution_stage execution)) (ni_session r)
                    (ni_request r);
      _ ← require (present (ni_start r) && present (ni_digest r) && present (ni_committed r))
          (IdentityConflict "Native recorded context group is partial");
      Ok (Some reference)
  end.

(** [NativeRuntimeInput.__post_init__] *)
Definition input_post_init (r : NativeRuntimeInput) : outcome unit :=
  _ ← ni_execution r;
  _ ← selected_session r;
  _ ← ni_reference r;
  Ok tt.

(** [NativeRuntimeInput.require_context_proof] *)
Definition require_context_proof (r : NativeRuntimeInput) : outcome NativeContextProof :=
  reference ← ni_reference r;
  _ ← of_option reference (UnrecordedNativeContext "Native input has no recorded context");
  match ni_session r, ni_entry r, ni_request r, ni_digest r, ni_committed r, ni_start r with
  | Some session, Some entry, Some request, Some digest, Some committed_at, Some start =>
      identity ← require_session_identity r;
      let proof := mkNativeContextProof (ni_id r) session entry request digest committed_at
                     (si_file identity) start in
      _ ← require (context_valid proof) (MalformedRecord "Invalid NativeContextRecord");
      Ok proof
  | _, _, _, _, _, _ => Err (IdentityConflict "Native input has no committed byte placement")
  end.

(** A comparison with NULL is not false. *)
Definition unless_null {A : Type} (column : option A) (holds : A -> bool) : bool :=
  match column with Some a => holds a | None => true end.

Definition stage_check (stage : NativeStage) (execution_id : option string) (ordinal : option Z) : bool :=
  (bool_decide (stage = TriageStage) && negb (present execution_id) && negb (present ordinal))
  || (bool_decide (stage = FullStage) && present execution_id && unless_null ordinal (Z.ltb 0)).

(** The CHECK constraints of the table *)
Definition input_checks (r : NativeRuntimeInput) : bool :=
  (0 <? ni_generation r) && (len (ni_token r) =? 64) && unless_null (ni_sent r) (Z.ltb 0)
  && unless_null (ni_start r) (Z.ltb 0)
  && stage_check (ni_stage r) (ni_execution_id r) (ni_attempt_ordinal r)
  && ((negb (present (ni_session r)) && negb (present (ni_file r)))
      || (present (ni_session r) && unless_null (ni_session r) (fun s => 0 <? len s)
          && present (ni_file r) && unless_null (ni_file r) (fun s => 0 <? len s) && present (ni_sent r)))
  && ((negb (present (ni_entry r)) && negb (present (ni_start r)) && negb (present (ni_request r))
       && negb (present (ni_digest r)) && negb (present (ni_committed r)))
      || (present (ni_entry r) && unless_null (ni_entry r) (fun s => 0 <? len s)
          && present (ni_start r) && unless_null (ni_request r) (Z.ltb 0)
          && unless_null (ni_digest r) (fun s => len s =? 64) && unless_null (ni_committed r) (Z.ltb 0)
          && present (ni_session r)))
  && (bool_decide (ni_stage r = TriageStage) || negb (present (ni_verdict r))).

(** [unique = (("execution_id", "attempt_ordinal"),)]: NULL differs from every value *)
Definition input_conflicts (r r' : NativeRuntimeInput) : bool :=
  match ni_execution_id r, ni_attempt_ordinal r, ni_execution_id r', ni_attempt_ordinal r' with
  | Some e, Some o, Some e', Some o' => bool_decide (e = e') && (o =? o')
  | _, _, _, _ => false
  end.

(** The frozen columns, [write_once_columns] and [required_update_columns] *)
Definition input_update_guard (old new : NativeRuntimeInput) : bool :=
  frozen_violation [is_not (ni_id new) (ni_id old); is_not (ni_stage new) (ni_stage old);
                    is_not (ni_execution_id new) (ni_execution_id old);
                    is_not (ni_attempt_ordinal new) (ni_attempt_ordinal old);
                    is_not (ni_owner new) (ni_owner old); is_not (ni_generation new) (ni_generation old);
                    is_not (ni_token new) (ni_token old)]
  || (write_once_violation (ni_sent old) (ni_sent new)
      || write_once_violation (ni_session old) (ni_session new)
      || write_once_violation (ni_file old) (ni_file new)
      || write_once_violation (ni_verdict old) (ni_verdict new)
      || write_once_violation (ni_entry old) (ni_entry new)
      || write_once_violation (ni_start old) (ni_start new)
      || write_once_violation (ni_request old) (ni_request new)
      || write_once_violation (ni_digest old) (ni_digest new)
      || write_once_violation (ni_committed old) (ni_committed new))
  || negb (present (ni_sent new)).

(** ** Source members *)

Record TriageNativeSource : Type := mkTriageNativeSource {
  tm_input : string;
  tm_ordinal : Z;
  tm_assignment : string;
  tm_attempt : Z;
}.

#[export] Instance TriageNativeSource_eq_dec : EqDecision TriageNativeSource.
Proof. solve_decision. Defined.

Definition triage_member_checks (m : TriageNativeSource) : bool := (0 <=? tm_ordinal m) && (0 <=? tm_attempt m).

(** ** Tool slots *)

Inductive SelectedSlotState : Type := ConsumedSlot | AcknowledgedSlot.

#[export] Instance SelectedSlotState_eq_dec : EqDecision SelectedSlotState.
Proof. solve_decision. Defined.

Record SelectedToolSlot : Type := mkSelectedToolSlot {
  sl_id : string;
  sl_call : string;
  sl_state : SelectedSlotState;
}.

(** [SelectedSlotState.acknowledge] *)
Definition slot_acknowledge (s : SelectedSlotState) : outcome SelectedSlotState :=
  match s with
  | ConsumedSlot => Ok AcknowledgedSlot
  | AcknowledgedSlot => Err (SelectedToolDenied "Selected tool terminal was already acknowledged; no retry")
  end.

(** [SelectedSlotState.require_acknowledged] *)
Definition slot_require_acknowledged (s : SelectedSlotState) : outcome unit :=
  match s with
  | AcknowledgedSlot => Ok tt
  | ConsumedSlot => Err (SelectedToolDenied "Selected tool outcome UNKNOWN; no terminal acknowledgement")
  end.

(** ** Prompt bindings *)

Record PromptBinding : Type := mkPromptBinding {
  pb_input : string;
  pb_stage : NativeStage;
  pb_execution_id : option string;
  pb_attempt_ordinal : option Z;
  pb_owner : string;
  pb_generation : Z;
  pb_root : string;
  pb_digest : string;
  pb_bound_at : Z;
}.

#[export] Instance PromptBinding_eq_dec : EqDecision PromptBinding.
Proof. solve_decision. Defined.

(** [PromptBinding.execution] *)
Definition pb_execution (b : PromptBinding) : outcome NativeInputExecution :=
  from_columns (IdentityConflict "Prompt binding execution columns conflict with their stage")
    (pb_stage b) (pb_execution_id b) (pb_attempt_ordinal b).

Definition binding_checks (b : PromptBinding) : bool :=
  (0 <? pb_generation b) && (0 <? pb_bound_at b)
  && stage_check (pb_stage b) (pb_execution_id b) (pb_attempt_ordinal b).

(** [encode_request] of a plain prompt *)
Definition encode_request (text : string) : string :=
  "{" +:+ quoted "kind" +:+ ":" +:+ quoted "prompt" +:+ "," +:+ quoted "text" +:+ ":" +:+ quoted text
  +:+ "," +:+ quoted "images" +:+ ":null," +:+ quoted "streamingBehavior" +:+ ":null,"
  +:+ quoted "expandPromptTemplates" +:+ ":true," +:+ quoted "source" +:+ ":" +:+ quoted "rpc" +:+ "}".

(** [native_request_digest] *)
Definition native_request_digest (text : string) : string :=
  Sha256.sha256_hex ("pi-input-request-v1" +:+ String (ascii_of_nat 10) "" +:+ encode_request text).

(** ** Refusal rules *)

(** A rule: whether the check violates it, its declared name and its explanation *)
Record ReservationRule : Type := mkReservationRule {
  rule_violated : bool;
  rule_name : string;
  rule_explanation : string;
}.

(** [RuleCheck.require_valid], as every caller wraps it: the first violated rule *)
Fixpoint require_valid (rules : list ReservationRule) (refusal : string -> Error) : outcome unit :=
  match rules with
  | [] => Ok tt
  | r :: rest =>
      if rule_violated r then Err (refusal (rule_name r +:+ ": " +:+ rule_explanation r))
      else require_valid rest refusal
  end.

(** [NativeInputIdentity]: an execution and the owner generation that reserved it *)
Abbreviation NativeOwnership := (NativeInputExecution * (string * Z))%type.

(** [NativeInputIdentityRule] *)
Definition identity_rule (actual expected : NativeOwnership) : ReservationRule :=
  mkReservationRule (negb (bool_decide (actual = expected))) "native_input_identity"
    "The original native input assignment, stage, attempt or owner changed.".

(** The rules of a [NativeReservationCheck] *)
Definition reservation_rules (r : NativeRuntimeInput) (actual expected : NativeOwnership) (proven : bool)
    (token_digest : string) : list ReservationRule :=
  [identity_rule actual expected;
   mkReservationRule (negb (bool_decide (ni_token r = token_digest))) "native_token"
     "The reserved native input token changed.";
   mkReservationRule (present (ni_sent r)) "native_already_bound"
     "The native input was already bound to a sending claim_scope.";
   mkReservationRule proven "native_already_proven" "The native input already has a proven session result.";
   mkReservationRule (present (ni_verdict r)) "native_already_decided"
     "The native triage input already has a verdict."].

(** The rules of a [NativeBindingCheck] *)
Definition binding_rules (b : PromptBinding) (actual expected : NativeOwnership) (wire_root_id digest : string)
    : list ReservationRule :=
  [identity_rule actual expected;
   mkReservationRule (negb (bool_decide (pb_root b = wire_root_id))) "native_binding_root"
     "The prelaunch binding belongs to a different wire root.";
   mkReservationRule (negb (bool_decide (pb_digest b = digest))) "native_binding_content"
     "The native request digest differs from its durable prelaunch binding."].

(** The rules of a [NativeClaimCheck] *)
Definition claim_rules (captured current : WakeAssignment) : list ReservationRule :=
  [mkReservationRule (negb (bool_decide (wa_recipient current = wa_recipient captured)))
     "native_claim_recipient" "The selected claim recipient changed.";
   mkReservationRule (negb (bool_decide (wa_lookup current = wa_lookup captured)))
     "native_claim_lookup" "The selected claim recipient lookup changed.";
   mkReservationRule (negb (wa_wire_seq current =? wa_wire_seq captured))
     "native_claim_sequence" "The selected claim source sequence changed.";
   mkReservationRule (negb (bool_decide (wa_message_id current = wa_message_id captured)))
     "native_claim_message" "The selected claim committed message changed.";
   mkReservationRule (negb (bool_decide (assignment_mode (wa_lifecycle current)
                                         = assignment_mode (wa_lifecycle captured))))
     "native_claim_mode" "The selected claim wake mode changed."].

(** ** Facts *)

Lemma require_valid_ok rules refusal u :
  require_valid rules refusal = Ok u <-> Forall (fun r => rule_violated r = false) rules.
Proof.
  destruct u. induction rules as [|r rest IH]; simpl; [by split|].
  rewrite Forall_cons. destruct (rule_violated r); split; [done | by intros [? _] | | ].
  - intros H. split; [done | by apply IH].
  - intros [_ H]. by apply IH.
Qed.
