(* ===== verification/NativeSession.v ===== *)
(** * The native tables and their transactions

    The tables of [native_runtime_input.py] and [triage_native_sources.py] share the file of
    the coordinator: a session has the coordinator's rows, the native rows and, in a file of
    its own, the prompt bindings ([native_prompt_binding.py]).  [NM] is the monad of an
    operation on them; a write transaction that raises restores both kinds of rows.  The
    statements check triggers, constraints and foreign keys in SQLite's order.  [native_owner]
    below holds the checks of [native_input_owner.py] on a captured owner. *)

From stdpp Require Import base gmap strings list sorting.
From Stdlib Require Import ZArith Lia.
From S2P Require Import Prelude Contracts ThreadStatus Threads RegistryDocument Lifecycle WakePolicy AssignmentStates.
From S2P Require Import ResponseStates AttemptStates ExecutionStates Rows TableGuards Database Session SchemaSteps Stepwise.
From S2P Require Import ParticipantStore AssignmentStore NativeRows.

(** ** State *)

Record CurrentNativeCursor : Type := mkCurrentNativeCursor {
  cu_root : string;
  cu_recipient : string;
  cu_generation : Z;
  cu_claimed : Z;
  cu_covered : Z;
  cu_injected : Z;
  cu_input : option string;
  cu_stage : option NativeStage;
  cu_session : option string;
  cu_request : option Z;
}.

#[export] Instance CurrentNativeCursor_eq_dec : EqDecision CurrentNativeCursor.
Proof. solve_decision. Defined.

Record NativeTables : Type := mkNativeTables {
  native_inputs : gmap string NativeRuntimeInput;
  triage_members : gmap (string * Z) TriageNativeSource;
  tool_slots : gmap string SelectedToolSlot;
  native_cursors : gmap (string * string) CurrentNativeCursor;
}.

Record NativeSession : Type := mkNativeSession {
  ns_core : Session;
  ns_tables : NativeTables;
  ns_bindings : gmap string PromptBinding;
}.

Definition inputs (s : NativeSession) : gmap string NativeRuntimeInput := native_inputs (ns_tables s).
Definition members (s : NativeSession) : gmap (string * Z) TriageNativeSource := triage_members (ns_tables s).
Definition slots (s : NativeSession) : gmap string SelectedToolSlot := tool_slots (ns_tables s).
Definition cursors (s : NativeSession) : gmap (string * string) CurrentNativeCursor := native_cursors (ns_tables s).

Definition no_native_rows : NativeTables := mkNativeTables ∅ ∅ ∅ ∅.

Definition with_inputs (m : gmap string NativeRuntimeInput) (t : NativeTables) : NativeTables :=
  mkNativeTables m (triage_members t) (tool_slots t) (native_cursors t).
Definition with_members (m : gmap (string * Z) TriageNativeSource) (t : NativeTables) : NativeTables :=
  mkNativeTables (native_inputs t) m (tool_slots t) (native_cursors t).
Definition with_slots (m : gmap string SelectedToolSlot) (t : NativeTables) : NativeTables :=
  mkNativeTables (native_inputs t) (triage_members t) m (native_cursors t).
Definition with_cursors (m : gmap (string * string) CurrentNativeCursor) (t : NativeTables) : NativeTables :=
  mkNativeTables (native_inputs t) (triage_members t) (tool_slots t) m.

(** ** Operations *)

Definition NM (A : Type) : Type := NativeSession -> outcome A * NativeSession.

#[export] Instance NM_ret : MRet NM := fun A a s => (Ok a, s).
#[export] Instance NM_bind : MBind NM := fun A B f m s =>
  match m s with
  | (Ok a, s') => f a s'
  | (Err e, s') => (Err e, s')
  end.

(** A computation that touches no state *)
Definition nlift {A : Type} (o : outcome A) : NM A := fun s => (o, s).

(** A read of the session *)
Definition nread {A : Type} (q : NativeSession -> outcome A) : NM A := fun s => (q s, s).

(** A store method of the coordinator, on the same connection *)
Definition core {A : Type} (m : M A) : NM A := fun s =>
  let '(r, c) := m (ns_core s) in (r, mkNativeSession c (ns_tables s) (ns_bindings s)).

Fixpoint n_each {A : Type} (body : A -> NM unit) (xs : list A) : NM unit :=
  match xs with
  | [] => mret tt
  | x :: rest => _ ← body x; n_each body rest
  end.

(** [CoordinationStore.writing] over both kinds of rows *)
Definition n_writing {A : Type} (body : NM A) : NM A := fun s =>
  match body s with
  | (Ok a, s') => if foreign_keys_hold (db (ns_core s')) then (Ok a, s')
                  else (Err SqlForeignKey,
                        mkNativeSession (with_db (db (ns_core s)) (ns_core s')) (ns_tables s) (ns_bindings s))
  | (Err e, s') => (Err e, mkNativeSession (with_db (db (ns_core s)) (ns_core s')) (ns_tables s) (ns_bindings s))
  end.

(** One statement on the native tables: it reads the coordinator's rows and either raises or
    replaces the native ones. *)
Definition statement {A : Type} (f : DB -> NativeTables -> outcome (A * NativeTables)) : NM A := fun s =>
  match f (db (ns_core s)) (ns_tables s) with
  | Ok (a, t) => (Ok a, mkNativeSession (ns_core s) t (ns_bindings s))
  | Err e => (Err e, s)
  end.

(** ** Statements *)

Definition input_table : string := "native_runtime_input".

(** [NativeRuntimeInput(...).insert(db)] *)
Definition insert_input (r : NativeRuntimeInput) : NM unit :=
  _ ← nlift (input_post_init r);
  statement (fun d t =>
    _ ← refuse (present (native_inputs t !! ni_id r)) (SqlConstraint input_table);
    _ ← require (input_checks r) (SqlConstraint input_table);
    _ ← refuse (map_exists (input_conflicts r) (native_inputs t)) (SqlConstraint input_table);
    _ ← require (present (participants d !! ni_owner r)
                 && references (ni_execution_id r) (fun e => present (executions d !! e))) SqlForeignKey;
    Ok (tt, with_inputs (<[ni_id r := r]> (native_inputs t)) t)).

(** [NativeRuntimeInput.update(db, where="input_id=? AND condition", ...)]; no update assigns a
    column of a foreign or a UNIQUE key. *)
Definition update_input (i : string) (condition : NativeRuntimeInput -> bool)
    (change : NativeRuntimeInput -> NativeRuntimeInput) : NM Z :=
  statement (fun _ t =>
    match native_inputs t !! i with
    | None => Ok (0, t)
    | Some old =>
        if condition old then
          let new := change old in
          _ ← refuse (input_update_guard old new) (SqlAbort input_table);
          _ ← require (input_checks new) (SqlConstraint input_table);
          Ok (1, with_inputs (<[i := new]> (native_inputs t)) t)
        else Ok (0, t)
    end).

(** [NativeRuntimeInput.one(db, input_id=...)] *)
Definition input_read (i : string) (s : NativeSession) : outcome (option NativeRuntimeInput) :=
  match inputs s !! i with
  | None => Ok None
  | Some r => _ ← input_post_init r; Ok (Some r)
  end.

Definition members_of_input (i : string) (t : NativeTables) : list TriageNativeSource :=
  select_rows Z.leb (triage_members t) i.

(** [TriageNativeSource.insert_condition] *)
Definition triage_member_guard (d : DB) (t : NativeTables) (m : TriageNativeSource) : bool :=
  match native_inputs t !! tm_input m with
  | Some n => negb (bool_decide (ni_stage n = TriageStage))
              || negb (tm_ordinal m =? Z.of_nat (length (members_of_input (tm_input m) t)))
              || match wake_claims d !! tm_assignment m with
                 | Some c => negb (bool_decide (wa_lookup c = ni_owner n))
                 | None => true
                 end
  | None => true
  end.

(** Another member names the same claim in the same attempt. *)
Definition same_ask (m m' : TriageNativeSource) : bool :=
  bool_decide (tm_assignment m = tm_assignment m') && (tm_attempt m =? tm_attempt m').

(** [TriageNativeSource(...).insert(db)] inside [record_sources], which renames the violation of
    the one UNIQUE constraint *)
Definition insert_member (m : TriageNativeSource) : NM unit :=
  statement (fun d t =>
    _ ← refuse (triage_member_guard d t m) (SqlAbort "native_runtime_triage_members");
    _ ← require (triage_member_checks m) (SqlConstraint "native_runtime_triage_members");
    _ ← refuse (present (triage_members t !! (tm_input m, tm_ordinal m)))
        (SqlConstraint "native_runtime_triage_members");
    _ ← refuse (map_exists (same_ask m) (triage_members t))
        (IdentityConflict "Native input membership must name distinct original sources");
    Ok (tt, with_members (<[(tm_input m, tm_ordinal m) := m]> (triage_members t)) t)).

(** ** Tool slots *)

(** [SelectedToolSlot.consume], in the transaction of [consume_selected_slot] *)
Definition consume_selected_slot (slot_id call_id : string) : NM unit :=
  n_writing (statement (fun _ t =>
    _ ← refuse (present (tool_slots t !! slot_id))
        (SelectedToolDenied "Selected tool input already consumed; outcome may be UNKNOWN");
    Ok (tt, with_slots (<[slot_id := mkSelectedToolSlot slot_id call_id ConsumedSlot]> (tool_slots t)) t))).

(** [SelectedToolSlot.require_call] *)
Definition require_call (slot : SelectedToolSlot) (call_id : string) : outcome unit :=
  require (bool_decide (sl_call slot = call_id))
    (SelectedToolDenied "Selected tool has no matching terminal acknowledgement").

(** [SelectedToolSlot.acknowledge], in the transaction of [record_selected_terminal] *)
Definition record_selected_terminal (slot_id call_id : string) : NM unit :=
  n_writing (
    slot ← nread (fun s => of_option (slots s !! slot_id) (RowNotFoundError "selected_tool_slot"));
    _ ← nlift (require_call slot call_id);
    state ← nlift (slot_acknowledge (sl_state slot));
    changed ← statement (fun _ t =>
      match tool_slots t !! slot_id with
      | Some old => if bool_decide (sl_state old = sl_state slot)
                    then Ok (1, with_slots (<[slot_id := mkSelectedToolSlot (sl_id old) (sl_call old) state]>
                                              (tool_slots t)) t)
                    else Ok (0, t)
      | None => Ok (0, t)
      end);
    nlift (require (changed =? 1)
             (SelectedToolDenied "Selected tool terminal changed; outcome UNKNOWN; no retry"))).

(** [SelectedToolSlot.verify], in the read of [verify_selected_terminal] *)
Definition verify_selected_terminal (slot_id call_id : string) : NM unit :=
  slot ← nread (fun s => of_option (slots s !! slot_id) (RowNotFoundError "selected_tool_slot"));
  _ ← nlift (require_call slot call_id);
  nlift (slot_require_acknowledged (sl_state slot)).

(** ** Captured owners *)

(** What a check reads of the carried fields of a declaration: the lookup a birth spells, the
    selected worktree, model, thinking level and session, whether the captured goal keeps a
    turn under the current one, and whether a thread still runs the project of an earlier
    declaration of it *)
Record ThreadFields : Type := mkThreadFields {
  tf_lookup : Z -> string;
  tf_worktree : string -> string;
  tf_model : string -> string;
  tf_thinking : string -> string;
  tf_session : string -> string;
  tf_goal_allows : string -> string -> bool;
  tf_continues : Thread -> Thread -> bool;
}.

Record RegistryOwner : Type := mkRegistryOwner {
  ro_thread : Thread;
  ro_claimed : Z;
}.

(** [RegistryOwner.check_type]: the check of a new input, and the one of a turn that started *)
Inductive RegistryCheck : Type := GoalRegistryClaimCheck | RunningTurnRegistryCheck.

(** The rules of a registry check; [leased] tells whether the captured declaration still reads
    its own turn lease *)
Definition registry_rules (fields : ThreadFields) (check : RegistryCheck) (leased : bool) (process : ProcessState)
    (expected actual : Thread) (expected_claim claim_scope : Z) : list ReservationRule :=
  let differs (get : string -> string) := negb (bool_decide (get (th_rest actual) = get (th_rest expected))) in
  [mkReservationRule (negb (th_birth actual =? th_birth expected)) "registry_incarnation"
     "The registered thread incarnation changed before native send.";
   mkReservationRule (match check with
                      | GoalRegistryClaimCheck => negb (bool_decide (th_name actual = th_name expected))
                      | RunningTurnRegistryCheck => false end)
     "registry_name" "The captured owner name changed.";
   mkReservationRule (negb (bool_decide (th_process actual = th_process expected))
                      || negb (bool_decide (th_process actual = process)))
     "registry_process" "The registered process is not the captured current owner process.";
   mkReservationRule (negb (claim_scope =? expected_claim)) "registry_claim"
     "The registry claim_scope generation changed.";
   mkReservationRule (negb (bool_decide (th_role actual = th_role expected))) "registry_role"
     "The captured owner role changed.";
   mkReservationRule (match check with
                      | GoalRegistryClaimCheck => differs (tf_worktree fields)
                      | RunningTurnRegistryCheck => negb (tf_continues fields actual expected) end)
     "registry_worktree" "The captured owner worktree changed.";
   mkReservationRule (negb leased && differs (tf_model fields)) "registry_model"
     "The captured owner's selected model changed.";
   mkReservationRule (negb leased && differs (tf_thinking fields)) "registry_thinking"
     "The captured owner's thinking level changed.";
   mkReservationRule (differs (tf_session fields)) "registry_session"
     "The captured owner's native session changed.";
   mkReservationRule (negb (bool_decide (th_turn actual = th_turn expected))
                      || negb (th_turn_generation actual =? th_turn_generation expected))
     "registry_turn" "The exact captured active turn changed.";
   mkReservationRule (match check with
                      | GoalRegistryClaimCheck =>
                          negb (tf_goal_allows fields (th_rest expected) (th_rest actual))
                      | RunningTurnRegistryCheck => false end)
     "registry_goal" "The captured goal changed."].

(** [RegistryOwner.require_snapshot] *)
Definition require_snapshot (fields : ThreadFields) (check : RegistryCheck) (leased : bool) (ob : Observation)
    (d : RegistryDocument) (owner : RegistryOwner) (reason : string) : outcome unit :=
  let name := th_name (ro_thread owner) in
  actual ← match require_active ob d name with
           | Err (RelationViolationError _) => Err (StaleFence reason)
           | other => other
           end;
  claim_scope ← claim_generation d name;
  require_valid (registry_rules fields check leased (ob_self ob) (ro_thread owner) actual (ro_claimed owner)
                   claim_scope)
    (fun error => StaleFence (reason +:+ ": " +:+ error)).

Record ParticipantOwner : Type := mkParticipantOwner {
  po_thread : Thread;
  po_generation : Z;
}.

(** [ParticipantOwner.require]; [process] is the calling process *)
Definition participant_owner_require (fields : ThreadFields) (process : ProcessState) (owner : ParticipantOwner)
    (lookup : string) : NM unit :=
  participant ← core (participant_get lookup);
  _ ← nlift (refuse (negb (ps_committed participant)
                     || negb (bool_decide (ps_owner participant = mkOwnerGenerations lookup (po_generation owner))))
               (StaleFence "cohort participant generation changed"));
  _ ← nlift (refuse (negb (bool_decide (tf_lookup fields (th_birth (po_thread owner)) = lookup)))
               (StaleFence "cohort participant incarnation changed"));
  _ ← nlift (refuse (negb (bool_decide (th_process (po_thread owner) = process)))
               (StaleFence "cohort recipient is not this live registered owner generation"));
  nlift (require_executable (th_role (po_thread owner)) (StaleFence "cohort participant is not executable")).

(** ** Inversion *)

Section native_monad_facts.
Context {A B : Type}.

Lemma bindN_ok (m : NM A) (f : A -> NM B) s b s' :
  mbind f m s = (Ok b, s') <-> exists a s1, m s = (Ok a, s1) /\ f a s1 = (Ok b, s').
Proof.
  unfold mbind, NM_bind. destruct (m s) as [[a|e] s1]; split.
  - eauto.
  - by intros (? & ? & [= <- <-] & ?).
  - done.
  - by intros (? & ? & [=] & ?).
Qed.

Lemma nlift_ok (o : outcome A) s a s' : nlift o s = (Ok a, s') <-> o = Ok a /\ s' = s.
Proof. unfold nlift. split; [by intros [= -> ->] | by intros [-> ->]]. Qed.

Lemma nread_ok (q : NativeSession -> outcome A) s a s' : nread q s = (Ok a, s') <-> q s = Ok a /\ s' = s.
Proof. unfold nread. split; [by intros [= -> ->] | by intros [-> ->]]. Qed.

Lemma nret_ok (a a' : A) s s' : (mret a : NM A) s = (Ok a', s') <-> a' = a /\ s' = s.
Proof. unfold mret, NM_ret. split; [by intros [= -> ->] | by intros [-> ->]]. Qed.

Lemma core_ok (m : M A) s a s' :
  core m s = (Ok a, s') <->
  exists c, m (ns_core s) = (Ok a, c) /\ s' = mkNativeSession c (ns_tables s) (ns_bindings s).
Proof.
  unfold core. destruct (m (ns_core s)) as [r c]. split.
  - intros [= -> <-]. eauto.
  - by intros (c' & [= -> ->] & ->).
Qed.

Lemma statement_ok (f : DB -> NativeTables -> outcome (A * NativeTables)) s a s' :
  statement f s = (Ok a, s') <->
  exists t, f (db (ns_core s)) (ns_tables s) = Ok (a, t) /\ s' = mkNativeSession (ns_core s) t (ns_bindings s).
Proof.
  unfold statement. destruct (f _ _) as [[a' t]|e]; split.
  - intros [= <- <-]. eauto.
  - by intros (? & [= <- <-] & ->).
  - done.
  - by intros (? & [=] & _).
Qed.

Lemma n_writing_ok (body : NM A) s a s' :
  n_writing body s = (Ok a, s') <-> body s = (Ok a, s') /\ foreign_keys_hold (db (ns_core s')) = true.
Proof.
  unfold n_writing. destruct (body s) as [[a'|e] s1]; split.
  - destruct (foreign_keys_hold (db (ns_core s1))) eqn:E; [|done]. by intros [= <- <-].
  - by intros [[= <- <-] ->].
  - done.
  - by intros [[=] _].
Qed.

(** A transaction that raises changes no row. *)
Lemma n_writing_err (body : NM A) s e s' :
  n_writing body s = (Err e, s') ->
  db (ns_core s') = db (ns_core s) /\ ns_tables s' = ns_tables s /\ ns_bindings s' = ns_bindings s.
Proof.
  unfold n_writing. destruct (body s) as [[a'|e'] s1].
  - destruct (foreign_keys_hold (db (ns_core s1))); [done|]. by intros [= <- <-].
  - by intros [= <- <-].
Qed.
End native_monad_facts.

Ltac n_step :=
  match goal with
  | H : mbind _ _ ?s = (Ok _, _) |- _ => apply bindN_ok in H; destruct H as (? & ? & ? & H)
  | H : nlift _ _ = (Ok _, _) |- _ => apply nlift_ok in H; destruct H as [H ?]; subst
  | H : nread _ _ = (Ok _, _) |- _ => apply nread_ok in H; destruct H as [H ?]; subst
  | H : mret _ _ = (Ok _, _) |- _ => apply nret_ok in H; destruct H as [? ?]; subst
  | H : core _ _ = (Ok _, _) |- _ => apply core_ok in H; destruct H as (? & H & ?); subst
  | H : n_writing _ _ = (Ok _, _) |- _ => apply n_writing_ok in H; destruct H as [H ?]
  end.
Ltac n_inv := repeat n_step.
