(* ===== verification/NativeStore.v ===== *)
(** * Native sends

    Models [private_send_stage.py] (a triage question or a full answer reserves one input for
    its claims, acknowledges the context the model was shown and settles the result),
    [private_send_claim.py] (the grant that permits one write of the prompt),
    [native_prompt_binding.py] (the digest of the prompt, bound before launch), the sources of
    an input ([native_input_record.py]) and the settlement of a decision
    ([selected_triage.py], [durable_turn.py]).  Evidence read from session files is an
    argument, and so is a minted input identity. *)

From stdpp Require Import base gmap strings list sorting.
From Stdlib Require Import ZArith Lia.
From S2P Require Import Prelude Contracts ThreadStatus Threads RegistryDocument Lifecycle WakePolicy AssignmentStates.
From S2P Require Import ResponseStates AttemptStates ExecutionStates Rows TableGuards CohortRows Database Session.
From S2P Require Import SchemaSteps Stepwise Replay ParticipantStore AssignmentStore Snapshot AttemptStore NativeRows NativeSession.

(** ** Stages *)

(** [DurableTurn]: the fence a running attempt holds and the pointer revision it was started
    under *)
Record DurableTurn : Type := mkDurableTurn {
  dt_fence : OwnerFence;
  dt_pointer_revision : Z;
}.

Inductive NativeSendStage : Type :=
| TriageNativeSend (assignments : list WakeAssignment)
| FullNativeSend (assignments : list WakeAssignment) (progress : DurableTurn).

Definition stage_assignments (stage : NativeSendStage) : list WakeAssignment :=
  match stage with TriageNativeSend assignments | FullNativeSend assignments _ => assignments end.

(** [NativeSendStage.execution] *)
Definition stage_execution (stage : NativeSendStage) : NativeInputExecution :=
  match stage with
  | TriageNativeSend _ => TriageNativeExecution
  | FullNativeSend _ progress => FullNativeExecution (of_execution (dt_fence progress)) (of_ordinal (dt_fence progress))
  end.

(** [NativeSendStage.recipient_lookup] *)
Definition recipient_lookup (stage : NativeSendStage) : outcome string :=
  match remove_dups (map wa_lookup (stage_assignments stage)) with
  | [lookup] => Ok lookup
  | _ => Err (IdentityConflict "Native batch requires one original participant")
  end.

Definition ids (assignments : list WakeAssignment) : list string := map wa_id assignments.

(** ** Sources *)

(** [source_membership_sql] of the two executions, at one input, in the order of the sources *)
Definition triage_sources (i : string) (s : NativeSession) : list string :=
  map tm_assignment (members_of_input i (ns_tables s)).

Definition full_sources (i : string) (s : NativeSession) : list string :=
  match inputs s !! i with
  | Some r => match ni_stage r, ni_execution_id r with
              | FullStage, Some x => map ln_assignment (link_rows (db (ns_core s)) x)
              | _, _ => []
              end
  | None => []
  end.

Definition source_ids (e : NativeInputExecution) (i : string) (s : NativeSession) : list string :=
  match e with
  | TriageNativeExecution => triage_sources i s
  | FullNativeExecution _ _ => full_sources i s
  end.

(** [NativeInputExecution.source_assignment_ids]: a member whose claim is missing does not
    decode *)
Definition source_assignment_ids (e : NativeInputExecution) (i : string) (s : NativeSession)
    : outcome (list string) :=
  claims ← mapM (fun a => row ← one (Row := WakeAssignment) a (db (ns_core s));
                          of_option row (MalformedRecord "wake_claims")) (source_ids e i s);
  Ok (ids claims).

(** [NativeSendStage.require_sources] *)
Definition stage_require_sources (stage : NativeSendStage) (i : string) : NM unit :=
  sources ← nread (source_assignment_ids (stage_execution stage) i);
  nlift (require (bool_decide (sources = ids (stage_assignments stage)))
           (IdentityConflict "Native input changed its original source membership")).

Fixpoint record_members (i : string) (attempt ordinal : Z) (assignments : list WakeAssignment) : NM unit :=
  match assignments with
  | [] => mret tt
  | row :: rest =>
      _ ← insert_member (mkTriageNativeSource i ordinal (wa_id row) attempt);
      record_members i attempt (ordinal + 1) rest
  end.

(** [NativeInputExecution.record_sources] *)
Definition record_sources (stage : NativeSendStage) (i : string) (attempt : Z) : NM unit :=
  match stage with
  | TriageNativeSend assignments =>
      _ ← nlift (refuse (match assignments with [] => true | _ => false end)
                   (IdentityConflict "Native input membership names at least one original source"));
      record_members i attempt 0 assignments
  | FullNativeSend assignments _ =>
      _ ← nlift (refuse (negb (attempt =? 0)) (IdentityConflict "Only a triage input has a replacement attempt"));
      sources ← nread (source_assignment_ids (stage_execution stage) i);
      nlift (require (bool_decide (sources = ids assignments))
               (IdentityConflict "Full native input differs from its original execution membership"))
  end.

(** ** Claims *)

(** The unbound deferred state of a claim *)
Definition deferred_state (c : WakeAssignment) : outcome AssignmentState :=
  assignment_build DeferredKind (assignment_mode (wa_lifecycle c)) None None.

(** [NativeSendStage.require_phase] *)
Definition require_phase (stage : NativeSendStage) (current : WakeAssignment) : NM unit :=
  match stage with
  | TriageNativeSend assignments =>
      state ← nlift (deferred_state current);
      captured ← nlift (of_option (List.find (fun row => bool_decide (wa_id row = wa_id current)) assignments)
                          TypeError);
      nlift (refuse (negb (bool_decide (wa_lifecycle current = state))
                     || negb (wa_revision current =? wa_revision captured + 1))
               (StaleFence "triage claim changed before native send"))
  | FullNativeSend _ progress =>
      held ← core (require_fence (dt_fence progress));
      _ ← nlift (require_engagement (wa_lifecycle current));
      nlift (refuse (negb (has_capability (ex_status (sn_execution held.1)) Active)
                     || negb (bool_decide (at_phase held.2 = LiveKind PromptStarting))
                     || attempt_backend_done (at_lifecycle held.2)
                     || attempt_process_dead (at_lifecycle held.2))
               (StaleFence "full execution is not running before native send"))
  end.

(** [NativeSendStage.require_claim] *)
Definition require_claim (stage : NativeSendStage) : NM unit :=
  n_each (fun captured =>
    current ← core (assignment_get (wa_id captured));
    _ ← nlift (require_valid (claim_rules captured current)
                 (fun error => StaleFence ("selected claim identity changed before native send: " +:+ error)));
    require_phase stage current) (stage_assignments stage).

(** [TriageNativeSend.reserve_claim], for one claim *)
Definition reserve_triage_claim (attempt : Z) (captured : WakeAssignment) : NM unit :=
  current ← core (assignment_get (wa_id captured));
  selectable ← (if bool_decide (current = captured)
                then nlift (requires_selected_triage (wa_lifecycle current)) else mret false);
  _ ← nlift (require selectable (IdentityConflict "triage claim changed before native batch reservation"));
  reserved ← nread (fun s => Ok (map_exists (fun m =>
                 bool_decide (tm_assignment m = wa_id captured) && (attempt <=? tm_attempt m)) (members s)));
  _ ← nlift (refuse reserved (IdentityConflict "triage source was previously reserved; no second replacement"));
  state ← nlift (deferred_state current);
  t ← core (now (wa_updated current));
  changed ← core (update (Row := WakeAssignment) (wa_id current)
      (fun r => (wa_revision r =? wa_revision current) && bool_decide (wa_disposition r = TriagePendingKind))
      (claim_set state (wa_revision current + 1) t));
  nlift (require (changed =? 1) (IdentityConflict "triage batch reservation lost an original claim CAS")).

(** [NativeSendStage.reserve_claim] *)
Definition reserve_claim (stage : NativeSendStage) (attempt : Z) : NM unit :=
  match stage with
  | TriageNativeSend assignments =>
      _ ← nlift (require ((attempt =? 0) || (attempt =? 1))
                   (IdentityConflict "A triage claim has one original ask and one replacement"));
      n_each (reserve_triage_claim attempt) assignments
  | FullNativeSend assignments progress =>
      _ ← nlift (refuse (negb (attempt =? 0)) (IdentityConflict "Only a triage input has a replacement attempt"));
      held ← core (require_fence (dt_fence progress));
      _ ← require_claim stage;
      _ ← nlift (refuse ((sn_pointer_revision held.1 <? 1) || negb (bool_decide (assignments = sn_assignments held.1)))
                   (StaleFence "full input cannot bind to the current attempt"));
      existing ← nread (fun s =>
        let rows := List.filter (fun r =>
            bool_decide (ni_execution_id r = Some (of_execution (dt_fence progress)))
            && bool_decide (ni_attempt_ordinal r = Some (of_ordinal (dt_fence progress))))
          (map snd (map_to_list (inputs s))) in
        _ ← each input_post_init rows; Ok rows);
      nlift (refuse (match existing with [] => false | _ => true end)
               (IdentityConflict "this execution attempt already has a native input"))
  end.

(** The row a reservation inserts *)
Definition reserved_row (stage : NativeSendStage) (owner : ParticipantOwner) (lookup digest i : string)
    : NativeRuntimeInput :=
  let e := stage_execution stage in
  mkNativeRuntimeInput i (execution_stage e) (binding_fields e).1 (binding_fields e).2 lookup
    (po_generation owner) digest None None None None None None None None None.

Section operations.
Context (fields : ThreadFields) (process : ProcessState).

(** [NativeSendStage.reserve] *)
Definition native_reserve (stage : NativeSendStage) (owner : ParticipantOwner) (digest : string) (attempt : Z)
    (i : string) : NM string :=
  n_writing (
    lookup ← nlift (recipient_lookup stage);
    _ ← participant_owner_require fields process owner lookup;
    _ ← reserve_claim stage attempt;
    _ ← insert_input (reserved_row stage owner lookup digest i);
    _ ← record_sources stage i attempt;
    mret i).

(** [NativeRuntimeInput.identity] *)
Definition ni_ownership (r : NativeRuntimeInput) : outcome NativeOwnership :=
  e ← ni_execution r; Ok (e, (ni_owner r, ni_generation r)).

(** [NativeSendStage.identity], for the owner of one lookup *)
Definition expected_ownership (stage : NativeSendStage) (owner : ParticipantOwner) (lookup : string) : NativeOwnership :=
  (stage_execution stage, (lookup, po_generation owner)).

(** [NativeSendStage.pending_input] *)
Definition pending_input (stage : NativeSendStage) (owner : ParticipantOwner) (i digest : string)
    : NM NativeRuntimeInput :=
  lookup ← nlift (recipient_lookup stage);
  _ ← participant_owner_require fields process owner lookup;
  found ← nread (input_read i);
  row ← nlift (of_option found (StaleFence "native input reservation is missing"));
  _ ← stage_require_sources stage i;
  actual ← nlift (ni_ownership row);
  _ ← nlift (require_valid [identity_rule actual (expected_ownership stage owner lookup)]
               (fun error => StaleFence ("native dispatch identity changed: " +:+ error)));
  _ ← nlift (require (bool_decide (ni_token row = digest))
               (StaleFence "native proof belongs to a different dispatch"));
  mret row.

(** [NativeSendStage.require_reservation] *)
Definition require_reservation (stage : NativeSendStage) (owner : ParticipantOwner) (i digest : string)
    : NM NativeRuntimeInput :=
  found ← nread (input_read i);
  row ← nlift (of_option found (StaleFence "native reservation missing before send"));
  _ ← stage_require_sources stage i;
  lookup ← nlift (recipient_lookup stage);
  actual ← nlift (ni_ownership row);
  reference ← nlift (ni_reference row);
  _ ← nlift (require_valid (reservation_rules row actual (expected_ownership stage owner lookup)
                              (present reference) digest)
               (fun error => StaleFence ("native reservation changed before send: " +:+ error)));
  mret row.

(** ** Prompt bindings *)

(** [_binding_wire_root] *)
Definition binding_wire_root (c : WakeAssignment) (d : DB) : outcome string :=
  let sealed m := match claim_batch_receipts d !! (bm_root m, bm_seq m) with
                  | Some r => bool_decide (cb_message_id r = wa_message_id c) && cb_sealed r
                  | None => false end in
  match List.filter (fun m => bool_decide (bm_claim m = wa_id c) && bool_decide (bm_lookup m = wa_lookup c)
                              && sealed m) (map snd (map_to_list (claim_batch_members d))) with
  | [m] => Ok (bm_root m)
  | _ => Err (IdentityConflict "prompt binding requires a sealed claim acknowledgement")
  end.

(** The insertion into the sidecar, as its published file has it *)
Definition publish_binding (b : PromptBinding) : NM unit := fun s =>
  (Ok tt, mkNativeSession (ns_core s) (ns_tables s) (<[pb_input b := b]> (ns_bindings s))).

(** [bind_expected_prompt]: the sidecar file is published when the transaction has returned *)
Definition bind_expected_prompt (stage : NativeSendStage) (owner : ParticipantOwner) (i prompt : string) : NM string :=
  _ ← nlift (refuse (bool_decide (prompt = "")) (ValueError "prompt binding requires nonempty original text"));
  expected ← n_writing (
    lookup ← nlift (recipient_lookup stage);
    _ ← participant_owner_require fields process owner lookup;
    found ← nread (input_read i);
    row ← nlift (of_option found (IdentityConflict "prompt binding requires an already reserved input"));
    actual ← nlift (ni_ownership row);
    _ ← nlift (require_valid [identity_rule actual (expected_ownership stage owner lookup)]
                 (fun error => IdentityConflict ("prompt binding identity differs from its reservation: " +:+ error)));
    _ ← stage_require_sources stage i;
    roots ← nread (fun s => mapM (fun c => binding_wire_root c (db (ns_core s))) (stage_assignments stage));
    root ← nlift (match remove_dups roots with
                  | [root] => Ok root
                  | _ => Err (IdentityConflict "Native sources belong to different canonical wire roots") end);
    bound_before ← nread (fun s => Ok (present (ns_bindings s !! i)));
    _ ← nlift (refuse bound_before (IdentityConflict "this input already has a prelaunch prompt binding"));
    t ← core (now 0);
    let e := stage_execution stage in
    let expected := mkPromptBinding i (execution_stage e) (binding_fields e).1 (binding_fields e).2 lookup
                      (po_generation owner) root (native_request_digest prompt) t in
    _ ← nlift (pb_execution expected);
    _ ← nlift (require (binding_checks expected) (SqlConstraint "prompt_binding"));
    mret expected);
  _ ← publish_binding expected;
  mret (native_request_digest prompt).

(** [NativeSendStage.require_bound_prompt], on the binding the sidecar has *)
Definition require_bound_prompt (stage : NativeSendStage) (owner : ParticipantOwner) (i root prompt : string) : NM unit :=
  found ← nread (fun s => Ok (ns_bindings s !! i));
  binding ← nlift (of_option found (IdentityConflict "native send has no durable prompt binding"));
  e ← nlift (pb_execution binding);
  lookup ← nlift (recipient_lookup stage);
  nlift (require_valid (binding_rules binding (e, (pb_owner binding, pb_generation binding))
                          (expected_ownership stage owner lookup) root (native_request_digest prompt))
           (fun error => IdentityConflict ("native send differs from its durable prompt binding: " +:+ error))).

(** ** The grant *)

(** What a grant finds around it: the registry under its lock, what the maintenance barrier and
    the selected session answer, and whether its single-use token was free *)
Record SendBoundary : Type := mkSendBoundary {
  sb_registry : RegistryDocument;
  sb_observation : Observation;
  sb_leased : bool;
  sb_maintenance : outcome unit;
  sb_verify_start : NativeSessionIdentity -> outcome unit;
  sb_once : bool;
}.

(** [UnrecordedNativeClaim.record]; a recorded claim always refuses *)
Definition record_claim (row : NativeRuntimeInput) (claimed : Z) (identity : NativeSessionIdentity) : NM unit :=
  let bound := StaleFence "native input claim_scope was already bound" in
  _ ← nlift (refuse (present (ni_sent row)) bound);
  _ ← nlift (require (0 <? claimed) (ValueError "live owner requires a positive generation"));
  changed ← update_input (ni_id row) (fun r => negb (present (ni_sent r)))
    (fun r => mkNativeRuntimeInput (ni_id r) (ni_stage r) (ni_execution_id r) (ni_attempt_ordinal r) (ni_owner r)
                (ni_generation r) (ni_token r) (Some claimed) (Some (si_session identity)) (Some (si_file identity))
                (ni_entry r) (ni_start r) (ni_request r) (ni_digest r) (ni_committed r) (ni_verdict r));
  nlift (require (changed =? 1) bound).

(** [PrivateSendClaim._start_once] *)
Definition start_once (boundary : SendBoundary) (stage : NativeSendStage) (registered : RegistryOwner)
    (owner : ParticipantOwner) (i digest root prompt : string) (identity : NativeSessionIdentity) : NM unit :=
  _ ← nlift (sb_maintenance boundary);
  _ ← require_bound_prompt stage owner i root prompt;
  n_writing (
    _ ← nlift (sb_verify_start boundary identity);
    _ ← nlift (require (sb_once boundary) (IdentityConflict "native send claim_scope cannot be reused"));
    _ ← nlift (require_snapshot fields GoalRegistryClaimCheck (sb_leased boundary) (sb_observation boundary)
                 (sb_registry boundary) registered "recipient registry owner changed before native send");
    lookup ← nlift (recipient_lookup stage);
    _ ← participant_owner_require fields process owner lookup;
    row ← require_reservation stage owner i digest;
    _ ← require_claim stage;
    record_claim row (ro_claimed registered) identity).

(** ** Contexts *)

(** [NativeRuntimeInput.write_context] *)
Definition write_context (row : NativeRuntimeInput) (c : NativeContextProof) : NM unit :=
  changed ← update_input (ni_id row) (fun r => negb (present (ni_entry r)))
    (fun r => mkNativeRuntimeInput (ni_id r) (ni_stage r) (ni_execution_id r) (ni_attempt_ordinal r) (ni_owner r)
                (ni_generation r) (ni_token r) (ni_sent r) (ni_session r) (ni_file r) (Some (cx_entry c))
                (Some (cx_start c)) (Some (cx_request c)) (Some (cx_digest c)) (Some (cx_committed c)) (ni_verdict r));
  nlift (require (changed =? 1) (StaleFence "native proof was previously committed")).

(** [NativeRuntimeInput.commit_context] *)
Definition commit_context (row : NativeRuntimeInput) (c : NativeContextProof) : NM unit :=
  _ ← nlift (refuse (negb (bool_decide (cx_input c = ni_id row)))
               (StaleFence "native context belongs to another reserved input"));
  identity ← nlift (require_session_identity row);
  _ ← nlift (require_context identity c);
  reference ← nlift (ni_reference row);
  match reference with
  | None => write_context row c
  | Some _ => proof ← nlift (require_context_proof row); nlift (require_continuation proof c)
  end.

(** [NativeRuntimeInput.settle_verdict] *)
Definition settle_verdict (row : NativeRuntimeInput) (decision : SelectedTriage) : NM unit :=
  found ← nread (input_read (ni_id row));
  current ← nlift (of_option found (RowNotFoundError input_table));
  reference ← nlift (ni_reference current);
  _ ← nlift (of_option reference (UnrecordedNativeContext "Native input has no recorded context"));
  _ ← nlift (refuse (present (ni_verdict current)) (MalformedRecord "A full native input records no triage verdict"));
  changed ← update_input (ni_id row) (fun r => negb (present (ni_verdict r)))
    (fun r => mkNativeRuntimeInput (ni_id r) (ni_stage r) (ni_execution_id r) (ni_attempt_ordinal r) (ni_owner r)
                (ni_generation r) (ni_token r) (ni_sent r) (ni_session r) (ni_file r) (ni_entry r) (ni_start r)
                (ni_request r) (ni_digest r) (ni_committed r) (Some decision));
  nlift (require (changed =? 1) (StaleFence "native triage verdict was previously settled")).

(** [NativeSendStage.require_acknowledgement] *)
Definition require_acknowledgement (stage : NativeSendStage) : NM unit :=
  match stage with
  | TriageNativeSend _ => require_claim stage
  | FullNativeSend assignments progress =>
      held ← core (require_fence (dt_fence progress));
      n_each (fun c =>
        engagement ← nlift (require_engagement (wa_lifecycle c));
        _ ← nlift (require_wire_response held.1 (engagement_target engagement));
        mret tt) assignments
  end.

(** [NativeSendStage.acknowledge_context] *)
Definition acknowledge_context (stage : NativeSendStage) (owner : ParticipantOwner) (i digest : string)
    (c : NativeContextProof) : NM unit :=
  n_writing (
    row ← pending_input stage owner i digest;
    _ ← require_acknowledgement stage;
    commit_context row c).

(** [NativeSendStage.verify]; whether the session file corroborates the context and its journal
    holds the bound prompt are what the evidence reader answered *)
Definition native_verify (stage : NativeSendStage) (owner : ParticipantOwner) (i digest : string)
    (c : NativeContextProof) (root prompt : string) (corroborated matches : bool) : NM unit :=
  _ ← nlift (require corroborated
               (IdentityConflict "Pi live assembled context differs from its reserved input proof"));
  _ ← require_bound_prompt stage owner i root prompt;
  _ ← nlift (require matches (IdentityConflict "live native input lacks exact bound source prompt equality"));
  row ← pending_input stage owner i digest;
  identity ← nlift (require_session_identity row);
  nlift (require_context identity c).

(** ** Settlement of a triage *)

(** One claim of [TriageNativeSend.fail_claims] *)
Definition fail_claim (captured : WakeAssignment) : NM unit :=
  current ← core (assignment_get (wa_id captured));
  state ← nlift (deferred_state current);
  _ ← nlift (refuse (negb (bool_decide (wa_lifecycle current = state)))
               (StaleFence "failed triage claim is no longer deferred"));
  failed ← nlift (preengagement (wa_lifecycle current) FailedKind);
  t ← core (now (wa_updated current));
  changed ← core (update (Row := WakeAssignment) (wa_id current)
      (fun r => wa_revision r =? wa_revision current) (claim_set failed (wa_revision current + 1) t));
  nlift (require (changed =? 1) (StaleFence "failed triage lost an original batch claim")).

(** The claims as a settlement returns them *)
Fixpoint current_rows (assignments : list WakeAssignment) : NM (list WakeAssignment) :=
  match assignments with
  | [] => mret []
  | c :: rest =>
      row ← core (assignment_get (wa_id c));
      rows ← current_rows rest;
      mret (row :: rows)
  end.

(** [TriageNativeSend.fail_decision] *)
Definition fail_decision (assignments : list WakeAssignment) (owner : ParticipantOwner) (i digest : string)
    (c : NativeContextProof) : NM (list WakeAssignment) :=
  let stage := TriageNativeSend assignments in
  n_writing (
    row ← pending_input stage owner i digest;
    _ ← require_claim stage;
    _ ← commit_context row c;
    _ ← n_each fail_claim assignments;
    current_rows assignments).

(** One claim of [TriageNativeSend.burn_turn], whose row count is not looked at *)
Definition burn_claim (captured : WakeAssignment) : NM unit :=
  current ← core (assignment_get (wa_id captured));
  state ← nlift (assignment_build TriagePendingKind (assignment_mode (wa_lifecycle current)) None None);
  t ← core (now (wa_updated current));
  _ ← core (update (Row := WakeAssignment) (wa_id current)
      (fun r => wa_revision r =? wa_revision current) (claim_set state (wa_revision current + 1) t));
  mret tt.

(** [TriageNativeSend.burn_turn] *)
Definition burn_turn (assignments : list WakeAssignment) (owner : ParticipantOwner) (i digest : string)
    (c : NativeContextProof) : NM unit :=
  let stage := TriageNativeSend assignments in
  n_writing (
    row ← pending_input stage owner i digest;
    _ ← require_claim stage;
    _ ← commit_context row c;
    n_each burn_claim assignments).

(** [TriageNativeSend.refreshed] *)
Definition refreshed (assignments : list WakeAssignment) : NM NativeSendStage :=
  rows ← current_rows assignments;
  mret (TriageNativeSend rows).

(** [SelectedTriage.settle]: an ignored claim takes both declared edges in one transaction *)
Definition triage_settle (decision : SelectedTriage) (current : WakeAssignment) : NM unit :=
  match decision with
  | FullSelectedTriage => mret tt
  | IgnoreSelectedTriage =>
      t ← core (now (wa_updated current));
      _ ← core (update (Row := WakeAssignment) (wa_id current) always
                  (claim_set TriagePendingAssignment (wa_revision current + 1) t));
      t' ← core (now t);
      _ ← core (update (Row := WakeAssignment) (wa_id current) always
                  (claim_set IgnoredAssignment (wa_revision current + 2) t'));
      mret tt
  end.

(** [TriageNativeSend.commit] *)
Definition triage_commit (assignments : list WakeAssignment) (owner : ParticipantOwner) (i digest : string)
    (c : NativeContextProof) (decision : SelectedTriage) : NM (list WakeAssignment) :=
  let stage := TriageNativeSend assignments in
  n_writing (
    row ← pending_input stage owner i digest;
    _ ← require_claim stage;
    _ ← commit_context row c;
    _ ← settle_verdict row decision;
    _ ← n_each (fun captured => current ← core (assignment_get (wa_id captured)); triage_settle decision current)
          assignments;
    current_rows assignments).

(** ** Failure of a full answer *)

Definition native_terminal_failure : ReasonCode := GivenReasonCode "native_terminal_failure".

(** [DurableTurn.fail_terminal] *)
Definition durable_fail_terminal (progress : DurableTurn) (failure : TurnFailure) : NM RecoverySnapshot :=
  held ← core (require_fence (dt_fence progress));
  final ← core (advance (dt_fence progress) (at_phase held.2) (dt_pointer_revision progress) true true false
                  native_terminal_failure);
  settled ← core (settle_nonpublication (sr_fence (applied_value final))
                    (sn_pointer_revision (sr_snapshot (applied_value final))) AttemptFailed
                    native_terminal_failure (Some failure) no_native_resources);
  mret (applied_value settled).

(** The first transaction of [FullNativeSend.fail_terminal]: the context is recorded under the
    live attempt *)
Definition record_failed_context (assignments : list WakeAssignment) (progress : DurableTurn)
    (owner : ParticipantOwner) (i digest : string) (c : NativeContextProof) : NM unit :=
  n_writing (
    row ← pending_input (FullNativeSend assignments progress) owner i digest;
    _ ← core (require_fence (dt_fence progress));
    commit_context row c).

(** [FullNativeSend.fail_terminal]: then the attempt is settled *)
Definition full_fail_terminal (assignments : list WakeAssignment) (progress : DurableTurn) (owner : ParticipantOwner)
    (i digest : string) (c : NativeContextProof) (failure : TurnFailure) : NM RecoverySnapshot :=
  _ ← record_failed_context assignments progress owner i digest c;
  durable_fail_terminal progress failure.
End operations.
