(* ===== verification/NativeCursor.v ===== *)
(** * Native cursors

    Models [cursor_owner.py] and the result of a coverage read ([proven_source_coverage.py],
    [historical_native_inputs.py]): how far the sources of a recipient are proven to have
    reached a native model, with a reference to the last input that carried one.  The read of
    coverage is in [SourceCoverage.v]; a refresh reads the cursor, reads coverage with no
    lock, and publishes in a second transaction that requires the cursor it read. *)

From stdpp Require Import base gmap strings list sorting.
From Stdlib Require Import ZArith Lia.
From S2P Require Import Prelude Contracts ThreadStatus Threads RegistryDocument Lifecycle WakePolicy.
From S2P Require Import AssignmentStates ResponseStates AttemptStates ExecutionStates Rows TableGuards.
From S2P Require Import Database Session SchemaSteps Stepwise ParticipantStore AssignmentStore.
From S2P Require Import NativeRows NativeSession.

(** ** Rows *)

(** [CurrentNativeCursor.reference]: the session column decides *)
Definition cu_reference (c : CurrentNativeCursor) : outcome (option NativeInputReference) :=
  match cu_session c with
  | None =>
      _ ← refuse (present (cu_input c) || present (cu_stage c) || present (cu_request c))
          (IdentityConflict "Native unrecorded context group is partial");
      Ok None
  | Some session =>
      reference ← acquire_reference (cu_input c) (cu_stage c) (Some session) (cu_request c);
      Ok (Some reference)
  end.

Definition cursor_checks (c : CurrentNativeCursor) : bool :=
  (0 <? cu_generation c) && (0 <? cu_claimed c) && (0 <=? cu_covered c) && (0 <=? cu_injected c)
  && (cu_injected c <=? cu_covered c)
  && (((cu_injected c =? 0) && negb (present (cu_input c)) && negb (present (cu_stage c))
       && negb (present (cu_session c)) && negb (present (cu_request c)))
      || ((0 <? cu_injected c) && present (cu_input c) && present (cu_stage c) && present (cu_session c)
          && unless_null (cu_request c) (Z.ltb 0))).

(** The frozen key, [column_orders] and [stable_reference_columns] *)
Definition cursor_update_guard (old new : CurrentNativeCursor) : bool :=
  frozen_violation [is_not (cu_root new) (cu_root old); is_not (cu_recipient new) (cu_recipient old)]
  || (non_decreasing (Some (cu_covered old)) (Some (cu_covered new))
      || non_decreasing (Some (cu_injected old)) (Some (cu_injected new))
      || non_decreasing (Some (cu_generation old)) (Some (cu_generation new))
      || non_decreasing (Some (cu_claimed old)) (Some (cu_claimed new)))
  || ((cu_injected new =? cu_injected old) && is_not (cu_input new) (cu_input old)).

Definition cursor_keys (d : DB) (t : NativeTables) (c : CurrentNativeCursor) : bool :=
  present (participants d !! cu_recipient c) && references (cu_input c) (fun i => present (native_inputs t !! i)).

Definition cursor_table : string := "current_native_cursor".

(** [CurrentNativeCursor(...).insert(db)] *)
Definition insert_cursor (c : CurrentNativeCursor) : NM unit :=
  statement (fun d t =>
    _ ← refuse (present (native_cursors t !! (cu_root c, cu_recipient c))) (SqlConstraint cursor_table);
    _ ← require (cursor_checks c) (SqlConstraint cursor_table);
    _ ← require (cursor_keys d t c) SqlForeignKey;
    Ok (tt, with_cursors (<[(cu_root c, cu_recipient c) := c]> (native_cursors t)) t)).

(** [CurrentNativeCursor.update(db, where=<the row that was read>, ...)] *)
Definition update_cursor (root recipient : string) (condition : CurrentNativeCursor -> bool)
    (change : CurrentNativeCursor -> CurrentNativeCursor) : NM Z :=
  statement (fun d t =>
    match native_cursors t !! (root, recipient) with
    | None => Ok (0, t)
    | Some old =>
        if condition old then
          let new := change old in
          _ ← refuse (cursor_update_guard old new) (SqlAbort cursor_table);
          _ ← require (cursor_checks new) (SqlConstraint cursor_table);
          _ ← require (cursor_keys d t new) SqlForeignKey;
          Ok (1, with_cursors (<[(root, recipient) := new]> (native_cursors t)) t)
        else Ok (0, t)
    end).

(** ** Coverage *)

(** The member of the [HistoricalNativeInput] family *)
Inductive HistoricalProof : Type :=
| TriageHistorical (decision : SelectedTriage)
| FailedTriageHistorical
| FullHistorical.

Record HistoricalNativeInput : Type := mkHistoricalNativeInput {
  hn_root : string;
  hn_source_seq : Z;
  hn_message : string;
  hn_assignment : string;
  hn_execution : NativeInputExecution;
  hn_input : string;
  hn_owner : string;
  hn_generation : Z;
  hn_context : NativeContextProof;
  hn_reference : NativeInputReference;
  hn_digest : option string;   (* expected_prompt_digest *)
  hn_equality : bool;          (* expected_prompt_equality_established *)
  hn_proof : HistoricalProof;
}.

(** What a check finds of the bus file: whether it is the file that was captured, and its last
    sequence *)
Record BusSeen : Type := mkBusSeen {
  bs_same_file : bool;
  bs_revision : Z;
}.

(** [SourcePrefix], by its last sequence; the identity of its file is what [bs_same_file]
    compares with *)
Record SourcePrefix : Type := mkSourcePrefix { sp_through : Z }.

(** [SourcePrefix.require_start] *)
Definition require_start (prefix : SourcePrefix) (covered_seq : Z) : outcome unit :=
  refuse (sp_through prefix <? covered_seq) (IdentityConflict "current source coverage exceeds the bus").

(** [SourcePrefix.require_current] *)
Definition require_current_prefix (prefix : SourcePrefix) (seen : BusSeen) : outcome unit :=
  _ ← require (bs_same_file seen) (IdentityConflict "native source database changed");
  refuse (bs_revision seen <? sp_through prefix) (IdentityConflict "native source prefix regressed").

Record ProvenSourceCoverage : Type := mkProvenSourceCoverage {
  pc_root : string;
  pc_lookup : string;
  pc_covered : Z;
  pc_inputs : list HistoricalNativeInput;
  pc_no_wake : list Z;
  pc_blocked : option Z;
  pc_more : bool;
  pc_prefix : SourcePrefix;
}.

(** [ProvenSourceCoverage.evidence] *)
Definition evidence (coverage : ProvenSourceCoverage) (through_seq : option Z) : list HistoricalNativeInput :=
  match through_seq with
  | None => pc_inputs coverage
  | Some through => List.filter (fun item => hn_source_seq item <=? through) (pc_inputs coverage)
  end.

(** [CoverageInput]: the input whose reference the suffix injects, if any *)
Inductive CoverageInput : Type :=
| NoInjectedInput
| InjectedInput (original : HistoricalNativeInput).

(** The last of the sequences in the order they first appear ([dict.fromkeys]) *)
Fixpoint last_new (seen : list Z) (found : option Z) (seqs : list Z) : option Z :=
  match seqs with
  | [] => found
  | q :: rest => if bool_decide (q ∈ seen) then last_new seen found rest else last_new (q :: seen) (Some q) rest
  end.

(** [ProvenSourceCoverage.proof] *)
Definition coverage_proof (coverage : ProvenSourceCoverage) : outcome CoverageInput :=
  match last_new [] None (map hn_source_seq (pc_inputs coverage)) with
  | None => Ok NoInjectedInput
  | Some source_seq =>
      match last (List.filter (fun item => (hn_source_seq item =? source_seq) && hn_equality item)
                    (pc_inputs coverage)) with
      | Some original => Ok (InjectedInput original)
      | None => Err (IdentityConflict "current cursor source lacks live-bound native proof")
      end
  end.

(** ** Owners and states *)

(** [CursorOwner]; a [CommittedCursorOwner] permits one input *)
Record CursorOwner : Type := mkCursorOwner {
  co_registered : RegistryOwner;
  co_root : string;
  co_generation : Z;
  co_permitted : option string;
}.

Definition permits_input (owner : CursorOwner) (i : string) : bool :=
  match co_permitted owner with None => true | Some permitted => bool_decide (permitted = i) end.

Definition co_claimed (owner : CursorOwner) : Z := ro_claimed (co_registered owner).

Inductive CursorState : Type :=
| UnstartedCursor
| RecordedCursor (row : CurrentNativeCursor)
| InheritedCursor (row : CurrentNativeCursor).

#[export] Instance CursorState_eq_dec : EqDecision CursorState.
Proof. solve_decision. Defined.

Definition state_row (state : CursorState) : option CurrentNativeCursor :=
  match state with UnstartedCursor => None | RecordedCursor row | InheritedCursor row => Some row end.

Definition state_covered (state : CursorState) : Z :=
  match state_row state with Some row => cu_covered row | None => 0 end.
Definition state_injected (state : CursorState) : Z :=
  match state_row state with Some row => cu_injected row | None => 0 end.

(** [NativeClaimEpoch.sent_by_lineage] *)
Definition sent_by_lineage (sent : option Z) (claimed : Z) : bool :=
  match sent with None => false | Some value => value <=? claimed end.

Section owned.
Context (fields : ThreadFields) (owner : CursorOwner).

(** [CursorOwner.lookup] and [participant_identity] *)
Definition co_lookup : string := tf_lookup fields (th_birth (ro_thread (co_registered owner))).
Definition co_identity : OwnerGenerations := mkOwnerGenerations co_lookup (co_generation owner).

(** [owner_identity] of a reserved input and of a cursor *)
Definition input_owner (r : NativeRuntimeInput) : OwnerGenerations := mkOwnerGenerations (ni_owner r) (ni_generation r).
Definition cursor_owner (c : CurrentNativeCursor) : OwnerGenerations := mkOwnerGenerations (cu_recipient c) (cu_generation c).

(** [CursorOwner._matches_input] *)
Definition matches_input (found : option NativeRuntimeInput) (reference : NativeInputReference) : outcome bool :=
  match found with
  | None => Ok false
  | Some row =>
      if og_within (input_owner row) co_identity && sent_by_lineage (ni_sent row) (co_claimed owner)
      then actual ← ni_reference row; Ok (bool_decide (actual = Some reference))
      else Ok false
  end.

(** [CursorOwner.matches_prefix] *)
Fixpoint matches_prefix (items : list HistoricalNativeInput) (s : NativeSession) : outcome bool :=
  match items with
  | [] => Ok true
  | item :: rest =>
      found ← input_read (hn_input item) s;
      matches ← matches_input found (hn_reference item);
      if matches : bool then matches_prefix rest s else Ok false
  end.

(** [CursorOwner.require_recorded_reference] *)
Definition require_recorded_reference (reference : NativeInputReference) (s : NativeSession) : outcome unit :=
  found ← input_read (nr_input reference) s;
  _ ← refuse (negb (match found with
                    | Some row => sent_by_lineage (ni_sent row) (co_claimed owner)
                    | None => false end))
      (IdentityConflict "current cursor input claim_scope differs");
  matches ← matches_input found reference;
  require matches (IdentityConflict "current cursor proof differs from journal").

(** [CursorOwner.require_recorded_input] *)
Definition require_recorded_input (c : CurrentNativeCursor) (s : NativeSession) : outcome unit :=
  reference ← cu_reference c;
  match reference with
  | None => Ok tt
  | Some r => require_recorded_reference r s
  end.

(** [CursorOwner.state] *)
Definition cursor_state (s : NativeSession) : outcome CursorState :=
  match cursors s !! (co_root owner, co_lookup) with
  | None => Ok UnstartedCursor
  | Some row =>
      _ ← refuse (negb (og_within (cursor_owner row) co_identity) || (co_claimed owner <? cu_claimed row))
          (StaleFence "current cursor was written by a newer owner");
      _ ← require_recorded_input row s;
      if bool_decide ((cu_generation row, cu_claimed row) = (co_generation owner, co_claimed owner))
      then Ok (RecordedCursor row) else Ok (InheritedCursor row)
  end.

(** [CursorOwner.require_participant] *)
Definition require_participant (reason : string) : NM unit :=
  person ← core (participant_get co_lookup);
  nlift (refuse (negb (ps_committed person) || negb (bool_decide (ps_owner person = co_identity))) (StaleFence reason)).

(** [CoverageInput.injected_for] *)
Definition injected_for (proof : CoverageInput) (state : CursorState) : Z :=
  match proof with NoInjectedInput => state_injected state | InjectedInput original => hn_source_seq original end.

(** [CursorState.require_progress] *)
Definition require_progress (state : CursorState) (coverage : ProvenSourceCoverage) (injected : Z) : outcome unit :=
  _ ← refuse (pc_covered coverage <? state_covered state) (IdentityConflict "current cursor would regress");
  match state_row state with
  | None => Ok tt
  | Some row => refuse (negb (og_within (cursor_owner row) co_identity) || (injected <? cu_injected row))
                  (IdentityConflict "current cursor would change owner or regress")
  end.

(** [CoverageInput.allows] *)
Definition proof_allows (proof : CoverageInput) (state : CursorState) (s : NativeSession) : outcome bool :=
  match proof with
  | NoInjectedInput => Ok true
  | InjectedInput original =>
      _ ← refuse (negb (og_within (mkOwnerGenerations (hn_owner original) (hn_generation original)) co_identity))
          (IdentityConflict "current cursor native proof belongs to another owner");
      _ ← match state_row state with
          | None => Ok tt
          | Some row => refuse ((hn_source_seq original <=? cu_injected row)
                                && negb (bool_decide (cu_input row = Some (hn_input original))))
                          (IdentityConflict "current cursor native input changed")
          end;
      if negb (permits_input owner (hn_input original)) then Ok false else
      found ← input_read (hn_input original) s;
      match found with
      | Some row =>
          if sent_by_lineage (ni_sent row) (co_claimed owner)
          then _ ← require_recorded_reference (hn_reference original) s; Ok true
          else match state_row state with
               | None => Ok false
               | Some c => _ ← require (cu_injected c <? hn_source_seq original)
                               (IdentityConflict "current cursor input claim_scope differs");
                           Ok false
               end
      | None => _ ← require_recorded_reference (hn_reference original) s; Ok true
      end
  end.

(** [CoverageInput.build] *)
Definition build_cursor (proof : CoverageInput) (covered : Z) : CurrentNativeCursor :=
  match proof with
  | NoInjectedInput =>
      mkCurrentNativeCursor (co_root owner) co_lookup (co_generation owner) (co_claimed owner) covered 0 None None None None
  | InjectedInput original =>
      mkCurrentNativeCursor (co_root owner) co_lookup (co_generation owner) (co_claimed owner) covered
        (hn_source_seq original) (Some (hn_input original)) (Some (execution_stage (hn_execution original)))
        (Some (cx_session (hn_context original))) (Some (cx_request (hn_context original)))
  end.

(** [CoverageInput.candidate] *)
Definition cursor_candidate (proof : CoverageInput) (state : CursorState) (covered : Z) : CurrentNativeCursor :=
  match proof, state_row state with
  | NoInjectedInput, Some row =>
      mkCurrentNativeCursor (cu_root row) (cu_recipient row) (co_generation owner) (co_claimed owner) covered
        (cu_injected row) (cu_input row) (cu_stage row) (cu_session row) (cu_request row)
  | _, _ => build_cursor proof covered
  end.

(** [CursorState.publish] *)
Definition cursor_publish (state : CursorState) (coverage : ProvenSourceCoverage) (proof : CoverageInput) : NM CursorState :=
  let candidate := cursor_candidate proof state (pc_covered coverage) in
  match state_row state with
  | None =>
      if pc_covered coverage <=? 0 then mret state
      else _ ← insert_cursor candidate; mret (RecordedCursor candidate)
  | Some row =>
      if bool_decide (candidate = row) then mret state
      else
        changed ← update_cursor (co_root owner) co_lookup
          (fun r => bool_decide (cu_root r = co_root owner) && bool_decide (cu_recipient r = co_lookup)
                    && (cu_generation r =? cu_generation row) && (cu_claimed r =? cu_claimed row)
                    && (cu_covered r =? cu_covered row) && (cu_injected r =? cu_injected row))
          (fun r => mkCurrentNativeCursor (cu_root r) (cu_recipient r) (cu_generation candidate) (cu_claimed candidate)
                      (cu_covered candidate) (cu_injected candidate) (cu_input candidate) (cu_stage candidate)
                      (cu_session candidate) (cu_request candidate));
        _ ← nlift (require (changed =? 1) (StaleFence "current cursor monotonic update lost its fence"));
        mret (RecordedCursor candidate)
  end.

(** [CursorState.require_coverage], with [CursorOwner.require_coverage] and
    [CoverageInput.require_reference] *)
Definition require_coverage (state : CursorState) (coverage : ProvenSourceCoverage) (proof : CoverageInput)
    (s : NativeSession) : outcome unit :=
  match state_row state with
  | None => Ok tt
  | Some row =>
      _ ← refuse (negb (og_within (cursor_owner row) co_identity))
          (IdentityConflict "current native cursor owner identity differs");
      _ ← refuse (pc_covered coverage <? cu_covered row)
          (IdentityConflict "current native cursor exceeds canonical source proof");
      prefix ← matches_prefix (evidence coverage (Some (cu_covered row))) s;
      _ ← require prefix (IdentityConflict "current cursor borrows historical owner source proof");
      _ ← require_recorded_input row s;
      match proof with
      | NoInjectedInput => Ok tt
      | InjectedInput original =>
          if cu_injected row =? hn_source_seq original then
            actual ← cu_reference row;
            refuse (negb (bool_decide (actual = Some (hn_reference original)))
                    || negb (og_within (mkOwnerGenerations (hn_owner original) (hn_generation original)) co_identity))
              (IdentityConflict "current native cursor proof differs from journal")
          else Ok tt
      end
  end.

(** The second transaction of [CursorOwner._advance_owned], with the state the first one read;
    [root] is what the privacy guard answers about the wire root, and the registry is the one
    held by the boundary *)
Definition advance_cursor (leased : bool) (ob : Observation) (registry : RegistryDocument) (root : outcome unit)
    (bus : BusSeen) (captured : CursorState) (coverage : ProvenSourceCoverage) : NM CursorState :=
  proof ← nlift (coverage_proof coverage);
  n_writing (
    _ ← nlift (require_current_prefix (pc_prefix coverage) bus);
    _ ← nlift root;
    _ ← nlift (require_snapshot fields RunningTurnRegistryCheck leased ob registry (co_registered owner)
                 "Current cursor owner or namespace changed");
    _ ← require_participant "Current cursor recipient generation changed";
    current ← nread cursor_state;
    _ ← nlift (require (bool_decide (current = captured))
                 (StaleFence "Current cursor SQL row changed during source verification"));
    _ ← nlift (require_progress captured coverage (injected_for proof captured));
    prefix ← nread (matches_prefix (evidence coverage None));
    allowed ← (if prefix : bool then nread (proof_allows proof captured) else mret false);
    state ← (if allowed : bool then cursor_publish captured coverage proof else mret captured);
    _ ← nread (require_coverage state coverage proof);
    mret state).
End owned.


(** ** Recorded cursors *)

(** The cursor names nothing, or an input whose recorded context it repeats, reserved by its
    recipient no later than its generation and sent no later than its claim. *)
Definition recorded (t : NativeTables) (c : CurrentNativeCursor) : Prop :=
  cu_reference c = Ok None \/
  exists reference row, cu_reference c = Ok (Some reference) /\ native_inputs t !! nr_input reference = Some row /\
    ni_reference row = Ok (Some reference) /\ ni_owner row = cu_recipient c /\ ni_generation row <= cu_generation c /\
    exists sent, ni_sent row = Some sent /\ sent <= cu_claimed c.

(** The cursor published by an owner carries the owner's fence. *)
Definition stamped (fields : ThreadFields) (owner : CursorOwner) (c : CurrentNativeCursor) : Prop :=
  cu_root c = co_root owner /\ cu_recipient c = co_lookup fields owner /\ cu_generation c = co_generation owner /\
  cu_claimed c = co_claimed owner.

Section facts.
Context (fields : ThreadFields) (owner : CursorOwner).

Lemma matches_input_ok found reference :
  matches_input fields owner found reference = Ok true ->
  exists row, found = Some row /\ ni_reference row = Ok (Some reference) /\ ni_owner row = co_lookup fields owner /\
    ni_generation row <= co_generation owner /\ exists sent, ni_sent row = Some sent /\ sent <= co_claimed owner.
Proof.
  unfold matches_input. destruct found as [row|]; [|done]. intros H.
  destruct (og_within _ _ && _) eqn:E; [|done]. ok_inv. bools. subst. exists row.
  unfold og_within, input_owner, co_identity in *. simpl in *. bools.
  split_and!; [done | done | done | lia |].
  match goal with Hs : sent_by_lineage (ni_sent row) _ = true |- _ => unfold sent_by_lineage in Hs end.
  destruct (ni_sent row) as [sent|]; [|done]. exists sent. split; [done | lia].
Qed.
End facts.

(** * What a cursor advance does *)

(** An advance that succeeds checked the registry, the participant and the row it read, and
    either left the cursor or replaced it by one row that carries the owner's fence, passes the
    triggers and constraints of the table, and repeats the recorded context of its input. *)

(** ** Statements *)

(** The change of one cursor row that the table accepts *)
Definition cursor_accepted (d : DB) (t : NativeTables) (c : CurrentNativeCursor) : Prop :=
  cursor_checks c = true /\ cursor_keys d t c = true /\
  forall old, native_cursors t !! (cu_root c, cu_recipient c) = Some old -> cursor_update_guard old c = false.

Definition with_cursor (c : CurrentNativeCursor) (s : NativeSession) : NativeSession :=
  mkNativeSession (ns_core s) (with_cursors (<[(cu_root c, cu_recipient c) := c]> (cursors s)) (ns_tables s)) (ns_bindings s).

Lemma insert_cursor_ok c s u s' :
  insert_cursor c s = (Ok u, s') ->
  cursors s !! (cu_root c, cu_recipient c) = None /\ cursor_accepted (db (ns_core s)) (ns_tables s) c /\
  s' = with_cursor c s.
Proof.
  unfold insert_cursor. intros (t & H & ->)%statement_ok. ok_inv. unfold cursors.
  destruct (native_cursors (ns_tables s) !! _) eqn:E; [done|]. split_and!; [done | | done].
  split_and!; [done | done | by rewrite E].
Qed.

Lemma update_cursor_ok root recipient condition change s s' :
  update_cursor root recipient condition change s = (Ok 1, s') ->
  exists old, cursors s !! (root, recipient) = Some old /\ condition old = true /\
    cursor_update_guard old (change old) = false /\ cursor_checks (change old) = true /\
    cursor_keys (db (ns_core s)) (ns_tables s) (change old) = true /\
    s' = mkNativeSession (ns_core s) (with_cursors (<[(root, recipient) := change old]> (cursors s)) (ns_tables s))
           (ns_bindings s).
Proof.
  unfold update_cursor. intros (t & H & ->)%statement_ok. unfold cursors.
  destruct (native_cursors (ns_tables s) !! _) as [old|]; [|by ok_inv].
  destruct (condition old) eqn:Hc; [|by ok_inv]. cbv zeta in H. ok_inv. exists old. done.
Qed.

Lemma cursor_guard_ok old new :
  cursor_update_guard old new = false ->
  cu_root new = cu_root old /\ cu_recipient new = cu_recipient old /\
  cu_covered old <= cu_covered new /\ cu_injected old <= cu_injected new /\
  cu_generation old <= cu_generation new /\ cu_claimed old <= cu_claimed new /\
  (cu_injected new = cu_injected old -> cu_input new = cu_input old).
Proof.
  unfold cursor_update_guard. intros H. apply orb_false_iff in H as [H Hs]. apply orb_false_iff in H as [Hf Hm].
  apply frozen_violation_ok in Hf. rewrite !Forall_cons, !is_not_false in Hf. destruct Hf as (? & ? & _).
  unfold non_decreasing in Hm. simpl in Hm. bools. split_and!; try done; try lia.
  intros Heq. rewrite Heq, Z.eqb_refl in Hs. simpl in Hs. by apply is_not_false.
Qed.

Section advance.
Context (fields : ThreadFields) (owner : CursorOwner).

(** ** Checks *)

Lemma recorded_reference_ok reference s u :
  require_recorded_reference fields owner reference s = Ok u ->
  exists row, inputs s !! nr_input reference = Some row /\ ni_reference row = Ok (Some reference) /\
    ni_owner row = co_lookup fields owner /\ ni_generation row <= co_generation owner /\
    exists sent, ni_sent row = Some sent /\ sent <= co_claimed owner.
Proof.
  unfold require_recorded_reference. intros H. ok_inv.
  match goal with Hm : matches_input _ _ _ _ = Ok true |- _ => apply matches_input_ok in Hm as (row & -> & Hrow) end.
  exists row. split; [|done]. unfold input_read in *. destruct (inputs s !! nr_input reference); ok_inv; done.
Qed.

Lemma recorded_input_ok c s u :
  stamped fields owner c -> require_recorded_input fields owner c s = Ok u -> recorded (ns_tables s) c.
Proof.
  unfold require_recorded_input. intros (_ & Hl & Hg & Hc) H. ok_inv.
  match goal with Hr : cu_reference c = Ok ?r |- _ => destruct r as [reference|]; [right|by left] end.
  match goal with Hr : require_recorded_reference _ _ _ _ = Ok _ |- _ =>
    apply recorded_reference_ok in Hr as (row & Hrow & Href & Ho & Hgen & Hsent) end.
  exists reference, row. rewrite Hl, Hg, Hc. done.
Qed.

Lemma require_participant_ok reason s u s' :
  require_participant fields owner reason s = (Ok u, s') ->
  s' = s /\ (exists person, participants (db (ns_core s)) !! co_lookup fields owner = Some person /\ committed person = true) /\
  owner_generations (db (ns_core s)) !! co_lookup fields owner = Some (co_identity fields owner).
Proof.
  unfold require_participant, participant_get.
  intros (p & s1 & (c & [Hp ->]%reading_ok & ->)%core_ok & [H ->]%nlift_ok)%bindN_ok. split; [by destruct s|].
  apply refuse_ok in H. bools. apply participant_read_at_ok in Hp as ((person & Hperson & Hc) & Hg & _).
  split; [exists person; split; [done|congruence] | congruence].
Qed.

(** The state is the row the table has. *)
Lemma cursor_state_row s state :
  cursor_state fields owner s = Ok state ->
  cursors s !! (co_root owner, co_lookup fields owner) = state_row state /\
  forall row, state_row state = Some row -> cu_generation row <= co_generation owner /\ cu_claimed row <= co_claimed owner.
Proof.
  unfold cursor_state. destruct (cursors s !! _) as [row|]; [|intros H; ok_inv; by split].
  intros H. ok_inv. unfold og_within, cursor_owner, co_identity in *. simpl in *. bools.
  destruct (bool_decide _); ok_inv; simpl; (split; [done|]); intros ? [= <-]; lia.
Qed.

(** ** Advances *)

(** A publication leaves the row or replaces it by the candidate. *)
Lemma cursor_publish_ok captured coverage proof s state s' :
  cursor_state fields owner s = Ok captured ->
  cursor_publish fields owner captured coverage proof s = (Ok state, s') ->
  (s' = s /\ state = captured) \/
  (let c := cursor_candidate fields owner proof captured (pc_covered coverage) in
   state = RecordedCursor c /\ s' = with_cursor c s /\ stamped fields owner c /\
   cursor_accepted (db (ns_core s)) (ns_tables s) c).
Proof.
  intros [Hrow _]%cursor_state_row. unfold cursor_publish, cursor_candidate.
  destruct (state_row captured) as [row|] eqn:Hst.
  - destruct (bool_decide _); intros H; [n_inv; by left|].
    apply bindN_ok in H as (n & s1 & Hu & H).
    apply bindN_ok in H as ([] & s2 & [Hone%require_ok_any ->]%nlift_ok & [-> ->]%nret_ok). bools. subst n.
    apply update_cursor_ok in Hu as (old & Hold & Hw & Hg & Hc & Hkeys & ->).
    rewrite Hrow in Hold. injection Hold as <-. bools.
    match goal with H1 : cu_root row = _, H2 : cu_recipient row = _ |- _ => symmetry in H1, H2; rename H1 into Hroot, H2 into Hrec end. cbv zeta. right.
    set (c := match proof with NoInjectedInput => _ | InjectedInput _ => _ end) in *.
    assert (stamped fields owner c) as Hstamp by (subst c; destruct proof; done). clearbody c.
    pose proof Hstamp as (Hcr & Hcl & _). rewrite <- Hroot, <- Hrec, <- Hcr, <- Hcl in *.
    replace (mkCurrentNativeCursor (cu_root c) (cu_recipient c) _ _ _ _ _ _ _ _) with c in * by by destruct c.
    split_and!; [done | done | done |]. split_and!; [done | done|].
    intros old Hold. unfold cursors in Hrow. rewrite Hrow in Hold. by injection Hold as <-.
  - destruct (pc_covered coverage <=? 0); intros H; [n_inv; by left|]. right. cbv zeta.
    apply bindN_ok in H as ([] & s1 & Hi & H). n_inv. apply insert_cursor_ok in Hi as (_ & Hacc & ->).
    assert (stamped fields owner (build_cursor fields owner proof (pc_covered coverage))) as Hstamp by by destruct proof.
    destruct proof; split_and!; done.
Qed.

(** What was checked by an advance that succeeded *)
Record advance_checked (leased : bool) (ob : Observation) (registry : RegistryDocument) (bus : BusSeen)
    (captured : CursorState) (coverage : ProvenSourceCoverage) (proof : CoverageInput) (s : NativeSession) : Prop := mkAdvanceChecked {
  adv_proof : coverage_proof coverage = Ok proof;
  adv_prefix : require_current_prefix (pc_prefix coverage) bus = Ok tt;
  adv_registry : require_snapshot fields RunningTurnRegistryCheck leased ob registry (co_registered owner)
                   "Current cursor owner or namespace changed" = Ok tt;
  adv_committed : exists person, participants (db (ns_core s)) !! co_lookup fields owner = Some person /\ committed person = true;
  adv_generation : owner_generations (db (ns_core s)) !! co_lookup fields owner = Some (co_identity fields owner);
  adv_state : cursor_state fields owner s = Ok captured;
  adv_progress : require_progress fields owner captured coverage (injected_for proof captured) = Ok tt;
}.

Lemma advance_cursor_ok leased ob registry root bus captured coverage s state s' :
  advance_cursor fields owner leased ob registry root bus captured coverage s = (Ok state, s') ->
  exists proof, advance_checked leased ob registry bus captured coverage proof s /\
    require_coverage fields owner state coverage proof s' = Ok tt /\
    ((s' = s /\ state = captured) \/
     let c := cursor_candidate fields owner proof captured (pc_covered coverage) in
     matches_prefix fields owner (pc_inputs coverage) s = Ok true /\ proof_allows fields owner proof captured s = Ok true /\
     state = RecordedCursor c /\ s' = with_cursor c s /\ stamped fields owner c /\
     cursor_accepted (db (ns_core s)) (ns_tables s) c).
Proof.
  intros (proof & s0 & [Hproof ->]%nlift_ok & [H _]%n_writing_ok)%bindN_ok. exists proof.
  apply bindN_ok in H as ([] & s1 & [Hprefix ->]%nlift_ok & H).
  apply bindN_ok in H as ([] & s1 & [Hroot ->]%nlift_ok & H).
  apply bindN_ok in H as ([] & s1 & [Hreg ->]%nlift_ok & H).
  apply bindN_ok in H as ([] & s1 & (-> & Hcom & Hgen)%require_participant_ok & H).
  apply bindN_ok in H as (current & s1 & [Hstate ->]%nread_ok & H).
  apply bindN_ok in H as ([] & s1 & [Heq%require_ok_any%bool_decide_eq_true ->]%nlift_ok & H). subst current.
  apply bindN_ok in H as ([] & s1 & [Hprogress ->]%nlift_ok & H).
  apply bindN_ok in H as (prefix & s1 & [Hmatch ->]%nread_ok & H).
  apply bindN_ok in H as (allowed & s1 & Hallow & H).
  apply bindN_ok in H as (final & s2 & Hpub & H).
  apply bindN_ok in H as ([] & s3 & [Hcov ->]%nread_ok & [-> ->]%nret_ok).
  split; [by constructor|]. split; [done|].
  assert (s1 = s) as -> by (destruct prefix; n_inv; done).
  destruct allowed; [|n_inv; by left].
  destruct prefix; [apply nread_ok in Hallow as [Hallow _] | n_inv; done].
  destruct (cursor_publish_ok _ _ _ _ _ _ Hstate Hpub) as [?|Hc]; [by left | right; split_and!; try done; apply Hc].
Qed.

(** The cursor that was written is recorded by the input it names. *)
Lemma coverage_recorded c coverage proof s u :
  stamped fields owner c -> require_coverage fields owner (RecordedCursor c) coverage proof s = Ok u ->
  recorded (ns_tables s) c /\ cu_covered c <= pc_covered coverage.
Proof.
  intros Hs H. unfold require_coverage in H. simpl in H. ok_inv. bools. split; [by eapply recorded_input_ok | lia].
Qed.
End advance.
