(* ===== verification/SourceCoverage.v ===== *)
(** * Source coverage

    Models [proven_source_coverage.py] (how far the messages of one recipient are settled),
    [historical_native_inputs.py] (the recorded inputs that prove one message),
    [source_proof_requirement.py] with the settlement of a claim ([assignment_states.py]), and
    the pages of [bus_source_page.py].  A read of coverage holds no transaction: the rows of one
    message are read at three moments ([SourceView]), and the bus may grow between two pages.
    What a session file and its journal answer is the [EvidenceReads] argument. *)

From stdpp Require Import base gmap strings list sorting.
From Stdlib Require Import ZArith Lia.
From S2P Require Import Prelude Contracts ThreadStatus Threads RegistryDocument Lifecycle WakePolicy AssignmentStates.
From S2P Require Import ResponseStates AttemptStates ExecutionStates Rows Delivery CohortRows TableGuards Database CohortTables.
From S2P Require Import Session SchemaSteps Stepwise ParticipantStore AssignmentStore Cohort NativeRows NativeSession NativeStore.
From S2P Require Import NativeCursor.

(** ** Recorded inputs of a message *)

Record EvidenceReads : Type := mkEvidenceReads {
  (** [NativeEvidenceScope.observe_inputs] *)
  er_observe : list NativeContextProof -> outcome unit;
  (** [corroborates_context]; [None] where it raised an [OSError] or a [ValueError] *)
  er_corroborates : NativeRuntimeInput -> NativeContextProof -> option bool;
  (** [expected_prompt_matches_journal] *)
  er_matches : PromptBinding -> outcome bool;
}.

(** The sessions in which the rows of one message are read: its cohort, its inputs, and last
    the bindings of the inputs with the lifecycle of the claim *)
Record SourceView : Type := mkSourceView {
  sv_cohort : NativeSession;
  sv_inputs : NativeSession;
  sv_claims : NativeSession;
}.

Section recipient.
Context (root lookup : string).

(** The sealed acknowledgements of a claim whose delivery names the owner of an input *)
Definition acknowledged_as (owner : string) (c : WakeAssignment) (d : DB) : list CohortDeliveries :=
  flat_map (fun m =>
    if bool_decide (bm_claim m = wa_id c) && bool_decide (bm_lookup m = wa_lookup c) && bool_decide (bm_root m = root)
       && match claim_batch_receipts d !! (bm_root m, bm_seq m) with
          | Some r => bool_decide (cb_message_id r = wa_message_id c) && cb_sealed r
          | None => false
          end
    then List.filter (fun v => bool_decide (cd_claim v = Some (wa_id c)) && bool_decide (cd_lookup v = owner))
           (delivery_rows d (bm_root m, bm_seq m))
    else []) (map snd (map_to_list (claim_batch_members d))).

(** The rows of the query of [read_historical_native_inputs] *)
Definition historical_sources (seq : Z) (s : NativeSession) : list (string * WakeAssignment) :=
  flat_map (fun n =>
    if present (ni_entry n) then
      flat_map (fun a =>
        match wake_claims (db (ns_core s)) !! a with
        | Some c => if bool_decide (wa_lookup c = lookup) && (wa_wire_seq c =? seq)
                       && bool_decide (ni_owner n = wa_lookup c)
                    then map (fun _ => (ni_id n, c)) (acknowledged_as (ni_owner n) c (db (ns_core s)))
                    else []
        | None => []
        end) (triage_sources (ni_id n) s ++ full_sources (ni_id n) s)
    else []) (map snd (map_to_list (inputs s))).

(** [NativeInputExecution.retried_in] *)
Definition retried_in (e : NativeInputExecution) (i : string) (s : NativeSession) : outcome bool :=
  match e with
  | TriageNativeExecution =>
      Ok (existsb (fun m =>
            map_exists (fun later => bool_decide (tm_assignment later = tm_assignment m)
                                     && (tm_attempt m <? tm_attempt later)) (members s)
            || match wake_claims (db (ns_core s)) !! tm_assignment m with
               | Some c => bool_decide (wa_disposition c = TriagePendingKind)
               | None => false
               end) (members_of_input i (ns_tables s)))
  | FullNativeExecution x ordinal =>
      found ← one (Row := ExecutionRecord) x (db (ns_core s));
      execution ← of_option found (RowNotFoundError "executions");
      Ok (negb (bool_decide (current_attempt_ordinal (ex_lifecycle execution) = Some ordinal)))
  end.

(** The rows that still prove their source *)
Fixpoint proving_rows (sources : list (string * WakeAssignment)) (s : NativeSession)
    : outcome (list (WakeAssignment * NativeRuntimeInput)) :=
  match sources with
  | [] => Ok []
  | (i, c) :: rest =>
      found ← input_read i s;
      row ← of_option found (IdentityConflict "historical native input disappeared inside its snapshot");
      e ← ni_execution row;
      retried ← retried_in e i s;
      rows ← proving_rows rest s;
      Ok (if retried : bool then rows else (c, row) :: rows)
  end.

(** At most one row of each stage, the triage first ([declared_position]) *)
Definition of_stage (stage : NativeStage) (rows : list (WakeAssignment * NativeRuntimeInput))
    : list (WakeAssignment * NativeRuntimeInput) :=
  List.filter (fun cr => bool_decide (ni_stage cr.2 = stage)) rows.

Definition in_stage_order (rows : list (WakeAssignment * NativeRuntimeInput))
    : outcome (list (WakeAssignment * NativeRuntimeInput)) :=
  _ ← refuse ((2 <? Z.of_nat (length rows)) || (1 <? Z.of_nat (length (of_stage TriageStage rows)))
              || (1 <? Z.of_nat (length (of_stage FullStage rows))))
      (IdentityConflict "historical source has ambiguous native input evidence");
  Ok (of_stage TriageStage rows ++ of_stage FullStage rows).

(** [NativeInputExecution.historical_proof], with [rejected_triage_history] of the claim *)
Definition historical_proof (e : NativeInputExecution) (row : NativeRuntimeInput) (lifecycle : AssignmentState)
    : outcome HistoricalProof :=
  match e, ni_verdict row with
  | TriageNativeExecution, Some decision => Ok (TriageHistorical decision)
  | TriageNativeExecution, None =>
      match lifecycle with
      | FailedAssignment _ => Ok FailedTriageHistorical
      | _ => Err (ValueError "Recorded triage lacks a decision or a terminal failed claim")
      end
  | FullNativeExecution _ _, None => Ok FullHistorical
  | FullNativeExecution _ _, Some _ => Err (MalformedRecord "A full native input records no triage verdict")
  end.

(** One row of [read_historical_native_inputs], with its binding and the lifecycle of its claim
    as [later] has them *)
Definition historical_input (reads : EvidenceReads) (later : NativeSession) (c : WakeAssignment)
    (row : NativeRuntimeInput) : outcome HistoricalNativeInput :=
  session ← require_session_identity row;
  context ← require_context_proof row;
  corroborated ← of_option (er_corroborates reads row context)
                   (IdentityConflict "historical native context evidence is unavailable");
  _ ← require corroborated (IdentityConflict "historical native context differs from live-recorded proof");
  _ ← require_context session context;
  e ← ni_execution row;
  reference ← ni_reference row;
  recorded ← of_option reference (UnrecordedNativeContext "Native input has no recorded context");
  equality ← match ns_bindings later !! ni_id row with
             | None => Ok false
             | Some binding =>
                 bound ← pb_execution binding;
                 _ ← refuse (negb (bool_decide ((bound, (pb_owner binding, pb_generation binding))
                                                = (e, (ni_owner row, ni_generation row)))))
                     (IdentityConflict "prelaunch binding does not match this live proof");
                 _ ← refuse (negb (bool_decide (pb_root binding = root)))
                     (IdentityConflict "Prelaunch binding names another canonical wire root");
                 er_matches reads binding
             end;
  claim ← assignment_read (wa_id c) (db (ns_core later));
  proof ← historical_proof e row (wa_lifecycle claim);
  Ok (mkHistoricalNativeInput root (wa_wire_seq c) (wa_message_id c) (wa_id c) e (ni_id row) (ni_owner row)
        (ni_generation row) context recorded (pb_digest <$> ns_bindings later !! ni_id row) equality proof).

(** [read_historical_native_inputs] *)
Definition read_historical_native_inputs (reads : EvidenceReads) (view : SourceView) (source_seq : Z)
    : outcome (list HistoricalNativeInput) :=
  _ ← refuse (source_seq <=? 0) (ValueError "historical input requires a positive source sequence");
  rows ← proving_rows (historical_sources source_seq (sv_inputs view)) (sv_inputs view);
  ordered ← in_stage_order rows;
  contexts ← mapM (fun cr : WakeAssignment * NativeRuntimeInput => require_context_proof cr.2) rows;
  _ ← er_observe reads contexts;
  mapM (fun cr : WakeAssignment * NativeRuntimeInput => historical_input reads (sv_claims view) cr.1 cr.2) ordered.

(** ** Settlement of a claim *)

Inductive SourceSettlement : Type := ProvedByInput | SettledWithoutInput | Unproved.

(** [NativeInputExecution.proves_full_source] *)
Definition proves_full_source (proof : HistoricalNativeInput) : bool :=
  match hn_execution proof with
  | TriageNativeExecution => false
  | FullNativeExecution _ _ => hn_equality proof
  end.

(** [SelectedTriage.proves_source] *)
Definition decision_proves_source (decision : SelectedTriage) (evidence : list HistoricalNativeInput) : bool :=
  match decision with IgnoreSelectedTriage => true | FullSelectedTriage => existsb proves_full_source evidence end.

(** [HistoricalNativeInput.proves_triage_source] *)
Definition proves_triage_source (evidence : list HistoricalNativeInput) (proof : HistoricalNativeInput) : bool :=
  match hn_proof proof with
  | TriageHistorical decision => hn_equality proof && decision_proves_source decision evidence
  | FailedTriageHistorical => hn_equality proof
  | FullHistorical => false
  end.

(** [SourceProofRequirement.proves_source] of the wake policies *)
Definition policy_proves_source (policy : WakePolicy) (evidence : list HistoricalNativeInput) : bool :=
  match policy with
  | PassiveWake => false
  | FullWake => existsb proves_full_source evidence
  | BoundedTriageWake => existsb proves_full_source evidence || existsb (proves_triage_source evidence) evidence
  end.

(** [AssignmentState.source_settlement], which a failed claim overrides *)
Definition source_settlement (lifecycle : AssignmentState) (evidence : list HistoricalNativeInput)
    (policy : WakePolicy) (claim_id : string) : SourceSettlement :=
  let settled :=
    if negb (wake_active policy) then SettledWithoutInput
    else if policy_proves_source policy evidence
            && forallb (fun proof => bool_decide (hn_assignment proof = claim_id)) evidence
    then ProvedByInput else Unproved in
  match lifecycle, evidence with
  | FailedAssignment _, [] => SettledWithoutInput
  | _, _ => settled
  end.

(** [SourceSettlement.apply]: the inputs a settled claim adds, [None] where it is not settled *)
Definition settlement_apply (settlement : SourceSettlement) (evidence : list HistoricalNativeInput)
    : option (list HistoricalNativeInput) :=
  match settlement with
  | ProvedByInput => Some evidence
  | SettledWithoutInput => Some []
  | Unproved => None
  end.

(** ** Scanning messages *)

(** [zip(recipients, decisions, strict=True)] *)
Definition zip_strict (initial : Delivered) : outcome (list (FrozenRecipient * RecipientDecision)) :=
  _ ← require (Z.of_nat (length (dl_recipients initial)) =? Z.of_nat (length (dl_decisions initial)))
      (ValueError "zip() argument 2 has another length than argument 1");
  Ok (zip (dl_recipients initial) (dl_decisions initial)).

(** [SourceCoverage._accepted_cohort] *)
Definition accepted_cohort (initial : Delivered) (d : DB) : outcome (option AcceptedCohort) :=
  found ← one (Row := ClaimBatchAcknowledgements) (root, msg_seq (dl_message initial)) d;
  match found with
  | Some row => if cb_sealed row then cohort ← claim_record initial root d; Ok (Some cohort) else Ok None
  | None => Ok None
  end.

(** [SourceCoverage._selected_inputs] for the one claim decision of a woken recipient *)
Definition selected_inputs (reads : EvidenceReads) (view : SourceView) (seq : Z) (recipient : FrozenRecipient)
    (policy : WakePolicy) (cohort : AcceptedCohort) : outcome (option (list HistoricalNativeInput)) :=
  match List.filter (fun a => bool_decide (wa_lookup a = lookup)
                              && bool_decide (wa_recipient a = fr_canonical_thread recipient))
          (ac_assignments cohort) with
  | [a] =>
      _ ← require (bool_decide (assignment_mode (wa_lifecycle a) = policy))
          (IdentityConflict "selected claim differs from frozen bus recipient");
      evidence ← (if wake_active policy then read_historical_native_inputs reads view seq else Ok []);
      Ok (settlement_apply (source_settlement (wa_lifecycle a) evidence policy (wa_id a)) evidence)
  | _ => Err (IdentityConflict "selected claim differs from frozen bus recipient")
  end.

(** What one message is found to be *)
Inductive SourceStanding : Type :=
| BlockedSource
| NoWakeSource
| SettledSource (inputs : list HistoricalNativeInput).

(** The body of the loop of [SourceCoverage._read] *)
Definition source_standing (reads : EvidenceReads) (view : SourceView) (initial : Delivered) : outcome SourceStanding :=
  pairs ← zip_strict initial;
  match List.filter (fun rd => bool_decide (fr_lookup rd.1 = lookup)) pairs with
  | [] => Err (IdentityConflict "recipient source differs from its frozen audience")
  | [(recipient, decision)] =>
      accepted ← accepted_cohort initial (db (ns_core (sv_cohort view)));
      match accepted, decision with
      | None, _ => Ok BlockedSource
      | Some _, NoWakeDecision _ _ => Ok NoWakeSource
      | Some cohort, WakeDecision _ _ policy =>
          selected ← selected_inputs reads view (msg_seq (dl_message initial)) recipient policy cohort;
          Ok (match selected with Some inputs => SettledSource inputs | None => BlockedSource end)
      end
  | _ => Err (IdentityConflict "duplicate stable lookup in frozen audience")
  end.

Record Scan : Type := mkScan {
  sc_covered : Z;
  sc_inputs : list HistoricalNativeInput;
  sc_no_wake : list Z;
  sc_blocked : option Z;
}.

(** The loop of [SourceCoverage._read] *)
Fixpoint scan_sources (reads : EvidenceReads) (views : Z -> SourceView) (initials : list Delivered) (sc : Scan)
    : outcome Scan :=
  match initials with
  | [] => Ok sc
  | initial :: rest =>
      let seq := msg_seq (dl_message initial) in
      standing ← source_standing reads (views seq) initial;
      match standing with
      | BlockedSource => Ok (mkScan (sc_covered sc) (sc_inputs sc) (sc_no_wake sc) (Some seq))
      | NoWakeSource => scan_sources reads views rest (mkScan seq (sc_inputs sc) (sc_no_wake sc ++ [seq]) None)
      | SettledSource inputs => scan_sources reads views rest (mkScan seq (sc_inputs sc ++ inputs) (sc_no_wake sc) None)
      end
  end.

(** ** Pages *)

(** [CoveragePage] *)
Record CoveragePage : Type := mkCoveragePage {
  cp_after : Z;
  cp_limit : Z;
  cp_partial : bool;
}.

(** [CoveragePage.__post_init__] *)
Definition coverage_page (after_seq limit : Z) (partial : bool) : outcome CoveragePage :=
  _ ← refuse (after_seq <? 0) (ValueError "Source page sequence must be nonnegative");
  _ ← require ((1 <=? limit) && (limit <=? 100)) (ValueError "Source page limit must be between 1 and 100");
  _ ← refuse (negb (after_seq =? 0) && negb partial)
      (ValueError "Noninitial coverage page must declare partial coverage");
  Ok (mkCoveragePage after_seq limit partial).

(** [CoveragePage.require_exhausted] *)
Definition require_exhausted (request : CoveragePage) (has_more : bool) : outcome unit :=
  refuse (has_more && negb (cp_partial request))
    (IdentityConflict "source coverage exceeded its bounded private initial scan").

(** [Bus.received(lookup, after=, before=)] over the committed originals in bus order *)
Definition received_between (log : list Delivered) (after before : Z) : list Delivered :=
  List.filter (fun o => includes_lookup o lookup && (after <? msg_seq (dl_message o)) && (msg_seq (dl_message o) <? before))
    log.

(** What a page finds around it: the answer of the privacy guard, whether the connection is in
    a transaction, the committed originals, and the bus file at its two checks *)
Record PageView : Type := mkPageView {
  pv_root : outcome unit;
  pv_in_transaction : bool;
  pv_log : list Delivered;
  pv_before : BusSeen;
  pv_after : BusSeen;
}.

(** [SourceCoverage._read] *)
Definition read_page (reads : EvidenceReads) (views : Z -> SourceView) (request : CoveragePage) (prefix : SourcePrefix)
    (page : PageView) : outcome ProvenSourceCoverage :=
  _ ← pv_root page;
  _ ← refuse (pv_in_transaction page)
      (IdentityConflict "source coverage requires a committed coordinator snapshot");
  _ ← require_start prefix (cp_after request);
  let records := take (Z.to_nat (cp_limit request + 1))
                   (received_between (pv_log page) (cp_after request) (sp_through prefix + 1)) in
  let more := cp_limit request <? Z.of_nat (length records) in
  _ ← require_exhausted request more;
  let initials := take (Z.to_nat (cp_limit request)) records in
  _ ← require_current_prefix prefix (pv_before page);
  horizon ← (if more then of_option (last (map (fun o => msg_seq (dl_message o)) initials))
                            (ValueError "tuple index out of range")
             else Ok (sp_through prefix));
  sc ← scan_sources reads views initials
         (mkScan (if cp_partial request then cp_after request else 0) [] [] None);
  let covered := match sc_blocked sc with None => Z.max (sc_covered sc) horizon | Some _ => sc_covered sc end in
  _ ← require_current_prefix prefix (pv_after page);
  Ok (mkProvenSourceCoverage root lookup covered (sc_inputs sc) (sc_no_wake sc) (sc_blocked sc) more prefix).

(** [SourcePrefix.capture]; the bus is looked at again by its last check *)
Definition capture_prefix (revision after_seq : Z) (seen : BusSeen) : outcome SourcePrefix :=
  let prefix := mkSourcePrefix revision in
  _ ← require_start prefix after_seq;
  _ ← require_current_prefix prefix seen;
  Ok prefix.

(** [SourceCoverage.read] *)
Definition coverage_read (reads : EvidenceReads) (views : Z -> SourceView) (limit after_seq : Z) (partial : bool)
    (revision : Z) (seen : BusSeen) (page : PageView) : outcome ProvenSourceCoverage :=
  request ← coverage_page after_seq limit partial;
  prefix ← capture_prefix revision (cp_after request) seen;
  read_page reads views request prefix page.

Definition page_budget : nat := 32.

(** The loop of [SourceCoverage.since] over the pages that are left of its budget *)
Fixpoint since_pages (reads : EvidenceReads) (views : Z -> SourceView) (prefix : SourcePrefix)
    (pages : nat -> PageView) (budget k : nat) (covered : Z) (inputs : list HistoricalNativeInput) (no_wake : list Z)
    : outcome ProvenSourceCoverage :=
  match budget with
  | O => Err (IdentityConflict "source coverage exceeded bounded canonical page budget")
  | S budget =>
      request ← coverage_page covered 100 true;
      page ← read_page reads views request prefix (pages k);
      _ ← refuse (pc_covered page <? covered)
          (IdentityConflict "canonical source coverage regressed between pages");
      if present (pc_blocked page) || negb (pc_more page) then
        Ok (mkProvenSourceCoverage root lookup (pc_covered page) (inputs ++ pc_inputs page)
              (no_wake ++ pc_no_wake page) (pc_blocked page) (pc_more page) prefix)
      else since_pages reads views prefix pages budget (S k) (pc_covered page) (inputs ++ pc_inputs page)
             (no_wake ++ pc_no_wake page)
  end.

(** [SourceCoverage.since] *)
Definition coverage_since (reads : EvidenceReads) (views : Z -> SourceView) (state : CursorState) (revision : Z)
    (seen : BusSeen) (pages : nat -> PageView) : outcome ProvenSourceCoverage :=
  prefix ← capture_prefix revision (state_covered state) seen;
  since_pages reads views prefix pages page_budget 0 (state_covered state) [] [].
End recipient.
