(* ===== verification/NativeSteps.v ===== *)
(** * The life of a native input

    The steps the native rows take, whoever takes them: an input is reserved with no other
    fact, granted once, shown to a model once and decided once; its source members are
    inserted with it; slots and bindings are added; a cursor is replaced by one that repeats
    the recorded context of its input.  Every operation of [NativeStore.v] and an advance of
    [NativeCursor.v] is a sequence of such steps and of accepted statements on the
    coordinator's rows, and the invariants follow by induction. *)

From stdpp Require Import base gmap strings list sorting.
From Stdlib Require Import ZArith Lia.
From S2P Require Import Prelude Contracts ThreadStatus Threads RegistryDocument Lifecycle WakePolicy AssignmentStates.
From S2P Require Import ResponseStates AttemptStates ExecutionStates Rows TableGuards CohortRows Database Session.
From S2P Require Import SchemaSteps Stepwise Replay ParticipantStore AssignmentStore Snapshot AttemptStore Fences.
From S2P Require Import NativeRows NativeSession NativeCursor NativeStore.

(** ** Steps *)

(** Nothing but the reservation is recorded. *)
Definition fresh (r : NativeRuntimeInput) : Prop :=
  ni_sent r = None /\ ni_session r = None /\ ni_file r = None /\ ni_entry r = None /\ ni_start r = None /\
  ni_request r = None /\ ni_digest r = None /\ ni_committed r = None /\ ni_verdict r = None.

Definition with_grant (r : NativeRuntimeInput) (claimed : Z) (identity : NativeSessionIdentity) : NativeRuntimeInput :=
  mkNativeRuntimeInput (ni_id r) (ni_stage r) (ni_execution_id r) (ni_attempt_ordinal r) (ni_owner r)
    (ni_generation r) (ni_token r) (Some claimed) (Some (si_session identity)) (Some (si_file identity))
    (ni_entry r) (ni_start r) (ni_request r) (ni_digest r) (ni_committed r) (ni_verdict r).

Definition with_context (r : NativeRuntimeInput) (c : NativeContextProof) : NativeRuntimeInput :=
  mkNativeRuntimeInput (ni_id r) (ni_stage r) (ni_execution_id r) (ni_attempt_ordinal r) (ni_owner r)
    (ni_generation r) (ni_token r) (ni_sent r) (ni_session r) (ni_file r) (Some (cx_entry c))
    (Some (cx_start c)) (Some (cx_request c)) (Some (cx_digest c)) (Some (cx_committed c)) (ni_verdict r).

Definition with_verdict (r : NativeRuntimeInput) (decision : SelectedTriage) : NativeRuntimeInput :=
  mkNativeRuntimeInput (ni_id r) (ni_stage r) (ni_execution_id r) (ni_attempt_ordinal r) (ni_owner r)
    (ni_generation r) (ni_token r) (ni_sent r) (ni_session r) (ni_file r) (ni_entry r) (ni_start r)
    (ni_request r) (ni_digest r) (ni_committed r) (Some decision).

(** One change of a stored input *)
Inductive input_step (old : NativeRuntimeInput) : NativeRuntimeInput -> Prop :=
| granted_step claimed identity :
    ni_sent old = None ->
    session_identity (si_session identity) (si_file identity) = Ok identity ->
    input_step old (with_grant old claimed identity)
| shown_step c :
    ni_entry old = None -> present (ni_sent old) = true -> context_valid c = true ->
    input_step old (with_context old c)
| decided_step decision :
    present (ni_entry old) = true -> ni_verdict old = None -> input_step old (with_verdict old decision).

(** One change of the native rows, above the coordinator's rows [d] *)
Inductive table_step (d : DB) (t : NativeTables) : NativeTables -> Prop :=
| reserve_step r :
    fresh r -> input_post_init r = Ok tt -> input_checks r = true -> native_inputs t !! ni_id r = None ->
    map_exists (input_conflicts r) (native_inputs t) = false ->
    table_step d t (with_inputs (<[ni_id r := r]> (native_inputs t)) t)
| change_step i old new :
    native_inputs t !! i = Some old -> input_step old new -> input_update_guard old new = false ->
    input_checks new = true -> table_step d t (with_inputs (<[i := new]> (native_inputs t)) t)
| member_step m :
    triage_member_guard d t m = false -> triage_members t !! (tm_input m, tm_ordinal m) = None ->
    map_exists (same_ask m) (triage_members t) = false -> 0 <= tm_attempt m <= 1 ->
    table_step d t (with_members (<[(tm_input m, tm_ordinal m) := m]> (triage_members t)) t)
| consume_step slot call :
    tool_slots t !! slot = None ->
    table_step d t (with_slots (<[slot := mkSelectedToolSlot slot call ConsumedSlot]> (tool_slots t)) t)
| terminal_step slot old :
    tool_slots t !! slot = Some old -> sl_state old = ConsumedSlot ->
    table_step d t (with_slots (<[slot := mkSelectedToolSlot (sl_id old) (sl_call old) AcknowledgedSlot]>
                                  (tool_slots t)) t)
| cursor_step c :
    cursor_accepted d t c -> recorded t c ->
    table_step d t (with_cursors (<[(cu_root c, cu_recipient c) := c]> (native_cursors t)) t).

(** The rows of a session, without its clock *)
Definition World : Type := (DB * NativeTables * gmap string PromptBinding)%type.
Definition world (s : NativeSession) : World := (db (ns_core s), ns_tables s, ns_bindings s).

Inductive world_step : World -> World -> Prop :=
| core_step d d' t b : db_step d d' -> world_step (d, t, b) (d', t, b)
| native_step d t t' b : table_step d t t' -> world_step (d, t, b) (d, t', b)
| bound_step d t b binding :
    b !! pb_input binding = None -> world_step (d, t, b) (d, t, <[pb_input binding := binding]> b).

(** ** Operations are sequences of steps *)

Definition steps_from {A : Type} (m : NM A) (s : NativeSession) : Prop := rtc world_step (world s) (world (m s).2).
Definition nsteps {A : Type} (m : NM A) : Prop := forall s, steps_from m s.

Lemma core_steps d d' t b : rtc db_step d d' -> rtc world_step (d, t, b) (d', t, b).
Proof. intros Hs. induction Hs; [apply rtc_refl|]. eapply rtc_l; [by apply core_step | done]. Qed.

Section combinators.
Context {A B : Type}.

Lemma nsteps_lift (o : outcome A) : nsteps (nlift o).
Proof. intros s. apply rtc_refl. Qed.
Lemma nsteps_read (q : NativeSession -> outcome A) : nsteps (nread q).
Proof. intros s. apply rtc_refl. Qed.
Lemma nsteps_ret (a : A) : nsteps (mret a).
Proof. intros s. apply rtc_refl. Qed.

Lemma nsteps_core (m : M A) : stepwise m -> nsteps (core m).
Proof.
  intros Hm s. unfold steps_from, core. specialize (Hm (ns_core s)). destruct (m (ns_core s)) as [r c].
  by apply core_steps.
Qed.

Lemma steps_bind (m : NM A) (f : A -> NM B) s :
  steps_from m s -> (forall a s1, m s = (Ok a, s1) -> steps_from (f a) s1) -> steps_from (mbind f m) s.
Proof.
  unfold steps_from, mbind, NM_bind. intros Hm Hf. destruct (m s) as [[a|e] s1]; [|done].
  etrans; [exact Hm|]. by apply Hf.
Qed.

Lemma nsteps_bind (m : NM A) (f : A -> NM B) : nsteps m -> (forall a, nsteps (f a)) -> nsteps (mbind f m).
Proof. intros Hm Hf s. apply steps_bind; [apply Hm | intros a s1 _; apply Hf]. Qed.

Lemma steps_writing (m : NM A) s : steps_from m s -> steps_from (n_writing m) s.
Proof.
  unfold steps_from, n_writing. intros Hm. destruct (m s) as [[a|e] s1]; [|apply rtc_refl].
  destruct (foreign_keys_hold (db (ns_core s1))); [exact Hm | apply rtc_refl].
Qed.

Lemma nsteps_writing (m : NM A) : nsteps m -> nsteps (n_writing m).
Proof. intros Hm s. apply steps_writing, Hm. Qed.

Lemma steps_statement (f : DB -> NativeTables -> outcome (A * NativeTables)) s :
  (forall a t, f (db (ns_core s)) (ns_tables s) = Ok (a, t) ->
     t = ns_tables s \/ table_step (db (ns_core s)) (ns_tables s) t) ->
  steps_from (statement f) s.
Proof.
  unfold steps_from, statement, world. intros Hf. destruct (f _ _) as [[a t]|e]; [|apply rtc_refl].
  destruct (Hf a t eq_refl) as [->|Ht]; [apply rtc_refl|]. by apply rtc_once, native_step.
Qed.
End combinators.

Lemma nsteps_each {A : Type} (body : A -> NM unit) xs :
  (forall x, nsteps (body x)) -> nsteps (n_each body xs).
Proof.
  intros Hbody. induction xs as [|x rest IH]; simpl; [apply nsteps_ret | by apply nsteps_bind].
Qed.

Create HintDb nsteps discriminated.
#[export] Hint Resolve nsteps_lift nsteps_read nsteps_ret nsteps_core nsteps_writing : nsteps.

Ltac nsteps_step :=
  match goal with
  | |- nsteps (mbind _ _) => apply nsteps_bind; [|intros ?]
  | |- nsteps (n_each _ _) => apply nsteps_each; intros ?
  | |- nsteps (core _) => apply nsteps_core; stepwise
  | |- nsteps (if ?b then _ else _) => destruct b
  | |- nsteps (match ?x with _ => _ end) => destruct x
  | |- nsteps (n_writing _) => apply nsteps_writing
  | |- _ => solve [auto with nsteps]
  end.
Ltac nsteps := repeat nsteps_step.

(** *** Statements *)

Lemma nsteps_reserve_row stage owner lookup digest i : nsteps (insert_input (reserved_row stage owner lookup digest i)).
Proof.
  intros s. apply steps_bind; [apply nsteps_lift|]. intros [] s1 [Hpost ->]%nlift_ok.
  apply steps_statement. intros [] t H. right. ok_inv. apply reserve_step; try done.
  by destruct (native_inputs _ !! _).
Qed.

Lemma steps_update_input i condition change s :
  (forall old, inputs s !! i = Some old -> condition old = true -> input_update_guard old (change old) = false ->
     input_checks (change old) = true -> input_step old (change old)) ->
  steps_from (update_input i condition change) s.
Proof.
  intros Hchange. apply steps_statement. intros n t H.
  destruct (native_inputs (ns_tables s) !! i) as [old|] eqn:Hold; [|by ok_inv; left].
  destruct (condition old) eqn:Hc; [|by ok_inv; left].
  right. cbv zeta in H. ok_inv. eapply change_step; eauto.
Qed.

Lemma update_guard_sent old new : input_update_guard old new = false -> present (ni_sent new) = true.
Proof. unfold input_update_guard. intros [_ H]%orb_false_iff. by apply negb_false_iff in H. Qed.

(** A value of [NativeSessionIdentity] passed its construction. *)
Definition identity_valid (identity : NativeSessionIdentity) : Prop :=
  session_identity (si_session identity) (si_file identity) = Ok identity.

Lemma nsteps_record_claim row claimed identity : identity_valid identity -> nsteps (record_claim row claimed identity).
Proof.
  intros Hid. unfold record_claim. nsteps. intros s. apply steps_update_input.
  intros old _ Hc _ _. apply (granted_step old claimed identity); [|done]. by destruct (ni_sent old).
Qed.

Lemma nsteps_write_context row c : context_valid c = true -> nsteps (write_context row c).
Proof.
  intros Hc. unfold write_context. nsteps. intros s. apply steps_update_input.
  intros old _ Hn Hg _. apply (shown_step old c); [by destruct (ni_entry old) | | done].
  by apply update_guard_sent in Hg.
Qed.
#[export] Hint Resolve nsteps_reserve_row nsteps_record_claim nsteps_write_context : nsteps.

Lemma nsteps_commit_context row c : context_valid c = true -> nsteps (commit_context row c).
Proof. intros Hc. unfold commit_context. nsteps. Qed.

Lemma ni_reference_entry r reference : ni_reference r = Ok (Some reference) -> present (ni_entry r) = true.
Proof. unfold ni_reference. destruct (ni_entry r); [done|]. intros H. ok_inv. Qed.

Lemma input_read_ok i s r : input_read i s = Ok (Some r) <-> inputs s !! i = Some r /\ input_post_init r = Ok tt.
Proof.
  unfold input_read. destruct (inputs s !! i) as [r'|]; [|by split; [|intros [? _]]].
  destruct (input_post_init r') as [[]|e] eqn:E; simpl; split.
  - by intros [= <-].
  - by intros [[= <-] _].
  - done.
  - intros [[= <-] ?]. congruence.
Qed.

(** The verdict is written over the row whose context was just read. *)
Lemma nsteps_settle_verdict row decision : nsteps (settle_verdict row decision).
Proof.
  intros s. unfold settle_verdict.
  apply steps_bind; [apply nsteps_read|]. intros found s1 [Hfound ->]%nread_ok.
  apply steps_bind; [apply nsteps_lift|]. intros current s2 [->%of_option_ok ->]%nlift_ok.
  apply steps_bind; [apply nsteps_lift|]. intros reference s3 [Href ->]%nlift_ok.
  apply steps_bind; [apply nsteps_lift|]. intros reference' s4 [->%of_option_ok ->]%nlift_ok.
  apply steps_bind; [apply nsteps_lift|]. intros [] s5 [_ ->]%nlift_ok.
  apply steps_bind; [|intros n s6 _; apply nsteps_lift].
  apply steps_update_input. intros old Hold Hv _ _.
  apply input_read_ok in Hfound as [Hcur _]. rewrite Hold in Hcur. injection Hcur as <-.
  apply (decided_step old decision); [by eapply ni_reference_entry | by destruct (ni_verdict old)].
Qed.
#[export] Hint Resolve nsteps_commit_context nsteps_settle_verdict : nsteps.

Lemma nsteps_insert_member m : 0 <= tm_attempt m <= 1 -> nsteps (insert_member m).
Proof.
  intros Ha s. apply steps_statement. intros [] t H. right. ok_inv. apply member_step; try done.
  by destruct (triage_members _ !! _).
Qed.

Lemma nsteps_record_members i attempt ordinal assignments :
  0 <= attempt <= 1 -> nsteps (record_members i attempt ordinal assignments).
Proof.
  intros Ha. revert ordinal. induction assignments as [|c rest IH]; intros ordinal; simpl; nsteps.
  by apply nsteps_insert_member.
Qed.

(** *** Checks *)

Lemma nsteps_owner_require fields process owner lookup : nsteps (participant_owner_require fields process owner lookup).
Proof. unfold participant_owner_require, participant_get. nsteps. Qed.
Lemma nsteps_require_sources stage i : nsteps (stage_require_sources stage i).
Proof. unfold stage_require_sources. nsteps. Qed.
Lemma nsteps_require_phase stage c : nsteps (require_phase stage c).
Proof. unfold require_phase, require_fence. nsteps. Qed.
#[export] Hint Resolve nsteps_owner_require nsteps_require_sources nsteps_require_phase : nsteps.
Lemma nsteps_require_claim stage : nsteps (require_claim stage).
Proof. unfold require_claim, assignment_get. nsteps. Qed.
Lemma nsteps_pending_input fields process stage owner i digest : nsteps (pending_input fields process stage owner i digest).
Proof. unfold pending_input. nsteps. Qed.
Lemma nsteps_require_reservation stage owner i digest : nsteps (require_reservation stage owner i digest).
Proof. unfold require_reservation. nsteps. Qed.
Lemma nsteps_require_bound_prompt stage owner i root prompt : nsteps (require_bound_prompt stage owner i root prompt).
Proof. unfold require_bound_prompt. nsteps. Qed.
#[export] Hint Resolve nsteps_require_claim nsteps_pending_input nsteps_require_reservation nsteps_require_bound_prompt
  : nsteps.
Lemma nsteps_require_acknowledgement stage : nsteps (require_acknowledgement stage).
Proof. unfold require_acknowledgement, require_fence. nsteps. Qed.
Lemma nsteps_reserve_claim stage attempt : nsteps (reserve_claim stage attempt).
Proof. unfold reserve_claim, reserve_triage_claim, assignment_get, require_fence. nsteps. Qed.
Lemma nsteps_current_rows assignments : nsteps (current_rows assignments).
Proof. induction assignments as [|c rest IH]; simpl; unfold assignment_get; nsteps. Qed.
Lemma nsteps_fail_claim c : nsteps (fail_claim c).
Proof. unfold fail_claim, assignment_get. nsteps. Qed.
Lemma nsteps_burn_claim c : nsteps (burn_claim c).
Proof. unfold burn_claim, assignment_get. nsteps. Qed.
Lemma nsteps_triage_settle decision c : nsteps (triage_settle decision c).
Proof. unfold triage_settle. nsteps. Qed.
#[export] Hint Resolve nsteps_require_acknowledgement nsteps_reserve_claim nsteps_current_rows nsteps_fail_claim
  nsteps_burn_claim nsteps_triage_settle : nsteps.

(** *** Operations *)

Lemma reserve_claim_attempt stage attempt s u s' :
  reserve_claim stage attempt s = (Ok u, s') -> 0 <= attempt <= 1.
Proof.
  unfold reserve_claim. destruct stage; intros H; n_inv.
  - apply require_ok_any in H0. apply orb_true_iff in H0 as [?|?]; bools; lia.
  - apply refuse_ok in H0. bools. lia.
Qed.

Lemma nsteps_native_reserve fields process stage owner digest attempt i :
  nsteps (native_reserve fields process stage owner digest attempt i).
Proof.
  intros s. apply steps_writing. apply steps_bind; [apply nsteps_lift|]. intros lookup s1 _.
  apply steps_bind; [apply nsteps_owner_require|]. intros [] s2 _.
  apply steps_bind; [apply nsteps_reserve_claim|]. intros [] s3 Ha%reserve_claim_attempt.
  apply steps_bind; [apply nsteps_reserve_row|]. intros [] s4 _.
  apply steps_bind; [|intros [] s5 _; apply nsteps_ret].
  revert s4. change (nsteps (record_sources stage i attempt)). unfold record_sources. nsteps.
  by apply nsteps_record_members.
Qed.

Lemma nsteps_start_once fields process boundary stage registered owner i digest root prompt identity :
  identity_valid identity ->
  nsteps (start_once fields process boundary stage registered owner i digest root prompt identity).
Proof. intros Hid. unfold start_once. nsteps. Qed.

Lemma nsteps_acknowledge_context fields process stage owner i digest c :
  context_valid c = true -> nsteps (acknowledge_context fields process stage owner i digest c).
Proof. intros Hc. unfold acknowledge_context. nsteps. Qed.

Lemma nsteps_fail_decision fields process assignments owner i digest c :
  context_valid c = true -> nsteps (fail_decision fields process assignments owner i digest c).
Proof. intros Hc. unfold fail_decision. nsteps. Qed.

Lemma nsteps_burn_turn fields process assignments owner i digest c :
  context_valid c = true -> nsteps (burn_turn fields process assignments owner i digest c).
Proof. intros Hc. unfold burn_turn. nsteps. Qed.

Lemma nsteps_triage_commit fields process assignments owner i digest c decision :
  context_valid c = true -> nsteps (triage_commit fields process assignments owner i digest c decision).
Proof. intros Hc. unfold triage_commit, assignment_get. nsteps. Qed.

Lemma nsteps_record_failed_context fields process assignments progress owner i digest c :
  context_valid c = true -> nsteps (record_failed_context fields process assignments progress owner i digest c).
Proof. intros Hc. unfold record_failed_context, require_fence. nsteps. Qed.

Lemma nsteps_durable_fail_terminal progress failure : nsteps (durable_fail_terminal progress failure).
Proof. unfold durable_fail_terminal. nsteps. all: unfold require_fence; stepwise. Qed.

Lemma nsteps_full_fail_terminal fields process assignments progress owner i digest c failure :
  context_valid c = true -> nsteps (full_fail_terminal fields process assignments progress owner i digest c failure).
Proof.
  intros Hc. unfold full_fail_terminal. apply nsteps_bind; [by apply nsteps_record_failed_context|].
  intros _. apply nsteps_durable_fail_terminal.
Qed.

Lemma nsteps_consume slot call : nsteps (consume_selected_slot slot call).
Proof.
  intros s. apply steps_writing, steps_statement. intros [] t H. right. ok_inv. apply consume_step.
  by destruct (tool_slots _ !! _).
Qed.

Lemma nsteps_terminal slot call : nsteps (record_selected_terminal slot call).
Proof.
  intros s. apply steps_writing. apply steps_bind; [apply nsteps_read|]. intros row s1 [_ ->]%nread_ok.
  apply steps_bind; [apply nsteps_lift|]. intros [] s2 [_ ->]%nlift_ok.
  apply steps_bind; [apply nsteps_lift|]. intros state s3 [Hstate ->]%nlift_ok.
  apply steps_bind; [|intros n s4 _; apply nsteps_lift].
  apply steps_statement. intros n t H. destruct (tool_slots (ns_tables s) !! slot) as [old|] eqn:Hold; [|by ok_inv; left].
  destruct (bool_decide _) eqn:E; ok_inv; [right | by left].
  destruct (sl_state row) eqn:Er; simpl in Hstate; simplify_eq. bools.
  by apply terminal_step.
Qed.

Lemma nsteps_advance_cursor fields owner leased ob registry root bus captured coverage :
  nsteps (advance_cursor fields owner leased ob registry root bus captured coverage).
Proof.
  intros s. unfold steps_from. destruct (advance_cursor _ _ _ _ _ _ _ _ _ s) as [[state|e] s'] eqn:E.
  - apply advance_cursor_ok in E as (proof & _ & Hcov & [[-> _]|(_ & _ & -> & -> & Hs & Hacc)]); [apply rtc_refl|].
    apply coverage_recorded in Hcov as [Hrec _]; [|done]. by apply rtc_once, native_step, cursor_step.
  - unfold advance_cursor, nlift, mbind at 1, NM_bind at 1 in E. destruct (coverage_proof coverage) as [proof|x].
    + apply n_writing_err in E as (Hd & Ht & Hb). unfold world. simpl. rewrite Hd, Ht, Hb. apply rtc_refl.
    + injection E as _ <-. apply rtc_refl.
Qed.

(** The binding is inserted where none was: nothing else writes the sidecar meanwhile. *)
Lemma nsteps_bind_prompt fields process stage owner i prompt : nsteps (bind_expected_prompt fields process stage owner i prompt).
Proof.
  intros s. unfold bind_expected_prompt. apply steps_bind; [apply nsteps_lift|]. intros [] s0 [_ ->]%nlift_ok.
  apply steps_bind.
  { apply steps_writing. revert s. match goal with |- forall s, steps_from ?m s => change (nsteps m) end. nsteps. }
  intros expected s1 H. n_inv. simpl in *.
  apply steps_bind; [|intros [] s2 _; apply nsteps_ret].
  unfold steps_from, publish_binding, world. simpl. apply rtc_once, bound_step. simpl.
  match goal with Hb : Ok (present _) = Ok ?b, Hr : refuse ?b _ = Ok _ |- _ =>
    injection Hb as <-; apply refuse_ok in Hr end.
  by destruct (ns_bindings _ !! i).
Qed.

(** ** What every step keeps *)

(** [r'] is [r] later: what the reservation says is frozen and what was recorded stays. *)
Definition kept {A : Type} (old new : option A) : Prop := forall a, old = Some a -> new = Some a.

Record input_later (r r' : NativeRuntimeInput) : Prop := mkInputLater {
  later_id : ni_id r' = ni_id r;
  later_stage : ni_stage r' = ni_stage r;
  later_execution : ni_execution_id r' = ni_execution_id r;
  later_ordinal : ni_attempt_ordinal r' = ni_attempt_ordinal r;
  later_owner : ni_owner r' = ni_owner r;
  later_generation : ni_generation r' = ni_generation r;
  later_token : ni_token r' = ni_token r;
  later_sent : kept (ni_sent r) (ni_sent r');
  later_session : kept (ni_session r) (ni_session r');
  later_file : kept (ni_file r) (ni_file r');
  later_entry : kept (ni_entry r) (ni_entry r');
  later_start : kept (ni_start r) (ni_start r');
  later_request : kept (ni_request r) (ni_request r');
  later_digest : kept (ni_digest r) (ni_digest r');
  later_committed : kept (ni_committed r) (ni_committed r');
  later_verdict : kept (ni_verdict r) (ni_verdict r');
}.

Lemma kept_refl {A : Type} (a : option A) : kept a a.
Proof. by intros x. Qed.
Lemma kept_trans {A : Type} (a b c : option A) : kept a b -> kept b c -> kept a c.
Proof. intros H1 H2 x Hx. auto. Qed.
Lemma kept_write_once {A : Type} `{!EqDecision A} (old new : option A) :
  write_once_violation old new = false -> kept old new.
Proof. intros H a ->. by apply write_once_ok in H. Qed.
#[export] Hint Resolve kept_refl kept_trans : nsteps.

Lemma input_later_refl r : input_later r r.
Proof. constructor; auto with nsteps. Qed.
Lemma input_later_trans r1 r2 r3 : input_later r1 r2 -> input_later r2 r3 -> input_later r1 r3.
Proof. intros [] []. constructor; [congruence..| | | | | | | | |]; eauto with nsteps. Qed.

Lemma guard_later old new : input_update_guard old new = false -> input_later old new.
Proof.
  unfold input_update_guard. intros H. apply orb_false_iff in H as [H _]. apply orb_false_iff in H as [Hf Hw].
  apply frozen_violation_ok in Hf. rewrite !Forall_cons, !is_not_false in Hf.
  destruct Hf as (? & ? & ? & ? & ? & ? & ? & _). bools. constructor; try done; by apply kept_write_once.
Qed.

(** [c'] is [c] later: neither its positions nor its fence regress, and its input is the one of
    its injected position. *)
Record cursor_later (c c' : CurrentNativeCursor) : Prop := mkCursorLater {
  later_covered : cu_covered c <= cu_covered c';
  later_injected : cu_injected c <= cu_injected c';
  later_fence : cu_generation c <= cu_generation c';
  later_claimed : cu_claimed c <= cu_claimed c';
  later_input : cu_injected c' = cu_injected c -> cu_input c' = cu_input c;
}.

Lemma cursor_later_refl c : cursor_later c c.
Proof. by constructor. Qed.
Lemma cursor_later_trans c1 c2 c3 : cursor_later c1 c2 -> cursor_later c2 c3 -> cursor_later c1 c3.
Proof.
  intros [] []. constructor; [lia..|]. intros Heq. rewrite later_input1, later_input0; [done | lia..].
Qed.

(** Rows are never deleted, inputs only gain facts and cursors only advance. *)
Definition tables_later (t t' : NativeTables) : Prop :=
  (forall i r, native_inputs t !! i = Some r -> exists r', native_inputs t' !! i = Some r' /\ input_later r r') /\
  triage_members t ⊆ triage_members t' /\
  (forall k x, tool_slots t !! k = Some x ->
     exists x', tool_slots t' !! k = Some x' /\ sl_call x' = sl_call x /\
       (sl_state x = AcknowledgedSlot -> sl_state x' = AcknowledgedSlot)) /\
  (forall k c, native_cursors t !! k = Some c -> exists c', native_cursors t' !! k = Some c' /\ cursor_later c c').

Lemma tables_later_refl t : tables_later t t.
Proof. split_and!; [eauto using input_later_refl | done | eauto | eauto using cursor_later_refl]. Qed.

Lemma tables_later_trans t1 t2 t3 : tables_later t1 t2 -> tables_later t2 t3 -> tables_later t1 t3.
Proof.
  intros (A1 & A2 & A3 & A4) (B1 & B2 & B3 & B4). split_and!.
  - intros i r (r' & Hr' & Hl)%A1. apply B1 in Hr' as (r2 & ? & ?). eauto using input_later_trans.
  - by etrans.
  - intros k x (x' & Hx' & Hc & Hs)%A3. apply B3 in Hx' as (x2 & ? & ? & ?). exists x2. split_and!; [done|congruence|auto].
  - intros k c (c' & Hc' & Hl)%A4. apply B4 in Hc' as (c2 & ? & ?). eauto using cursor_later_trans.
Qed.

Lemma table_step_later d t t' : table_step d t t' -> tables_later t t'.
Proof.
  intros [r _ _ _ Hn _|i old new Hold _ Hg _|m _ Hn _ _|k call Hn|k old Hold Hst|c (_ & _ & Hg) _]; split_and!; simpl;
    eauto using input_later_refl, cursor_later_refl.
  - intros i r' Hi. destruct (decide (ni_id r = i)) as [<-|Hne]; [congruence|].
    rewrite lookup_insert_ne by done. eauto using input_later_refl.
  - intros j r' Hj. destruct (decide (i = j)) as [<-|Hne].
    + rewrite lookup_insert_eq. rewrite Hold in Hj. injection Hj as <-. eauto using guard_later.
    + rewrite lookup_insert_ne by done. eauto using input_later_refl.
  - by apply insert_subseteq.
  - intros k' x Hx. destruct (decide (k = k')) as [<-|Hne]; [congruence|]. rewrite lookup_insert_ne by done. eauto.
  - intros k' x Hx. destruct (decide (k = k')) as [<-|Hne]; [|rewrite lookup_insert_ne by done; eauto].
    rewrite lookup_insert_eq. rewrite Hold in Hx. injection Hx as <-. eauto.
  - intros k c' Hc. destruct (decide ((cu_root c, cu_recipient c) = k)) as [<-|Hne].
    + rewrite lookup_insert_eq. apply Hg, cursor_guard_ok in Hc as (_ & _ & ? & ? & ? & ? & ?). exists c. by split.
    + rewrite lookup_insert_ne by done. eauto using cursor_later_refl.
Qed.

Lemma world_later w w' :
  rtc world_step w w' ->
  rtc db_step w.1.1 w'.1.1 /\ tables_later w.1.2 w'.1.2 /\ w.2 ⊆ w'.2.
Proof.
  intros Hs. induction Hs as [w|w1 w2 w3 H12 _ (IH1 & IH2 & IH3)].
  { split_and!; [apply rtc_refl | apply tables_later_refl | done]. }
  destruct H12 as [d d' t b Hd|d t t' b Ht|d t b binding Hb]; simpl in *.
  - split_and!; [by eapply rtc_l | done | done].
  - split_and!; [done | eauto using tables_later_trans, table_step_later | done].
  - split_and!; [done | done |]. etrans; [|exact IH3]. by apply insert_subseteq.
Qed.

(** ** Invariants *)

Record tables_ok (t : NativeTables) : Prop := mkTablesOk {
  ok_keyed : forall i r, native_inputs t !! i = Some r -> ni_id r = i;
  ok_checked : forall i r, native_inputs t !! i = Some r -> input_checks r = true;
  ok_decodes : forall i r, native_inputs t !! i = Some r -> input_post_init r = Ok tt;
  ok_decided : forall i r, native_inputs t !! i = Some r -> present (ni_verdict r) = true -> present (ni_entry r) = true;
  ok_attempts : forall i j r r', native_inputs t !! i = Some r -> native_inputs t !! j = Some r' ->
    input_conflicts r r' = true -> i = j;
  ok_member_key : forall k m, triage_members t !! k = Some m -> k = (tm_input m, tm_ordinal m);
  ok_member_attempt : forall k m, triage_members t !! k = Some m -> 0 <= tm_attempt m <= 1;
  ok_member_input : forall k m, triage_members t !! k = Some m ->
    exists r, native_inputs t !! tm_input m = Some r /\ ni_stage r = TriageStage;
  ok_asks : forall k k' m m', triage_members t !! k = Some m -> triage_members t !! k' = Some m' ->
    same_ask m m' = true -> k = k';
  ok_cursor_key : forall k c, native_cursors t !! k = Some c -> k = (cu_root c, cu_recipient c);
  ok_cursor_checked : forall k c, native_cursors t !! k = Some c -> cursor_checks c = true;
  ok_cursor_recorded : forall k c, native_cursors t !! k = Some c -> recorded t c;
}.

(** What the CHECK constraints say of the recorded groups *)
Lemma checks_session r : input_checks r = true -> present (ni_session r) = true -> present (ni_sent r) = true.
Proof.
  unfold input_checks. intros H Hs. bools. rewrite Hs in *. simpl in *.
  match goal with Ho : (unless_null (ni_session r) _ && _ && _ && _) = true |- _ => bools end. done.
Qed.

Lemma checks_entry r :
  input_checks r = true -> present (ni_entry r) = true ->
  present (ni_start r) = true /\ exists session, ni_session r = Some session /\ 0 < len session.
Proof.
  unfold input_checks. intros H He. bools. rewrite He in *. simpl in *. bools.
  destruct (ni_session r) as [session|]; [|done]. simpl in *. bools. split; [done|]. eexists. split; [done|]. lia.
Qed.

Lemma post_init_ok r :
  input_post_init r = Ok tt <->
  (exists e, ni_execution r = Ok e) /\ (exists x, selected_session r = Ok x) /\ (exists x, ni_reference r = Ok x).
Proof.
  unfold input_post_init. split.
  - intros H. ok_inv. split_and!; eauto.
  - intros ((e & ->) & (x & ->) & (y & ->)). done.
Qed.

Lemma grant_decodes old claimed identity :
  input_checks old = true -> ni_sent old = None -> identity_valid identity -> input_post_init old = Ok tt ->
  input_post_init (with_grant old claimed identity) = Ok tt.
Proof.
  rewrite !post_init_ok. intros Hc Hs Hid ((e & He) & _ & (x & Hx)).
  assert (ni_entry old = None) as Hentry.
  { destruct (ni_entry old) eqn:E; [|done]. exfalso.
    destruct (checks_entry old Hc) as (_ & n & Hn & _); [by rewrite E|].
    assert (present (ni_sent old) = true) as Hp by (apply checks_session; [done | by rewrite Hn]).
    by rewrite Hs in Hp. }
  split_and!.
  - by exists e.
  - unfold selected_session, require_session_identity, with_grant. cbn. rewrite Hid. by eexists.
  - unfold ni_reference in *. cbn. rewrite Hentry in *. by exists x.
Qed.

Lemma show_decodes old c :
  input_checks (with_context old c) = true -> context_valid c = true -> input_post_init old = Ok tt ->
  input_post_init (with_context old c) = Ok tt.
Proof.
  rewrite !post_init_ok. intros Hc Hv ((e & He) & (x & Hx) & _).
  destruct (checks_entry _ Hc eq_refl) as (_ & n & Hn & Hlen). cbn in Hn.
  unfold context_valid in Hv. bools. split_and!; [by exists e | by exists x|].
  unfold ni_reference. cbn. change (ni_execution (with_context old c)) with (ni_execution old). rewrite He. cbn.
  rewrite Hn. cbn. rewrite bool_decide_eq_false_2 by (intros ->; unfold len in Hlen; simpl in Hlen; lia).
  match goal with Hi : native_integer (cx_request c) = true |- _ => rewrite Hi end. cbn. by eexists.
Qed.

Lemma step_decodes old new :
  input_step old new -> input_checks old = true -> input_checks new = true -> input_post_init old = Ok tt ->
  input_post_init new = Ok tt.
Proof.
  intros [claimed identity Hs Hid|c Hn Hsent Hv|decision He Hd] Hold Hnew Hpost.
  - by apply grant_decodes.
  - by apply show_decodes.
  - done.
Qed.

(** A step leaves the attempt an input is for. *)
Lemma conflicts_later r1 r1' r2 r2' :
  input_later r1 r1' -> input_later r2 r2' -> input_conflicts r1' r2' = input_conflicts r1 r2.
Proof.
  intros H1 H2. unfold input_conflicts.
  by rewrite (later_execution _ _ H1), (later_ordinal _ _ H1), (later_execution _ _ H2), (later_ordinal _ _ H2).
Qed.

Lemma conflicts_sym r r' : input_conflicts r r' = input_conflicts r' r.
Proof.
  unfold input_conflicts. destruct (ni_execution_id r), (ni_execution_id r'), (ni_attempt_ordinal r), (ni_attempt_ordinal r'); try done.
  rewrite Z.eqb_sym. f_equal. by apply bool_decide_ext.
Qed.

Lemma same_ask_sym m m' : same_ask m m' = same_ask m' m.
Proof. unfold same_ask. rewrite Z.eqb_sym. f_equal. by apply bool_decide_ext. Qed.

(** A recorded context is the one that stays. *)
Lemma reference_later r r' reference :
  input_later r r' -> ni_reference r = Ok (Some reference) -> ni_reference r' = Ok (Some reference).
Proof.
  intros Hl. unfold ni_reference. destruct (ni_entry r) as [entry|] eqn:He; [|intros H; ok_inv].
  rewrite (later_entry _ _ Hl _ He). intros H. ok_inv. unfold acquire_reference in *.
  destruct (ni_session r) as [n|] eqn:En; [|done]. destruct (ni_request r) as [g|] eqn:Eg; [|done].
  rewrite (later_session _ _ Hl _ En), (later_request _ _ Hl _ Eg), (later_id _ _ Hl).
  match goal with Hx : ni_execution r = Ok ?e |- _ => assert (ni_execution r' = Ok e) as -> end.
  { unfold ni_execution in *. by rewrite (later_stage _ _ Hl), (later_execution _ _ Hl), (later_ordinal _ _ Hl). }
  simpl. ok_inv. bools.
  destruct (ni_start r) eqn:E1; [|done]. destruct (ni_digest r) eqn:E2; [|done]. destruct (ni_committed r) eqn:E3; [|done].
  rewrite (later_start _ _ Hl _ E1), (later_digest _ _ Hl _ E2), (later_committed _ _ Hl _ E3). simpl.
  rewrite bool_decide_eq_false_2 by done.
  by match goal with Hb : native_integer g = true |- _ => rewrite Hb end.
Qed.

Lemma recorded_later t t' c :
  (forall i r, native_inputs t !! i = Some r -> exists r', native_inputs t' !! i = Some r' /\ input_later r r') ->
  recorded t c -> recorded t' c.
Proof.
  intros Hi [Hn|(reference & row & Hr & Hrow & Href & Ho & Hg & sent & Hs & Hle)]; [by left|right].
  destruct (Hi _ _ Hrow) as (row' & Hrow' & Hl). exists reference, row'.
  rewrite (later_owner _ _ Hl), (later_generation _ _ Hl). split_and!; try done; [by eapply reference_later|].
  exists sent. split; [by apply (later_sent _ _ Hl) | done].
Qed.

Lemma reserve_ok t r :
  tables_ok t -> fresh r -> input_post_init r = Ok tt -> input_checks r = true ->
  native_inputs t !! ni_id r = None -> map_exists (input_conflicts r) (native_inputs t) = false ->
  tables_ok (with_inputs (<[ni_id r := r]> (native_inputs t)) t).
Proof.
  intros [] Hf Hp Hc Hn Hu. constructor; simpl; try done.
  - intros i r' [[<- <-]|[_ ?]]%lookup_insert_Some; eauto.
  - intros i r' [[<- <-]|[_ ?]]%lookup_insert_Some; eauto.
  - intros i r' [[<- <-]|[_ ?]]%lookup_insert_Some; eauto.
  - intros i r' [[<- <-]|[_ ?]]%lookup_insert_Some; eauto.
    destruct Hf as (_ & _ & _ & _ & _ & _ & _ & _ & ->). done.
  - intros i j r1 r2 [[<- <-]|[_ H1]]%lookup_insert_Some [[<- <-]|[_ H2]]%lookup_insert_Some Hx; eauto.
    + rewrite (map_exists_false _ _ _ _ Hu H2) in Hx. done.
    + rewrite conflicts_sym, (map_exists_false _ _ _ _ Hu H1) in Hx. done.
  - intros k m Hm. destruct (ok_member_input0 k m Hm) as (r' & Hr' & Hst). exists r'. split; [|done].
    rewrite lookup_insert_ne; [done|]. intros Heq. by rewrite <- Heq, Hn in Hr'.
  - intros k c Hk. apply (recorded_later t); [|eauto]. intros i r' Hi. exists r'. split; [|apply input_later_refl].
    simpl. rewrite lookup_insert_ne; [done|]. intros Heq. by rewrite <- Heq, Hn in Hi.
Qed.

Lemma input_change_ok t i old new :
  tables_ok t -> native_inputs t !! i = Some old -> input_step old new -> input_update_guard old new = false ->
  input_checks new = true -> tables_ok (with_inputs (<[i := new]> (native_inputs t)) t).
Proof.
  intros [] Hold Hstep Hg Hc. pose proof (guard_later _ _ Hg) as Hl.
  constructor; simpl; try done.
  - intros j r [[<- <-]|[_ ?]]%lookup_insert_Some; [rewrite (later_id _ _ Hl)|]; eauto.
  - intros j r [[<- <-]|[_ ?]]%lookup_insert_Some; eauto.
  - intros j r [[<- <-]|[_ ?]]%lookup_insert_Some; eauto using step_decodes.
  - intros j r [[<- <-]|[_ ?]]%lookup_insert_Some Hv; [|eauto].
    destruct Hstep; simpl in *; [eauto | done | done].
  - assert (forall j r, <[i := new]> (native_inputs t) !! j = Some r ->
              exists r0, native_inputs t !! j = Some r0 /\ input_later r0 r) as Hback.
    { intros j r [[<- <-]|[_ ?]]%lookup_insert_Some; eauto using input_later_refl. }
    intros j k r1 r2 (r1' & H1 & L1)%Hback (r2' & H2 & L2)%Hback Hx.
    rewrite (conflicts_later _ _ _ _ L1 L2) in Hx. eauto.
  - intros k m Hm. destruct (ok_member_input0 k m Hm) as (r & Hr & Hst).
    destruct (decide (i = tm_input m)) as [->|Hne].
    + rewrite lookup_insert_eq. rewrite Hold in Hr. injection Hr as ->. exists new.
      split; [done|]. by rewrite (later_stage _ _ Hl).
    + rewrite lookup_insert_ne by done. eauto.
  - intros k c Hk. apply (recorded_later t); [|eauto]. intros j r Hj. simpl. destruct (decide (i = j)) as [<-|Hne].
    + rewrite lookup_insert_eq. rewrite Hold in Hj. injection Hj as <-. eauto.
    + rewrite lookup_insert_ne by done. eauto using input_later_refl.
Qed.

Lemma member_ok d t m :
  tables_ok t -> triage_member_guard d t m = false -> triage_members t !! (tm_input m, tm_ordinal m) = None ->
  map_exists (same_ask m) (triage_members t) = false -> 0 <= tm_attempt m <= 1 ->
  tables_ok (with_members (<[(tm_input m, tm_ordinal m) := m]> (triage_members t)) t).
Proof.
  intros [] Hg Hn Hu Ha. constructor; simpl; try done.
  - intros k m' [[<- <-]|[_ ?]]%lookup_insert_Some; eauto.
  - intros k m' [[<- <-]|[_ ?]]%lookup_insert_Some; eauto.
  - intros k m' [[<- <-]|[_ ?]]%lookup_insert_Some; [|eauto].
    unfold triage_member_guard in Hg. destruct (native_inputs t !! tm_input m) as [r|]; [|done].
    bools. eauto.
  - intros k k' m1 m2 [[<- <-]|[_ H1]]%lookup_insert_Some [[<- <-]|[_ H2]]%lookup_insert_Some Hx; eauto.
    + rewrite (map_exists_false _ _ _ _ Hu H2) in Hx. done.
    + rewrite same_ask_sym, (map_exists_false _ _ _ _ Hu H1) in Hx. done.
Qed.

Lemma cursor_ok d t c :
  tables_ok t -> cursor_accepted d t c -> recorded t c ->
  tables_ok (with_cursors (<[(cu_root c, cu_recipient c) := c]> (native_cursors t)) t).
Proof.
  intros [] (Hc & _ & _) Hr. constructor; simpl; try done.
  all: intros k c' [[<- <-]|[_ Hk]]%lookup_insert_Some; [done | eauto].
Qed.

Lemma table_step_ok d t t' : table_step d t t' -> tables_ok t -> tables_ok t'.
Proof.
  intros [r ? ? ? ? ?|i old new ? ? ? ?|m ? ? ? ?|k call Hn|k old Hold Hst|c ? ?] Hok.
  - by apply reserve_ok.
  - by eapply input_change_ok.
  - by eapply member_ok.
  - by destruct Hok; constructor.
  - by destruct Hok; constructor.
  - by eapply cursor_ok.
Qed.

Lemma world_steps_ok w w' : rtc world_step w w' -> tables_ok w.1.2 -> tables_ok w'.1.2.
Proof.
  intros Hs. induction Hs as [|w1 w2 w3 H12 _ IH]; [done|]. intros Hok. apply IH.
  destruct H12; simpl in *; eauto using table_step_ok.
Qed.

Lemma no_rows_ok : tables_ok no_native_rows.
Proof. by constructor; simpl; intros *; rewrite ?lookup_empty. Qed.
