(* ===== verification/NativeFacts.v ===== *)
(** * What a native send does

    The checks of a send read and change nothing; a reservation, a grant, an acknowledged
    context and a settlement each change exactly the rows they say.  The results for every
    sequence of operations are in [NativeGuarantees.v]. *)

From stdpp Require Import base gmap strings list sorting.
From Stdlib Require Import ZArith Lia.
From S2P Require Import Prelude Contracts ThreadStatus Threads RegistryDocument Lifecycle WakePolicy.
From S2P Require Import AssignmentStates ResponseStates AttemptStates ExecutionStates Rows CohortRows.
From S2P Require Import TableGuards Database Session SchemaSteps SchemaInvariants Replay Stepwise.
From S2P Require Import ParticipantStore AssignmentStore Snapshot Settlement AttemptStore Fences NativeRows.
From S2P Require Import NativeSession NativeStore NativeSteps.

(** ** Reads *)

Definition reads {A : Type} (m : NM A) : Prop := forall s, (m s).2 = s.

Section reads.
Context {A B : Type}.

Lemma reads_lift (o : outcome A) : reads (nlift o).
Proof. by intros s. Qed.
Lemma reads_read (q : NativeSession -> outcome A) : reads (nread q).
Proof. by intros s. Qed.
Lemma reads_ret (a : A) : reads (mret a : NM A).
Proof. by intros s. Qed.
Lemma reads_core (q : DB -> outcome A) : reads (core (reading q)).
Proof. by intros []. Qed.
Lemma reads_bind (m : NM A) (f : A -> NM B) : reads m -> (forall a, reads (f a)) -> reads (mbind f m).
Proof.
  intros Hm Hf s. unfold mbind, NM_bind. specialize (Hm s). destruct (m s) as [[a|e] s1]; simpl in *; [|done].
  subst. apply Hf.
Qed.
Lemma reads_ok (m : NM A) s r s' : reads m -> m s = (r, s') -> s' = s.
Proof. intros Hm H. specialize (Hm s). by rewrite H in Hm. Qed.
End reads.

Lemma reads_each {A : Type} (body : A -> NM unit) xs : (forall x, reads (body x)) -> reads (n_each body xs).
Proof. intros Hb. induction xs as [|x rest IH]; simpl; [apply reads_ret | by apply reads_bind]. Qed.

Create HintDb reads discriminated.
#[export] Hint Resolve reads_lift reads_read reads_ret reads_core : reads.
Ltac reads_step :=
  match goal with
  | |- reads (mbind _ _) => apply reads_bind; [|intros ?]
  | |- reads (n_each _ _) => apply reads_each; intros ?
  | |- reads (match ?x with _ => _ end) => destruct x
  | |- _ => solve [auto with reads]
  end.
Ltac reads := repeat reads_step.

Lemma reads_owner_require fields process owner lookup : reads (participant_owner_require fields process owner lookup).
Proof. unfold participant_owner_require, participant_get. reads. Qed.
Lemma reads_require_sources stage i : reads (stage_require_sources stage i).
Proof. unfold stage_require_sources. reads. Qed.
Lemma reads_require_phase stage c : reads (require_phase stage c).
Proof. unfold require_phase, require_fence. reads. Qed.
#[export] Hint Resolve reads_owner_require reads_require_sources reads_require_phase : reads.
Lemma reads_require_claim stage : reads (require_claim stage).
Proof. unfold require_claim, assignment_get. reads. Qed.
Lemma reads_pending_input fields process stage owner i digest : reads (pending_input fields process stage owner i digest).
Proof. unfold pending_input. reads. Qed.
Lemma reads_require_reservation stage owner i digest : reads (require_reservation stage owner i digest).
Proof. unfold require_reservation. reads. Qed.
Lemma reads_require_bound_prompt stage owner i root prompt : reads (require_bound_prompt stage owner i root prompt).
Proof. unfold require_bound_prompt. reads. Qed.
#[export] Hint Resolve reads_require_claim reads_pending_input reads_require_reservation reads_require_bound_prompt : reads.

(** A successful read leaves the state to the continuation. *)
Lemma bind_reads {A B : Type} (m : NM A) (f : A -> NM B) s b s' :
  reads m -> mbind f m s = (Ok b, s') -> exists a, m s = (Ok a, s) /\ f a s = (Ok b, s').
Proof.
  intros Hm (a & s1 & Ha & Hf)%bindN_ok. pose proof (reads_ok _ _ _ _ Hm Ha). subst. eauto.
Qed.

Lemma bind_refused {A B : Type} (m : NM A) (f : A -> NM B) s :
  reads m -> is_ok (m s).1 = false -> is_ok (mbind f m s).1 = false.
Proof. intros _. unfold mbind, NM_bind. by destruct (m s) as [[a|e] s1]. Qed.

(** ** Checks *)

Lemma owner_require_ok fields process owner lookup s u s' :
  participant_owner_require fields process owner lookup s = (Ok u, s') ->
  s' = s /\ (exists person, participants (db (ns_core s)) !! lookup = Some person /\ committed person = true) /\
  owner_generations (db (ns_core s)) !! lookup = Some (mkOwnerGenerations lookup (po_generation owner)) /\
  tf_lookup fields (th_birth (po_thread owner)) = lookup /\ th_process (po_thread owner) = process /\
  require_executable (th_role (po_thread owner)) (StaleFence "cohort participant is not executable") = Ok tt.
Proof.
  intros H. split; [exact (reads_ok _ _ _ _ (reads_owner_require _ _ _ _) H)|].
  unfold participant_owner_require, participant_get in H.
  apply bindN_ok in H as (p & s1 & (c & [Hp _]%reading_ok & ->)%core_ok & H).
  apply bindN_ok in H as ([] & s2 & [H1 _]%nlift_ok & H).
  apply bindN_ok in H as ([] & s3 & [H2 _]%nlift_ok & H).
  apply bindN_ok in H as ([] & s4 & [H3 _]%nlift_ok & H). apply nlift_ok in H as [H4 _]. destruct u.
  apply refuse_ok in H1, H2, H3. bools.
  apply participant_read_at_ok in Hp as ((person & Hperson & Hc) & Hg & _).
  split_and!; try done; [exists person; split; [done|congruence] | congruence].
Qed.

Lemma ni_ownership_ok r e lookup generation :
  ni_ownership r = Ok (e, (lookup, generation)) <->
  ni_execution r = Ok e /\ ni_owner r = lookup /\ ni_generation r = generation.
Proof.
  unfold ni_ownership. destruct (ni_execution r) as [e'|x]; simpl; split.
  - by intros [= -> -> ->].
  - by intros ([= ->] & -> & ->).
  - done.
  - by intros ([=] & _).
Qed.

Lemma ni_execution_columns r e :
  ni_execution r = Ok e -> ni_stage r = execution_stage e /\
  (ni_execution_id r, ni_attempt_ordinal r) = binding_fields e.
Proof.
  unfold ni_execution, from_columns.
  destruct (ni_stage r), (ni_execution_id r), (ni_attempt_ordinal r); try done; [by intros [= <-]|].
  destruct (validate_execution_id _); [|done]. destruct (_ <? 1); [done|]. by intros [= <-].
Qed.

Lemma require_sources_ok stage i s u s' :
  stage_require_sources stage i s = (Ok u, s') ->
  source_assignment_ids (stage_execution stage) i s = Ok (ids (stage_assignments stage)) /\ s' = s.
Proof.
  unfold stage_require_sources. intros H. apply bind_reads in H as (x & [Hx _]%nread_ok & H); [|apply reads_read].
  apply nlift_ok in H as [H ->]. apply require_ok_any in H. bools. by subst.
Qed.

(** The sources that were read are the members of the input. *)
Lemma source_ids_read e i s l :
  db_reachable (db (ns_core s)) -> source_assignment_ids e i s = Ok l -> l = source_ids e i s.
Proof.
  unfold source_assignment_ids. intros Hd H. apply bind_ok_inv in H as (claims & H & [= <-]).
  apply mapM_ok in H. generalize dependent (source_ids e i s). intros l H.
  induction H as [|a c l claims Ha _ IH]; [done|]. unfold ids in *. simpl. rewrite IH. f_equal.
  apply bind_ok_inv in Ha as (o & [Ho _]%one_ok & ->%of_option_ok).
  exact (reachable_keyed _ Hd _ _ declared_claims _ _ Ho).
Qed.

(** The members of a triage input *)
Lemma member_of_source i s a :
  a ∈ source_ids TriageNativeExecution i s ->
  exists ordinal m, members s !! (i, ordinal) = Some m /\ tm_assignment m = a.
Proof.
  unfold source_ids, members_of_input. intros (m & -> & (b & Hb)%elem_of_select_rows)%list_elem_of_fmap. eauto.
Qed.

(** ** The input of a dispatch *)

Lemma pending_input_ok fields process stage owner i digest s row s' :
  pending_input fields process stage owner i digest s = (Ok row, s') ->
  s' = s /\ inputs s !! i = Some row /\ input_post_init row = Ok tt /\ ni_token row = digest /\
  exists lookup, recipient_lookup stage = Ok lookup /\
    owner_generations (db (ns_core s)) !! lookup = Some (mkOwnerGenerations lookup (po_generation owner)) /\
    ni_execution row = Ok (stage_execution stage) /\ ni_owner row = lookup /\ ni_generation row = po_generation owner /\
    source_assignment_ids (stage_execution stage) i s = Ok (ids (stage_assignments stage)).
Proof.
  intros H. split; [exact (reads_ok _ _ _ _ (reads_pending_input _ _ _ _ _ _) H)|].
  unfold pending_input in H. apply bind_reads in H as (lookup & [Hl _]%nlift_ok & H); [|auto with reads].
  apply bind_reads in H as ([] & Ho & H); [|auto with reads].
  apply owner_require_ok in Ho as (_ & _ & Hgen & _).
  apply bind_reads in H as (found & [Hf _]%nread_ok & H); [|auto with reads].
  apply bind_reads in H as (r & [->%of_option_ok _]%nlift_ok & H); [|auto with reads].
  apply bind_reads in H as ([] & [Hsrc _]%require_sources_ok & H); [|auto with reads].
  apply bind_reads in H as (actual & [Hact _]%nlift_ok & H); [|auto with reads].
  apply bind_reads in H as ([] & [Hrule _]%nlift_ok & H); [|auto with reads].
  apply bind_reads in H as ([] & [Htok _]%nlift_ok & H); [|auto with reads].
  apply nret_ok in H as [-> _]. apply require_ok_any in Htok.
  apply require_valid_ok in Hrule. apply Forall_cons in Hrule as [Hrule _]. simpl in Hrule. bools. subst actual.
  apply ni_ownership_ok in Hact as (? & ? & ?). apply input_read_ok in Hf as [? ?]. eauto 12.
Qed.

Lemma reservation_ok stage owner i digest s row s' :
  require_reservation stage owner i digest s = (Ok row, s') ->
  inputs s !! i = Some row /\ ni_token row = digest /\ ni_sent row = None /\ ni_entry row = None /\
  ni_verdict row = None /\
  exists lookup, recipient_lookup stage = Ok lookup /\ ni_execution row = Ok (stage_execution stage) /\
    ni_owner row = lookup /\ ni_generation row = po_generation owner /\
    source_assignment_ids (stage_execution stage) i s = Ok (ids (stage_assignments stage)).
Proof.
  unfold require_reservation. intros H.
  apply bind_reads in H as (found & [Hf _]%nread_ok & H); [|auto with reads].
  apply bind_reads in H as (r & [->%of_option_ok _]%nlift_ok & H); [|auto with reads].
  apply bind_reads in H as ([] & [Hsrc _]%require_sources_ok & H); [|auto with reads].
  apply bind_reads in H as (lookup & [Hl _]%nlift_ok & H); [|auto with reads].
  apply bind_reads in H as (actual & [Hact _]%nlift_ok & H); [|auto with reads].
  apply bind_reads in H as (reference & [Href _]%nlift_ok & H); [|auto with reads].
  apply bind_reads in H as ([] & [Hrules _]%nlift_ok & H); [|auto with reads].
  apply nret_ok in H as [-> _]. apply require_valid_ok in Hrules. unfold reservation_rules in Hrules.
  rewrite !Forall_cons in Hrules. simpl in Hrules. destruct Hrules as (H1 & H2 & H3 & H4 & H5 & _). bools. subst actual.
  apply ni_ownership_ok in Hact as (? & ? & ?). apply input_read_ok in Hf as [? ?].
  split_and!; try done; [by destruct (ni_sent r)| |by destruct (ni_verdict r)|eauto 10].
  destruct reference; [done|]. unfold ni_reference in Href. destruct (ni_entry r); [|done]. ok_inv.
Qed.

(** ** Writes of one input *)

Lemma update_input_ok i condition change s n s' :
  update_input i condition change s = (Ok n, s') -> n = 1 ->
  exists old, inputs s !! i = Some old /\ condition old = true /\ input_update_guard old (change old) = false /\
    input_checks (change old) = true /\
    s' = mkNativeSession (ns_core s) (with_inputs (<[i := change old]> (inputs s)) (ns_tables s)) (ns_bindings s).
Proof.
  unfold update_input. intros (t & H & ->)%statement_ok ->. unfold inputs.
  destruct (native_inputs (ns_tables s) !! i) as [old|] eqn:E; [|done].
  destruct (condition old) eqn:Ec; [|done]. cbv zeta in H. ok_inv. eauto 10.
Qed.

Lemma record_claim_ok row claimed identity s u s' :
  record_claim row claimed identity s = (Ok u, s') ->
  0 < claimed /\ exists old, inputs s !! ni_id row = Some old /\ ni_sent old = None /\
    input_checks (with_grant old claimed identity) = true /\
    s' = mkNativeSession (ns_core s)
           (with_inputs (<[ni_id row := with_grant old claimed identity]> (inputs s)) (ns_tables s)) (ns_bindings s).
Proof.
  unfold record_claim. intros H.
  apply bindN_ok in H as ([] & s1 & [_ ->]%nlift_ok & H). apply bindN_ok in H as ([] & s2 & [Hpos ->]%nlift_ok & H).
  apply bindN_ok in H as (n & s3 & Hu & H). apply nlift_ok in H as [Hn ->].
  apply require_ok_any in Hn, Hpos. bools. split; [done|].
  apply update_input_ok in Hu as (old & Hold & Hc & _ & Hchk & ->); [|done]. exists old.
  split_and!; try done. by destruct (ni_sent old).
Qed.

(** What a grant finds: the captured owner holds the registry and the coordinator generation,
    the prompt is the bound one, the input is the reserved one, never sent and never shown, for
    exactly these claims, and the claims are as the reservation left them *)
Record grant_authority (fields : ThreadFields) (boundary : SendBoundary) (stage : NativeSendStage)
    (registered : RegistryOwner) (owner : ParticipantOwner) (i digest root prompt : string) (s : NativeSession)
    (row : NativeRuntimeInput) : Prop := mkGrantAuthority {
  ga_once : sb_once boundary = true;
  ga_registry : require_snapshot fields GoalRegistryClaimCheck (sb_leased boundary) (sb_observation boundary)
    (sb_registry boundary) registered "recipient registry owner changed before native send" = Ok tt;
  ga_lookup : recipient_lookup stage = Ok (ni_owner row);
  ga_generation : owner_generations (db (ns_core s)) !! ni_owner row
                  = Some (mkOwnerGenerations (ni_owner row) (po_generation owner));
  ga_bound : exists b, ns_bindings s !! i = Some b /\ pb_root b = root /\ pb_digest b = native_request_digest prompt;
  ga_row : inputs s !! i = Some row;
  ga_token : ni_token row = digest;
  ga_unsent : ni_sent row = None /\ ni_entry row = None /\ ni_verdict row = None;
  ga_execution : ni_execution row = Ok (stage_execution stage);
  ga_row_generation : ni_generation row = po_generation owner;
  ga_sources : source_assignment_ids (stage_execution stage) i s = Ok (ids (stage_assignments stage));
  ga_claims : require_claim stage s = (Ok tt, s);
}.

Lemma bound_prompt_ok stage owner i root prompt s u s' :
  require_bound_prompt stage owner i root prompt s = (Ok u, s') ->
  s' = s /\ exists b, ns_bindings s !! i = Some b /\ pb_root b = root /\ pb_digest b = native_request_digest prompt.
Proof.
  intros H. split; [exact (reads_ok _ _ _ _ (reads_require_bound_prompt _ _ _ _ _) H)|].
  unfold require_bound_prompt in H.
  apply bind_reads in H as (found & [Hf _]%nread_ok & H); [|auto with reads]. injection Hf as Hf.
  apply bind_reads in H as (b & [->%of_option_ok _]%nlift_ok & H); [|auto with reads].
  apply bind_reads in H as (e & _ & H); [|auto with reads].
  apply bind_reads in H as (lookup & _ & H); [|auto with reads].
  apply nlift_ok in H as [H _]. apply require_valid_ok in H. unfold binding_rules in H.
  rewrite !Forall_cons in H. simpl in H. destruct H as (_ & Hr & Hd & _). bools. eauto.
Qed.

Lemma start_once_ok fields process boundary stage registered owner i digest root prompt identity s u s' :
  tables_ok (ns_tables s) ->
  start_once fields process boundary stage registered owner i digest root prompt identity s = (Ok u, s') ->
  0 < ro_claimed registered /\
  exists row, grant_authority fields boundary stage registered owner i digest root prompt s row /\
    input_checks (with_grant row (ro_claimed registered) identity) = true /\
    s' = mkNativeSession (ns_core s)
           (with_inputs (<[i := with_grant row (ro_claimed registered) identity]> (inputs s)) (ns_tables s))
           (ns_bindings s).
Proof.
  intros Hok H. unfold start_once in H.
  apply bind_reads in H as ([] & _ & H); [|auto with reads].
  apply bind_reads in H as ([] & [_ Hbound]%bound_prompt_ok & H); [|auto with reads].
  apply n_writing_ok in H as [H _].
  apply bind_reads in H as ([] & _ & H); [|auto with reads].
  apply bind_reads in H as ([] & [Honce _]%nlift_ok & H); [|auto with reads]. apply require_ok_any in Honce.
  apply bind_reads in H as ([] & [Hreg _]%nlift_ok & H); [|auto with reads].
  apply bind_reads in H as (lookup & [Hl _]%nlift_ok & H); [|auto with reads].
  apply bind_reads in H as ([] & (_ & _ & Hgen & _)%owner_require_ok & H); [|auto with reads].
  apply bind_reads in H as (row & Hrow & H); [|auto with reads].
  apply reservation_ok in Hrow as (Hrow & Htok & Hs & He & Hv & lookup' & Hl' & Hx & Ho & Hg & Hsrc).
  apply bind_reads in H as ([] & Hclaims & H); [|auto with reads].
  apply record_claim_ok in H as (Hpos & old & Hold & _ & Hchk & ->). split; [done|].
  rewrite Hl in Hl'. injection Hl' as <-. subst lookup.
  pose proof (ok_keyed _ Hok _ _ Hrow) as Hid. rewrite Hid in *.
  rewrite Hrow in Hold. injection Hold as <-. exists row. split_and!; [|done|done]. by constructor.
Qed.

(** * The settlement of a triage *)

(** What reserving, burning, failing and deciding a triage question does to its claims and to
    its input: every claim of the batch moves, each to the state the operation names. *)

Definition claims (s : NativeSession) : gmap string WakeAssignment := wake_claims (db (ns_core s)).

(** The coordinator's rows with one claim changed *)
Definition claim_written (s : NativeSession) (a : string) (new : WakeAssignment) (s' : NativeSession) : Prop :=
  db (ns_core s') = with_table (Row := WakeAssignment) (<[a := new]> (claims s)) (db (ns_core s)) /\
  ns_tables s' = ns_tables s /\ ns_bindings s' = ns_bindings s.

Lemma claim_read a s c s' :
  core (assignment_get a) s = (Ok c, s') -> s' = s /\ claims s !! a = Some c.
Proof.
  unfold assignment_get. intros (k & [H ->]%reading_ok & ->)%core_ok. apply assignment_read_ok in H as [H _].
  split; [by destruct s | done].
Qed.

(** One timed write of the claim that was just read *)
Lemma claim_write_ok (a : string) old condition change s t s1 n s' :
  claims s !! a = Some old -> condition old = true ->
  core (now (wa_updated old)) s = (Ok t, s1) ->
  core (update (Row := WakeAssignment) a condition (change t)) s1 = (Ok n, s') ->
  claim_written s a (change t old) s' /\ wa_updated old <= t.
Proof.
  intros Hold Hc (c1 & Hnow & ->)%core_ok (c2 & Hu & ->)%core_ok. simpl in *.
  apply now_ok in Hnow as (Hle & _ & Hdb & _). unfold claims in Hold. rewrite <- Hdb in Hold.
  destruct (update_row_ok _ _ _ _ _ _ _ Hu Hold Hc) as (_ & _ & Hd & _). split; [|done].
  unfold claim_written. simpl. split_and!; [|done|done]. rewrite Hd. simpl. by rewrite Hdb.
Qed.

(** A claim moved to [state] in one revision *)
Definition moved (state : AssignmentState) (old new : WakeAssignment) : Prop :=
  exists t, new = wa_progress old state t (wa_revision old + 1) /\ wa_updated old <= t.

Lemma burn_claim_ok c s u s' :
  db_reachable (db (ns_core s)) -> burn_claim c s = (Ok u, s') ->
  exists old new, claims s !! wa_id c = Some old /\ moved TriagePendingAssignment old new /\
    claim_written s (wa_id c) new s'.
Proof.
  intros Hd H. unfold burn_claim in H. apply bindN_ok in H as (old & s1 & [-> Hold]%claim_read & H).
  apply bindN_ok in H as (state & s2 & [[= <-] ->]%nlift_ok & H). apply bindN_ok in H as (t & s3 & Hnow & H).
  apply bindN_ok in H as (n & s4 & Hu & H). apply nret_ok in H as [_ ->].
  pose proof (reachable_keyed _ Hd _ _ declared_claims _ _ Hold) as Hid. simpl in Hid. rewrite Hid in Hu.
  destruct (claim_write_ok _ old _ (claim_set TriagePendingAssignment (wa_revision old + 1)) _ _ _ _ _ Hold
              (Z.eqb_refl _) Hnow Hu) as [Hw Hle].
  exists old. eexists. split_and!; [done | by exists t | done].
Qed.

Lemma deferred_state_ok c state :
  deferred_state c = Ok state -> state = DeferredAssignment (PendingDecision (assignment_mode (wa_lifecycle c))).
Proof.
  unfold deferred_state, assignment_build, interrupted_decision. intros H. ok_inv.
  apply pending_decision_ok in H0 as [_ ->]. done.
Qed.

Lemma fail_claim_ok c s u s' :
  db_reachable (db (ns_core s)) -> fail_claim c s = (Ok u, s') ->
  exists old new, claims s !! wa_id c = Some old /\
    (exists failed, preengagement (wa_lifecycle old) FailedKind = Ok failed /\ moved failed old new) /\
    claim_written s (wa_id c) new s'.
Proof.
  intros Hd H. unfold fail_claim in H. apply bindN_ok in H as (old & s1 & [-> Hold]%claim_read & H).
  apply bindN_ok in H as (state & s2 & [_ ->]%nlift_ok & H). apply bindN_ok in H as ([] & s3 & [_ ->]%nlift_ok & H).
  apply bindN_ok in H as (failed & s4 & [Hf ->]%nlift_ok & H). apply bindN_ok in H as (t & s5 & Hnow & H).
  apply bindN_ok in H as (n & s6 & Hu & H). apply nlift_ok in H as [_ ->].
  pose proof (reachable_keyed _ Hd _ _ declared_claims _ _ Hold) as Hid. simpl in Hid. rewrite Hid in Hu.
  destruct (claim_write_ok _ old _ (claim_set failed (wa_revision old + 1)) _ _ _ _ _ Hold
              (Z.eqb_refl _) Hnow Hu) as [Hw Hle].
  exists old. eexists. split_and!; [done | exists failed; split; [done | by exists t] | done].
Qed.

(** An ignored claim takes two revisions. *)
Lemma ignore_ok old s u s' :
  claims s !! wa_id old = Some old -> triage_settle IgnoreSelectedTriage old s = (Ok u, s') ->
  exists t, claim_written s (wa_id old) (wa_progress old IgnoredAssignment t (wa_revision old + 2)) s'.
Proof.
  intros Hold H. unfold triage_settle in H. apply bindN_ok in H as (t & s1 & Hnow & H).
  apply bindN_ok in H as (n & s2 & Hu & H).
  destruct (claim_write_ok _ old always (claim_set TriagePendingAssignment (wa_revision old + 1)) _ _ _ _ _ Hold
              eq_refl Hnow Hu) as [(Hd1 & Ht1 & Hb1) _].
  apply bindN_ok in H as (t' & s3 & Hnow' & H). apply bindN_ok in H as (n' & s4 & Hu' & H). apply nret_ok in H as [_ ->].
  assert (claims s2 !! wa_id old = Some (claim_set TriagePendingAssignment (wa_revision old + 1) t old)) as Hmid.
  { unfold claims. rewrite Hd1. apply lookup_insert_eq. }
  destruct (claim_write_ok _ _ always (claim_set IgnoredAssignment (wa_revision old + 2)) _ _ _ _ _ Hmid eq_refl Hnow' Hu')
    as [(Hd2 & Ht2 & Hb2) _].
  exists t'. unfold claim_written. split_and!; [|congruence|congruence].
  rewrite Hd2. unfold claims. rewrite Hd1. simpl. by rewrite insert_insert_eq.
Qed.

(** ** Loops over the claims of a batch *)

Section claim_loop.
Context (body : WakeAssignment -> NM unit) (R : WakeAssignment -> WakeAssignment -> Prop).
Context (body_steps : forall c, nsteps (body c)).
Context (body_ok : forall c s u s', db_reachable (db (ns_core s)) -> body c s = (Ok u, s') ->
  exists old new, claims s !! wa_id c = Some old /\ R old new /\ claim_written s (wa_id c) new s').

Lemma claim_loop_ok batch s u s' :
  db_reachable (db (ns_core s)) -> NoDup (ids batch) -> n_each body batch s = (Ok u, s') ->
  ns_tables s' = ns_tables s /\ ns_bindings s' = ns_bindings s /\
  db (ns_core s') = with_table (Row := WakeAssignment) (claims s') (db (ns_core s)) /\
  (forall a, a ∉ ids batch -> claims s' !! a = claims s !! a) /\
  (forall c, c ∈ batch -> exists old new, claims s !! wa_id c = Some old /\ claims s' !! wa_id c = Some new /\ R old new).
Proof.
  revert s. induction batch as [|c batch IH]; simpl; intros s Hd Hnd H.
  { apply nret_ok in H as [_ ->]. split_and!; try done; [unfold claims; by destruct (db (ns_core s))|].
    intros c Hc. by apply elem_of_nil in Hc. }
  apply NoDup_cons in Hnd as [Hnot Hnd]. apply bindN_ok in H as ([] & s1 & Hc & H).
  assert (db_reachable (db (ns_core s1))) as Hd1.
  { pose proof (body_steps c s) as Hs. unfold steps_from in Hs. rewrite Hc in Hs.
    apply world_later in Hs as (Hs & _). by eapply reachable_steps. }
  destruct (body_ok _ _ _ _ Hd Hc) as (old & new & Hold & HR & Hdb & Ht & Hb).
  destruct (IH _ Hd1 Hnd H) as (Ht' & Hb' & Hdb' & Hframe & Hrows).
  assert (forall a, a <> wa_id c -> claims s1 !! a = claims s !! a) as Hother.
  { intros a Ha. unfold claims. rewrite Hdb. simpl. by rewrite lookup_insert_ne by congruence. }
  split_and!; [congruence | congruence | by rewrite Hdb', Hdb | |].
  - intros a Ha. apply not_elem_of_cons in Ha as [Ha1 Ha2]. rewrite Hframe by done. by apply Hother.
  - intros c' [->|Hc']%elem_of_cons.
    + exists old, new. split_and!; [done| |done]. rewrite Hframe by done. unfold claims. rewrite Hdb. apply lookup_insert_eq.
    + destruct (Hrows _ Hc') as (old' & new' & Hold' & ? & ?). exists old', new'. split_and!; [|done|done].
      rewrite <- Hold'. symmetry. apply Hother. intros Heq. apply Hnot. rewrite <- Heq. unfold ids. by apply list_elem_of_fmap_2.
Qed.
End claim_loop.

(** ** Checked claims *)

Lemma each_reads {A : Type} (body : A -> NM unit) xs s u s' :
  (forall x, reads (body x)) -> n_each body xs s = (Ok u, s') -> forall x, x ∈ xs -> body x s = (Ok tt, s).
Proof.
  intros Hb. induction xs as [|y xs IH]; simpl; intros H x Hx; [by apply elem_of_nil in Hx|].
  apply bind_reads in H as ([] & Hy & H); [|apply Hb]. apply elem_of_cons in Hx as [->|Hx]; [done | by apply IH].
Qed.

Lemma find_by_id (batch : list WakeAssignment) c found :
  NoDup (ids batch) -> c ∈ batch -> List.find (fun row => bool_decide (wa_id row = wa_id c)) batch = Some found -> found = c.
Proof.
  intros Hnd Hc [Hf Heq]%find_some_spec. bools.
  apply list_elem_of_lookup in Hc as [j Hj], Hf as [k Hk].
  assert (j = k) as ->; [|congruence].
  eapply (NoDup_lookup (ids batch)); [done| |]; unfold ids; rewrite list_lookup_fmap.
  - by rewrite Hj.
  - rewrite Hk. simpl. by rewrite Heq.
Qed.

(** A checked triage claim is the captured one, deferred in its next revision. *)
Lemma triage_claims_checked assignments s u s' c :
  db_reachable (db (ns_core s)) -> NoDup (ids assignments) ->
  require_claim (TriageNativeSend assignments) s = (Ok u, s') -> c ∈ assignments ->
  exists current, claims s !! wa_id c = Some current /\ wa_revision current = wa_revision c + 1 /\
    wa_lifecycle current = DeferredAssignment (PendingDecision (assignment_mode (wa_lifecycle c))).
Proof.
  intros Hd Hnd H Hc. unfold require_claim in H.
  eapply each_reads in H; [|intros x; unfold assignment_get; reads|exact Hc]. cbv beta in H.
  apply bindN_ok in H as (current & s1 & [-> Hcur]%claim_read & H).
  apply bindN_ok in H as ([] & s2 & [Hrules ->]%nlift_ok & H).
  apply require_valid_ok in Hrules. unfold claim_rules in Hrules. rewrite !Forall_cons in Hrules. simpl in Hrules.
  destruct Hrules as (_ & _ & _ & _ & Hmode & _). bools.
  unfold require_phase in H. apply bindN_ok in H as (state & s3 & [->%deferred_state_ok ->]%nlift_ok & H).
  apply bindN_ok in H as (captured & s4 & [Hf%of_option_ok ->]%nlift_ok & H). apply nlift_ok in H as [H _].
  pose proof (reachable_keyed _ Hd _ _ declared_claims _ _ Hcur) as Hid. simpl in Hid. rewrite Hid in Hf.
  apply find_by_id in Hf as ->; [|done|done]. apply refuse_ok in H. bools. exists current.
  split_and!; try done. congruence.
Qed.

(** ** Contexts and verdicts *)

(** Only the facts of one input changed. *)
Definition input_written (s : NativeSession) (i : string) (new : NativeRuntimeInput) (s' : NativeSession) : Prop :=
  ns_core s' = ns_core s /\ ns_bindings s' = ns_bindings s /\
  ns_tables s' = with_inputs (<[i := new]> (inputs s)) (ns_tables s).

(** The row of an input with the context of an answer: a context that was recorded stays. *)
Definition context_recorded (row : NativeRuntimeInput) (c : NativeContextProof) : NativeRuntimeInput :=
  if present (ni_entry row) then row else with_context row c.

Lemma commit_context_ok row c s u s' :
  inputs s !! ni_id row = Some row -> commit_context row c s = (Ok u, s') ->
  input_written s (ni_id row) (context_recorded row c) s' /\ present (ni_entry (context_recorded row c)) = true /\
  input_later row (context_recorded row c).
Proof.
  intros Hrow H. unfold commit_context in H.
  apply bind_reads in H as ([] & _ & H); [|auto with reads]. apply bind_reads in H as (id & _ & H); [|auto with reads].
  apply bind_reads in H as ([] & _ & H); [|auto with reads].
  apply bind_reads in H as (reference & [Href _]%nlift_ok & H); [|auto with reads].
  destruct reference as [reference|].
  - apply bind_reads in H as (proof & _ & H); [|auto with reads]. apply nlift_ok in H as [_ ->].
    apply ni_reference_entry in Href. unfold context_recorded. rewrite Href. split_and!; [|done|apply input_later_refl].
    unfold input_written, inputs. split_and!; [done|done|]. destruct s as [k [a b d e] bi]. simpl in *.
    unfold with_inputs. simpl. by rewrite insert_id.
  - unfold write_context in H. apply bindN_ok in H as (n & s1 & Hu & H). apply nlift_ok in H as [Hn ->].
    apply require_ok_any in Hn. bools. apply update_input_ok in Hu as (old & Hold & Hc & Hg & _ & ->); [|done].
    rewrite Hrow in Hold. injection Hold as <-. unfold context_recorded.
    replace (present (ni_entry row)) with false by (by destruct (ni_entry row)).
    split_and!; try done. by apply (guard_later row).
Qed.

Lemma settle_verdict_ok row decision s u s' :
  settle_verdict row decision s = (Ok u, s') ->
  exists old, inputs s !! ni_id row = Some old /\ ni_verdict old = None /\ present (ni_entry old) = true /\
    input_written s (ni_id row) (with_verdict old decision) s'.
Proof.
  intros H. unfold settle_verdict in H.
  apply bind_reads in H as (found & [Hf _]%nread_ok & H); [|auto with reads].
  apply bind_reads in H as (current & [->%of_option_ok _]%nlift_ok & H); [|auto with reads].
  apply bind_reads in H as (reference & [Href _]%nlift_ok & H); [|auto with reads].
  apply bind_reads in H as (reference' & [->%of_option_ok _]%nlift_ok & H); [|auto with reads].
  apply bind_reads in H as ([] & _ & H); [|auto with reads].
  apply bindN_ok in H as (n & s1 & Hu & H). apply nlift_ok in H as [Hn ->]. apply require_ok_any in Hn. bools.
  apply update_input_ok in Hu as (old & Hold & Hc & _ & _ & ->); [|done].
  apply input_read_ok in Hf as [Hf _]. rewrite Hold in Hf. injection Hf as <-. exists old.
  split_and!; try done; [by destruct (ni_verdict old) | by eapply ni_reference_entry].
Qed.

(** ** Asks *)

(** A reserved claim was not asked about in this attempt or a later one. *)
Lemma reserve_loop_unasked attempt batch s u s' :
  n_each (reserve_triage_claim attempt) batch s = (Ok u, s') ->
  ns_tables s' = ns_tables s /\
  forall c m k, c ∈ batch -> members s !! k = Some m -> tm_assignment m = wa_id c -> tm_attempt m < attempt.
Proof.
  revert s. induction batch as [|c batch IH]; simpl; intros s H.
  { apply nret_ok in H as [_ ->]. split; [done|]. intros c m k Hc. by apply elem_of_nil in Hc. }
  apply bindN_ok in H as ([] & s1 & Hc & H). destruct (IH _ H) as [Ht Hrest].
  assert (ns_tables s1 = ns_tables s /\ forall m k, members s !! k = Some m -> tm_assignment m = wa_id c -> tm_attempt m < attempt)
    as [Ht1 Hfirst].
  { unfold reserve_triage_claim in Hc. apply bindN_ok in Hc as (current & s2 & [-> _]%claim_read & Hc).
    apply bind_reads in Hc as (selectable & _ & Hc); [|reads].
    apply bind_reads in Hc as ([] & _ & Hc); [|auto with reads].
    apply bind_reads in Hc as (reserved & [[= Hr] _]%nread_ok & Hc); [|auto with reads].
    apply bind_reads in Hc as ([] & [Hno%refuse_ok _]%nlift_ok & Hc); [|auto with reads].
    apply bind_reads in Hc as (state & _ & Hc); [|auto with reads].
    apply bindN_ok in Hc as (t & s3 & (c3 & _ & ->)%core_ok & Hc).
    apply bindN_ok in Hc as (n & s4 & (c4 & _ & ->)%core_ok & Hc). apply nlift_ok in Hc as [_ ->]. split; [done|].
    intros m k Hm Ha. subst reserved. pose proof (map_exists_false _ _ _ _ Hno Hm) as Hf. simpl in Hf.
    rewrite bool_decide_eq_true_2 in Hf by done. simpl in Hf. bools. lia. }
  split; [congruence|]. intros c' m k [->|Hc']%elem_of_cons Hm Ha; [by eapply Hfirst|].
  eapply (Hrest c' m k); [done| |done]. unfold members. by rewrite Ht1.
Qed.

(** A claim that was asked about in an attempt is refused for that attempt and earlier ones. *)
Lemma asked_claim_refused fields process batch owner digest attempt i s a s' c m k :
  native_reserve fields process (TriageNativeSend batch) owner digest attempt i s = (Ok a, s') ->
  c ∈ batch -> members s !! k = Some m -> tm_assignment m = wa_id c -> tm_attempt m < attempt.
Proof.
  intros H Hc Hm Ha. unfold native_reserve in H. apply n_writing_ok in H as [H _].
  apply bind_reads in H as (lookup & _ & H); [|auto with reads].
  apply bind_reads in H as ([] & _ & H); [|auto with reads].
  apply bindN_ok in H as ([] & s1 & H & _). unfold reserve_claim in H.
  apply bind_reads in H as ([] & _ & H); [|auto with reads].
  apply reserve_loop_unasked in H as [_ H]. eauto.
Qed.

Lemma record_members_ok i attempt ordinal batch s u s' :
  record_members i attempt ordinal batch s = (Ok u, s') ->
  members s ⊆ members s' /\
  forall c, c ∈ batch -> exists o m, members s' !! (i, o) = Some m /\ tm_assignment m = wa_id c /\ tm_attempt m = attempt.
Proof.
  revert ordinal s. induction batch as [|c batch IH]; simpl; intros ordinal s H.
  { apply nret_ok in H as [_ ->]. split; [done|]. intros c Hc. by apply elem_of_nil in Hc. }
  apply bindN_ok in H as ([] & s1 & Hm & H). destruct (IH _ _ H) as [Hsub Hrest].
  assert (members s1 = <[(i, ordinal) := mkTriageNativeSource i ordinal (wa_id c) attempt]> (members s) /\
          members s !! (i, ordinal) = None) as [Hs1 Hnone].
  { unfold insert_member in Hm. apply statement_ok in Hm as (t & Hm & ->). ok_inv. simpl in *. split; [done|].
    unfold members. by destruct (triage_members _ !! _). }
  split.
  - etrans; [|exact Hsub]. rewrite Hs1. by apply insert_subseteq.
  - intros c' [->|Hc']%elem_of_cons; [|by apply Hrest]. exists ordinal, (mkTriageNativeSource i ordinal (wa_id c) attempt).
    split_and!; [|done|done]. eapply lookup_weaken; [|exact Hsub]. rewrite Hs1. apply lookup_insert_eq.
Qed.

(** A reservation of a triage leaves a member of its attempt for each of its claims. *)
Lemma reserve_members fields process batch owner digest attempt i s a s' c :
  native_reserve fields process (TriageNativeSend batch) owner digest attempt i s = (Ok a, s') -> c ∈ batch ->
  exists o m, members s' !! (i, o) = Some m /\ tm_assignment m = wa_id c /\ tm_attempt m = attempt.
Proof.
  intros H Hc. unfold native_reserve in H. apply n_writing_ok in H as [H _].
  apply bind_reads in H as (lookup & _ & H); [|auto with reads].
  apply bind_reads in H as ([] & _ & H); [|auto with reads].
  apply bindN_ok in H as ([] & s1 & _ & H). apply bindN_ok in H as ([] & s2 & _ & H).
  apply bindN_ok in H as ([] & s3 & H & Hret). apply nret_ok in Hret as [_ ->].
  unfold record_sources in H. apply bind_reads in H as ([] & _ & H); [|auto with reads].
  apply record_members_ok in H as [_ H]. by apply H.
Qed.

(** ** Settlements *)

(** The claims of the batch as the reservation left them: deferred, one revision on *)
Definition awaiting (s : NativeSession) (c : WakeAssignment) (current : WakeAssignment) : Prop :=
  claims s !! wa_id c = Some current /\ wa_revision current = wa_revision c + 1 /\
  wa_lifecycle current = DeferredAssignment (PendingDecision (assignment_mode (wa_lifecycle c))).

(** What every settlement of a triage does first *)
Lemma settlement_prefix {A : Type} fields process batch owner i digest c (k : NativeRuntimeInput -> NM A) s a s' :
  db_reachable (db (ns_core s)) -> tables_ok (ns_tables s) -> NoDup (ids batch) ->
  n_writing (
    row ← pending_input fields process (TriageNativeSend batch) owner i digest;
    _ ← require_claim (TriageNativeSend batch);
    _ ← commit_context row c;
    k row) s = (Ok a, s') ->
  exists row s1, inputs s !! i = Some row /\ ni_id row = i /\ input_written s i (context_recorded row c) s1 /\
    present (ni_entry (context_recorded row c)) = true /\
    (forall x, x ∈ batch -> exists current, awaiting s x current) /\ k row s1 = (Ok a, s').
Proof.
  intros Hd Hok Hnd [H _]%n_writing_ok.
  apply bind_reads in H as (row & Hp & H); [|auto with reads].
  apply pending_input_ok in Hp as (_ & Hrow & _). pose proof (ok_keyed _ Hok _ _ Hrow) as Hid.
  apply bind_reads in H as ([] & Hc & H); [|auto with reads].
  apply bindN_ok in H as ([] & s1 & Hctx & H).
  apply commit_context_ok in Hctx as (Hw & He & _); [|by rewrite Hid]. rewrite Hid in Hw.
  exists row, s1. split_and!; try done. intros x Hx.
  destruct (triage_claims_checked _ _ _ _ _ Hd Hnd Hc Hx) as (current & ? & ? & ?). by exists current.
Qed.

Lemma input_written_core s i new s1 :
  input_written s i new s1 ->
  db (ns_core s1) = db (ns_core s) /\ claims s1 = claims s /\ members s1 = members s /\ ns_bindings s1 = ns_bindings s /\
  inputs s1 = <[i := new]> (inputs s).
Proof. intros (Hc & Hb & Ht). unfold claims, members, inputs. rewrite Hc, Ht. done. Qed.

Lemma current_rows_ok batch s l s' :
  current_rows batch s = (Ok l, s') -> s' = s /\ Forall2 (fun c row => claims s !! wa_id c = Some row) batch l.
Proof.
  revert l s'. induction batch as [|c batch IH]; simpl; intros l s' H.
  { apply nret_ok in H as [-> ->]. by split. }
  apply bindN_ok in H as (row & s1 & [-> Hrow]%claim_read & H). apply bindN_ok in H as (rows & s2 & H & Hret).
  apply IH in H as [-> H]. apply nret_ok in Hret as [-> ->]. split; [done|]. by constructor.
Qed.

(** What an answer writes: the row of its input and claims of its batch, and nothing else of the
    session or of the coordinator's rows *)
Record answer_writes (batch : list WakeAssignment) (i : string) (new : NativeRuntimeInput) (s s' : NativeSession) : Prop := mkAnswerWrites {
  answer_tables : ns_tables s' = with_inputs (<[i := new]> (inputs s)) (ns_tables s);
  answer_bindings : ns_bindings s' = ns_bindings s;
  answer_rows : db (ns_core s') = with_table (Row := WakeAssignment) (claims s') (db (ns_core s));
  answer_claims : forall a, a ∉ ids batch -> claims s' !! a = claims s !! a;
}.

Lemma answer_input batch i new s s' : answer_writes batch i new s s' -> inputs s' !! i = Some new.
Proof. intros [Ht _ _ _]. unfold inputs. rewrite Ht. simpl. apply lookup_insert_eq. Qed.

(** A burned answer: its context is recorded, and every claim of the batch is pending again. *)
Lemma burn_turn_ok fields process batch owner i digest c s u s' :
  db_reachable (db (ns_core s)) -> tables_ok (ns_tables s) -> NoDup (ids batch) ->
  burn_turn fields process batch owner i digest c s = (Ok u, s') ->
  (exists row, inputs s !! i = Some row /\ present (ni_entry (context_recorded row c)) = true /\
     answer_writes batch i (context_recorded row c) s s') /\
  (forall x, x ∈ batch -> exists current after, awaiting s x current /\ claims s' !! wa_id x = Some after /\
     moved TriagePendingAssignment current after).
Proof.
  intros Hd Hok Hnd H. unfold burn_turn in H.
  apply settlement_prefix in H as (row & s1 & Hrow & _ & Hw & He & Hcl & H); [|done|done|done].
  pose proof Hw as (_ & _ & Htab). apply input_written_core in Hw as (Hdb & Hclaims & _ & Hb & _).
  apply (claim_loop_ok _ (moved TriagePendingAssignment) nsteps_burn_claim burn_claim_ok) in H
    as (Ht & Hb' & Hrest & Hframe & Hrows); [|by rewrite Hdb|done].
  split.
  - exists row. split_and!; try done. split; [congruence | congruence | by rewrite Hrest, Hdb|].
    intros a Ha. by rewrite Hframe, Hclaims.
  - intros x Hx. destruct (Hrows _ Hx) as (old & after & Hold & Hafter & Hmoved).
    destruct (Hcl _ Hx) as (current & Hcur & Hstate). rewrite Hclaims, Hcur in Hold. injection Hold as ->.
    exists old, after. split_and!; try done.
Qed.

(** A failed decision: its context is recorded, and every claim of the batch has failed. *)
Lemma fail_decision_ok fields process batch owner i digest c s settled s' :
  db_reachable (db (ns_core s)) -> tables_ok (ns_tables s) -> NoDup (ids batch) ->
  fail_decision fields process batch owner i digest c s = (Ok settled, s') ->
  (exists row, inputs s !! i = Some row /\ present (ni_entry (context_recorded row c)) = true /\
     answer_writes batch i (context_recorded row c) s s') /\
  Forall2 (fun c row => claims s' !! wa_id c = Some row) batch settled /\
  (forall x, x ∈ batch -> exists current after, awaiting s x current /\ claims s' !! wa_id x = Some after /\
     wa_disposition after = FailedKind /\ wa_revision after = wa_revision x + 2).
Proof.
  intros Hd Hok Hnd H. unfold fail_decision in H.
  apply settlement_prefix in H as (row & s1 & Hrow & _ & Hw & He & Hcl & H); [|done|done|done].
  pose proof Hw as (_ & _ & Htab). apply input_written_core in Hw as (Hdb & Hclaims & _ & Hb & _).
  apply bindN_ok in H as ([] & s2 & H & Hset). apply current_rows_ok in Hset as [-> Hset].
  apply (claim_loop_ok _ _ nsteps_fail_claim fail_claim_ok) in H
    as (Ht & Hb' & Hrest & Hframe & Hrows); [|by rewrite Hdb|done].
  split_and!; [|done|].
  - exists row. split_and!; try done. split; [congruence | congruence | by rewrite Hrest, Hdb|].
    intros a Ha. by rewrite Hframe, Hclaims.
  - intros x Hx. destruct (Hrows _ Hx) as (old & after & Hold & Hafter & failed & Hpre & t & -> & _).
    destruct (Hcl _ Hx) as (current & Hcur & Hrev & Hlife). rewrite Hclaims, Hcur in Hold. injection Hold as ->.
    exists old. eexists. split_and!; [done | done | | simpl; lia]. rewrite Hlife in Hpre. unfold preengagement in Hpre. cbn in Hpre.
    ok_inv. cbn in *. ok_inv. done.
Qed.

(** What a decision makes of a claim *)
Definition decided (decision : SelectedTriage) (old new : WakeAssignment) : Prop :=
  match decision with
  | IgnoreSelectedTriage => exists t, new = wa_progress old IgnoredAssignment t (wa_revision old + 2)
  | FullSelectedTriage => new = old
  end.

Lemma decide_claim_ok decision c s u s' :
  db_reachable (db (ns_core s)) ->
  (current ← core (assignment_get (wa_id c)); triage_settle decision current) s = (Ok u, s') ->
  exists old new, claims s !! wa_id c = Some old /\ decided decision old new /\ claim_written s (wa_id c) new s'.
Proof.
  intros Hd H. apply bindN_ok in H as (old & s1 & [-> Hold]%claim_read & H).
  pose proof (reachable_keyed _ Hd _ _ declared_claims _ _ Hold) as Hid. simpl in Hid.
  destruct decision.
  - apply ignore_ok in H as (t & H); [|by rewrite Hid]. rewrite Hid in H. exists old. eexists. split_and!; [done | by exists t | done].
  - apply nret_ok in H as [_ ->]. exists old, old. split_and!; [done|done|]. split_and!; [|done|done].
    unfold claims in *. rewrite insert_id by done. by destruct (db (ns_core s)).
Qed.

(** A decided triage: its context and its verdict are recorded, and every claim of the batch is
    ignored, or still deferred for the execution to engage. *)
Lemma triage_commit_ok fields process batch owner i digest c decision s settled s' :
  db_reachable (db (ns_core s)) -> tables_ok (ns_tables s) -> NoDup (ids batch) ->
  triage_commit fields process batch owner i digest c decision s = (Ok settled, s') ->
  (exists row, inputs s !! i = Some row /\ ni_verdict row = None /\ present (ni_entry (context_recorded row c)) = true /\
     answer_writes batch i (with_verdict (context_recorded row c) decision) s s') /\
  Forall2 (fun c row => claims s' !! wa_id c = Some row) batch settled /\
  (forall x, x ∈ batch -> exists current after, awaiting s x current /\ claims s' !! wa_id x = Some after /\
     decided decision current after).
Proof.
  intros Hd Hok Hnd H. unfold triage_commit in H.
  apply settlement_prefix in H as (row & s1 & Hrow & Hid & Hw & He & Hcl & H); [|done|done|done].
  pose proof Hw as (_ & _ & Htab). apply input_written_core in Hw as (Hdb & Hclaims & _ & Hb & Hin).
  apply bindN_ok in H as ([] & s2 & Hverdict & H).
  apply settle_verdict_ok in Hverdict as (old & Hold & Hnone & Hentry & Hw2). rewrite Hid in *.
  pose proof Hw2 as (_ & _ & Htab2). apply input_written_core in Hw2 as (Hdb2 & Hclaims2 & _ & Hb2 & _).
  rewrite Hin, lookup_insert_eq in Hold. injection Hold as <-.
  apply bindN_ok in H as ([] & s3 & H & Hset). apply current_rows_ok in Hset as [-> Hset].
  apply (claim_loop_ok (fun captured => current ← core (assignment_get (wa_id captured)); triage_settle decision current)
           (decided decision)) in H as (Ht & Hb' & Hrest & Hframe & Hrows).
  - split_and!.
    + exists row. split_and!; [done | | done |]; [by unfold context_recorded in Hnone; destruct (present (ni_entry row))|].
      split; [| congruence | by rewrite Hrest, Hdb2, Hdb|].
      * rewrite Ht, Htab2, Hin, Htab. unfold with_inputs. simpl. by rewrite insert_insert_eq.
      * intros a Ha. by rewrite Hframe, Hclaims2, Hclaims.
    + done.
    + intros x Hx. destruct (Hrows _ Hx) as (before & after & Hbefore & Hafter & Hdec).
      destruct (Hcl _ Hx) as (current & Hcur & Hstate). rewrite Hclaims2, Hclaims, Hcur in Hbefore. injection Hbefore as ->.
      exists before, after. split_and!; try done.
  - intros x. unfold assignment_get. nsteps.
  - intros x s4 u s5. apply decide_claim_ok.
  - by rewrite Hdb2, Hdb.
  - done.
Qed.
