(* ===== verification/NativeGuarantees.v ===== *)
(** * Guarantees of native sends

    Any number of processes run the operations of [NativeStore.v] and [NativeCursor.v], in any order, with any
    arguments; between them the coordinator's rows change by any accepted statements, and a
    process that dies leaves the transactions it committed.  A grant is the one event after
    which the bytes of a prompt may be written. *)

From stdpp Require Import base gmap strings list sorting.
From Stdlib Require Import ZArith Lia.
From S2P Require Import Prelude Contracts ThreadStatus Threads RegistryDocument Lifecycle WakePolicy.
From S2P Require Import AssignmentStates ResponseStates AttemptStates ExecutionStates Rows CohortRows.
From S2P Require Import TableGuards Database Session SchemaSteps SchemaInvariants Replay Stepwise.
From S2P Require Import ParticipantStore AssignmentStore Snapshot Settlement AttemptStore Fences NativeRows.
From S2P Require Import NativeSession NativeStore NativeCursor NativeSteps NativeFacts.

(** ** The system *)

(** The operations other than the grant, with arguments that are values of their classes *)
Inductive operation : forall A : Type, NM A -> Prop :=
| op_reserve fields process stage owner digest attempt i :
    operation string (native_reserve fields process stage owner digest attempt i)
| op_bind fields process stage owner i prompt :
    operation string (bind_expected_prompt fields process stage owner i prompt)
| op_acknowledge fields process stage owner i digest c :
    context_valid c = true -> operation unit (acknowledge_context fields process stage owner i digest c)
| op_fail_decision fields process assignments owner i digest c :
    context_valid c = true ->
    operation (list WakeAssignment) (fail_decision fields process assignments owner i digest c)
| op_burn fields process assignments owner i digest c :
    context_valid c = true -> operation unit (burn_turn fields process assignments owner i digest c)
| op_commit fields process assignments owner i digest c decision :
    context_valid c = true ->
    operation (list WakeAssignment) (triage_commit fields process assignments owner i digest c decision)
| op_failed_context fields process assignments progress owner i digest c :
    context_valid c = true ->
    operation unit (record_failed_context fields process assignments progress owner i digest c)
| op_fail_terminal fields process assignments progress owner i digest c failure :
    context_valid c = true ->
    operation RecoverySnapshot (full_fail_terminal fields process assignments progress owner i digest c failure)
| op_consume slot call : operation unit (consume_selected_slot slot call)
| op_terminal slot call : operation unit (record_selected_terminal slot call)
| op_advance fields owner leased ob registry root bus captured coverage :
    operation CursorState (advance_cursor fields owner leased ob registry root bus captured coverage).

Record Grant : Type := mkGrant {
  gr_input : string;
  gr_execution : NativeInputExecution;
  gr_sources : list string;
}.

Inductive system_step (s : NativeSession) : list Grant -> NativeSession -> Prop :=
| sys_operation A (m : NM A) : operation A m -> system_step s [] (m s).2
| sys_granted fields process boundary stage registered owner i digest root prompt identity u s' :
    identity_valid identity ->
    start_once fields process boundary stage registered owner i digest root prompt identity s = (Ok u, s') ->
    system_step s [mkGrant i (stage_execution stage) (ids (stage_assignments stage))] s'
| sys_refused fields process boundary stage registered owner i digest root prompt identity e s' :
    identity_valid identity ->
    start_once fields process boundary stage registered owner i digest root prompt identity s = (Err e, s') ->
    system_step s [] s'
| sys_elsewhere s' :
    rtc db_step (db (ns_core s)) (db (ns_core s')) -> ns_tables s' = ns_tables s -> ns_bindings s' = ns_bindings s ->
    system_step s [] s'.

Inductive system_run (s : NativeSession) : list Grant -> NativeSession -> Prop :=
| run_nil : system_run s [] s
| run_step tr1 s1 tr2 s2 : system_step s tr1 s1 -> system_run s1 tr2 s2 -> system_run s (tr1 ++ tr2) s2.

(** A session whose native rows were just created beside a coordinator *)
Definition native_start (s : NativeSession) : Prop := db_reachable (db (ns_core s)) /\ ns_tables s = no_native_rows.

(** The rows a run can find *)
Definition native_ok (s : NativeSession) : Prop := db_reachable (db (ns_core s)) /\ tables_ok (ns_tables s).

Lemma operation_steps A (m : NM A) : operation A m -> nsteps m.
Proof.
  intros []; [apply nsteps_native_reserve | apply nsteps_bind_prompt | by apply nsteps_acknowledge_context
    | by apply nsteps_fail_decision | by apply nsteps_burn_turn | by apply nsteps_triage_commit
    | by apply nsteps_record_failed_context | by apply nsteps_full_fail_terminal | apply nsteps_consume
    | apply nsteps_terminal | apply nsteps_advance_cursor].
Qed.

Lemma system_step_steps s tr s' : system_step s tr s' -> rtc world_step (world s) (world s').
Proof.
  intros [A m Hm|? ? ? ? ? ? ? ? ? ? ? ? ? Hid H|? ? ? ? ? ? ? ? ? ? ? ? ? Hid H|s1 Hd Ht Hb].
  - apply (operation_steps _ _ Hm).
  - pose proof (nsteps_start_once fields process boundary stage registered owner i digest root prompt identity Hid s) as Hs.
    unfold steps_from in Hs. by rewrite H in Hs.
  - pose proof (nsteps_start_once fields process boundary stage registered owner i digest root prompt identity Hid s) as Hs.
    unfold steps_from in Hs. by rewrite H in Hs.
  - unfold world. rewrite Ht, Hb. by apply core_steps.
Qed.

Lemma system_run_steps s tr s' : system_run s tr s' -> rtc world_step (world s) (world s').
Proof. intros H. induction H; [apply rtc_refl|]. etrans; [by eapply system_step_steps | done]. Qed.

Lemma steps_native_ok s s' : rtc world_step (world s) (world s') -> native_ok s -> native_ok s'.
Proof.
  intros Hs [Hd Ht]. pose proof (world_later _ _ Hs) as (Hsteps & _). split.
  - by eapply reachable_steps.
  - exact (world_steps_ok _ _ Hs Ht).
Qed.

Lemma native_start_ok s : native_start s -> native_ok s.
Proof. intros [Hd Ht]. split; [done|]. rewrite Ht. apply no_rows_ok. Qed.

Lemma run_native_ok s tr s' : native_start s -> system_run s tr s' -> native_ok s'.
Proof. intros Hs%native_start_ok Hrun. eapply steps_native_ok; [by eapply system_run_steps | done]. Qed.

(** ** Grants *)

(** What the rows show of a grant for ever *)
Definition shows (s : NativeSession) (g : Grant) : Prop :=
  exists row, inputs s !! gr_input g = Some row /\ present (ni_sent row) = true /\
    ni_execution row = Ok (gr_execution g) /\
    (gr_execution g = TriageNativeExecution ->
     forall a, a ∈ gr_sources g -> exists ordinal m, members s !! (gr_input g, ordinal) = Some m /\ tm_assignment m = a).

Lemma shows_later s s' g : rtc world_step (world s) (world s') -> shows s g -> shows s' g.
Proof.
  intros Hs (row & Hrow & Hsent & Hx & Hm). apply world_later in Hs as (_ & (Hi & Hmem & _) & _). simpl in *.
  destruct (Hi _ _ Hrow) as (row' & Hrow' & Hl). exists row'. split_and!; [done| | |].
  - destruct (ni_sent row) eqn:E; [|done]. by rewrite (later_sent _ _ Hl _ E).
  - unfold ni_execution in *. by rewrite (later_stage _ _ Hl), (later_execution _ _ Hl), (later_ordinal _ _ Hl).
  - intros Ht a Ha. destruct (Hm Ht a Ha) as (o & m & Hk & Ham). exists o, m. split; [|done].
    by eapply lookup_weaken.
Qed.

(** A grant marks its input, which was not marked. *)
Lemma step_shows s tr s' g :
  native_ok s -> system_step s tr s' -> g ∈ tr ->
  shows s' g /\ exists row, inputs s !! gr_input g = Some row /\ ni_sent row = None.
Proof.
  intros [Hd Hok] Hstep Hg. destruct Hstep as [A m Hm|? ? ? ? ? ? ? ? ? ? ? ? ? Hid H|? ? ? ? ? ? ? ? ? ? ? ? ? Hid H|s1 ? ? ?];
    try by apply elem_of_nil in Hg.
  apply list_elem_of_singleton in Hg as ->.
  apply start_once_ok in H as (_ & row & Hga & _ & ->); [|done].
  destruct Hga as [_ _ _ _ _ Hrow _ (Hs & _ & _) Hx _ Hsrc _]. split; [|by eexists].
  exists (with_grant row (ro_claimed registered) identity). split_and!; simpl.
  - unfold inputs. simpl. apply lookup_insert_eq.
  - done.
  - done.
  - intros Htri a Ha. rewrite Htri in Hsrc. apply source_ids_read in Hsrc; [|done].
    rewrite Hsrc in Ha. by apply member_of_source.
Qed.

Lemma run_shows s tr s' g : native_ok s -> system_run s tr s' -> g ∈ tr -> shows s' g.
Proof.
  intros Hok Hrun. revert Hok. induction Hrun as [s|s tr1 s1 tr2 s2 Hstep Hrun IH]; intros Hok Hg; [by apply elem_of_nil in Hg|].
  apply elem_of_app in Hg as [Hg|Hg].
  - destruct (step_shows _ _ _ _ Hok Hstep Hg) as [Hsh _]. eapply shows_later; [|done]. by eapply system_run_steps.
  - apply IH; [|done]. eapply steps_native_ok; [by eapply system_step_steps | done].
Qed.

(** An input that was granted is never granted again. *)
Lemma run_unsent s tr s' g :
  native_ok s -> system_run s tr s' -> g ∈ tr ->
  forall row, inputs s !! gr_input g = Some row -> ni_sent row = None.
Proof.
  intros Hok Hrun. revert Hok. induction Hrun as [s|s tr1 s1 tr2 s2 Hstep Hrun IH]; intros Hok Hg; [by apply elem_of_nil in Hg|].
  intros row Hrow. apply elem_of_app in Hg as [Hg|Hg].
  - destruct (step_shows _ _ _ _ Hok Hstep Hg) as (_ & row' & Hrow' & Hs). congruence.
  - pose proof (system_step_steps _ _ _ Hstep) as Hs.
    assert (native_ok s1) as Hok1 by by eapply steps_native_ok.
    apply world_later in Hs as (_ & (Hi & _) & _). destruct (Hi _ _ Hrow) as (row' & Hrow' & Hl).
    specialize (IH Hok1 Hg _ Hrow'). destruct (ni_sent row) eqn:E; [|done].
    by rewrite (later_sent _ _ Hl _ E) in IH.
Qed.

Lemma grants_distinct s tr s' : native_ok s -> system_run s tr s' -> NoDup (map gr_input tr).
Proof.
  intros Hok Hrun. revert Hok. induction Hrun as [s|s tr1 s1 tr2 s2 Hstep Hrun IH]; intros Hok; [constructor|].
  assert (native_ok s1) as Hok1 by (eapply steps_native_ok; [by eapply system_step_steps | done]).
  rewrite map_app. apply NoDup_app. split_and!; [| |by apply IH].
  - destruct Hstep; simpl; try constructor; [apply not_elem_of_nil | constructor].
  - intros i (g & -> & Hg)%list_elem_of_fmap (g' & Heq & Hg')%list_elem_of_fmap.
    destruct (step_shows _ _ _ _ Hok Hstep Hg) as ((row & Hrow & Hsent & _) & _).
    rewrite Heq in Hrow. by rewrite (run_unsent _ _ _ _ Hok1 Hrun Hg' _ Hrow) in Hsent.
Qed.

(** Distinct grants whose inputs all come from a list are no more than the list holds. *)
Lemma grants_bounded (tr : list Grant) (P : Grant -> Prop) `{!forall g, Decision (P g)} (allowed : list string) :
  NoDup (map gr_input tr) -> (forall g, g ∈ tr -> P g -> gr_input g ∈ allowed) ->
  (length (filter P tr) <= length allowed)%nat.
Proof.
  intros Hnd Hin. rewrite <- (length_fmap gr_input (filter P tr)). apply submseteq_length, NoDup_submseteq.
  - eapply sublist_NoDup; [exact Hnd|]. apply (fmap_sublist gr_input), sublist_filter.
  - intros i (g & -> & [HP Hg]%list_elem_of_filter)%list_elem_of_fmap. eauto.
Qed.

(** The one input of an execution attempt *)
Lemma attempt_candidate s e o :
  tables_ok (ns_tables s) -> exists allowed, (length allowed <= 1)%nat /\
    forall i row, inputs s !! i = Some row -> ni_execution row = Ok (FullNativeExecution e o) -> i ∈ allowed.
Proof.
  intros Hok.
  destruct (decide (map_Exists (fun _ r => (ni_execution_id r, ni_attempt_ordinal r) = (Some e, Some o)) (inputs s)))
    as [Hex|Hno].
  - apply map_Exists_lookup_1 in Hex as (j & r & Hj & [= He Ho]). exists [j]. split; [simpl; lia|].
    intros i row Hi [_ [= He' Ho']]%ni_execution_columns. apply list_elem_of_singleton.
    apply (ok_attempts _ Hok i j row r Hi Hj). unfold input_conflicts. rewrite He', Ho', He, Ho.
    by rewrite bool_decide_eq_true_2, Z.eqb_refl by done.
  - exists []. split; [simpl; lia|]. intros i row Hi [_ Hc]%ni_execution_columns. destruct Hno.
    eapply map_Exists_lookup_2; [exact Hi | done].
Qed.

(** The inputs that ask about a claim: at most one for each attempt *)
Lemma ask_candidate s a k :
  tables_ok (ns_tables s) -> exists allowed, (length allowed <= 1)%nat /\
    forall i o m, members s !! (i, o) = Some m -> tm_assignment m = a -> tm_attempt m = k -> i ∈ allowed.
Proof.
  intros Hok.
  destruct (decide (map_Exists (fun _ m => (tm_assignment m, tm_attempt m) = (a, k)) (members s))) as [Hex|Hno].
  - apply map_Exists_lookup_1 in Hex as ([j o'] & m' & Hj & [= Ha Hk]). exists [j]. split; [simpl; lia|].
    intros i o m Hm Ham Hkm. apply list_elem_of_singleton.
    assert ((i, o) = (j, o')) as [= -> _]; [|done].
    apply (ok_asks _ Hok _ _ m m' Hm Hj). unfold same_ask. rewrite Ham, Hkm, Ha, Hk.
    by rewrite bool_decide_eq_true_2, Z.eqb_refl by done.
  - exists []. split; [simpl; lia|]. intros i o m Hm Ham Hkm. destruct Hno.
    eapply map_Exists_lookup_2; [exact Hm | by rewrite Ham, Hkm].
Qed.

(** C5: Over any run of sends by any processes, with crashes and every other coordinator
    write in between, no reserved input is granted twice, no execution attempt is granted
    two prompts, and no claim is put to a triage model more than twice. *)
Theorem prompt_granted_once s tr s' :
  native_start s -> system_run s tr s' ->
  NoDup (map gr_input tr) /\
  (forall e o, (length (filter (fun g => gr_execution g = FullNativeExecution e o) tr) <= 1)%nat) /\
  (forall a, (length (filter (fun g => gr_execution g = TriageNativeExecution /\ a ∈ gr_sources g) tr) <= 2)%nat).
Proof.
  intros Hstart%native_start_ok Hrun. pose proof (grants_distinct _ _ _ Hstart Hrun) as Hnd.
  assert (native_ok s') as [_ Hok] by (eapply steps_native_ok; [by eapply system_run_steps | done]).
  split_and!; [done| |].
  - intros e o. destruct (attempt_candidate s' e o Hok) as (allowed & Hlen & Hin).
    etrans; [|exact Hlen]. apply grants_bounded; [done|]. intros g Hg Hx.
    destruct (run_shows _ _ _ _ Hstart Hrun Hg) as (row & Hrow & _ & He & _). apply (Hin _ row Hrow). by rewrite He, Hx.
  - intros a. destruct (ask_candidate s' a 0 Hok) as (allowed0 & Hlen0 & Hin0).
    destruct (ask_candidate s' a 1 Hok) as (allowed1 & Hlen1 & Hin1).
    trans (length (allowed0 ++ allowed1)); [|rewrite length_app; lia].
    apply grants_bounded; [done|]. intros g Hg [Hx Ha].
    destruct (run_shows _ _ _ _ Hstart Hrun Hg) as (_ & _ & _ & _ & Hm).
    destruct (Hm Hx a Ha) as (o & m & Hk & Ham). pose proof (ok_member_attempt _ Hok _ _ Hk).
    assert (tm_attempt m = 0 \/ tm_attempt m = 1) as [H0|H1] by lia; apply elem_of_app; eauto.
Qed.

(** In every session a run reaches, stored inputs decode; an input with a recorded
    context was granted to a sending claim with its session; a verdict belongs to a triage
    input whose context is recorded; and what was recorded of an input, its sources and its
    prompt binding are the same in every later session. *)
Theorem native_records_ordered s tr s' tr' s'' :
  native_start s -> system_run s tr s' -> system_run s' tr' s'' ->
  forall i row, inputs s' !! i = Some row ->
    ni_id row = i /\ input_post_init row = Ok tt /\
    (present (ni_entry row) = true -> present (ni_sent row) = true /\ present (ni_session row) = true) /\
    (present (ni_verdict row) = true -> ni_stage row = TriageStage /\ present (ni_entry row) = true) /\
    (exists row', inputs s'' !! i = Some row' /\ input_later row row') /\
    members s' ⊆ members s'' /\ ns_bindings s' ⊆ ns_bindings s''.
Proof.
  intros Hstart%native_start_ok Hrun Hrun' i row Hrow.
  assert (native_ok s') as [_ Hok] by (eapply steps_native_ok; [by eapply system_run_steps | done]).
  pose proof (ok_checked _ Hok _ _ Hrow) as Hchk.
  pose proof (world_later _ _ (system_run_steps _ _ _ Hrun')) as (_ & (Hi & Hmem & _) & Hb). simpl in *.
  split_and!; [by apply (ok_keyed _ Hok) | by apply (ok_decodes _ Hok _ _ Hrow) | | | by apply Hi | done | done].
  - intros He. destruct (checks_entry _ Hchk He) as (_ & session & Hs & _).
    assert (present (ni_session row) = true) as Hp by by rewrite Hs. split; [by apply checks_session | done].
  - intros Hv. split; [|by apply (ok_decided _ Hok _ _ Hrow)]. unfold input_checks in Hchk. bools.
    rewrite Hv in *. simpl in *. by destruct (ni_stage row).
Qed.

(** ** Refusals *)

(** An operation that raises leaves every row. *)
Definition atomic {A : Type} (m : NM A) : Prop := forall s e s', m s = (Err e, s') -> world s' = world s.

Lemma atomic_writing {A : Type} (m : NM A) : atomic (n_writing m).
Proof. intros s e s' (Hd & Ht & Hb)%n_writing_err. unfold world. congruence. Qed.

Lemma atomic_reads {A B : Type} (m : NM A) (f : A -> NM B) :
  reads m -> (forall a, atomic (f a)) -> atomic (mbind f m).
Proof.
  intros Hm Hf s e s'. unfold mbind, NM_bind. specialize (Hm s). destruct (m s) as [[a|x] s1]; simpl in Hm; subst.
  - apply Hf.
  - by intros [= _ <-].
Qed.

Lemma atomic_start_once fields process boundary stage registered owner i digest root prompt identity :
  atomic (start_once fields process boundary stage registered owner i digest root prompt identity).
Proof.
  unfold start_once. apply atomic_reads; [apply reads_lift|]. intros _.
  apply atomic_reads; [apply reads_require_bound_prompt|]. intros _. apply atomic_writing.
Qed.

Lemma atomic_bind_prompt fields process stage owner i prompt : atomic (bind_expected_prompt fields process stage owner i prompt).
Proof.
  unfold bind_expected_prompt. apply atomic_reads; [apply reads_lift|]. intros _ s e s' H.
  unfold mbind at 1, NM_bind at 1 in H. destruct (n_writing _ s) as [[b|x] s1] eqn:E; [done|].
  injection H as <- <-. by eapply atomic_writing.
Qed.

Definition refused {A : Type} (m : NM A) (s : NativeSession) : Prop :=
  exists e s', m s = (Err e, s') /\ world s' = world s.

Lemma refused_unless {A : Type} (m : NM A) s : atomic m -> (forall a s', m s <> (Ok a, s')) -> refused m s.
Proof.
  intros Hm Hno. destruct (m s) as [[a|e] s'] eqn:E; [by destruct (Hno a s')|]. exists e, s'. split; [done|]. by eapply Hm.
Qed.

(** Every operation of a stage begins by requiring the generation of its owner. *)
Definition owner_required {A : Type} (stage : NativeSendStage) (owner : ParticipantOwner) (m : NM A) : Prop :=
  forall s a s', m s = (Ok a, s') -> exists lookup, recipient_lookup stage = Ok lookup /\
    owner_generations (db (ns_core s)) !! lookup = Some (mkOwnerGenerations lookup (po_generation owner)).

Lemma pending_owner fields process stage owner i digest A (f : NativeRuntimeInput -> NM A) :
  owner_required stage owner (n_writing (mbind f (pending_input fields process stage owner i digest))).
Proof.
  intros s a s' [H _]%n_writing_ok. apply bind_reads in H as (row & Hrow & _); [|apply reads_pending_input].
  apply pending_input_ok in Hrow as (_ & _ & _ & _ & lookup & Hl & Hg & _). eauto.
Qed.

Lemma lookup_owner fields process stage owner A (f : string -> NM A) :
  owner_required stage owner (n_writing (mbind (fun lookup =>
    mbind (fun _ => f lookup) (participant_owner_require fields process owner lookup)) (nlift (recipient_lookup stage)))).
Proof.
  intros s a s' [H _]%n_writing_ok. apply bind_reads in H as (lookup & [Hl _]%nlift_ok & H); [|apply reads_lift].
  apply bindN_ok in H as ([] & s1 & (_ & _ & Hg & _)%owner_require_ok & _). eauto.
Qed.

Lemma superseded_refused {A : Type} stage owner (m : NM A) s lookup g :
  atomic m -> owner_required stage owner m -> recipient_lookup stage = Ok lookup ->
  owner_generations (db (ns_core s)) !! lookup = Some g -> po_generation owner < og_generation g -> refused m s.
Proof.
  intros Hat Hm Hl Hg Hlt. apply refused_unless; [done|]. intros a s' H.
  destruct (Hm _ _ _ H) as (lookup' & Hl' & Hg'). rewrite Hl in Hl'. injection Hl' as <-.
  rewrite Hg in Hg'. injection Hg' as ->. simpl in Hlt. lia.
Qed.

(** C23: Once the coordinator has a newer generation of a recipient, an owner captured
    before is refused for ever, without a change: it can neither reserve, bind or send a
    prompt, nor acknowledge a context or settle a decision. *)
Theorem superseded_owner_never_sends s0 tr0 s tr s' fields process stage owner lookup g :
  native_start s0 -> system_run s0 tr0 s -> system_run s tr s' -> recipient_lookup stage = Ok lookup ->
  owner_generations (db (ns_core s)) !! lookup = Some g -> po_generation owner < og_generation g ->
  (forall digest attempt i, refused (native_reserve fields process stage owner digest attempt i) s') /\
  (forall i prompt, refused (bind_expected_prompt fields process stage owner i prompt) s') /\
  (forall boundary registered i digest root prompt identity,
     refused (start_once fields process boundary stage registered owner i digest root prompt identity) s') /\
  (forall i digest c, refused (acknowledge_context fields process stage owner i digest c) s') /\
  (forall assignments i digest c, stage = TriageNativeSend assignments ->
     refused (fail_decision fields process assignments owner i digest c) s' /\
     refused (burn_turn fields process assignments owner i digest c) s' /\
     forall decision, refused (triage_commit fields process assignments owner i digest c decision) s') /\
  (forall assignments progress i digest c, stage = FullNativeSend assignments progress ->
     refused (record_failed_context fields process assignments progress owner i digest c) s').
Proof.
  intros Hstart Hrun0 Hrun Hl Hg Hlt. pose proof (run_native_ok _ _ _ Hstart Hrun0) as Hok0.
  assert (native_ok s') as [_ Hok] by (eapply steps_native_ok; [by eapply system_run_steps | done]).
  apply system_run_steps, world_later in Hrun as (Hsteps & _). simpl in Hsteps.
  destruct (generation_steps _ _ _ _ Hsteps Hg) as (g' & Hg' & Hle).
  assert (po_generation owner < og_generation g') as Hlt' by lia.
  split_and!.
  - intros. eapply superseded_refused; eauto using atomic_writing. apply lookup_owner.
  - intros. eapply superseded_refused; eauto using atomic_bind_prompt. intros s1 a s2 H.
    apply bindN_ok in H as ([] & s3 & [_ ->]%nlift_ok & H). apply bindN_ok in H as (b & s4 & H & _).
    exact (lookup_owner fields process stage owner _ _ _ _ _ H).
  - intros. apply refused_unless; [apply atomic_start_once|]. intros a s1 H.
    apply start_once_ok in H as (_ & row & [_ _ Hl1 Hg1 _ _ _ _ _ _ _ _] & _); [|done].
    rewrite Hl in Hl1. injection Hl1 as Heq. rewrite <- Heq, Hg' in Hg1. injection Hg1 as ->. simpl in Hlt'. lia.
  - intros. eapply superseded_refused; eauto using atomic_writing. apply pending_owner.
  - intros assignments i digest c ->.
    split_and!; [| |intros decision]; eapply superseded_refused; eauto using atomic_writing; apply pending_owner.
  - intros assignments progress i digest c ->. eapply superseded_refused; eauto using atomic_writing. apply pending_owner.
Qed.

(** ** Triage *)

(** C12: A grant happens only under the authority that was captured: the registry and the
    coordinator still have the owner's generations, the prompt is the one that was bound,
    the input is reserved for exactly these claims and was never sent, shown or decided.  It
    records the sending claim and the session in the row of the input, and the whole session
    is otherwise as it was; no later grant of the input succeeds. *)
Theorem grant_requires_authority s tr s' fields process boundary stage registered owner i digest root prompt identity u s1 :
  native_start s -> system_run s tr s' -> identity_valid identity ->
  start_once fields process boundary stage registered owner i digest root prompt identity s' = (Ok u, s1) ->
  (exists row, grant_authority fields boundary stage registered owner i digest root prompt s' row /\
     s1 = mkNativeSession (ns_core s')
            (with_inputs (<[i := with_grant row (ro_claimed registered) identity]> (inputs s')) (ns_tables s'))
            (ns_bindings s')) /\
  forall tr' s2, system_run s1 tr' s2 ->
  forall fields' process' boundary' stage' registered' owner' digest' root' prompt' identity',
    refused (start_once fields' process' boundary' stage' registered' owner' i digest' root' prompt' identity') s2.
Proof.
  intros Hstart Hrun Hid H. pose proof (run_native_ok _ _ _ Hstart Hrun) as Hok.
  pose proof (sys_granted _ _ _ _ _ _ _ _ _ _ _ _ _ _ Hid H) as Hstep.
  assert (native_ok s1) as Hok1 by (eapply steps_native_ok; [by eapply system_step_steps | done]).
  pose proof H as H'. apply start_once_ok in H' as (_ & row & Hga & _ & Hs1); [|apply Hok].
  split; [by exists row|].
  intros tr' s2 Hrun' fields' process' boundary' stage' registered' owner' digest' root' prompt' identity'.
  apply refused_unless; [apply atomic_start_once|]. intros u' s3 H'.
  assert (native_ok s2) as [_ Hok2] by (eapply steps_native_ok; [by eapply system_run_steps | done]).
  apply start_once_ok in H' as (_ & row' & [_ _ _ _ _ Hrow' _ (Hs & _) _ _ _ _] & _); [|done].
  apply system_run_steps, world_later in Hrun' as (_ & (Hi & _) & _). simpl in Hi.
  destruct (Hi i (with_grant row (ro_claimed registered) identity)) as (r & Hr & Hl).
  { rewrite Hs1. apply lookup_insert_eq. }
  unfold inputs in Hrow'. rewrite Hr in Hrow'. injection Hrow' as ->.
  by rewrite (later_sent _ _ Hl _ eq_refl) in Hs.
Qed.

(** C24: A claim is put to a triage model once per attempt, and the second attempt is the
    last: after a reservation every later reservation of one of its claims, by anyone, for
    the same or an earlier attempt is refused, and after the replacement every one is. *)
Theorem triage_reserved_once_per_attempt s tr s' fields process batch owner digest attempt i a s1 c :
  native_start s -> system_run s tr s' -> c ∈ batch ->
  native_reserve fields process (TriageNativeSend batch) owner digest attempt i s' = (Ok a, s1) ->
  0 <= attempt <= 1 /\
  forall tr' s2, system_run s1 tr' s2 ->
  forall fields' process' batch' owner' digest' attempt' i',
    wa_id c ∈ ids batch' -> attempt' <= attempt \/ attempt = 1 ->
    refused (native_reserve fields' process' (TriageNativeSend batch') owner' digest' attempt' i') s2.
Proof.
  intros Hstart Hrun Hc H. destruct (reserve_members _ _ _ _ _ _ _ _ _ _ _ H Hc) as (o & m & Hm & Ha & Hat).
  assert (native_ok s1) as [_ Hok1].
  { eapply steps_native_ok; [|by eapply run_native_ok].
    pose proof (nsteps_native_reserve fields process (TriageNativeSend batch) owner digest attempt i s') as Hs.
    unfold steps_from in Hs. by rewrite H in Hs. }
  pose proof (ok_member_attempt _ Hok1 _ _ Hm) as Hrange. split; [lia|].
  intros tr' s2 Hrun' fields' process' batch' owner' digest' attempt' i' (c' & Hid & Hc')%list_elem_of_fmap Hle.
  apply refused_unless; [apply atomic_writing|]. intros a' s3 H'.
  apply system_run_steps, world_later in Hrun' as (_ & (_ & Hmem & _) & _). simpl in Hmem.
  assert (members s2 !! (i, o) = Some m) as Hm2 by by eapply lookup_weaken.
  pose proof (asked_claim_refused _ _ _ _ _ _ _ _ _ _ _ _ _ H' Hc' Hm2 (eq_trans Ha Hid)) as Hlt.
  assert (0 <= attempt' <= 1); [|lia].
  apply n_writing_ok in H' as [H' _]. apply bind_reads in H' as (lookup & _ & H'); [|auto with reads].
  apply bind_reads in H' as ([] & _ & H'); [|auto with reads].
  apply bindN_ok in H' as ([] & s4 & H' & _). by apply reserve_claim_attempt in H'.
Qed.

(** C25: The answer to a triage question settles the whole batch in one transaction, which
    writes the row of its input and the claims of the batch and nothing else.  A readable
    decision is recorded once, with its context, and either ignores every claim or leaves
    every claim deferred for the execution to engage; an unreadable one that may be asked
    again records its context, where none was recorded, leaves the verdict as it was and
    returns every claim to pending; a final failure does the same with the input and fails
    every claim. *)
Theorem triage_answer_settles_batch s tr s' fields process batch owner i digest c :
  native_start s -> system_run s tr s' -> NoDup (ids batch) -> context_valid c = true ->
  (forall decision settled s1, triage_commit fields process batch owner i digest c decision s' = (Ok settled, s1) ->
     (exists row, inputs s' !! i = Some row /\ ni_verdict row = None /\ present (ni_entry (context_recorded row c)) = true /\
        answer_writes batch i (with_verdict (context_recorded row c) decision) s' s1) /\
     Forall2 (fun x row => claims s1 !! wa_id x = Some row) batch settled /\
     (forall x, x ∈ batch -> exists current after, awaiting s' x current /\ claims s1 !! wa_id x = Some after /\
        decided decision current after) /\
     forall decision', refused (triage_commit fields process batch owner i digest c decision') s1) /\
  (forall u s1, burn_turn fields process batch owner i digest c s' = (Ok u, s1) ->
     (exists row, inputs s' !! i = Some row /\ present (ni_entry (context_recorded row c)) = true /\
        answer_writes batch i (context_recorded row c) s' s1) /\
     forall x, x ∈ batch -> exists current after, awaiting s' x current /\ claims s1 !! wa_id x = Some after /\
       moved TriagePendingAssignment current after) /\
  (forall settled s1, fail_decision fields process batch owner i digest c s' = (Ok settled, s1) ->
     (exists row, inputs s' !! i = Some row /\ present (ni_entry (context_recorded row c)) = true /\
        answer_writes batch i (context_recorded row c) s' s1) /\
     Forall2 (fun x row => claims s1 !! wa_id x = Some row) batch settled /\
     forall x, x ∈ batch -> exists current after, awaiting s' x current /\ claims s1 !! wa_id x = Some after /\
       wa_disposition after = FailedKind /\ wa_revision after = wa_revision x + 2).
Proof.
  intros Hstart Hrun Hnd Hcv. destruct (run_native_ok _ _ _ Hstart Hrun) as [Hd Hok]. split_and!.
  - intros decision settled s1 H.
    destruct (triage_commit_ok _ _ _ _ _ _ _ _ _ _ _ Hd Hok Hnd H) as ((row & Hrow & Hv & He & Hw) & Hset & Hrows).
    split_and!; [by exists row | done | done |].
    intros decision'. apply refused_unless; [apply atomic_writing|]. intros settled' s2 H'.
    assert (native_ok s1) as [Hd1 Hok1].
    { eapply steps_native_ok; [|by split].
      pose proof (nsteps_triage_commit fields process batch owner i digest c decision Hcv s') as Hs.
      unfold steps_from in Hs. by rewrite H in Hs. }
    destruct (triage_commit_ok _ _ _ _ _ _ _ _ _ _ _ Hd1 Hok1 Hnd H') as ((row' & Hrow' & Hv' & _) & _).
    rewrite (answer_input _ _ _ _ _ Hw) in Hrow'. by injection Hrow' as <-.
  - intros u s1 H. by apply (burn_turn_ok _ _ _ _ _ _ _ _ _ _ Hd Hok Hnd H).
  - intros settled s1 H. by apply (fail_decision_ok _ _ _ _ _ _ _ _ _ _ Hd Hok Hnd H).
Qed.

(** * Guarantees of native cursors *)

(** The cursor of a recipient under a wire root, over every run of the system of
    [NativeGuarantees.v]: it never regresses, always names an input that reached a model, is
    written under the fence of its owner only, and an owner it has passed can not write it. *)

(** The input a cursor names: reserved for the recipient, sent and shown to a model in the
    session and request the cursor repeats, all within the fence of the cursor *)
Definition names_shown_input (s : NativeSession) (c : CurrentNativeCursor) : Prop :=
  exists i row sent, cu_input c = Some i /\ inputs s !! i = Some row /\ present (ni_entry row) = true /\
    cu_stage c = Some (ni_stage row) /\ ni_session row = cu_session c /\ ni_request row = cu_request c /\
    ni_owner row = cu_recipient c /\ ni_generation row <= cu_generation c /\ ni_sent row = Some sent /\ sent <= cu_claimed c.

Lemma acquire_reference_ok i stage session request reference :
  acquire_reference i stage session request = Ok reference ->
  i = Some (nr_input reference) /\ stage = Some (nr_stage reference) /\ session = Some (nr_session reference) /\
  request = Some (nr_request reference).
Proof.
  unfold acquire_reference. destruct i, stage, session, request; try done. intros H. ok_inv. done.
Qed.

Lemma ni_reference_ok r reference :
  ni_reference r = Ok (Some reference) ->
  present (ni_entry r) = true /\ nr_input reference = ni_id r /\ nr_stage reference = ni_stage r /\
  ni_session r = Some (nr_session reference) /\ ni_request r = Some (nr_request reference).
Proof.
  intros H. split; [by eapply ni_reference_entry|]. unfold ni_reference in H. destruct (ni_entry r); ok_inv.
  match goal with Ha : acquire_reference _ _ _ _ = Ok _ |- _ => apply acquire_reference_ok in Ha as ([= ?] & [= ?] & ? & ?) end.
  split_and!; try done. unfold ni_execution, from_columns in *.
  destruct (ni_stage r); repeat case_match; simplify_eq; ok_inv; done.
Qed.

Lemma cursor_names s c :
  recorded (ns_tables s) c -> cursor_checks c = true ->
  0 <= cu_injected c <= cu_covered c /\
  ((cu_injected c = 0 /\ cu_input c = None) \/ (0 < cu_injected c /\ names_shown_input s c)).
Proof.
  intros Hrec Hc. unfold cursor_checks in Hc. bools. split; [lia|].
  match goal with Ho : _ || _ = true |- _ => apply orb_true_iff in Ho as [Ho|Ho] end; bools.
  - left. split; [lia|]. by destruct (cu_input c).
  - right. split; [lia|]. destruct Hrec as [Hn|(reference & row & Hr & Hrow & Href & Ho & Hg & sent & Hs & Hle)].
    + unfold cu_reference in Hn. destruct (cu_session c); [|done]. ok_inv.
    + apply ni_reference_ok in Href as (He & _ & Hst & Hses & Hreq). unfold cu_reference in Hr.
      destruct (cu_session c) as [session|] eqn:Ec; [|ok_inv].
      match type of Hr with _ = _ => ok_inv end.
      match goal with Ha : acquire_reference _ _ _ _ = Ok _ |- _ => apply acquire_reference_ok in Ha as (Hi & Hcs & [= ->] & Hcr) end.
      exists (nr_input reference), row, sent. rewrite Hcs, Hst, Ec, Hcr. split_and!; try done; congruence.
Qed.

(** C13: In every reachable session a cursor lies under its own root and recipient, its
    injected position is within its covered one, and it either injected nothing or names an
    input that was reserved for its recipient, sent, and shown to a model, no later than the
    cursor's own fence.  Whatever runs afterwards, the cursor stays, its positions and its
    fence never decrease, and its input changes only with its injected position. *)
Theorem cursors_proven_and_monotone s tr s' tr' s'' :
  native_start s -> system_run s tr s' -> system_run s' tr' s'' ->
  forall root lookup c, cursors s' !! (root, lookup) = Some c ->
    cu_root c = root /\ cu_recipient c = lookup /\
    0 <= cu_injected c <= cu_covered c /\
    ((cu_injected c = 0 /\ cu_input c = None) \/ (0 < cu_injected c /\ names_shown_input s' c)) /\
    exists c', cursors s'' !! (root, lookup) = Some c' /\ cursor_later c c'.
Proof.
  intros Hstart Hrun Hrun' root lookup c Hc. destruct (run_native_ok _ _ _ Hstart Hrun) as [_ Hok].
  pose proof (ok_cursor_key _ Hok _ _ Hc) as Hk. injection Hk as -> ->.
  destruct (cursor_names s' c) as [Hpos Hname]; [by eapply ok_cursor_recorded | by eapply ok_cursor_checked|].
  split_and!; try done; [lia..|].
  apply system_run_steps, world_later in Hrun' as (_ & (_ & _ & _ & Hcur) & _). by apply Hcur.
Qed.

Lemma atomic_advance fields owner leased ob registry root bus captured coverage :
  atomic (advance_cursor fields owner leased ob registry root bus captured coverage).
Proof. unfold advance_cursor. apply atomic_reads; [apply reads_lift|]. intros proof. apply atomic_writing. Qed.

(** Once a cursor carries a newer generation or claim than an owner of the same root and
    recipient, or the coordinator a newer generation of the recipient, every advance by that
    owner is refused for ever and changes nothing, whatever coverage it proves. *)
Theorem passed_owner_never_advances s tr s' tr' s'' fields owner :
  native_start s -> system_run s tr s' -> system_run s' tr' s'' ->
  (exists c, cursors s' !! (co_root owner, co_lookup fields owner) = Some c /\
     (co_generation owner < cu_generation c \/ co_claimed owner < cu_claimed c)) \/
  (exists g, owner_generations (db (ns_core s')) !! co_lookup fields owner = Some g /\ co_generation owner < og_generation g) ->
  forall leased ob registry root bus captured coverage,
    refused (advance_cursor fields owner leased ob registry root bus captured coverage) s''.
Proof.
  intros Hstart Hrun Hrun' Hpassed leased ob registry root bus captured coverage.
  apply refused_unless; [apply atomic_advance|]. intros state s1 H.
  apply advance_cursor_ok in H as (proof & [_ _ _ _ Hgen Hstate _] & _).
  apply system_run_steps, world_later in Hrun' as (Hsteps & (_ & _ & _ & Hcur) & _). simpl in Hsteps, Hcur.
  destruct Hpassed as [(c & Hc & Hlt)|(g & Hg & Hlt)].
  - destruct (Hcur _ _ Hc) as (c' & Hc' & [_ _ ? ? _]).
    apply cursor_state_row in Hstate as [Hrow Hfence]. unfold cursors in Hrow. rewrite Hc' in Hrow. symmetry in Hrow.
    destruct (Hfence _ Hrow) as [? ?]. lia.
  - destruct (generation_steps _ _ _ _ Hsteps Hg) as (g' & Hg' & Hle). rewrite Hg' in Hgen. injection Hgen as ->.
    simpl in Hle. lia.
Qed.

(** An input of the coverage that the coordinator recorded for this owner's lineage *)
Definition corroborated (fields : ThreadFields) (owner : CursorOwner) (s : NativeSession) (item : HistoricalNativeInput) : Prop :=
  exists row sent, inputs s !! hn_input item = Some row /\ ni_reference row = Ok (Some (hn_reference item)) /\
    ni_owner row = co_lookup fields owner /\ ni_generation row <= co_generation owner /\
    ni_sent row = Some sent /\ sent <= co_claimed owner.

Lemma matches_prefix_ok fields owner items s :
  matches_prefix fields owner items s = Ok true -> Forall (corroborated fields owner s) items.
Proof.
  induction items as [|item rest IH]; [by constructor|]. simpl. intros H.
  destruct (input_read (hn_input item) s) as [found|] eqn:Hf; [|done]. simpl in H.
  destruct (matches_input fields owner found (hn_reference item)) as [[]|] eqn:Hm; [|done..]. simpl in H.
  constructor; [|by apply IH]. apply matches_input_ok in Hm as (row & -> & Href & Ho & Hg & sent & Hs & Hle).
  apply input_read_ok in Hf as [Hf _]. exists row, sent. done.
Qed.

(** What the suffix injects: the position and the input of its last live-bound source *)
Definition injects (proof : CoverageInput) (captured : CursorState) (c : CurrentNativeCursor) : Prop :=
  match proof with
  | InjectedInput original => cu_injected c = hn_source_seq original /\ cu_input c = Some (hn_input original) /\
                              state_injected captured <= hn_source_seq original
  | NoInjectedInput => cu_injected c = state_injected captured /\
                       cu_input c = match state_row captured with Some row => cu_input row | None => None end
  end.

Lemma candidate_injects fields owner proof captured coverage :
  require_progress fields owner captured coverage (injected_for proof captured) = Ok tt ->
  cursor_checks (cursor_candidate fields owner proof captured (pc_covered coverage)) = true ->
  injects proof captured (cursor_candidate fields owner proof captured (pc_covered coverage)) /\
  cu_covered (cursor_candidate fields owner proof captured (pc_covered coverage)) = pc_covered coverage.
Proof.
  unfold require_progress, cursor_candidate, injects, state_injected, injected_for. intros H Hc.
  destruct proof as [|original], (state_row captured) as [row|]; simpl in *; try done; ok_inv; bools; split_and!; try done; try lia.
  unfold cursor_checks in Hc. simpl in Hc. bools. lia.
Qed.

(** C31: A successful advance changes one cursor at most.  Either nothing is written, or the
    cursor of the owner's root and recipient becomes a row with the owner's fence, covered
    as far as the coverage proves and injected at the last live-bound source, or where it
    was when the suffix injects none; then every input of the coverage is corroborated by a
    recorded input of the owner's lineage.  In both cases the state that is returned is the
    stored one, it does not exceed the coverage, and every input up to its position is
    corroborated. *)
Theorem cursor_advance_records_coverage s tr s' fields owner leased ob registry root bus captured coverage state s1 :
  native_start s -> system_run s tr s' ->
  advance_cursor fields owner leased ob registry root bus captured coverage s' = (Ok state, s1) ->
  (exists proof, coverage_proof coverage = Ok proof /\ cursor_state fields owner s' = Ok captured /\
     ((s1 = s' /\ state = captured) \/
      exists c, state = RecordedCursor c /\ stamped fields owner c /\ cu_covered c = pc_covered coverage /\
        injects proof captured c /\ Forall (corroborated fields owner s') (pc_inputs coverage) /\ s1 = with_cursor c s')) /\
  cursors s1 !! (co_root owner, co_lookup fields owner) = state_row state /\
  state_covered captured <= state_covered state <= pc_covered coverage /\
  (forall row item, state_row state = Some row -> item ∈ pc_inputs coverage -> hn_source_seq item <= cu_covered row ->
     corroborated fields owner s' item).
Proof.
  intros Hstart Hrun (proof & [Hp _ _ _ _ Hstate Hprog] & Hcov & Hcase)%advance_cursor_ok.
  assert (state_covered captured <= pc_covered coverage) as Hle.
  { unfold require_progress in Hprog. ok_inv. bools. lia. }
  pose proof (cursor_state_row _ _ _ _ Hstate) as [Hrow _].
  assert (inputs s1 = inputs s') as Hin by (destruct Hcase as [[-> _]|(_ & _ & _ & -> & _)]; done).
  split_and!.
  - exists proof. split_and!; [done | done |].
    destruct Hcase as [?|(Hm & _ & -> & -> & Hs & Hc & _)]; [by left | right].
    destruct (candidate_injects _ _ _ _ _ Hprog Hc) as [Hinj Hcovd].
    eexists. split_and!; [done | done | done | done | by apply matches_prefix_ok | done].
  - destruct Hcase as [[-> ->]|(_ & _ & -> & -> & (Hr & Hl & _) & _)]; [done|].
    unfold cursors. simpl. rewrite Hr, Hl. apply lookup_insert_eq.
  - destruct Hcase as [[_ ->]|(_ & _ & -> & _ & _ & Hc & _)]; [done|].
    destruct (candidate_injects _ _ _ _ _ Hprog Hc) as [_ Hcovd]. unfold state_covered at 2. simpl. lia.
  - destruct Hcase as [[_ ->]|(_ & _ & -> & _ & _ & Hc & _)]; [done|].
    destruct (candidate_injects _ _ _ _ _ Hprog Hc) as [_ Hcovd]. unfold state_covered. simpl. lia.
  - intros row item Hst Hitem Hseq. unfold require_coverage in Hcov. rewrite Hst in Hcov. ok_inv.
    match goal with Hm : matches_prefix _ _ _ _ = Ok true |- _ => apply matches_prefix_ok in Hm;
      rewrite Forall_forall in Hm; specialize (Hm item); unfold corroborated in Hm; rewrite Hin in Hm; apply Hm end.
    apply list_elem_of_In, filter_In. split; [by apply list_elem_of_In | lia].
Qed.
