(* ===== verification/CoverageFacts.v ===== *)
(** * What a coverage read proves

    The pages of a coverage read are one scan of the committed messages of the recipient, in
    order, up to the first that is not settled; a scan covers nothing it did not find settled;
    what it found stays so; and an advance of the cursor therefore never passes a message
    that is not settled. *)

From stdpp Require Import base gmap strings list sorting.
From Stdlib Require Import ZArith Lia.
From S2P Require Import Prelude Contracts ThreadStatus Threads RegistryDocument Lifecycle WakePolicy AssignmentStates.
From S2P Require Import ResponseStates AttemptStates ExecutionStates Rows Delivery CohortRows TableGuards Database CohortTables.
From S2P Require Import Session SchemaSteps SchemaInvariants Stepwise Replay ParticipantStore AssignmentStore CohortSchema.
From S2P Require Import Cohort CohortFacts CohortPages Acceptance Snapshot Settlement ExecutionStore AttemptStore Fences ExecutionFacts.
From S2P Require Import NativeRows NativeSession NativeStore NativeCursor SourceCoverage NativeSteps NativeFacts NativeGuarantees.

Section coverage.
Context (root lookup : string) (reads : EvidenceReads) (views : Z -> SourceView).

Abbreviation ascending := (StronglySorted (fun a b : Delivered => seq_of a < seq_of b)).
Abbreviation scan := (scan_sources root lookup reads views).
Abbreviation standing_of o := (source_standing root lookup reads (views (seq_of o)) o).

(** ** One scan *)

(** What a scan that began elsewhere found before *)
Definition after_scan (sc : Scan) (r : outcome Scan) : outcome Scan :=
  found ← r;
  Ok (mkScan (sc_covered found) (sc_inputs sc ++ sc_inputs found) (sc_no_wake sc ++ sc_no_wake found) (sc_blocked found)).

(** What was found before is kept in front. *)
Lemma scan_shift l covered inputs no_wake :
  scan l (mkScan covered inputs no_wake None) = after_scan (mkScan covered inputs no_wake None) (scan l (mkScan covered [] [] None)).
Proof.
  revert covered inputs no_wake. induction l as [|o l IH]; intros covered inputs no_wake; simpl.
  { unfold after_scan. simpl. by rewrite !app_nil_r. }
  destruct (standing_of o) as [[| |found]|e]; simpl; [|..|done].
  - unfold after_scan. simpl. by rewrite !app_nil_r.
  - rewrite IH, (IH _ [] [_]). unfold after_scan. simpl.
    destruct (scan l _) as [sc|e]; simpl; [|done]. by rewrite <- app_assoc.
  - rewrite IH, (IH _ found []). unfold after_scan. simpl.
    destruct (scan l _) as [sc|e]; simpl; [|done]. by rewrite <- app_assoc.
Qed.

(** A scan of two parts stops in the first where that is blocked. *)
Lemma scan_app l1 l2 sc :
  sc_blocked sc = None ->
  scan (l1 ++ l2) sc = (found ← scan l1 sc; if present (sc_blocked found) then Ok found else scan l2 found).
Proof.
  revert sc. induction l1 as [|o l1 IH]; intros sc Hb; simpl; [by rewrite Hb|].
  destruct (standing_of o) as [[| |found]|e]; simpl; [done| | |done]; by apply IH.
Qed.

Lemma scan_covered l sc found :
  ascending l -> Forall (fun o => sc_covered sc <= seq_of o) l -> sc_blocked sc = None -> scan l sc = Ok found ->
  sc_covered sc <= sc_covered found /\
  (sc_blocked found = None -> sc_covered found = default (sc_covered sc) (last (map (fun o => seq_of o) l))).
Proof.
  intros Hs. revert sc. induction Hs as [|o l Hs IH Ho]; intros sc Hle Hb H; simpl in H.
  { injection H as <-. done. }
  apply Forall_cons in Hle as [Hle Hrest].
  destruct (standing_of o) as [[| |inputs]|e]; simpl in H; [|..|done].
  - injection H as <-. simpl. done.
  - apply IH in H as [H1 H2]; [simpl in *| |done].
    + split; [lia|]. intros Hn. rewrite (H2 Hn). cbn [map]. rewrite last_cons. by destruct (last _).
    + simpl. rewrite Forall_forall in Ho |- *. intros x Hx. specialize (Ho x Hx). lia.
  - apply IH in H as [H1 H2]; [simpl in *| |done].
    + split; [lia|]. intros Hn. rewrite (H2 Hn). cbn [map]. rewrite last_cons. by destruct (last _).
    + simpl. rewrite Forall_forall in Ho |- *. intros x Hx. specialize (Ho x Hx). lia.
Qed.

(** What a scan says of a message it passed *)
Definition passed (found : Scan) (o : Delivered) : Prop :=
  (standing_of o = Ok NoWakeSource /\ seq_of o ∈ sc_no_wake found) \/
  exists inputs, standing_of o = Ok (SettledSource inputs) /\ inputs ⊆ sc_inputs found.

(** Nothing else is reported than what was found before and on the way. *)
Definition reports (l : list Delivered) (sc found : Scan) : Prop :=
  (forall q, q ∈ sc_no_wake found -> q ∈ sc_no_wake sc \/ exists o, o ∈ l /\ seq_of o <= sc_covered found /\ seq_of o = q /\ standing_of o = Ok NoWakeSource) /\
  (forall item, item ∈ sc_inputs found ->
     item ∈ sc_inputs sc \/ exists o inputs, o ∈ l /\ seq_of o <= sc_covered found /\ standing_of o = Ok (SettledSource inputs) /\ item ∈ inputs).

Lemma scan_keeps l sc found :
  scan l sc = Ok found -> sc_inputs sc ⊆ sc_inputs found /\ sc_no_wake sc ⊆ sc_no_wake found.
Proof.
  revert sc. induction l as [|o l IH]; intros sc H; simpl in H; [by injection H as <-|].
  destruct (standing_of o) as [[| |inputs]|e]; simpl in H; [by injection H as <-| | |done];
    apply IH in H as [H1 H2]; simpl in *; clear IH; set_solver.
Qed.

(** A message at or below what a scan covers was passed, and one that blocks it was not. *)
Lemma scan_passed l sc found :
  ascending l -> Forall (fun o => sc_covered sc < seq_of o) l -> sc_blocked sc = None -> scan l sc = Ok found ->
  (forall o, o ∈ l -> sc_blocked found = None \/ seq_of o <= sc_covered found -> passed found o) /\
  (forall b, sc_blocked found = Some b -> exists o, o ∈ l /\ seq_of o = b /\ standing_of o = Ok BlockedSource /\
     sc_covered found < b /\ forall o', o' ∈ l -> seq_of o' < b -> seq_of o' <= sc_covered found).
Proof.
  intros Hs. revert sc. induction Hs as [|o l Hs IH Ho]; intros sc Hlt Hb H; simpl in H.
  { injection H as <-. split; [set_solver|]. congruence. }
  apply Forall_cons in Hlt as [Hlt Hrest]. rewrite Forall_forall in Ho.
  assert (Hnext : forall covered inputs no_wake, covered = seq_of o -> scan l (mkScan covered inputs no_wake None) = Ok found -> passed found o ->
    (forall o', o' ∈ o :: l -> sc_blocked found = None \/ seq_of o' <= sc_covered found -> passed found o') /\
    (forall b, sc_blocked found = Some b -> exists x, x ∈ o :: l /\ seq_of x = b /\ standing_of x = Ok BlockedSource /\
       sc_covered found < b /\ forall o', o' ∈ o :: l -> seq_of o' < b -> seq_of o' <= sc_covered found)).
  { intros covered inputs no_wake -> Hscan Hpassed.
    assert (Forall (fun x => seq_of o < seq_of x) l) as Hl by (apply Forall_forall; exact Ho).
    assert (seq_of o <= sc_covered found) as Hup.
    { apply (scan_covered l (mkScan (seq_of o) inputs no_wake None) found); [done| |done..].
      eapply Forall_impl; [exact Hl|]. simpl. lia. }
    destruct (IH (mkScan (seq_of o) inputs no_wake None) Hl eq_refl Hscan) as [H1 H2]. split.
    - intros o' [->|Ho']%elem_of_cons Hle; [done|]. by apply H1.
    - intros b Hbl. destruct (H2 b Hbl) as (x & Hx & Hq & Hst & Hc & Hall). exists x. split_and!; [by apply list_elem_of_further|done..|].
      intros o' [->|Ho']%elem_of_cons Hlt'; [done|]. by apply Hall. }
  destruct (standing_of o) as [[| |inputs]|e] eqn:Est; simpl in H; [|..|done].
  - injection H as <-. simpl. split.
    + intros o' [->|Ho']%elem_of_cons [?|Hle]; [done|lia|done|]. specialize (Ho o' Ho'). lia.
    + intros b [= <-]. exists o. split_and!; [apply list_elem_of_here|done..|lia|].
      intros o' [->|Ho']%elem_of_cons Hlt'; [lia|]. specialize (Ho o' Ho'). lia.
  - eapply Hnext; [done|exact H|]. left. split; [done|].
    apply scan_keeps in H as [_ H]. simpl in H. clear IH Hnext. set_solver.
  - eapply Hnext; [done|exact H|]. right. exists inputs. split; [done|].
    apply scan_keeps in H as [H _]. simpl in H. clear IH Hnext. set_solver.
Qed.

Lemma scan_reported l sc found :
  ascending l -> Forall (fun o => sc_covered sc < seq_of o) l -> sc_blocked sc = None ->
  scan l sc = Ok found -> reports l sc found.
Proof.
  intros Hs. revert sc. induction Hs as [|o l Hs IH Ho]; intros sc Hlt Hb H; simpl in H; [injection H as <-; split; eauto|].
  assert (Hmore : forall inputs no_wake,
    scan l (mkScan (seq_of o) inputs no_wake None) = Ok found ->
    (forall q, q ∈ no_wake -> q ∈ sc_no_wake sc \/ (seq_of o = q /\ standing_of o = Ok NoWakeSource)) ->
    (forall item, item ∈ inputs -> item ∈ sc_inputs sc \/ exists new, standing_of o = Ok (SettledSource new) /\ item ∈ new) ->
    reports (o :: l) sc found).
  { intros inputs no_wake Hscan Hq' Hi'. pose proof (list_elem_of_here o l).
    destruct (IH (mkScan (seq_of o) inputs no_wake None) Ho eq_refl Hscan) as [Hq Hi]. apply scan_covered in Hscan as [Hup _];
      [|done|eapply Forall_impl; [exact Ho|]; simpl; lia|done]. simpl in *. split.
    - intros q [[?|[? ?]]%Hq'|(x & ? & ? & ? & ?)]%Hq; [by left|right; by exists o|right; exists x].
      split_and!; [by apply list_elem_of_further|done..].
    - intros item [[?|(new & ? & ?)]%Hi'|(x & new & ? & ? & ? & ?)]%Hi; [by left|right; by exists o, new|right; exists x, new].
      split_and!; [by apply list_elem_of_further|done..]. }
  destruct (standing_of o) as [[| |new]|e] eqn:Est; simpl in H; [injection H as <-; split; eauto| | |done];
    apply (Hmore _ _ H); eauto.
  - intros q [Hq|Hq%list_elem_of_singleton]%elem_of_app; [by left|by right].
  - intros item [Hi|Hi]%elem_of_app; [by left|right; by exists new].
Qed.

(** ** Pages *)

(** The committed messages up to a sequence *)
Definition upto (through : Z) (log : list Delivered) : list Delivered :=
  List.filter (fun o => seq_of o <? through + 1) log.

Lemma received_upto through log after :
  received_between lookup log after (through + 1) = remaining (upto through log) lookup after.
Proof.
  unfold received_between, remaining, upto. induction log as [|o log IH]; simpl; [done|].
  destruct (seq_of o <? through + 1) eqn:E; simpl; rewrite ?andb_true_r, ?andb_false_r, IH; done.
Qed.

(** What a coverage says *)
Definition findings (r : outcome ProvenSourceCoverage) : outcome (Z * list HistoricalNativeInput * list Z * option Z) :=
  c ← r; Ok (pc_covered c, pc_inputs c, pc_no_wake c, pc_blocked c).

(** The scan that a budget of pages amounts to *)
Definition bounded_scan (through : Z) (budget : nat) (sources : list Delivered) (sc : Scan)
    : outcome (Z * list HistoricalNativeInput * list Z * option Z) :=
  found ← scan (take (budget * 100) sources) sc;
  if present (sc_blocked found) then Ok (sc_covered found, sc_inputs found, sc_no_wake found, sc_blocked found)
  else if bool_decide (length sources <= budget * 100)%nat && negb (bool_decide (budget = 0%nat))
  then Ok (through, sc_inputs found, sc_no_wake found, None)
  else Err (IdentityConflict "source coverage exceeded bounded canonical page budget").

(** The bus file is the captured one and its committed prefix the same at every page. *)
Definition steady (through : Z) (log : list Delivered) (pages : nat -> PageView) : Prop :=
  forall k, pv_root (pages k) = Ok tt /\ pv_in_transaction (pages k) = false /\
    require_current_prefix (mkSourcePrefix through) (pv_before (pages k)) = Ok tt /\
    require_current_prefix (mkSourcePrefix through) (pv_after (pages k)) = Ok tt /\
    upto through (pv_log (pages k)) = upto through log.

Lemma page_scan through log pages k after :
  steady through log pages -> 0 <= after <= through ->
  let sources := remaining (upto through log) lookup after in
  let more := (100 <? Z.of_nat (length (take 101 sources))) in
  read_page root lookup reads views (mkCoveragePage after 100 true) (mkSourcePrefix through) (pages k)
  = (horizon ← (if more then of_option (last (map (fun o => seq_of o) (take 100 sources))) (ValueError "tuple index out of range")
                else Ok through);
     sc ← scan (take 100 sources) (mkScan after [] [] None);
     Ok (mkProvenSourceCoverage root lookup
           (match sc_blocked sc with None => Z.max (sc_covered sc) horizon | Some _ => sc_covered sc end)
           (sc_inputs sc) (sc_no_wake sc) (sc_blocked sc) more (mkSourcePrefix through))).
Proof.
  intros Hsteady Hafter. destruct (Hsteady k) as (H1 & H2 & H3 & H4 & H5). unfold read_page.
  rewrite H1, H2, H3, H4. cbn [cp_after cp_limit cp_partial sp_through].
  rewrite received_upto, H5. unfold require_start. simpl sp_through.
  replace (through <? after) with false by lia. cbn -[take last remaining Z.of_nat scan_sources].
  change (Z.to_nat (100 + 1)) with 101%nat. change (Z.to_nat 100) with 100%nat.
  rewrite take_take. change (100 `min` 101)%nat with 100%nat.
  unfold require_exhausted. simpl cp_partial. rewrite andb_false_r. simpl. done.
Qed.

(** The sources of a page lie between its start and the captured end. *)
Lemma source_bounds through log after o :
  o ∈ remaining (upto through log) lookup after -> after < seq_of o <= through.
Proof.
  rewrite elem_of_remaining. unfold upto. intros (Ho & _ & Hafter).
  apply list_elem_of_In, List.filter_In in Ho as [_ Hle]. lia.
Qed.

(** Where a scan of some sources of a page that found nothing blocked ends *)
Lemma page_end through log after n found :
  ascending log -> after <= through ->
  scan (take n (remaining (upto through log) lookup after)) (mkScan after [] [] None) = Ok found ->
  after <= sc_covered found /\ (sc_blocked found = None ->
    sc_covered found <= through /\
    (forall x, last (take n (remaining (upto through log) lookup after)) = Some x -> sc_covered found = seq_of x)).
Proof.
  intros Hs Hle Hscan. set (sources := take n _) in *.
  assert (Hin : forall o, o ∈ sources -> after < seq_of o <= through).
  { intros o Ho. apply elem_of_take_all in Ho. by apply source_bounds in Ho. }
  apply scan_covered in Hscan as [Hup Hend]; [simpl in *|..|done].
  - split; [done|]. intros Hn. rewrite (Hend Hn).
    assert (Hmap : last (map (fun o => seq_of o) sources) = (fun o => seq_of o) <$> last sources) by apply fmap_last.
    rewrite Hmap. destruct (last sources) as [x|] eqn:E; simpl; [|by split].
    apply last_Some_elem_of, Hin in E. split; [lia|]. intros y Hy. by injection Hy as <-.
  - apply StronglySorted_app_1_l with (l2 := drop n (remaining (upto through log) lookup after)).
    unfold sources. rewrite take_drop. by apply remaining_sorted, sorted_filter.
  - apply Forall_forall. intros o Ho. specialize (Hin o Ho). simpl. lia.
Qed.

Lemma full_page_last (sources : list Delivered) n :
  (0 < n)%nat -> ~ (length sources <= n)%nat ->
  exists x, last (take n sources) = Some x /\ last (map (fun o => seq_of o) (take n sources)) = Some (seq_of x).
Proof.
  intros Hn Hlen. destruct (last (take n sources)) as [x|] eqn:E.
  - exists x. split; [done|]. transitivity ((fun o => seq_of o) <$> last (take n sources)); [apply fmap_last|].
    by rewrite E.
  - apply last_None, (f_equal length) in E. rewrite length_take in E. change (length []) with 0%nat in E. lia.
Qed.

(** A page covers what it scanned, and the captured end where nothing is left. *)
Lemma page_found through log pages k after :
  ascending log -> steady through log pages -> 0 <= after <= through ->
  let sources := remaining (upto through log) lookup after in
  let few := bool_decide (length sources <= 100)%nat in
  read_page root lookup reads views (mkCoveragePage after 100 true) (mkSourcePrefix through) (pages k)
  = (sc ← scan (take 100 sources) (mkScan after [] [] None);
     Ok (mkProvenSourceCoverage root lookup
           (if negb (present (sc_blocked sc)) && few then through else sc_covered sc)
           (sc_inputs sc) (sc_no_wake sc) (sc_blocked sc) (negb few) (mkSourcePrefix through))).
Proof.
  intros Hs Hsteady Hafter. cbv zeta. rewrite (page_scan through log) by done. cbv zeta.
  pose proof (page_end through log after 100) as Hend. set (sources := remaining (upto through log) lookup after) in *.
  assert (Hlen : (100 <? Z.of_nat (length (take 101 sources))) = negb (bool_decide (length sources <= 100)%nat)).
  { rewrite length_take. destruct (decide (length sources <= 100)%nat) as [H|H];
      [rewrite bool_decide_true by done|rewrite bool_decide_false by done]; cbn [negb];
      [apply Z.ltb_ge|apply Z.ltb_lt]; lia. }
  rewrite Hlen. destruct (decide (length sources <= 100)%nat) as [Hfew|Hmany];
    [rewrite bool_decide_true by done|rewrite bool_decide_false by done]; cbn -[take map].
  - destruct (scan (take 100 sources) _) as [found|e]; [|done].
    destruct (Hend found Hs ltac:(lia) eq_refl) as [_ Hcovered]. cbn.
    destruct (sc_blocked found); cbn; [done|]. destruct (Hcovered eq_refl) as [Hle _].
    by replace (Z.max _ _) with through by lia.
  - destruct (full_page_last sources 100 ltac:(lia) Hmany) as (x & Hx & Hmap). rewrite Hmap. cbn -[take].
    destruct (scan (take 100 sources) _) as [found|e]; [|done].
    destruct (Hend found Hs ltac:(lia) eq_refl) as [_ Hcovered]. cbn. rewrite andb_false_r.
    destruct (sc_blocked found); cbn; [done|]. destruct (Hcovered eq_refl) as [_ Hlast].
    by rewrite (Hlast x Hx), Z.max_id.
Qed.

Lemma since_scan through log pages :
  ascending log -> steady through log pages ->
  forall budget k after inputs no_wake, 0 <= after <= through ->
  findings (since_pages root lookup reads views (mkSourcePrefix through) pages budget k after inputs no_wake)
  = bounded_scan through budget (remaining (upto through log) lookup after) (mkScan after inputs no_wake None).
Proof.
  intros Hs Hsteady. induction budget as [|budget IH]; intros k after inputs no_wake Hafter.
  { unfold bounded_scan. simpl. by rewrite andb_false_r. }
  cbn [since_pages]. unfold coverage_page. replace (after <? 0) with false by lia. rewrite andb_false_r.
  cbn -[since_pages read_page bounded_scan Z.ltb remaining].
  rewrite (page_found through log) by done. cbv zeta. unfold bounded_scan.
  pose proof (page_end through log after 100) as Hend.
  pose proof (fun x => remaining_drop (upto through log) lookup after 100 x (sorted_filter _ _ _ Hs)) as Hdrop.
  set (sources := remaining (upto through log) lookup after) in *.
  change (S budget * 100)%nat with (100 + budget * 100)%nat. rewrite <- take_take_drop, scan_app by done.
  rewrite (scan_shift (take 100 sources) after inputs no_wake).
  destruct (scan (take 100 sources) (mkScan after [] [] None)) as [found|e]; unfold after_scan; [|done].
  destruct (Hend found Hs ltac:(lia) eq_refl) as [Hup Hcovered]. clear Hend.
  cbn -[since_pages take drop Nat.add Nat.mul scan_sources].
  destruct (sc_blocked found) as [b|] eqn:Eb; cbn -[since_pages take drop Nat.add Nat.mul scan_sources].
  { by replace (sc_covered found <? after) with false by lia. }
  destruct (Hcovered eq_refl) as [Hle Hlast].
  destruct (decide (length sources <= 100)%nat) as [Hfew|Hmany];
    [rewrite bool_decide_true by done|rewrite bool_decide_false by done]; cbn -[since_pages take drop Nat.add Nat.mul scan_sources].
  - replace (through <? after) with false by lia. rewrite (drop_ge sources 100), take_nil by done. cbn.
    by rewrite bool_decide_true by lia.
  - replace (sc_covered found <? after) with false by lia. cbn -[since_pages take drop Nat.add Nat.mul scan_sources].
    destruct (full_page_last sources 100 ltac:(lia) Hmany) as (x & Hx & _).
    rewrite IH by lia. unfold bounded_scan. rewrite (Hlast x Hx), (Hdrop x Hx).
    assert (Hleft : bool_decide (length (drop 100 sources) <= budget * 100)%nat && negb (bool_decide (budget = 0%nat))
                    = bool_decide (length sources <= 100 + budget * 100)%nat).
    { clear - Hmany. rewrite length_drop. destruct budget as [|b].
      - rewrite andb_false_r. symmetry. apply bool_decide_false. lia.
      - rewrite (bool_decide_false (S b = 0%nat)) by lia. cbn [negb]. rewrite andb_true_r.
        apply bool_decide_ext. lia. }
    by rewrite Hleft, andb_true_r.
Qed.
(** C19: A coverage read that finds the bus unchanged at each of its pages finds exactly
    what one scan finds of the committed messages of the recipient, beyond the cursor and up
    to the captured end, in order: the same covered sequence, inputs, messages without a
    wake, blocking message or error.  It refuses by itself only where none of the first 3200
    of these messages blocks and there are more. *)
Theorem coverage_pages_agree state through log seen pages :
  ascending log -> steady through log pages -> 0 <= state_covered state <= through ->
  require_current_prefix (mkSourcePrefix through) seen = Ok tt ->
  findings (coverage_since root lookup reads views state through seen pages)
  = bounded_scan through page_budget (remaining (upto through log) lookup (state_covered state))
      (mkScan (state_covered state) [] [] None).
Proof.
  intros Hs Hsteady Hle Hseen. unfold coverage_since, capture_prefix, require_start. rewrite Hseen. simpl sp_through.
  replace (through <? state_covered state) with false by lia. cbn -[since_pages page_budget]. by apply since_scan.
Qed.

(** ** Reads that succeed *)

(** The same pages, found steady *)
Definition steadied (through : Z) (pages : nat -> PageView) (k : nat) : PageView :=
  mkPageView (Ok tt) false (pv_log (pages k)) (mkBusSeen true through) (mkBusSeen true through).

Lemma steady_seen through : require_current_prefix (mkSourcePrefix through) (mkBusSeen true through) = Ok tt.
Proof. unfold require_current_prefix. simpl. by rewrite Z.ltb_irrefl. Qed.

Lemma bind_keeps {A B : Type} (r r' : outcome A) (f f' : A -> outcome B) c :
  (forall a, r = Ok a -> r' = Ok a) -> (forall a, f a = Ok c -> f' a = Ok c) -> (r ≫= f) = Ok c -> (r' ≫= f') = Ok c.
Proof. intros Hr Hf (a & Ha & H)%bind_ok_inv. rewrite (Hr a Ha). by apply Hf. Qed.

Lemma read_page_steadied request through pages k c :
  read_page root lookup reads views request (mkSourcePrefix through) (pages k) = Ok c ->
  read_page root lookup reads views request (mkSourcePrefix through) (steadied through pages k) = Ok c.
Proof.
  unfold read_page. simpl pv_root. simpl pv_in_transaction. simpl pv_log. simpl pv_before. simpl pv_after. rewrite !steady_seen.
  apply bind_keeps; [by intros []|]. intros _. apply bind_keeps; [by intros []|]. intros _.
  apply bind_keeps; [done|]. intros _. apply bind_keeps; [done|]. intros _. apply bind_keeps; [by intros []|]. intros _.
  apply bind_keeps; [done|]. intros horizon. apply bind_keeps; [done|]. intros sc. apply bind_keeps; [by intros []|]. done.
Qed.

Lemma since_start prefix pages budget k after inputs no_wake c :
  since_pages root lookup reads views prefix pages (S budget) k after inputs no_wake = Ok c -> 0 <= after.
Proof.
  cbn [since_pages]. intros (request & Hrequest & _)%bind_ok_inv. unfold coverage_page in Hrequest.
  apply bind_ok_inv in Hrequest as (? & Hno & _). ok_inv. bools. lia.
Qed.

Lemma since_steadied through pages budget k after inputs no_wake c :
  since_pages root lookup reads views (mkSourcePrefix through) pages budget k after inputs no_wake = Ok c ->
  since_pages root lookup reads views (mkSourcePrefix through) (steadied through pages) budget k after inputs no_wake = Ok c.
Proof.
  revert k after inputs no_wake. induction budget as [|budget IH]; intros k after inputs no_wake H; [done|].
  cbn [since_pages] in H |- *.
  apply bind_ok_inv in H as (request & Hrequest & H). apply bind_ok_inv in H as (page & Hpage & H).
  rewrite Hrequest. cbn -[since_pages read_page Z.ltb]. rewrite (read_page_steadied _ _ _ _ _ Hpage).
  cbn -[since_pages read_page Z.ltb]. apply bind_ok_inv in H as (? & Hno & H). rewrite Hno. cbn -[since_pages read_page].
  destruct (present (pc_blocked page) || negb (pc_more page)); [done|]. by apply IH.
Qed.
(** The messages a read is about *)
Abbreviation pending through log state := (remaining (upto through log) lookup (state_covered state)).

Lemma since_found state through log seen pages c :
  ascending log -> (forall k, upto through (pv_log (pages k)) = upto through log) ->
  coverage_since root lookup reads views state through seen pages = Ok c ->
  state_covered state <= through /\
  exists n found, scan (take n (pending through log state)) (mkScan (state_covered state) [] [] None) = Ok found /\
    pc_inputs c = sc_inputs found /\ pc_no_wake c = sc_no_wake found /\ pc_blocked c = sc_blocked found /\
    match pc_blocked c with
    | Some _ => pc_covered c = sc_covered found
    | None => pc_covered c = through /\ take n (pending through log state) = pending through log state
    end.
Proof.
  intros Hs Hlog H. unfold coverage_since in H. apply bind_ok_inv in H as (prefix & Hcapture & H).
  assert (state_covered state <= through /\ prefix = mkSourcePrefix through) as [Hle ->].
  { clear H. unfold capture_prefix, require_start in Hcapture. ok_inv. bools. done. }
  pose proof (since_start _ _ 31 _ _ _ _ _ H) as H0.
  apply since_steadied in H. split; [done|].
  assert (findings (Ok c) = bounded_scan through page_budget (pending through log state) (mkScan (state_covered state) [] [] None)) as Hscan.
  { rewrite <- H. apply since_scan; [done| |lia]. intros k. split_and!; [done..|by apply steady_seen|by apply steady_seen|apply Hlog]. }
  unfold bounded_scan in Hscan. symmetry in Hscan. apply bind_ok_inv in Hscan as (found & Hfound & Hscan).
  exists (page_budget * 100)%nat, found. split; [done|].
  destruct (sc_blocked found) as [b|] eqn:Eb; cbn -[page_budget Nat.mul] in Hscan.
  - injection Hscan as <- <- <- <-. done.
  - destruct (bool_decide _) eqn:Hlen in Hscan; cbn -[page_budget Nat.mul] in Hscan; [|done].
    injection Hscan as <- <- <- <-. bools. split_and!; [done..|]. by apply take_ge.
Qed.

Lemma elem_of_pending through log after o :
  o ∈ remaining (upto through log) lookup after <->
  o ∈ log /\ includes_lookup o lookup = true /\ after < seq_of o <= through.
Proof.
  rewrite elem_of_remaining. unfold upto. rewrite list_elem_of_In, List.filter_In, <- list_elem_of_In, Z.ltb_lt.
  split; intros; split_and!; try lia; tauto.
Qed.

Lemma sorted_take_before (l : list Delivered) n o b :
  ascending l -> o ∈ l -> b ∈ take n l -> seq_of o < seq_of b -> o ∈ take n l.
Proof.
  intros Hs Ho Hb Hlt. rewrite <- (take_drop n l) in Hs, Ho. apply elem_of_app in Ho as [Ho|Ho]; [done|].
  pose proof (StronglySorted_app_1_elem_of _ _ _ _ _ Hs Hb Ho). simpl in *. lia.
Qed.

(** What a scan of the first messages passed, told of all of them *)
Lemma scan_front l n after found :
  ascending l -> Forall (fun o => after < seq_of o) l ->
  scan (take n l) (mkScan after [] [] None) = Ok found ->
  (sc_blocked found = None -> take n l = l) ->
  (forall o, o ∈ l -> (sc_blocked found = None \/ seq_of o <= sc_covered found) -> passed found o) /\
  (forall b, sc_blocked found = Some b -> exists o, o ∈ l /\ seq_of o = b /\ standing_of o = Ok BlockedSource /\
     sc_covered found < b /\ forall o', o' ∈ l -> sc_covered found < seq_of o' -> b <= seq_of o') /\
  reports (take n l) (mkScan after [] [] None) found.
Proof.
  intros Hs Hlt Hscan Hall. rewrite Forall_forall in Hlt.
  assert (ascending (take n l)) as Hs'.
  { apply StronglySorted_app_1_l with (l2 := drop n l). by rewrite take_drop. }
  assert (Forall (fun o => after < seq_of o) (take n l)) as Hlt'.
  { apply Forall_forall. intros o Ho. by apply Hlt, (elem_of_take_all _ n). }
  destruct (scan_passed _ (mkScan after [] [] None) _ Hs' Hlt' eq_refl Hscan) as [Hp Hb].
  split_and!; [| |by apply scan_reported].
  - intros o Ho Hcase. apply Hp; [|done]. destruct (sc_blocked found) as [b|]; [|by rewrite Hall].
    destruct Hcase as [?|Hle]; [done|]. destruct (Hb b eq_refl) as (x & Hx & Hq & _ & Hlt2 & _).
    apply (sorted_take_before l n o x); [done..|lia].
  - intros b Eb. destruct (Hb b Eb) as (x & Hx & Hq & Hst & Hlt2 & Hbefore). exists x.
    split_and!; [by apply (elem_of_take_all _ n)|done..|]. intros o' Ho' Hle.
    destruct (decide (b <= seq_of o')); [done|].
    assert (seq_of o' <= sc_covered found); [|lia]. apply Hbefore; [|lia].
    apply (sorted_take_before l n o' x); [done..|lia].
Qed.

(** What the scan of a successful read passed, reported and was stopped by *)
Lemma coverage_scan state through log seen pages c :
  ascending log -> (forall k, upto through (pv_log (pages k)) = upto through log) ->
  coverage_since root lookup reads views state through seen pages = Ok c ->
  exists n found, pc_inputs c = sc_inputs found /\ pc_no_wake c = sc_no_wake found /\ pc_blocked c = sc_blocked found /\
    state_covered state <= pc_covered c <= through /\
    pc_covered c = (if present (sc_blocked found) then sc_covered found else through) /\ sc_covered found <= pc_covered c /\
    (forall o, o ∈ pending through log state -> seq_of o <= pc_covered c -> passed found o) /\
    (forall b, sc_blocked found = Some b ->
       exists o, o ∈ pending through log state /\ seq_of o = b /\ standing_of o = Ok BlockedSource /\ sc_covered found < b /\
         forall o', o' ∈ pending through log state -> sc_covered found < seq_of o' -> b <= seq_of o') /\
    reports (take n (pending through log state)) (mkScan (state_covered state) [] [] None) found.
Proof.
  intros Hs Hlog H. destruct (since_found _ _ _ _ _ _ Hs Hlog H) as (Hle & n & found & Hscan & Hi & Hn & Hb & Hcase).
  destruct (page_end _ _ _ _ _ Hs Hle Hscan) as [Hup Hends].
  destruct (scan_front _ _ _ _ (remaining_sorted _ lookup (state_covered state) (sorted_filter _ _ _ Hs))
              (proj2 (Forall_forall _ _) (fun o Ho => proj1 (source_bounds _ _ _ _ Ho))) Hscan) as (Hpassed & Hblocked & Hreported).
  { rewrite <- Hb. intros Hnone. rewrite Hnone in Hcase. apply Hcase. }
  rewrite Hb in Hcase. exists n, found. destruct (sc_blocked found) as [b|] eqn:Eb; simpl.
  - destruct (Hblocked b eq_refl) as (x & Hx%source_bounds & ? & _ & ? & _).
    do 3 (split; [done|]). do 3 (split; [lia|]). split; [|done]. intros o Ho Hq. apply Hpassed; [done|right; lia].
  - do 3 (split; [done|]). destruct (Hends eq_refl) as [Hends' _]. do 3 (split; [lia|]). split; [|done].
    intros o Ho Hq. apply Hpassed; [done|by left].
Qed.

Lemma coverage_passed state through log seen pages c o :
  ascending log -> (forall k, upto through (pv_log (pages k)) = upto through log) ->
  coverage_since root lookup reads views state through seen pages = Ok c ->
  o ∈ log -> includes_lookup o lookup = true -> state_covered state < seq_of o <= pc_covered c ->
  (standing_of o = Ok NoWakeSource /\ seq_of o ∈ pc_no_wake c) \/
  exists inputs, standing_of o = Ok (SettledSource inputs) /\ inputs ⊆ pc_inputs c.
Proof.
  intros Hs Hlog H Ho Hinc Hq. destruct (coverage_scan _ _ _ _ _ _ Hs Hlog H) as (n & found & -> & -> & _ & Hb & _ & _ & Hp & _).
  apply Hp; [|lia]. apply elem_of_pending. split_and!; done || lia.
Qed.

(** C14: Where a coverage read succeeds, every message of the recipient beyond the cursor
    that it covers was found without a wake, or settled with all its inputs reported; a read
    that names no blocking message covers the captured end; one that does covers less than
    it, that message is not settled, and it is the first beyond what is covered.  No input
    is reported that does not settle a message so covered. *)
Theorem coverage_barrier state through log seen pages c :
  ascending log -> (forall k, upto through (pv_log (pages k)) = upto through log) ->
  coverage_since root lookup reads views state through seen pages = Ok c ->
  state_covered state <= pc_covered c <= through /\
  (forall o, o ∈ log -> includes_lookup o lookup = true -> state_covered state < seq_of o <= pc_covered c ->
     (standing_of o = Ok NoWakeSource /\ seq_of o ∈ pc_no_wake c) \/
     exists inputs, standing_of o = Ok (SettledSource inputs) /\ inputs ⊆ pc_inputs c) /\
  match pc_blocked c with
  | None => pc_covered c = through
  | Some b => exists o, o ∈ log /\ includes_lookup o lookup = true /\ seq_of o = b /\ standing_of o = Ok BlockedSource /\
                pc_covered c < b /\
                forall o', o' ∈ log -> includes_lookup o' lookup = true -> pc_covered c < seq_of o' -> b <= seq_of o'
  end /\
  (forall item, item ∈ pc_inputs c -> exists o inputs, o ∈ log /\ state_covered state < seq_of o <= pc_covered c /\
     standing_of o = Ok (SettledSource inputs) /\ item ∈ inputs).
Proof.
  intros Hs Hlog H. destruct (coverage_scan _ _ _ _ _ _ Hs Hlog H)
    as (n & found & Hi & Hn & Hb & Hbounds & Hcovered & Hle & _ & Hblocked & _ & Hreported).
  split; [exact Hbounds|]. split_and!; [intros o; by eapply coverage_passed| |].
  - rewrite Hb. destruct (sc_blocked found) as [b|]; [|exact Hcovered]. simpl in Hcovered.
    destruct (Hblocked b eq_refl) as (x & (Hx & Hinc & Hq)%elem_of_pending & Hs1 & Hs2 & Hs3 & Hs4). exists x.
    split_and!; [done..|lia|]. intros o' Ho' Hinc' Hlt. destruct (decide (b <= seq_of o')); [done|].
    apply Hs4; [|lia]. apply elem_of_pending. split_and!; done || lia.
  - rewrite Hi. intros item [Hno|(o & new & Ho & Hup & Hst & Hin)]%Hreported; [by apply elem_of_nil in Hno|].
    apply elem_of_take_all, elem_of_pending in Ho as (? & _ & ?). exists o, new. split_and!; done || lia.
Qed.
End coverage.

(** ** What a settled message shows *)

Section shown.
Context (root lookup : string) (journal : PromptBinding -> Prop).

(** An input that was put to the model of the recipient for a claim: its entry is recorded, its
    prompt was bound before launch for this root and is in the journal; and it is a full turn,
    or a triage the model answered with nothing to do, or one whose claim then failed. *)
Definition shown_for (view : SourceView) (a : WakeAssignment) : Prop :=
  exists i row binding,
    inputs (sv_inputs view) !! i = Some row /\ ni_owner row = lookup /\ present (ni_entry row) = true /\
    wa_id a ∈ triage_sources i (sv_inputs view) ++ full_sources i (sv_inputs view) /\
    ns_bindings (sv_claims view) !! i = Some binding /\ pb_root binding = root /\ journal binding /\
    ((exists e o, ni_execution row = Ok (FullNativeExecution e o)) \/
     (ni_execution row = Ok TriageNativeExecution /\ ni_verdict row = Some IgnoreSelectedTriage) \/
     (ni_execution row = Ok TriageNativeExecution /\ ni_verdict row = None /\
      exists claim failure, wake_claims (db (ns_core (sv_claims view))) !! wa_id a = Some claim /\
        wa_lifecycle claim = FailedAssignment failure)).

(** The cohort of the message is sealed, and its decision for the recipient wakes nothing, or
    one claim of the cohort carries the decision and needs no input, failed, or was shown. *)
Definition source_proven (view : SourceView) (o : Delivered) : Prop :=
  exists recipient decision cohort,
    (recipient, decision) ∈ zip (dl_recipients o) (dl_decisions o) /\ fr_lookup recipient = lookup /\
    claim_record o root (db (ns_core (sv_cohort view))) = Ok cohort /\
    match decision with
    | NoWakeDecision _ _ => True
    | WakeDecision _ _ policy =>
        exists a, a ∈ ac_assignments cohort /\ wa_lookup a = lookup /\ assignment_mode (wa_lifecycle a) = policy /\
          (wake_active policy = false \/ (exists failure, wa_lifecycle a = FailedAssignment failure) \/ shown_for view a)
    end.

Context (reads : EvidenceReads) (Hjournal : forall b, er_matches reads b = Ok true -> journal b).

(** The input a piece of evidence is about *)
Lemma historical_input_ok later c row item :
  historical_input root reads later c row = Ok item ->
  hn_assignment item = wa_id c /\ hn_input item = ni_id row /\ ni_execution row = Ok (hn_execution item) /\
  (hn_equality item = true -> exists binding, ns_bindings later !! ni_id row = Some binding /\ pb_root binding = root /\ journal binding) /\
  match hn_proof item with
  | TriageHistorical decision => hn_execution item = TriageNativeExecution /\ ni_verdict row = Some decision
  | FailedTriageHistorical => hn_execution item = TriageNativeExecution /\ ni_verdict row = None /\
      exists claim failure, wake_claims (db (ns_core later)) !! wa_id c = Some claim /\ wa_lifecycle claim = FailedAssignment failure
  | FullHistorical => True
  end.
Proof.
  unfold historical_input. intros H. repeat ok_step. subst item. simpl. split_and!; try done.
  - intros ->. destruct (ns_bindings later !! ni_id row) as [binding|]; [|done]. exists binding. ok_inv. bools. eauto.
  - match goal with Hp : historical_proof _ _ _ = Ok _, Hc : assignment_read _ _ = Ok _ |- _ =>
      unfold historical_proof in Hp; apply assignment_read_ok in Hc as [Hc _] end.
    repeat case_match; ok_inv; eauto 6.
Qed.
Lemma historical_source_ok seq s i c :
  native_ok s -> (i, c) ∈ historical_sources root lookup seq s ->
  exists row, inputs s !! i = Some row /\ ni_owner row = lookup /\ present (ni_entry row) = true /\
    wa_id c ∈ triage_sources i s ++ full_sources i s.
Proof.
  intros [Hd Ht] Hin. unfold historical_sources in Hin.
  apply list_elem_of_In, in_flat_map in Hin as (n & Hn & Hin). destruct (present (ni_entry n)) eqn:He; [|done].
  apply in_flat_map in Hin as (k & Hk & Hin). destruct (wake_claims (db (ns_core s)) !! k) as [c'|] eqn:Hc; [|done].
  case_match eqn:Hb; [|done]. bools. apply in_map_iff in Hin as (? & [= <- <-] & _).
  apply in_map_iff in Hn as ([j n'] & <- & Hn). apply list_elem_of_In, elem_of_map_to_list in Hn. simpl in *.
  pose proof (ok_keyed _ Ht _ _ Hn) as Hkey. subst j. exists n'. split_and!; [done|congruence|done|].
  assert (wa_id c' = k) as ->; [|by apply list_elem_of_In].
  exact (reachable_keyed _ Hd WakeAssignment _ ltac:(constructor) k c' Hc).
Qed.

Lemma proving_rows_ok sources s rows c row :
  proving_rows sources s = Ok rows -> (c, row) ∈ rows -> exists i, (i, c) ∈ sources /\ inputs s !! i = Some row.
Proof.
  revert rows. induction sources as [|[i c'] rest IH]; intros rows H Hin; simpl in H; [ok_inv; by apply elem_of_nil in Hin|].
  repeat ok_step. subst.
  assert (Hrest : forall rows', proving_rows rest s = Ok rows' -> (c, row) ∈ rows' ->
                    exists i0, (i0, c) ∈ (i, c') :: rest /\ inputs s !! i0 = Some row).
  { intros rows' Hrows Hin'. destruct (IH _ Hrows Hin') as (j & ? & ?). exists j. split; [by apply list_elem_of_further|done]. }
  case_match; [by eapply Hrest|]. apply elem_of_cons in Hin as [[= -> ->]|Hin]; [|by eapply Hrest].
  exists i. split; [apply list_elem_of_here|]. by apply input_read_ok.
Qed.

(** Evidence comes from an input of the recipient that carried the message. *)
Lemma evidence_ok view seq evidence item :
  native_ok (sv_inputs view) -> read_historical_native_inputs root lookup reads view seq = Ok evidence -> item ∈ evidence ->
  exists i c row, inputs (sv_inputs view) !! i = Some row /\ ni_id row = i /\ ni_owner row = lookup /\
    present (ni_entry row) = true /\ wa_id c ∈ triage_sources i (sv_inputs view) ++ full_sources i (sv_inputs view) /\
    historical_input root reads (sv_claims view) c row = Ok item.
Proof.
  intros Hok H Hin. unfold read_historical_native_inputs in H. apply bind_ok_inv in H as (? & ? & H).
  apply bind_ok_inv in H as (rows & Hrows & H). apply bind_ok_inv in H as (ordered & Hordered & H).
  apply bind_ok_inv in H as (? & ? & H). apply bind_ok_inv in H as (? & ? & H).
  apply mapM_ok in H. apply list_elem_of_lookup in Hin as [n Hn].
  destruct (Forall2_lookup_r _ _ _ _ _ H Hn) as ([c row] & Hrow & Hitem). simpl in Hitem.
  apply list_elem_of_lookup_2 in Hrow. unfold in_stage_order in Hordered. ok_inv.
  assert ((c, row) ∈ rows) as Hmem.
  { unfold of_stage in Hrow. rewrite elem_of_app, !list_elem_of_In, !filter_In in Hrow. apply list_elem_of_In. tauto. }
  destruct (proving_rows_ok _ _ _ _ _ Hrows Hmem) as (i & Hi & Hstored).
  destruct (historical_source_ok _ _ _ _ Hok Hi) as (row' & Hr & Ho & He & Hs). simplify_eq.
  exists i, c, row. split_and!; try done. by apply (ok_keyed _ (proj2 Hok)).
Qed.
(** Evidence that proves a claim includes an input that settles it by itself. *)
Definition settles (item : HistoricalNativeInput) : Prop :=
  hn_equality item = true /\
  (proves_full_source item = true \/ hn_proof item = TriageHistorical IgnoreSelectedTriage \/ hn_proof item = FailedTriageHistorical).

Lemma policy_proof policy evidence :
  policy_proves_source policy evidence = true -> exists item, item ∈ evidence /\ settles item.
Proof.
  assert (Hfull : existsb proves_full_source evidence = true -> exists item, item ∈ evidence /\ settles item).
  { intros (item & Hin%list_elem_of_In & Hp)%existsb_exists. exists item. split; [done|]. split; [|by left].
    unfold proves_full_source in Hp. by destruct (hn_execution item). }
  destruct policy; simpl; [done| |by apply Hfull]. intros [H|H]%orb_true_iff; [by apply Hfull|].
  apply existsb_exists in H as (item & Hin%list_elem_of_In & Hp). unfold proves_triage_source in Hp. unfold settles.
  destruct (hn_proof item) as [[]| |] eqn:E; [| | |done].
  - apply andb_true_iff in Hp as [Heq _]. exists item. rewrite E. tauto.
  - apply andb_true_iff in Hp as [_ Hp]. by apply Hfull.
  - exists item. rewrite E. tauto.
Qed.

Lemma filter_one {A : Type} (p : A -> bool) l x : List.filter p l = [x] -> x ∈ l /\ p x = true.
Proof. intros H. rewrite list_elem_of_In, <- filter_In, H. by left. Qed.

Lemma settled_shown view seq a policy evidence added :
  native_ok (sv_inputs view) ->
  (if wake_active policy then read_historical_native_inputs root lookup reads view seq else Ok []) = Ok evidence ->
  settlement_apply (source_settlement (wa_lifecycle a) evidence policy (wa_id a)) evidence = Some added ->
  wake_active policy = false \/ (exists failure, wa_lifecycle a = FailedAssignment failure) \/ shown_for view a.
Proof.
  intros Hok Hread H. destruct (wake_active policy) eqn:Ha; [right|by left].
  unfold source_settlement in H. rewrite Ha in H. simpl in H.
  destruct (policy_proves_source policy evidence && _) eqn:Hp; [|destruct (wa_lifecycle a); destruct evidence; eauto; done].
  right. apply andb_true_iff in Hp as [(item & Hin & Heq & Hkind)%policy_proof Hclaims].
  rewrite forallb_forall in Hclaims. pose proof (Hclaims item (proj1 (list_elem_of_In _ _) Hin)) as Hid. bools.
  destruct (evidence_ok _ _ _ _ Hok Hread Hin) as (i & c & row & Hrow & Hi & Ho & He & Hsrc & Hitem).
  apply historical_input_ok in Hitem as (Hc & _ & Hx & Hbind & Hproof). destruct (Hbind Heq) as (binding & Hb & Hroot & Hj).
  assert (wa_id c = wa_id a) as Hca by congruence. rewrite Hca in Hsrc. subst i. exists (ni_id row), row, binding.
  split_and!; try done. destruct Hkind as [Hf|[Hk|Hk]].
  - left. unfold proves_full_source in Hf. destruct (hn_execution item) as [|e o]; [done|]. eauto.
  - right. left. rewrite Hk in Hproof. destruct Hproof as [Ht Hv]. by rewrite Hx, Ht.
  - right. right. rewrite Hk in Hproof. destruct Hproof as (Ht & Hv & Hfailed). rewrite Hca in Hfailed. by rewrite Hx, Ht.
Qed.

Lemma standing_proven view o :
  native_ok (sv_inputs view) ->
  source_standing root lookup reads view o = Ok NoWakeSource \/
  (exists found, source_standing root lookup reads view o = Ok (SettledSource found)) ->
  source_proven view o.
Proof.
  intros Hok H.
  assert (exists standing, source_standing root lookup reads view o = Ok standing /\ standing <> BlockedSource) as (standing & Hst & Hnb).
  { destruct H as [->|[found ->]]; eexists; split; done. }
  clear H. unfold source_standing in Hst. apply bind_ok_inv in Hst as (pairs & Hpairs & Hst).
  unfold zip_strict in Hpairs. ok_inv.
  destruct (List.filter _ _) as [|[recipient decision] [|]] eqn:Hf; [done| |done].
  apply filter_one in Hf as [Hin Hl]. simpl in Hl.
  apply bind_ok_inv in Hst as (accepted & Hacc & Hst). destruct accepted as [cohort|]; [|by ok_inv].
  assert (claim_record o root (db (ns_core (sv_cohort view))) = Ok cohort) as Hrec.
  { unfold accepted_cohort in Hacc. apply bind_ok_inv in Hacc as ([row|] & _ & Hacc); [|by ok_inv].
    destruct (cb_sealed row); ok_inv. done. }
  exists recipient, decision, cohort. split_and!; [done|by bools|done|].
  destruct decision as [|? ? policy]; [done|]. apply bind_ok_inv in Hst as (selected & Hsel & Hst).
  destruct selected as [added|]; [|by ok_inv]. unfold selected_inputs in Hsel.
  destruct (List.filter _ _) as [|a [|]] eqn:Hfa; [done| |done].
  apply filter_one in Hfa as [Hain Hal].
  apply bind_ok_inv in Hsel as (? & Hmode & Hsel). apply bind_ok_inv in Hsel as (evidence & Hev & Hsel). ok_inv. bools.
  exists a. split_and!; [done..|]. by eapply settled_shown.
Qed.
End shown.

(** ** Cursors *)

Section history.
Context (root lookup : string) (log : list Delivered) (journal : PromptBinding -> Prop).

(** A view of sessions that were all there before *)
Definition seen_before (past : list NativeSession) (v : SourceView) : Prop :=
  sv_cohort v ∈ past /\ sv_inputs v ∈ past /\ sv_claims v ∈ past.

(** The sessions up to one in a run in which the cursor of the recipient changes only by
    refreshes: a coverage read over sessions that were there before, each message at its own
    moments, then the transaction that publishes it.  Between them any process does anything
    else, and the bus grows. *)
Inductive history : list NativeSession -> NativeSession -> Prop :=
| history_start s : native_start s -> history [s] s
| history_step past s tr s' :
    history past s -> system_step s tr s' -> cursors s' !! (root, lookup) = cursors s !! (root, lookup) ->
    history (s' :: past) s'
| history_refresh past s fields owner reads views through seen pages captured coverage leased ob registry answer bus state s' :
    history past s -> co_root owner = root -> co_lookup fields owner = lookup ->
    (forall b, er_matches reads b = Ok true -> journal b) -> (forall q, seen_before past (views q)) ->
    (forall k, upto through (pv_log (pages k)) = upto through log) ->
    coverage_since root lookup reads views captured through seen pages = Ok coverage ->
    advance_cursor fields owner leased ob registry answer bus captured coverage s = (Ok state, s') ->
    history (s' :: past) s'.

Lemma history_ok past s : history past s -> native_ok s /\ Forall native_ok past.
Proof.
  induction 1 as [s Hs|past s tr s' _ [Hok Hpast] Hstep _|past s fields owner ? ? ? ? ? ? ? ? ? ? ? ? ? s' _ [Hok Hpast] _ _ _ _ _ _ Hadv].
  - apply native_start_ok in Hs. split; [done|]. by constructor.
  - assert (native_ok s') as Hok' by (eapply steps_native_ok; [by eapply system_step_steps | done]). split; [done|by constructor].
  - assert (native_ok s') as Hok'; [|split; [done|by constructor]].
    replace s' with (advance_cursor fields owner leased ob registry answer bus captured coverage s).2 by by rewrite Hadv.
    eapply steps_native_ok; [eapply system_step_steps, sys_operation, op_advance | done].
Qed.

Lemma seen_later past s v : seen_before past v -> seen_before (s :: past) v.
Proof. intros (? & ? & ?). split_and!; by apply list_elem_of_further. Qed.

Lemma candidate_covered fields owner proof captured covered : cu_covered (cursor_candidate fields owner proof captured covered) = covered.
Proof. unfold cursor_candidate. by destruct proof, (state_row captured). Qed.

(** What a cursor covers after an advance it covered before, or the coverage covers it. *)
Lemma advance_covers fields owner leased ob registry answer bus captured coverage s state s' c q :
  advance_cursor fields owner leased ob registry answer bus captured coverage s = (Ok state, s') ->
  co_root owner = root -> co_lookup fields owner = lookup -> cursors s' !! (root, lookup) = Some c -> 0 < q <= cu_covered c ->
  (exists c0, cursors s !! (root, lookup) = Some c0 /\ q <= cu_covered c0) \/ state_covered captured < q <= pc_covered coverage.
Proof.
  intros (proof & Hchecked & _ & [[-> _]|(_ & _ & _ & -> & (Hr & Hl & _) & _)])%advance_cursor_ok Hroot Hlookup Hc Hq;
    [left; exists c; by split; [|lia]|].
  pose proof (cursor_state_row _ _ _ _ (adv_state _ _ _ _ _ _ _ _ _ _ Hchecked)) as [Hrow _]. rewrite Hroot, Hlookup in Hrow.
  unfold cursors in Hc. simpl in Hc. rewrite Hr, Hl, Hroot, Hlookup, lookup_insert_eq in Hc. injection Hc as <-.
  rewrite candidate_covered in Hq. unfold state_covered. rewrite Hrow.
  destruct (state_row captured) as [c0|]; [|right; lia].
  destruct (decide (q <= cu_covered c0)); [left; by exists c0|right; lia].
Qed.

(** C6: In a run in which a cursor changes only by refreshes, every message of the recipient
    that the cursor covers was proven at sessions of the run: its cohort is sealed, and it
    wakes nothing for the recipient, or the claim it made needs no input, failed, or was put
    to the recipient's model with a prompt that was bound before launch and is in its
    journal.  No other message is passed over, in whatever order processes read, publish and
    fail. *)
Theorem cursor_covers_proven_sources past s c o :
  StronglySorted (fun a b : Delivered => seq_of a < seq_of b) log -> history past s ->
  cursors s !! (root, lookup) = Some c ->
  o ∈ log -> includes_lookup o lookup = true -> 0 < seq_of o <= cu_covered c ->
  exists v, seen_before past v /\ source_proven root lookup journal v o.
Proof.
  intros Hs Hh. revert c.
  induction Hh as [s [_ Hs0]|past s tr s' Hh IH Hstep Hsame|past s fields owner reads views through seen pages captured coverage
    leased ob registry answer bus state s' Hh IH Hroot Hlookup Hj Hviews Hlog Hcov Hadv]; intros c Hc Ho Hinc Hq.
  - unfold cursors in Hc. rewrite Hs0 in Hc. simpl in Hc. by rewrite lookup_empty in Hc.
  - rewrite Hsame in Hc. destruct (IH c) as (v & ? & ?); [done..|]. exists v. split; [by apply seen_later|done].
  - destruct (advance_covers _ _ _ _ _ _ _ _ _ _ _ _ _ _ Hadv Hroot Hlookup Hc Hq) as [(c0 & Hc0 & Hle)|Hnew].
    { destruct (IH c0) as (v & ? & ?); [done..|lia|]. exists v. split; [by apply seen_later|done]. }
    exists (views (seq_of o)). split; [by apply seen_later|].
    apply (standing_proven root lookup journal reads Hj).
    + apply history_ok in Hh as [_ Hpast]. rewrite Forall_forall in Hpast. apply Hpast, Hviews.
    + destruct (coverage_passed _ _ _ _ _ _ _ _ _ _ _ Hs Hlog Hcov Ho Hinc Hnew) as [[? _]|(new & ? & _)]; eauto.
Qed.
End history.
