(* ===== verification/Scenario.v ===== *)
(** * A worked scenario

    One wire message is claimed, executed and answered, with the branches a turn can take:
    a retried failure, an unknown outcome, an early failure.  Every operation is evaluated
    on concrete rows, and each theorem of the development that has hypotheses is applied
    at a state of the scenario, so its hypotheses can hold. *)

From stdpp Require Import base gmap strings list sorting.
From Stdlib Require Import ZArith Lia.
From S2P Require Import Prelude Contracts Lifecycle WakePolicy AssignmentStates ResponseStates.
From S2P Require Import AttemptStates ExecutionStates Rows TableGuards Database Session SchemaSteps.
From S2P Require Import SchemaInvariants Replay Stepwise ParticipantStore AssignmentStore.
From S2P Require Import Snapshot Settlement Delivery ExecutionStore Sha256 AttemptStore Fences Progress.
From S2P Require Import AttemptOutcomes Publication PublicationFacts ExecutionFacts.

Definition run {A : Type} (m : M A) (s : Session) : Session := (m s).2.
Definition runW {A : Type} (m : W A) (w : World) : World := (m w).2.

(** Conversion compares two runs before it evaluates one. *)
Strategy 1000 [run runW].

(** ** The sessions *)

Definition fresh : Session := mkSession empty_db (fun _ => 1000) 0.
Definition registered : Session := run (register "owner" true) fresh.

Definition claim : WakeAssignment :=
  mkWakeAssignment "claim-1" "worker" "owner" 1 "message-1" DIRECT FullPendingAssignment
    900 900 1 RESOLVER_VERSION POLICY_VERSION.
Definition accepted : Session := run (accept claim) registered.

Definition original : Message :=
  mkMessage "sender" "worker" "please look" "message-1" "info" 1 "".
Definition source : SelectedSource :=
  mkSelectedSource "claim-1" true
    (mkDelivered original "sender" [mkFrozenRecipient "owner" "worker"]
       [WakeDecision "owner" DIRECT FullWake] "sender-lookup" "revision-1"
       (Sha256.sha256_hex "envelope-1")).
Definition created : Session := run (create "exec-1" WireOrigin "owner" 2 [source]) accepted.
Definition released : Session := run (mark_pending "exec-1" 1) created.

Definition request : AttemptStart := mkAttemptStart "exec-1" 1 "owner" 1 "token-1" 2 0.
Definition started : Session := run (start request) released.

Definition fence (revision : Z) : OwnerFence :=
  mkOwnerFence "exec-1" 1 "owner" 1 revision "token-1".
Definition observe (revision : Z) (p : LivePhase) (final : bool) : M (applied StartResult) :=
  advance (fence revision) (LiveKind p) 1 final final (negb final) NoReasonCode.
Definition prompted : Session := run (observe 1 PromptAccepted false) started.
Definition running : Session := run (observe 2 ModelRunning false) prompted.
Definition settling : Session :=
  run (observe 4 Settling true) (run (observe 3 Settling false) running).

(** The turn failed in a way its provider may retry; the owner restarts and tries again. *)
Definition ended : Session := run (observe 3 ModelRunning true) running.
#[local] Abbreviation fail_retryable :=
  (settle_nonpublication (fence 4) 1 AttemptFailed NoReasonCode (Some RetryableProviderFailure) no_native_resources).
Definition deferred : Session := run fail_retryable ended.
Definition again : Session := run (advance_generation "owner" 1) deferred.
Definition request2 : AttemptStart := mkAttemptStart "exec-1" 2 "owner" 2 "token-2" 4 2.
Definition restarted : Session := run (start request2) again.

(** The outcome of the turn is unknown. *)
#[local] Abbreviation lose :=
  (fail_unknown (fence 3) 1 no_native_resources).
Definition lost : Session := run lose running.

(** The execution fails before its first attempt. *)
#[local] Abbreviation abandon :=
  (fail_unstarted "exec-1" 1 NoReasonCode).
Definition abandoned : Session := run abandon created.

(** ** The response *)

Definition boundary : ResponseBoundary := {|
  rb_live _ := Ok tt; rb_recipient := "owner"; rb_current _ := Ok tt; rb_cohort _ _ := Ok tt;
  rb_root := "root"; rb_sender_lookup _ := Ok "owner"; rb_born_name _ := Ok "worker";
  rb_answers _ _ := Ok ""; rb_content _ _ := "info"; rb_identity _ _ _ _ := "reply-1";
  rb_conversation _ _ := Ok tt; rb_route i := Ok (pi_target i);
  rb_prepare m _ := Ok m; rb_notified := Ok tt; rb_release := no_native_resources |}.

#[local] Abbreviation prepare :=
  (prepare_fenced_response boundary (fence 5) "done" "sender").
Definition prepared : Session := run prepare settling.
Definition delivered_bus : Bus := mkBus [mkBusRow None original] 1 [].
Definition prepared_world : World := mkWorld prepared delivered_bus.
Definition dispatched_world : World := runW (dispatch_response boundary (fence 5) "sender") prepared_world.
Definition answered_world : World :=
  runW (acknowledge_response boundary true (fence 5) "sender") dispatched_world.

Definition dispatched : System := mkSystem dispatched_world {[0%nat := mkCall (fence 5) "sender" true]}.
Definition published : System := mkSystem answered_world (delete 0%nat (sys_calls dispatched)).

(** ** Evaluating an operation *)

Lemma run_ok {A : Type} (m : M A) (s s' : Session) :
  s' = run m s -> is_ok (m s).1 = true -> exists a, m s = (Ok a, s').
Proof. intros ->. unfold run. destruct (m s) as [[a|e] s']; [by exists a | done]. Qed.

Definition is_applied {E A : Type} (r : result E (applied A)) : bool :=
  match r with Ok (Applied _) => true | _ => false end.

Lemma run_applied {A : Type} (m : M (applied A)) (s s' : Session) :
  s' = run m s -> is_applied (m s).1 = true -> exists a, m s = (Ok (Applied a), s').
Proof. intros ->. unfold run. destruct (m s) as [[[a|a]|e] s']; [by exists a | done | done]. Qed.

Lemma runW_ok {A : Type} (m : W A) (w w' : World) (r : outcome A) :
  w' = runW m w -> (m w).1 = r -> m w = (r, w').
Proof. intros -> <-. apply surjective_pairing. Qed.

Lemma lookup_present {A : Type} (o : option A) (check : A -> bool) :
  match o with Some a => check a | None => false end = true ->
  exists a, o = Some a /\ check a = true.
Proof. destruct o as [a|]; [by exists a | done]. Qed.

(** ** Every session is reached from the empty store *)

Definition follows (s : Session) : Prop := rtc db_step empty_db (db s).

Lemma steps_run {A : Type} (m : M A) (d : DB) (s : Session) :
  stepwise m -> rtc db_step d (db s) -> rtc db_step d (db (run m s)).
Proof. intros Hm Hs. etrans; [exact Hs | apply Hm]. Qed.

Lemma follows_run {A : Type} (m : M A) (s : Session) : stepwise m -> follows s -> follows (run m s).
Proof. apply steps_run. Qed.

Lemma follows_reachable s : follows s -> db_reachable (db s).
Proof. apply reachable_steps. constructor. Qed.

Lemma registered_follows : follows registered.
Proof. apply follows_run; [apply stepwise_register | apply rtc_refl]. Qed.

Lemma accepted_follows : follows accepted.
Proof. apply follows_run; [apply stepwise_accept | apply registered_follows]. Qed.

Lemma created_follows : follows created.
Proof. apply follows_run; [apply stepwise_create | apply accepted_follows]. Qed.

Lemma released_follows : follows released.
Proof. apply follows_run; [apply stepwise_mark_pending | apply created_follows]. Qed.

Lemma started_follows : follows started.
Proof. apply follows_run; [apply stepwise_start | apply released_follows]. Qed.

Lemma running_follows : follows running.
Proof. do 2 (apply follows_run; [apply stepwise_advance|]). apply started_follows. Qed.

Lemma running_after_start : rtc db_step (db started) (db running).
Proof. do 2 (apply steps_run; [apply stepwise_advance|]). apply rtc_refl. Qed.

Lemma released_after_accepted : rtc db_step (db accepted) (db released).
Proof.
  apply steps_run; [apply stepwise_mark_pending|]. apply steps_run; [apply stepwise_create|].
  apply rtc_refl.
Qed.

Lemma settling_follows : follows settling.
Proof. do 2 (apply follows_run; [apply stepwise_advance|]). apply running_follows. Qed.

Lemma ended_follows : follows ended.
Proof. apply follows_run; [apply stepwise_advance | apply running_follows]. Qed.

Lemma deferred_follows : follows deferred.
Proof. apply follows_run; [apply stepwise_settle_nonpublication | apply ended_follows]. Qed.

Lemma again_follows : follows again.
Proof. apply follows_run; [apply stepwise_advance_generation | apply deferred_follows]. Qed.

Lemma restarted_follows : follows restarted.
Proof. apply follows_run; [apply stepwise_start | apply again_follows]. Qed.

Lemma restarted_after_again : rtc db_step (db again) (db restarted).
Proof. apply steps_run; [apply stepwise_start | apply rtc_refl]. Qed.

Lemma prepared_follows : follows prepared.
Proof. apply follows_run; [apply stepwise_prepare_fenced_response | apply settling_follows]. Qed.

(** ** The publishing system *)

Lemma dispatched_reachable : system_reachable dispatched.
Proof.
  exists (clock_ms fresh).
  eapply rtc_l; [apply (other_statements _ _ prepared); [apply prepared_follows | vm_compute; reflexivity]|].
  eapply rtc_l; [apply (other_message _ _ original); vm_compute; reflexivity|].
  apply rtc_once.
  apply (dispatches boundary (fence 5) "sender" prepared_world dispatched_world true 0%nat ∅);
    [reflexivity|].
  apply runW_ok; [reflexivity | vm_compute; reflexivity].
Qed.

Lemma published_reachable : system_reachable published.
Proof.
  destruct dispatched_reachable as [clock H]. exists clock. eapply rtc_r; [exact H|].
  apply (publishes boundary dispatched_world
           (acknowledge_response boundary true (fence 5) "sender" dispatched_world).1
           answered_world 0%nat (mkCall (fence 5) "sender" true));
    [reflexivity | apply runW_ok; reflexivity].
Qed.

Lemma published_database : db_reachable (sys_db published).
Proof. apply ok_database, reachable_system_ok, published_reachable. Qed.

Lemma system_database w calls : system_reachable (mkSystem w calls) -> db_reachable (db (w_session w)).
Proof. intros H. exact (ok_database _ (reachable_system_ok _ H)). Qed.

Lemma dispatched_database : db_reachable (db (w_session dispatched_world)).
Proof. apply (system_database dispatched_world (sys_calls dispatched)), dispatched_reachable. Qed.

Lemma published_commits : foreign_keys_hold (sys_db published) = true.
Proof. vm_compute. reflexivity. Qed.

Lemma observed_kind s k b x g s' : observed s k b x g = Ok s' -> attempt_kind s' = k.
Proof.
  unfold observed. intros H. apply bind_ok_inv in H as (u & _ & H).
  apply bind_ok_inv in H as (v & _ & H). unfold attempt_load, live_attempt in H.
  destruct k; ok_inv; [|done]. destruct (attempt_lease s); ok_inv. done.
Qed.

(** ** The theorems at the states of the scenario *)

(** Publication *)

Lemma response_appended_at_most_once_witness :
  exists i, publication_intents (sys_db published) !! ("exec-1", "sender") = Some i /\
    (length (List.filter (keyed_by (pi_key i)) (bus_rows (sys_bus published))) <= 1)%nat.
Proof.
  destruct (lookup_present (publication_intents (sys_db published) !! ("exec-1", "sender"))
              (fun _ => true)) as (i & Hi & _); [vm_compute; reflexivity|].
  exists i. split; [exact Hi|].
  exact (proj1 (proj2 (response_appended_at_most_once published published_reachable) _ _ _ Hi)).
Defined.

Lemma acknowledgement_has_durable_row_witness :
  exists r i m, publication_receipts (sys_db published) !! ("exec-1", "sender") = Some r /\
    mkBusRow (Some (pi_key i)) m ∈ bus_rows (sys_bus published) /\ msg_reference m = pe_reference r.
Proof.
  destruct (lookup_present (publication_receipts (sys_db published) !! ("exec-1", "sender"))
              (fun _ => true)) as (r & Hr & _); [vm_compute; reflexivity|].
  destruct (acknowledgement_has_durable_row published "exec-1" "sender" r published_reachable Hr)
    as (i & m & _ & Hrow & _ & Href).
  exists r, i, m. split; [exact Hr|]. split; [exact Hrow | exact Href].
Defined.

Lemma dispatched_response_never_resent_witness :
  w_bus (publish_fenced_response boundary (fence 5) "sender" dispatched_world).2
  = w_bus dispatched_world.
Proof.
  destruct (lookup_present (append_dispatches (db (w_session dispatched_world)) !! ("exec-1", "sender"))
              (fun _ => true)) as (di & Hdi & _); [vm_compute; reflexivity|].
  destruct (publish_fenced_response boundary (fence 5) "sender" dispatched_world) as [r w] eqn:E.
  exact (dispatched_response_never_resent boundary (fence 5) "sender" _ w di r Hdi
           dispatched_database E).
Defined.

Lemma publication_key_names_one_route_witness :
  ("exec-1", "sender") = ("exec-1", "sender") :> string * string.
Proof.
  apply (publication_key_names_one_route "exec-1" "sender" "exec-1" "sender"
           "publication:v1:exec-1:sender"); reflexivity.
Defined.

(** Outcomes of an attempt *)

Lemma unknown_outcome_never_retried_witness :
  exists r, lose running = (Ok r, lost) /\ retry_basis (db lost) "exec-1" = false /\
    attempts (db lost) !! ("exec-1", 2) = None.
Proof.
  destruct (run_ok lose running lost) as [r Hr]; [reflexivity | vm_compute; reflexivity|]. exists r.
  destruct (unknown_outcome_never_retried (fence 3) 1 no_native_resources running lost r
              (follows_reachable _ running_follows) Hr) as (sn0 & a & _ & _ & _ & Hlater).
  split; [exact Hr|]. exact (Hlater _ (rtc_refl _ _)).
Defined.

Lemma settlement_couples_every_row_witness :
  exists r sn0, fail_retryable ended = (Ok r, deferred) /\ untouched sn0 (db ended) (db deferred) /\
    replay_assessments (db ended) !! "exec-1" = None /\
    replay_assessments (db deferred) !! "exec-1" = Some (mkReplayAssessments "exec-1" ReplayFact_NONE true false 1).
Proof.
  destruct (run_ok fail_retryable ended deferred) as [r Hr]; [reflexivity | vm_compute; reflexivity|].
  destruct (settlement_couples_every_row (fence 4) 1 AttemptFailed NoReasonCode
              (Some RetryableProviderFailure) no_native_resources ended deferred r
              (follows_reachable _ ended_follows) Hr) as (sn0 & a & _ & _ & _ & [Hkept _] & Hun).
  exists r, sn0. split; [exact Hr|]. split; [exact Hun|]. split; [vm_compute; reflexivity|].
  transitivity (replay_assessments (assessed (Some RetryableProviderFailure) "exec-1" (db ended)) !! "exec-1").
  - exact (Hkept eq_refl).
  - vm_compute. reflexivity.
Defined.

Lemma silent_wire_completion_refused_witness :
  exists err, (settle_nonpublication (fence 5) 1 Succeeded NoReasonCode None no_native_resources
                 settling).1 = Err err.
Proof.
  destruct (lookup_present (executions (db settling) !! "exec-1")
              (fun x => wire_origin (ex_origin x))) as (x & Hx & Hwire); [vm_compute; reflexivity|].
  destruct (settle_nonpublication (fence 5) 1 Succeeded NoReasonCode None no_native_resources
              settling) as [result s'] eqn:E.
  exact (proj1 (silent_wire_completion_refused (fence 5) 1 NoReasonCode None no_native_resources
           settling s' x result (follows_reachable _ settling_follows) Hx Hwire E)).
Defined.

Lemma observed_effects_deny_retry_witness :
  retry_basis (db (run (accumulate "exec-1" 2) running)) "exec-1" = false.
Proof.
  destruct (run_ok (accumulate "exec-1" 2) running (run (accumulate "exec-1" 2) running)) as [u Hu]; [reflexivity | vm_compute; reflexivity|].
  refine (proj2 (observed_effects_deny_retry "exec-1" 2 running _ u
           (follows_reachable _ running_follows) Hu _) _ (rtc_refl _ _)). discriminate.
Defined.

(** Starting and fencing *)

Lemma start_admits_only_authorized_witness :
  exists r a, start request2 again = (Ok (Applied r), restarted) /\
    attempts (db again) !! ("exec-1", 1) = Some a /\ at_lifecycle a = TerminalAttempt AttemptFailed /\
    retry_basis (db again) "exec-1" = true.
Proof.
  destruct (run_applied (start request2) again restarted) as [r Hr];
    [reflexivity | vm_compute; reflexivity|].
  destruct (start_admits_only_authorized request2 again restarted r
              (follows_reachable _ again_follows) Hr)
    as (_ & x & _ & _ & _ & [[_ Hone]|(o & a & _ & Ho & Ha & Hfail & _ & Hbasis)]);
    [discriminate Hone|].
  assert (o = 1) as -> by (simpl in Ho; lia).
  exists r, a. split; [exact Hr|]. split; [exact Ha|]. split; [exact Hfail | exact Hbasis].
Defined.

Lemma start_issues_current_fence_witness :
  exists r a, start request released = (Ok (Applied r), started) /\
    fence_read (sr_fence r) (db started) = Ok (sr_snapshot r, a).
Proof.
  destruct (run_applied (start request) released started) as [r Hr];
    [reflexivity | vm_compute; reflexivity|].
  destruct (start_issues_current_fence request released started r
              (follows_reachable _ released_follows) Hr) as (a & Hread & _).
  exists r, a. split; [exact Hr | exact Hread].
Defined.

Lemma start_issued_once_witness : db (run (start request) running) = db running.
Proof.
  destruct (run_applied (start request) released started) as [r Hr];
    [reflexivity | vm_compute; reflexivity|].
  refine (proj1 (start_issued_once request released started running _ r _
                   (follows_reachable _ released_follows) Hr _ (surjective_pairing _))).
  apply running_after_start.
Defined.

Lemma advance_records_observation_witness :
  exists r a a', observe 1 PromptAccepted false started = (Ok r, prompted) /\
    fence_read (fence 1) (db started) = Ok a /\ at_revision a' = at_revision a.2 + 1 /\
    exists err, fence_read (fence 1) (db prompted) = Err err.
Proof.
  destruct (run_ok (observe 1 PromptAccepted false) started prompted) as [r Hr];
    [reflexivity | vm_compute; reflexivity|].
  destruct (advance_records_observation (fence 1) (LiveKind PromptAccepted) 1 false false true
              NoReasonCode started prompted r (follows_reachable _ started_follows) Hr)
    as (sn0 & a & a' & Hread & _ & _ & _ & Hrev & _ & _ & Hstale).
  exists r, (sn0, a), a'. split; [exact Hr|]. split; [exact Hread|]. split; [exact Hrev|].
  exact (Hstale _ (rtc_refl _ _)).
Defined.

Lemma current_fence_advances_witness :
  exists r s' a', observe 3 Settling false running = (Ok (Applied r), s') /\
    attempts (db s') !! ("exec-1", 1) = Some a' /\ attempt_kind (at_lifecycle a') = LiveKind Settling.
Proof.
  destruct (proj1 (is_ok_spec (fence_read (fence 3) (db running)))) as [[sn0 a] Hread];
    [vm_compute; reflexivity|].
  assert (Hfacts : match fence_read (fence 3) (db running) with
                   | Ok (sn1, a1) => (sn_pointer_revision sn1 =? 1)
                       && is_ok (observed (at_lifecycle a1) (LiveKind Settling) false false true)
                   | Err _ => false end = true) by (vm_compute; reflexivity).
  rewrite Hread in Hfacts. apply andb_true_iff in Hfacts as [Hrev Hobs].
  apply Z.eqb_eq in Hrev. apply is_ok_spec in Hobs as [life Hlife].
  assert (Hkeys : foreign_keys_hold (db running) = true) by (vm_compute; reflexivity).
  assert (Htime : 0 <= clock_ms running (ticks running)) by (vm_compute; discriminate).
  destruct (current_fence_advances (fence 3) Settling false false true NoReasonCode running sn0 a life
              (follows_reachable _ running_follows) Hkeys Hread Hlife eq_refl Htime)
    as (r & s' & a' & Hadv & Hrow & Hstate & _).
  rewrite Hrev in Hadv. exists r, s', a'. split; [exact Hadv|]. split; [exact Hrow|].
  rewrite Hstate. exact (observed_kind _ _ _ _ _ _ Hlife).
Defined.

Lemma superseded_generation_fences_forever_witness :
  exists err, fence_read (fence 4) (db restarted) = Err err.
Proof.
  destruct (lookup_present (owner_generations (db again) !! "owner")
              (fun g => 1 <? og_generation g)) as (g & Hg & Hlt); [vm_compute; reflexivity|].
  exact (superseded_generation_fences_forever (db again) (db restarted) (fence 4) g
           (follows_reachable _ again_follows) restarted_after_again Hg
           (proj1 (Z.ltb_lt _ _) Hlt)).
Defined.

(** Schema invariants *)

Lemma attempts_contiguous_and_fenced_witness :
  exists a p, attempts (db restarted) !! ("exec-1", 2) = Some a /\
    attempts (db restarted) !! ("exec-1", 1) = Some p /\ at_generation p < at_generation a.
Proof.
  destruct (lookup_present (attempts (db restarted) !! ("exec-1", 2)) (fun _ => true))
    as (a & Ha & _); [vm_compute; reflexivity|].
  destruct (attempts_contiguous_and_fenced (db restarted) "exec-1" 2 a
              (follows_reachable _ restarted_follows) Ha) as (_ & Hprev).
  destruct (Hprev 1) as (p & Hp & _ & Hlt); [lia|].
  exists a, p. split; [exact Ha|]. split; [exact Hp | exact Hlt].
Defined.

Lemma pointer_names_active_execution_witness :
  exists x, executions (db running) !! "exec-1" = Some x /\ ex_lifecycle x = ActiveExecution 1 /\
    ex_owner x = "owner".
Proof.
  destruct (lookup_present (current_executions (db running) !! "owner")
              (fun p => bool_decide (ptr_execution p = Some "exec-1" /\ ptr_attempt p = Some 1)))
    as (p & Hp & Hnames); [vm_compute; reflexivity|].
  apply bool_decide_eq_true in Hnames as [He Ho].
  apply (pointer_names_active_execution (db running) "owner" "exec-1" 1
           (follows_reachable _ running_follows)); [vm_compute; reflexivity|].
  exists p. split; [exact Hp|]. split; [exact He | exact Ho].
Defined.

Definition live_lease (a : AttemptRecord) : bool :=
  match at_lifecycle a with LiveAttempt _ _ _ _ => true | TerminalAttempt _ => false end.

Lemma one_live_attempt_per_owner_witness : exists a p l b x,
  attempts (db running) !! ("exec-1", 1) = Some a /\ at_lifecycle a = LiveAttempt p l b x /\
  ("exec-1", 1) = ("exec-1", 1) :> string * Z.
Proof.
  destruct (lookup_present (attempts (db running) !! ("exec-1", 1)) live_lease)
    as (a & Ha & Hlive); [vm_compute; reflexivity|].
  unfold live_lease in Hlive. destruct (at_lifecycle a) as [p l b x|] eqn:Elife; [|discriminate].
  exists a, p, l, b, x. split; [exact Ha|]. split; [exact Elife|].
  apply (one_live_attempt_per_owner (db running) "exec-1" 1 a p l b x "exec-1" 1 a p l b x
           (follows_reachable _ running_follows)); [vm_compute; reflexivity|..];
    first [exact Ha | exact Elife | reflexivity].
Defined.

Lemma published_iff_receipt_witness :
  exists r o, publication_receipts (sys_db published) !! ("exec-1", "sender") = Some r /\
    obligations (sys_db published) !! ("exec-1", "sender") = Some o /\
    ob_lifecycle o = PublishedResponse (pe_message_id r) (pe_seq r).
Proof.
  destruct (lookup_present (publication_receipts (sys_db published) !! ("exec-1", "sender"))
              (fun _ => true)) as (r & Hr & _); [vm_compute; reflexivity|].
  destruct (proj2 (published_iff_receipt (sys_db published) "exec-1" "sender" (pe_message_id r)
                     (pe_seq r) published_database published_commits))
    as (o & Ho & Hlife); [exists r; split; [exact Hr | split; reflexivity]|].
  exists r, o. split; [exact Hr|]. split; [exact Ho | exact Hlife].
Defined.

Lemma receipt_matches_frozen_intent_witness :
  exists r i, publication_receipts (sys_db published) !! ("exec-1", "sender") = Some r /\
    publication_intents (sys_db published) !! ("exec-1", "sender") = Some i /\
    pi_message_id i = pe_message_id r.
Proof.
  destruct (lookup_present (publication_receipts (sys_db published) !! ("exec-1", "sender"))
              (fun _ => true)) as (r & Hr & _); [vm_compute; reflexivity|].
  destruct (receipt_matches_frozen_intent (sys_db published) "exec-1" "sender" r published_database Hr)
    as ((i & Hi & Hm) & _).
  exists r, i. split; [exact Hr|]. split; [exact Hi | exact Hm].
Defined.

Lemma terminal_attempt_immutable_witness :
  exists a, attempts (db again) !! ("exec-1", 1) = Some a /\
    attempts (db restarted) !! ("exec-1", 1) = Some a.
Proof.
  destruct (lookup_present (attempts (db again) !! ("exec-1", 1))
              (fun a => bool_decide (at_lifecycle a = TerminalAttempt AttemptFailed)))
    as (a & Ha & Hlife); [vm_compute; reflexivity|].
  apply bool_decide_eq_true in Hlife. exists a. split; [exact Ha|].
  exact (terminal_attempt_immutable (db again) (db restarted) _ a AttemptFailed
           restarted_after_again Ha Hlife).
Defined.

Lemma replay_revocation_permanent_witness :
  exists r, replay_assessments (db (run (accumulate "exec-1" 2) lost)) !! "exec-1" = Some r /\
    ra_allows_retry r = false.
Proof.
  destruct (lookup_present (replay_assessments (db lost) !! "exec-1")
              (fun r => negb (ra_allows_retry r))) as (r & Hr & Hno); [vm_compute; reflexivity|].
  destruct (replay_revocation_permanent (db lost) _ "exec-1" r (steps_run _ _ lost (stepwise_accumulate "exec-1" 2) (rtc_refl _ _))
              Hr (proj1 (negb_true_iff _) Hno)) as (r' & Hr' & Hno' & _).
  exists r'. split; [exact Hr' | exact Hno'].
Defined.

Lemma retry_rule_agrees_with_view_witness :
  exists sn0, recovery_read "exec-1" (db deferred) = Ok sn0 /\
    sn_retry_authorized sn0 = retry_basis (db deferred) "exec-1".
Proof.
  destruct (proj1 (is_ok_spec (recovery_read "exec-1" (db deferred)))) as [sn0 Hsn];
    [vm_compute; reflexivity|].
  exists sn0. split; [exact Hsn|].
  exact (retry_rule_agrees_with_view (db deferred) "exec-1" sn0
           (follows_reachable _ deferred_follows) Hsn).
Defined.

(** Executions *)

Lemma create_binds_every_source_witness :
  exists r c, create "exec-1" WireOrigin "owner" 2 [source] accepted = (Ok (Applied r), created) /\
    wake_claims (db created) !! "claim-1" = Some c /\ wa_execution_id c = Some "exec-1".
Proof.
  destruct (run_applied (create "exec-1" WireOrigin "owner" 2 [source]) accepted created) as [r Hr];
    [reflexivity | vm_compute; reflexivity|].
  destruct (create_binds_every_source "exec-1" WireOrigin "owner" 2 [source] accepted created r Hr)
    as (_ & _ & Hall).
  destruct (Hall 0%nat source eq_refl) as (_ & (c & Hc & He & _) & _).
  exists r, c. split; [exact Hr|]. split; [exact Hc | exact He].
Defined.

Lemma create_existing_changes_nothing_witness :
  db (run (create "exec-1" WireOrigin "owner" 2 [source]) created) = db created.
Proof.
  destruct (lookup_present (executions (db created) !! "exec-1") (fun _ => true)) as (x & Hx & _);
    [vm_compute; reflexivity|].
  exact (proj1 (create_existing_changes_nothing "exec-1" WireOrigin "owner" 2 [source] created _ x _
                  Hx (surjective_pairing _))).
Defined.

Lemma mark_pending_releases_once_witness :
  exists r, mark_pending "exec-1" 1 created = (Ok r, released) /\
    exists err, (mark_pending "exec-1" 2 released).1 = Err err.
Proof.
  destruct (run_ok (mark_pending "exec-1" 1) created released) as [r Hr];
    [reflexivity | vm_compute; reflexivity|].
  exists r. split; [exact Hr|].
  exact (proj1 (proj2 (mark_pending_releases_once "exec-1" 1 created released r Hr) 2 _ _
                  (surjective_pairing _))).
Defined.

Lemma fail_unstarted_fails_every_row_witness :
  exists r x, abandon created = (Ok r, abandoned) /\
    executions (db abandoned) !! "exec-1" = Some x /\ ex_lifecycle x = FailedExecution None.
Proof.
  destruct (run_ok abandon created abandoned) as [r Hr]; [reflexivity | vm_compute; reflexivity|].
  destruct (fail_unstarted_fails_every_row "exec-1" 1 NoReasonCode created abandoned r
              (follows_reachable _ created_follows) Hr)
    as (sn0 & x & _ & _ & Hx & Hlife & _).
  exists r, x. split; [exact Hr|]. split; [exact Hx | exact Hlife].
Defined.

(** Assignments and participants *)

Lemma accept_durably_idempotent_witness :
  exists c, accept claim released = (Ok (AlreadyApplied c), released) /\
    assignment_mode (wa_lifecycle c) = assignment_mode FullPendingAssignment.
Proof.
  destruct (run_ok (accept claim) registered accepted) as [r Hr];
    [reflexivity | vm_compute; reflexivity|].
  destruct (accept_durably_idempotent claim registered accepted r released
              (follows_reachable _ registered_follows) Hr released_after_accepted
              ltac:(vm_compute; reflexivity)) as (c & Hagain & _ & Hmode).
  exists c. split; [exact Hagain | exact Hmode].
Defined.

Lemma declared_preengagement_recorded_witness :
  exists s', transition_preengagement "claim-1" DeferredKind 1 accepted
    = (Ok (Applied (wa_progress claim (DeferredAssignment (PendingDecision FullWake))
                      (Z.max (clock_ms accepted (ticks accepted)) 900) 2)), s').
Proof.
  assert (Hclaim : wake_claims (db accepted) !! "claim-1" = Some claim) by (vm_compute; reflexivity).
  assert (Htime : 0 <= clock_ms accepted (ticks accepted)) by (vm_compute; discriminate).
  assert (Hkeys : foreign_keys_hold (db accepted) = true) by (vm_compute; reflexivity).
  pose proof (declared_preengagement_recorded "claim-1" DeferredKind claim
                (DeferredAssignment (PendingDecision FullWake)) accepted
                (follows_reachable _ accepted_follows) Hkeys Hclaim eq_refl eq_refl Htime) as H.
  destruct H as (s' & Hs & _). exists s'. exact Hs.
Defined.

Lemma register_idempotent_witness :
  exists r, register "owner" true fresh = (Ok r, registered) /\
    register "owner" false registered = (Ok (AlreadyApplied (applied_value r)), registered).
Proof.
  destruct (run_ok (register "owner" true) fresh registered) as [r Hr];
    [reflexivity | vm_compute; reflexivity|].
  exists r. split; [exact Hr|].
  exact (register_idempotent "owner" true false fresh registered r Hr).
Defined.

Lemma advance_generation_fenced_witness :
  exists r, advance_generation "owner" 1 deferred = (Ok r, again) /\
    attempts (db again) = attempts (db deferred).
Proof.
  destruct (run_ok (advance_generation "owner" 1) deferred again) as [r Hr];
    [reflexivity | vm_compute; reflexivity|].
  destruct (advance_generation_fenced "owner" 1 deferred again r
              (follows_reachable _ deferred_follows) Hr) as (_ & _ & _ & Hatt & _).
  exists r. split; [exact Hr | exact Hatt].
Defined.

(** State families *)

Lemma assignment_load_roundtrip_witness :
  (let engaged := EngagedAssignment (mkEngagement BoundedTriageEngagement "exec-1" "sender") in
   assignment_load EngagedKind (assignment_mode engaged) (Some "engage") (Some "exec-1") (Some "sender") = Ok engaged) /\
  (let failed := FailedAssignment (EngagementDecision (mkEngagement FullEngagement "exec-2" "sender")) in
   assignment_load FailedKind (assignment_mode failed) None (Some "exec-2") (Some "sender") = Ok failed) /\
  (let deferred := DeferredAssignment (PendingDecision FullWake) in
   assignment_load DeferredKind FullWake None None None = Ok deferred).
Proof.
  split; [|split].
  - apply (assignment_load_roundtrip (EngagedAssignment (mkEngagement BoundedTriageEngagement "exec-1" "sender"))).
    reflexivity.
  - apply (assignment_load_roundtrip (FailedAssignment (EngagementDecision (mkEngagement FullEngagement "exec-2" "sender")))).
    reflexivity.
  - apply (assignment_load_roundtrip (DeferredAssignment (PendingDecision FullWake))). reflexivity.
Defined.

Lemma preengagement_frozen_policy_witness :
  exists s', preengagement FullPendingAssignment DeferredKind = Ok s' /\
    assignment_kind s' = DeferredKind /\
    assignment_mode s' = assignment_mode FullPendingAssignment.
Proof.
  destruct (proj1 (is_ok_spec (preengagement FullPendingAssignment DeferredKind))) as [s' Hs];
    [reflexivity|].
  destruct (preengagement_frozen_policy FullPendingAssignment s' DeferredKind Hs)
    as (Hk & _ & Hmode & _).
  exists s'. split; [exact Hs|]. split; [exact Hk | exact Hmode].
Defined.

Lemma harness_delivery_needs_unbound_witness :
  exists c err, wake_claims (db deferred) !! "claim-1" = Some c /\
    harness_delivery (wa_lifecycle c) <> [] /\
    walk_states (harness_delivery (wa_lifecycle c)) (wa_lifecycle c) = Err err.
Proof.
  destruct (lookup_present (wake_claims (db deferred) !! "claim-1")
              (fun c => assignment_wf (wa_lifecycle c)
                        && bool_decide (harness_delivery (wa_lifecycle c) <> [])
                        && bool_decide (assignment_execution_id (wa_lifecycle c) = Some "exec-1")))
    as (c & Hc & Hchecks); [vm_compute; reflexivity|].
  apply andb_true_iff in Hchecks as [Hchecks He]. apply andb_true_iff in Hchecks as [Hwf Hsteps].
  apply bool_decide_eq_true in Hsteps. apply bool_decide_eq_true in He.
  exists c. eexists. split; [exact Hc|]. split; [exact Hsteps|].
  exact (proj2 (harness_delivery_needs_unbound (wa_lifecycle c) Hwf Hsteps) "exec-1" He).
Defined.

Lemma lifecycle_trigger_is_may_become_witness :
  edges_violation CompletedExec FailedExec || finalized_violation CompletedExec FailedExec = true.
Proof.
  apply (proj2 (lifecycle_trigger_is_may_become CompletedExec FailedExec)). reflexivity.
Defined.

Lemma attempt_finality_is_monotone_witness :
  attempt_after (LiveAttempt Settling 5 true true) (TerminalAttempt Succeeded).
Proof. apply attempt_finality_is_monotone. apply rtc_once, step_settled. reflexivity. Defined.

Lemma live_attempt_can_end_witness :
  rtc attempt_step (LiveAttempt PromptStarting 5 false false) (TerminalAttempt AttemptFailed).
Proof. apply (live_attempt_can_end PromptStarting 5 false false). discriminate. Defined.

Lemma decision_wire_roundtrip_witness :
  decision_from_wire
    (decision_to_wire (WakeDecision "0123456789abcdef0123456789abcdef" DIRECT FullWake))
  = Ok (WakeDecision "0123456789abcdef0123456789abcdef" DIRECT FullWake).
Proof. apply decision_wire_roundtrip. reflexivity. Defined.
