(* ===== verification/CohortScenario.v ===== *)
(** * A worked scenario: acceptance, harness attempts and recovery

    Two originals of one sender are committed to the bus for a registered recipient and an
    observer.  A harness attempt on the first one precedes its acceptance; an acceptance
    pass then records both cohorts and advances the frontier.  A second branch loses the
    owner of a running attempt and recovers it.  The theorems on cohorts, harness attempts,
    acceptance, recovery, row types and the scheduler are applied at these states. *)

From stdpp Require Import base gmap strings list sorting.
From Stdlib Require Import ZArith Lia.
From S2P Require Import Prelude Contracts Lifecycle WakePolicy AssignmentStates ResponseStates.
From S2P Require Import AttemptStates ExecutionStates Rows Sha256 Delivery TableGuards CohortRows Database.
From S2P Require Import CohortTables Session SchemaSteps SchemaInvariants RowTypes Replay Stepwise.
From S2P Require Import ParticipantStore AssignmentStore HarnessStore CohortSchema Cohort CohortFacts CohortPages.
From S2P Require Import Acceptance Snapshot ExecutionStore AttemptStore Publication PublicationFacts Recovery.
From S2P Require Import Scheduler Scenario.

(** ** The sessions *)

Definition root : string := "root-1".

Definition message (seq : Z) (id : string) : Message :=
  mkMessage "sender" "#room" "please look" id "info" seq "".
Definition delivery (seq : Z) (id : string) : Delivered :=
  mkDelivered (message seq id) "sender" [mkFrozenRecipient "observer" "watcher"; mkFrozenRecipient "owner" "worker"]
    [NoWakeDecision "observer" UNMENTIONED_OBSERVER; WakeDecision "owner" DIRECT FullWake]
    "sender-lookup" "revision-1" (Sha256.sha256_hex id).
Definition first_original : Delivered := delivery 3 "message-3".
Definition second_original : Delivered := delivery 5 "message-5".
Definition bus_log : list Delivered := [first_original; second_original].

Definition both_registered : Session := run (register "observer" true) registered.
Definition declared : Session := run (writing (declare_acceptance root "owner")) both_registered.

(** A bridge showed the first original before it was accepted. *)
Definition attempt3 : HarnessDelivery :=
  mkHarnessDelivery "bridge" "owner" "message-3" 3 UnconfirmedOutcome UnrecordedMonitor.
Definition attempted : Session := run (begin attempt3) declared.
Definition confirm (h : HarnessDelivery) : HarnessDelivery :=
  mkHarnessDelivery (hd_bridge h) (hd_lookup h) (hd_message_id h) (hd_seq h) DeliveredOutcome (hd_monitor h).
Definition confirmed : Session := run (harness_apply attempt3 confirm) attempted.

(** The first cohort recorded on its own *)
Definition recorded : Session := run (cohort_record first_original root) attempted.

(** One acceptance pass *)
Definition seen : Visit :=
  match visit bus_log root "owner" "worker" (db attempted) with Ok v => v | Err _ => mkVisit [] 0 end.
Definition passed : Session := run (accept_visit root "owner" seen) attempted.

Example pass_found_both :
  map (fun o => msg_seq (dl_message o)) (vi_unaccepted seen) = [3; 5] /\ vi_through seen = 5 /\
  acceptance_frontier (db passed) !! (root, "owner") = Some (mkAcceptanceFrontier root "owner" 5).
Proof. vm_compute. done. Qed.

Example harness_attempt_took_the_claim :
  map (fun c => (wa_wire_seq c, wa_disposition c)) (map snd (map_to_list (wake_claims (db passed))))
  = [(3, DeferredKind); (5, FullPendingKind)] \/
  map (fun c => (wa_wire_seq c, wa_disposition c)) (map snd (map_to_list (wake_claims (db passed))))
  = [(5, FullPendingKind); (3, DeferredKind)].
Proof. vm_compute. auto. Qed.

(** ** Every session is reached from the empty store *)

Lemma joined_follows : follows both_registered.
Proof. apply follows_run; [apply stepwise_register | apply registered_follows]. Qed.

Lemma declared_follows : follows declared.
Proof. apply follows_run; [apply stepwise_writing, stepwise_declare_acceptance | apply joined_follows]. Qed.

Lemma attempted_follows : follows attempted.
Proof. apply follows_run; [apply stepwise_begin | apply declared_follows]. Qed.

Lemma confirmed_follows : follows confirmed.
Proof. apply follows_run; [apply stepwise_harness_apply | apply attempted_follows]. Qed.

Lemma confirmed_after_attempted : rtc db_step (db attempted) (db confirmed).
Proof. apply steps_run; [apply stepwise_harness_apply | apply rtc_refl]. Qed.

Lemma recorded_follows : follows recorded.
Proof. apply follows_run; [apply stepwise_cohort_record | apply attempted_follows]. Qed.

Lemma passed_follows : follows passed.
Proof. apply follows_run; [apply stepwise_accept_visit | apply attempted_follows]. Qed.

(** ** Harness attempts *)

Lemma harness_attempt_begins_once_witness :
  exists b b' later', begin attempt3 declared = (Ok b, attempted) /\
    begin attempt3 confirmed = (Ok b', later') /\ b' = false.
Proof.
  destruct (run_ok (begin attempt3) declared attempted) as [b Hb]; [reflexivity | vm_compute; reflexivity|].
  destruct (run_ok (begin attempt3) confirmed (run (begin attempt3) confirmed)) as [b' Hb'];
    [reflexivity | vm_compute; reflexivity|].
  exists b, b', (run (begin attempt3) confirmed). split; [exact Hb|]. split; [exact Hb'|].
  exact (proj1 (proj2 (harness_attempt_begins_once attempt3 attempt3 declared attempted confirmed _ b b'
           (follows_reachable _ declared_follows) Hb confirmed_after_attempted eq_refl Hb'))).
Defined.

Lemma settled_attempt_is_final_witness :
  exists current answer s', harness_deliveries (db confirmed) !! hd_identity attempt3 = Some current /\
    harness_apply attempt3 confirm confirmed = (Ok answer, s') /\ answer = current.
Proof.
  destruct (lookup_present (harness_deliveries (db confirmed) !! hd_identity attempt3)
              (fun h => outcome_settled (hd_outcome h) && bool_decide (hd_identity (confirm h) = hd_identity attempt3)))
    as (current & Hcur & Hset); [vm_compute; reflexivity|].
  apply andb_true_iff in Hset as [Hset Hid]. apply bool_decide_eq_true in Hid.
  destruct (run_ok (harness_apply attempt3 confirm) confirmed (run (harness_apply attempt3 confirm) confirmed))
    as [answer Ha]; [reflexivity | vm_compute; reflexivity|].
  exists current, answer, (run (harness_apply attempt3 confirm) confirmed).
  split; [exact Hcur|]. split; [exact Ha|].
  pose proof (settled_attempt_is_final attempt3 current answer confirm confirmed _
                (follows_reachable _ confirmed_follows) Hcur Hid Ha) as H.
  rewrite Hset in H. exact (proj1 H).
Defined.

(** ** Cohorts *)

Lemma sealed_cohort_complete_witness :
  exists r, claim_batch_receipts (db recorded) !! (root, 3) = Some r /\
    map cd_ordinal (delivery_rows (db recorded) (root, 3)) = seqZ 0 (cb_members r).
Proof.
  destruct (lookup_present (claim_batch_receipts (db recorded) !! (root, 3)) cb_sealed) as (r & Hr & Hs);
    [vm_compute; reflexivity|].
  exists r. split; [exact Hr|].
  exact (proj1 (sealed_cohort_complete (db recorded) root 3 r (follows_reachable _ recorded_follows) Hr Hs)).
Defined.

Lemma cohort_record_durably_idempotent_witness :
  exists r c, cohort_record first_original root attempted = (Ok r, recorded) /\
    cohort_record first_original root recorded = (Ok (AlreadyApplied c), recorded).
Proof.
  destruct (run_ok (cohort_record first_original root) attempted recorded) as [r Hr];
    [reflexivity | vm_compute; reflexivity|].
  destruct (cohort_record_durably_idempotent first_original root attempted recorded recorded r
              (follows_reachable _ attempted_follows) Hr (rtc_refl _ _)) as (c & Hc & _).
  exists r, c. split; [exact Hr | exact Hc].
Defined.

Lemma recorded_cohort_covers_audience_witness :
  exists v c, cohort_delivery_receipts (db recorded) !! (root, 3, 1) = Some v /\
    claim_at "owner" 3 (db recorded) = Some c /\ cd_claim v = Some (wa_id c).
Proof.
  destruct (run_ok (cohort_record first_original root) attempted recorded) as [r Hr];
    [reflexivity | vm_compute; reflexivity|].
  destruct (recorded_cohort_covers_audience first_original root attempted recorded r 1%nat
              (mkFrozenRecipient "owner" "worker") (WakeDecision "owner" DIRECT FullWake)
              (follows_reachable _ attempted_follows) ltac:(vm_compute; reflexivity) Hr eq_refl eq_refl)
    as (v & Hv & _ & _ & c & Hc & Hcl & _).
  exists v, c. split; [exact Hv|]. split; [exact Hc | exact Hcl].
Defined.

Lemma acceptance_honours_earlier_attempts_witness :
  exists c a, cohort_record first_original root attempted = (Ok (Applied c), recorded) /\
    harness_deliveries (db attempted) !! hd_identity attempt3 = Some a /\
    claims_left (db recorded) (hd_lookup a) (hd_reference a).
Proof.
  destruct (run_applied (cohort_record first_original root) attempted recorded) as [c Hc];
    [reflexivity | vm_compute; reflexivity|].
  destruct (lookup_present (harness_deliveries (db attempted) !! hd_identity attempt3)
              (fun h => bool_decide (h = attempt3))) as (a & Ha & Heq); [vm_compute; reflexivity|].
  apply bool_decide_eq_true in Heq.
  assert (Hin : hd_lookup a ∈ map wa_lookup (ac_assignments c)).
  { assert (Hb : match (cohort_record first_original root attempted).1 with
                 | Ok (Applied x) => bool_decide (hd_lookup attempt3 ∈ map wa_lookup (ac_assignments x))
                 | _ => false end = true) by (vm_compute; reflexivity).
    rewrite Hc in Hb. apply bool_decide_eq_true in Hb. rewrite Heq. exact Hb. }
  exists c, a. split; [exact Hc|]. split; [exact Ha|].
  refine (acceptance_honours_earlier_attempts first_original root attempted recorded c _ a
           (follows_reachable _ attempted_follows) Hc Ha _ Hin). rewrite Heq. reflexivity.
Defined.

(** ** Pages and passes *)

Lemma pending_pages_return_all_witness :
  pending_pages 1 "owner" 0 (db passed) = Some (pending_read (db passed) "owner" 0).
Proof.
  refine (proj1 (pending_pages_return_all (db passed) "owner" 0 1 (follows_reachable _ passed_follows) _ _)).
  - discriminate.
  - apply Nat.ltb_lt. vm_compute. reflexivity.
Defined.


(** The acceptance system: the store's components write, the bus commits both originals and
    a pass reads and writes. *)
Definition seen_by_owner : PassRead := mkPassRead root "owner" "worker" 0 seen.
Definition before_pass : AcceptanceWorld := mkAcceptanceWorld bus_log (db attempted) [seen_by_owner] [] [].
Definition after_pass : AcceptanceWorld := mkAcceptanceWorld bus_log (db passed) [seen_by_owner] [seen_by_owner] [].

Lemma run_result {A : Type} (m : M A) (s : Session) : m s = ((m s).1, run m s).
Proof. apply surjective_pairing. Qed.

Lemma before_pass_reachable : acceptance_reachable before_pass.
Proof.
  eapply rtc_l; [apply (store_writes [] empty_db (db both_registered)); [apply joined_follows | vm_compute; reflexivity]|].
  eapply rtc_l; [apply (participant_declared [] both_registered [] [] [] root "owner" _ declared (run_result _ _))|].
  eapply rtc_l; [apply (store_writes [] (db declared) (db attempted));
                 [apply steps_run; [apply stepwise_begin | apply rtc_refl] | vm_compute; reflexivity]|].
  eapply rtc_l; [apply (bus_commits [] (db attempted) [] [] [] first_original); [reflexivity | constructor]|].
  eapply rtc_l; [apply (bus_commits [first_original] (db attempted) [] [] [] second_original);
                 [reflexivity | repeat constructor]|].
  apply rtc_once. apply (pass_reads bus_log (db attempted) [] [] [] root "owner" "worker" 0 seen); vm_compute; reflexivity.
Qed.

Lemma pass_written : acceptance_step before_pass after_pass.
Proof.
  destruct (run_ok (accept_visit root "owner" seen) attempted passed) as [[] Hr]; [reflexivity | vm_compute; reflexivity|].
  exact (pass_writes bus_log attempted [seen_by_owner] [] [] seen_by_owner passed (list_elem_of_here _ _) Hr).
Qed.

(** The pass ran under the name both originals were frozen with, and nothing was imported. *)
Lemma frontier_never_passes_unsealed_witness :
  exists f, acceptance_frontier (aw_db after_pass) !! (root, "owner") = Some f /\
    batch_sealed (aw_db after_pass) (root, seq_of second_original) = true.
Proof.
  destruct (lookup_present (acceptance_frontier (aw_db after_pass) !! (root, "owner")) (fun f => af_through f =? 5))
    as (f & Hf & Ht); [vm_compute; reflexivity|]. apply Z.eqb_eq in Ht.
  exists f. split; [exact Hf|].
  destruct (proj1 (frontier_never_passes_unsealed after_pass after_pass root "owner" f
                  (rtc_r _ _ _ before_pass_reachable pass_written) (rtc_refl _ _) Hf) second_original) as [H|[H|H]].
  - right. left.
  - reflexivity.
  - rewrite Ht. discriminate.
  - exact H.
  - destruct H as (p & Hp & _ & _ & _ & Hname). apply list_elem_of_singleton in Hp. rewrite Hp in Hname. discriminate Hname.
  - destruct H as (through & Hin & _). destruct (not_elem_of_nil _ Hin).
Defined.

Lemma acceptance_catches_up_witness :
  exists f', acceptance_frontier (db passed) !! (root, "owner") = Some f' /\
    seq_of second_original <= af_through f'.
Proof.
  destruct (lookup_present (acceptance_frontier (db attempted) !! (root, "owner")) (fun f => af_through f =? 0))
    as (f & Hf & Ht); [vm_compute; reflexivity|]. apply Z.eqb_eq in Ht.
  assert (Hpass : pass bus_log root "owner" "worker" attempted passed).
  { exists seen. split; [vm_compute; reflexivity|].
    destruct (run_ok (accept_visit root "owner" seen) attempted passed) as [[] Hr];
      [reflexivity | vm_compute; reflexivity | exact Hr]. }
  destruct (acceptance_catches_up bus_log root "owner" "worker" 1 attempted passed f
              (follows_reachable _ attempted_follows) ltac:(repeat constructor)
              (nsteps_once _ _ Hpass) Hf) as (f' & Hf' & _ & Hall).
  exists f'. split; [exact Hf'|]. apply Hall.
  - rewrite Ht. apply Nat.leb_le. vm_compute. reflexivity.
  - right. left.
  - reflexivity.
Defined.

(** ** Recovery *)

Definition owner_loss (s : Session) : VerifiedAttemptOwnerLoss :=
  mkOwnerLoss true
    (default (mkAttemptRecord "" 0 "" 0 "" (TerminalAttempt Succeeded) 0 None NoReasonCode 0 0)
       (attempts (db s) !! ("exec-1", 1))) no_native_resources.
Definition exited (backend_done : bool) (terminal : PiStopReason) : Recovery.MonitorEvidence :=
  mkMonitorEvidence true backend_done "released_native" 2000 terminal.

#[local] Abbreviation recover_with evidence :=
  (terminalize_dead_attempt "exec-1" 1 1 3 3 1 evidence (owner_loss running)).
Definition recovered : Session := run (recover_with (exited true StopStopReason)) running.
Definition blocked : Session := run (recover_with (exited false PendingStopReason)) running.

Lemma recovery_never_replays_witness :
  exists r, recover_with (exited true StopStopReason) running = (Ok r, recovered) /\
    retry_basis (db recovered) "exec-1" = false.
Proof.
  destruct (run_ok (recover_with (exited true StopStopReason)) running recovered) as [r Hr];
    [reflexivity | vm_compute; reflexivity|].
  destruct (recovery_never_replays "exec-1" 1 1 3 3 1 _ _ running recovered r
              (follows_reachable _ running_follows) Hr)
    as (sn0 & a & t & audit & _ & _ & _ & _ & _ & _ & _ & _ & _ & _ & _ & _ & Hlater).
  exists r. split; [exact Hr|]. exact (proj1 (Hlater _ (rtc_refl _ _))).
Defined.

Lemma recovery_error_keeps_ownership_witness :
  exists err, recover_with (exited false PendingStopReason) running = (Err err, blocked) /\
    err = RecoveryBlocked "process death alone is not backend-final proof".
Proof.
  assert (He : (recover_with (exited false PendingStopReason) running).1
               = Err (RecoveryBlocked "process death alone is not backend-final proof"))
    by (vm_compute; reflexivity).
  pose proof (run_result (recover_with (exited false PendingStopReason)) running) as H. rewrite He in H.
  destruct (recovery_error_keeps_ownership "exec-1" 1 1 3 3 1 _ _ running blocked _
              (follows_reachable _ running_follows) H) as [_|_]; eexists; (split; [exact H | reflexivity]).
Defined.

(** ** Row types and the scheduler *)

Lemma stored_rows_decode_witness :
  exists a, attempts (db running) !! ("exec-1", 1) = Some a /\ attempt_post_init a = Ok tt.
Proof.
  destruct (lookup_present (attempts (db running) !! ("exec-1", 1)) (fun _ => true)) as (a & Ha & _);
    [vm_compute; reflexivity|].
  exists a. split; [exact Ha|].
  exact (proj1 (stored_rows_decode (db running) AttemptRecord attempts_table ("exec-1", 1) a
           (follows_reachable _ running_follows) ltac:(vm_compute; reflexivity) typed_attempts Ha)).
Defined.

Lemma coordinator_refines_scheduler_witness :
  exists r w', perform (Start request) (mkWorld released delivered_bus) = (r, w') /\
    committed_store (db (w_session w')).
Proof.
  destruct (perform (Start request) (mkWorld released delivered_bus)) as [r w'] eqn:E.
  exists r, w'. split; [reflexivity|].
  refine (proj1 (coordinator_refines_scheduler (Start request) (mkWorld released delivered_bus) w' r _ E)).
  split; [apply follows_reachable, released_follows | vm_compute; reflexivity].
Defined.
