(* ===== verification/GoalScenario.v ===== *)
(** * A worked scenario: one goal, two launches

    A process creates a goal and launches it; the attempt fails, an explicit retry opens the
    second generation, which is launched and then cleared.  Goal actions then change the
    declared goal of a thread over these ledgers.  The theorems on the goal ledger and on goal
    actions are applied at these states. *)

From stdpp Require Import base gmap strings list.
From Stdlib Require Import ZArith Lia Ascii.
From S2P Require Import Prelude Contracts Lifecycle GoalStates Sha256 GoalLedger GoalStore GoalActions GoalMachine.
From S2P Require Import GoalInvariants GoalProcesses GoalFacts GoalActionFacts.

(** ** Running one process *)

(** Process 0 asks for a change, commits it and reads it back undisturbed. *)
Definition act {A : Type} (request : Instance -> Ledger -> outcome (Change A))
    (permits : A -> list Reservation) (w : GoalWorld) : GoalWorld :=
  match gw_instances w !! 0%nat with
  | None => w
  | Some i =>
      match request i (gw_ledger w) with
      | Err _ => w
      | Ok c =>
          match ch_write c (gw_ledger w) with
          | Err _ => w
          | Ok (a, l') =>
              match attested (ch_verify c a l' l') with
              | Ok _ => mkGoalWorld l' (alter (fun i => ch_finally c (ch_returned c a i)) 0%nat (gw_instances w))
                          (gw_flights w) (permits a ++ gw_permits w)
              | Err _ => w
              end
          end
      end
  end.

Lemma act_runs {A : Type} (request : Instance -> Ledger -> outcome (Change A)) permits w :
  (forall i l c, request i l = Ok c -> requested i A c permits) -> rtc world_step w (act request permits w).
Proof.
  intros Hreq. unfold act. destruct w as [l ins fs ps]. simpl.
  destruct (ins !! 0%nat) as [i|] eqn:Hi; [|done]. destruct (request i l) as [c|] eqn:Hr; [|done].
  destruct (ch_write c l) as [[a l']|] eqn:Hw; [|done]. destruct (attested _) as [[]|] eqn:Ha; [|done].
  eapply rtc_l; [by eapply (change_commits l ins fs ps 0 i A c permits a l'); [|apply (Hreq i l)|]|].
  eapply rtc_l; [apply (generation_read l' ins [] fs ps (mkFlight 0 A c a (permits a) None))|]. simpl.
  apply rtc_once.
  exact (change_returns l' ins [] fs ps (mkFlight 0 A c a (permits a) (Some l')) l' eq_refl Ha).
Qed.

Lemma run_trans (x y z : GoalWorld) : rtc world_step x y -> rtc world_step y z -> rtc world_step x z.
Proof. intros H1 H2. by etrans. Qed.

Definition started : GoalWorld := mkGoalWorld empty_ledger {[0%nat := opened]} [] [].

Lemma started_reachable : goal_reachable started.
Proof. apply rtc_once. exact (store_opened empty_ledger ∅ [] [] 0 eq_refl). Qed.

Definition grant1 : string := "0123456789abcdef0123456789abcdef0123456789abcdef0123456789abcdef".
Definition grant2 : string := "fedcba9876543210fedcba9876543210fedcba9876543210fedcba9876543210".
Definition first : Reservation := mkReservation "goal-1" 1 "attempt-1" "token-1".
Definition second : Reservation := mkReservation "goal-1" 2 "attempt-2" "token-2".

Definition created : GoalWorld := act (fun _ _ => create_goal "goal-1" grant1) no_permit started.
Definition reserved1 : GoalWorld :=
  act (fun i l => reserve "goal-1" 1 None "attempt-1" "token-1" (mkGoalStore l i)) no_permit created.
Definition claimed1 : GoalWorld := act (fun i _ => claim_launch first i) (fun p => [p]) reserved1.
Definition failed1 : GoalWorld :=
  act (fun _ _ => Ok (fail first (FailedTurnResolution "backend_failed") None)) no_permit claimed1.
Definition retried : GoalWorld :=
  act (fun _ l => authorize_current_retry "goal-1" (RetryDecision "retry-1") grant2 l) no_permit failed1.
Definition reserved2 : GoalWorld :=
  act (fun i l => reserve "goal-1" 2 None "attempt-2" "token-2" (mkGoalStore l i)) no_permit retried.
Definition claimed2 : GoalWorld := act (fun i _ => claim_launch second i) (fun p => [p]) reserved2.
Definition cleared : GoalWorld :=
  act (fun _ _ => Ok (retire_goal "goal-1" 2 (Some "attempt-2"))) no_permit claimed2.

Example launched_twice : gw_permits claimed2 = [second; first].
Proof. vm_compute. reflexivity. Qed.

(** The request of each step is one the system knows. *)
Ltac act_step := apply act_runs; intros ? ? ? ?; simplify_eq; econstructor; eassumption.

Lemma reserved1_reachable : goal_reachable reserved1.
Proof.
  eapply run_trans; [apply started_reachable|]. eapply run_trans; [|unfold reserved1; act_step]. unfold created; act_step.
Qed.

Lemma failed1_reachable : goal_reachable failed1.
Proof.
  eapply run_trans; [apply reserved1_reachable|]. eapply run_trans; [|unfold failed1; act_step].
  unfold claimed1; act_step.
Qed.

Lemma retried_run : rtc world_step failed1 retried.
Proof. unfold retried. act_step. Qed.

Lemma claimed2_run : rtc world_step retried claimed2.
Proof. eapply run_trans; [|unfold claimed2; act_step]. unfold reserved2; act_step. Qed.

Lemma claimed2_reachable : goal_reachable claimed2.
Proof. eapply run_trans; [apply failed1_reachable|]. eapply run_trans; [apply retried_run | apply claimed2_run]. Qed.

Lemma cleared_reachable : goal_reachable cleared.
Proof. eapply run_trans; [apply claimed2_reachable|]. unfold cleared; act_step. Qed.

Lemma elem_first : first ∈ gw_permits claimed2.
Proof. rewrite launched_twice. right. left. Qed.
Lemma elem_second : second ∈ gw_permits claimed2.
Proof. rewrite launched_twice. left. Qed.

Lemma failed1_blocked :
  generation_at (core (gw_ledger failed1)) "goal-1" 1 BlockedGeneration (Some "attempt-1").
Proof. exists "". vm_compute. reflexivity. Qed.

(** ** The ledger's guarantees *)

Lemma goal_launched_once_witness :
  NoDup (map (fun r => (rs_goal r, rs_generation r)) (gw_permits claimed2)).
Proof. exact (proj1 (goal_launched_once claimed2 claimed2_reachable)). Defined.

Lemma goal_relaunch_authorised_witness : authorised (core (gw_ledger claimed2)) "goal-1" 1.
Proof.
  apply (goal_relaunch_authorised claimed2 first second 1 claimed2_reachable elem_first elem_second eq_refl).
  split; [discriminate | reflexivity].
Defined.

Lemma closed_goal_never_launched_witness :
  exists G, lg_generations (gw_ledger cleared) !! "goal-1" = Some G /\ gn_lifecycle G = CancelledGeneration.
Proof.
  exists (mkGeneration "goal-1" 2 CancelledGeneration (Some "attempt-2") ""). split; [|reflexivity].
  refine (proj1 (closed_goal_never_launched cleared cleared "goal-1" _ cleared_reachable _ _ (rtc_refl _ _)));
    vm_compute; reflexivity.
Defined.

Lemma failed_goal_needs_decision_witness :
  exists d, lg_decisions (gw_ledger claimed2) !! ("goal-1", d) = Some 1.
Proof.
  refine (failed_goal_needs_decision failed1 claimed2 "goal-1" 1 "attempt-1" second failed1_reachable
            failed1_blocked (run_trans _ _ _ retried_run claimed2_run) elem_second eq_refl _).
  reflexivity.
Defined.

Lemma work_decision_spent_once_witness :
  exists n, lg_decisions (gw_ledger claimed2) !! ("goal-1", RetryDecision "retry-1") = Some n.
Proof.
  exists 1.
  refine (proj1 (work_decision_spent_once retried claimed2 "goal-1" (RetryDecision "retry-1") 1
                   (run_trans _ _ _ failed1_reachable retried_run) _ claimed2_run)).
  vm_compute. reflexivity.
Defined.

Lemma retried_goal_launches_witness :
  exists G s1 s2,
    perform_change (fun s => authorize_current_retry "goal-1" (RetryDecision "retry-1") grant2 (gs_ledger s))
      (mkGoalStore (gw_ledger failed1) opened) = (Ok G, s1) /\
    turn_permit (Ok tt) G grant1 "attempt-2" "token-2" s1 = (Ok (Some second), s2).
Proof.
  destruct (retried_goal_launches failed1 opened "goal-1" 1 "attempt-1" (RetryDecision "retry-1") grant2 grant1
              "attempt-2" "token-2" failed1_reachable failed1_blocked) as (G & s1 & s2 & H1 & H2 & _);
    [vm_compute; reflexivity..|].
  exists G, s1, s2. split; [exact H1 | exact H2].
Defined.

(** ** Goal actions *)

Definition goal1 (state : GoalState) : Goal :=
  mkGoal "ship it" "goal-1" 0 "" 3 None None state UnorderedGoalOrder.
Definition context (actor : GoalActor) : ActionContext :=
  mkActionContext actor false None true (fun _ => false) false (Ok tt) (Ok tt) (Ok tt) (fun _ => Ok tt) (Ok tt) (Ok tt) 0
    (fun _ => []) (Ok tt).
Definition desk (state : GoalState) (w : GoalWorld) : GoalDesk :=
  mkGoalDesk (Some (goal1 state)) (mkGoalStore (gw_ledger w) opened).

Definition pausing : outcome (option Goal) * GoalDesk :=
  apply_action any_goal (PausedGoalAction None) (context OwnerInvocable) (desk ActiveGoal created).

Lemma goal_checkpoint_fences_witness :
  exists e, apply_action (mkGoalPrecondition None None false (PresentGoalCheckpoint "goal-1" 3)) ClearGoalAction
              (context OwnerInvocable) pausing.2 = (Err e, pausing.2).
Proof.
  refine (goal_checkpoint_fences any_goal
            (mkGoalPrecondition None None false (PresentGoalCheckpoint "goal-1" 3))
            (PausedGoalAction None) ClearGoalAction (context OwnerInvocable) (context OwnerInvocable)
            (desk ActiveGoal created) pausing.2
            (Some (mkGoal "ship it" "goal-1" 0 "" 4 None None (PausedGoal OwnerPause) UnorderedGoalOrder)) I _ _ eq_refl).
  - vm_compute. reflexivity.
  - discriminate.
Defined.

Lemma teammate_respects_protected_pause_witness :
  exists e, apply_action any_goal ClearGoalAction (context PeerInvocable) (desk (PausedGoal OwnerPause) created)
            = (Err e, desk (PausedGoal OwnerPause) created).
Proof.
  exact (teammate_respects_protected_pause any_goal ClearGoalAction (context PeerInvocable)
           (desk (PausedGoal OwnerPause) created) (goal1 (PausedGoal OwnerPause)) eq_refl eq_refl eq_refl).
Defined.

Definition editing : outcome (option Goal) * GoalDesk :=
  apply_action any_goal (EditGoalAction "ship it today") (context RuntimeInvocable)
    (desk (PausedGoal ChokeholdPause) created).
Definition edited : Goal :=
  mkGoal "ship it today" "goal-1" 0 "" 4 None
    (Some (mkGoalMentionSource "goal-1" 4 (Sha256.sha256_hex "ship it today") [])) (PausedGoal ChokeholdPause)
    UnorderedGoalOrder.

Lemma protected_pause_kept_witness : go_state edited = PausedGoal ChokeholdPause.
Proof.
  refine (protected_pause_kept any_goal (EditGoalAction "ship it today") (context RuntimeInvocable)
            (desk (PausedGoal ChokeholdPause) created) editing.2 (goal1 (PausedGoal ChokeholdPause)) edited
            eq_refl eq_refl _ I _ eq_refl).
  - discriminate.
  - vm_compute. reflexivity.
Defined.

Definition clearing : outcome (option Goal) * GoalDesk :=
  apply_action any_goal ClearGoalAction (context OwnerInvocable) (desk ActiveGoal claimed2).

(** An order that reaches a completed goal whose attempt is still reserved *)
Definition ordering : outcome (option Goal) * GoalDesk :=
  apply_action any_goal (OrderGoalAction "order-1" "goal-2" grant2) (context RuntimeInvocable) (desk CompletedGoal reserved1).
Definition ordered : Goal :=
  mkGoal problem_text "goal-2" 0 "" 1 None (Some (mkGoalMentionSource "goal-2" 1 (Sha256.sha256_hex problem_text) []))
    ActiveGoal ProblemGoalOrder.


(** The generation of the goal it replaced is as it was: its reservation can still be claimed. *)
Example ordered_goal_claimable :
  match claim_launch first (default opened (gw_instances reserved1 !! 0%nat)) with
  | Ok c => is_ok (ch_write c (gs_ledger (gd_store ordering.2)))
  | Err _ => false
  end = true.
Proof. vm_compute. reflexivity. Qed.

(** The one exception: a model's own retry asks only the ledger, so it ends a pause that the
    owner set, and one that the heartbeat set. *)
Definition retrying (p : PauseSource) : outcome (option Goal) * GoalDesk :=
  apply_action (mkGoalPrecondition (Some "goal-1") None false UnobservedGoalCheckpoint)
    (RetryGoalAction None "retry-9" grant2) (context ModelInvocable) (desk (PausedGoal p) created).

Example retry_lifts_protected_pause :
  forall p, exists g, (retrying p).1 = Ok (Some g) /\ go_state g = ActiveGoal.
Proof. intros []; eexists; (split; [vm_compute; reflexivity | reflexivity]). Qed.
