(* ===== verification/ClaimScenario.v ===== *)
(** * A worked scenario: two threads and one file

    Alice's attempt claims a file, Bob is refused, another record is written, Alice's turn
    claims a second file; Alice's process then stops and Bob takes the first file over.  The
    theorems on resource claims are applied at these tables. *)

From stdpp Require Import base gmap strings list relations.
From Stdlib Require Import ZArith Lia Ascii.
From S2P Require Import Prelude Contracts WakePolicy AttemptStates Rows EnvelopeClaims ClaimBus ClaimFacts.
From S2P Require Import ClaimGuarantees.

Definition both : RegistryClaims := fun owner _ => if bool_decide (owner = "alice") then [1] else [4].
Definition alice_gone : RegistryClaims := fun owner _ => if bool_decide (owner = "alice") then [] else [4].

Definition message_of (sender : string) : ClaimRequest := mkClaimRequest (Ok sender) (fun _ => Ok "message").
Definition accepting (owner : string) : outcome ClaimRequest := Ok (message_of owner).

Definition cohort_id : string := "cohort-v1:0123456789abcdef0123456789abcdef0123456789abcdef0123456789abcdef".

Definition wake_scope (operation : string) : ClaimScope :=
  WakeClaim (mkRecordedScope 1 operation "turn-1")
    (mkWakeScope "root" 3 "message-3" cohort_id 2 "alice-lookup" "execution-1" 1 1).
Definition tool_scope (generation : Z) (operation : string) : ClaimScope :=
  NativeClaim (mkRecordedScope generation operation "turn-2") "input-2".

Definition alice_acquires : ClaimCall := AcquisitionCall (message_of "alice") "1.5" "/w/a" "gen-1" (wake_scope "op-1").
Definition alice_tool : ClaimCall := AcquisitionCall (message_of "alice") "1.5" "/w/b" "gen-2" (tool_scope 1 "op-2").
Definition bob_acquires : ClaimCall := AcquisitionCall (message_of "bob") "2.5" "/w/a" "gen-3" (tool_scope 4 "op-3").

Definition claimed1 : ClaimTables := run_call both alice_acquires empty_bus.
Definition claimed2 : ClaimTables := run_call both alice_tool (run_call both OtherRecord claimed1).
Definition taken_over : ClaimTables := run_call alice_gone bob_acquires claimed2.

Definition alice_a : ClaimOwner := mkClaimOwner "alice" "1.5" 1 "message" "gen-1" (wake_scope "op-1") "/w/a".
Definition alice_b : ClaimOwner := mkClaimOwner "alice" "1.5" 3 "message" "gen-2" (tool_scope 1 "op-2") "/w/b".
Definition bob_a : ClaimOwner := mkClaimOwner "bob" "2.5" 4 "message" "gen-3" (tool_scope 4 "op-3") "/w/a".

(** Bob's takeover expires Alice's other file in the same row. *)
Example taken_over_tables : owner_for taken_over "/w/a" = Ok (Some bob_a) /\ owner_for taken_over "/w/b" = Ok None.
Proof. split; vm_compute; reflexivity. Qed.

Lemma first_claim_reachable : bus_reachable claimed1.
Proof. apply rtc_once. by exists both, alice_acquires. Qed.

Lemma second_claim_reachable : bus_reachable claimed2.
Proof.
  eapply rtc_r; [eapply rtc_r; [exact first_claim_reachable|]|].
  - by exists both, OtherRecord.
  - by exists both, alice_tool.
Qed.

Lemma taken_over_run : rtc bus_step claimed2 taken_over.
Proof. apply rtc_once. by exists alice_gone, bob_acquires. Qed.

Lemma taken_over_reachable : bus_reachable taken_over.
Proof. eapply rtc_trans; [exact second_claim_reachable | exact taken_over_run]. Qed.

Lemma live_claim_never_displaced_witness :
  owner_for (run_call both bob_acquires claimed2) "/w/a" = Ok (Some alice_a).
Proof.
  destruct (live_claim_never_displaced claimed2 both bob_acquires "/w/a" alice_a second_claim_reachable)
    as [H|[(o' & H & Ho & _)|(_ & releases & H & _)]].
  - vm_compute. reflexivity.
  - vm_compute. reflexivity.
  - exact H.
  - revert H. vm_compute. intros [= <-]. reflexivity.
  - discriminate H.
Defined.

Lemma claim_rebuild_agrees_witness : rebuild taken_over = Ok taken_over.
Proof. exact (claim_rebuild_agrees taken_over taken_over_reachable). Defined.

Lemma claim_operation_consumed_once_witness :
  run_call both (TransitionCall (message_of "alice") "1.5" (WakeClaims ["/w/c"] "gen-9" (wake_scope "op-1"))) taken_over
  = taken_over.
Proof.
  destruct (claim_operation_consumed_once claimed2 taken_over "op-1" 1
              (mkClaimTransition "alice" "1.5" 1 "message" [] (WakeClaims ["/w/a"] "gen-1" (wake_scope "op-1")))
              second_claim_reachable) as [_ H].
  - vm_compute. reflexivity.
  - left.
  - exact taken_over_run.
  - eapply H; [reflexivity | left].
Defined.

Lemma acquisition_decided_witness :
  publish_acquisition (message_of "bob") "2.5" "/w/a" "gen-3" (tool_scope 4 "op-3") both claimed2
    = (Err (ClaimConflict "alice"), claimed2) /\
  publish_acquisition (message_of "alice") "1.5" "/w/a" "gen-4" (wake_scope "op-4") both claimed2
    = (Ok alice_a, claimed2) /\
  publish_acquisition (message_of "bob") "2.5" "/w/c" "gen-3" (tool_scope 4 "op-2") both claimed2
    = (Err (IdentityConflict "Claim operation was already consumed"), claimed2).
Proof.
  split_and!.
  - exact (acquisition_decided claimed2 both (message_of "bob") "bob" "2.5" "message" "/w/a" "gen-3"
             (tool_scope 4 "op-3") _ second_claim_reachable eq_refl eq_refl eq_refl eq_refl).
  - exact (acquisition_decided claimed2 both (message_of "alice") "alice" "1.5" "message" "/w/a" "gen-4"
             (wake_scope "op-4") _ second_claim_reachable eq_refl eq_refl eq_refl eq_refl).
  - exact (acquisition_decided claimed2 both (message_of "bob") "bob" "2.5" "message" "/w/c" "gen-3"
             (tool_scope 4 "op-2") _ second_claim_reachable eq_refl eq_refl eq_refl eq_refl).
Defined.

(** Alice's delayed retirement, after Bob took her file over *)
Lemma release_spares_other_claims_witness :
  owner_for (release_resources accepting both [alice_a; alice_b] taken_over).2 "/w/a" = Ok (Some bob_a).
Proof.
  destruct (release_spares_other_claims taken_over
              (release_resources accepting both [alice_a; alice_b] taken_over).2 both accepting [alice_a; alice_b]
              (release_resources accepting both [alice_a; alice_b] taken_over).1 taken_over_reachable) as [H _].
  - apply surjective_pairing.
  - apply H; [vm_compute; reflexivity | reflexivity |].
    apply (bool_decide_unpack _). vm_compute. exact I.
Defined.

Lemma attempt_resources_released_witness :
  exists db', release_attempt_resources accepting both
      (mkAttemptRecord "execution-1" 1 "alice-lookup" 1 "digest" (TerminalAttempt Succeeded) 4 None NoReasonCode 0 0)
      claimed2 = (Ok tt, db') /\
    owner_for db' "/w/b" = Ok (Some alice_b) /\ owner_for db' "/w/a" <> Ok (Some alice_a).
Proof.
  destruct (attempt_resources_released claimed2 both accepting
      (mkAttemptRecord "execution-1" 1 "alice-lookup" 1 "digest" (TerminalAttempt Succeeded) 4 None NoReasonCode 0 0)
      second_claim_reachable) as (db' & Hdb' & Hgone & Hkept).
  - intros owner. exists (message_of owner), owner. split_and!; [reflexivity..|]. eauto.
  - exists db'. split; [exact Hdb'|]. split.
    + apply Hkept; vm_compute; reflexivity.
    + intros H. discriminate (Hgone _ _ H eq_refl).
Defined.
