(* ===== verification/RegistryScenario.v ===== *)
(** * A worked scenario: a worker, its namesake and a bridge

    A worker claims a name and leases a turn, a second worker wants the same name, a bridge is
    bound by one process and then by another, the worker renames itself and is unregistered.
    The theorems on the registry are applied at these registries. *)

From stdpp Require Import base gmap strings list relations.
From Stdlib Require Import ZArith Lia.
From S2P Require Import Prelude Contracts ThreadStatus Threads RegistryDocument Registration.
From S2P Require Import RegistrySteps RegistryRuns RegistryHistory RegistryTurns.
From S2P Require Import RegistryGuarantees EnvelopeClaims ClaimLiveness.

Definition seconds (n : Z) : Z := n * 1000000.
Definition worker_process : ProcessState := ProcessIdentity 7 1.
Definition first_bridge : ProcessState := ProcessIdentity 8 1.
Definition second_bridge : ProcessState := ProcessIdentity 9 1.

(** What a caller sees at a time, from its own process *)
Definition seen (at_time : Z) (live : list (Z * Z)) (self : ProcessState) : Observation :=
  mkObservation (seconds at_time) live self (fun _ => 0).

Definition everyone : list (Z * Z) := [(7, 1); (8, 1); (9, 1)].
Definition without_first : list (Z * Z) := [(7, 1); (9, 1)].

Definition declaration_of (wanted : string) (execution : ThreadExecution) (process : ProcessState) : Thread :=
  mkThread wanted (GeneratedCreationTime 100) execution None process AgentThreadRole NoTurnRecord 0 ∅ 0 false
    UnobservedTools UnobservedTools ReadyThreadWorkState "".

Definition worker : Thread := declaration_of "Build worker!" NativeThread worker_process.
Definition relay : Thread := declaration_of "relay" ExternalThread NoProcess.

Definition keep_rest (new old : string) : string := new.
Definition any_tags (tags : gset string) : outcome unit := Ok tt.

Definition call (at_time : Z) (live : list (Z * Z)) (self : ProcessState) (c : RegistryCall) (r : Registry) : Registry :=
  (registry_call (seen at_time live self) c r).2.

Definition claimed_worker : Registry := call 1 everyone worker_process (ClaimNameCall keep_rest any_tags worker) empty_registry.
Definition claimed_relay : Registry := call 2 everyone first_bridge (ClaimNameCall keep_rest any_tags relay) claimed_worker.
Definition bound_first : Registry := call 3 everyone first_bridge (BindExternalCall "relay" first_bridge) claimed_relay.
Definition bound_second : Registry := call 4 without_first second_bridge (BindExternalCall "relay" second_bridge) bound_first.
Definition leased_worker : Registry := call 5 without_first worker_process (LeaseTurnCall "Build-worker" "turn-1" false) bound_second.
Definition renamed_worker : Registry := call 6 without_first worker_process (RenameCall "Build-worker" "builder") leased_worker.
Definition stopped_worker : Registry := call 7 without_first worker_process (UnregisterCall "Build-worker") renamed_worker.

Lemma call_run at_time live self c r r' : r' = call at_time live self c r -> registry_step r r'.
Proof. intros ->. by exists (seen at_time live self), c. Qed.

Lemma relay_reachable : registry_reachable claimed_relay.
Proof. eapply rtc_r; [apply rtc_once|]; by eapply call_run. Qed.

Lemma bound_first_reachable : registry_reachable bound_first.
Proof. eapply rtc_r; [exact relay_reachable | by eapply call_run]. Qed.

Lemma bound_second_reachable : registry_reachable bound_second.
Proof. eapply rtc_r; [exact bound_first_reachable | by eapply call_run]. Qed.

Lemma stopped_run : rtc registry_step bound_second stopped_worker.
Proof. eapply rtc_r; [eapply rtc_r; [apply rtc_once|]|]; by eapply call_run. Qed.

Lemma stopped_reachable : registry_reachable stopped_worker.
Proof. eapply rtc_trans; [exact bound_second_reachable | exact stopped_run]. Qed.

(** The worker was declared under its slug, renamed, and its old name leads to it. *)
Example worker_names :
  require_thread (rg_document stopped_worker) "Build-worker" = require_thread (rg_document stopped_worker) "builder".
Proof. vm_compute. reflexivity. Qed.

Lemma registry_reads_back_witness : read_document (rg_document stopped_worker) = Ok (rg_document stopped_worker).
Proof. apply (registry_reads_back stopped_worker). exact stopped_reachable. Defined.

(** The first bridge held owner generation 3, which the second bind passed. *)
Lemma generation_never_returns_witness :
  holds OwnerCounter (rg_document bound_first) 101 3 /\ ~ holds OwnerCounter (rg_document stopped_worker) 101 3.
Proof.
  assert (holds OwnerCounter (rg_document bound_first) 101 3) as Hheld.
  { refine (bool_decide_unpack _ _). vm_compute. exact I. }
  split; [exact Hheld|].
  apply (generation_never_returns OwnerCounter bound_first bound_second stopped_worker 101 3).
  - exact bound_first_reachable.
  - apply rtc_once. by eapply call_run.
  - exact stopped_run.
  - exact Hheld.
  - refine (bool_decide_unpack _ _). vm_compute. exact I.
Defined.

Lemma name_keeps_birth_witness : leads_to (rg_document stopped_worker) "Build-worker" 100.
Proof.
  apply (name_keeps_birth leased_worker stopped_worker "Build-worker" 100).
  - eapply rtc_r; [exact bound_second_reachable | by eapply call_run].
  - eapply rtc_l; [|apply rtc_once]; (split; [by eapply call_run|]); refine (bool_decide_unpack _ _); vm_compute; exact I.
  - eexists. split; vm_compute; reflexivity.
Defined.

(** The first bridge, replaced by the second, is refused and cannot unbind it. *)
Lemma replaced_owner_fenced_witness :
  require_owner_process (seen 3 everyone first_bridge) (rg_document bound_first) (mkOwnerIdentity "relay" 101 3) first_bridge
    = Ok tt /\
  (editing (leave_external (seen 9 everyone first_bridge) (mkOwnerIdentity "relay" 101 3) first_bridge) stopped_worker).2
    = stopped_worker.
Proof.
  split; [vm_compute; reflexivity|].
  apply (replaced_owner_fenced bound_first bound_second stopped_worker (seen 3 everyone first_bridge)
    (seen 4 without_first second_bridge) "relay" first_bridge second_bridge (mkOwnerIdentity "relay" 101 3)
    (mkOwnerIdentity "relay" 101 4)).
  - exact bound_first_reachable.
  - vm_compute. reflexivity.
  - vm_compute. reflexivity.
  - reflexivity.
  - exact stopped_run.
Defined.

Definition leased_row_of_worker : Thread :=
  mkThread "Build-worker" (RecordedCreationTime 100) NativeThread None worker_process AgentThreadRole (StoredTurn 100 1) 1 ∅ 0
    false UnobservedTools UnobservedTools ReadyThreadWorkState "".

Lemma turn_lease_exact_witness :
  editing (release_turn (seen 6 without_first worker_process) (mkTurnLease "Build-worker" 100 1 "turn-2" 1 (100, 1)))
    leased_worker = (Ok (false, false), leased_worker).
Proof.
  destruct (turn_lease_exact (seen 5 without_first worker_process) "Build-worker" "turn-1" false bound_second leased_worker
    leased_row_of_worker 1 bound_second_reachable) as (a & lease & Ha & Hl & Ht & Hrefused & _).
  - vm_compute. reflexivity.
  - apply Hrefused; [vm_compute; reflexivity|]. intros E. injection E as _ _ E _ _. rewrite <- E in Ht. discriminate Ht.
Defined.

(** A second worker wants the name of the first and gets the next one. *)
Lemma claimed_thread_registered_witness :
  exists j t' r1,
    editing (claim_thread keep_rest any_tags (seen 8 without_first worker_process) worker) claimed_relay = (Ok t', r1) /\
    th_name t' = candidate (thread_slug "Build worker!") j.
Proof.
  destruct (claimed_thread_registered claimed_relay keep_rest any_tags (seen 8 without_first worker_process) worker 100)
    as (j & t' & r1 & H1 & H2 & _).
  - exact relay_reachable.
  - vm_compute. reflexivity.
  - reflexivity.
  - lia.
  - vm_compute. reflexivity.
  - vm_compute. reflexivity.
  - intros p H. discriminate H.
  - reflexivity.
  - exists j, t', r1. split; [exact H1 | exact H2].
Defined.

Example second_worker_name :
  claim_name (rg_document claimed_relay) "Build worker!" None = "Build-worker-2".
Proof. vm_compute. reflexivity. Qed.

(** The worker's claim of a file is live while it runs, and dead once it was unregistered. *)
Definition births_of (incarnation : string) : Z := if bool_decide (incarnation = "100.0") then 100 else 0.
Definition worker_claim : ClaimOwner :=
  mkClaimOwner "Build-worker" "100.0" 1 "message" "gen-1" (NativeClaim (mkRecordedScope 1 "op-1" "turn-1") "input-1") "/w/a".

Lemma withdrawn_claims_dead_witness :
  owner_live (registry_claims births_of (seen 5 without_first worker_process) (rg_document bound_second)) worker_claim = true /\
  owner_live (registry_claims births_of (seen 7 without_first worker_process) (rg_document stopped_worker)) worker_claim = false.
Proof.
  split; [vm_compute; reflexivity|].
  apply (withdrawn_claims_dead births_of bound_second renamed_worker stopped_worker stopped_worker
    (seen 5 without_first worker_process) (seen 7 without_first worker_process) (seen 7 without_first worker_process)
    (UnregisterCall "Build-worker") "Build-worker" worker_claim).
  - exact bound_second_reachable.
  - eapply rtc_r; [apply rtc_once|]; by eapply call_run.
  - vm_compute. reflexivity.
  - eexists. split; vm_compute; reflexivity.
  - left.
  - vm_compute. reflexivity.
  - apply rtc_refl.
Defined.

(** ** What the source says otherwise *)

(** [preserve_registration_history] says that a metadata writer cannot reset a finished turn;
    a writer that read the row before its turn finished resets it, as the generation is the
    same. *)
Definition released_worker : Registry :=
  call 6 without_first worker_process (ReleaseTurnCall (mkTurnLease "Build-worker" 100 1 "turn-1" 1 (100, 1))) leased_worker.
Definition redeclared_worker : Registry :=
  call 7 without_first worker_process (RegisterCall leased_row_of_worker RunningThreadStatus false) released_worker.

Example stale_declaration_reopens_turn :
  (executing <$> rd_threads (rg_document released_worker) !! "Build-worker") = Some false /\
  (executing <$> rd_threads (rg_document redeclared_worker) !! "Build-worker") = Some true.
Proof. split; vm_compute; reflexivity. Qed.

(** [change_tag] says that it retains owner state; of a thread whose process died it stores
    the observed status, after which the thread reads as fenced instead of stopped. *)
Definition worker_died : list (Z * Z) := [(9, 1)].
Definition retagged_worker : Registry :=
  call 8 worker_died second_bridge
    (ChangeTagCall [with_created (with_name worker "Build-worker") (RecordedCreationTime 100)] "old" (Some "new")) bound_second.

Example retagging_fences_dead_owner :
  status (seen 9 worker_died second_bridge) (rg_document bound_second) "Build-worker" = Ok StoppedThreadStatus /\
  status (seen 9 worker_died second_bridge) (rg_document retagged_worker) "Build-worker" = Ok StoppingThreadStatus.
Proof. split; vm_compute; reflexivity. Qed.
