(* ===== verification/NativeScenario.v ===== *)
(** * A worked scenario: one triage question

    A recipient of a message with a bounded triage wake asks a model whether the message needs
    a full answer: the input is reserved for the claim, its prompt is bound, the grant is taken,
    and the answer either decides the claim or is burned and asked again.  Then the cursor of
    the recipient advances through the input.  The theorems on native inputs and cursors are
    applied at these sessions. *)

From stdpp Require Import base gmap strings list sorting.
From Stdlib Require Import ZArith Lia.
From S2P Require Import Prelude Contracts ThreadStatus Threads RegistryDocument Registration Lifecycle WakePolicy.
From S2P Require Import AssignmentStates ResponseStates AttemptStates ExecutionStates Rows Sha256 Delivery TableGuards.
From S2P Require Import CohortRows Database Session SchemaSteps Stepwise Replay ParticipantStore AssignmentStore.
From S2P Require Import Cohort CohortFacts CohortPages Acceptance Snapshot AttemptStore SchemaInvariants Settlement.
From S2P Require Import NativeRows NativeSession NativeCursor NativeStore NativeSteps NativeFacts.
From S2P Require Import SourceCoverage NativeGuarantees CoverageFacts Scenario CohortScenario RegistryScenario.

(** ** The coordinator and the registry *)

Definition question : Delivered :=
  mkDelivered (message 4 "message-4") "sender" [mkFrozenRecipient "owner" "worker"]
    [WakeDecision "owner" DIRECT BoundedTriageWake] "sender-lookup" "revision-1" (Sha256.sha256_hex "message-4").
Definition waiting : Session := run (cohort_record question root) registered.

Definition batch : list WakeAssignment := map snd (map_to_list (wake_claims (db waiting))).

Definition thread_fields : ThreadFields :=
  mkThreadFields (fun birth => if birth =? 100 then "owner" else "") (fun _ => "") (fun _ => "") (fun _ => "")
    (fun _ => "") (fun _ _ => true) (fun _ _ => true).

Definition captured_thread : Thread :=
  match require_thread (rg_document leased_worker) "Build-worker" with Ok t => t | Err _ => worker end.
Definition registered_owner : RegistryOwner :=
  mkRegistryOwner captured_thread
    (match claim_generation (rg_document leased_worker) "Build-worker" with Ok n => n | Err _ => 0 end).
Definition participant_owner (generation : Z) : ParticipantOwner := mkParticipantOwner captured_thread generation.
Definition sees : Observation := RegistryScenario.seen 6 without_first worker_process.

(** ** The sessions *)

Definition nrun {A : Type} (m : NM A) (s : NativeSession) : NativeSession := (m s).2.
Strategy 1000 [nrun].

Definition token : string := Sha256.sha256_hex "token".
Definition prompt : string := "Does this need a full answer?".
Definition identity : NativeSessionIdentity := mkNativeSessionIdentity "session-1" "/sessions/1.jsonl".
Definition send_boundary : SendBoundary :=
  mkSendBoundary (rg_document leased_worker) sees true (Ok tt) (fun _ => Ok tt) true.
Definition shown (i : string) : NativeContextProof :=
  mkNativeContextProof i "session-1" "entry-1" 7 (Sha256.sha256_hex "context") 2000 "/sessions/1.jsonl" 1500.

Definition fresh_file : NativeSession := mkNativeSession waiting no_native_rows ∅.
#[local] Abbreviation reserve_input batch attempt i :=
  (native_reserve thread_fields worker_process (TriageNativeSend batch) (participant_owner 1) token attempt i).
Definition reserved : NativeSession := nrun (reserve_input batch 0 "input-1") fresh_file.
#[local] Abbreviation bind_input batch i :=
  (bind_expected_prompt thread_fields worker_process (TriageNativeSend batch) (participant_owner 1) i prompt).
Definition prompt_bound : NativeSession := nrun (bind_input batch "input-1") reserved.
#[local] Abbreviation grant_input batch i :=
  (start_once thread_fields worker_process send_boundary (TriageNativeSend batch) registered_owner (participant_owner 1)
     i token root prompt identity).
Definition sent : NativeSession := nrun (grant_input batch "input-1") prompt_bound.

(** The model chose a full answer. *)
#[local] Abbreviation decide_input decision :=
  (triage_commit thread_fields worker_process batch (participant_owner 1) "input-1" token (shown "input-1") decision).
Definition chosen : NativeSession := nrun (decide_input FullSelectedTriage) sent.

(** The answer could not be read: the claim is asked about once more. *)
#[local] Abbreviation burn_input :=
  (burn_turn thread_fields worker_process batch (participant_owner 1) "input-1" token (shown "input-1")).
Definition burned : NativeSession := nrun burn_input sent.
Definition batch_again : list WakeAssignment := map snd (map_to_list (wake_claims (db (ns_core burned)))).
Definition asked_again : NativeSession := nrun (reserve_input batch_again 1 "input-2") burned.

(** ** The cursor *)

Definition cursor_owner_of (generation : Z) : CursorOwner := mkCursorOwner registered_owner root generation None.
Definition proven : ProvenSourceCoverage :=
  mkProvenSourceCoverage root "owner" 4
    [mkHistoricalNativeInput root 4 "message-4" (hd "" (ids batch)) TriageNativeExecution "input-1" "owner" 1
       (shown "input-1") (mkNativeInputReference "input-1" TriageStage "session-1" 7) None true
       (TriageHistorical FullSelectedTriage)] [] None false (mkSourcePrefix 4).
Definition bus_now : BusSeen := mkBusSeen true 4.
#[local] Abbreviation advance_to captured coverage :=
  (advance_cursor thread_fields (cursor_owner_of 1) true sees (rg_document leased_worker) (Ok tt) bus_now captured coverage).
Definition advanced : NativeSession := nrun (advance_to UnstartedCursor proven) chosen.
Definition superseded : NativeSession :=
  nrun (core (advance_generation "owner" 1)) advanced.

(** ** Runs *)

Lemma nrun_ok {A : Type} (m : NM A) (s s' : NativeSession) :
  s' = nrun m s -> is_ok (m s).1 = true -> exists a, m s = (Ok a, s').
Proof. intros ->. unfold nrun. destruct (m s) as [[a|e] s']; [by exists a | done]. Qed.

Lemma system_run_trans s tr1 s1 tr2 s2 : system_run s tr1 s1 -> system_run s1 tr2 s2 -> system_run s (tr1 ++ tr2) s2.
Proof.
  intros H1 H2. induction H1 as [|s tr s' tr' s'' Hs _ IH]; [done|]. rewrite <- app_assoc. econstructor; [done|]. by apply IH.
Qed.

Lemma run_once s tr s' : system_step s tr s' -> system_run s tr s'.
Proof. intros H. rewrite <- (app_nil_r tr). econstructor; [done | constructor]. Qed.

Lemma run_operation {A : Type} (m : NM A) s tr s1 :
  operation A m -> system_run s tr s1 -> system_run s tr (nrun m s1).
Proof. intros Hm Hr. rewrite <- (app_nil_r tr). eapply system_run_trans; [done|]. by apply run_once, sys_operation. Qed.

Lemma fresh_file_start : native_start fresh_file.
Proof.
  split; [|done]. apply follows_reachable, follows_run; [apply stepwise_cohort_record | apply registered_follows].
Qed.

Lemma reserved_run : system_run fresh_file [] reserved.
Proof. exact (run_operation _ _ _ _ (op_reserve _ _ _ _ _ _ _) (run_nil _)). Qed.

Lemma bound_run : system_run fresh_file [] prompt_bound.
Proof. exact (run_operation _ _ _ _ (op_bind _ _ _ _ _ _) reserved_run). Qed.

Definition first_grant : Grant := mkGrant "input-1" TriageNativeExecution (ids batch).

Lemma grant_step : system_step prompt_bound [first_grant] sent.
Proof.
  destruct (nrun_ok (grant_input batch "input-1") prompt_bound sent) as [u H]; [reflexivity | vm_compute; reflexivity|].
  exact (sys_granted _ thread_fields worker_process send_boundary (TriageNativeSend batch) registered_owner
           (participant_owner 1) "input-1" token root prompt identity u sent eq_refl H).
Qed.

Lemma sent_run : system_run fresh_file [first_grant] sent.
Proof. exact (system_run_trans _ _ _ _ _ bound_run (run_once _ _ _ grant_step)). Qed.

Lemma shown_valid : context_valid (shown "input-1") = true.
Proof. vm_compute. reflexivity. Qed.

Lemma chosen_run : system_run fresh_file [first_grant] chosen.
Proof. exact (run_operation _ _ _ _ (op_commit _ _ _ _ _ _ _ _ shown_valid) sent_run). Qed.

Lemma burned_after_sent : system_run sent [] burned.
Proof. exact (run_operation _ _ _ _ (op_burn _ _ _ _ _ _ _ shown_valid) (run_nil _)). Qed.

Lemma asked_again_run : system_run fresh_file [first_grant] asked_again.
Proof.
  exact (run_operation _ _ _ _ (op_reserve _ _ _ _ _ _ _) (system_run_trans _ _ _ _ _ sent_run burned_after_sent)).
Qed.

Lemma advanced_run : system_run fresh_file [first_grant] advanced.
Proof. exact (run_operation _ _ _ _ (op_advance _ _ _ _ _ _ _ _ _) chosen_run). Qed.

(** A store method of the coordinator, run on its own *)
Lemma core_elsewhere {A : Type} (m : M A) s : stepwise m -> system_step s [] (nrun (core m) s).
Proof.
  intros Hm. specialize (Hm (ns_core s)). unfold nrun, core. destruct (m (ns_core s)) as [r c]. by apply sys_elsewhere.
Qed.

Lemma superseded_step : system_step advanced [] superseded.
Proof. exact (core_elsewhere _ _ (stepwise_advance_generation _ _)). Qed.

Lemma superseded_run : system_run fresh_file [first_grant] superseded.
Proof. exact (system_run_trans _ _ _ _ _ advanced_run (run_once _ _ _ superseded_step)). Qed.

(** ** Grants *)

Lemma prompt_granted_once_witness :
  system_run fresh_file [first_grant] sent /\
  (length (filter (fun g => gr_execution g = TriageNativeExecution /\ hd "" (ids batch) ∈ gr_sources g) [first_grant]) <= 2)%nat.
Proof.
  split; [exact sent_run|].
  exact (proj2 (proj2 (prompt_granted_once fresh_file [first_grant] sent fresh_file_start sent_run)) (hd "" (ids batch))).
Defined.

Lemma input_in (s : NativeSession) (i : string) (check : NativeRuntimeInput -> bool) :
  match inputs s !! i with Some row => check row | None => false end = true ->
  exists row, inputs s !! i = Some row /\ check row = true.
Proof. apply lookup_present. Qed.

Lemma native_records_ordered_witness :
  exists row, inputs chosen !! "input-1" = Some row /\ present (ni_verdict row) = true /\
    ni_stage row = TriageStage /\ present (ni_entry row) = true.
Proof.
  destruct (input_in chosen "input-1" (fun row => present (ni_verdict row))) as (row & Hrow & Hv); [vm_compute; reflexivity|].
  exists row. split; [exact Hrow|]. split; [exact Hv|].
  exact (proj1 (proj2 (proj2 (proj2 (native_records_ordered fresh_file [first_grant] chosen [] chosen fresh_file_start chosen_run
           (run_nil chosen) "input-1" row Hrow)))) Hv).
Defined.

Lemma grant_requires_authority_witness :
  exists u, grant_input batch "input-1" prompt_bound = (Ok u, sent) /\
    refused (grant_input batch "input-1") chosen.
Proof.
  destruct (nrun_ok (grant_input batch "input-1") prompt_bound sent) as [u Hu]; [reflexivity | vm_compute; reflexivity|].
  exists u. split; [exact Hu|].
  exact (proj2 (grant_requires_authority fresh_file [] prompt_bound thread_fields worker_process
           send_boundary (TriageNativeSend batch) registered_owner (participant_owner 1) "input-1" token root prompt
           identity u sent fresh_file_start bound_run eq_refl Hu) []
           chosen (run_operation _ _ _ _ (op_commit _ _ _ _ _ _ _ _ shown_valid) (run_nil sent))
           thread_fields worker_process send_boundary (TriageNativeSend batch) registered_owner (participant_owner 1)
           token root prompt identity).
Defined.

(** The owner restarted: its earlier generation can not reserve again. *)
Lemma superseded_owner_never_sends_witness :
  refused (reserve_input batch 1 "input-3") superseded.
Proof.
  destruct (lookup_present (owner_generations (db (ns_core superseded)) !! "owner")
              (fun g => 1 <? og_generation g)) as (g & Hg & Hlt); [vm_compute; reflexivity|].
  assert (recipient_lookup (TriageNativeSend batch) = Ok "owner") as Hl by (vm_compute; reflexivity).
  exact (proj1 (superseded_owner_never_sends fresh_file [first_grant] superseded [] superseded thread_fields worker_process
           (TriageNativeSend batch) (participant_owner 1) "owner" g fresh_file_start superseded_run (run_nil _) Hl Hg
           (proj1 (Z.ltb_lt _ _) Hlt)) token 1 "input-3").
Defined.

(** ** Triage *)

(** After the replacement was reserved nothing asks about the claim again. *)
Lemma triage_reserved_once_per_attempt_witness :
  exists c a, c ∈ batch_again /\ reserve_input batch_again 1 "input-2" burned = (Ok a, asked_again) /\
    refused (reserve_input batch_again 1 "input-3") asked_again.
Proof.
  destruct batch_again as [|c rest] eqn:E; [vm_compute in E; discriminate|].
  destruct (nrun_ok (reserve_input batch_again 1 "input-2") burned asked_again) as [a Ha]; [reflexivity | vm_compute; reflexivity|].
  assert (c ∈ c :: rest) as Hc by apply list_elem_of_here. exists c, a. split; [exact Hc|].
  rewrite <- E. split; [exact Ha|]. rewrite <- E in Hc.
  assert (wa_id c ∈ ids batch_again) as Hid by (apply list_elem_of_fmap_2; exact Hc).
  exact (proj2 (triage_reserved_once_per_attempt fresh_file [first_grant] burned thread_fields worker_process batch_again
           (participant_owner 1) token 1 "input-2" a asked_again c fresh_file_start
           (system_run_trans _ _ _ _ _ sent_run burned_after_sent) Hc Ha) [] asked_again (run_nil _) thread_fields
           worker_process batch_again (participant_owner 1) token 1 "input-3" Hid (or_intror eq_refl)).
Defined.

Lemma triage_answer_settles_batch_witness :
  exists settled u, decide_input FullSelectedTriage sent = (Ok settled, chosen) /\ burn_input sent = (Ok u, burned) /\
    refused (decide_input IgnoreSelectedTriage) chosen /\
    exists row, inputs sent !! "input-1" = Some row /\ present (ni_entry (context_recorded row (shown "input-1"))) = true /\
      answer_writes batch "input-1" (context_recorded row (shown "input-1")) sent burned.
Proof.
  destruct (nrun_ok (decide_input FullSelectedTriage) sent chosen) as [settled Hs]; [reflexivity | vm_compute; reflexivity|].
  destruct (nrun_ok burn_input sent burned) as [u Hu]; [reflexivity | vm_compute; reflexivity|].
  assert (NoDup (ids batch)) as Hnd by (refine (bool_decide_unpack _ _); vm_compute; exact I).
  destruct (triage_answer_settles_batch fresh_file [first_grant] sent thread_fields worker_process batch (participant_owner 1)
              "input-1" token (shown "input-1") fresh_file_start sent_run Hnd shown_valid) as (Hcommit & Hburn & _).
  exists settled, u. split; [exact Hs|]. split; [exact Hu|]. split.
  - exact (proj2 (proj2 (proj2 (Hcommit FullSelectedTriage settled chosen Hs))) IgnoreSelectedTriage).
  - exact (proj1 (Hburn u burned Hu)).
Defined.

(** ** Cursors *)

Lemma cursors_proven_and_monotone_witness :
  exists c, cursors advanced !! (root, "owner") = Some c /\ cu_injected c = 4 /\
    ((cu_injected c = 0 /\ cu_input c = None) \/ (0 < cu_injected c /\ names_shown_input advanced c)) /\
    exists c', cursors superseded !! (root, "owner") = Some c' /\ cursor_later c c'.
Proof.
  destruct (lookup_present (cursors advanced !! (root, "owner")) (fun c => cu_injected c =? 4)) as (c & Hc & H4);
    [vm_compute; reflexivity|].
  exists c. split; [exact Hc|]. split; [exact (proj1 (Z.eqb_eq _ _) H4)|].
  exact (proj2 (proj2 (proj2 (cursors_proven_and_monotone fresh_file [first_grant] advanced [] superseded fresh_file_start
           advanced_run (run_once _ _ _ superseded_step) root "owner" c Hc)))).
Defined.

Lemma passed_owner_never_advances_witness :
  refused (advance_to UnstartedCursor proven) superseded.
Proof.
  destruct (lookup_present (owner_generations (db (ns_core superseded)) !! "owner")
              (fun g => 1 <? og_generation g)) as (g & Hg & Hlt); [vm_compute; reflexivity|].
  assert (co_lookup thread_fields (cursor_owner_of 1) = "owner") as Hl by (vm_compute; reflexivity).
  rewrite <- Hl in Hg.
  exact (passed_owner_never_advances fresh_file [first_grant] superseded [] superseded thread_fields (cursor_owner_of 1)
           fresh_file_start superseded_run (run_nil _)
           (or_intror (ex_intro _ g (conj Hg (proj1 (Z.ltb_lt _ _) Hlt)))) true sees (rg_document leased_worker) (Ok tt)
           bus_now UnstartedCursor proven).
Defined.

Lemma cursor_advance_records_coverage_witness :
  exists state, advance_to UnstartedCursor proven chosen = (Ok state, advanced) /\ state_covered state = 4 /\
    cursors advanced !! (root, "owner") = state_row state.
Proof.
  destruct (nrun_ok (advance_to UnstartedCursor proven) chosen advanced) as [state Hs]; [reflexivity | vm_compute; reflexivity|].
  pose proof (proj2 (cursor_advance_records_coverage fresh_file [first_grant] chosen thread_fields (cursor_owner_of 1) true sees
           (rg_document leased_worker) (Ok tt) bus_now UnstartedCursor proven state advanced fresh_file_start chosen_run Hs)) as (Hrow & _).
  assert (co_lookup thread_fields (cursor_owner_of 1) = "owner") as Hl by (vm_compute; reflexivity).
  rewrite Hl in Hrow. exists state. split; [exact Hs|]. split; [|exact Hrow].
  unfold state_covered. change (co_root (cursor_owner_of 1)) with root in Hrow. rewrite <- Hrow. vm_compute. reflexivity.
Defined.

(** ** Coverage reads *)

(** The model found nothing to do. *)
Definition ignored : NativeSession := nrun (decide_input IgnoreSelectedTriage) sent.

Definition journal (b : PromptBinding) : Prop := pb_digest b = native_request_digest prompt.
Definition evidence_reads : EvidenceReads :=
  mkEvidenceReads (fun _ => Ok tt) (fun _ _ => Some true) (fun b => Ok (bool_decide (pb_digest b = native_request_digest prompt))).
Definition view_of (s : NativeSession) : SourceView := mkSourceView s s s.
Definition pages_now (_ : nat) : PageView := mkPageView (Ok tt) false [question] bus_now bus_now.
#[local] Abbreviation coverage_at s :=
  (coverage_since root "owner" evidence_reads (fun _ => view_of s) UnstartedCursor 4 bus_now pages_now).

Lemma ignored_run : system_run fresh_file [first_grant] ignored.
Proof. exact (run_operation _ _ _ _ (op_commit _ _ _ _ _ _ _ _ shown_valid) sent_run). Qed.

Lemma one_message_ascending : StronglySorted (fun a b : Delivered => seq_of a < seq_of b) [question].
Proof. repeat constructor. Qed.

Lemma pages_steady : steady 4 [question] pages_now.
Proof. intros k. split_and!; reflexivity. Qed.

(** The model chose a full turn: until it ran the message holds the cursor. *)
Lemma coverage_pages_agree_witness :
  findings (coverage_at chosen) = Ok (0, [], [], Some 4).
Proof.
  rewrite (coverage_pages_agree root "owner" evidence_reads (fun _ => view_of chosen) UnstartedCursor 4 [question] bus_now
             pages_now one_message_ascending pages_steady ltac:(vm_compute; split; discriminate) eq_refl).
  vm_compute. reflexivity.
Defined.

Lemma coverage_barrier_witness :
  exists c, coverage_at ignored = Ok c /\ pc_covered c = 4 /\
    exists inputs, source_standing root "owner" evidence_reads (view_of ignored) question = Ok (SettledSource inputs) /\
      inputs ⊆ pc_inputs c.
Proof.
  destruct (coverage_at ignored) as [c|e] eqn:Hc; [|vm_compute in Hc; discriminate].
  assert (pc_covered c = 4 /\ pc_no_wake c = []) as [H4 Hn] by (vm_compute in Hc; injection Hc as <-; split; reflexivity).
  destruct (proj1 (proj2 (coverage_barrier root "owner" evidence_reads (fun _ => view_of ignored) UnstartedCursor 4 [question]
              bus_now pages_now c one_message_ascending (fun _ => eq_refl) Hc)) question (list_elem_of_here _ _) eq_refl
              ltac:(rewrite H4; vm_compute; split; [reflexivity | discriminate])) as [[_ Hin]|Hs].
  - rewrite Hn in Hin. destruct (not_elem_of_nil _ Hin).
  - exists c. split; [reflexivity|]. split; [exact H4 | exact Hs].
Defined.

(** The refresh after the answer *)
Definition ignored_coverage : ProvenSourceCoverage := match coverage_at ignored with Ok c => c | Err _ => proven end.
Definition after_refresh : NativeSession := nrun (advance_to UnstartedCursor ignored_coverage) ignored.

Abbreviation recorded_history := (history root "owner" [question] journal).

Lemma answered_history : recorded_history [ignored; sent; prompt_bound; reserved; fresh_file] ignored.
Proof.
  assert (recorded_history [reserved; fresh_file] reserved) as H1.
  { refine (history_step _ _ _ _ _ fresh_file [] reserved (history_start _ _ _ _ _ fresh_file_start)
              (sys_operation _ _ _ (op_reserve _ _ _ _ _ _ _)) _). vm_compute. reflexivity. }
  assert (recorded_history [prompt_bound; reserved; fresh_file] prompt_bound) as H2.
  { refine (history_step _ _ _ _ _ _ [] prompt_bound H1 (sys_operation _ _ _ (op_bind _ _ _ _ _ _)) _).
    vm_compute. reflexivity. }
  assert (recorded_history [sent; prompt_bound; reserved; fresh_file] sent) as H3.
  { refine (history_step _ _ _ _ _ _ _ sent H2 grant_step _). vm_compute. reflexivity. }
  refine (history_step _ _ _ _ _ _ [] ignored H3 (sys_operation _ _ _ (op_commit _ _ _ _ _ _ _ _ shown_valid)) _).
  vm_compute. reflexivity.
Qed.

Lemma refreshed_history : recorded_history [after_refresh; ignored; sent; prompt_bound; reserved; fresh_file] after_refresh.
Proof.
  destruct (nrun_ok (advance_to UnstartedCursor ignored_coverage) ignored after_refresh) as [state Hs];
    [reflexivity | vm_compute; reflexivity|].
  refine (history_refresh _ _ _ _ _ ignored thread_fields (cursor_owner_of 1) evidence_reads (fun _ => view_of ignored) 4 bus_now
            pages_now UnstartedCursor ignored_coverage true sees (rg_document leased_worker) (Ok tt) bus_now state after_refresh
            answered_history eq_refl _ _ _ (fun _ => eq_refl) _ Hs).
  - vm_compute. reflexivity.
  - intros b Hb. injection Hb as Hb. exact (proj1 (bool_decide_eq_true _) Hb).
  - intros q. split_and!; apply list_elem_of_here.
  - vm_compute. reflexivity.
Qed.

Lemma cursor_covers_proven_sources_witness :
  exists c, cursors after_refresh !! (root, "owner") = Some c /\ cu_covered c = 4 /\
    exists v, seen_before [after_refresh; ignored; sent; prompt_bound; reserved; fresh_file] v /\
      source_proven root "owner" journal v question.
Proof.
  destruct (lookup_present (cursors after_refresh !! (root, "owner")) (fun c => cu_covered c =? 4)) as (c & Hc & H4);
    [vm_compute; reflexivity|].
  apply Z.eqb_eq in H4. exists c. split; [exact Hc|]. split; [exact H4|].
  exact (cursor_covers_proven_sources root "owner" [question] journal _ after_refresh c question one_message_ascending
           refreshed_history Hc (list_elem_of_here _ _) eq_refl
           ltac:(rewrite H4; vm_compute; split; [reflexivity | discriminate])).
Defined.
